(* ===== verification/_CoqProject ===== *)
-Q . S2P
Prelude.v
Bitops.v
Kfifo.v
Sort.v
RbTree.v
RbTreeRep.v
RbTreeRules.v
RbTreeInsert.v
RbTreeErase.v
RbTreeOps.v
RwSem.v
CipherBase.v
Tea.v
Blowfish.v
CastBase.v
Cast5.v
Cast6.v
Mem.v
Modes.v
ModesSpec.v
Scatterwalk.v
Blkcipher.v
BlkcipherProof.v
CryptoModes.v
Timer.v
TimerProof.v
Locks.v
LocksProof.v
LocksOps.v
LocksWf.v
LocksSafe.v
LocksSystem.v
LocksDeadlock.v
LocksTheorems.v
Radix.v
RadixNode.v
RadixShape.v
RadixOps.v
RadixInsert.v
RadixAlloc.v
RadixTags.v
RadixDelete.v
RadixGang.v
RadixTheorems.v
Resource.v
ResourceTree.v
ResourceLinks.v
ResourceOps.v
ResourceRequest.v
ResourceInsert.v
ResourceDescend.v
ResourceRegion.v
ResourceRelease.v
ResourceAlloc.v
ResourceAdjust.v
ResourceSystem.v
ResourceShow.v
ResourceTheorems.v
TextSearch.v
Kmp.v
BoyerMoore.v
TextSearchTheorems.v
Crc.v
CrcProof.v
CrcBig.v
CrcTheorems.v
