(* ===== verification/Prelude.v ===== *)
(** * Verification of core subsystems of the Linux 2.6.22 kernel tree

    The sources are those of a kernel for a network appliance: Linux 2.6.22.18 for
    a 32-bit little-endian ARM board ([configs/cut3_nokdb.config]: uniprocessor, no
    preemption, [HZ] 100).  The development models library and core code on which
    the rest of the kernel is built: data structures, synchronisation, timers, file
    locks, address ranges, the block cipher layer, text search and cyclic redundancy
    checks.  Each definition translates the code named in its file; the proofs are about those definitions.

    ** The parts and their files

    - [Prelude]: machine integers with their wrap-around, arrays with faults on
      access out of range, the monad [ST] of programs with state and faults, shared
      lemmas and tactics.
    - [Bitops]: [include/asm-arm/bitops.h], [include/linux/log2.h],
      [lib/hweight.c].  Used by [Kfifo] (rounding sizes up to powers of two).
    - [Kfifo]: the byte ring buffer of [kernel/kfifo.c].  The state is the buffer
      with its two free-running 32-bit indices; the operations are the functions of
      the source.  The module [Spsc] splits put and get into single byte copies and
      index updates of one writer and one reader without a lock.
    - [Sort]: the heapsort of [lib/sort.c] on byte offsets.
    - [RbTree], [RbTreeRep], [RbTreeRules], [RbTreeInsert], [RbTreeErase],
      [RbTreeOps]: [lib/rbtree.c].  The code is a pointer program on a heap of
      nodes with parent and colour in one word; [Rep] says which tree a heap holds,
      the rules say what each primitive does to it.
    - [RwSem]: [lib/rwsem-spinlock.c].  [wait_lock] makes each operation atomic;
      the wait loops of blocked tasks interleave with all other tasks.
    - [CipherBase], [Tea], [Blowfish], [CastBase], [Cast5], [Cast6]:
      [crypto/tea.c], [crypto/blowfish.c], [crypto/cast5.c], [crypto/cast6.c].  The
      class [BlockCipher] of [CipherBase] is what a cipher promises to the modes;
      each cipher has its instance.
    - [Mem], [Modes], [ModesSpec], [Scatterwalk], [Blkcipher], [BlkcipherProof],
      [CryptoModes]: [crypto/ecb.c], [crypto/cbc.c], [crypto/pcbc.c],
      [crypto/scatterwalk.c], [crypto/blkcipher.c].  A mode of operation works
      through the pages of two scatterlists; the class [Mode] is what a chunk
      routine promises to the walk.
    - [Timer], [TimerProof]: the timer wheel of [kernel/timer.c], with handlers
      that may call the timer interface.
    - [Locks], [LocksProof], [LocksOps], [LocksWf], [LocksSafe], [LocksSystem],
      [LocksDeadlock], [LocksTheorems]: POSIX and BSD file locks of [fs/locks.c].
      A state is the list of locks of every inode with the requests that wait; the
      kernel lock makes operations atomic, and [flock_lock_file] is split where it
      gives the kernel lock up.
    - [Radix], [RadixNode], [RadixShape], [RadixOps], [RadixInsert], [RadixAlloc],
      [RadixTags], [RadixDelete], [RadixGang], [RadixTheorems]: the radix trees of
      [lib/radix-tree.c] on a heap of nodes, with the slab, the pool of preloaded
      nodes, the tags and the gang lookups.
    - [Resource], [ResourceTree], [ResourceLinks], [ResourceOps],
      [ResourceRequest], [ResourceInsert], [ResourceDescend], [ResourceRegion],
      [ResourceRelease], [ResourceAlloc], [ResourceAdjust], [ResourceShow],
      [ResourceSystem], [ResourceTheorems]: the trees of address ranges of
      [kernel/resource.c] on a heap of linked resources.  [wf] says which forest a
      heap holds; [ResourceSystem] has all calls as one transition system.
    - [TextSearch], [Kmp], [BoyerMoore], [TextSearchTheorems]: [lib/textsearch.c] with
      the algorithms of [lib/ts_kmp.c] and [lib/ts_bm.c].  The text is delivered in
      blocks by a function of the bytes consumed; a prepared search is a configuration
      and a reference to the module of its algorithm.
    - [Crc], [CrcProof], [CrcBig], [CrcTheorems]: [lib/crc32.c] with its table
      generator [lib/gen_crc32table.c], [lib/libcrc32c.c], [lib/crc-ccitt.c],
      [lib/crc16.c], [lib/crc-itu-t.c] and [lib/bitrev.c], with their tables.
      [CrcProof] handles registers that shift right and any routine over a table,
      [CrcBig] registers that shift left and their byte-swapped form.

    ** What the theorems show

    - Refinement of an abstract specification: [kfifo_trace_refines] (a bounded
      queue), [timer_wheel_refines] (a map from timers to due times),
      [crypto_op_correct] (the mode as a function on the bytes of the request),
      [radix_tree_refines] (a finite map with tag sets).
    - Functional correctness with termination: [rb_insert_correct],
      [rb_erase_correct], [rb_replace_correct], [rb_traversal_correct],
      [sort_correct], [radix_tree_gang_lookup_correct], [posix_lock_granted],
      [posix_lock_refused], [run_timers_complete], [timer_on_time],
      [crypto_op_chained], [insert_resource_laminar], [allocate_resource_lowest],
      [kmp_search_correct].
    - Safety and progress in every reachable state of interleaved tasks:
      [rwsem_exclusion], [rwsem_progress], [rwsem_fifo], [spsc_safe],
      [locks_no_conflict], [locks_no_lost_wakeup], [locks_deadlock_free],
      [locks_lists_ordered], [resource_tree_safe].
    - Round trips: the four cipher families, [crypto_op_roundtrip],
      [posix_lock_to_flock_roundtrip], [request_region_exact].
    - Bounds and equivalences: [walk_buffer_bounds], [flock64_to_posix_lock_exact],
      [crc_tables_correct] (tables against one bit at a time), [ctx_xor_correct],
      [swap_functions_agree].  [crc_detects_bursts] is what the checks are for.
    - Situations in which the code does not do what it means to or what its comments
      say: [copy_iv_failure_runs], [short_request_flush], [timers_not_fifo],
      [deadlock_detection_loops], [flock_lock_file_race],
      [flock_to_posix_lock_truncates], [radix_tree_preload_insufficient],
      [resource_arithmetic_limits], [bm_search_correct] (what the search does find).

    ** Conventions, bounds and fuel

    A machine integer is a [Z] in the range of its type, and every operation that
    can leave the range is written with [u8], [u16], [u32], [u64], [s32] or [s64].
    A null or wild pointer, an access out of range and a [BUG_ON] are [None].  A
    loop that is not structurally recursive takes a number of rounds; a function of
    the source starts its loop with a number that the theorems show to be enough
    (the height of a tree, the number of nodes or of list members, the number of
    bytes left), or the theorem says how many rounds suffice: [Z.of_nat fuel] at
    least [2 ^ 32] for the gang lookups, which visit every index at most once.
    Allocators are oracles: a list of answers, each an address or a failure, for
    [kmem_cache_alloc], [kzalloc] and the buffers of the cipher walk, an address or a
    flag for the allocations of file locks and fifos, and for search configurations a function of the size, which
    is computed in 32 bits as in the source.  A text search of [n] bytes takes at most
    [n + 1] blocks, which is the fuel its theorem asks for; [__run_timers] takes a round
    for each jiffy up to the last one that the clock reaches while handlers run.

    ** Conditions of the theorems

    These conditions are not checked by the code; the theorem in parentheses shows what
    happens without them.  [crypto_op_correct] asks that the copy of a misaligned vector can be allocated
    ([copy_iv_failure_runs] is the other case).  [posix_lock_refused] asks, for requests
    that sleep, that no owner requests a lock while it waits for another
    ([deadlock_detection_loops]).  [allocate_resource_lowest] is about power-of-two
    alignments, without a callback, outside the last aligned block of the address space
    ([resource_arithmetic_limits]).  [kmp_search_correct] and [bm_search_correct] have
    the wrap-around of the allocated size as a case of their own, and
    [radix_tree_gang_lookup_correct] the tree of height 0.

    ** Not modelled

    - Interrupts and SMP: the configuration has one CPU, and spin locks and the
      kernel lock appear as atomicity.  Timer interrupts are modelled where they matter to
      the timer wheel, between and during handlers.  RCU readers that run concurrently with a
      writer of a radix tree are left out; a freed node is reused only after its
      grace period.
    - Memory ordering of the lock-free kfifo: the barriers make the index updates
      visible in program order, which is how the steps are taken.
    - Leases and mandatory locks, [fcntl_setlk] and the system call layer of
      [fs/locks.c]; CPU hotplug, deferrable timers and [del_timer_sync] on SMP in
      [kernel/timer.c]; registration of algorithms, key length flags and the
      asynchronous interface of [crypto/]; managed regions and the [reserve=] option
      of [kernel/resource.c]; the search with a state machine of [lib/ts_fsm.c], the
      loading of search modules and the callback that ends a search.
    - The rest of the kernel, in particular the scheduler, memory management, file
      systems, the network stack and the drivers: the models would depend on
      hardware, on assembly code or on state shared with most of the kernel.  The
      manifest lists these parts with the reason for each. *)

From stdpp Require Export base list numbers option gmap.
From Stdlib Require Export ZArith Lia Bool.
#[export] Set Default Goal Selector "!".
Export ListNotations.
Open Scope Z_scope.

(** ** Machine integers

    The kernel is built for 32-bit ARM ([configs/cut3_nokdb.config]):
    [int], [unsigned int], [long], [unsigned long] and [size_t] all have 32
    bits.  A machine integer is a [Z] and every operation that may leave the
    range writes the wrap-around out with the functions below. *)

Declare Scope kernel_scope.
Delimit Scope kernel_scope with K.
Open Scope kernel_scope.

Definition BITS_PER_LONG : Z := 32.

Definition u8 (z : Z) : Z := z mod 2 ^ 8.
Definition u16 (z : Z) : Z := z mod 2 ^ 16.
Definition u32 (z : Z) : Z := z mod 2 ^ 32.
Definition u64 (z : Z) : Z := z mod 2 ^ 64.

(** The signed reading of a 32-bit pattern. *)
Definition s32 (z : Z) : Z :=
  let m := u32 z in if m <? 2 ^ 31 then m else m - 2 ^ 32.

Definition is_u32 (z : Z) : Prop := 0 <= z < 2 ^ 32.
Definition is_u8 (z : Z) : Prop := 0 <= z < 2 ^ 8.

Lemma u32_range z : is_u32 (u32 z).
Proof. unfold is_u32, u32. apply Z.mod_pos_bound. lia. Qed.

Lemma u8_range z : is_u8 (u8 z).
Proof. unfold is_u8, u8. apply Z.mod_pos_bound. lia. Qed.

Lemma u32_small z : is_u32 z -> u32 z = z.
Proof. unfold is_u32, u32. intros. apply Z.mod_small. lia. Qed.

Lemma u32_add_u32_l a b : u32 (u32 a + b) = u32 (a + b).
Proof. unfold u32. apply Zplus_mod_idemp_l. Qed.

Lemma u32_add_u32_r a b : u32 (a + u32 b) = u32 (a + b).
Proof. unfold u32. apply Zplus_mod_idemp_r. Qed.

Lemma u32_sub_u32_l a b : u32 (u32 a - b) = u32 (a - b).
Proof. unfold u32. apply Zminus_mod_idemp_l. Qed.

Lemma u32_sub_u32_r a b : u32 (a - u32 b) = u32 (a - b).
Proof. unfold u32. apply Zminus_mod_idemp_r. Qed.

Lemma u32_u32 a : u32 (u32 a) = u32 a.
Proof. unfold u32. apply Zmod_mod. Qed.

Lemma s32_small z : - 2 ^ 31 <= z < 2 ^ 31 -> s32 z = z.
Proof.
  intros. unfold s32, u32. destruct (decide (0 <= z)).
  - rewrite Z.mod_small by lia. destruct (Z.ltb_spec z (2 ^ 31)); lia.
  - rewrite <- (Z_mod_plus_full z 1), Z.mod_small by lia.
    destruct (Z.ltb_spec (z + 1 * 2 ^ 32) (2 ^ 31)); lia.
Qed.

Create HintDb kint discriminated.
#[export] Hint Resolve u32_range u8_range : kint.
Create Rewrite HintDb kwrap.
#[export] Hint Rewrite u32_add_u32_l u32_add_u32_r u32_sub_u32_l u32_sub_u32_r u32_u32 : kwrap.

(** Splits every boolean integer comparison of the goal. *)
Ltac zcases :=
  repeat match goal with
  | |- context [?a <? ?b] => destruct (Z.ltb_spec a b)
  | |- context [?a <=? ?b] => destruct (Z.leb_spec a b)
  | |- context [?a =? ?b] => destruct (Z.eqb_spec a b)
  | H : context [?a <? ?b] |- _ => destruct (Z.ltb_spec a b)
  | H : context [?a <=? ?b] |- _ => destruct (Z.leb_spec a b)
  | H : context [?a =? ?b] |- _ => destruct (Z.eqb_spec a b)
  end.

(** ** Bit lemmas *)

Lemma land_ones_mod a n : 0 <= n -> Z.land a (2 ^ n - 1) = a mod 2 ^ n.
Proof.
  intros. rewrite <- Z.land_ones by lia. f_equal. rewrite Z.ones_equiv. lia.
Qed.

Lemma testbit_high a n i : 0 <= a < 2 ^ n -> n <= i -> Z.testbit a i = false.
Proof.
  intros Ha Hi. destruct (decide (0 <= n)) as [Hn|Hn].
  - rewrite <- (Z.mod_small a (2 ^ n)) by lia. apply Z.mod_pow2_bits_high. lia.
  - rewrite Z.pow_neg_r in Ha by lia. lia.
Qed.

Lemma land_u32 w x : is_u32 w -> is_u32 (Z.land w (u32 x)).
Proof.
  unfold is_u32. intros Hw. assert (0 <= Z.land w (u32 x)) as H0 by (apply Z.land_nonneg; lia). split; [done|]. apply Z.lt_nge. intros Hge.
  assert (Z.testbit (Z.land w (u32 x)) (Z.log2 (Z.land w (u32 x))) = true) as Ht by (apply Z.bit_log2; lia).
  rewrite Z.land_spec, (testbit_high w 32) in Ht; [done|lia|]. apply Z.log2_le_pow2; lia.
Qed.

(** ** Memory as lists, with faults

    A fault ([None]) stands for an access outside its object or for [BUG()];
    a definition that can fault returns an [option], and a theorem that says
    the result is [Some _] says in particular that no fault occurs. *)

(** [BUG_ON(c)]. *)
Definition BUG_ON (c : bool) : option unit := if c then None else Some tt.

(** [memcpy(dst + doff, src + soff, n)] between two distinct objects. *)
Definition memcpy {A} (dst : list A) (doff : Z) (src : list A) (soff n : Z) : option (list A) :=
  if (0 <=? doff) && (0 <=? soff) && (0 <=? n) &&
     (doff + n <=? Z.of_nat (length dst)) && (soff + n <=? Z.of_nat (length src))
  then Some (take (Z.to_nat doff) dst ++ take (Z.to_nat n) (drop (Z.to_nat soff) src)
             ++ drop (Z.to_nat (doff + n)) dst)
  else None.

(** [a[i]] and [a[i] = x] on an array. *)
Definition aget {A} (l : list A) (i : Z) : option A :=
  if 0 <=? i then l !! Z.to_nat i else None.

Definition aset {A} (l : list A) (i : Z) (x : A) : option (list A) :=
  if (0 <=? i) && (i <? Z.of_nat (length l)) then Some (<[Z.to_nat i := x]> l) else None.

Lemma memcpy_Some {A} (dst : list A) doff src soff n :
  0 <= doff -> 0 <= soff -> 0 <= n ->
  doff + n <= Z.of_nat (length dst) -> soff + n <= Z.of_nat (length src) ->
  memcpy dst doff src soff n =
    Some (take (Z.to_nat doff) dst ++ take (Z.to_nat n) (drop (Z.to_nat soff) src)
          ++ drop (Z.to_nat (doff + n)) dst).
Proof.
  intros. unfold memcpy.
  rewrite !(proj2 (Z.leb_le _ _)) by lia. reflexivity.
Qed.

Lemma memcpy_length {A} (dst : list A) doff src soff n d' :
  memcpy dst doff src soff n = Some d' -> length d' = length dst.
Proof.
  unfold memcpy. intros H.
  destruct (_ && _) eqn:E in H; [|done]. simplify_eq.
  rewrite !andb_true_iff, !Z.leb_le in E.
  rewrite !length_app, length_take, length_take, !length_drop. lia.
Qed.

(** The bytes after a [memcpy]: the copied window, and the rest unchanged. *)
Lemma memcpy_lookup {A} (dst : list A) doff src soff n d' i :
  memcpy dst doff src soff n = Some d' ->
  d' !! i = if decide (doff <= Z.of_nat i < doff + n)
            then src !! Z.to_nat (soff + (Z.of_nat i - doff)) else dst !! i.
Proof.
  unfold memcpy. intros H.
  destruct (_ && _) eqn:E in H; [|done]. simplify_eq.
  rewrite !andb_true_iff, !Z.leb_le in E.
  assert (Z.to_nat doff <= length dst)%nat as Hd by lia.
  destruct (decide (Z.of_nat i < doff)) as [Hlt|Hge].
  - rewrite decide_False by lia.
    rewrite lookup_app_l by (rewrite length_take; lia).
    apply lookup_take_lt. lia.
  - rewrite lookup_app_r by (rewrite length_take; lia).
    rewrite length_take, Nat.min_l by lia.
    case_decide as Hc.
    + rewrite lookup_app_l by (rewrite length_take, length_drop; lia).
      rewrite lookup_take_lt by lia. rewrite lookup_drop. f_equal. lia.
    + rewrite lookup_app_r by (rewrite length_take, length_drop; lia).
      rewrite length_take, length_drop, lookup_drop. f_equal. lia.
Qed.

Lemma aget_lookup {A} (l : list A) i : 0 <= i -> aget l i = l !! Z.to_nat i.
Proof. intros. unfold aget. by rewrite (proj2 (Z.leb_le 0 i)). Qed.

Lemma aset_Z {A} (l : list A) i x : 0 <= i < Z.of_nat (length l) ->
  aset l i x = Some (<[Z.to_nat i := x]> l).
Proof.
  intros. unfold aset. by rewrite (proj2 (Z.leb_le 0 i)), (proj2 (Z.ltb_lt _ _)) by lia.
Qed.

Lemma aset_length {A} (l : list A) i x l' : aset l i x = Some l' -> length l' = length l.
Proof. unfold aset. destruct (_ && _); [|done]. intros [= <-]. apply length_insert. Qed.

(** ** Stateful code with faults

    [ST S A] is code that reads and writes a state [S], returns an [A] and may
    fault.  A [triple] is total correctness: from a state that satisfies the
    precondition the code does not fault and ends in the postcondition. *)

Definition ST (S A : Type) : Type := S -> option (A * S).

#[export] Instance ST_ret S : MRet (ST S) := fun A a s => Some (a, s).
#[export] Instance ST_bind S : MBind (ST S) := fun A B k m s =>
  match m s with
  | Some (a, s') => k a s'
  | None => None
  end.

Definition st_fault {S A} : ST S A := fun _ => None.
Definition st_get {S} : ST S S := fun s => Some (s, s).
Definition st_put {S} (s : S) : ST S unit := fun _ => Some (tt, s).
Definition st_lift {S A} (o : option A) : ST S A :=
  fun s => match o with Some a => Some (a, s) | None => None end.

Definition triple {S A} (P : S -> Prop) (m : ST S A) (Q : A -> S -> Prop) : Prop :=
  forall s, P s -> exists a s', m s = Some (a, s') /\ Q a s'.

(** Running the first instruction. *)
Lemma bind_run {S A B} (m : ST S A) (k : A -> ST S B) s a s' :
  m s = Some (a, s') -> (m ≫= k) s = k a s'.
Proof. intros E. unfold mbind, ST_bind. by rewrite E. Qed.

Lemma triple_ret {S A} (P : S -> Prop) (a : A) (Q : A -> S -> Prop) :
  (forall s, P s -> Q a s) -> triple P (mret a) Q.
Proof. intros H s Hs. exists a, s. split; [done|by apply H]. Qed.

Lemma triple_bind {S A B} (P : S -> Prop) (m : ST S A) (k : A -> ST S B) R Q :
  triple P m R -> (forall a, triple (R a) (k a) Q) -> triple P (m ≫= k) Q.
Proof.
  intros Hm Hk s Hs. destruct (Hm s Hs) as (a & s1 & E & Hr).
  destruct (Hk a s1 Hr) as (b & s2 & E2 & Hq). exists b, s2. split; [|done].
  unfold mbind, ST_bind. by rewrite E.
Qed.

Lemma triple_conseq {S A} (P P' : S -> Prop) (m : ST S A) (Q Q' : A -> S -> Prop) :
  triple P' m Q' -> (forall s, P s -> P' s) -> (forall a s, Q' a s -> Q a s) -> triple P m Q.
Proof.
  intros H H1 H2 s Hs. destruct (H s (H1 s Hs)) as (a & s' & E & Hq).
  exists a, s'. split; [done|by apply H2].
Qed.
