(* ===== verification/Bitops.v ===== *)
(** * Bit operations: [include/asm-arm/bitops.h], [include/linux/log2.h],
      [lib/hweight.c]

    The find-last-set family, the power-of-two helpers and the population
    counts, each as the source computes it, and their specification in terms
    of [Z.log2] and [Z.testbit]. *)

From S2P Require Import Prelude.

Module Bitops.

(** One halving step of [constant_fls]: when the top [k] bits are clear, shift
    them out and lower the count. *)
Definition fls_step (mask k : Z) (s : Z * Z) : Z * Z :=
  let '(x, r) := s in
  if Z.land x mask =? 0 then (u32 (Z.shiftl x k), r - k) else (x, r).

Definition constant_fls (x : Z) : Z :=
  if x =? 0 then 0
  else snd (fls_step 0x80000000 1 (fls_step 0xc0000000 2 (fls_step 0xf0000000 4
             (fls_step 0xff000000 8 (fls_step 0xffff0000 16 (x, 32)))))).

(** The ARMv5 [clz] instruction on a 32-bit operand. *)
Definition clz (x : Z) : Z := if x =? 0 then 32 else 31 - Z.log2 x.

(** The run-time form of the [fls] macro. *)
Definition fls (x : Z) : Z := 32 - clz x.

Definition ffs (x : Z) : Z := fls (Z.land x (u32 (- x))).

Definition __ffs (x : Z) : Z := ffs x - 1.

Definition ffz (x : Z) : Z := __ffs (u32 (Z.lnot x)).

Definition fls_long (l : Z) : Z := fls l.

Definition __ilog2_u32 (n : Z) : Z := fls n - 1.

Definition is_power_of_2 (n : Z) : bool :=
  negb (n =? 0) && (Z.land n (u32 (n - 1)) =? 0).

(** [1UL << fls_long(n - 1)]; an ARM register shift by 32 yields 0. *)
Definition __roundup_pow_of_two (n : Z) : Z :=
  u32 (Z.shiftl 1 (fls_long (u32 (n - 1)))).

Definition hweight32 (w : Z) : Z :=
  let res := u32 (w - Z.land (Z.shiftr w 1) 0x55555555) in
  let res := u32 (Z.land res 0x33333333 + Z.land (Z.shiftr res 2) 0x33333333) in
  let res := Z.land (u32 (res + Z.shiftr res 4)) 0x0F0F0F0F in
  let res := u32 (res + Z.shiftr res 8) in
  Z.land (u32 (res + Z.shiftr res 16)) 0x000000FF.

Definition hweight16 (w : Z) : Z :=
  let res := u32 (w - Z.land (Z.shiftr w 1) 0x5555) in
  let res := u32 (Z.land res 0x3333 + Z.land (Z.shiftr res 2) 0x3333) in
  let res := Z.land (u32 (res + Z.shiftr res 4)) 0x0F0F in
  Z.land (u32 (res + Z.shiftr res 8)) 0x00FF.

Definition hweight8 (w : Z) : Z :=
  let res := u32 (w - Z.land (Z.shiftr w 1) 0x55) in
  let res := u32 (Z.land res 0x33 + Z.land (Z.shiftr res 2) 0x33) in
  Z.land (u32 (res + Z.shiftr res 4)) 0x0F.

(** ** Lemmas *)

Lemma land_top_zero x k : 0 <= k <= 32 -> is_u32 x ->
  (Z.land x (2 ^ 32 - 2 ^ (32 - k)) =? 0) = (x <? 2 ^ (32 - k)).
Proof.
  intros Hk Hx. unfold is_u32 in Hx.
  replace (2 ^ 32 - 2 ^ (32 - k)) with (Z.shiftl (Z.ones k) (32 - k)).
  2:{ rewrite Z.ones_equiv, Z.shiftl_mul_pow2 by lia.
      replace (2 ^ 32) with (2 ^ k * 2 ^ (32 - k)) by (rewrite <- Z.pow_add_r by lia; f_equal; lia).
      lia. }
  assert (Z.land x (Z.shiftl (Z.ones k) (32 - k)) = Z.shiftl (Z.shiftr x (32 - k)) (32 - k)) as ->.
  { apply Z.bits_inj'. intros i Hi. rewrite Z.land_spec, !Z.shiftl_spec by lia.
    destruct (decide (i < 32 - k)).
    - rewrite !(Z.testbit_neg_r _ (i - (32 - k))) by lia. apply andb_false_r.
    - rewrite Z.shiftr_spec by lia. replace (i - (32 - k) + (32 - k)) with i by lia.
      destruct (decide (i < 32)).
      + rewrite Z.ones_spec_low by lia. apply andb_true_r.
      + rewrite (testbit_high x 32) by lia. done. }
  rewrite Z.shiftl_mul_pow2, Z.shiftr_div_pow2 by lia.
  assert (0 < 2 ^ (32 - k)) by (apply Z.pow_pos_nonneg; lia).
  destruct (Z.ltb_spec x (2 ^ (32 - k))).
  - rewrite Z.div_small by lia. done.
  - apply Z.eqb_neq. assert (1 <= x / 2 ^ (32 - k)) by (apply Z.div_le_lower_bound; lia). nia.
Qed.

(** A halving step keeps [r + log2 x] and doubles the known magnitude. *)
Lemma fls_step_spec k j x r : 0 < k -> 0 <= j - k -> j <= 32 ->
  j = 2 * k -> 2 ^ (32 - j) <= x -> is_u32 x ->
  let '(x', r') := fls_step (2 ^ 32 - 2 ^ (32 - k)) k (x, r) in
  2 ^ (32 - k) <= x' /\ is_u32 x' /\ r' + Z.log2 x' = r + Z.log2 x.
Proof.
  intros Hk Hj1 Hj2 Hj Hx Hu. unfold fls_step.
  rewrite land_top_zero by (done || lia).
  destruct (Z.ltb_spec x (2 ^ (32 - k))) as [Hlt|]; [|done].
  assert (0 < 2 ^ (32 - j)) by (apply Z.pow_pos_nonneg; lia).
  assert (0 < 2 ^ k) by (apply Z.pow_pos_nonneg; lia).
  assert (2 ^ (32 - k) * 2 ^ k = 2 ^ 32) by (rewrite <- Z.pow_add_r by lia; f_equal; lia).
  assert (2 ^ (32 - j) * 2 ^ k = 2 ^ (32 - k)) by (rewrite <- Z.pow_add_r by lia; f_equal; lia).
  unfold is_u32 in *. rewrite Z.shiftl_mul_pow2 by lia.
  rewrite u32_small by (unfold is_u32; nia).
  rewrite Z.log2_mul_pow2 by lia. nia.
Qed.

(** The compile-time [constant_fls] agrees with the [clz]-based run-time
    [fls] on every 32-bit value, and both are one more than the index of the
    highest set bit. *)
Lemma constant_fls_fls x : is_u32 x -> constant_fls x = fls x.
Proof.
  intros Hx. unfold constant_fls, fls, clz. destruct (Z.eqb_spec x 0) as [->|Hne]; [done|].
  assert (1 <= x) by (unfold is_u32 in Hx; lia).
  pose proof (fls_step_spec 16 32 x 32) as S1.
  change (2 ^ 32 - 2 ^ (32 - 16)) with 0xffff0000 in S1.
  destruct (fls_step 0xffff0000 16 (x, 32)) as [x1 r1].
  destruct S1 as (B1 & U1 & E1); try lia; try done.
  pose proof (fls_step_spec 8 16 x1 r1) as S2.
  change (2 ^ 32 - 2 ^ (32 - 8)) with 0xff000000 in S2.
  destruct (fls_step 0xff000000 8 (x1, r1)) as [x2 r2].
  destruct S2 as (B2 & U2 & E2); try lia; try done.
  pose proof (fls_step_spec 4 8 x2 r2) as S3.
  change (2 ^ 32 - 2 ^ (32 - 4)) with 0xf0000000 in S3.
  destruct (fls_step 0xf0000000 4 (x2, r2)) as [x3 r3].
  destruct S3 as (B3 & U3 & E3); try lia; try done.
  pose proof (fls_step_spec 2 4 x3 r3) as S4.
  change (2 ^ 32 - 2 ^ (32 - 2)) with 0xc0000000 in S4.
  destruct (fls_step 0xc0000000 2 (x3, r3)) as [x4 r4].
  destruct S4 as (B4 & U4 & E4); try lia; try done.
  pose proof (fls_step_spec 1 2 x4 r4) as S5.
  change (2 ^ 32 - 2 ^ (32 - 1)) with 0x80000000 in S5.
  destruct (fls_step 0x80000000 1 (x4, r4)) as [x5 r5].
  destruct S5 as (B5 & U5 & E5); try lia; try done.
  assert (Z.log2 x5 = 31) by (apply Z.log2_unique; unfold is_u32 in U5; lia).
  simpl. lia.
Qed.

Lemma fls_pos x : 0 < x -> fls x = Z.log2 x + 1.
Proof. intros. unfold fls, clz. destruct (Z.eqb_spec x 0); lia. Qed.

Lemma land_pred_pow2 k : 0 <= k -> Z.land (2 ^ k) (2 ^ k - 1) = 0.
Proof.
  intros. rewrite land_ones_mod by lia. apply Z_mod_same_full.
Qed.

(** A positive word with [n & (n-1) = 0] is a power of two. *)
Lemma land_pred_zero_pow2 n : 0 < n -> Z.land n (n - 1) = 0 -> n = 2 ^ Z.log2 n.
Proof.
  intros Hn Hl. pose proof (Z.log2_spec n Hn) as [H1 H2].
  destruct (decide (n = 2 ^ Z.log2 n)) as [|Hne]; [done|exfalso].
  assert (Z.testbit n (Z.log2 n) = true) as Hb by (apply Z.bit_log2; lia).
  assert (Z.log2 (n - 1) = Z.log2 n) as Hl2.
  { apply Z.log2_unique; [apply Z.log2_nonneg|]. lia. }
  assert (Z.testbit (n - 1) (Z.log2 n) = true) as Hb'.
  { rewrite <- Hl2. apply Z.bit_log2.
    assert (1 <= 2 ^ Z.log2 n) by (pose proof (Z.pow_pos_nonneg 2 (Z.log2 n)); pose proof (Z.log2_nonneg n); lia).
    lia. }
  assert (Z.testbit (Z.land n (n - 1)) (Z.log2 n) = true) as Hc
    by (rewrite Z.land_spec, Hb, Hb'; done).
  rewrite Hl, Z.testbit_0_l in Hc. done.
Qed.

Lemma is_power_of_2_spec n : is_u32 n ->
  is_power_of_2 n = true <-> exists k, 0 <= k < 32 /\ n = 2 ^ k.
Proof.
  intros Hn. unfold is_power_of_2. rewrite andb_true_iff, negb_true_iff, Z.eqb_neq, Z.eqb_eq.
  unfold is_u32 in Hn. split.
  - intros [Hne Hl]. rewrite u32_small in Hl by (unfold is_u32; lia).
    exists (Z.log2 n). split.
    + split; [apply Z.log2_nonneg|]. apply Z.log2_lt_pow2; lia.
    + apply land_pred_zero_pow2; lia.
  - intros (k & Hk & ->). assert (0 < 2 ^ k) by (apply Z.pow_pos_nonneg; lia).
    split; [lia|]. rewrite u32_small by (unfold is_u32; lia). apply land_pred_pow2. lia.
Qed.

(** Rounding up stays in range below [2^31] and gives the least power of two
    that is not below the argument. *)
Lemma roundup_spec n : 1 <= n <= 2 ^ 31 ->
  exists k, 0 <= k <= 31 /\ __roundup_pow_of_two n = 2 ^ k /\ n <= 2 ^ k /\
    (forall j, 0 <= j -> n <= 2 ^ j -> k <= j).
Proof.
  intros Hn. unfold __roundup_pow_of_two, fls_long.
  rewrite (u32_small (n - 1)) by (unfold is_u32; lia).
  destruct (decide (n = 1)) as [->|Hne].
  - exists 0. repeat split; lia.
  - rewrite fls_pos by lia. set (k := Z.log2 (n - 1)).
    assert (0 <= k) by apply Z.log2_nonneg.
    pose proof (Z.log2_spec (n - 1)) as Hs.
    assert (k < 31) by (apply Z.log2_lt_pow2; lia).
    exists (k + 1). assert (0 < 2 ^ k) by (apply Z.pow_pos_nonneg; lia).
    rewrite Z.shiftl_1_l. split; [lia|]. split.
    + apply u32_small. unfold is_u32. split; [apply Z.pow_nonneg; lia|].
      apply Z.pow_lt_mono_r; lia.
    + fold k in Hs. rewrite Z.add_1_r. split; [lia|]. intros j Hj Hle.
      assert (k < j); [|lia]. apply (Z.pow_lt_mono_r_iff 2); lia.
Qed.

End Bitops.
