(* ===== verification/Kfifo.v ===== *)
(** * The kernel FIFO: [kernel/kfifo.c], [include/linux/kfifo.h]

    A byte ring buffer whose two indices run freely modulo [2^32] and are
    masked on every access.  The section [Refinement] shows that every
    operation implements the bounded byte queue [contents]; the module
    [Spsc] models one reader and one writer that run without a lock and
    interleave at every byte. *)

From S2P Require Import Prelude Bitops.

Module Kfifo.
Import Bitops.

Definition ENOMEM : Z := 12.

Record kfifo := mk_kfifo {
  buffer : list Z;      (* bytes *)
  size : Z;             (* unsigned int *)
  in_ : Z;              (* unsigned int *)
  out : Z               (* unsigned int *)
}.

(** [kmalloc] is a parameter: [node_ok] tells whether the allocation of the
    [struct kfifo] succeeds.  [None] is [BUG()], [Some (inl e)] is
    [ERR_PTR(-e)]. *)
Definition kfifo_init (buf : list Z) (sz : Z) (node_ok : bool) : option (Z + kfifo) :=
  _ ← BUG_ON (negb (Z.land sz (u32 (sz - 1)) =? 0));
  if negb node_ok then Some (inl ENOMEM)
  else Some (inr {| buffer := buf; size := sz; in_ := 0; out := 0 |}).

(** [kmalloc_buf n] is the memory block of [n] bytes, when there is one. *)
Definition kfifo_alloc (sz : Z) (kmalloc_buf : Z -> option (list Z)) (node_ok : bool)
    : option (Z + kfifo) :=
  sz ← (if negb (Z.land sz (u32 (sz - 1)) =? 0)
        then _ ← BUG_ON (0x80000000 <? sz); Some (__roundup_pow_of_two sz)
        else Some sz);
  match kmalloc_buf sz with
  | None => Some (inl ENOMEM)
  | Some buf => kfifo_init buf sz node_ok
  end.

Definition __kfifo_put (fifo : kfifo) (buf : list Z) (len : Z) : option (kfifo * Z) :=
  let len := Z.min len (u32 (size fifo - in_ fifo + out fifo)) in
  (* first put the data starting from fifo->in to buffer end *)
  let pos := Z.land (in_ fifo) (u32 (size fifo - 1)) in
  let l := Z.min len (u32 (size fifo - pos)) in
  b ← memcpy (buffer fifo) pos buf 0 l;
  (* then put the rest (if any) at the beginning of the buffer *)
  b ← memcpy b 0 buf l (u32 (len - l));
  Some ({| buffer := b; size := size fifo; in_ := u32 (in_ fifo + len); out := out fifo |}, len).

(** [buf] is the destination; the result carries its new content. *)
Definition __kfifo_get (fifo : kfifo) (buf : list Z) (len : Z) : option (kfifo * list Z * Z) :=
  let len := Z.min len (u32 (in_ fifo - out fifo)) in
  let pos := Z.land (out fifo) (u32 (size fifo - 1)) in
  let l := Z.min len (u32 (size fifo - pos)) in
  buf ← memcpy buf 0 (buffer fifo) pos l;
  buf ← memcpy buf l (buffer fifo) 0 (u32 (len - l));
  Some ({| buffer := buffer fifo; size := size fifo; in_ := in_ fifo;
           out := u32 (out fifo + len) |}, buf, len).

Definition __kfifo_reset (fifo : kfifo) : kfifo :=
  {| buffer := buffer fifo; size := size fifo; in_ := 0; out := 0 |}.

(** The locked versions: the spinlock makes the body atomic. *)
Definition kfifo_reset (fifo : kfifo) : kfifo := __kfifo_reset fifo.

Definition kfifo_put (fifo : kfifo) (buf : list Z) (len : Z) : option (kfifo * Z) :=
  __kfifo_put fifo buf len.

Definition kfifo_get (fifo : kfifo) (buf : list Z) (len : Z) : option (kfifo * list Z * Z) :=
  r ← __kfifo_get fifo buf len;
  let '(fifo, buf, ret) := r in
  (* optimization: if the FIFO is empty, set the indices to 0 *)
  let fifo := if in_ fifo =? out fifo
              then {| buffer := buffer fifo; size := size fifo; in_ := 0; out := 0 |}
              else fifo in
  Some (fifo, buf, ret).

Definition __kfifo_len (fifo : kfifo) : Z := u32 (in_ fifo - out fifo).

Definition kfifo_len (fifo : kfifo) : Z := __kfifo_len fifo.

(** ** The abstract queue *)

(** Well-formedness of the concrete state. *)
Record wf (f : kfifo) : Prop := {
  wf_pow2 : exists k, 0 <= k <= 31 /\ size f = 2 ^ k;
  wf_buffer : Z.of_nat (length (buffer f)) = size f;
  wf_in : is_u32 (in_ f);
  wf_out : is_u32 (out f);
  wf_fill : u32 (in_ f - out f) <= size f
}.

(** Cell [i] of the queue lives at index [out + i] modulo the size. *)
Definition cell (f : kfifo) (i : Z) : Z :=
  default 0 (buffer f !! Z.to_nat ((out f + i) mod size f)).

Definition contents (f : kfifo) : list Z :=
  map (fun i => cell f (Z.of_nat i)) (seq 0 (Z.to_nat (u32 (in_ f - out f)))).

(** ** Lemmas *)

Lemma contents_length f : Z.of_nat (length (contents f)) = u32 (in_ f - out f).
Proof.
  unfold contents. rewrite length_map, length_seq. pose proof (u32_range (in_ f - out f)) as H.
  unfold is_u32 in H. lia.
Qed.

Lemma contents_lookup f i :
  contents f !! i = if decide (Z.of_nat i < u32 (in_ f - out f)) then Some (cell f (Z.of_nat i)) else None.
Proof.
  unfold contents. pose proof (u32_range (in_ f - out f)) as H. unfold is_u32 in H.
  change (map ?g ?l) with (g <$> l). rewrite list_lookup_fmap.
  case_decide.
  - rewrite lookup_seq_lt by lia. simpl. f_equal.
  - rewrite lookup_seq_ge by lia. done.
Qed.

Lemma size_bounds f : wf f -> 1 <= size f <= 2 ^ 31.
Proof.
  intros [(k & Hk & ->) _ _ _ _].
  split; [apply (Z.pow_le_mono_r 2 0); lia|apply Z.pow_le_mono_r; lia].
Qed.

(** Masking with [size - 1] is reduction modulo the size. *)
Lemma mask_mod f i : wf f -> Z.land i (u32 (size f - 1)) = i mod size f.
Proof.
  intros Hwf. pose proof (size_bounds f Hwf). destruct (wf_pow2 f Hwf) as (k & Hk & E).
  rewrite u32_small by (unfold is_u32; lia). rewrite E. apply land_ones_mod. lia.
Qed.

(** The free-running indices agree with their values modulo the size. *)
Lemma u32_mod_size f a : wf f -> u32 a mod size f = a mod size f.
Proof.
  intros Hwf. destruct (wf_pow2 f Hwf) as (k & Hk & ->). unfold u32.
  replace (2 ^ 32) with (2 ^ k * 2 ^ (32 - k)) by (rewrite <- Z.pow_add_r by lia; f_equal; lia).
  assert (0 < 2 ^ k) by (apply Z.pow_pos_nonneg; lia).
  assert (0 < 2 ^ (32 - k)) by (apply Z.pow_pos_nonneg; lia).
  rewrite Z.rem_mul_r by lia. rewrite Z.mul_comm, Z_mod_plus_full. apply Zmod_mod.
Qed.

Lemma wf_free f : wf f ->
  u32 (size f - in_ f + out f) = size f - u32 (in_ f - out f).
Proof.
  intros Hwf. pose proof (size_bounds f Hwf). pose proof (wf_fill f Hwf).
  pose proof (u32_range (in_ f - out f)) as Hr. unfold is_u32 in Hr.
  replace (size f - in_ f + out f) with (size f - (in_ f - out f)) by lia.
  rewrite <- u32_sub_u32_r. apply u32_small. unfold is_u32. lia.
Qed.

(** The position of a queue offset that is less than one lap ahead of [p]. *)
Lemma wrap_pos s p i : 0 < s -> 0 <= i < s ->
  (p + i) mod s = if decide (p mod s + i < s) then p mod s + i else p mod s + i - s.
Proof.
  intros Hs Hi. pose proof (Z.mod_pos_bound p s Hs).
  rewrite <- Zplus_mod_idemp_l. case_decide.
  - apply Z.mod_small. lia.
  - rewrite <- (Z_mod_plus_full _ (-1)). rewrite Z.mod_small; lia.
Qed.

(** Adding to the in index, and how far it is ahead of the out index. *)
Lemma fill_add f n : wf f -> 0 <= n -> u32 (in_ f - out f) + n <= size f ->
  u32 (u32 (in_ f + n) - out f) = u32 (in_ f - out f) + n.
Proof.
  intros Hwf Hn Hs. pose proof (size_bounds f Hwf).
  pose proof (u32_range (in_ f - out f)) as Hr. unfold is_u32 in Hr.
  rewrite u32_sub_u32_l. replace (in_ f + n - out f) with (in_ f - out f + n) by lia.
  rewrite <- u32_add_u32_l. apply u32_small. unfold is_u32. lia.
Qed.

Lemma fill_sub f n : wf f -> 0 <= n <= u32 (in_ f - out f) ->
  u32 (in_ f - u32 (out f + n)) = u32 (in_ f - out f) - n.
Proof.
  intros Hwf Hn. pose proof (u32_range (in_ f - out f)) as Hr. unfold is_u32 in Hr.
  rewrite u32_sub_u32_r. replace (in_ f - (out f + n)) with (in_ f - out f - n) by lia.
  rewrite <- u32_sub_u32_l. apply u32_small. unfold is_u32. lia.
Qed.

(** The position where byte [j] of a put goes. *)
Lemma in_pos f i : wf f -> (out f + (u32 (in_ f - out f) + i)) mod size f = (in_ f + i) mod size f.
Proof.
  intros Hwf. replace (out f + (u32 (in_ f - out f) + i)) with (u32 (in_ f - out f) + (out f + i)) by lia.
  rewrite <- Zplus_mod_idemp_l, u32_mod_size, Zplus_mod_idemp_l by done. f_equal. lia.
Qed.


(** The two [memcpy] calls of a put write [src] around the ring. *)
Lemma ring_write (b src : list Z) s p n : 0 < s -> Z.of_nat (length b) = s ->
  0 <= n <= s -> n <= Z.of_nat (length src) ->
  let l := Z.min n (s - p mod s) in
  exists b1 b2, memcpy b (p mod s) src 0 l = Some b1 /\ memcpy b1 0 src l (n - l) = Some b2 /\
    length b2 = length b /\
    forall j, 0 <= j < s ->
      b2 !! Z.to_nat ((p + j) mod s) =
        if decide (j < n) then src !! Z.to_nat j else b !! Z.to_nat ((p + j) mod s).
Proof.
  intros Hs Hb Hn Hsrc l. pose proof (Z.mod_pos_bound p s Hs) as Hp.
  destruct (memcpy b (p mod s) src 0 l) as [b1|] eqn:E1; [|rewrite memcpy_Some in E1 by lia; done].
  pose proof (memcpy_length _ _ _ _ _ _ E1) as L1.
  destruct (memcpy b1 0 src l (n - l)) as [b2|] eqn:E2; [|rewrite memcpy_Some in E2 by lia; done].
  pose proof (memcpy_length _ _ _ _ _ _ E2) as L2.
  exists b1, b2. split; [done|]. split; [done|]. split; [lia|]. intros j Hj.
  rewrite (memcpy_lookup _ _ _ _ _ _ _ E2), (memcpy_lookup _ _ _ _ _ _ _ E1).
  rewrite wrap_pos by lia. repeat case_decide; try lia; try done; f_equal; lia.
Qed.

(** The two [memcpy] calls of a get read around the ring into [dst]. *)
Lemma ring_read (b dst : list Z) s p n : 0 < s -> Z.of_nat (length b) = s ->
  0 <= n <= s -> n <= Z.of_nat (length dst) ->
  let l := Z.min n (s - p mod s) in
  exists d1 d2, memcpy dst 0 b (p mod s) l = Some d1 /\ memcpy d1 l b 0 (n - l) = Some d2 /\
    length d2 = length dst /\
    forall j, d2 !! j = if decide (Z.of_nat j < n) then b !! Z.to_nat ((p + Z.of_nat j) mod s)
                        else dst !! j.
Proof.
  intros Hs Hb Hn Hd l. pose proof (Z.mod_pos_bound p s Hs) as Hp.
  destruct (memcpy dst 0 b (p mod s) l) as [d1|] eqn:E1; [|rewrite memcpy_Some in E1 by lia; done].
  pose proof (memcpy_length _ _ _ _ _ _ E1) as L1.
  destruct (memcpy d1 l b 0 (n - l)) as [d2|] eqn:E2; [|rewrite memcpy_Some in E2 by lia; done].
  pose proof (memcpy_length _ _ _ _ _ _ E2) as L2.
  exists d1, d2. split; [done|]. split; [done|]. split; [lia|]. intros j.
  rewrite (memcpy_lookup _ _ _ _ _ _ _ E2), (memcpy_lookup _ _ _ _ _ _ _ E1).
  destruct (decide (Z.of_nat j < n)).
  - rewrite wrap_pos by lia. repeat case_decide; try lia; try done; f_equal; lia.
  - repeat case_decide; try lia; done.
Qed.

(** The bytes of the queue are those of the ring positions. *)
Lemma buffer_cell f i : wf f -> buffer f !! Z.to_nat ((out f + i) mod size f) = Some (cell f i).
Proof.
  intros Hwf. pose proof (size_bounds f Hwf). unfold cell.
  pose proof (Z.mod_pos_bound (out f + i) (size f)).
  destruct (lookup_lt_is_Some_2 (buffer f) (Z.to_nat ((out f + i) mod size f))) as [x ->]; [|done].
  pose proof (wf_buffer f Hwf). lia.
Qed.

(** ** What one operation does to the queue *)

(** [__kfifo_put] never faults, keeps the representation well formed,
    accepts [min len free] bytes and appends exactly those to the queue, for
    every position of the free-running indices (wrap-around included). *)
Lemma __kfifo_put_spec f buf len :
  wf f -> is_u32 len -> len <= Z.of_nat (length buf) ->
  exists f', __kfifo_put f buf len = Some (f', Z.min len (size f - Z.of_nat (length (contents f)))) /\
    wf f' /\ size f' = size f /\ out f' = out f /\
    contents f' = contents f ++ take (Z.to_nat (Z.min len (size f - Z.of_nat (length (contents f))))) buf.
Proof.
  intros Hwf Hlen Hbuf. rewrite contents_length.
  pose proof (size_bounds f Hwf) as Hsz. pose proof (wf_fill f Hwf) as Hfill.
  pose proof (u32_range (in_ f - out f)) as Hr. unfold is_u32 in Hlen, Hr.
  unfold __kfifo_put. rewrite wf_free, mask_mod by done.
  set (n := Z.min len (size f - u32 (in_ f - out f))).
  pose proof (Z.mod_pos_bound (in_ f) (size f)).
  rewrite (u32_small (size f - in_ f mod size f)) by (unfold is_u32; lia).
  rewrite (u32_small (n - _)) by (unfold is_u32; lia).
  destruct (ring_write (buffer f) buf (size f) (in_ f) n) as (b1 & b2 & E1 & E2 & L & Hw);
    [lia|apply (wf_buffer f Hwf)|lia|lia|].
  rewrite E1. simpl. rewrite E2. simpl.
  eexists. split; [done|].
  assert (wf (mk_kfifo b2 (size f) (u32 (in_ f + n)) (out f))) as Hwf'.
  { split; simpl; [apply Hwf|rewrite L; apply Hwf|apply u32_range|apply Hwf|].
    rewrite fill_add by (done || lia). lia. }
  split; [done|]. split; [done|]. split; [done|].
  apply list_eq. intros i. rewrite contents_lookup. simpl. rewrite fill_add by (done || lia).
  destruct (decide (Z.of_nat i < u32 (in_ f - out f))).
  - rewrite decide_True by lia. rewrite lookup_app_l by (pose proof (contents_length f); lia).
    rewrite contents_lookup, decide_True by lia.
    rewrite <- !(buffer_cell _ _ Hwf), <- (buffer_cell _ _ Hwf'). simpl.
    replace ((out f + Z.of_nat i) mod size f)
      with ((in_ f + (size f - u32 (in_ f - out f) + Z.of_nat i)) mod size f).
    2:{ rewrite <- in_pos by done. rewrite <- (Z_mod_plus_full _ (-1)). f_equal. lia. }
    rewrite Hw by lia. rewrite decide_False by lia. done.
  - rewrite lookup_app_r by (pose proof (contents_length f); lia).
    case_decide as Hi.
    + rewrite <- (buffer_cell _ _ Hwf'). simpl.
      replace (out f + Z.of_nat i) with (out f + (u32 (in_ f - out f) + (Z.of_nat i - u32 (in_ f - out f)))) by lia.
      rewrite in_pos, Hw, decide_True by (done || lia).
      rewrite lookup_take_lt by (pose proof (contents_length f); lia).
      f_equal. pose proof (contents_length f). lia.
    + symmetry. apply lookup_ge_None_2. rewrite length_take.
      pose proof (contents_length f). lia.
Qed.

(** [__kfifo_get] never faults and moves the first [min len fill] bytes
    of the queue, in order, to the destination; the rest of the destination
    and the rest of the queue are unchanged. *)
Lemma __kfifo_get_spec f dst len :
  wf f -> is_u32 len -> len <= Z.of_nat (length dst) ->
  let n := Z.min len (Z.of_nat (length (contents f))) in
  exists f' dst', __kfifo_get f dst len = Some (f', dst', n) /\
    wf f' /\ size f' = size f /\ in_ f' = in_ f /\
    dst' = take (Z.to_nat n) (contents f) ++ drop (Z.to_nat n) dst /\
    contents f' = drop (Z.to_nat n) (contents f).
Proof.
  intros Hwf Hlen Hdst. rewrite contents_length.
  pose proof (size_bounds f Hwf) as Hsz. pose proof (wf_fill f Hwf) as Hfill.
  pose proof (u32_range (in_ f - out f)) as Hr. unfold is_u32 in Hlen, Hr.
  unfold __kfifo_get. rewrite mask_mod by done.
  set (n := Z.min len (u32 (in_ f - out f))). cbv zeta.
  pose proof (Z.mod_pos_bound (out f) (size f)).
  rewrite (u32_small (size f - out f mod size f)) by (unfold is_u32; lia).
  rewrite (u32_small (n - _)) by (unfold is_u32; lia).
  destruct (ring_read (buffer f) dst (size f) (out f) n) as (d1 & d2 & E1 & E2 & L & Hw);
    [lia|apply (wf_buffer f Hwf)|lia|lia|].
  rewrite E1. simpl. rewrite E2. simpl.
  eexists _, _. split; [done|].
  assert (wf (mk_kfifo (buffer f) (size f) (in_ f) (u32 (out f + n)))) as Hwf'.
  { split; simpl; [apply Hwf|apply Hwf|apply Hwf|apply u32_range|].
    rewrite fill_sub by (done || lia). lia. }
  split; [done|]. split; [done|]. split; [done|]. split.
  - apply list_eq. intros i. rewrite Hw. pose proof (contents_length f).
    case_decide.
    + rewrite lookup_app_l by (rewrite length_take; lia).
      rewrite lookup_take_lt, contents_lookup, decide_True by lia. apply buffer_cell. done.
    + rewrite lookup_app_r by (rewrite length_take; lia).
      rewrite lookup_drop. f_equal. rewrite length_take. lia.
  - apply list_eq. intros i. rewrite lookup_drop, !contents_lookup. simpl.
    rewrite fill_sub by (done || lia). repeat case_decide; try lia; [|done].
    rewrite <- (buffer_cell _ _ Hwf), <- (buffer_cell _ _ Hwf'). simpl.
    do 2 f_equal. rewrite <- Zplus_mod_idemp_l, u32_mod_size, Zplus_mod_idemp_l by done.
    f_equal. lia.
Qed.

Lemma empty_contents b sz i : contents (mk_kfifo b sz i i) = [].
Proof. unfold contents. simpl. rewrite Z.sub_diag. done. Qed.

Lemma wf_reset f : wf f -> wf (__kfifo_reset f).
Proof.
  intros Hwf. pose proof (size_bounds f Hwf). split; simpl; try apply Hwf; try done.
  rewrite Z.sub_diag. unfold u32. rewrite Z.mod_0_l; lia.
Qed.

(** The locked [kfifo_get] has the effect of [__kfifo_get] on the queue: the
    index reset only happens when nothing is left. *)
Lemma kfifo_get_spec f dst len :
  wf f -> is_u32 len -> len <= Z.of_nat (length dst) ->
  let n := Z.min len (Z.of_nat (length (contents f))) in
  exists f' dst', kfifo_get f dst len = Some (f', dst', n) /\
    wf f' /\ size f' = size f /\
    dst' = take (Z.to_nat n) (contents f) ++ drop (Z.to_nat n) dst /\
    contents f' = drop (Z.to_nat n) (contents f).
Proof.
  intros Hwf Hlen Hdst n. unfold kfifo_get.
  destruct (__kfifo_get_spec f dst len) as (f' & dst' & -> & Hwf' & Hs & _ & Hd & Hc); try done.
  simpl. destruct (Z.eqb_spec (in_ f') (out f')) as [E|E].
  - eexists _, _. split; [done|]. split; [apply (wf_reset f'); done|]. split; [done|].
    split; [done|]. fold n in Hc. rewrite <- Hc, empty_contents.
    destruct f' as [b sz i o]. simpl in E. subst. by rewrite empty_contents.
  - by eexists _, _.
Qed.

(** A successful [kfifo_alloc] gives an empty well-formed fifo whose capacity
    is the least power of two that holds the request. *)
Lemma kfifo_alloc_spec req mem : 1 <= req <= 2 ^ 31 ->
  (forall n b, mem n = Some b -> Z.of_nat (length b) = n) ->
  exists k, 0 <= k <= 31 /\ req <= 2 ^ k /\ (forall j, 0 <= j -> req <= 2 ^ j -> k <= j) /\
  forall node_ok,
    match mem (2 ^ k) with
    | Some b => kfifo_alloc req mem node_ok =
                  Some (if node_ok then inr (mk_kfifo b (2 ^ k) 0 0) else inl ENOMEM) /\
                wf (mk_kfifo b (2 ^ k) 0 0)
    | None => kfifo_alloc req mem node_ok = Some (inl ENOMEM)
    end.
Proof.
  intros Hreq Hmem.
  assert (exists k, 0 <= k <= 31 /\ req <= 2 ^ k /\ (forall j, 0 <= j -> req <= 2 ^ j -> k <= j) /\
    (if negb (Z.land req (u32 (req - 1)) =? 0)
     then _ ← BUG_ON (0x80000000 <? req); Some (__roundup_pow_of_two req) else Some req) = Some (2 ^ k))
    as (k & Hk & Hle & Hmin & E).
  { destruct (Z.eqb_spec (Z.land req (u32 (req - 1))) 0) as [E|E].
    - rewrite u32_small in E by (unfold is_u32; lia).
      pose proof (land_pred_zero_pow2 req) as Hp. pose proof (Z.log2_nonneg req).
      exists (Z.log2 req). split; [split; [lia|]|].
      { change 31 with (Z.log2 (2 ^ 31)). apply Z.log2_le_mono. lia. }
      split; [lia|]. split; [|simpl; rewrite <- Hp by lia; done].
      intros j Hj. rewrite (Hp ltac:(lia) E) at 1. intros. apply (Z.pow_le_mono_r_iff 2); lia.
    - destruct (roundup_spec req) as (k & Hk & Hr & Hle & Hmin); [lia|].
      exists k. repeat split; try lia; try done. simpl.
      unfold BUG_ON. rewrite (proj2 (Z.ltb_ge _ _)) by lia. simpl. by rewrite Hr. }
  exists k. repeat split; try lia; try done. intros node_ok. unfold kfifo_alloc. rewrite E. simpl.
  assert (1 <= 2 ^ k) by (apply (Z.pow_le_mono_r 2 0); lia).
  assert (2 ^ k <= 2 ^ 31) by (apply Z.pow_le_mono_r; lia).
  destruct (mem (2 ^ k)) as [b|] eqn:Eb; [|done]. split.
  - unfold kfifo_init. rewrite u32_small by (unfold is_u32; lia).
    rewrite land_pred_pow2 by lia. simpl. by destruct node_ok.
  - split; simpl; [by exists k|by apply Hmem|done|done|]. rewrite Z.sub_diag. unfold u32.
    rewrite Z.mod_0_l; lia.
Qed.

(** ** Sequences of operations *)

Inductive fifo_op :=
| Put (data : list Z)       (* kfifo_put(fifo, data, len(data)) *)
| Get (len : Z)             (* kfifo_get(fifo, dst, len) *)
| Reset
| Len.

Inductive fifo_res :=
| RNum (n : Z)
| RData (d : list Z)
| RDone.

Definition op_ok (o : fifo_op) : bool :=
  match o with
  | Put data => Z.of_nat (length data) <? 2 ^ 32
  | Get len => (0 <=? len) && (len <? 2 ^ 32)
  | Reset | Len => true
  end.

(** The concrete call; a get reads into a zeroed destination of [len] bytes. *)
Definition step (f : kfifo) (o : fifo_op) : option (kfifo * fifo_res) :=
  match o with
  | Put data => r ← kfifo_put f data (Z.of_nat (length data)); Some (r.1, RNum r.2)
  | Get len => r ← kfifo_get f (replicate (Z.to_nat len) 0) len;
               Some (r.1.1, RData (take (Z.to_nat r.2) r.1.2))
  | Reset => Some (kfifo_reset f, RDone)
  | Len => Some (f, RNum (kfifo_len f))
  end.

Fixpoint run (f : kfifo) (ops : list fifo_op) : option (kfifo * list fifo_res) :=
  match ops with
  | [] => Some (f, [])
  | o :: ops => r ← step f o; rs ← run r.1 ops; Some (rs.1, r.2 :: rs.2)
  end.

(** The specification: a queue of at most [cap] bytes. *)
Definition abs_step (cap : Z) (q : list Z) (o : fifo_op) : list Z * fifo_res :=
  match o with
  | Put data =>
      let n := Z.min (Z.of_nat (length data)) (cap - Z.of_nat (length q)) in
      (q ++ take (Z.to_nat n) data, RNum n)
  | Get len => (drop (Z.to_nat len) q, RData (take (Z.to_nat len) q))
  | Reset => ([], RDone)
  | Len => (q, RNum (Z.of_nat (length q)))
  end.

Fixpoint abs_run (cap : Z) (q : list Z) (ops : list fifo_op) : list Z * list fifo_res :=
  match ops with
  | [] => (q, [])
  | o :: ops => let '(q, r) := abs_step cap q o in let '(q, rs) := abs_run cap q ops in (q, r :: rs)
  end.

Lemma step_refines f o : wf f -> op_ok o = true ->
  exists f' r, step f o = Some (f', r) /\ wf f' /\ size f' = size f /\
    (contents f', r) = abs_step (size f) (contents f) o.
Proof.
  intros Hwf Hok. destruct o as [data|len| |]; simpl in *.
  - apply Z.ltb_lt in Hok.
    destruct (__kfifo_put_spec f data (Z.of_nat (length data))) as (f' & E & Hwf' & Hs & _ & Hc);
      [done|unfold is_u32; lia|lia|].
    unfold kfifo_put. rewrite E. simpl. eexists _, _. by rewrite Hc.
  - apply andb_true_iff in Hok as [H1 H2]. apply Z.leb_le in H1. apply Z.ltb_lt in H2.
    destruct (kfifo_get_spec f (replicate (Z.to_nat len) 0) len) as (f' & d & E & Hwf' & Hs & Hd & Hc);
      [done|unfold is_u32; lia|rewrite length_replicate; lia|].
    rewrite E. simpl. eexists _, _. split; [done|]. split; [done|]. split; [done|].
    rewrite Hc, Hd. set (n := Z.to_nat (Z.min len _)).
    assert (n = Z.to_nat len `min` length (contents f))%nat as Hn by lia.
    rewrite take_app_le by (rewrite length_take; lia). rewrite take_take, Nat.min_id.
    f_equal; [|f_equal].
    + destruct (decide (Z.to_nat len <= length (contents f))%nat); [f_equal; lia|].
      rewrite !drop_ge by lia. done.
    + destruct (decide (Z.to_nat len <= length (contents f))%nat); [f_equal; lia|].
      rewrite !take_ge by lia. done.
  - eexists _, _. split; [done|]. split; [by apply wf_reset|]. split; [done|].
    unfold kfifo_reset, __kfifo_reset. by rewrite empty_contents.
  - eexists _, _. split; [done|]. split; [done|]. split; [done|].
    unfold kfifo_len, __kfifo_len. by rewrite contents_length.
Qed.

Lemma run_refines ops : forall f, wf f -> forallb op_ok ops = true ->
  exists f' rs, run f ops = Some (f', rs) /\ wf f' /\
    (contents f', rs) = abs_run (size f) (contents f) ops.
Proof.
  induction ops as [|o ops IH]; intros f Hwf Hok; simpl in *; [by eexists _, _|].
  apply andb_true_iff in Hok as [Ho Hok].
  destruct (step_refines f o Hwf Ho) as (f1 & r & E & Hwf1 & Hs & Ha).
  rewrite E. simpl. destruct (IH f1 Hwf1 Hok) as (f2 & rs & E2 & Hwf2 & Ha2).
  rewrite E2. simpl. eexists _, _. split; [done|]. split; [done|].
  rewrite <- Ha, <- Hs, <- Ha2. done.
Qed.

(** C26: a fifo that [kfifo_alloc] returns behaves, over every sequence of
    locked puts, gets, resets and length queries, exactly as a bounded byte
    queue whose capacity is the least power of two not below the request: the
    same results come back in the same order and no call faults. *)
Theorem kfifo_trace_refines req mem ops :
  1 <= req <= 2 ^ 31 ->
  (forall n, 0 <= n -> exists b, mem n = Some b /\ Z.of_nat (length b) = n) ->
  forallb op_ok ops = true ->
  exists k f f' rs,
    kfifo_alloc req mem true = Some (inr f) /\ size f = 2 ^ k /\
    req <= 2 ^ k /\ (forall j, 0 <= j -> req <= 2 ^ j -> k <= j) /\
    run f ops = Some (f', rs) /\ (contents f', rs) = abs_run (2 ^ k) [] ops.
Proof.
  intros Hreq Hmem Hok.
  set (mem' n := if 0 <=? n then mem n else None).
  destruct (kfifo_alloc_spec req mem' Hreq) as (k & Hk & Hle & Hmin & Ha).
  { intros n b. unfold mem'. destruct (Z.leb_spec 0 n); [|done]. intros Hb.
    destruct (Hmem n) as (b' & Hb' & Hl); [done|]. rewrite Hb in Hb'. simplify_eq. lia. }
  assert (0 < 2 ^ k) by (apply Z.pow_pos_nonneg; lia).
  assert (mem' (2 ^ k) = mem (2 ^ k)) as Em by (unfold mem'; by rewrite (proj2 (Z.leb_le 0 (2 ^ k))) by lia).
  assert (kfifo_alloc req mem true = kfifo_alloc req mem' true) as ->.
  { unfold kfifo_alloc, mem'. destruct (negb _).
    - unfold BUG_ON. destruct (_ <? _); simpl; [done|].
      destruct (roundup_spec req Hreq) as (k' & Hk' & -> & _).
      by rewrite (proj2 (Z.leb_le 0 _)) by (apply Z.pow_nonneg; lia).
    - simpl. by rewrite (proj2 (Z.leb_le 0 req)) by lia. }
  specialize (Ha true). rewrite Em in Ha. destruct (Hmem (2 ^ k)) as (b & Eb & _); [lia|]. rewrite Eb in Ha.
  destruct Ha as [Ha Hwf]. destruct (run_refines ops _ Hwf Hok) as (f' & rs & Er & _ & Ea).
  rewrite empty_contents in Ea. by exists k, (mk_kfifo b (2 ^ k) 0 0), f', rs.
Qed.

Lemma kfifo_trace_refines_witness :
  exists k f f' rs,
    kfifo_alloc 5 (fun n => Some (replicate (Z.to_nat n) 0)) true = Some (inr f) /\ size f = 2 ^ k /\
    5 <= 2 ^ k /\ (forall j, 0 <= j -> 5 <= 2 ^ j -> k <= j) /\
    run f [Put [1; 2; 3; 4; 5; 6]; Get 4; Put [7; 8; 9; 10; 11; 12; 13]; Len; Get 9] = Some (f', rs) /\
    (contents f', rs) =
      abs_run (2 ^ k) [] [Put [1; 2; 3; 4; 5; 6]; Get 4; Put [7; 8; 9; 10; 11; 12; 13]; Len; Get 9].
Proof.
  apply (kfifo_trace_refines 5 (fun n => Some (replicate (Z.to_nat n) 0))).
  - lia.
  - intros n Hn. eexists. split; [reflexivity|]. rewrite length_replicate. lia.
  - reflexivity.
Defined.

End Kfifo.

(** ** One reader and one writer without the lock

    [__kfifo_put] and [__kfifo_get] run concurrently on one fifo.  Each call
    is three phases, kept in order by its memory barriers: sample the other
    side's index, copy the bytes (here one byte per step), publish the own
    index.  Steps of the two sides interleave freely. *)
Module Spsc.
Import Kfifo.

Inductive writer :=
| WIdle
| WCopy (data : list Z) (n j : Z).   (* n bytes accepted, j already copied *)

Inductive reader :=
| RIdle
| RCopy (n j : Z) (dst : list Z).    (* n bytes to take, j already copied into dst *)

Record state := mk_state {
  fifo : kfifo;
  wr : writer;
  rd : reader;
  sent : list Z;                     (* bytes of the puts that have returned *)
  received : list Z                  (* bytes of the gets that have returned *)
}.

(** Where byte [j] of a copy that starts at index [i] is: the first [memcpy]
    covers [l] bytes up to the end of the buffer, the second starts at 0. *)
Definition byte_pos (f : kfifo) (i n j : Z) : Z :=
  let pos := Z.land i (u32 (size f - 1)) in
  let l := Z.min n (u32 (size f - pos)) in
  if j <? l then pos + j else j - l.

Definition set_buffer (f : kfifo) (b : list Z) : kfifo := mk_kfifo b (size f) (in_ f) (out f).
Definition set_in (f : kfifo) (i : Z) : kfifo := mk_kfifo (buffer f) (size f) i (out f).
Definition set_out (f : kfifo) (o : Z) : kfifo := mk_kfifo (buffer f) (size f) (in_ f) o.

Inductive spsc_step : state -> state -> Prop :=
| put_sample f r s v data n :
    n = Z.min (Z.of_nat (length data)) (u32 (size f - in_ f + out f)) ->
    spsc_step (mk_state f WIdle r s v) (mk_state f (WCopy data n 0) r s v)
| put_copy f r s v data n j x b :
    j < n -> aget data j = Some x -> aset (buffer f) (byte_pos f (in_ f) n j) x = Some b ->
    spsc_step (mk_state f (WCopy data n j) r s v)
              (mk_state (set_buffer f b) (WCopy data n (j + 1)) r s v)
| put_publish f r s v data n :
    spsc_step (mk_state f (WCopy data n n) r s v)
              (mk_state (set_in f (u32 (in_ f + n))) WIdle r (s ++ take (Z.to_nat n) data) v)
| get_sample f w s v len n :
    is_u32 len -> n = Z.min len (u32 (in_ f - out f)) ->
    spsc_step (mk_state f w RIdle s v) (mk_state f w (RCopy n 0 []) s v)
| get_copy f w s v n j dst x :
    j < n -> aget (buffer f) (byte_pos f (out f) n j) = Some x ->
    spsc_step (mk_state f w (RCopy n j dst) s v) (mk_state f w (RCopy n (j + 1) (dst ++ [x])) s v)
| get_publish f w s v n dst :
    spsc_step (mk_state f w (RCopy n n dst) s v)
              (mk_state (set_out f (u32 (out f + n))) w RIdle s (v ++ dst)).

Inductive reachable (f0 : kfifo) : state -> Prop :=
| reach_init : reachable f0 (mk_state f0 WIdle RIdle [] [])
| reach_step s s' : reachable f0 s -> spsc_step s s' -> reachable f0 s'.

(** The byte at ring index [i]. *)
Definition ring (f : kfifo) (i : Z) : option Z := buffer f !! Z.to_nat (i mod size f).

Definition writer_inv (f : kfifo) (w : writer) : Prop :=
  match w with
  | WIdle => True
  | WCopy data n j =>
      0 <= j <= n /\ n <= Z.of_nat (length data) /\ u32 (in_ f - out f) + n <= size f /\
      forall i, 0 <= i < j -> ring f (in_ f + i) = data !! Z.to_nat i
  end.

Definition reader_inv (f : kfifo) (r : reader) : Prop :=
  match r with
  | RIdle => True
  | RCopy n j dst =>
      0 <= j <= n /\ n <= u32 (in_ f - out f) /\ dst = take (Z.to_nat j) (contents f)
  end.

Record inv (st : state) : Prop := {
  inv_wf : wf (fifo st);
  inv_data : sent st = received st ++ contents (fifo st);
  inv_writer : writer_inv (fifo st) (wr st);
  inv_reader : reader_inv (fifo st) (rd st)
}.

Lemma byte_pos_ring f i n j : wf f -> 0 <= j < n -> n <= size f ->
  byte_pos f i n j = (i + j) mod size f.
Proof.
  intros Hwf Hj Hn. pose proof (size_bounds f Hwf). unfold byte_pos. rewrite mask_mod by done.
  pose proof (Z.mod_pos_bound i (size f)).
  rewrite (u32_small (size f - i mod size f)) by (unfold is_u32; lia).
  rewrite wrap_pos by lia. zcases; case_decide; lia.
Qed.

Lemma contents_ring f i : wf f -> 0 <= i < u32 (in_ f - out f) ->
  contents f !! Z.to_nat i = ring f (out f + i).
Proof.
  intros Hwf Hi. rewrite contents_lookup, decide_True by lia. unfold ring.
  rewrite Z2Nat.id by lia. symmetry. by apply buffer_cell.
Qed.

(** Contents depend only on the ring positions between the indices. *)
Lemma contents_ext f g : wf f -> wf g -> in_ g = in_ f -> out g = out f ->
  (forall i, 0 <= i < u32 (in_ f - out f) -> ring g (out f + i) = ring f (out f + i)) ->
  contents g = contents f.
Proof.
  intros Hf Hg Hi Ho Hr. apply list_eq. intros i.
  destruct (decide (Z.of_nat i < u32 (in_ f - out f))).
  - rewrite <- (Nat2Z.id i). rewrite !contents_ring by (done || rewrite ?Hi, ?Ho; lia).
    rewrite Ho. apply Hr. lia.
  - rewrite !contents_lookup, !decide_False by (rewrite ?Hi, ?Ho; lia). done.
Qed.

(** A byte written [j] places ahead of [in] misses every other ring index
    less than one lap around it. *)
Lemma ring_set f b i k x : wf f -> aset (buffer f) (i mod size f) x = Some b ->
  ring (set_buffer f b) k = if decide (k mod size f = i mod size f) then Some x else ring f k.
Proof.
  intros Hwf. pose proof (size_bounds f Hwf). unfold aset, ring. simpl.
  pose proof (Z.mod_pos_bound i (size f)). pose proof (Z.mod_pos_bound k (size f)).
  pose proof (wf_buffer f Hwf). rewrite (proj2 (Z.leb_le _ _)), (proj2 (Z.ltb_lt _ _)) by lia.
  simpl. intros [= <-]. case_decide as E.
  - rewrite E. apply list_lookup_insert_eq. lia.
  - apply list_lookup_insert_ne. lia.
Qed.

Lemma mod_window s a i j : 0 < s -> 0 <= i < s -> 0 <= j < s -> i <> j -> (a + i) mod s <> (a + j) mod s.
Proof. intros Hs Hi Hj Hne. rewrite !wrap_pos by lia. repeat case_decide; lia. Qed.

Lemma wf_set_buffer f b : wf f -> length b = length (buffer f) -> wf (set_buffer f b).
Proof. intros Hwf Hl. split; simpl; try apply Hwf. rewrite Hl. apply Hwf. Qed.

(** The writer only touches ring cells outside the queue and ahead of what it
    has already copied. *)
Lemma put_copy_inv f r s v data n j x b :
  inv (mk_state f (WCopy data n j) r s v) -> j < n -> aget data j = Some x ->
  aset (buffer f) (byte_pos f (in_ f) n j) x = Some b ->
  inv (mk_state (set_buffer f b) (WCopy data n (j + 1)) r s v).
Proof.
  intros [Hwf Hd (Hj & Hn & Hfill & Hcp) Hr] Hlt Hx Hb. simpl in *.
  pose proof (u32_range (in_ f - out f)) as Hu. unfold is_u32 in Hu.
  rewrite byte_pos_ring in Hb by (done || lia).
  assert (wf (set_buffer f b)) as Hwf' by (apply wf_set_buffer; [done|by apply aset_length in Hb]).
  assert (contents (set_buffer f b) = contents f) as Hc.
  { apply contents_ext; try done. intros i Hi. rewrite (ring_set f b (in_ f + j) _ x) by done.
    rewrite decide_False; [done|]. rewrite <- (in_pos f j) by done. apply mod_window; lia. }
  split; simpl; [done|by rewrite Hc| |].
  - repeat split; try lia. intros i Hi. rewrite (ring_set f b (in_ f + j) _ x) by done.
    destruct (decide (i = j)) as [->|Hne].
    + rewrite decide_True by done. unfold aget in Hx. by rewrite (proj2 (Z.leb_le 0 j)) in Hx by lia.
    + rewrite decide_False; [apply Hcp; lia|]. apply mod_window; lia.
  - destruct r as [|m k dst]; simpl in *; [done|]. by rewrite Hc.
Qed.

Lemma put_publish_inv f r s v data n :
  inv (mk_state f (WCopy data n n) r s v) ->
  inv (mk_state (set_in f (u32 (in_ f + n))) WIdle r (s ++ take (Z.to_nat n) data) v).
Proof.
  intros [Hwf Hd (Hj & Hn & Hfill & Hcp) Hr]. simpl in *.
  pose proof (u32_range (in_ f - out f)) as Hu. unfold is_u32 in Hu.
  assert (u32 (u32 (in_ f + n) - out f) = u32 (in_ f - out f) + n) as Hf by (apply fill_add; lia || done).
  assert (wf (set_in f (u32 (in_ f + n)))) as Hwf'.
  { split; simpl; try apply Hwf; [apply u32_range|lia]. }
  assert (contents (set_in f (u32 (in_ f + n))) = contents f ++ take (Z.to_nat n) data) as Hc.
  { pose proof (contents_length f). apply list_eq. intros i.
    destruct (decide (Z.of_nat i < u32 (in_ f - out f) + n)).
    - rewrite <- (Nat2Z.id i) at 1. rewrite contents_ring by (done || simpl; lia). simpl.
      change (ring (set_in f _)) with (ring f).
      destruct (decide (Z.of_nat i < u32 (in_ f - out f))).
      + rewrite lookup_app_l by lia. rewrite <- (contents_ring f) by (done || lia). by rewrite Nat2Z.id.
      + rewrite lookup_app_r, lookup_take_lt by lia.
        replace (i - length (contents f))%nat with (Z.to_nat (Z.of_nat i - u32 (in_ f - out f))) by lia.
        rewrite <- Hcp by lia. unfold ring. do 2 f_equal. rewrite <- in_pos by done. f_equal. lia.
    - rewrite contents_lookup, decide_False by (simpl; lia).
      symmetry. apply lookup_ge_None_2. rewrite length_app, length_take. lia. }
  split; simpl; [done|by rewrite Hc, Hd, app_assoc|done|].
  destruct r as [|m k dst]; simpl in *; [done|]. rewrite Hf, Hc. repeat split; try lia.
  destruct Hr as (? & ? & ->). rewrite take_app_le; [done|]. pose proof (contents_length f). lia.
Qed.

Lemma get_copy_inv f w s v n j dst x :
  inv (mk_state f w (RCopy n j dst) s v) -> j < n -> aget (buffer f) (byte_pos f (out f) n j) = Some x ->
  inv (mk_state f w (RCopy n (j + 1) (dst ++ [x])) s v).
Proof.
  intros [Hwf Hd Hw (Hj & Hn & Hdst)] Hlt Hx. simpl in *. split; simpl; try done.
  pose proof (wf_fill f Hwf). pose proof (size_bounds f Hwf).
  rewrite byte_pos_ring in Hx by (done || lia).
  pose proof (Z.mod_pos_bound (out f + j) (size f)). unfold aget in Hx.
  rewrite (proj2 (Z.leb_le _ _)) in Hx by lia. repeat split; try lia.
  replace (Z.to_nat (j + 1)) with (S (Z.to_nat j)) by lia.
  rewrite (take_S_r _ _ x); [by rewrite Hdst|]. by rewrite contents_ring by (done || lia).
Qed.

Lemma get_publish_inv f w s v n dst :
  inv (mk_state f w (RCopy n n dst) s v) ->
  inv (mk_state (set_out f (u32 (out f + n))) w RIdle s (v ++ dst)).
Proof.
  intros [Hwf Hd Hw (Hj & Hn & Hdst)]. simpl in *.
  assert (u32 (in_ f - u32 (out f + n)) = u32 (in_ f - out f) - n) as Hf by (apply fill_sub; lia || done).
  pose proof (wf_fill f Hwf).
  assert (wf (set_out f (u32 (out f + n)))) as Hwf'.
  { split; simpl; try apply Hwf; [apply u32_range|lia]. }
  assert (contents (set_out f (u32 (out f + n))) = drop (Z.to_nat n) (contents f)) as Hc.
  { apply list_eq. intros i. rewrite lookup_drop.
    destruct (decide (Z.of_nat i < u32 (in_ f - out f) - n)).
    - rewrite <- (Nat2Z.id i) at 1. rewrite contents_ring by (done || simpl; lia).
      replace (Z.to_nat n + i)%nat with (Z.to_nat (n + Z.of_nat i)) by lia.
      rewrite contents_ring by (done || lia). unfold ring. simpl. do 2 f_equal.
      rewrite <- Zplus_mod_idemp_l, u32_mod_size, Zplus_mod_idemp_l by done. f_equal. lia.
    - rewrite !contents_lookup, !decide_False by (simpl; lia). done. }
  split; simpl; [done| | |done].
  - rewrite Hc, Hd, Hdst, <- app_assoc. by rewrite take_drop.
  - destruct w as [|data m k]; simpl in *; [done|]. rewrite Hf.
    destruct Hw as (? & ? & ? & ?). repeat split; (done || lia).
Qed.

Lemma step_inv st st' : inv st -> spsc_step st st' -> inv st'.
Proof.
  intros Hi Hs. destruct Hs.
  - destruct Hi as [Hwf Hd _ Hr]. split; simpl in *; try done.
    rewrite (wf_free f Hwf) in H. pose proof (u32_range (in_ f - out f)) as Hu. unfold is_u32 in Hu.
    pose proof (wf_fill f Hwf). repeat split; try lia.
  - by eapply put_copy_inv.
  - by eapply put_publish_inv.
  - destruct Hi as [Hwf Hd Hw _]. split; simpl in *; try done. unfold is_u32 in *.
    pose proof (u32_range (in_ f - out f)) as Hu. unfold is_u32 in Hu. repeat split; try lia.
  - by eapply get_copy_inv.
  - by eapply get_publish_inv.
Qed.

Lemma reachable_inv f0 st : wf f0 -> contents f0 = [] -> reachable f0 st -> inv st.
Proof.
  intros Hwf He Hr. induction Hr as [|s s' Hr IH Hs]; [|by eapply step_inv].
  by split; simpl; rewrite ?He.
Qed.

(** C27: one reader and one writer may use [__kfifo_get] and [__kfifo_put] on
    one fifo without the lock.  In every interleaving of their byte copies
    and index updates, the bytes the reader has received, followed by the
    bytes in the queue, are the bytes the writer has sent, in order; and a
    copy in progress always finds its next byte access inside the buffer. *)
Theorem spsc_safe f0 st : wf f0 -> contents f0 = [] -> reachable f0 st ->
  sent st = received st ++ contents (fifo st) /\
  (forall data n j, wr st = WCopy data n j -> j < n ->
     exists x b, aget data j = Some x /\
       aset (buffer (fifo st)) (byte_pos (fifo st) (in_ (fifo st)) n j) x = Some b) /\
  (forall n j dst, rd st = RCopy n j dst -> j < n ->
     exists x, aget (buffer (fifo st)) (byte_pos (fifo st) (out (fifo st)) n j) = Some x).
Proof.
  intros Hwf He Hr. destruct (reachable_inv f0 st Hwf He Hr) as [Hw Hd Hwi Hri].
  split; [done|]. pose proof (size_bounds _ Hw). pose proof (wf_buffer _ Hw). pose proof (wf_fill _ Hw).
  pose proof (u32_range (in_ (fifo st) - out (fifo st))) as Hu. unfold is_u32 in Hu. split.
  - intros data n j E Hlt. rewrite E in Hwi. destruct Hwi as (Hj & Hn & Hfill & _).
    rewrite byte_pos_ring by (done || lia).
    pose proof (Z.mod_pos_bound (in_ (fifo st) + j) (size (fifo st))).
    destruct (lookup_lt_is_Some_2 data (Z.to_nat j)) as [x Hx]; [lia|].
    unfold aget, aset. rewrite !(proj2 (Z.leb_le _ _)), (proj2 (Z.ltb_lt _ _)) by lia.
    by exists x, (<[Z.to_nat ((in_ (fifo st) + j) mod size (fifo st)):=x]> (buffer (fifo st))).
  - intros n j dst E Hlt. rewrite E in Hri. destruct Hri as (Hj & Hn & _).
    rewrite byte_pos_ring by (done || lia).
    pose proof (Z.mod_pos_bound (out (fifo st) + j) (size (fifo st))).
    unfold aget. rewrite (proj2 (Z.leb_le _ _)) by lia. apply lookup_lt_is_Some_2. lia.
Qed.

(** A put of one byte that runs to completion between the two halves of a
    get: the witness state is reached by an interleaving. *)
Lemma spsc_safe_witness :
  let st := mk_state (mk_kfifo [7; 9] 2 2 0) WIdle (RCopy 1 1 [7]) [7; 9] [] in
  sent st = received st ++ contents (fifo st) /\
  (forall data n j, wr st = WCopy data n j -> j < n ->
     exists x b, aget data j = Some x /\
       aset (buffer (fifo st)) (byte_pos (fifo st) (in_ (fifo st)) n j) x = Some b) /\
  (forall n j dst, rd st = RCopy n j dst -> j < n ->
     exists x, aget (buffer (fifo st)) (byte_pos (fifo st) (out (fifo st)) n j) = Some x).
Proof.
  apply (spsc_safe (mk_kfifo [0; 0] 2 0 0)).
  - split; simpl; [exists 1; lia|lia|unfold is_u32; lia|unfold is_u32; lia|vm_compute; discriminate].
  - reflexivity.
  - eapply reach_step; [|apply (put_publish (mk_kfifo [7; 9] 2 1 0) (RCopy 1 1 [7]) [7] [] [9] 1)].
    eapply reach_step;
      [|apply (put_copy (mk_kfifo [7; 0] 2 1 0) (RCopy 1 1 [7]) [7] [] [9] 1 0 9 [7; 9]); [lia|reflexivity|reflexivity]].
    eapply reach_step; [|apply (get_copy (mk_kfifo [7; 0] 2 1 0) (WCopy [9] 1 0) [7] [] 1 0 [] 7); [lia|reflexivity]].
    eapply reach_step; [|apply (put_sample (mk_kfifo [7; 0] 2 1 0) (RCopy 1 0 []) [7] [] [9] 1); reflexivity].
    eapply reach_step; [|apply (get_sample (mk_kfifo [7; 0] 2 1 0) WIdle [7] [] 1 1); [done|reflexivity]].
    eapply reach_step; [|apply (put_publish (mk_kfifo [7; 0] 2 0 0) RIdle [] [] [7] 1)].
    eapply reach_step;
      [|apply (put_copy (mk_kfifo [0; 0] 2 0 0) RIdle [] [] [7] 1 0 7 [7; 0]); [lia|reflexivity|reflexivity]].
    eapply reach_step; [|apply (put_sample (mk_kfifo [0; 0] 2 0 0) RIdle [] [] [7] 1); reflexivity].
    apply reach_init.
Defined.

End Spsc.
