(* ===== verification/Sort.v ===== *)
(** * Heapsort: [lib/sort.c]

    [sort] works on byte offsets that are pre-scaled by the element size, in
    [int] and [size_t] arithmetic.  The array is the list of its elements; an
    access at a byte offset that is not the start of an element of the array
    faults.  [u32_swap] and [generic_swap] are modelled on bytes. *)

From S2P Require Import Prelude.

Module Sort.

Section Sort.
Context {A : Type}.
(** The two function pointers and the element size [sort] is called with. *)
Variable cmp : A -> A -> Z.
Variable size : Z.

(** The element at [base + off]. *)
Definition at_off (base : list A) (off : Z) : option A :=
  if off mod size =? 0 then aget base (off / size) else None.

(** [swap(base + a, base + b, size)], as the default swap functions do it. *)
Definition swap_at (base : list A) (a b : Z) : option (list A) :=
  x ← at_off base a; y ← at_off base b;
  base ← aset base (a / size) y; aset base (b / size) x.

(** The inner loop of both phases, on the first [n] bytes:
    [for (; r * 2 + size < n; r = c)]. *)
Fixpoint sift (fuel : nat) (base : list A) (n r : Z) : option (list A) :=
  match fuel with
  | O => None
  | S fuel =>
      if u32 (r * 2 + size) <? u32 n then
        let c := s32 (r * 2 + size) in
        c ← (if u32 c <? u32 (n - size) then
               x ← at_off base c; y ← at_off base (c + size);
               Some (if cmp x y <? 0 then s32 (c + size) else c)
             else Some c);
        x ← at_off base r; y ← at_off base c;
        if 0 <=? cmp x y then Some base
        else base ← swap_at base r c; sift fuel base n c
      else Some base
  end.

(** [for (; i >= 0; i -= size)] around the sift. *)
Fixpoint heapify (fuel : nat) (base : list A) (n i : Z) : option (list A) :=
  match fuel with
  | O => None
  | S fuel =>
      if 0 <=? i then base ← sift (S (length base)) base n i; heapify fuel base n (s32 (i - size))
      else Some base
  end.

Fixpoint sort_down (fuel : nat) (base : list A) (i : Z) : option (list A) :=
  match fuel with
  | O => None
  | S fuel =>
      if 0 <=? i then
        base ← swap_at base 0 i; base ← sift (S (length base)) base i 0;
        sort_down fuel base (s32 (i - size))
      else Some base
  end.

(** [num / 2 - 1] and the products are [size_t]; the counters are [int].
    Fuel: one more than the number of elements for each loop. *)
Definition sort (base : list A) (num : Z) : option (list A) :=
  let i := s32 ((num / 2 - 1) * size) in
  let n := s32 (num * size) in
  base ← heapify (S (length base)) base n i;
  sort_down (S (length base)) base (s32 (n - size)).

End Sort.

(** [u32_swap] on the bytes of one object: two aligned 4-byte loads and
    stores (the stores of a word are modelled bytewise). *)
Definition u32_swap (m : list Z) (a b : Z) : option (list Z) :=
  t ← memcpy (replicate 4 0) 0 m a 4;
  u ← memcpy (replicate 4 0) 0 m b 4;
  m ← memcpy m a u 0 4; memcpy m b t 0 4.

(** [generic_swap]: [do { ... } while (--size > 0)] on single bytes. *)
Fixpoint generic_swap (fuel : nat) (m : list Z) (a b size : Z) : option (list Z) :=
  match fuel with
  | O => None
  | S fuel =>
      t ← aget m a; u ← aget m b;
      m ← aset m a u; m ← aset m b t;
      let size := size - 1 in
      if 0 <? size then generic_swap fuel m (a + 1) (b + 1) size else Some m
  end.

(** ** The same loops on element indices

    The proofs work on indices; [sift_idx], [heapify_idx] and [sort_idx] are
    the loops with every offset divided by the element size. *)
Section Index.
Context {A : Type} (cmp : A -> A -> Z).

Definition swap_idx (a : list A) (i j : nat) : option (list A) :=
  x ← a !! i; y ← a !! j; Some (<[j := x]> (<[i := y]> a)).

Fixpoint sift_idx (fuel : nat) (a : list A) (n r : nat) : option (list A) :=
  match fuel with
  | O => None
  | S fuel =>
      if decide (2 * r + 1 < n)%nat then
        c ← (if decide (2 * r + 2 < n)%nat then
               x ← a !! (2 * r + 1)%nat; y ← a !! (2 * r + 2)%nat;
               Some (if cmp x y <? 0 then (2 * r + 2)%nat else (2 * r + 1)%nat)
             else Some (2 * r + 1)%nat);
        x ← a !! r; y ← a !! c;
        if 0 <=? cmp x y then Some a
        else a ← swap_idx a r c; sift_idx fuel a n c
      else Some a
  end.

(** [k] iterations, at [k-1], ..., [0]. *)
Fixpoint heapify_idx (k : nat) (a : list A) (n : nat) : option (list A) :=
  match k with
  | O => Some a
  | S k => a ← sift_idx (S (length a)) a n k; heapify_idx k a n
  end.

Fixpoint sort_idx (k : nat) (a : list A) : option (list A) :=
  match k with
  | O => Some a
  | S k => a ← swap_idx a 0 k; a ← sift_idx (S (length a)) a k 0; sort_idx k a
  end.

(** ** Heap order *)

(** [x] is not below [y]. *)
Definition ge (x y : A) : Prop := 0 <= cmp x y.

Definition child (p c : nat) : Prop := (c = 2 * p + 1 \/ c = 2 * p + 2)%nat.

(** Heap order below every node from [k] on, but for the node [r]. *)
Definition heap_but (a : list A) (n k : nat) (skip : nat -> Prop) : Prop :=
  forall p c x y, (k <= p)%nat -> ~ skip p -> child p c -> (c < n)%nat ->
    a !! p = Some x -> a !! c = Some y -> ge x y.

Definition heap (a : list A) (n k : nat) : Prop := heap_but a n k (fun _ => False).

(** The parent of [r] is above the children of [r]. *)
Definition bridged (a : list A) (n k r : nat) : Prop :=
  forall p c x y, (k <= p)%nat -> child p r -> child r c -> (c < n)%nat ->
    a !! p = Some x -> a !! c = Some y -> ge x y.

Hypothesis ge_total : forall x y, ge x y \/ ge y x.
Hypothesis ge_trans : forall x y z, ge x y -> ge y z -> ge x z.

Lemma ge_refl z : ge z z.
Proof. by destruct (ge_total z z). Qed.

Lemma swap_idx_spec (a : list A) i j : (i < length a)%nat -> (j < length a)%nat ->
  exists x y a', a !! i = Some x /\ a !! j = Some y /\ swap_idx a i j = Some a' /\
    length a' = length a /\ a' !! i = Some y /\ a' !! j = Some x /\
    (forall k, k <> i -> k <> j -> a' !! k = a !! k).
Proof.
  intros Hi Hj. destruct (lookup_lt_is_Some_2 a i Hi) as [x Hx].
  destruct (lookup_lt_is_Some_2 a j Hj) as [y Hy]. unfold swap_idx. rewrite Hx, Hy. simpl.
  eexists x, y, _. repeat split; try done.
  - by rewrite !length_insert.
  - destruct (decide (j = i)) as [->|Hne].
    + rewrite list_lookup_insert_eq by (rewrite length_insert; done). congruence.
    + rewrite list_lookup_insert_ne by done. by apply list_lookup_insert_eq.
  - apply list_lookup_insert_eq. by rewrite length_insert.
  - intros k H1 H2. by rewrite !list_lookup_insert_ne by done.
Qed.

Lemma insert_middle (l1 l2 : list A) x y : <[length l1 := y]> (l1 ++ x :: l2) = l1 ++ y :: l2.
Proof. rewrite insert_app_r_alt by lia. by rewrite Nat.sub_diag. Qed.

Lemma swap_perm_lt (a : list A) i j x y : (i < j)%nat -> a !! i = Some x -> a !! j = Some y ->
  <[j := x]> (<[i := y]> a) ≡ₚ a.
Proof.
  intros Hij Hx Hy.
  assert (exists l1 l2 l3, a = l1 ++ x :: l2 ++ y :: l3 /\ i = length l1 /\ j = length (l1 ++ x :: l2))
    as (l1 & l2 & l3 & -> & -> & ->).
  { exists (take i a), (take (j - S i) (drop (S i) a)), (drop (S j) a).
    assert (drop (S i) a !! (j - S i)%nat = Some y) as Hy' by (rewrite lookup_drop, <- Hy; f_equal; lia).
    pose proof (take_drop_middle _ _ _ Hy') as E. rewrite drop_drop in E.
    replace (S i + S (j - S i))%nat with (S j) in E by lia. rewrite E.
    apply lookup_lt_Some in Hy.
    split; [by rewrite take_drop_middle|]. rewrite length_app. simpl.
    rewrite !length_take, length_drop. lia. }
  rewrite insert_middle. rewrite app_comm_cons, app_assoc.
  replace (length (l1 ++ x :: l2)) with (length (l1 ++ y :: l2)) by (rewrite !length_app; done).
  rewrite insert_middle, <- !app_assoc. apply Permutation_app_head. simpl.
  rewrite <- !Permutation_middle. apply perm_swap.
Qed.

Lemma swap_idx_perm (a a' : list A) i j : swap_idx a i j = Some a' -> a' ≡ₚ a.
Proof.
  unfold swap_idx. intros H. destruct (a !! i) as [x|] eqn:Hx; [|done].
  destruct (a !! j) as [y|] eqn:Hy; [|done]. simpl in H. simplify_eq.
  destruct (lt_eq_lt_dec i j) as [[H| -> ]|H].
  - by apply swap_perm_lt.
  - simplify_eq. rewrite list_insert_insert_eq. by rewrite list_insert_id.
  - rewrite list_insert_insert_ne by lia. by apply swap_perm_lt.
Qed.

(** Agreement outside a window and permutation overall confine the values of
    the window. *)
Lemma prefix_values (a a' : list A) n i x : a' ≡ₚ a ->
  (forall k, (n <= k)%nat -> a' !! k = a !! k) -> (i < n)%nat -> a' !! i = Some x ->
  exists j, (j < n)%nat /\ a !! j = Some x.
Proof.
  intros Hp Heq Hi Hx.
  assert (drop n a' = drop n a) as Hd.
  { apply list_eq. intros k. rewrite !lookup_drop. apply Heq. lia. }
  assert (take n a' ≡ₚ take n a) as Ht.
  { apply (Permutation_app_inv_r (drop n a)). rewrite <- Hd at 1. by rewrite !take_drop. }
  assert (x ∈ take n a) as Hin.
  { rewrite <- Ht. apply list_elem_of_lookup. exists i. by rewrite lookup_take_lt. }
  apply list_elem_of_lookup in Hin as [j Hj].
  apply lookup_take_Some in Hj as [Hj ?]. by exists j.
Qed.

Lemma child_lt p c : child p c -> (p < c)%nat.
Proof. unfold child. lia. Qed.

Lemma child_inj p q c : child p c -> child q c -> p = q.
Proof. unfold child. lia. Qed.

(** The child the loop selects dominates its sibling. *)
Lemma select_child (a : list A) n r : (n <= length a)%nat -> (2 * r + 1 < n)%nat ->
  exists c y, child r c /\ (c < n)%nat /\ a !! c = Some y /\
    (forall c' z, child r c' -> (c' < n)%nat -> a !! c' = Some z -> ge y z) /\
    (if decide (2 * r + 2 < n)%nat then
       x ← a !! (2 * r + 1)%nat; y ← a !! (2 * r + 2)%nat;
       Some (if cmp x y <? 0 then (2 * r + 2)%nat else (2 * r + 1)%nat)
     else Some (2 * r + 1)%nat) = Some c.
Proof.
  intros Hn Hr. destruct (lookup_lt_is_Some_2 a (2 * r + 1)) as [x Hx]; [lia|].
  pose proof ge_refl as Hrefl.
  case_decide as Hd.
  - destruct (lookup_lt_is_Some_2 a (2 * r + 2)) as [y Hy]; [lia|]. rewrite Hx, Hy. simpl.
    destruct (Z.ltb_spec (cmp x y) 0) as [Hc|Hc].
    + exists (2 * r + 2)%nat, y. unfold child. repeat split; try lia; try done.
      intros c' z [-> | ->] _ Hz; simplify_eq; [|done].
      destruct (ge_total x y) as [H|H]; [unfold ge in H; lia|done].
    + exists (2 * r + 1)%nat, x. unfold child. repeat split; try lia; try done.
      intros c' z [-> | ->] _ Hz; by simplify_eq.
  - exists (2 * r + 1)%nat, x. unfold child. repeat split; try lia; try done.
    intros c' z [-> | ->] Hlt Hz; simplify_eq; [done|lia].
Qed.

Lemma sift_idx_spec fuel : forall a n k r, (n <= length a)%nat -> (k <= r < n)%nat -> (n - r < fuel)%nat ->
  heap_but a n k (eq r) -> bridged a n k r ->
  exists a', sift_idx fuel a n r = Some a' /\ a' ≡ₚ a /\
    (forall i, (n <= i)%nat -> a' !! i = a !! i) /\ heap a' n k.
Proof.
  induction fuel as [|fuel IH]; intros a n k r Hn Hr Hf Hh Hb; [lia|]. simpl.
  destruct (decide (r + (r + 0) + 1 < n)%nat) as [Hc|Hc].
  2:{ exists a. repeat split; try done. intros p c x y Hp _ Hpc Hcn Hx Hy.
      apply (Hh p c); try done. intros <-. unfold child in Hpc. lia. }
  destruct (select_child a n r Hn Hc) as (c & y & Hch & Hcn & Hy & Hdom & E).
  simpl in E. rewrite E. simpl. clear E. pose proof (child_lt _ _ Hch).
  destruct (lookup_lt_is_Some_2 a r) as [x Hx]; [lia|]. rewrite Hx, Hy. simpl.
  destruct (Z.leb_spec 0 (cmp x y)) as [Hxy|Hxy].
  - exists a. repeat split; try done. intros p c' x' z Hp _ Hpc Hcn' Hx' Hz.
    destruct (decide (r = p)) as [<-|Hne]; [|by apply (Hh p c')]. simplify_eq.
    apply (ge_trans _ y); [done|by apply (Hdom c')].
  - assert (ge y x) as Hyx by (destruct (ge_total x y) as [H'|H']; [unfold ge in H'; lia|done]).
    destruct (swap_idx_spec a r c) as (x' & y' & a1 & Hx' & Hy' & E & Hl & H1r & H1c & H1o); [lia|lia|].
    simplify_eq. rewrite E. simpl. pose proof (swap_idx_perm _ _ _ _ E) as Hperm.
    destruct (IH a1 n k c) as (a2 & E2 & Hp2 & Ho2 & Hh2); [lia|lia|lia| | |].
    + intros p c' u v Hp Hne Hpc Hcn' Hu Hv. pose proof (child_lt _ _ Hpc).
      destruct (decide (p = r)) as [->|Hpr].
      * rewrite H1r in Hu. simplify_eq. destruct (decide (c' = c)) as [->|]; [by simplify_eq|].
        rewrite H1o in Hv by lia. by apply (Hdom c').
      * rewrite H1o in Hu by congruence. destruct (decide (c' = r)) as [->|].
        -- simplify_eq. by apply (Hb p c).
        -- destruct (decide (c' = c)) as [->|]; [destruct Hpr; by eapply child_inj|].
           rewrite H1o in Hv by done. apply (Hh p c'); (done || congruence).
    + intros p c' u v Hp Hpc Hcc' Hcn' Hu Hv. pose proof (child_lt _ _ Hcc').
      rewrite (child_inj _ _ _ Hpc Hch) in *. simplify_eq. rewrite H1o in Hv by lia.
      apply (Hh c c'); (done || lia).
    + exists a2. rewrite E2. repeat split; [by rewrite Hp2| |done].
      intros i Hi. rewrite Ho2 by done. apply H1o; lia.
Qed.

Lemma heapify_idx_spec k : forall a n, (n <= length a)%nat -> (k <= n)%nat -> heap a n k ->
  exists a', heapify_idx k a n = Some a' /\ a' ≡ₚ a /\ heap a' n 0.
Proof.
  induction k as [|k IH]; intros a n Hn Hk Hh; simpl; [by exists a|].
  destruct (sift_idx_spec (S (length a)) a n k k) as (a1 & E1 & Hp1 & _ & Hh1); try lia.
  - intros p c x y Hp Hne Hpc. apply Hh; [lia|tauto|done].
  - intros p c x y Hp Hpk. apply child_lt in Hpk. lia.
  - simpl in E1. rewrite E1. simpl. assert (length a1 = length a) by by rewrite Hp1.
    destruct (IH a1 n) as (a2 & E2 & Hp2 & Hh2); [lia|lia|done|].
    exists a2. split; [done|]. split; [by rewrite Hp2|done].
Qed.

(** The root of a heap dominates it. *)
Lemma heap_root (a : list A) n : (n <= length a)%nat -> heap a n 0 ->
  forall i x0 x, (i < n)%nat -> a !! 0%nat = Some x0 -> a !! i = Some x -> ge x0 x.
Proof.
  intros Hn Hh i. induction (lt_wf i) as [i _ IH]. intros x0 x Hi H0 Hx.
  destruct i as [|i]; [simplify_eq; apply ge_refl|].
  set (p := (i / 2)%nat). assert (child p (S i)) as Hc.
  { unfold child, p. pose proof (Nat.div_mod_eq i 2). pose proof (Nat.mod_upper_bound i 2). lia. }
  pose proof (child_lt _ _ Hc). destruct (lookup_lt_is_Some_2 a p) as [z Hz]; [lia|].
  apply (ge_trans _ z); [apply (IH p); (done || lia)|]. apply (Hh p (S i)); (done || tauto || lia).
Qed.

Definition sorted_from (a : list A) (k : nat) : Prop :=
  forall i j x y, (i < j)%nat -> (k <= j)%nat -> a !! i = Some x -> a !! j = Some y -> ge y x.

Lemma sort_idx_spec k : forall a, (k <= length a)%nat -> heap a k 0 -> sorted_from a k ->
  exists a', sort_idx k a = Some a' /\ a' ≡ₚ a /\ sorted_from a' 0.
Proof.
  induction k as [|k IH]; intros a Hk Hh Hs; simpl; [by exists a|].
  destruct (swap_idx_spec a 0 k) as (x0 & xk & a1 & H0 & Hk0 & E1 & L1 & H10 & H1k & H1o); [lia|lia|].
  rewrite E1. simpl. pose proof (swap_idx_perm _ _ _ _ E1) as Hp1.
  assert (Hmax : forall j x, (j <= k)%nat -> a !! j = Some x -> ge x0 x)
    by (intros j x Hj; apply (heap_root a (S k)); (done || lia)).
  assert (Hsk : sorted_from a1 k).
  { intros i j x y Hij Hkj Hx Hy. destruct (decide (j = k)) as [->|Hne].
    - rewrite H1k in Hy. simplify_eq. destruct (decide (i = 0)%nat) as [->|].
      + rewrite H10 in Hx. simplify_eq. by apply (Hmax k).
      + rewrite H1o in Hx by lia. apply (Hmax i); (done || lia).
    - rewrite H1o in Hy by lia.
      destruct (decide (i = 0)%nat) as [->|]; [|destruct (decide (i = k)) as [->|]].
      + rewrite H10 in Hx. simplify_eq. apply (Hs k j); (done || lia).
      + rewrite H1k in Hx. simplify_eq. apply (Hs 0%nat j); (done || lia).
      + rewrite H1o in Hx by done. apply (Hs i j); (done || lia). }
  assert (exists a2, sift_idx (S (length a1)) a1 k 0 = Some a2 /\ a2 ≡ₚ a1 /\
    (forall i, (k <= i)%nat -> a2 !! i = a1 !! i) /\ heap a2 k 0) as (a2 & E2 & Hp2 & Ho2 & Hh2).
  { destruct k as [|k].
    { exists a1. simpl. repeat split; try done. intros ????. lia. }
    apply sift_idx_spec; try lia.
    - intros p c x y _ Hne Hpc Hc Hx Hy. apply child_lt in Hpc as Hlt.
      rewrite H1o in Hx, Hy by lia. apply (Hh p c); (done || tauto || lia).
    - intros p c x y _ Hp. apply child_lt in Hp. lia. }
  simpl in E2. rewrite E2. simpl. destruct (IH a2) as (a3 & E3 & Hp3 & Hs3); [rewrite Hp2; lia|done| |].
  - intros i j x y Hij Hkj Hx Hy. rewrite Ho2 in Hy by done.
    destruct (decide (i < k)%nat) as [Hik|].
    + destruct (prefix_values a1 a2 k i x) as (i' & Hi' & Hx'); try done.
      apply (Hsk i' j); (done || lia).
    + rewrite Ho2 in Hx by lia. by apply (Hsk i j).
  - exists a3. split; [done|]. split; [by rewrite Hp3, Hp2|done].
Qed.

(** ** Offsets and indices agree *)

Section Offsets.
Variable size : Z.
Hypothesis size_pos : 0 < size < 2 ^ 31.

Lemma at_off_mul (a : list A) i : at_off size a (Z.of_nat i * size) = a !! i.
Proof using A size size_pos.
  unfold at_off, aget. rewrite Z_mod_mult, Z.div_mul by lia.
  rewrite (proj2 (Z.leb_le 0 _)) by lia. by rewrite Nat2Z.id.
Qed.

Lemma aset_lt (a : list A) i x : (i < length a)%nat -> aset a (Z.of_nat i) x = Some (<[i := x]> a).
Proof.
  intros Hi. unfold aset. rewrite (proj2 (Z.leb_le 0 _)), (proj2 (Z.ltb_lt _ _)) by lia.
  simpl. by rewrite Nat2Z.id.
Qed.

Lemma swap_at_mul (a : list A) i j :
  swap_at size a (Z.of_nat i * size) (Z.of_nat j * size) = swap_idx a i j.
Proof using A size size_pos.
  unfold swap_at, swap_idx. rewrite !at_off_mul.
  destruct (a !! i) as [x|] eqn:Hx; [|done]. destruct (a !! j) as [y|] eqn:Hy; [|done]. simpl.
  apply lookup_lt_Some in Hx, Hy. rewrite !Z.div_mul by lia.
  rewrite aset_lt by done. simpl. rewrite aset_lt by (rewrite length_insert; done). done.
Qed.

Lemma sift_off fuel : forall a n r, Z.of_nat n * size < 2 ^ 31 -> (r < n \/ r = 0)%nat ->
  sift cmp size fuel a (Z.of_nat n * size) (Z.of_nat r * size) = sift_idx fuel a n r.
Proof using A cmp size size_pos.
  induction fuel as [|fuel IH]; intros a n r Hn Hr; [done|]. cbn [sift sift_idx].
  assert (0 <= Z.of_nat n * size) by nia. assert (0 <= Z.of_nat r * size) by nia.
  assert (Z.of_nat r * size * 2 + size < 2 ^ 32) by nia.
  rewrite (u32_small (_ * 2 + size)), (u32_small (Z.of_nat n * size)) by (unfold is_u32; lia).
  replace (Z.of_nat r * size * 2 + size) with (Z.of_nat (2 * r + 1) * size) by lia.
  destruct (decide (2 * r + 1 < n)%nat) as [Hd|Hd].
  2:{ rewrite (proj2 (Z.ltb_ge _ _)) by nia. done. }
  rewrite (proj2 (Z.ltb_lt _ _)) by nia.
  assert (Z.of_nat (2 * r + 1) * size < Z.of_nat n * size) by nia.
  assert (0 <= Z.of_nat (2 * r + 1) * size) by nia.
  assert (size <= Z.of_nat n * size) by nia.
  rewrite s32_small by lia. rewrite (u32_small (Z.of_nat (2 * r + 1) * size)) by (unfold is_u32; lia).
  rewrite (u32_small (Z.of_nat n * size - size)) by (unfold is_u32; lia).
  replace (Z.of_nat (2 * r + 1) * size + size) with (Z.of_nat (2 * r + 2) * size) by lia.
  replace (Z.of_nat n * size - size) with (Z.of_nat (n - 1) * size) by lia.
  assert ((if Z.of_nat (2 * r + 1) * size <? Z.of_nat (n - 1) * size then
      x ← at_off size a (Z.of_nat (2 * r + 1) * size); y ← at_off size a (Z.of_nat (2 * r + 2) * size);
      Some (if cmp x y <? 0 then s32 (Z.of_nat (2 * r + 2) * size) else Z.of_nat (2 * r + 1) * size)
    else Some (Z.of_nat (2 * r + 1) * size)) =
    (c ← (if decide (2 * r + 2 < n)%nat then
       x ← a !! (2 * r + 1)%nat; y ← a !! (2 * r + 2)%nat;
       Some (if cmp x y <? 0 then (2 * r + 2)%nat else (2 * r + 1)%nat)
     else Some (2 * r + 1)%nat); Some (Z.of_nat c * size))) as ->.
  { case_decide as Hd2.
    - assert (Z.of_nat (2 * r + 2) * size < Z.of_nat n * size) by nia.
      rewrite (proj2 (Z.ltb_lt _ _)), !at_off_mul, s32_small by nia.
      destruct (a !! (2 * r + 1)%nat); [|done]. destruct (a !! (2 * r + 2)%nat); [|done]. simpl.
      by destruct (_ <? _).
    - rewrite (proj2 (Z.ltb_ge _ _)) by nia. done. }
  destruct (if decide (2 * r + 2 < n)%nat then _ else _) as [c|] eqn:Ec; [|done]. simpl.
  rewrite !at_off_mul. destruct (a !! r); [|done]. simpl. destruct (a !! c); [|done]. simpl.
  destruct (0 <=? _); [done|]. rewrite swap_at_mul. destruct (swap_idx a r c) as [a'|]; [|done]. simpl.
  apply IH; [done|]. left.
  case_decide; [|by simplify_eq]. destruct (a !! (2 * r + 1)%nat); [|done].
  destruct (a !! (2 * r + 2)%nat); [|done]. simpl in Ec. destruct (_ <? _); simplify_eq; lia.
Qed.

Lemma heapify_off k : forall fuel a n, (k < fuel)%nat -> (k <= n)%nat -> Z.of_nat n * size < 2 ^ 31 ->
  heapify cmp size fuel a (Z.of_nat n * size) ((Z.of_nat k - 1) * size) = heapify_idx k a n.
Proof using A cmp size size_pos.
  induction k as [|k IH]; intros fuel a n Hf Hk Hn; (destruct fuel as [|fuel]; [lia|]);
    cbn [heapify heapify_idx].
  - rewrite (proj2 (Z.leb_gt _ _)) by lia. done.
  - replace (Z.of_nat (S k) - 1) with (Z.of_nat k) by lia.
    rewrite (proj2 (Z.leb_le _ _)) by nia. rewrite sift_off by (done || lia).
    destruct (sift_idx _ a n k) as [a'|]; [|done]. simpl.
    replace (Z.of_nat k * size - size) with ((Z.of_nat k - 1) * size) by lia.
    rewrite s32_small by nia. apply IH; lia.
Qed.

Lemma sort_down_off k : forall fuel a, (k < fuel)%nat -> Z.of_nat k * size < 2 ^ 31 ->
  sort_down cmp size fuel a ((Z.of_nat k - 1) * size) = sort_idx k a.
Proof using A cmp size size_pos.
  induction k as [|k IH]; intros fuel a Hf Hn; (destruct fuel as [|fuel]; [lia|]);
    cbn [sort_down sort_idx].
  - rewrite (proj2 (Z.leb_gt _ _)) by lia. done.
  - replace (Z.of_nat (S k) - 1) with (Z.of_nat k) by lia.
    rewrite (proj2 (Z.leb_le _ _)) by nia.
    rewrite (swap_at_mul a 0 k : swap_at size a 0 _ = _).
    destruct (swap_idx a 0 k) as [a1|]; [|done]. cbn [mbind option_bind].
    pose proof (sift_off (S (length a1)) a1 k 0 ltac:(lia) ltac:(lia)) as E.
    change (Z.of_nat 0 * size) with 0 in E. rewrite E.
    destruct (sift_idx _ a1 k 0) as [a2|]; [|done]. cbn [mbind option_bind].
    replace (Z.of_nat k * size - size) with ((Z.of_nat k - 1) * size) by lia.
    rewrite s32_small by nia. apply IH; lia.
Qed.

(** What [sort] does on an array whose byte size fits in an [int]. *)
Lemma sort_spec (a : list A) : Z.of_nat (length a) * size < 2 ^ 31 ->
  exists a', sort cmp size a (Z.of_nat (length a)) = Some a' /\ a' ≡ₚ a /\ sorted_from a' 0.
Proof using A cmp ge_total ge_trans size size_pos.
  intros Hn. unfold sort. set (n := length a) in *.
  assert (0 <= Z.of_nat n * size) by nia.
  assert (Z.of_nat n / 2 = Z.of_nat (n / 2)) as -> by (rewrite Nat2Z.inj_div; done).
  assert (n / 2 <= n)%nat by (apply Nat.Div0.div_le_upper_bound; lia).
  rewrite (s32_small (_ * size)), s32_small, s32_small by nia.
  replace (Z.of_nat n * size - size) with ((Z.of_nat n - 1) * size) by lia.
  rewrite heapify_off by lia.
  destruct (heapify_idx_spec (n / 2) a n) as (a1 & -> & Hp1 & Hh1); [lia|lia| |].
  { intros p c x y Hp _ Hc Hcn. unfold child in Hc.
    pose proof (Nat.div_mod_eq n 2). pose proof (Nat.mod_upper_bound n 2). lia. }
  cbn [mbind option_bind]. assert (length a1 = n) as L1 by by rewrite Hp1.
  rewrite sort_down_off by lia.
  destruct (sort_idx_spec n a1) as (a2 & -> & Hp2 & Hs2); [lia|done| |].
  { intros i j x y _ Hj _ Hy. apply lookup_lt_Some in Hy. lia. }
  exists a2. split; [done|]. split; [by rewrite Hp2|done].
Qed.

End Offsets.
End Index.

(** C28: for every element size and every array whose byte size fits in an
    [int], and a comparison that is a total preorder, [sort] terminates
    without an access outside the array, and its result is a permutation of
    the array in ascending order. *)
Theorem sort_correct {A} (cmp : A -> A -> Z) (size : Z) (a : list A) :
  (forall x y, 0 <= cmp x y \/ 0 <= cmp y x) ->
  (forall x y z, 0 <= cmp x y -> 0 <= cmp y z -> 0 <= cmp x z) ->
  0 < size < 2 ^ 31 -> Z.of_nat (length a) * size < 2 ^ 31 ->
  exists a', sort cmp size a (Z.of_nat (length a)) = Some a' /\ a' ≡ₚ a /\
    forall i j x y, (i < j)%nat -> a' !! i = Some x -> a' !! j = Some y -> 0 <= cmp y x.
Proof.
  intros Htot Htr Hs Hn.
  destruct (sort_spec cmp Htot Htr size Hs a Hn) as (a' & E & Hp & Hso).
  exists a'. split; [done|]. split; [done|]. intros i j x y Hij. apply (Hso i j); lia.
Qed.

Lemma sort_correct_witness :
  exists a', sort Z.sub 4 [5; 3; 9; 1; 3; 7] 6 = Some a' /\ a' ≡ₚ [5; 3; 9; 1; 3; 7] /\
    forall i j x y, (i < j)%nat -> a' !! i = Some x -> a' !! j = Some y -> 0 <= y - x.
Proof.
  apply (sort_correct Z.sub 4 [5; 3; 9; 1; 3; 7]).
  - intros. lia.
  - intros. lia.
  - lia.
  - simpl. lia.
Defined.

(** ** The byte swaps *)

(** Byte [i] after exchanging the [size] bytes at [a] with those at [b]. *)
Definition swapped (m : list Z) (a b size : Z) (i : nat) : option Z :=
  let z := Z.of_nat i in
  if decide (a <= z < a + size) then m !! Z.to_nat (b + (z - a))
  else if decide (b <= z < b + size) then m !! Z.to_nat (a + (z - b))
  else m !! i.

Lemma generic_swap_spec n : forall m a b, 0 <= a -> 0 <= b ->
  a + Z.of_nat (S n) <= b \/ b + Z.of_nat (S n) <= a ->
  a + Z.of_nat (S n) <= Z.of_nat (length m) -> b + Z.of_nat (S n) <= Z.of_nat (length m) ->
  exists m', generic_swap (S n) m a b (Z.of_nat (S n)) = Some m' /\ length m' = length m /\
    forall i, m' !! i = swapped m a b (Z.of_nat (S n)) i.
Proof.
  induction n as [|n IH]; intros m a b Ha Hb Hdis Hla Hlb;
    (destruct (lookup_lt_is_Some_2 m (Z.to_nat a)) as [t Ht]; [lia|]);
    (destruct (lookup_lt_is_Some_2 m (Z.to_nat b)) as [u Hu]; [lia|]);
    set (m1 := <[Z.to_nat b := t]> (<[Z.to_nat a := u]> m));
    assert (L1 : length m1 = length m) by (unfold m1; by rewrite !length_insert);
    assert (Hm1 : forall i, m1 !! i = swapped m a b 1 i)
      by (intros i; unfold m1, swapped; rewrite !list_lookup_insert;
          repeat case_decide; try lia; rewrite ?length_insert in *;
          repeat match goal with |- Some _ = m !! ?k =>
            first [replace k with (Z.to_nat a) by lia; done | replace k with (Z.to_nat b) by lia; done] end;
          try lia; try done).
  - cbn [generic_swap]. rewrite !aget_lookup, Ht, Hu by done. cbn [mbind option_bind].
    rewrite (aset_Z m a u) by lia. cbn [mbind option_bind].
    rewrite aset_Z by (rewrite length_insert; lia). cbn [mbind option_bind].
    exists m1. done.
  - cbn [generic_swap]. rewrite !aget_lookup, Ht, Hu by done. cbn [mbind option_bind].
    rewrite (aset_Z m a u) by lia. cbn [mbind option_bind].
    rewrite aset_Z by (rewrite length_insert; lia). cbn [mbind option_bind]. fold m1.
    rewrite (proj2 (Z.ltb_lt _ _)) by lia.
    replace (Z.of_nat (S (S n)) - 1) with (Z.of_nat (S n)) by lia.
    destruct (IH m1 (a + 1) (b + 1)) as (m' & E & L & Hm'); [lia|lia|lia|lia|lia|].
    exists m'. split; [done|]. split; [lia|]. intros i. rewrite Hm'. unfold swapped.
    rewrite !Hm1. unfold swapped. repeat case_decide; try lia; f_equal; lia.
Qed.

(** [generic_swap] exchanges the bytes of two disjoint elements and
    changes nothing else, and on 4-byte elements it computes the same memory
    as [u32_swap], the function [sort] takes instead of it. *)
Theorem swap_functions_agree m a b size : 0 < size -> 0 <= a -> 0 <= b ->
  a + size <= b \/ b + size <= a ->
  a + size <= Z.of_nat (length m) -> b + size <= Z.of_nat (length m) ->
  (exists m', generic_swap (Z.to_nat size) m a b size = Some m' /\
     forall i, m' !! i = swapped m a b size i) /\
  (size = 4 -> u32_swap m a b = generic_swap 4 m a b 4).
Proof.
  intros Hs Ha Hb Hd Hla Hlb.
  destruct (generic_swap_spec (Z.to_nat size - 1) m a b) as (m' & E & L & Hm'); try lia.
  replace (S (Z.to_nat size - 1)) with (Z.to_nat size) in * by lia. rewrite Z2Nat.id in * by lia.
  split; [by exists m'|]. intros ->. change (Z.to_nat 4) with 4%nat in E. rewrite E.
  unfold u32_swap.
  destruct (memcpy (replicate 4 0) 0 m a 4) as [t|] eqn:Et;
    [|rewrite memcpy_Some in Et by (rewrite ?length_replicate; lia); done].
  destruct (memcpy (replicate 4 0) 0 m b 4) as [u|] eqn:Eu;
    [|rewrite memcpy_Some in Eu by (rewrite ?length_replicate; lia); done].
  pose proof (memcpy_length _ _ _ _ _ _ Et) as Lt. pose proof (memcpy_length _ _ _ _ _ _ Eu) as Lu.
  rewrite length_replicate in Lt, Lu. cbn [mbind option_bind].
  destruct (memcpy m a u 0 4) as [m1|] eqn:E1; [|rewrite memcpy_Some in E1 by lia; done].
  pose proof (memcpy_length _ _ _ _ _ _ E1) as L1. cbn [mbind option_bind].
  destruct (memcpy m1 b t 0 4) as [m2|] eqn:E2; [|rewrite memcpy_Some in E2 by lia; done].
  f_equal. apply list_eq. intros i. rewrite Hm'. unfold swapped.
  rewrite (memcpy_lookup _ _ _ _ _ _ _ E2), (memcpy_lookup _ _ _ _ _ _ _ E1).
  rewrite !(memcpy_lookup _ _ _ _ _ _ _ Et), !(memcpy_lookup _ _ _ _ _ _ _ Eu).
  repeat case_decide; try lia; f_equal; lia.
Qed.

Lemma swap_functions_agree_witness :
  (exists m', generic_swap 4 [1; 2; 3; 4; 5; 6; 7; 8; 9] 4 0 4 = Some m' /\
     forall i, m' !! i = swapped [1; 2; 3; 4; 5; 6; 7; 8; 9] 4 0 4 i) /\
  (4 = 4 -> u32_swap [1; 2; 3; 4; 5; 6; 7; 8; 9] 4 0 = generic_swap 4 [1; 2; 3; 4; 5; 6; 7; 8; 9] 4 0 4).
Proof. apply (swap_functions_agree [1; 2; 3; 4; 5; 6; 7; 8; 9] 4 0 4); simpl; lia. Defined.

End Sort.
