(* ===== verification/RbTree.v ===== *)
(** * Red-black trees: [lib/rbtree.c], [include/linux/rbtree.h]

    The nodes live in a heap indexed by address; [rb_parent_color] keeps the
    parent address and the colour in one word, as in the source.  Every
    function is the pointer program of the source in the monad [ST], which
    faults on a null or wild pointer. *)

From S2P Require Import Prelude.


Module RbTree.

Record rb_node := mk_rb_node {
  rb_parent_color : Z;
  rb_right : Z;
  rb_left : Z
}.

Definition RB_RED : Z := 0.
Definition RB_BLACK : Z := 1.
Definition NULL : Z := 0.

(** The heap of nodes and the [rb_node] field of the [struct rb_root]. *)
Record rb_state := mk_rb_state { heap : gmap Z rb_node; root : Z }.

Abbreviation M := (ST rb_state).

(** Memory accesses: a dereference of [NULL] or of an unmapped address faults. *)
Definition ld (n : Z) : M rb_node := fun s =>
  if n =? NULL then None else match heap s !! n with Some v => Some (v, s) | None => None end.
Definition sto (n : Z) (v : rb_node) : M unit := fun s =>
  if n =? NULL then None
  else match heap s !! n with
       | Some _ => Some (tt, mk_rb_state (<[n := v]> (heap s)) (root s))
       | None => None
       end.

Definition ld_left (n : Z) : M Z := v ← ld n; mret (rb_left v).
Definition ld_right (n : Z) : M Z := v ← ld n; mret (rb_right v).
Definition ld_pc (n : Z) : M Z := v ← ld n; mret (rb_parent_color v).
Definition st_left (n x : Z) : M unit :=
  v ← ld n; sto n (mk_rb_node (rb_parent_color v) (rb_right v) x).
Definition st_right (n x : Z) : M unit :=
  v ← ld n; sto n (mk_rb_node (rb_parent_color v) x (rb_left v)).
Definition st_pc (n x : Z) : M unit :=
  v ← ld n; sto n (mk_rb_node x (rb_right v) (rb_left v)).
Definition ld_root : M Z := fun s => Some (root s, s).
Definition st_root (x : Z) : M unit := fun s => Some (tt, mk_rb_state (heap s) x).

(** ** The macros of [rbtree.h] *)

Definition rb_parent (r : Z) : M Z := pc ← ld_pc r; mret (Z.land pc (u32 (Z.lnot 3))).
Definition rb_color (r : Z) : M Z := pc ← ld_pc r; mret (Z.land pc 1).
Definition rb_is_red (r : Z) : M bool := c ← rb_color r; mret (c =? 0).
Definition rb_is_black (r : Z) : M bool := c ← rb_color r; mret (negb (c =? 0)).
Definition rb_set_red (r : Z) : M unit := pc ← ld_pc r; st_pc r (Z.land pc (u32 (Z.lnot 1))).
Definition rb_set_black (r : Z) : M unit := pc ← ld_pc r; st_pc r (Z.lor pc 1).
Definition rb_set_parent (rb p : Z) : M unit := pc ← ld_pc rb; st_pc rb (Z.lor (Z.land pc 3) p).
Definition rb_set_color (rb color : Z) : M unit :=
  pc ← ld_pc rb; st_pc rb (Z.lor (Z.land pc (u32 (Z.lnot 1))) color).

(** Where [rb_link] points: the root pointer or a child field of the parent. *)
Inductive rb_linkp := LinkRoot | LinkLeft | LinkRight.

Definition rb_link_node (node parent : Z) (rb_link : rb_linkp) : M unit :=
  st_pc node parent ;;
  st_right node NULL ;; st_left node NULL ;;
  match rb_link with
  | LinkRoot => st_root node
  | LinkLeft => st_left parent node
  | LinkRight => st_right parent node
  end.

(** ** [lib/rbtree.c] *)

Definition __rb_rotate_left (node : Z) : M unit :=
  right ← ld_right node;
  parent ← rb_parent node;
  rl ← ld_left right;
  st_right node rl ;;
  (if negb (rl =? NULL) then rb_set_parent rl node else mret tt) ;;
  st_left right node ;;
  rb_set_parent right parent ;;
  (if negb (parent =? NULL) then
     pl ← ld_left parent;
     if node =? pl then st_left parent right else st_right parent right
   else st_root right) ;;
  rb_set_parent node right.

Definition __rb_rotate_right (node : Z) : M unit :=
  left ← ld_left node;
  parent ← rb_parent node;
  lr ← ld_right left;
  st_left node lr ;;
  (if negb (lr =? NULL) then rb_set_parent lr node else mret tt) ;;
  st_right left node ;;
  rb_set_parent left parent ;;
  (if negb (parent =? NULL) then
     pr ← ld_right parent;
     if node =? pr then st_right parent left else st_left parent left
   else st_root left) ;;
  rb_set_parent node left.

(** The [while] loop of [rb_insert_color]. *)
Fixpoint insert_color_loop (fuel : nat) (node : Z) : M unit :=
  match fuel with
  | O => st_fault
  | S fuel =>
      parent ← rb_parent node;
      red ← (if negb (parent =? NULL) then rb_is_red parent else mret false);
      if negb red then mret tt else
      gparent ← rb_parent parent;
      gl ← ld_left gparent;
      if parent =? gl then
        uncle ← ld_right gparent;
        ured ← (if negb (uncle =? NULL) then rb_is_red uncle else mret false);
        if (ured : bool) then
          rb_set_black uncle ;; rb_set_black parent ;; rb_set_red gparent ;;
          insert_color_loop fuel gparent
        else
          pr ← ld_right parent;
          np ← (if pr =? node then __rb_rotate_left parent ;; mret (parent, node)
                else mret (node, parent));
          rb_set_black np.2 ;; rb_set_red gparent ;; __rb_rotate_right gparent ;;
          insert_color_loop fuel np.1
      else
        uncle ← ld_left gparent;
        ured ← (if negb (uncle =? NULL) then rb_is_red uncle else mret false);
        if (ured : bool) then
          rb_set_black uncle ;; rb_set_black parent ;; rb_set_red gparent ;;
          insert_color_loop fuel gparent
        else
          pl ← ld_left parent;
          np ← (if pl =? node then __rb_rotate_right parent ;; mret (parent, node)
                else mret (node, parent));
          rb_set_black np.2 ;; rb_set_red gparent ;; __rb_rotate_left gparent ;;
          insert_color_loop fuel np.1
  end.

(** Fuel: the loop climbs, so the number of allocated nodes bounds it. *)
Definition heap_fuel (s : rb_state) : nat := S (S (size (heap s))).

Definition rb_insert_color (node : Z) : M unit :=
  s ← st_get;
  insert_color_loop (heap_fuel s) node ;;
  r ← ld_root; rb_set_black r.

(** [!n || rb_is_black(n)]. *)
Definition null_or_black (n : Z) : M bool := if n =? NULL then mret true else rb_is_black n.

(** The [while] loop of [__rb_erase_color]; it returns the node to blacken. *)
Fixpoint erase_color_loop (fuel : nat) (node parent : Z) : M Z :=
  match fuel with
  | O => st_fault
  | S fuel =>
      nb ← null_or_black node;
      rt ← ld_root;
      if negb (nb && negb (node =? rt)) then mret node else
      pl ← ld_left parent;
      if pl =? node then
        other ← ld_right parent;
        ored ← rb_is_red other;
        other ← (if (ored : bool) then
                   rb_set_black other ;; rb_set_red parent ;; __rb_rotate_left parent ;;
                   ld_right parent
                 else mret other);
        ol ← ld_left other; olb ← null_or_black ol;
        orb ← (if (olb : bool) then or ← ld_right other; null_or_black or else mret false);
        if (orb : bool) then
          rb_set_red other ;;
          parent' ← rb_parent parent;
          erase_color_loop fuel parent parent'
        else
          or ← ld_right other; orb ← null_or_black or;
          other ← (if (orb : bool) then
                     o_left ← ld_left other;
                     (if negb (o_left =? NULL) then rb_set_black o_left else mret tt) ;;
                     rb_set_red other ;;
                     __rb_rotate_right other ;;
                     ld_right parent
                   else mret other);
          pc ← rb_color parent;
          rb_set_color other pc ;;
          rb_set_black parent ;;
          or ← ld_right other;
          (if negb (or =? NULL) then rb_set_black or else mret tt) ;;
          __rb_rotate_left parent ;;
          ld_root
      else
        other ← ld_left parent;
        ored ← rb_is_red other;
        other ← (if (ored : bool) then
                   rb_set_black other ;; rb_set_red parent ;; __rb_rotate_right parent ;;
                   ld_left parent
                 else mret other);
        ol ← ld_left other; olb ← null_or_black ol;
        orb ← (if (olb : bool) then or ← ld_right other; null_or_black or else mret false);
        if (orb : bool) then
          rb_set_red other ;;
          parent' ← rb_parent parent;
          erase_color_loop fuel parent parent'
        else
          ol ← ld_left other; olb ← null_or_black ol;
          other ← (if (olb : bool) then
                     o_right ← ld_right other;
                     (if negb (o_right =? NULL) then rb_set_black o_right else mret tt) ;;
                     rb_set_red other ;;
                     __rb_rotate_left other ;;
                     ld_left parent
                   else mret other);
          pc ← rb_color parent;
          rb_set_color other pc ;;
          rb_set_black parent ;;
          ol ← ld_left other;
          (if negb (ol =? NULL) then rb_set_black ol else mret tt) ;;
          __rb_rotate_right parent ;;
          ld_root
  end.

Definition __rb_erase_color (node parent : Z) : M unit :=
  s ← st_get;
  node ← erase_color_loop (heap_fuel s) node parent;
  if negb (node =? NULL) then rb_set_black node else mret tt.

(** [while (n->rb_left) n = n->rb_left], and its mirror image. *)
Fixpoint leftmost (fuel : nat) (n : Z) : M Z :=
  match fuel with
  | O => st_fault
  | S fuel => left ← ld_left n; if left =? NULL then mret n else leftmost fuel left
  end.

Fixpoint rightmost (fuel : nat) (n : Z) : M Z :=
  match fuel with
  | O => st_fault
  | S fuel => right ← ld_right n; if right =? NULL then mret n else rightmost fuel right
  end.

(** The part of [rb_erase] for a node with two children: its successor is
    unlinked and takes its place.  Returns [(child, parent, color)]. *)
Definition erase_successor (old : Z) : M (Z * Z * Z) :=
  s ← st_get;
  r ← ld_right old;
  node ← leftmost (heap_fuel s) r;
  child ← ld_right node;
  parent ← rb_parent node;
  color ← rb_color node;
  (if negb (child =? NULL) then rb_set_parent child parent else mret tt) ;;
  parent ← (if parent =? old then st_right parent child ;; mret node
            else st_left parent child ;; mret parent);
  opc ← ld_pc old; st_pc node opc ;;
  orr ← ld_right old; st_right node orr ;;
  orl ← ld_left old; st_left node orl ;;
  op ← rb_parent old;
  (if negb (op =? NULL) then
     opl ← ld_left op;
     if opl =? old then st_left op node else st_right op node
   else st_root node) ;;
  orl ← ld_left old; rb_set_parent orl node ;;
  orr ← ld_right old;
  (if negb (orr =? NULL) then rb_set_parent orr node else mret tt) ;;
  mret (child, parent, color).

(** The part of [rb_erase] for a node with at most one child. *)
Definition erase_simple (node child : Z) : M (Z * Z * Z) :=
  parent ← rb_parent node;
  color ← rb_color node;
  (if negb (child =? NULL) then rb_set_parent child parent else mret tt) ;;
  (if negb (parent =? NULL) then
     pl ← ld_left parent;
     if pl =? node then st_left parent child else st_right parent child
   else st_root child) ;;
  mret (child, parent, color).

Definition rb_erase (node : Z) : M unit :=
  nl ← ld_left node;
  nr ← ld_right node;
  cpc ← (if nl =? NULL then erase_simple node nr
         else if nr =? NULL then erase_simple node nl
         else erase_successor node);
  let '(child, parent, color) := cpc in
  if color =? RB_BLACK then __rb_erase_color child parent else mret tt.

Definition rb_first : M Z :=
  s ← st_get;
  n ← ld_root; if n =? NULL then mret NULL else leftmost (heap_fuel s) n.

Definition rb_last : M Z :=
  s ← st_get;
  n ← ld_root; if n =? NULL then mret NULL else rightmost (heap_fuel s) n.

(** [while ((parent = rb_parent(node)) && node == parent->rb_right) node = parent;
    return parent], and its mirror image. *)
Fixpoint up_from_right (fuel : nat) (node : Z) : M Z :=
  match fuel with
  | O => st_fault
  | S fuel =>
      parent ← rb_parent node;
      if parent =? NULL then mret parent else
      pr ← ld_right parent;
      if node =? pr then up_from_right fuel parent else mret parent
  end.

Fixpoint up_from_left (fuel : nat) (node : Z) : M Z :=
  match fuel with
  | O => st_fault
  | S fuel =>
      parent ← rb_parent node;
      if parent =? NULL then mret parent else
      pl ← ld_left parent;
      if node =? pl then up_from_left fuel parent else mret parent
  end.

Definition rb_next (node : Z) : M Z :=
  s ← st_get;
  p ← rb_parent node;
  if p =? node then mret NULL else
  nr ← ld_right node;
  if negb (nr =? NULL) then leftmost (heap_fuel s) nr
  else up_from_right (heap_fuel s) node.

Definition rb_prev (node : Z) : M Z :=
  s ← st_get;
  p ← rb_parent node;
  if p =? node then mret NULL else
  nl ← ld_left node;
  if negb (nl =? NULL) then rightmost (heap_fuel s) nl
  else up_from_left (heap_fuel s) node.

Definition rb_replace_node (victim new : Z) : M unit :=
  parent ← rb_parent victim;
  (if negb (parent =? NULL) then
     pl ← ld_left parent;
     if victim =? pl then st_left parent new else st_right parent new
   else st_root new) ;;
  vl ← ld_left victim;
  (if negb (vl =? NULL) then rb_set_parent vl new else mret tt) ;;
  vr ← ld_right victim;
  (if negb (vr =? NULL) then rb_set_parent vr new else mret tt) ;;
  v ← ld victim; sto new v.

End RbTree.
