(* ===== verification/RbTreeRep.v ===== *)
(** * Red-black trees: what a heap represents

    Trees and zippers over node addresses, the predicate [Rep] that relates a
    heap to the tree it holds, and the effect of every primitive of
    [lib/rbtree.c] on [Rep].  The loop proofs in the next files only use the
    rules stated here. *)

From S2P Require Import Prelude RbTree.

Module RbTreeRep.
Import RbTree.

Inductive color := Red | Black.
Inductive tree := E | T (c : color) (l : tree) (n : Z) (r : tree).

#[export] Instance color_eq_dec : EqDecision color.
Proof. solve_decision. Defined.

#[export] Instance tree_eq_dec : EqDecision tree.
Proof. solve_decision. Defined.

Definition ptr (t : tree) : Z := match t with E => NULL | T _ _ n _ => n end.

Fixpoint inorder (t : tree) : list Z :=
  match t with E => [] | T _ l n r => inorder l ++ n :: inorder r end.

Definition is_red (t : tree) : bool := match t with T Red _ _ _ => true | _ => false end.

(** A context: the path from a hole up to the root. *)
Inductive frame :=
| FL (c : color) (n : Z) (r : tree)     (* the hole is the left child *)
| FR (c : color) (l : tree) (n : Z).    (* the hole is the right child *)

#[export] Instance frame_eq_dec : EqDecision frame.
Proof. solve_decision. Defined.

Definition fill (f : frame) (t : tree) : tree :=
  match f with FL c n r => T c t n r | FR c l n => T c l n t end.

Fixpoint plug (K : list frame) (t : tree) : tree :=
  match K with [] => t | f :: K => plug K (fill f t) end.

Definition fptr (f : frame) : Z := match f with FL _ n _ | FR _ _ n => n end.
Definition kptr (K : list frame) : Z := match K with [] => NULL | f :: _ => fptr f end.

(** The addresses before and after the hole. *)
Fixpoint kbefore (K : list frame) : list Z :=
  match K with
  | [] => []
  | FL _ _ _ :: K => kbefore K
  | FR _ l n :: K => kbefore K ++ inorder l ++ [n]
  end.
Fixpoint kafter (K : list frame) : list Z :=
  match K with
  | [] => []
  | FL _ n r :: K => n :: inorder r ++ kafter K
  | FR _ _ _ :: K => kafter K
  end.

Lemma inorder_plug K : forall t, inorder (plug K t) = kbefore K ++ inorder t ++ kafter K.
Proof.
  induction K as [|[c n r|c l n] K IH]; intros t; simpl; [by rewrite app_nil_r| |];
    rewrite IH; simpl; by rewrite <- !app_assoc.
Qed.

(** ** Words *)

Definition colbit (c : color) : Z := match c with Red => RB_RED | Black => RB_BLACK end.

Definition enc (par : Z) (c : color) (l r : Z) : rb_node := mk_rb_node (Z.lor par (colbit c)) r l.

(** What the alignment of [struct rb_node] guarantees of an address. *)
Definition word_ok (p : Z) : Prop := 0 <= p < 2 ^ 32 /\ p mod 4 = 0.
Definition addr_ok (p : Z) : Prop := word_ok p /\ p <> NULL.

Lemma land_not x m : 0 <= x < 2 ^ 32 -> Z.land x (u32 (Z.lnot m)) = Z.ldiff x m.
Proof.
  intros Hx. apply Z.bits_inj'. intros i Hi. rewrite Z.land_spec, Z.ldiff_spec.
  destruct (decide (i < 32)).
  - unfold u32. rewrite Z.mod_pow2_bits_low, Z.lnot_spec by lia. done.
  - rewrite (testbit_high x 32) by lia. done.
Qed.

Lemma word_land p m : word_ok p -> m = 1 \/ m = 3 -> Z.land p m = 0.
Proof.
  intros [Hp H4] Hm.
  assert (Z.land p 3 = 0) as H3 by (change 3 with (2 ^ 2 - 1); by rewrite land_ones_mod by lia).
  destruct Hm as [-> | ->]; [|done].
  change 1 with (Z.land 3 1). by rewrite Z.land_assoc, H3.
Qed.

Lemma lor_range p c : word_ok p -> 0 <= Z.lor p (colbit c) < 2 ^ 32.
Proof.
  intros [Hp _]. split; [apply Z.lor_nonneg; split; [lia|by destruct c]|].
  destruct (decide (Z.lor p (colbit c) = 0)) as [->|]; [lia|].
  apply Z.log2_lt_pow2; [assert (0 <= Z.lor p (colbit c)) by (apply Z.lor_nonneg; split; [lia|by destruct c]); lia|].
  rewrite Z.log2_lor by (lia || by destruct c).
  apply Z.max_lub_lt; [|destruct c; simpl; lia].
  destruct (decide (p = 0)) as [->|]; [simpl; lia|]. apply Z.log2_lt_pow2; lia.
Qed.

Lemma ldiff_word p m : word_ok p -> m = 1 \/ m = 3 -> Z.ldiff p m = p.
Proof.
  intros Hp Hm. pose proof (word_land p m Hp Hm) as E.
  apply Z.bits_inj'. intros i Hi. rewrite Z.ldiff_spec.
  apply (f_equal (fun z => Z.testbit z i)) in E. rewrite Z.land_spec, Z.testbit_0_l in E.
  by destruct (Z.testbit p i), (Z.testbit m i).
Qed.

Lemma ldiff_lor a b m : Z.ldiff (Z.lor a b) m = Z.lor (Z.ldiff a m) (Z.ldiff b m).
Proof.
  apply Z.bits_inj'. intros i Hi. rewrite Z.lor_spec, !Z.ldiff_spec, Z.lor_spec.
  by destruct (Z.testbit a i), (Z.testbit b i), (Z.testbit m i).
Qed.

Lemma enc_parent p c : word_ok p -> Z.land (Z.lor p (colbit c)) (u32 (Z.lnot 3)) = p.
Proof.
  intros Hp. rewrite land_not by by apply lor_range.
  rewrite ldiff_lor, ldiff_word by auto. destruct c; apply Z.lor_0_r.
Qed.

Lemma enc_color p c : word_ok p -> Z.land (Z.lor p (colbit c)) 1 = colbit c.
Proof. intros Hp. rewrite Z.land_lor_distr_l, word_land by auto. by destruct c. Qed.

Lemma enc_set_parent p q c : word_ok p -> Z.lor (Z.land (Z.lor p (colbit c)) 3) q = Z.lor q (colbit c).
Proof. intros Hp. rewrite Z.land_lor_distr_l, word_land, Z.lor_0_l, Z.lor_comm by auto. by destruct c. Qed.

Lemma enc_clear p c : word_ok p -> Z.land (Z.lor p (colbit c)) (u32 (Z.lnot 1)) = p.
Proof.
  intros Hp. rewrite land_not by by apply lor_range.
  rewrite ldiff_lor, ldiff_word by auto. destruct c; apply Z.lor_0_r.
Qed.

Lemma enc_set_red p c : word_ok p -> Z.land (Z.lor p (colbit c)) (u32 (Z.lnot 1)) = Z.lor p (colbit Red).
Proof. intros Hp. rewrite enc_clear by done. symmetry. apply Z.lor_0_r. Qed.

Lemma enc_set_black p c : Z.lor (Z.lor p (colbit c)) 1 = Z.lor p (colbit Black).
Proof. rewrite <- Z.lor_assoc. by destruct c. Qed.

(** ** Representation *)

Fixpoint rep (h : gmap Z rb_node) (par : Z) (t : tree) : Prop :=
  match t with
  | E => True
  | T c l n r => h !! n = Some (enc par c (ptr l) (ptr r)) /\ rep h n l /\ rep h n r
  end.

(** The context holds pointer [p] in its hole, and [rt] is the root pointer. *)
Fixpoint repk (h : gmap Z rb_node) (rt : Z) (K : list frame) (p : Z) : Prop :=
  match K with
  | [] => rt = p
  | FL c n r :: K => h !! n = Some (enc (kptr K) c p (ptr r)) /\ rep h n r /\ repk h rt K n
  | FR c l n :: K => h !! n = Some (enc (kptr K) c (ptr l) p) /\ rep h n l /\ repk h rt K n
  end.

(** State [s] holds tree [t]; outside the tree its heap agrees with [F]. *)
Record Rep (F : gmap Z rb_node) (t : tree) (s : rb_state) : Prop := {
  rep_nodup : NoDup (inorder t);
  rep_addr : Forall addr_ok (inorder t);
  rep_tree : rep (heap s) NULL t;
  rep_root : root s = ptr t;
  rep_frame : forall a, a ∉ inorder t -> heap s !! a = F !! a
}.

Lemma ptr_fill f t : ptr (fill f t) = fptr f.
Proof. by destruct f. Qed.

Lemma rep_plug h rt K : forall t,
  (rep h NULL (plug K t) /\ rt = ptr (plug K t)) <-> (rep h (kptr K) t /\ repk h rt K (ptr t)).
Proof.
  induction K as [|f K IH]; intros t; simpl; [done|].
  rewrite IH, ptr_fill. destruct f; simpl; tauto.
Qed.

Lemma rep_insert h a v t : forall par, a ∉ inorder t -> rep h par t -> rep (<[a := v]> h) par t.
Proof.
  induction t as [|c l IHl n r IHr]; intros par Hn Hr; simpl in *; [done|].
  destruct Hr as (Hh & Hl & Hr). rewrite lookup_insert_ne by set_solver.
  repeat split; [done|apply IHl; set_solver|apply IHr; set_solver].
Qed.

Lemma repk_insert h rt a v K : forall p, a ∉ kbefore K ++ kafter K -> repk h rt K p ->
  repk (<[a := v]> h) rt K p.
Proof.
  induction K as [|[c n r|c l n] K IH]; intros p Hn Hr; simpl in *; [done| |];
    destruct Hr as (Hh & Ht & Hr); rewrite lookup_insert_ne by set_solver;
    (split; [done|]); (split; [apply rep_insert; set_solver|apply IH; set_solver]).
Qed.

(** Moving a subtree below a new parent rewrites the word of its root only. *)
Lemma rep_reparent h p q c l n r : NoDup (inorder (T c l n r)) -> rep h p (T c l n r) ->
  rep (<[n := enc q c (ptr l) (ptr r)]> h) q (T c l n r).
Proof.
  simpl. intros Hnd (Hh & Hl & Hr). rewrite lookup_insert_eq.
  apply NoDup_app in Hnd as (_ & Hd & Hnd). apply NoDup_cons in Hnd as [Hn _].
  split; [done|]. split; apply rep_insert; try done. intros Hin. apply (Hd n Hin). left.
Qed.

Lemma word_ok_null : word_ok NULL.
Proof. done. Qed.

Lemma addr_word p : addr_ok p -> word_ok p.
Proof. by intros []. Qed.

Lemma kptr_word K : Forall addr_ok (kbefore K ++ kafter K) -> word_ok (kptr K).
Proof.
  destruct K as [|[c n r|c l n] K]; simpl; intros H; [done| |];
    apply addr_word; eapply Forall_forall; try exact H; set_solver.
Qed.

(** ** Taking a representation apart around a hole *)

Record Foc (F : gmap Z rb_node) (K : list frame) (t : tree) (s : rb_state) : Prop := {
  foc_nodup : NoDup (kbefore K ++ inorder t ++ kafter K);
  foc_addr : Forall addr_ok (kbefore K ++ inorder t ++ kafter K);
  foc_tree : rep (heap s) (kptr K) t;
  foc_ctx : repk (heap s) (root s) K (ptr t);
  foc_frame : forall a, a ∉ kbefore K ++ inorder t ++ kafter K -> heap s !! a = F !! a
}.

Lemma Rep_Foc F K t s : Rep F (plug K t) s <-> Foc F K t s.
Proof.
  pose proof (rep_plug (heap s) (root s) K t) as H. split; intros [H1 H2 H3 H4 H5].
  - destruct (proj1 H) as [Ht Hk]; [done|]. rewrite inorder_plug in *. by split.
  - destruct (proj2 H) as [Ht Hr]; [done|]. rewrite <- inorder_plug in *. by split.
Qed.

(** ** Heaps that agree on the relevant addresses *)

Lemma rep_agree h h' t : forall par, (forall a, a ∈ inorder t -> h' !! a = h !! a) ->
  rep h par t -> rep h' par t.
Proof.
  induction t as [|c l IHl n r IHr]; intros par Ha Hr; simpl in *; [done|].
  destruct Hr as (Hh & Hl & Hr). rewrite Ha by set_solver.
  repeat split; [done|apply IHl; set_solver|apply IHr; set_solver].
Qed.

Lemma repk_agree h h' rt K : forall p, (forall a, a ∈ kbefore K ++ kafter K -> h' !! a = h !! a) ->
  repk h rt K p -> repk h' rt K p.
Proof.
  induction K as [|[c n r|c l n] K IH]; intros p Ha Hr; simpl in *; [done| |];
    destruct Hr as (Hh & Ht & Hr); rewrite Ha by set_solver;
    (split; [done|]); (split; [eapply rep_agree; [|done]; set_solver|apply IH; set_solver]).
Qed.

Lemma kptr_elem K : K <> [] -> kptr K ∈ kbefore K ++ kafter K.
Proof. destruct K as [|[c n r|c l n] K]; simpl; [done| |]; set_solver. Qed.

Definition same_but (a : Z) (h h' : gmap Z rb_node) : Prop := forall b, b <> a -> h' !! b = h !! b.

Lemma ld_run h rt n v : n <> NULL -> h !! n = Some v ->
  ld n (mk_rb_state h rt) = Some (v, mk_rb_state h rt).
Proof. intros Hn Hv. unfold ld. simpl. rewrite (proj2 (Z.eqb_neq _ _) Hn), Hv. done. Qed.

Lemma sto_run h rt n v v' : n <> NULL -> h !! n = Some v ->
  sto n v' (mk_rb_state h rt) = Some (tt, mk_rb_state (<[n := v']> h) rt).
Proof. intros Hn Hv. unfold sto. simpl. rewrite (proj2 (Z.eqb_neq _ _) Hn), Hv. done. Qed.

(** Field updates of a node in encoded form. *)
Section Run.
Variables (h : gmap Z rb_node) (rt n p l r : Z) (c : color).
Hypothesis Hn : n <> NULL.
Hypothesis Hp : word_ok p.
Hypothesis Hv : h !! n = Some (enc p c l r).

Ltac run := unfold rb_is_red, rb_is_black, rb_parent, rb_color, rb_set_red, rb_set_black,
    rb_set_parent, rb_set_color, ld_left, ld_right, st_left, st_right, st_pc, ld_pc,
    mbind, ST_bind, mret, ST_ret;
  repeat (erewrite ld_run by done; simpl); erewrite ?sto_run by done; simpl;
  rewrite ?enc_parent, ?enc_color, ?enc_set_parent, ?enc_set_red, ?enc_set_black, ?enc_clear by done;
  try done.

Lemma run_left : ld_left n (mk_rb_state h rt) = Some (l, mk_rb_state h rt).
Proof using Hn Hv. run. Qed.
Lemma run_right : ld_right n (mk_rb_state h rt) = Some (r, mk_rb_state h rt).
Proof using Hn Hv. run. Qed.
Lemma run_pc : ld_pc n (mk_rb_state h rt) = Some (Z.lor p (colbit c), mk_rb_state h rt).
Proof using Hn Hv. run. Qed.
Lemma run_parent : rb_parent n (mk_rb_state h rt) = Some (p, mk_rb_state h rt).
Proof using Hn Hv Hp. run. Qed.
Lemma run_color : rb_color n (mk_rb_state h rt) = Some (colbit c, mk_rb_state h rt).
Proof using Hn Hv Hp. run. Qed.
Lemma run_is_red : rb_is_red n (mk_rb_state h rt) = Some (bool_decide (c = Red), mk_rb_state h rt).
Proof using Hn Hv Hp. run. by destruct c. Qed.
Lemma run_is_black : rb_is_black n (mk_rb_state h rt) = Some (bool_decide (c = Black), mk_rb_state h rt).
Proof using Hn Hv Hp. run. by destruct c. Qed.
Lemma run_st_left x : st_left n x (mk_rb_state h rt) = Some (tt, mk_rb_state (<[n := enc p c x r]> h) rt).
Proof using Hn Hv. run. Qed.
Lemma run_st_right x : st_right n x (mk_rb_state h rt) = Some (tt, mk_rb_state (<[n := enc p c l x]> h) rt).
Proof using Hn Hv. run. Qed.
Lemma run_set_red : rb_set_red n (mk_rb_state h rt) = Some (tt, mk_rb_state (<[n := enc p Red l r]> h) rt).
Proof using Hn Hv Hp. run. Qed.
Lemma run_set_black : rb_set_black n (mk_rb_state h rt) = Some (tt, mk_rb_state (<[n := enc p Black l r]> h) rt).
Proof using Hn Hv. run. Qed.
Lemma run_set_parent q : rb_set_parent n q (mk_rb_state h rt) = Some (tt, mk_rb_state (<[n := enc q c l r]> h) rt).
Proof using Hn Hv Hp. run. Qed.
Lemma run_set_color c' : rb_set_color n (colbit c') (mk_rb_state h rt) =
  Some (tt, mk_rb_state (<[n := enc p c' l r]> h) rt).
Proof using Hn Hv Hp. run. by rewrite Z.lor_0_r. Qed.
End Run.

(** ** Relinking a child and moving a subtree *)

(** [x] may be the root of a subtree or null; the code sets its parent. *)
Definition set_parent_opt (x q : Z) : M unit :=
  if negb (x =? NULL) then rb_set_parent x q else mret tt.

Lemma run_set_parent_opt h rt p q t : NoDup (inorder t) -> Forall addr_ok (inorder t) ->
  word_ok p -> rep h p t ->
  exists h', set_parent_opt (ptr t) q (mk_rb_state h rt) = Some (tt, mk_rb_state h' rt) /\
    rep h' q t /\ (t = E -> h' = h) /\ same_but (ptr t) h h'.
Proof.
  intros Hnd Ha Hp Hr. unfold set_parent_opt. destruct t as [|c l n r]; simpl in *.
  - exists h. by repeat split.
  - assert (addr_ok n) as [_ Hn] by (eapply Forall_forall; [exact Ha|set_solver]).
    rewrite (proj2 (Z.eqb_neq _ _) Hn). simpl.
    erewrite run_set_parent by (try done; apply Hr). eexists. split; [done|].
    split; [by apply (rep_reparent h p)|]. split; [done|].
    intros b Hb. by rewrite lookup_insert_ne.
Qed.

(** [parent]'s field that holds [old] is overwritten by [new]; [sel] reads the
    field the code compares with. *)
Definition relink_l (parent old new : Z) : M unit :=
  if negb (parent =? NULL) then
    pl ← ld_left parent; if old =? pl then st_left parent new else st_right parent new
  else st_root new.
Definition relink_r (parent old new : Z) : M unit :=
  if negb (parent =? NULL) then
    pr ← ld_right parent; if old =? pr then st_right parent new else st_left parent new
  else st_root new.

(** The field of the context's parent that holds the hole's pointer. *)
Definition stlink (K : list frame) (new : Z) : M unit :=
  match K with
  | [] => st_root new
  | FL _ n _ :: _ => st_left n new
  | FR _ _ n :: _ => st_right n new
  end.

Lemma kptr_fresh c l n r K :
  (NoDup (kbefore (FL c n r :: K) ++ kafter (FL c n r :: K)) -> n ∉ inorder r /\ n ∉ kbefore K ++ kafter K) /\
  (NoDup (kbefore (FR c l n :: K) ++ kafter (FR c l n :: K)) -> n ∉ inorder l /\ n ∉ kbefore K ++ kafter K).
Proof.
  simpl. split; intros Hnd; [|rewrite <- !app_assoc in Hnd]; apply NoDup_app in Hnd as (_ & Hd & Hnd).
  - apply NoDup_cons in Hnd as [Hn _]. set_solver.
  - apply NoDup_app in Hnd as (_ & Hd' & Hnd). apply NoDup_cons in Hnd as [Hn _]. set_solver.
Qed.

Lemma kptr_addr f K : Forall addr_ok (kbefore (f :: K) ++ kafter (f :: K)) -> fptr f <> NULL.
Proof.
  intros Ha. assert (addr_ok (fptr f)) as [_ H]; [|done].
  eapply Forall_forall; [exact Ha|]. apply (kptr_elem (f :: K)). done.
Qed.

Lemma stlink_spec h rt K old new : NoDup (kbefore K ++ kafter K) ->
  Forall addr_ok (kbefore K ++ kafter K) -> repk h rt K old ->
  exists h' rt', stlink K new (mk_rb_state h rt) = Some (tt, mk_rb_state h' rt') /\
    repk h' rt' K new /\ (K = [] -> h' = h) /\ same_but (kptr K) h h'.
Proof.
  intros Hnd Ha Hk. destruct K as [|f K]; [by exists h, new|].
  pose proof (kptr_addr _ _ Ha) as Hf.
  destruct f as [c n r|c l n]; simpl in Hf; destruct Hk as (Hh & Ht & Hk); cbn [stlink].
  - apply (kptr_fresh c E n r K) in Hnd as [Hr Hn]. erewrite run_st_left by done. eexists _, rt.
    split; [done|]. cbn [repk]. rewrite lookup_insert_eq.
    split; [split; [done|]; split; [by apply rep_insert|by apply repk_insert]|].
    split; [done|]. intros b Hb. by rewrite lookup_insert_ne.
  - apply (kptr_fresh c l n E K) in Hnd as [Hr Hn]. erewrite run_st_right by done. eexists _, rt.
    split; [done|]. cbn [repk]. rewrite lookup_insert_eq.
    split; [split; [done|]; split; [by apply rep_insert|by apply repk_insert]|].
    split; [done|]. intros b Hb. by rewrite lookup_insert_ne.
Qed.

Lemma relink_stlink h rt K old new : Forall addr_ok (kbefore K ++ kafter K) ->
  old ∉ kbefore K ++ kafter K -> old <> NULL -> repk h rt K old ->
  relink_l (kptr K) old new (mk_rb_state h rt) = stlink K new (mk_rb_state h rt) /\
  relink_r (kptr K) old new (mk_rb_state h rt) = stlink K new (mk_rb_state h rt).
Proof.
  intros Ha Hold Hnn Hk. unfold relink_l, relink_r. destruct K as [|f K]; [done|].
  pose proof (kptr_addr _ _ Ha) as Hf. cbn [kptr]. rewrite (proj2 (Z.eqb_neq _ _) Hf).
  cbn [negb]. unfold mbind, ST_bind.
  destruct f as [c n r|c l n]; simpl in *; destruct Hk as (Hh & Ht & Hk);
    erewrite run_left, run_right by done; rewrite Z.eqb_refl, (proj2 (Z.eqb_neq _ _)); try done.
  - destruct r; simpl in *; set_solver.
  - destruct l; simpl in *; set_solver.
Qed.

Lemma relink_spec h rt K old new : NoDup (kbefore K ++ kafter K) ->
  Forall addr_ok (kbefore K ++ kafter K) -> old ∉ kbefore K ++ kafter K -> old <> NULL ->
  repk h rt K old ->
  exists h' rt', repk h' rt' K new /\ (K = [] -> h' = h) /\ same_but (kptr K) h h' /\
    relink_l (kptr K) old new (mk_rb_state h rt) = Some (tt, mk_rb_state h' rt') /\
    relink_r (kptr K) old new (mk_rb_state h rt) = Some (tt, mk_rb_state h' rt').
Proof.
  intros Hnd Ha Hold Hnn Hk. destruct (relink_stlink h rt K old new Ha Hold Hnn Hk) as [-> ->].
  destruct (stlink_spec h rt K old new Hnd Ha Hk) as (h' & rt' & E & H1 & H2 & H3). by exists h', rt'.
Qed.

Lemma NoDup_around {A} (l1 l2 l3 : list A) : NoDup (l1 ++ l2 ++ l3) ->
  NoDup (l1 ++ l3) /\ NoDup l2 /\ (forall x, x ∈ l2 -> x ∉ l1 ++ l3).
Proof.
  intros H. apply NoDup_app in H as (H1 & H2 & H3). apply NoDup_app in H3 as (H3 & H4 & H5).
  split; [apply NoDup_app; split; [done|]; split; [|done]|split; [done|]]; set_solver.
Qed.

Lemma NoDup_node c l n r : NoDup (inorder (T c l n r)) ->
  NoDup (inorder l) /\ NoDup (inorder r) /\ n ∉ inorder l /\ n ∉ inorder r /\
  (forall x, x ∈ inorder l -> x ∉ inorder r).
Proof.
  simpl. intros H. apply NoDup_app in H as (H1 & H2 & H3). apply NoDup_cons in H3 as (H3 & H4).
  repeat split; try done; set_solver.
Qed.

Lemma Forall_around {A} (P : A -> Prop) l1 l2 l3 : Forall P (l1 ++ l2 ++ l3) ->
  Forall P (l1 ++ l3) /\ Forall P l2.
Proof. rewrite !Forall_app. tauto. Qed.

Lemma Forall_node (P : Z -> Prop) c l n r : Forall P (inorder (T c l n r)) ->
  Forall P (inorder l) /\ P n /\ Forall P (inorder r).
Proof. simpl. rewrite Forall_app, Forall_cons. tauto. Qed.

Lemma ptr_elem t : t <> E -> ptr t ∈ inorder t.
Proof. destruct t; simpl; [done|]. intros. set_solver. Qed.

Lemma ptr_not t a : a ∉ inorder t -> a <> NULL -> a <> ptr t.
Proof. destruct t; simpl; [done|]. set_solver. Qed.

(** [same_but] at an address that is a subtree's root, a context's parent or
    null leaves disjoint trees alone. *)
Lemma rep_same_but a h h' t par : same_but a h h' -> a ∉ inorder t -> rep h par t -> rep h' par t.
Proof. intros Hs Ha. apply rep_agree. intros b Hb. apply Hs. by intros ->. Qed.

Lemma repk_same_but a h h' rt K p : same_but a h h' -> a ∉ kbefore K ++ kafter K ->
  repk h rt K p -> repk h' rt K p.
Proof. intros Hs Ha. apply repk_agree. intros b Hb. apply Hs. by intros ->. Qed.

Lemma insert_same_but a v (h : gmap Z rb_node) : same_but a h (<[a := v]> h).
Proof. intros b Hb. by rewrite lookup_insert_ne. Qed.

(** [x] is the pointer of a non-empty tree, or of a non-empty context. *)
Definition at_ptr (x : Z) (t : tree) : Prop := t <> E /\ x = ptr t.
Definition at_kptr (x : Z) (K : list frame) : Prop := K <> [] /\ x = kptr K.

Lemma at_ptr_elem x t : at_ptr x t -> x ∈ inorder t.
Proof. intros [Ht ->]. by apply ptr_elem. Qed.

Lemma at_kptr_elem x K : at_kptr x K -> x ∈ kbefore K ++ kafter K.
Proof. intros [Ht ->]. by apply kptr_elem. Qed.

Lemma set_parent_opt_same t h h' : (t = E -> h' = h) -> same_but (ptr t) h h' ->
  forall x, ~ at_ptr x t -> h' !! x = h !! x.
Proof.
  intros HE Hs x Hx. destruct t; [by rewrite HE|]. apply Hs. intros ->. by apply Hx.
Qed.

Lemma relink_same K h h' : (K = [] -> h' = h) -> same_but (kptr K) h h' ->
  forall x, ~ at_kptr x K -> h' !! x = h !! x.
Proof.
  intros HE Hs x Hx. destruct K; [by rewrite HE|]. apply Hs. intros ->. by apply Hx.
Qed.

Lemma rotate_left_eq node : __rb_rotate_left node =
  (right ← ld_right node; parent ← rb_parent node; rl ← ld_left right;
   st_right node rl ;; set_parent_opt rl node ;; st_left right node ;; rb_set_parent right parent ;;
   relink_l parent node right ;; rb_set_parent node right).
Proof. done. Qed.

(** The stores of a left rotation: four words change. *)
Lemma rotate_left_run h rt K cn a n cr b m c :
  NoDup (kbefore K ++ inorder (T cn a n (T cr b m c)) ++ kafter K) ->
  Forall addr_ok (kbefore K ++ inorder (T cn a n (T cr b m c)) ++ kafter K) ->
  rep h (kptr K) (T cn a n (T cr b m c)) -> repk h rt K n ->
  exists h' rt', __rb_rotate_left n (mk_rb_state h rt) = Some (tt, mk_rb_state h' rt') /\
    h' !! n = Some (enc m cn (ptr a) (ptr b)) /\ h' !! m = Some (enc (kptr K) cr n (ptr c)) /\
    rep h' n b /\ repk h' rt' K m /\
    (forall x, x <> n -> x <> m -> ~ at_ptr x b -> ~ at_kptr x K -> h' !! x = h !! x).
Proof.
  intros Hnd Ha Ht Hk.
  pose proof (NoDup_around _ _ _ Hnd) as (HndK & Hndt & HtK).
  pose proof (Forall_around _ _ _ _ Ha) as (HaK & Hat).
  pose proof (NoDup_node _ _ _ _ Hndt) as (_ & Hndr & Hna & Hnr & Har).
  pose proof (NoDup_node _ _ _ _ Hndr) as (Hndb & _ & Hmb & Hmc & Hbc).
  pose proof (Forall_node _ _ _ _ _ Hat) as (_ & [Hwn Hn0] & Hatr).
  pose proof (Forall_node _ _ _ _ _ Hatr) as (Hab & [Hwm Hm0] & _).
  pose proof (kptr_word K HaK) as Hwk. destruct Ht as (Hn & Hra & Hm & Hrb & Hrc). simpl in HtK, Hnr, Har, Hn.
  assert (n <> m) as Hnm by set_solver.
  assert (forall x, at_kptr x K -> x <> n /\ x <> m /\ x ∉ inorder b) as HkK.
  { intros x Hx%at_kptr_elem. repeat split; try (intros ->); [by apply (HtK n); set_solver..|].
    intros Hb. apply (HtK x); [set_solver|done]. }
  rewrite rotate_left_eq. unfold mbind, ST_bind.
  rewrite (run_right _ _ _ _ _ _ _ Hn0 Hn), (run_parent _ _ _ _ _ _ _ Hn0 Hwk Hn).
  rewrite (run_left _ _ _ _ _ _ _ Hm0 Hm), (run_st_right _ _ _ _ _ _ _ Hn0 Hn).
  set (h1 := <[n:=_]> h).
  destruct (run_set_parent_opt h1 rt m n b) as (h2 & E2 & Hrb2 & HE2 & Hs2); [done|done|done| |].
  { apply (rep_same_but n h); [apply insert_same_but|set_solver|done]. }
  rewrite E2. clear E2.
  pose proof (set_parent_opt_same _ _ _ HE2 Hs2) as Hs2'.
  assert (Hn2 : h2 !! n = Some (enc (kptr K) cn (ptr a) (ptr b)))
    by (rewrite Hs2' by (intros ?%at_ptr_elem; set_solver); apply lookup_insert_eq).
  assert (Hm2 : h2 !! m = Some (enc n cr (ptr b) (ptr c)))
    by (rewrite Hs2' by (intros ?%at_ptr_elem; set_solver); unfold h1; by rewrite lookup_insert_ne).
  rewrite (run_st_left _ _ _ _ _ _ _ Hm0 Hm2).
  erewrite (run_set_parent _ _ m); [|done|exact Hwn|apply lookup_insert_eq]. rewrite insert_insert_eq.
  set (h4 := <[m := _]> h2).
  assert (H4 : forall x, x <> n -> x <> m -> ~ at_ptr x b -> h4 !! x = h !! x).
  { intros x H1 H2 H3. unfold h4. rewrite lookup_insert_ne, Hs2' by done. unfold h1. by rewrite lookup_insert_ne. }
  destruct (relink_spec h4 rt K n m) as (h5 & rt' & Hk5 & HE5 & Hs5 & E5 & _);
    [done|done|apply HtK; set_solver|done| |].
  { apply (repk_agree h); [|done]. intros x Hx. apply H4; try (intros ->); try intros ?%at_ptr_elem;
      [by apply (HtK n); set_solver|by apply (HtK m); set_solver|by apply (HtK x); set_solver]. }
  rewrite E5. clear E5.
  pose proof (relink_same _ _ _ HE5 Hs5) as Hs5'.
  assert (Hn5 : h5 !! n = Some (enc (kptr K) cn (ptr a) (ptr b)))
    by (rewrite Hs5' by (intros ?%HkK; tauto); unfold h4; by rewrite lookup_insert_ne).
  rewrite (run_set_parent _ _ _ _ _ _ _ Hn0 Hwk Hn5). eexists _, _. split; [done|].
  rewrite lookup_insert_eq, lookup_insert_ne, Hs5' by (done || by intros ?%HkK; tauto).
  split; [done|]. split; [apply lookup_insert_eq|]. split; [|split].
  - apply rep_insert; [set_solver|]. apply (rep_agree h4); [intros x Hx; apply Hs5'; by intros ?%HkK; tauto|].
    by apply rep_insert.
  - apply repk_insert; [apply HtK; set_solver|done].
  - intros x H1 H2 H3 H4'. rewrite lookup_insert_ne, Hs5', H4 by done. done.
Qed.

Lemma inorder_rotate cn a n cr b m c :
  inorder (T cr (T cn a n b) m c) = inorder (T cn a n (T cr b m c)).
Proof. simpl. by rewrite <- app_assoc. Qed.

Lemma rotate_left_foc F K cn a n cr b m c s : Foc F K (T cn a n (T cr b m c)) s ->
  exists s', __rb_rotate_left n s = Some (tt, s') /\ Foc F K (T cr (T cn a n b) m c) s'.
Proof.
  intros [Hnd Ha Ht Hk Hf]. destruct s as [h rt].
  destruct (rotate_left_run h rt K cn a n cr b m c Hnd Ha Ht Hk)
    as (h' & rt' & E' & Hn' & Hm' & Hb' & Hk' & Ho).
  pose proof (NoDup_around _ _ _ Hnd) as (_ & Hndt & HtK).
  pose proof (NoDup_node _ _ _ _ Hndt) as (_ & Hndr & Hna & Hnr & Har).
  pose proof (NoDup_node _ _ _ _ Hndr) as (_ & _ & Hmb & Hmc & Hbc).
  eexists. split; [exact E'|].
  split; rewrite ?(inorder_rotate cn a n cr b m c); [done|done| |done|];
    destruct Ht as (_ & Hra & _ & _ & Hrc); simpl in *.
  - repeat split; try done.
    + apply (rep_agree h); [|done]. intros x Hx. apply Ho; [set_solver|set_solver| |].
      * intros Hb%at_ptr_elem. set_solver.
      * intros HK%at_kptr_elem. apply (HtK x); [set_solver|done].
    + apply (rep_agree h); [|done]. intros x Hx. apply Ho; [set_solver|set_solver| |].
      * intros Hb%at_ptr_elem. set_solver.
      * intros HK%at_kptr_elem. apply (HtK x); [set_solver|done].
  - intros x Hx. rewrite <- Hf by done. apply Ho.
    + set_solver.
    + set_solver.
    + intros Hb%at_ptr_elem. set_solver.
    + intros HK%at_kptr_elem. set_solver.
Qed.

(** ** Mirror images

    Swapping the two child fields of every node exchanges the two rotations,
    so the right rotation needs no proof of its own. *)

Definition mnode (v : rb_node) : rb_node := mk_rb_node (rb_parent_color v) (rb_left v) (rb_right v).
Definition mstate (s : rb_state) : rb_state := mk_rb_state (mnode <$> heap s) (root s).
Definition mres {A} (o : option (A * rb_state)) : option (A * rb_state) :=
  match o with Some (a, s) => Some (a, mstate s) | None => None end.

Fixpoint mtree (t : tree) : tree :=
  match t with E => E | T c l n r => T c (mtree r) n (mtree l) end.
Definition mframe (f : frame) : frame :=
  match f with FL c n r => FR c (mtree r) n | FR c l n => FL c n (mtree l) end.

(** [m'] is [m] with left and right exchanged. *)
Definition mirrors {A} (m m' : M A) : Prop := forall s, m' (mstate s) = mres (m s).

Lemma mirrors_ret {A} (a : A) : mirrors (mret a) (mret a).
Proof. done. Qed.

Lemma mirrors_bind {A B} (m m' : M A) (k k' : A -> M B) :
  mirrors m m' -> (forall a, mirrors (k a) (k' a)) -> mirrors (m ≫= k) (m' ≫= k').
Proof.
  intros Hm Hk s. unfold mbind, ST_bind. rewrite Hm. destruct (m s) as [[a s']|]; [apply Hk|done].
Qed.

Lemma mirrors_if {A} (b : bool) (m1 m2 m1' m2' : M A) : mirrors m1 m1' -> mirrors m2 m2' ->
  mirrors (if b then m1 else m2) (if b then m1' else m2').
Proof. by destruct b. Qed.

Lemma mirrors_ld n (k k' : rb_node -> M Z) : (forall v, mirrors (k v) (k' (mnode v))) ->
  mirrors (ld n ≫= k) (ld n ≫= k').
Proof.
  intros Hk s. unfold mbind, ST_bind, ld. simpl. rewrite lookup_fmap.
  destruct (_ =? _); [done|]. destruct (heap s !! n); [apply Hk|done].
Qed.

Lemma mirrors_sto n v : mirrors (sto n v) (sto n (mnode v)).
Proof.
  intros s. unfold sto. simpl. rewrite lookup_fmap. destruct (_ =? _); [done|].
  destruct (heap s !! n); simpl; [|done]. unfold mstate. simpl. by rewrite fmap_insert.
Qed.

Lemma mirrors_upd n (f f' : rb_node -> rb_node) : (forall v, mnode (f v) = f' (mnode v)) ->
  mirrors (v ← ld n; sto n (f v)) (v ← ld n; sto n (f' v)).
Proof.
  intros Hf s. unfold mbind, ST_bind, ld. simpl. rewrite lookup_fmap.
  destruct (_ =? _); [done|]. destruct (heap s !! n); simpl; [|done].
  rewrite <- Hf. apply (mirrors_sto n).
Qed.

Lemma mirrors_left n : mirrors (ld_left n) (ld_right n).
Proof. apply mirrors_ld. intros v. apply mirrors_ret. Qed.
Lemma mirrors_right n : mirrors (ld_right n) (ld_left n).
Proof. apply mirrors_ld. intros v. apply mirrors_ret. Qed.
Lemma mirrors_pc n : mirrors (ld_pc n) (ld_pc n).
Proof. apply mirrors_ld. intros v. apply mirrors_ret. Qed.
Lemma mirrors_st_left n x : mirrors (st_left n x) (st_right n x).
Proof. by apply mirrors_upd. Qed.
Lemma mirrors_st_right n x : mirrors (st_right n x) (st_left n x).
Proof. by apply mirrors_upd. Qed.
Lemma mirrors_st_pc n x : mirrors (st_pc n x) (st_pc n x).
Proof. by apply mirrors_upd. Qed.
Lemma mirrors_st_root x : mirrors (st_root x) (st_root x).
Proof. done. Qed.
Lemma mirrors_ld_root : mirrors ld_root ld_root.
Proof. done. Qed.

Create HintDb rbmirror discriminated.
#[export] Hint Resolve mirrors_ret mirrors_left mirrors_right mirrors_pc mirrors_st_left
  mirrors_st_right mirrors_st_pc mirrors_st_root mirrors_ld_root : rbmirror.

Ltac mirror := repeat first
  [ solve [eauto with rbmirror] | apply mirrors_bind; [|intro] | apply mirrors_if ].

Lemma mirrors_parent n : mirrors (rb_parent n) (rb_parent n).
Proof. unfold rb_parent. mirror. Qed.
Lemma mirrors_set_parent n p : mirrors (rb_set_parent n p) (rb_set_parent n p).
Proof. unfold rb_set_parent. mirror. Qed.
#[export] Hint Resolve mirrors_parent mirrors_set_parent : rbmirror.

Lemma mirrors_rotate n : mirrors (__rb_rotate_left n) (__rb_rotate_right n).
Proof. unfold __rb_rotate_left, __rb_rotate_right. mirror. Qed.

Lemma mtree_mtree t : mtree (mtree t) = t.
Proof. induction t as [|c l IHl n r IHr]; simpl; congruence. Qed.

Lemma mstate_mstate s : mstate (mstate s) = s.
Proof.
  destruct s as [h rt]. unfold mstate. simpl. f_equal. rewrite <- map_fmap_compose.
  rewrite <- (map_fmap_id h) at 2. apply map_fmap_ext. by intros i [] _.
Qed.

Lemma mframes_mframes (K : list frame) : mframe <$> (mframe <$> K) = K.
Proof. induction K as [|[] K IH]; [done|..]; rewrite !fmap_cons, IH; simpl; by rewrite mtree_mtree. Qed.

Lemma mtree_plug K : forall t, mtree (plug K t) = plug (mframe <$> K) (mtree t).
Proof. induction K as [|[] K IH]; intros t; [done|..]; rewrite fmap_cons; simpl; by rewrite IH. Qed.

Lemma inorder_mtree t : inorder (mtree t) = reverse (inorder t).
Proof.
  induction t as [|c l IHl n r IHr]; simpl; [done|].
  rewrite IHl, IHr, reverse_app, reverse_cons, <- app_assoc. done.
Qed.

Lemma ptr_mtree t : ptr (mtree t) = ptr t.
Proof. by destruct t. Qed.

Lemma rep_mirror h t : forall par, rep h par t -> rep (mnode <$> h) par (mtree t).
Proof.
  induction t as [|c l IHl n r IHr]; intros par; simpl; [done|]. intros (Hn & Hl & Hr).
  rewrite lookup_fmap, Hn, !ptr_mtree. simpl. auto.
Qed.

Lemma Rep_mirror F t s : Rep F t s -> Rep (mnode <$> F) (mtree t) (mstate s).
Proof.
  intros [H1 H2 H3 H4 H5]. split; rewrite ?inorder_mtree.
  - by rewrite reverse_Permutation.
  - by rewrite reverse_Permutation.
  - by apply rep_mirror.
  - simpl. by rewrite ptr_mtree.
  - intros a Ha. simpl. rewrite !lookup_fmap, H5; [done|]. by rewrite <- elem_of_reverse.
Qed.

Lemma mheap_mheap (F : gmap Z rb_node) : mnode <$> (mnode <$> F) = F.
Proof.
  rewrite <- map_fmap_compose. rewrite <- (map_fmap_id F) at 2. apply map_fmap_ext. by intros i [] _.
Qed.

(** A step on representations transfers to its mirror image. *)
Lemma mirror_step F (m m' : M unit) t t' s : mirrors m m' ->
  (forall F s, Rep F (mtree t) s -> exists s', m s = Some (tt, s') /\ Rep F (mtree t') s') ->
  Rep F t s -> exists s', m' s = Some (tt, s') /\ Rep F t' s'.
Proof.
  intros Hm Hstep H%Rep_mirror. destruct (Hstep _ _ H) as (s1 & E & H1).
  exists (mstate s1). rewrite <- (mstate_mstate s), Hm, E. split; [done|].
  apply Rep_mirror in H1. by rewrite mheap_mheap, mtree_mtree in H1.
Qed.

Lemma rotate_left_rep F K cn a n cr b m c s : Rep F (plug K (T cn a n (T cr b m c))) s ->
  exists s', __rb_rotate_left n s = Some (tt, s') /\ Rep F (plug K (T cr (T cn a n b) m c)) s'.
Proof. rewrite Rep_Foc. setoid_rewrite Rep_Foc. apply rotate_left_foc. Qed.

Lemma rotate_right_rep F K cn a m cl b n c s : Rep F (plug K (T cn (T cl a m b) n c)) s ->
  exists s', __rb_rotate_right n s = Some (tt, s') /\ Rep F (plug K (T cl a m (T cn b n c))) s'.
Proof.
  apply (mirror_step F (__rb_rotate_left n)); [apply mirrors_rotate|].
  intros F' s'. rewrite !mtree_plug. simpl. apply rotate_left_rep.
Qed.

End RbTreeRep.
