(* ===== verification/RbTreeRules.v ===== *)
(** * Red-black trees: rules for running the code on represented trees

    One rule per primitive, in the form "to run the primitive and then [k] on
    a state that holds [t], run [k] on a state that holds the changed tree",
    and the tactic [rb] that applies them, finding the node an instruction
    names inside the tree. *)

From S2P Require Import Prelude RbTree RbTreeRep.

Module RbTreeRules.
Import RbTree RbTreeRep.

Definition blacken (t : tree) : tree := match t with E => E | T _ l n r => T Black l n r end.

Lemma ptr_blacken t : ptr (blacken t) = ptr t.
Proof. by destruct t. Qed.

Lemma inorder_blacken t : inorder (blacken t) = inorder t.
Proof. by destruct t. Qed.

Lemma node_facts F K c l n r h rt : Rep F (plug K (T c l n r)) (mk_rb_state h rt) ->
  n <> NULL /\ word_ok n /\ word_ok (kptr K) /\ h !! n = Some (enc (kptr K) c (ptr l) (ptr r)).
Proof.
  intros [Hnd Ha [Hn _] Hk Hf]%Rep_Foc. apply Forall_around in Ha as [HaK Hat].
  apply Forall_node in Hat as (_ & [Hw Hn0] & _). pose proof (kptr_word K HaK). done.
Qed.

Section Rules.
Context (F : gmap Z rb_node) {A : Type} (Q : A -> rb_state -> Prop).

Lemma wp_read {B} P (m : M B) v (k : B -> M A) : (forall s, P s -> m s = Some (v, s)) ->
  triple P (k v) Q -> triple P (m ≫= k) Q.
Proof. intros Hm Hk s Hs. unfold mbind, ST_bind. rewrite Hm by done. by apply Hk. Qed.

Lemma wp_step {B} P P' (m : M B) v (k : B -> M A) :
  (forall s, P s -> exists s', m s = Some (v, s') /\ P' s') ->
  triple P' (k v) Q -> triple P (m ≫= k) Q.
Proof.
  intros Hm Hk s Hs. destruct (Hm s Hs) as (s' & E & Hs'). unfold mbind, ST_bind. rewrite E. by apply Hk.
Qed.

Lemma wp_tail P (m : M A) : triple P (m ≫= mret) Q -> triple P m Q.
Proof.
  intros H s Hs. destruct (H s Hs) as (a & s' & E & Hq). exists a, s'. split; [|done].
  unfold mbind, ST_bind in E. by destruct (m s) as [[]|].
Qed.

Lemma wp_ret P a : (forall s, P s -> Q a s) -> triple P (mret a) Q.
Proof. intros H s Hs. exists a, s. split; [done|by apply H]. Qed.

Lemma wp_assoc {B C} P (m : M B) (k1 : B -> M C) (k2 : C -> M A) :
  triple P (m ≫= fun b => k1 b ≫= k2) Q -> triple P ((m ≫= k1) ≫= k2) Q.
Proof.
  intros H s Hs. destruct (H s Hs) as (a & s' & E & Hq). exists a, s'. split; [|done].
  unfold mbind, ST_bind in *. by destruct (m s) as [[]|].
Qed.

Lemma wp_ret_bind {B} P (b : B) (k : B -> M A) : triple P (k b) Q -> triple P (mret b ≫= k) Q.
Proof. done. Qed.

Section Focus.
Context (K : list frame) (c : color) (l : tree) (n : Z) (r : tree).
Local Abbreviation P := (Rep F (plug K (T c l n r))).

Ltac read lem := intros Hk; eapply wp_read; [|exact Hk]; intros [h rt] H;
  pose proof (node_facts _ _ _ _ _ _ _ _ H) as (? & ? & ? & ?); by eapply lem.

Lemma wp_left k : triple P (k (ptr l)) Q -> triple P (ld_left n ≫= k) Q.
Proof. read run_left. Qed.
Lemma wp_right k : triple P (k (ptr r)) Q -> triple P (ld_right n ≫= k) Q.
Proof. read run_right. Qed.
Lemma wp_parent k : triple P (k (kptr K)) Q -> triple P (rb_parent n ≫= k) Q.
Proof. read run_parent. Qed.
Lemma wp_color k : triple P (k (colbit c)) Q -> triple P (rb_color n ≫= k) Q.
Proof. read run_color. Qed.
Lemma wp_is_red k : triple P (k (bool_decide (c = Red))) Q -> triple P (rb_is_red n ≫= k) Q.
Proof. read run_is_red. Qed.
Lemma wp_is_black k : triple P (k (bool_decide (c = Black))) Q -> triple P (rb_is_black n ≫= k) Q.
Proof. read run_is_black. Qed.

Lemma recolor c' h rt : P (mk_rb_state h rt) ->
  Rep F (plug K (T c' l n r)) (mk_rb_state (<[n := enc (kptr K) c' (ptr l) (ptr r)]> h) rt).
Proof.
  rewrite !Rep_Foc. intros [Hnd Ha Ht Hk Hf]. simpl in *.
  pose proof (NoDup_around _ _ _ Hnd) as (_ & Hndt & HtK).
  split; [done|done| | |]; simpl.
  - pose proof (NoDup_node c l n r Hndt) as (_ & _ & Hnl & Hnr & _). rewrite lookup_insert_eq.
    split; [done|]. split; apply rep_insert; (done || apply Ht).
  - apply repk_insert; [|done]. apply HtK. simpl. set_solver.
  - intros x Hx. rewrite lookup_insert_ne by set_solver. by apply Hf.
Qed.

Ltac write lem := intros Hk; eapply wp_step; [|exact Hk]; intros [h rt] H;
  pose proof (node_facts _ _ _ _ _ _ _ _ H) as (? & ? & ? & ?);
  eexists; (split; [by eapply lem|by apply recolor]).

Lemma wp_set_red k : triple (Rep F (plug K (T Red l n r))) (k tt) Q -> triple P (rb_set_red n ≫= k) Q.
Proof. write run_set_red. Qed.
Lemma wp_set_black k : triple (Rep F (plug K (T Black l n r))) (k tt) Q -> triple P (rb_set_black n ≫= k) Q.
Proof. write run_set_black. Qed.
Lemma wp_set_color c' k : triple (Rep F (plug K (T c' l n r))) (k tt) Q ->
  triple P (rb_set_color n (colbit c') ≫= k) Q.
Proof. write run_set_color. Qed.
End Focus.

Lemma wp_rotate_left K cn a n cr b m c k :
  triple (Rep F (plug K (T cr (T cn a n b) m c))) (k tt) Q ->
  triple (Rep F (plug K (T cn a n (T cr b m c)))) (__rb_rotate_left n ≫= k) Q.
Proof. intros Hk. eapply wp_step; [|exact Hk]. intros s. apply rotate_left_rep. Qed.

Lemma wp_rotate_right K cn a m cl b n c k :
  triple (Rep F (plug K (T cl a m (T cn b n c)))) (k tt) Q ->
  triple (Rep F (plug K (T cn (T cl a m b) n c))) (__rb_rotate_right n ≫= k) Q.
Proof. intros Hk. eapply wp_step; [|exact Hk]. intros s. apply rotate_right_rep. Qed.

Lemma wp_root t k : triple (Rep F t) (k (ptr t)) Q -> triple (Rep F t) (ld_root ≫= k) Q.
Proof. intros Hk. eapply wp_read; [|exact Hk]. intros s [_ _ _ <- _]. done. Qed.

(** Accesses guarded by a null test, on a possibly empty subtree. *)
Lemma ptr_null K t s : Rep F (plug K t) s -> (ptr t =? NULL) = bool_decide (t = E).
Proof.
  intros H. destruct t as [|c l n r]; [done|]. destruct s as [h rt].
  apply node_facts in H as (Hn & _). simpl. by rewrite (proj2 (Z.eqb_neq _ _) Hn).
Qed.

Lemma wp_red_opt K t k : triple (Rep F (plug K t)) (k (is_red t)) Q ->
  triple (Rep F (plug K t)) ((if negb (ptr t =? NULL) then rb_is_red (ptr t) else mret false) ≫= k) Q.
Proof.
  intros Hk s Hs. rewrite (ptr_null _ _ _ Hs). revert s Hs.
  destruct t as [|c l n r]; simpl; [done|].
  enough (triple (Rep F (plug K (T c l n r))) (rb_is_red n ≫= k) Q); [done|].
  apply wp_is_red. by destruct c.
Qed.

Lemma wp_null_or_black K t k : triple (Rep F (plug K t)) (k (negb (is_red t))) Q ->
  triple (Rep F (plug K t)) (null_or_black (ptr t) ≫= k) Q.
Proof.
  intros Hk s Hs. unfold null_or_black. rewrite (ptr_null _ _ _ Hs). revert s Hs.
  destruct t as [|c l n r]; simpl; [done|].
  enough (triple (Rep F (plug K (T c l n r))) (rb_is_black n ≫= k) Q); [done|].
  apply wp_is_black. by destruct c.
Qed.

Lemma wp_blacken_opt K t k : triple (Rep F (plug K (blacken t))) (k tt) Q ->
  triple (Rep F (plug K t)) ((if negb (ptr t =? NULL) then rb_set_black (ptr t) else mret tt) ≫= k) Q.
Proof.
  intros Hk s Hs. rewrite (ptr_null _ _ _ Hs). revert s Hs.
  destruct t as [|c l n r]; simpl; [done|].
  enough (triple (Rep F (plug K (T c l n r))) (rb_set_black n ≫= k) Q); [done|].
  by apply wp_set_black.
Qed.

(** The facts every represented tree satisfies. *)
Lemma wp_facts t (m : M A) : (NoDup (inorder t) -> Forall addr_ok (inorder t) -> triple (Rep F t) m Q) ->
  triple (Rep F t) m Q.
Proof. intros H s Hs. by apply H; [apply Hs..|]. Qed.

End Rules.

(** The hole's pointer equals the root pointer only at the root. *)
Lemma plug_root K t : NoDup (inorder (plug K t)) -> Forall addr_ok (inorder (plug K t)) ->
  (ptr t =? ptr (plug K t)) = bool_decide (K = []).
Proof.
  rewrite inorder_plug. intros Hnd Ha.
  destruct K as [|f K]; [apply Z.eqb_refl|]. rewrite bool_decide_eq_false_2 by done.
  apply Z.eqb_neq.
  assert (ptr (plug (f :: K) t) ∈ kbefore (f :: K) ++ kafter (f :: K)) as Hin.
  { clear. revert f t. induction K as [|g K IH]; intros f t.
    - destruct f; simpl; set_solver.
    - change (plug (f :: g :: K) t) with (plug (g :: K) (fill f t)). specialize (IH g (fill f t)).
      destruct f; simpl in *; set_solver. }
  destruct t as [|c l n r].
  - intros H0. rewrite <- H0 in Hin. apply Forall_around in Ha as [HaK _].
    assert (addr_ok NULL) as [_ ?]; [|done]. by eapply Forall_forall.
  - apply NoDup_around in Hnd as (_ & _ & Hd). intros H0.
    apply (Hd n); [simpl; set_solver|]. cbn [ptr] in H0. by rewrite H0.
Qed.

(** [find n in t] calls [tac K c l r] on the context and fields of node [n]. *)
Ltac find_node n t K tac :=
  lazymatch t with
  | T ?c ?l n ?r => tac K c l r
  | T ?c ?l ?m ?r => first [find_node n l (FL c m r :: K) tac | find_node n r (FR c l m :: K) tac]
  end.

Ltac find_sub u t K tac :=
  lazymatch t with
  | u => tac K
  | T ?c ?l ?m ?r => first [find_sub u l (FL c m r :: K) tac | find_sub u r (FR c l m :: K) tac]
  end.

Ltac with_plug tac :=
  lazymatch goal with
  | |- triple (Rep ?F (plug ?K ?t)) _ _ => tac K t
  | |- triple (Rep ?F ?t) _ _ => tac (@nil frame) t
  end.

(** Applies the rule for the next instruction. *)
Ltac rb_step :=
  cbn [plug fill ptr is_red blacken kptr fptr fst snd negb];
  lazymatch goal with
  | |- triple _ ((_ ≫= _) ≫= _) _ => apply wp_assoc
  | |- triple _ (mret _ ≫= _) _ => apply wp_ret_bind
  | |- triple _ (ld_root ≫= _) _ => apply wp_root
  | |- triple _ (ld_left ?n ≫= _) _ =>
      with_plug ltac:(fun K t => find_node n t K ltac:(fun K c l r => apply (wp_left _ _ K c l n r)))
  | |- triple _ (ld_right ?n ≫= _) _ =>
      with_plug ltac:(fun K t => find_node n t K ltac:(fun K c l r => apply (wp_right _ _ K c l n r)))
  | |- triple _ (rb_parent ?n ≫= _) _ =>
      with_plug ltac:(fun K t => find_node n t K ltac:(fun K c l r => apply (wp_parent _ _ K c l n r)))
  | |- triple _ (rb_color ?n ≫= _) _ =>
      with_plug ltac:(fun K t => find_node n t K ltac:(fun K c l r => apply (wp_color _ _ K c l n r)))
  | |- triple _ (rb_is_red ?n ≫= _) _ =>
      with_plug ltac:(fun K t => find_node n t K ltac:(fun K c l r => apply (wp_is_red _ _ K c l n r)))
  | |- triple _ (rb_set_red ?n ≫= _) _ =>
      with_plug ltac:(fun K t => find_node n t K ltac:(fun K c l r => apply (wp_set_red _ _ K c l n r)))
  | |- triple _ (rb_set_black ?n ≫= _) _ =>
      with_plug ltac:(fun K t => find_node n t K ltac:(fun K c l r => apply (wp_set_black _ _ K c l n r)))
  | |- triple _ (rb_set_color ?n (colbit ?c') ≫= _) _ =>
      with_plug ltac:(fun K t => find_node n t K ltac:(fun K c l r => apply (wp_set_color _ _ K c l n r c')))
  | |- triple _ (__rb_rotate_left ?n ≫= _) _ =>
      with_plug ltac:(fun K t => find_node n t K ltac:(fun K c l r =>
        lazymatch r with T ?cr ?b ?m ?d => apply (wp_rotate_left _ _ K c l n cr b m d) end))
  | |- triple _ (__rb_rotate_right ?n ≫= _) _ =>
      with_plug ltac:(fun K t => find_node n t K ltac:(fun K c l r =>
        lazymatch l with T ?cl ?a ?m ?b => apply (wp_rotate_right _ _ K c a m cl b n r) end))
  | |- triple _ ((if negb (?p =? NULL) then rb_is_red _ else _) ≫= _) _ =>
      with_plug ltac:(fun K t =>
        lazymatch p with
        | ptr ?u => find_sub u t K ltac:(fun K => apply (wp_red_opt _ _ K u))
        | ?n => find_node n t K ltac:(fun K c l r => apply (wp_red_opt _ _ K (T c l n r)))
        end)
  | |- triple _ (null_or_black ?p ≫= _) _ =>
      with_plug ltac:(fun K t =>
        lazymatch p with
        | ptr ?u => find_sub u t K ltac:(fun K => apply (wp_null_or_black _ _ K u))
        | NULL => apply wp_ret_bind
        | ?n => find_node n t K ltac:(fun K c l r => apply (wp_null_or_black _ _ K (T c l n r)))
        end)
  | |- triple _ ((if negb (?p =? NULL) then rb_set_black _ else _) ≫= _) _ =>
      with_plug ltac:(fun K t =>
        lazymatch p with
        | ptr ?u => find_sub u t K ltac:(fun K => apply (wp_blacken_opt _ _ K u))
        | NULL => apply wp_ret_bind
        | ?n => find_node n t K ltac:(fun K c l r => apply (wp_blacken_opt _ _ K (T c l n r)))
        end)
  end; cbn [ptr is_red blacken kptr fptr fst snd negb].

Ltac rb := repeat rb_step.

End RbTreeRules.
