(* ===== verification/RbTreeInsert.v ===== *)
(** * Red-black trees: insertion

    The red-black conditions, and the proof that [rb_link_node] followed by
    [rb_insert_color] re-establishes them. *)

From S2P Require Import Prelude RbTree RbTreeRep RbTreeRules.

Module RbTreeInsert.
Import RbTree RbTreeRep RbTreeRules.

(** Every path of [t] has [h] black nodes. *)
Fixpoint bal (t : tree) (h : nat) : Prop :=
  match t with
  | E => h = 0%nat
  | T Red l _ r => bal l h /\ bal r h
  | T Black l _ r => match h with O => False | S h => bal l h /\ bal r h end
  end.

(** No red node has a red child. *)
Fixpoint no_red_red (t : tree) : Prop :=
  match t with
  | E => True
  | T c l _ r => (c = Red -> is_red l = false /\ is_red r = false) /\ no_red_red l /\ no_red_red r
  end.

(** The red-black trees. *)
Definition rbtree (t : tree) : Prop := is_red t = false /\ no_red_red t /\ exists h, bal t h.

(** ** Contexts of red-black trees *)

Definition fcol (f : frame) : color := match f with FL c _ _ | FR c _ _ => c end.
Definition fsib (f : frame) : tree := match f with FL _ _ t | FR _ t _ => t end.

(** The colour above the hole; no node is above a root, and a root is not red. *)
Definition kcol (K : list frame) : color := match K with [] => Red | f :: _ => fcol f end.

Definition grow (c : color) (h : nat) : nat := match c with Red => h | Black => S h end.

(** [K] completes a subtree of black height [h] to a red-black tree. *)
Fixpoint kok (K : list frame) (h : nat) : Prop :=
  match K with
  | [] => True
  | f :: K => bal (fsib f) h /\ no_red_red (fsib f) /\
              (fcol f = Red -> is_red (fsib f) = false /\ kcol K = Black) /\ kok K (grow (fcol f) h)
  end.

Lemma bal_fill f t h : bal (fill f t) (grow (fcol f) h) <-> bal t h /\ bal (fsib f) h.
Proof. destruct f as [[] n r|[] l n]; simpl; tauto. Qed.

Lemma bal_fill_inv f t h : bal (fill f t) h -> exists h', h = grow (fcol f) h' /\ bal t h' /\ bal (fsib f) h'.
Proof.
  destruct f as [[] n r|[] l n]; simpl; intros H.
  - by exists h.
  - destruct h as [|h]; [done|]. by exists h.
  - exists h. tauto.
  - destruct h as [|h]; [done|]. exists h. tauto.
Qed.

Lemma nrr_fill f t : no_red_red (fill f t) <->
  (fcol f = Red -> is_red t = false /\ is_red (fsib f) = false) /\ no_red_red t /\ no_red_red (fsib f).
Proof. destruct f as [c n r|c l n]; simpl; tauto. Qed.

Lemma is_red_fill f t : is_red (fill f t) = bool_decide (fcol f = Red).
Proof. by destruct f as [[] n r|[] l n]. Qed.

Lemma kok_plug K : forall t h, kok K h -> bal t h -> no_red_red t ->
  (is_red t = true -> kcol K = Black) -> rbtree (plug K t).
Proof.
  induction K as [|f K IH]; intros t h Hk Hb Hn Hr; simpl in *.
  - split; [|split; [done|by exists h]]. destruct (is_red t); [|done]. by specialize (Hr eq_refl).
  - destruct Hk as (Hbs & Hns & Hc & Hk). apply (IH _ (grow (fcol f) h)); [done| | |].
    + by apply bal_fill.
    + apply nrr_fill. split; [|done]. intros E. rewrite E in Hr. destruct (Hc E).
      split; [|done]. destruct (is_red t); [|done]. by specialize (Hr eq_refl).
    + rewrite is_red_fill. intros E%bool_decide_eq_true. by apply Hc.
Qed.

Lemma plug_kok K : forall t, rbtree (plug K t) ->
  exists h, kok K h /\ bal t h /\ no_red_red t /\ (is_red t = true -> kcol K = Black).
Proof.
  induction K as [|f K IH]; intros t Hrb; simpl in *.
  - destruct Hrb as (Hr & Hn & h & Hb). exists h. by rewrite Hr.
  - destruct (IH _ Hrb) as (h & Hk & Hb & Hn & Hr). rewrite is_red_fill in Hr.
    apply bal_fill_inv in Hb as (h' & -> & Hb & Hbs). apply nrr_fill in Hn as (Hc & Hn & Hns).
    exists h'. split; [split; [done|]; split; [done|]; split; [|done]|split; [done|]; split; [done|]].
    + intros Ef. split; [by apply Hc|]. apply Hr. by apply bool_decide_eq_true.
    + intros Et. destruct (fcol f) eqn:Ef; [|done]. destruct (Hc eq_refl). congruence.
Qed.

Lemma rbtree_blacken t : rbtree t -> blacken t = t.
Proof. intros (Hr & _). by destruct t as [|[] l n r]. Qed.

(** ** The number of nodes bounds the fuel *)

Lemma kpath_length K t : (length K <= length (inorder (plug K t)))%nat.
Proof.
  rewrite inorder_plug, !length_app. assert (length K <= length (kbefore K) + length (kafter K))%nat; [|lia].
  induction K as [|[c n r|c l n] K IH]; simpl; rewrite ?length_app; simpl; lia.
Qed.

Lemma rep_dom h t : forall par, rep h par t -> forall a, a ∈ inorder t -> a ∈ dom h.
Proof.
  induction t as [|c l IHl n r IHr]; intros par; simpl; [set_solver|]. intros (Hn & Hl & Hr) a.
  rewrite elem_of_app, elem_of_cons. intros [Ha|[->|Ha]]; [by eapply IHl|by eapply elem_of_dom_2|by eapply IHr].
Qed.

Lemma Rep_size F t s : Rep F t s -> (length (inorder t) <= size (heap s))%nat.
Proof.
  intros [Hnd _ Ht _ _]. rewrite <- (size_list_to_set (C := gset Z)) by done. rewrite <- size_dom.
  apply subseteq_size. intros a Ha. rewrite elem_of_list_to_set in Ha. by eapply rep_dom.
Qed.

(** ** The loop of [rb_insert_color] *)

Section Loop.
Context (F : gmap Z rb_node).

(** What the loop leaves: blackening the root gives the red-black tree. *)
Definition inserted (t0 : tree) (_ : unit) (s : rb_state) : Prop :=
  exists t, Rep F t s /\ t <> E /\ rbtree (blacken t) /\ inorder t = inorder t0.

Lemma plug_nonempty K t : t <> E -> plug K t <> E.
Proof. revert t. induction K as [|[] K IH]; intros t Ht; simpl; [done| |]; by apply IH. Qed.

(** The loop stops below a black parent, and at the root. *)
Lemma loop_done fuel K l n r h t0 :
  kok K h -> bal (T Red l n r) h -> no_red_red (T Red l n r) -> (K = [] \/ kcol K = Black) ->
  inorder (plug K (T Red l n r)) = inorder t0 ->
  triple (Rep F (plug K (T Red l n r))) (insert_color_loop (S fuel) n) (inserted t0).
Proof.
  intros Hk Hb Hn HK Hin. simpl. rb_step.
  destruct K as [|f K]; cbn [kptr].
  - simpl. rb. apply wp_ret. intros s Hs. exists (T Red l n r). split; [done|]. split; [done|].
    split; [|done]. split; [done|]. split; [split; [done|apply Hn]|exists (S h); apply Hb].
  - destruct HK as [|HK]; [done|]. simpl in HK.
    pose proof (kok_plug (f :: K) (T Red l n r) h Hk Hb Hn (fun _ => HK)) as Hrb.
    destruct f as [c m r'|c l' m]; simpl in HK, Hrb; subst c; rb;
      apply wp_ret; intros s Hs; (eexists; split; [exact Hs|]);
      (split; [by apply plug_nonempty|]); (split; [|done]); by rewrite rbtree_blacken.
Qed.

Lemma ptr_eqb t a : a ∉ inorder t -> a <> NULL -> (ptr t =? a) = false.
Proof. intros H1 H2. apply Z.eqb_neq. pose proof (ptr_not t a H1 H2). done. Qed.

Lemma ptr_eqb' t a : a ∉ inorder t -> a <> NULL -> (a =? ptr t) = false.
Proof. intros H1 H2. rewrite Z.eqb_sym. by apply ptr_eqb. Qed.

(** Siblings have different addresses. *)
Lemma sib_ne K t l r : inorder t = l ++ r ->
  NoDup (inorder (plug K t)) -> Forall addr_ok (inorder (plug K t)) ->
  forall a, (a ∈ l -> a ∉ r) /\ (a ∈ l ++ r -> a <> NULL).
Proof.
  intros Ht. rewrite inorder_plug, Ht. intros (_ & Hnd & _)%NoDup_around (_ & Ha)%Forall_around a. split.
  - apply NoDup_app in Hnd as (_ & Hd & _). apply Hd.
  - intros Hin. assert (addr_ok a) as [_ ?] by by eapply Forall_forall. done.
Qed.

Lemma sib_right K c cl a n b p s : NoDup (inorder (plug K (T c (T cl a n b) p s))) ->
  Forall addr_ok (inorder (plug K (T c (T cl a n b) p s))) ->
  (ptr s =? n) = false /\ (n =? ptr s) = false.
Proof.
  intros Hnd Ha. destruct (sib_ne K (T c (T cl a n b) p s) (inorder (T cl a n b)) (p :: inorder s) eq_refl Hnd Ha n) as [H1 H2].
  simpl in *. assert (n ∈ inorder a ++ n :: inorder b) by set_solver.
  assert (n ∉ inorder s) by set_solver. assert (n <> NULL) by (apply H2; set_solver).
  split; [by apply ptr_eqb|by apply ptr_eqb'].
Qed.

Lemma sib_left K c s p cl a n b : NoDup (inorder (plug K (T c s p (T cl a n b)))) ->
  Forall addr_ok (inorder (plug K (T c s p (T cl a n b)))) ->
  (ptr s =? n) = false /\ (n =? ptr s) = false.
Proof.
  intros Hnd Ha.
  assert (forall x, (x ∈ inorder s -> x ∉ p :: inorder (T cl a n b)) /\
    (x ∈ inorder s ++ p :: inorder (T cl a n b) -> x <> NULL)) as H.
  { intros x. by apply (sib_ne K (T c s p (T cl a n b))). }
  assert (n ∉ inorder s) by (intros Hs; apply (proj1 (H n) Hs); simpl; set_solver).
  assert (n <> NULL) by (apply (proj2 (H n)); simpl; set_solver).
  split; [by apply ptr_eqb|by apply ptr_eqb'].
Qed.

Lemma red_case u : is_red u = true -> exists l n r, u = T Red l n r.
Proof. destruct u as [|[] l n r]; [done| |done]. eauto. Qed.

(** Closes the red-black side conditions of an iteration. *)
Ltac rb_side Hin := first
  [ lia | done
  | rewrite <- Hin; cbn [plug fill]; rewrite !inorder_plug; repeat (progress simpl || rewrite <- app_assoc); done
  | simpl in *; naive_solver ].

Lemma insert_loop fuel : forall K l n r h t0, (length K < fuel)%nat ->
  kok K h -> bal (T Red l n r) h -> no_red_red (T Red l n r) ->
  inorder (plug K (T Red l n r)) = inorder t0 ->
  triple (Rep F (plug K (T Red l n r))) (insert_color_loop fuel n) (inserted t0).
Proof.
  induction fuel as [|fuel IH]; intros K l n r h t0 Hf Hk Hb Hn Hin; [lia|].
  destruct K as [|f K]; [by apply (loop_done fuel [] l n r h); auto|].
  destruct (fcol f) eqn:Ef; [|by apply (loop_done fuel (f :: K) l n r h); auto].
  simpl in Hk. rewrite Ef in Hk. destruct Hk as (Hbs & Hns & Hc & Hk). destruct (Hc eq_refl) as [Hrs HK].
  destruct K as [|g K]; [done|]. simpl in HK, Hk. rewrite HK in Hk. simpl in Hk. clear Hc.
  destruct Hk as (Hbu & Hnu & _ & Hk). simpl in Hf.
  destruct f as [c p s|c s p]; simpl in Ef; subst c;
    (destruct g as [c g u|c u g]; simpl in HK; subst c); simpl in Hbs, Hns, Hrs, Hbu, Hnu;
    cbn [plug fill insert_color_loop].
  - apply wp_facts. intros Hnd Ha. destruct (sib_right (FL Black g u :: K) Red Red l n r p s Hnd Ha) as [E1 _].
    rb. rewrite Z.eqb_refl. rb. destruct (is_red u) eqn:Eu.
    + destruct (red_case u Eu) as (ul & un & ur & ->). rb. apply (IH K _ g _ (S h)); rb_side Hin.
    + rb. rewrite E1. rb. destruct fuel as [|fuel']; [lia|].
      apply (loop_done fuel' (FL Black p (T Red s g u) :: K) l n r h); rb_side Hin.
  - apply wp_facts. intros Hnd Ha. destruct (sib_left K Black u g Red (T Red l n r) p s Hnd Ha) as [_ E1].
    rb. rewrite E1. rb. destruct (is_red u) eqn:Eu.
    + destruct (red_case u Eu) as (ul & un & ur & ->). rb. apply (IH K _ g _ (S h)); rb_side Hin.
    + rb. rewrite Z.eqb_refl. rb. destruct fuel as [|fuel']; [lia|].
      apply (loop_done fuel' (FR Black (T Red u g l) n :: K) r p s h); rb_side Hin.
  - rb. rewrite Z.eqb_refl. rb. destruct (is_red u) eqn:Eu.
    + destruct (red_case u Eu) as (ul & un & ur & ->). rb. apply (IH K _ g _ (S h)); rb_side Hin.
    + rb. rewrite Z.eqb_refl. rb. destruct fuel as [|fuel']; [lia|].
      apply (loop_done fuel' (FL Black n (T Red r g u) :: K) s p l h); rb_side Hin.
  - apply wp_facts. intros Hnd Ha. destruct (sib_left K Black u g Red s p (T Red l n r) Hnd Ha) as [_ E1].
    destruct (sib_left (FR Black u g :: K) Red s p Red l n r Hnd Ha) as [E2 _].
    rb. rewrite E1. rb. destruct (is_red u) eqn:Eu.
    + destruct (red_case u Eu) as (ul & un & ur & ->). rb. apply (IH K _ g _ (S h)); rb_side Hin.
    + rb. rewrite E2. rb. destruct fuel as [|fuel']; [lia|].
      apply (loop_done fuel' (FR Black (T Red u g s) p :: K) l n r h); rb_side Hin.
Qed.


(** ** [rb_insert_color] and [rb_link_node] *)

Lemma insert_color_spec K l n r h :
  kok K h -> bal (T Red l n r) h -> no_red_red (T Red l n r) ->
  triple (Rep F (plug K (T Red l n r))) (rb_insert_color n)
    (fun _ s => exists t, Rep F t s /\ rbtree t /\ inorder t = inorder (plug K (T Red l n r))).
Proof.
  intros Hk Hb Hn s Hs. unfold rb_insert_color. unfold st_get. unfold mbind at 1, ST_bind at 1.
  revert s Hs.
  enough (forall fuel, (length K < fuel)%nat ->
    triple (Rep F (plug K (T Red l n r)))
      (insert_color_loop fuel n ;; r ← ld_root; rb_set_black r)
      (fun _ s => exists t, Rep F t s /\ rbtree t /\ inorder t = inorder (plug K (T Red l n r)))) as H.
  { intros s Hs. apply (H (heap_fuel s)); [|done]. unfold heap_fuel.
    pose proof (kpath_length K (T Red l n r)). pose proof (Rep_size _ _ _ Hs). lia. }
  intros fuel Hf. eapply triple_bind; [by eapply (insert_loop fuel K l n r h)|].
  intros _ s (t & Ht & HE & Hrb & Hin). destruct t as [|c tl tn tr]; [done|].
  revert s Ht. change (triple (Rep F (T c tl tn tr)) (r ← ld_root; rb_set_black r)
      (fun _ s => exists t, Rep F t s /\ rbtree t /\ inorder t = inorder (plug K (T Red l n r)))).
  rb_step. apply wp_tail, (wp_set_black F _ []). apply wp_ret. intros s Hs.
  exists (T Black tl tn tr). done.
Qed.

(** The link the caller passes for the hole of [K]. *)
Definition klink (K : list frame) : rb_linkp :=
  match K with [] => LinkRoot | FL _ _ _ :: _ => LinkLeft | FR _ _ _ :: _ => LinkRight end.

Lemma klink_stlink K n :
  match klink K with
  | LinkRoot => st_root n | LinkLeft => st_left (kptr K) n | LinkRight => st_right (kptr K) n
  end = stlink K n.
Proof. by destruct K as [|[] K]. Qed.

Lemma link_spec K n s : Rep F (plug K E) s -> addr_ok n -> n ∉ inorder (plug K E) ->
  is_Some (F !! n) ->
  exists s', rb_link_node n (kptr K) (klink K) s = Some (tt, s') /\ Rep F (plug K (T Red E n E)) s'.
Proof.
  rewrite !Rep_Foc. setoid_rewrite Rep_Foc. rewrite inorder_plug. simpl.
  intros [Hnd Ha _ Hk Hf] [Hw Hn] Hnin [v Hv]. destruct s as [h rt]. simpl in *.
  assert (h !! n = Some v) as Hhn by by rewrite Hf.
  assert (NoDup (kbefore K ++ n :: kafter K)) as Hnd'.
  { rewrite <- Permutation_middle. by constructor. }
  assert (Forall addr_ok (kbefore K ++ n :: kafter K)) as Ha'.
  { rewrite <- Permutation_middle. by constructor. }
  unfold rb_link_node, st_pc, st_right, st_left, mbind, ST_bind.
  rewrite (ld_run h rt n v Hn Hhn). simpl. rewrite (sto_run h rt n v _ Hn Hhn).
  rewrite (ld_run _ rt n _ Hn (lookup_insert_eq _ _ _)). simpl.
  rewrite (sto_run _ rt n _ _ Hn (lookup_insert_eq _ _ _)), insert_insert_eq.
  rewrite (ld_run _ rt n _ Hn (lookup_insert_eq _ _ _)). simpl.
  rewrite (sto_run _ rt n _ _ Hn (lookup_insert_eq _ _ _)), insert_insert_eq.
  assert (mk_rb_node (kptr K) NULL NULL = enc (kptr K) Red NULL NULL) as -> by
    (unfold enc; simpl; by rewrite Z.lor_0_r).
  set (h1 := <[n := _]> h).
  assert (repk h1 rt K NULL) as Hk1 by by apply repk_insert.
  destruct (stlink_spec h1 rt K NULL n Hnd Ha Hk1) as (h2 & rt2 & E2 & Hk2 & HE2 & Hs2').
  pose proof (relink_same _ _ _ HE2 Hs2') as Hs2. rewrite klink_stlink.
  eexists. split; [exact E2|]. split; simpl; [done|done| |done|].
  - split; [|done]. rewrite Hs2 by (intros ?%at_kptr_elem; done). apply lookup_insert_eq.
  - intros x Hx. rewrite Hs2 by (intros ?%at_kptr_elem; set_solver).
    unfold h1. rewrite lookup_insert_ne by set_solver. apply Hf. set_solver.
Qed.

End Loop.

(** C11: inserting a fresh node at any empty position [K] of a red-black tree,
    with [rb_link_node] and [rb_insert_color], terminates without a bad
    access; the heap then holds a red-black tree whose in-order sequence is
    the old one with the node at that position, and no node outside the tree
    is touched. *)
Theorem rb_insert_correct F K n s :
  Rep F (plug K E) s -> rbtree (plug K E) -> addr_ok n -> n ∉ inorder (plug K E) -> is_Some (F !! n) ->
  exists s' t, (rb_link_node n (kptr K) (klink K) ;; rb_insert_color n) s = Some (tt, s') /\
    Rep F t s' /\ rbtree t /\ inorder t = kbefore K ++ n :: kafter K.
Proof.
  intros Hs Hrb Hn Hnin HF. destruct (plug_kok K E Hrb) as (h & Hk & Hb & _ & _).
  destruct (link_spec F K n s Hs Hn Hnin HF) as (s1 & E1 & Hs1).
  destruct (insert_color_spec F K E n E h Hk ltac:(done) ltac:(done) s1 Hs1) as (u & s2 & E2 & t & Ht & Hrt & Hi).
  destruct u. exists s2, t. unfold mbind, ST_bind. rewrite E1, E2. rewrite inorder_plug in Hi. done.
Qed.

(** Inserting 12 to the right of 8 in the tree [4 - 8], which needs the outer
    rotation. *)
Lemma rb_insert_correct_witness :
  let F := <[12 := mk_rb_node 0 0 0]> ∅ in
  let s := mk_rb_state (<[4 := mk_rb_node 1 8 0]> (<[8 := mk_rb_node 4 0 0]> F)) 4 in
  let K := [FR Red E 8; FR Black E 4] in
  exists s' t, (rb_link_node 12 (kptr K) (klink K) ;; rb_insert_color 12) s = Some (tt, s') /\
    Rep F t s' /\ rbtree t /\ inorder t = kbefore K ++ 12 :: kafter K.
Proof.
  apply (rb_insert_correct (<[12 := mk_rb_node 0 0 0]> ∅) [FR Red E 8; FR Black E 4] 12).
  - split; simpl.
    + repeat constructor; set_solver.
    + repeat constructor; done.
    + done.
    + done.
    + intros a Ha. rewrite !lookup_insert_ne by set_solver. done.
  - split; [done|]. split; [simpl; naive_solver|]. by exists 1%nat.
  - done.
  - simpl. set_solver.
  - by eexists.
Defined.

End RbTreeInsert.
