(* ===== verification/RbTreeErase.v ===== *)
(** * Red-black trees: deletion

    [__rb_erase_color] repairs a tree in which one subtree is one black node
    short; [rb_erase] removes a node and calls it. *)

From S2P Require Import Prelude RbTree RbTreeRep RbTreeRules RbTreeInsert.

Module RbTreeErase.
Import RbTree RbTreeRep RbTreeRules RbTreeInsert.

Section Loop.
Context (F : gmap Z rb_node).

(** The loop with the final blackening, as [__rb_erase_color] runs it. *)
Definition erase_run (fuel : nat) (node parent : Z) : M unit :=
  node ← erase_color_loop fuel node parent;
  if negb (node =? NULL) then rb_set_black node else mret tt.

Definition repaired (t0 : tree) (_ : unit) (s : rb_state) : Prop :=
  exists t, Rep F t s /\ rbtree t /\ inorder t = inorder t0.

(** [x] is one black node short of [S h], or red and complete once black. *)
Definition short (x : tree) (h : nat) : Prop :=
  no_red_red (blacken x) /\ if is_red x then bal (blacken x) (S h) else bal x h.

Lemma rbtree_done (t t0 : tree) : rbtree t -> inorder t = inorder t0 ->
  triple (Rep F t) (mret tt) (repaired t0).
Proof. intros Hrb Hin. apply wp_ret. intros s Hs. by exists t. Qed.

(** Blackening the root of a red-black tree changes nothing. *)
Lemma blacken_root t t0 : rbtree t -> inorder t = inorder t0 ->
  triple (Rep F t) (if negb (ptr t =? NULL) then rb_set_black (ptr t) else mret tt) (repaired t0).
Proof.
  intros Hrb Hin. apply wp_tail, (wp_blacken_opt F _ []). cbn [plug].
  rewrite rbtree_blacken by done. by apply rbtree_done.
Qed.

Lemma erase_exit fuel K x h t0 : kok K (S h) -> short x h -> is_red x = true \/ K = [] ->
  inorder (plug K x) = inorder t0 ->
  triple (Rep F (plug K x)) (erase_run (S fuel) (ptr x) (kptr K)) (repaired t0).
Proof.
  intros Hk [Hn Hb] Hex Hin. unfold erase_run. cbn [erase_color_loop].
  apply wp_facts. intros Hnd Ha. apply wp_assoc, (wp_null_or_black F _ K x), wp_assoc, wp_root.
  rewrite (plug_root K x Hnd Ha).
  assert (negb (negb (is_red x) && negb (bool_decide (K = []))) = true) as ->.
  { destruct Hex as [-> | ->]; [done|]. by rewrite andb_false_r. }
  rb_step. apply wp_tail, (wp_blacken_opt F _ K x). apply rbtree_done.
  - destruct (is_red x) eqn:Ex.
    + apply (kok_plug K _ (S h)); try done. destruct x as [|[]]; done.
    + destruct Hex as [|HK]; [done|]. subst K. simpl. split; [by destruct x as [|[]]|]. split; [done|].
      exists h. destruct x as [|[]]; done.
  - by rewrite <- Hin, !inorder_plug, inorder_blacken.
Qed.

Lemma nrr_black l n r : no_red_red (T Black l n r) <-> no_red_red l /\ no_red_red r.
Proof. simpl. intuition congruence. Qed.

Lemma nrr_red l n r : no_red_red (T Red l n r) <->
  (is_red l = false /\ is_red r = false) /\ no_red_red l /\ no_red_red r.
Proof. simpl. intuition congruence. Qed.

Ltac side Hin := first
  [ lia | done
  | rewrite <- Hin; cbn [plug fill]; rewrite !inorder_plug; repeat (progress simpl || rewrite <- app_assoc);
    done
  | rewrite ?nrr_black, ?nrr_red in *; simpl in *; tauto ].

(** The two halves of an iteration after the sibling [other] is known to be
    black, as they stand in the loop. *)
Definition rest_left (fuel : nat) (parent other : Z) : M Z :=
  ol ← ld_left other; olb ← null_or_black ol;
  orb ← (if (olb : bool) then or ← ld_right other; null_or_black or else mret false);
  if (orb : bool) then
    rb_set_red other ;; parent' ← rb_parent parent; erase_color_loop fuel parent parent'
  else
    or ← ld_right other; orb ← null_or_black or;
    other ← (if (orb : bool) then
               o_left ← ld_left other;
               (if negb (o_left =? NULL) then rb_set_black o_left else mret tt) ;;
               rb_set_red other ;; __rb_rotate_right other ;; ld_right parent
             else mret other);
    pc ← rb_color parent;
    rb_set_color other pc ;; rb_set_black parent ;;
    or ← ld_right other;
    (if negb (or =? NULL) then rb_set_black or else mret tt) ;;
    __rb_rotate_left parent ;; ld_root.

Definition rest_right (fuel : nat) (parent other : Z) : M Z :=
  ol ← ld_left other; olb ← null_or_black ol;
  orb ← (if (olb : bool) then or ← ld_right other; null_or_black or else mret false);
  if (orb : bool) then
    rb_set_red other ;; parent' ← rb_parent parent; erase_color_loop fuel parent parent'
  else
    ol ← ld_left other; olb ← null_or_black ol;
    other ← (if (olb : bool) then
               o_right ← ld_right other;
               (if negb (o_right =? NULL) then rb_set_black o_right else mret tt) ;;
               rb_set_red other ;; __rb_rotate_left other ;; ld_left parent
             else mret other);
    pc ← rb_color parent;
    rb_set_color other pc ;; rb_set_black parent ;;
    ol ← ld_left other;
    (if negb (ol =? NULL) then rb_set_black ol else mret tt) ;;
    __rb_rotate_right parent ;; ld_root.

Definition fin (node : Z) : M unit := if negb (node =? NULL) then rb_set_black node else mret tt.

Section Rest.
Context (fuel : nat) (t0 : tree).
Hypothesis IH : forall K x h, (S (length K) < fuel)%nat -> kok K (S h) -> short x h ->
  inorder (plug K x) = inorder t0 ->
  triple (Rep F (plug K x)) (erase_run fuel (ptr x) (kptr K)) (repaired t0).

(** The sibling turns red: the deficit moves to the parent. *)
Lemma pass_up K c x p o h : (S (length K) < fuel)%nat \/ c = Red /\ (0 < fuel)%nat ->
  kok K (grow c (S h)) -> no_red_red (T Black x p o) -> bal x h -> bal o h ->
  inorder (plug K (T c x p o)) = inorder t0 ->
  triple (Rep F (plug K (T c x p o))) (erase_run fuel p (kptr K)) (repaired t0).
Proof using IH.
  intros Hf Hk Hn Hbx Hbo Hin. destruct c.
  - assert (exists f', fuel = S f') as [f' ->] by (destruct fuel as [|f']; [lia|by exists f']).
    apply (erase_exit f' K (T Red x p o) h); [done|by split|by left|done].
  - destruct Hf as [Hf|[? _]]; [|done]. by apply (IH K (T Black x p o) (S h)).
Qed.


(** The end of a repair: both subtrees are black and complete. *)
Lemma final_ok K c l m r h : kok K (grow c (S h)) -> (c = Red -> kcol K = Black) ->
  bal l (S h) /\ bal r (S h) -> no_red_red l /\ no_red_red r -> is_red l = false /\ is_red r = false ->
  inorder (plug K (T c l m r)) = inorder t0 ->
  triple (Rep F (plug K (T c l m r))) (fin (ptr (plug K (T c l m r)))) (repaired t0).
Proof.
  intros Hk Hc Hb Hn Hr Hin. apply blacken_root; [|done].
  apply (kok_plug K _ (grow c (S h))); [done| | |]; destruct c; simpl; (done || tauto).
Qed.

Lemma rest_left_spec K c x p ol o or h : (S (length K) < fuel)%nat \/ c = Red /\ (0 < fuel)%nat ->
  kok (FL c p (T Black ol o or) :: K) (S h) -> bal x h -> no_red_red x ->
  inorder (plug K (T c x p (T Black ol o or))) = inorder t0 ->
  triple (Rep F (plug K (T c x p (T Black ol o or)))) (rest_left fuel p o ≫= fin) (repaired t0).
Proof using IH.
  intros Hf (Hbo & Hno & Hc & Hk) Hbx Hnx Hin. unfold rest_left. cbn [fsib fcol] in *. rb.
  destruct (is_red or) eqn:Er; [|destruct (is_red ol) eqn:El]; cbn [negb].
  - destruct (red_case or Er) as (a & n & b & ->). destruct (is_red ol); cbn [negb]; rb.
    + apply (final_ok _ _ _ _ _ h); side Hin.
    + apply (final_ok _ _ _ _ _ h); side Hin.
  - destruct (red_case ol El) as (a & n & b & ->). rb. rewrite Er. cbn [negb]. rb.
    apply (final_ok _ _ _ _ _ h); side Hin.
  - rb. rewrite Er; cbn [negb]. rb. apply (pass_up _ _ _ _ _ h); side Hin.
Qed.

Lemma rest_right_spec K c x p ol o or h : (S (length K) < fuel)%nat \/ c = Red /\ (0 < fuel)%nat ->
  kok (FR c (T Black ol o or) p :: K) (S h) -> bal x h -> no_red_red x ->
  inorder (plug K (T c (T Black ol o or) p x)) = inorder t0 ->
  triple (Rep F (plug K (T c (T Black ol o or) p x))) (rest_right fuel p o ≫= fin) (repaired t0).
Proof using IH.
  intros Hf (Hbo & Hno & Hc & Hk) Hbx Hnx Hin. unfold rest_right. cbn [fsib fcol] in *. rb.
  destruct (is_red ol) eqn:El; cbn [negb]; rb; [|destruct (is_red or) eqn:Er; cbn [negb]; rb].
  - rewrite El. cbn [negb]. rb. destruct (red_case ol El) as (a & n & b & ->). rb.
    apply (final_ok _ _ _ _ _ h); side Hin.
  - rewrite El. cbn [negb]. rb. destruct (red_case or Er) as (a & n & b & ->). rb.
    apply (final_ok _ _ _ _ _ h); side Hin.
  - apply (pass_up _ _ _ _ _ h); side Hin.
Qed.
End Rest.

(** One iteration on a left child that is not red. *)
Lemma iter_left fuel t0 K c p o x h :
  (forall K x h, (S (length K) < fuel)%nat -> kok K (S h) -> short x h ->
    inorder (plug K x) = inorder t0 ->
    triple (Rep F (plug K x)) (erase_run fuel (ptr x) (kptr K)) (repaired t0)) ->
  (S (length K) < fuel)%nat -> kok (FL c p o :: K) (S h) -> bal x h -> no_red_red x -> is_red x = false ->
  inorder (plug K (T c x p o)) = inorder t0 ->
  triple (Rep F (plug (FL c p o :: K) x)) (erase_run (S fuel) (ptr x) p) (repaired t0).
Proof.
  intros IH Hf Hk Hbx Hnx Hx Hin. unfold erase_run. cbn [erase_color_loop].
  apply wp_facts. intros Hnd Ha. apply wp_assoc, (wp_null_or_black F _ (FL c p o :: K) x), wp_assoc, wp_root.
  rewrite (plug_root _ x Hnd Ha), Hx, bool_decide_eq_false_2 by done. cbn [negb andb].
  destruct o as [|co ol o or]; [by destruct Hk|].
  do 2 rb_step. rewrite Z.eqb_refl. do 4 rb_step. destruct co.
  - destruct Hk as (Hbo & Hno & Hc & Hk). cbn [fsib fcol] in *.
    destruct c; [by destruct (Hc eq_refl)|]. destruct ol as [|[] oll ol olr]; [by destruct Hbo| |].
    { rewrite nrr_red in Hno. by destruct Hno as [[] _]. }
    rewrite bool_decide_eq_true_2 by done. do 8 rb_step.
    apply (rest_left_spec fuel t0 IH (FL Black o or :: K) Red x p oll ol olr h);
      [right; split; [done|lia]|side Hin..].
  - rewrite bool_decide_eq_false_2 by done. do 2 rb_step.
    by apply (rest_left_spec fuel t0 IH K c x p ol o or h); [left| | | |].
Qed.
(** A non-empty sibling has another address. *)
Lemma sib_ptr K c co a o b p x : NoDup (inorder (plug K (T c (T co a o b) p x))) ->
  Forall addr_ok (inorder (plug K (T c (T co a o b) p x))) -> (o =? ptr x) = false.
Proof. intros Hnd Ha. by apply (sib_right K c co a o b p x). Qed.

Lemma iter_right fuel t0 K c o p x h :
  (forall K x h, (S (length K) < fuel)%nat -> kok K (S h) -> short x h ->
    inorder (plug K x) = inorder t0 ->
    triple (Rep F (plug K x)) (erase_run fuel (ptr x) (kptr K)) (repaired t0)) ->
  (S (length K) < fuel)%nat -> kok (FR c o p :: K) (S h) -> bal x h -> no_red_red x -> is_red x = false ->
  inorder (plug K (T c o p x)) = inorder t0 ->
  triple (Rep F (plug (FR c o p :: K) x)) (erase_run (S fuel) (ptr x) p) (repaired t0).
Proof.
  intros IH Hf Hk Hbx Hnx Hx Hin. unfold erase_run. cbn [erase_color_loop].
  apply wp_facts. intros Hnd Ha. apply wp_assoc, (wp_null_or_black F _ (FR c o p :: K) x), wp_assoc, wp_root.
  rewrite (plug_root _ x Hnd Ha), Hx, bool_decide_eq_false_2 by done. cbn [negb andb].
  destruct o as [|co ol o or]; [by destruct Hk|].
  do 2 rb_step. rewrite (sib_ptr _ _ _ _ _ _ _ _ Hnd Ha). do 4 rb_step. destruct co.
  - rewrite bool_decide_eq_true_2 by done. destruct Hk as (Hbo & Hno & Hc & Hk). cbn [fsib fcol] in *.
    destruct c; [by destruct (Hc eq_refl)|]. destruct or as [|[] orl or orr]; [by destruct Hbo| |].
    { rewrite nrr_red in Hno. by destruct Hno as [[] _]. }
    do 8 rb_step.
    apply (rest_right_spec fuel t0 IH (FR Black ol o :: K) Red x p orl or orr h);
      [right; split; [done|lia]|side Hin..].
  - rewrite bool_decide_eq_false_2 by done. do 2 rb_step.
    by apply (rest_right_spec fuel t0 IH K c x p ol o or h); [left| | | |].
Qed.

Lemma erase_loop t0 fuel : forall K x h, (S (length K) < fuel)%nat -> kok K (S h) -> short x h ->
  inorder (plug K x) = inorder t0 ->
  triple (Rep F (plug K x)) (erase_run fuel (ptr x) (kptr K)) (repaired t0).
Proof.
  induction fuel as [|fuel IH]; intros K x h Hf Hk Hx Hin; [lia|].
  destruct (is_red x) eqn:Ex; [by apply (erase_exit fuel K x h); auto|].
  destruct K as [|f K]; [by apply (erase_exit fuel [] x h); auto|].
  destruct Hx as [Hn Hb]. rewrite Ex in Hb.
  assert (no_red_red x) by (destruct x as [|[]]; done). simpl in Hf.
  destruct f as [c p o|c o p]; [apply (iter_left fuel t0 K c p o x h)|apply (iter_right fuel t0 K c o p x h)];
    (done || lia).
Qed.

Lemma erase_color_spec K x h : kok K (S h) -> short x h ->
  triple (Rep F (plug K x)) (__rb_erase_color (ptr x) (kptr K)) (repaired (plug K x)).
Proof.
  intros Hk Hx s Hs. unfold __rb_erase_color. unfold mbind at 1, ST_bind at 1, st_get.
  fold (erase_run (heap_fuel s) (ptr x) (kptr K)).
  apply (erase_loop (plug K x) (heap_fuel s) K x h); [|done..].
  unfold heap_fuel. pose proof (kpath_length K x). pose proof (Rep_size _ _ _ Hs). lia.
Qed.

(** ** Walking down *)

Definition all_left (K : list frame) : Prop := Forall (fun f => exists c n r, f = FL c n r) K.

Lemma plug_app K1 K2 t : plug (K1 ++ K2) t = plug K2 (plug K1 t).
Proof. revert t. induction K1 as [|f K1 IH]; intros t; simpl; [done|apply IH]. Qed.

Lemma kbefore_left K : all_left K -> kbefore K = [].
Proof. induction 1 as [|f K (c & n & r & ->)]; done. Qed.

Lemma wp_leftmost {A} (Q : A -> rb_state -> Prop) k u : forall K r fuel,
  r <> E -> u = plug K r -> (length (inorder r) < fuel)%nat ->
  (forall K' c y x, r = plug K' (T c E y x) -> all_left K' -> triple (Rep F u) (k y) Q) ->
  triple (Rep F u) (leftmost fuel (ptr r) ≫= k) Q.
Proof.
  intros K r. revert K. induction r as [|c l IH n r _]; intros K fuel Hr Hu Hf Hk; [done|].
  destruct fuel as [|fuel]; [lia|]. cbn [leftmost ptr]. subst u. rb_step.
  apply (wp_left _ _ K c l n r).
  intros s Hs. rewrite (ptr_null F (FL c n r :: K) l s Hs). revert s Hs.
  destruct l as [|cl ll ln lr]; [by apply (Hk [] c n r); [|constructor]|].
  change (triple (Rep F (plug K (T c (T cl ll ln lr) n r)))
            (leftmost fuel (ptr (T cl ll ln lr)) ≫= k) Q).
  apply (IH (FL c n r :: K)); [done|done| |].
  - cbn [inorder] in Hf |- *. rewrite length_app in Hf. simpl in Hf |- *. lia.
  - intros K' c' y x Hl HK'. apply (Hk (K' ++ [FL c n r]) c' y x).
    + rewrite plug_app. simpl. by rewrite <- Hl.
    + apply Forall_app. split; [done|]. repeat constructor. by exists c, n, r.
Qed.

End Loop.

End RbTreeErase.
