(* ===== verification/RbTreeOps.v ===== *)
(** * Red-black trees: removal, replacement and traversal

    [rb_erase], [rb_replace_node], [rb_first], [rb_last], [rb_next] and
    [rb_prev] on represented trees. *)

From S2P Require Import Prelude RbTree RbTreeRep RbTreeRules RbTreeInsert RbTreeErase.

Module RbTreeOps.
Import RbTree RbTreeRep RbTreeRules RbTreeInsert RbTreeErase.

(** ** Unlinking a node with at most one child *)

Lemma only_child c l n r x : l = E /\ x = r \/ r = E /\ x = l ->
  inorder (T c l n r) ≡ₚ n :: inorder x.
Proof. intros [[-> ->]|[-> ->]]; simpl; [done|]. by rewrite Permutation_app_comm. Qed.

Lemma around_perm (l1 l2 l2' l3 : list Z) : l2 ≡ₚ l2' -> l1 ++ l2 ++ l3 ≡ₚ l1 ++ l2' ++ l3.
Proof. by intros ->. Qed.

Lemma unlink_run F K c l n r x h rt : Foc F K (T c l n r) (mk_rb_state h rt) ->
  l = E /\ x = r \/ r = E /\ x = l ->
  exists h1 h2 rt2, set_parent_opt (ptr x) (kptr K) (mk_rb_state h rt) = Some (tt, mk_rb_state h1 rt) /\
    relink_l (kptr K) n (ptr x) (mk_rb_state h1 rt) = Some (tt, mk_rb_state h2 rt2) /\
    stlink K (ptr x) (mk_rb_state h1 rt) = Some (tt, mk_rb_state h2 rt2) /\
    Foc (<[n := enc (kptr K) c (ptr l) (ptr r)]> F) K x (mk_rb_state h2 rt2).
Proof.
  intros [Hnd Ha Ht Hk Hf] Hx. simpl in Ht, Hk, Hf.
  pose proof (around_perm (kbefore K) _ _ (kafter K) (only_child c l n r x Hx)) as Hp.
  rewrite Hp in Hnd, Ha. pose proof (NoDup_around _ _ _ Hnd) as (HndK & Hndx & HxK).
  pose proof (Forall_around _ _ _ _ Ha) as (HaK & Hax). apply NoDup_cons in Hndx as [Hnx Hndx].
  apply Forall_cons in Hax as [[Hwn Hn0] Hax].
  assert (rep h n x) as Hrx by (destruct Hx as [[-> ->]|[-> ->]]; apply Ht).
  destruct (run_set_parent_opt h rt n (kptr K) x Hndx Hax Hwn Hrx) as (h1 & E1 & Hr1 & HE1 & Hs1).
  pose proof (set_parent_opt_same _ _ _ HE1 Hs1) as Hs1'.
  assert (repk h1 rt K n) as Hk1.
  { apply (repk_agree h); [|done]. intros a Ha'. apply Hs1'. intros Hin%at_ptr_elem. apply (HxK a); [by right|done]. }
  assert (n ∉ kbefore K ++ kafter K) as HnK by (apply HxK; left).
  destruct (relink_stlink h1 rt K n (ptr x) HaK HnK Hn0 Hk1) as [El _].
  destruct (stlink_spec h1 rt K n (ptr x) HndK HaK Hk1) as (h2 & rt2 & E2 & Hk2 & HE2 & Hs2).
  pose proof (relink_same _ _ _ HE2 Hs2) as Hs2'.
  exists h1, h2, rt2. rewrite El. split; [done|]. split; [done|]. split; [done|].
  assert (forall a, ~ at_ptr a x -> ~ at_kptr a K -> h2 !! a = h !! a) as Hs.
  { intros a H1 H2. rewrite Hs2', Hs1' by done. done. }
  simpl in Hnd, Ha. rewrite <- Permutation_middle in Hnd, Ha.
  apply NoDup_cons in Hnd as [Hnn Hnd]. apply Forall_cons in Ha as [_ Ha].
  split; simpl; [done|done| |done|].
  - apply (rep_agree h1); [|done]. intros a Ha'. apply Hs2'. intros ?%at_kptr_elem.
    apply (HxK a); [by right|done].
  - intros a Ha'. assert (~ at_ptr a x /\ ~ at_kptr a K) as [H1 H2].
    { split; [intros ?%at_ptr_elem|intros ?%at_kptr_elem]; set_solver. }
    rewrite Hs by done. destruct (decide (a = n)) as [->|Hne].
    + rewrite lookup_insert_eq. apply Ht.
    + rewrite lookup_insert_ne by done. apply Hf. rewrite Hp. set_solver.
Qed.

(** ** Putting a node in the place of another *)

(** [y] takes the place of [n]: the links to [n] are moved, [n] itself is not
    written.  The stores to [y] come before or after, as the caller likes. *)
Lemma replace_run F K c l n r y h rt : Foc F K (T c l n r) (mk_rb_state h rt) -> 
  y ∉ kbefore K ++ inorder (T c l n r) ++ kafter K ->
  exists h1 rt1 h2 h3,
    relink_l (kptr K) n y (mk_rb_state h rt) = Some (tt, mk_rb_state h1 rt1) /\
    set_parent_opt (ptr l) y (mk_rb_state h1 rt1) = Some (tt, mk_rb_state h2 rt1) /\
    set_parent_opt (ptr r) y (mk_rb_state h2 rt1) = Some (tt, mk_rb_state h3 rt1) /\
    h1 !! n = h !! n /\ h2 !! n = h !! n /\
    rep h3 y l /\ rep h3 y r /\ repk h3 rt1 K y /\
    (forall a, ~ at_ptr a l -> ~ at_ptr a r -> ~ at_kptr a K -> h3 !! a = h !! a).
Proof.
  intros [Hnd Ha Ht Hk Hf] Hy. simpl in Ht, Hk. destruct Ht as (Hn & Hl & Hr).
  pose proof (NoDup_around _ _ _ Hnd) as (HndK & Hndt & HtK).
  pose proof (NoDup_node _ _ _ _ Hndt) as (Hndl & Hndr & Hnl & Hnr & Hlr).
  pose proof (Forall_around _ _ _ _ Ha) as (HaK & Hat).
  pose proof (Forall_node _ _ _ _ _ Hat) as (Hal & [Hwn Hn0] & Har).
  assert (forall a, a ∈ inorder l -> a ∉ kbefore K ++ kafter K) as HlK by (intros; apply HtK; simpl; set_solver).
  assert (forall a, a ∈ inorder r -> a ∉ kbefore K ++ kafter K) as HrK by (intros; apply HtK; simpl; set_solver).
  assert (n ∉ kbefore K ++ kafter K) as HnK by (apply HtK; simpl; set_solver). clear HtK Hnd Hndt Ha Hat Hf.
  destruct (relink_spec h rt K n y HndK HaK HnK Hn0 Hk) as (h1 & rt1 & Hk1 & HE1 & Hs1 & E1 & _).
  pose proof (relink_same _ _ _ HE1 Hs1) as Hs1'. clear HE1 Hs1.
  assert (rep h1 n l /\ rep h1 n r) as [Hl1 Hr1].
  { split; (apply (rep_agree h); [|done]); intros a Ha; apply Hs1'; intros ?%at_kptr_elem; first [by apply (HlK a)|by apply (HrK a)]. }
  destruct (run_set_parent_opt h1 rt1 n y l Hndl Hal Hwn Hl1) as (h2 & E2 & Hl2 & HE2 & Hs2).
  pose proof (set_parent_opt_same _ _ _ HE2 Hs2) as Hs2'. clear HE2 Hs2.
  assert (rep h2 n r) as Hr2.
  { apply (rep_agree h1); [|done]. intros a Ha. apply Hs2'. intros ?%at_ptr_elem. by apply (Hlr a). }
  destruct (run_set_parent_opt h2 rt1 n y r Hndr Har Hwn Hr2) as (h3 & E3 & Hr3 & HE3 & Hs3).
  pose proof (set_parent_opt_same _ _ _ HE3 Hs3) as Hs3'. clear HE3 Hs3.
  assert (h1 !! n = h !! n) as Hn1 by (apply Hs1'; by intros ?%at_kptr_elem).
  exists h1, rt1, h2, h3. do 3 (split; [done|]). split; [done|].
  split; [rewrite Hs2' by (by intros ?%at_ptr_elem); done|].
  split; [|split; [done|split]].
  - apply (rep_agree h2); [|done]. intros a Ha. apply Hs3'. intros ?%at_ptr_elem. by apply (Hlr a).
  - apply (repk_agree h1); [|done]. intros a Ha. rewrite Hs3', Hs2'; [done| |]; intros ?%at_ptr_elem; 
      first [by apply (HlK a)|by apply (HrK a)].
  - intros a H1 H2 H3. by rewrite Hs3', Hs2', Hs1'.
Qed.

Lemma Foc_outside F K t h rt y v : Foc F K t (mk_rb_state h rt) -> y ∉ kbefore K ++ inorder t ++ kafter K ->
  Foc (<[y := v]> F) K t (mk_rb_state (<[y := v]> h) rt).
Proof.
  intros [Hnd Ha Ht Hk Hf] Hy. split; simpl in *; [done|done| | |].
  - apply rep_insert; [set_solver|done].
  - apply repk_insert; [set_solver|done].
  - intros a Ha'. destruct (decide (a = y)) as [->|Hne]; [by rewrite !lookup_insert_eq|].
    rewrite !lookup_insert_ne by done. by apply Hf.
Qed.

Lemma Rep_frame_eq F F' t s : (forall a, a ∉ inorder t -> F !! a = F' !! a) -> Rep F t s -> Rep F' t s.
Proof. intros HF [H1 H2 H3 H4 H5]. split; try done. intros a Ha. rewrite H5 by done. by apply HF. Qed.

Lemma around_swap (l1 l r l3 : list Z) (n y : Z) : NoDup (l1 ++ (l ++ n :: r) ++ l3) ->
  y ∉ l1 ++ (l ++ n :: r) ++ l3 -> NoDup (l1 ++ (l ++ y :: r) ++ l3).
Proof.
  intros Hnd Hy. assert (forall m, l1 ++ (l ++ m :: r) ++ l3 ≡ₚ m :: l1 ++ (l ++ r) ++ l3) as Hp by (intros; solve_Permutation).
  rewrite Hp in Hnd |- *. apply NoDup_cons in Hnd as [_ Hnd]. apply NoDup_cons. split; [|done]. set_solver.
Qed.

Lemma replace_foc F K c l n r y h rt h3 rt1 h4 : Foc F K (T c l n r) (mk_rb_state h rt) ->
  y ∉ kbefore K ++ inorder (T c l n r) ++ kafter K -> addr_ok y ->
  rep h3 y l -> rep h3 y r -> repk h3 rt1 K y ->
  (forall a, ~ at_ptr a l -> ~ at_ptr a r -> ~ at_kptr a K -> h3 !! a = h !! a) ->
  h4 !! y = Some (enc (kptr K) c (ptr l) (ptr r)) -> same_but y h3 h4 ->
  Foc (<[n := enc (kptr K) c (ptr l) (ptr r)]> F) K (T c l y r) (mk_rb_state h4 rt1).
Proof.
  intros [Hnd Ha Ht Hk Hf] Hy Hay Hl3 Hr3 Hk3 Hs3 H4 Hs4. simpl in *.
  assert (y ∉ inorder l /\ y ∉ inorder r /\ y ∉ kbefore K ++ kafter K) as (Hyl & Hyr & HyK) by set_solver.
  split; simpl.
  - by eapply around_swap.
  - revert Ha. rewrite !Forall_app, !Forall_cons. tauto.
  - split; [done|]. split; by eapply rep_same_but.
  - by eapply repk_same_but.
  - intros a Ha'. assert (a <> y) as Hay' by set_solver.
    rewrite Hs4, Hs3 by (try done; intros ?%at_ptr_elem || intros ?%at_kptr_elem; set_solver).
    destruct (decide (a = n)) as [->|Hne]; [rewrite lookup_insert_eq; apply Ht|].
    rewrite lookup_insert_ne by done. apply Hf. set_solver.
Qed.

(** The test in [rb_erase] has its operands the other way round. *)
Lemma relink_sym_run parent old new s : (if negb (parent =? NULL) then
    pl ← ld_left parent; if pl =? old then st_left parent new else st_right parent new
  else st_root new : M unit) s = relink_l parent old new s.
Proof.
  unfold relink_l. destruct (negb (parent =? NULL)); [|done]. unfold mbind, ST_bind.
  destruct (ld_left parent s) as [[pl s']|]; [|done]. by rewrite Z.eqb_sym.
Qed.

Lemma erase_simple_spec F K c l n r x s : Rep F (plug K (T c l n r)) s ->
  l = E /\ x = r \/ r = E /\ x = l ->
  exists v s', erase_simple n (ptr x) s = Some (ptr x, kptr K, colbit c, s') /\
    Rep (<[n := v]> F) (plug K x) s'.
Proof.
  intros Hs Hx. destruct s as [h rt]. pose proof (node_facts _ _ _ _ _ _ _ _ Hs) as (Hn & Hwn & Hwk & Hv).
  apply Rep_Foc in Hs. destruct (unlink_run _ _ _ _ _ _ x _ _ Hs Hx) as (h1 & h2 & rt2 & E1 & E2 & _ & Hr).
  eexists _, (mk_rb_state h2 rt2). split; [|by apply Rep_Foc].
  unfold erase_simple. unfold mbind at 1, ST_bind at 1. rewrite (run_parent _ _ _ _ _ _ _ Hn Hwk Hv).
  unfold mbind at 1, ST_bind at 1. rewrite (run_color _ _ _ _ _ _ _ Hn Hwk Hv).
  fold (set_parent_opt (ptr x) (kptr K)). unfold mbind at 1, ST_bind at 1. rewrite E1.
  unfold mbind at 1, ST_bind at 1. by rewrite relink_sym_run, E2.
Qed.

(** The second half of [erase_successor], where [node] takes [old]'s place. *)
Definition take_place {A} (old node : Z) (res : A) : M A :=
  opc ← ld_pc old; st_pc node opc ;;
  orr ← ld_right old; st_right node orr ;;
  orl ← ld_left old; st_left node orl ;;
  op ← rb_parent old;
  (if negb (op =? NULL) then
     opl ← ld_left op;
     if opl =? old then st_left op node else st_right op node
   else st_root node) ;;
  orl ← ld_left old; rb_set_parent orl node ;;
  orr ← ld_right old;
  (if negb (orr =? NULL) then rb_set_parent orr node else mret tt) ;;
  mret res.

(** The three stores into the record of [y]. *)
Lemma copy_run {A} h rt n y p c l r v (k : M A) : n <> NULL -> y <> NULL -> n <> y -> word_ok p ->
  h !! n = Some (enc p c l r) -> h !! y = Some v ->
  (opc ← ld_pc n; st_pc y opc ;; orr ← ld_right n; st_right y orr ;;
   orl ← ld_left n; st_left y orl ;; k) (mk_rb_state h rt) =
  k (mk_rb_state (<[y := enc p c l r]> h) rt).
Proof.
  intros Hn Hy Hne Hp Hv Hyv. unfold mbind, ST_bind.
  rewrite (run_pc _ _ _ _ _ _ _ Hn Hv). unfold st_pc, st_right, st_left, mbind, ST_bind.
  rewrite (ld_run _ _ _ _ Hy Hyv). rewrite (sto_run _ _ _ _ _ Hy Hyv).
  assert (forall u, <[y := u]> h !! n = Some (enc p c l r)) as Hv' by (intros; by rewrite lookup_insert_ne).
  rewrite (run_right _ _ _ _ _ _ _ Hn (Hv' _)), (ld_run _ _ _ _ Hy (lookup_insert_eq _ _ _)).
  rewrite (sto_run _ _ _ _ _ Hy (lookup_insert_eq _ _ _)), insert_insert_eq.
  rewrite (run_left _ _ _ _ _ _ _ Hn (Hv' _)), (ld_run _ _ _ _ Hy (lookup_insert_eq _ _ _)).
  rewrite (sto_run _ _ _ _ _ Hy (lookup_insert_eq _ _ _)), insert_insert_eq. done.
Qed.

Lemma take_place_spec {A} F K c l n r y s (res : A) : Rep F (plug K (T c l n r)) s ->
  l <> E -> y ∉ inorder (plug K (T c l n r)) -> addr_ok y -> is_Some (F !! y) ->
  exists v s', take_place n y res s = Some (res, s') /\
    Rep (<[n := v]> F) (plug K (T c l y r)) s'.
Proof.
  intros Hs Hl Hy Hay [w HF]. destruct s as [h rt].
  pose proof (node_facts _ _ _ _ _ _ _ _ Hs) as (Hn & Hwn & Hwk & Hv).
  pose proof (ptr_null F (FL c n r :: K) l _ Hs) as Hlp. rewrite bool_decide_eq_false_2 in Hlp by done.
  apply Rep_Foc in Hs. rewrite inorder_plug in Hy.
  assert (n <> y) as Hny by (intros ->; apply Hy; simpl; set_solver).
  assert (h !! y = Some w) as Hyh by (rewrite <- HF; by apply Hs).
  eexists (enc (kptr K) c (ptr l) (ptr r)).
  unfold take_place. rewrite (copy_run h rt n y _ _ _ _ w) by (done || by destruct Hay).
  apply (Foc_outside _ _ _ _ _ y (enc (kptr K) c (ptr l) (ptr r))) in Hs; [|done].
  destruct (replace_run _ _ _ _ _ _ y _ _ Hs Hy) as
    (h1 & rt1 & h2 & h3 & E1 & E2 & E3 & Hn1 & Hn2 & Hl3 & Hr3 & Hk3 & Hs3).
  rewrite lookup_insert_ne in Hn1, Hn2 by done. rewrite Hv in Hn1, Hn2.
  unfold mbind at 1, ST_bind at 1. erewrite (run_parent _ _ n); [|done|done|by rewrite lookup_insert_ne].
  unfold mbind at 1, ST_bind at 1. rewrite relink_sym_run, E1.
  unfold mbind at 1, ST_bind at 1. rewrite (run_left _ _ _ _ _ _ _ Hn Hn1).
  unfold set_parent_opt in E2. rewrite Hlp in E2. cbn [negb] in E2. unfold mbind at 1, ST_bind at 1. rewrite E2.
  unfold mbind at 1, ST_bind at 1. rewrite (run_right _ _ _ _ _ _ _ Hn Hn2).
  fold (set_parent_opt (ptr r) y). unfold mbind at 1, ST_bind at 1. rewrite E3.
  eexists. split; [done|]. apply (Rep_frame_eq (<[n := enc (kptr K) c (ptr l) (ptr r)]> (<[y := enc (kptr K) c (ptr l) (ptr r)]> F))).
  { intros a Ha. destruct (decide (a = n)) as [->|]; [by rewrite !lookup_insert_eq|].
    rewrite !lookup_insert_ne; [done|done| |done]. intros <-. apply Ha. rewrite inorder_plug. simpl. set_solver. }
  apply Rep_Foc. eapply replace_foc; try done.
  rewrite Hs3; [apply lookup_insert_eq|..]; try intros ?%at_ptr_elem; try intros ?%at_kptr_elem; simpl in Hy; set_solver.
Qed.

(** What [erase_successor] does to the tree: [y], the leftmost node of the
    right subtree, is unlinked and stands in for [n]. *)
Definition succ_result F K c l n r (res : Z * Z * Z) (s : rb_state) : Prop :=
  exists Kr cy y x v, r = plug Kr (T cy E y x) /\ all_left Kr /\
    res = (ptr x, kptr (Kr ++ FR c l y :: K), colbit cy) /\
    Rep (<[n := v]> F) (plug (Kr ++ FR c l y :: K) x) s.

Lemma kbefore_app K1 K2 : kbefore (K1 ++ K2) = kbefore K2 ++ kbefore K1.
Proof.
  induction K1 as [|[] K1 IH]; simpl; [by rewrite app_nil_r|done|]. by rewrite IH, <- app_assoc.
Qed.

(** The first half of [erase_successor], after the successor is found. *)
Lemma succ_unlink F K c l n Kr cy y x s : all_left Kr ->
  Rep F (plug K (T c l n (plug Kr (T cy E y x)))) s -> l <> E ->
  exists a s', ((if negb (ptr x =? NULL) then rb_set_parent (ptr x) (kptr (Kr ++ FR c l n :: K)) else mret tt) ;;
    parent ← (if kptr (Kr ++ FR c l n :: K) =? n then st_right (kptr (Kr ++ FR c l n :: K)) (ptr x) ;; mret y
              else st_left (kptr (Kr ++ FR c l n :: K)) (ptr x) ;; mret (kptr (Kr ++ FR c l n :: K)));
    take_place n y (ptr x, parent, colbit cy)) s = Some (a, s') /\
    succ_result F K c l n (plug Kr (T cy E y x)) a s'.
Proof.
  intros HKr Hs Hl. destruct s as [h rt].
  change (plug K _) with (plug (FR c l n :: K) (plug Kr (T cy E y x))) in Hs. rewrite <- plug_app in Hs.
  pose proof (rep_nodup _ _ _ Hs) as Hnd. pose proof (rep_addr _ _ _ Hs) as Ha. rewrite inorder_plug in Hnd, Ha.
  apply Rep_Foc in Hs.
  destruct (unlink_run _ _ _ _ _ _ x _ _ Hs (or_introl (conj eq_refl eq_refl))) as (h1 & h2 & rt2 & E1 & _ & E2 & Hr).
  fold (set_parent_opt (ptr x) (kptr (Kr ++ FR c l n :: K))).
  unfold mbind at 1, ST_bind at 1. rewrite E1.
  assert ((if kptr (Kr ++ FR c l n :: K) =? n then st_right (kptr (Kr ++ FR c l n :: K)) (ptr x) ;; mret y
              else st_left (kptr (Kr ++ FR c l n :: K)) (ptr x) ;; mret (kptr (Kr ++ FR c l n :: K)))
          (mk_rb_state h1 rt) = Some (kptr (Kr ++ FR c l y :: K), mk_rb_state h2 rt2)) as E3.
  { destruct HKr as [|f Kr (c' & m & r' & ->) HKr]; simpl in E2 |- *.
    - rewrite Z.eqb_refl. unfold mbind, ST_bind. by rewrite E2.
    - rewrite (proj2 (Z.eqb_neq m n)); [unfold mbind, ST_bind; by rewrite E2|].
      intros ->. simpl in Hnd. apply NoDup_app in Hnd as (_ & Hd & _). apply (Hd n); [|set_solver].
      rewrite kbefore_app. simpl. set_solver. }
  unfold mbind at 1, ST_bind at 1. rewrite E3.
  apply Rep_Foc in Hr. rewrite plug_app in Hr. cbn [plug fill] in Hr.
  destruct (take_place_spec _ K c l n (plug Kr x) y (mk_rb_state h2 rt2)
    (ptr x, kptr (Kr ++ FR c l y :: K), colbit cy) Hr Hl) as (v & s' & E4 & Hs').
  - change (plug K _) with (plug (FR c l n :: K) (plug Kr x)). rewrite <- plug_app, inorder_plug.
    apply (proj1 (NoDup_cons y _)). by rewrite Permutation_middle.
  - eapply Forall_forall; [exact Ha|]. simpl. set_solver.
  - by rewrite lookup_insert_eq.
  - eexists _, s'. split; [exact E4|]. exists Kr, cy, y, x, v. do 3 (split; [done|]).
    rewrite plug_app. eapply Rep_frame_eq; [|exact Hs'].
    intros a Ha'. assert (a <> y).
    { intros ->. apply Ha'. cbn [plug fill]. rewrite inorder_plug. simpl. set_solver. }
    destruct (decide (a = n)) as [->|]; [by rewrite !lookup_insert_eq|]. by rewrite !lookup_insert_ne.
Qed.

Lemma erase_successor_spec F K c l n r : l <> E -> r <> E ->
  triple (Rep F (plug K (T c l n r))) (erase_successor n) (succ_result F K c l n r).
Proof.
  intros Hl Hr s Hs. unfold erase_successor. unfold mbind at 1, ST_bind at 1, st_get.
  assert (length (inorder r) < heap_fuel s)%nat as Hf.
  { unfold heap_fuel. pose proof (Rep_size _ _ _ Hs) as Hsz. rewrite inorder_plug in Hsz. simpl in Hsz.
    rewrite !length_app in Hsz. simpl in Hsz. lia. }
  revert Hf. generalize (heap_fuel s) as fuel. intros fuel Hf. revert s Hs.
  match goal with |- forall s, _ -> exists a s', ?m s = _ /\ _ =>
    change (triple (Rep F (plug K (T c l n r))) m (succ_result F K c l n r)) end.
  rb_step. apply (wp_leftmost F _ _ _ (FR c l n :: K) r fuel Hr eq_refl Hf).
  intros Kr cy y x -> HKr.
  rewrite <- plug_app. apply wp_right, wp_parent, wp_color. rewrite plug_app.
  intros s Hs. by apply succ_unlink.
Qed.

(** ** Colours after the unlinking *)

Lemma kok_rename c l n y K2 K1 : forall h, kok (K1 ++ FR c l n :: K2) h -> kok (K1 ++ FR c l y :: K2) h.
Proof.
  induction K1 as [|f K1 IH]; intros h; simpl; [done|].
  intros (Hb & Hn & Hc & Hk). do 2 (split; [done|]). split; [|by apply IH].
  intros Hf. destruct (Hc Hf) as [H1 H2]. split; [done|]. by destruct K1.
Qed.

Lemma erase_finish F K c l n r x h : kok K h -> bal (T c l n r) h -> no_red_red (T c l n r) ->
  l = E /\ x = r \/ r = E /\ x = l ->
  triple (Rep F (plug K x)) (if colbit c =? RB_BLACK then __rb_erase_color (ptr x) (kptr K) else mret tt)
    (repaired F (plug K x)).
Proof.
  intros Hk Hb Hn Hx. destruct c; simpl.
  - apply wp_ret. intros s Hs. exists (plug K x). split; [done|]. split; [|done].
    rewrite nrr_red in Hn. destruct Hn as [[Hl Hr] [Hnl Hnr]]. destruct Hb as [Hbl Hbr].
    apply (kok_plug K x h); [done|..]; destruct Hx as [[-> ->]|[-> ->]]; try done; congruence.
  - destruct h as [|h]; [done|]. destruct Hb as [Hbl Hbr]. rewrite nrr_black in Hn.
    apply (erase_color_spec F K x h); [done|].
    assert (bal x h /\ no_red_red x) as [Hbx Hnx] by (destruct Hx as [[-> ->]|[-> ->]]; tauto).
    split; [|by destruct x as [|[]]]. destruct x as [|[] xl xn xr]; try done.
    cbn [blacken]. rewrite nrr_black. rewrite nrr_red in Hnx. tauto.
Qed.

(** Every node of a tree is the focus of some context. *)
Lemma split_tree n t : n ∈ inorder t -> exists K c l r, t = plug K (T c l n r).
Proof.
  enough (forall K, n ∈ inorder t -> exists K' c l r, plug K t = plug K' (T c l n r)) as H by apply (H []).
  induction t as [|c l IHl m r IHr]; intros K; simpl; [set_solver|].
  rewrite elem_of_app, elem_of_cons. intros [Hn|[->|Hn]].
  - apply (IHl (FL c m r :: K) Hn).
  - by exists K, c, l, r.
  - apply (IHr (FR c l m :: K) Hn).
Qed.

Lemma filter_id n (l : list Z) : n ∉ l -> filter (fun a => a <> n) l = l.
Proof.
  induction l as [|a l IH]; intros Hn; [done|]. rewrite filter_cons_True by set_solver.
  f_equal. apply IH. set_solver.
Qed.

Lemma filter_out n (l1 l2 : list Z) : NoDup (l1 ++ n :: l2) -> filter (fun a => a <> n) (l1 ++ n :: l2) = l1 ++ l2.
Proof.
  intros Hnd. apply NoDup_app in Hnd as (H1 & Hd & Hnd). apply NoDup_cons in Hnd as [Hn _].
  rewrite filter_app, filter_cons_False by tauto. rewrite !filter_id; [done|done|].
  intros Ha. apply (Hd n Ha). left.
Qed.

(** The three ways of [rb_erase], as one specification: the node is gone from
    the in-order sequence and its record is the only one outside the new tree
    that may have changed. *)
Definition erased F n (ns : list Z) (_ : unit) (s : rb_state) : Prop :=
  exists t v, Rep (<[n := v]> F) t s /\ rbtree t /\ inorder t = ns.

Lemma erase_simple_case F K c l n r x s : Rep F (plug K (T c l n r)) s -> rbtree (plug K (T c l n r)) ->
  l = E /\ x = r \/ r = E /\ x = l ->
  exists a s', (cpc ← erase_simple n (ptr x); let '(child, parent, color) := cpc in
    if color =? RB_BLACK then __rb_erase_color child parent else mret tt) s = Some (a, s') /\
    erased F n (kbefore K ++ inorder l ++ inorder r ++ kafter K) a s'.
Proof.
  intros Hs Hrb Hx. destruct (plug_kok _ _ Hrb) as (h & Hk & Hb & Hn & _).
  destruct (erase_simple_spec _ _ _ _ _ _ x _ Hs Hx) as (v & s1 & E1 & Hs1).
  unfold mbind, ST_bind. rewrite E1.
  destruct (erase_finish (<[n := v]> F) K c l n r x h Hk Hb Hn Hx s1 Hs1) as (a & s2 & E2 & t & Ht & Hrt & Hi).
  exists a, s2. split; [done|]. exists t, v. split; [done|]. split; [done|]. rewrite Hi, inorder_plug.
  destruct Hx as [[-> ->]|[-> ->]]; done.
Qed.

Lemma erase_successor_case F K c l n r s : Rep F (plug K (T c l n r)) s -> rbtree (plug K (T c l n r)) ->
  l <> E -> r <> E ->
  exists a s', (cpc ← erase_successor n; let '(child, parent, color) := cpc in
    if color =? RB_BLACK then __rb_erase_color child parent else mret tt) s = Some (a, s') /\
    erased F n (kbefore K ++ inorder l ++ inorder r ++ kafter K) a s'.
Proof.
  intros Hs Hrb Hl Hr.
  destruct (erase_successor_spec F K c l n r Hl Hr s Hs) as (res & s1 & E1 & Kr & cy & y & x & v & -> & HKr & -> & Hs1).
  unfold mbind, ST_bind. rewrite E1.
  change (plug K _) with (plug (FR c l n :: K) (plug Kr (T cy E y x))) in Hrb. rewrite <- plug_app in Hrb.
  destruct (plug_kok _ _ Hrb) as (h & Hk & Hb & Hn & _). apply (kok_rename c l n y) in Hk.
  destruct (erase_finish (<[n := v]> F) _ cy E y x x h Hk Hb Hn (or_introl (conj eq_refl eq_refl)) s1 Hs1)
    as (a & s2 & E2 & t & Ht & Hrt & Hi).
  exists a, s2. split; [done|]. exists t, v. split; [done|]. split; [done|].
  rewrite Hi, plug_app, !inorder_plug, (kbefore_left Kr) by done. simpl. by rewrite <- !app_assoc.
Qed.

(** C12: removing any node of a red-black tree terminates without a bad
    access; the heap then holds a red-black tree whose in-order sequence is
    the old one without the node, and outside the new tree only the removed
    node's own record may have changed. *)
Theorem rb_erase_correct F t n s : Rep F t s -> rbtree t -> n ∈ inorder t ->
  exists s' t' v, rb_erase n s = Some (tt, s') /\ Rep (<[n := v]> F) t' s' /\ rbtree t' /\
    inorder t' = filter (fun a => a <> n) (inorder t).
Proof.
  intros Hs Hrb Hin. destruct (split_tree n t Hin) as (K & c & l & r & ->).
  assert (exists a s', rb_erase n s = Some (a, s') /\
    erased F n (kbefore K ++ inorder l ++ inorder r ++ kafter K) a s') as ([] & s' & E & t' & v & Ht & Hrt & Hi).
  { destruct s as [h rt]. pose proof (node_facts _ _ _ _ _ _ _ _ Hs) as (Hn & Hwn & Hwk & Hv).
    unfold rb_erase. unfold mbind at 1, ST_bind at 1. rewrite (run_left _ _ _ _ _ _ _ Hn Hv).
    unfold mbind at 1, ST_bind at 1. rewrite (run_right _ _ _ _ _ _ _ Hn Hv).
    rewrite (ptr_null F (FL c n r :: K) l _ Hs), (ptr_null F (FR c l n :: K) r _ Hs).
    destruct l as [|lc ll ln lr]; [apply (erase_simple_case F K c E n r r); auto|].
    destruct r as [|rc rl rn rr]; [by apply (erase_simple_case F K c (T lc ll ln lr) n E (T lc ll ln lr)); auto|].
    by apply (erase_successor_case F K c). }
  exists s', t', v. split; [done|]. split; [done|]. split; [done|]. rewrite Hi.
  pose proof (rep_nodup _ _ _ Hs) as Hnd.
  assert (inorder (plug K (T c l n r)) = (kbefore K ++ inorder l) ++ n :: (inorder r ++ kafter K)) as Ei.
  { rewrite inorder_plug. simpl. by rewrite <- !app_assoc. }
  rewrite Ei in *. by rewrite filter_out, <- app_assoc.
Qed.

(** Removing the root, a black node with two children, from the tree 4-8-12:
    the successor 12 takes its place. *)
Lemma rb_erase_correct_witness :
  let s := mk_rb_state (<[4 := mk_rb_node 9 0 0]> (<[8 := mk_rb_node 1 12 4]> (<[12 := mk_rb_node 9 0 0]> ∅))) 8 in
  exists s' t' v, rb_erase 8 s = Some (tt, s') /\ Rep (<[8 := v]> ∅) t' s' /\ rbtree t' /\
    inorder t' = [4; 12].
Proof.
  apply (rb_erase_correct ∅ (T Black (T Black E 4 E) 8 (T Black E 12 E)) 8).
  - split; simpl.
    + repeat constructor; set_solver.
    + repeat constructor; done.
    + done.
    + done.
    + intros a Ha. rewrite !lookup_insert_ne by set_solver. done.
  - split; [done|]. split; [simpl; intuition congruence|]. by exists 2%nat.
  - simpl. set_solver.
Defined.

(** ** Traversal *)

Lemma inorder_cons t : t <> E -> exists a ns, inorder t = a :: ns.
Proof. destruct t as [|c l n r]; [done|]. intros _. simpl. destruct (inorder l); simpl; eauto. Qed.

Lemma leftmost_run F r s : forall K fuel, Rep F (plug K r) s -> r <> E -> (length (inorder r) < fuel)%nat ->
  leftmost fuel (ptr r) s = Some (hd NULL (inorder r), s).
Proof.
  destruct s as [h rt]. induction r as [|c l IH n r _]; intros K fuel Hs Hr Hf; [done|].
  destruct fuel as [|fuel]; [lia|]. pose proof (node_facts _ _ _ _ _ _ _ _ Hs) as (Hn & Hwn & Hwk & Hv).
  cbn [leftmost ptr]. unfold mbind, ST_bind. rewrite (run_left _ _ _ _ _ _ _ Hn Hv).
  rewrite (ptr_null F (FL c n r :: K) l _ Hs). cbn [inorder] in *. rewrite length_app in Hf. simpl in Hf.
  destruct (decide (l = E)) as [->|Hl]; [done|]. rewrite bool_decide_eq_false_2 by done.
  rewrite (IH (FL c n r :: K)) by (done || lia). by destruct (inorder_cons l Hl) as (a & ns & ->).
Qed.

Lemma heap_fuel_gt F t s (ns : list Z) : Rep F t s -> (length ns <= length (inorder t))%nat -> (length ns < heap_fuel s)%nat.
Proof. intros Hs Hn. unfold heap_fuel. pose proof (Rep_size _ _ _ Hs). lia. Qed.

Lemma rb_first_run F t s : Rep F t s -> rb_first s = Some (hd NULL (inorder t), s).
Proof.
  intros Hs. unfold rb_first, mbind, ST_bind, st_get, ld_root.
  pose proof (ptr_null F [] t s Hs) as Hp. rewrite (rep_root _ _ _ Hs), Hp.
  destruct (decide (t = E)) as [->|Ht]; [done|]. rewrite bool_decide_eq_false_2 by done.
  apply (leftmost_run F t s []); [done..|]. by eapply heap_fuel_gt.
Qed.

Lemma up_run F s : forall K t fuel, Rep F (plug K t) s -> t <> E -> (length K < fuel)%nat ->
  up_from_right fuel (ptr t) s = Some (hd NULL (kafter K), s).
Proof.
  destruct s as [h rt]. induction K as [|f K IH]; intros t fuel Hs Ht Hf; (destruct fuel as [|fuel]; [lia|]);
    (destruct t as [|c l n r]; [done|]); pose proof (node_facts _ _ _ _ _ _ _ _ Hs) as (Hn & Hwn & Hwk & Hv);
    cbn [up_from_right ptr]; unfold mbind, ST_bind; rewrite (run_parent _ _ _ _ _ _ _ Hn Hwk Hv); [done|].
  pose proof (rep_nodup _ _ _ Hs) as Hnd. pose proof (rep_addr _ _ _ Hs) as Ha. simpl in Hf.
  destruct f as [c' p u|c' u p]; cbn [plug fill] in Hs; cbn [plug fill kptr fptr kafter hd] in *;
    pose proof (node_facts _ _ _ _ _ _ _ _ Hs) as (Hp & Hwp & Hwk' & Hvp);
    rewrite (proj2 (Z.eqb_neq _ _) Hp), (run_right _ _ _ _ _ _ _ Hp Hvp).
  - by destruct (sib_right _ _ _ _ _ _ _ _ Hnd Ha) as [_ ->].
  - cbn [ptr]. rewrite Z.eqb_refl. apply (IH (T c' u p (T c l n r))); (done || lia).
Qed.

Lemma rb_next_run F K c l n r s : Rep F (plug K (T c l n r)) s ->
  rb_next n s = Some (hd NULL (inorder r ++ kafter K), s).
Proof.
  intros Hs. destruct s as [h rt]. pose proof (node_facts _ _ _ _ _ _ _ _ Hs) as (Hn & Hwn & Hwk & Hv).
  unfold rb_next. unfold mbind at 1, ST_bind at 1, st_get.
  unfold mbind at 1, ST_bind at 1. rewrite (run_parent _ _ _ _ _ _ _ Hn Hwk Hv).
  pose proof Hs as [Hnd _ _ _ _]%Rep_Foc. pose proof (NoDup_around _ _ _ Hnd) as (_ & _ & HtK).
  rewrite (proj2 (Z.eqb_neq (kptr K) n)).
  2:{ destruct K as [|f K]; [by intros <-|]. intros Hk. apply (HtK n); [simpl; set_solver|].
      rewrite <- Hk. by apply kptr_elem. }
  unfold mbind at 1, ST_bind at 1. rewrite (run_right _ _ _ _ _ _ _ Hn Hv), (ptr_null F (FR c l n :: K) r _ Hs).
  destruct (decide (r = E)) as [->|Hr]; cbn [negb].
  - apply (up_run F _ K (T c l n E)); [done..|].
    unfold heap_fuel. pose proof (Rep_size _ _ _ Hs). pose proof (kpath_length K (T c l n E)). lia.
  - rewrite bool_decide_eq_false_2 by done. cbn [negb].
    rewrite (leftmost_run F r _ (FR c l n :: K)); [|done|done|].
    { by destruct (inorder_cons r Hr) as (a & ns & ->). }
    apply (heap_fuel_gt F _ _ _ Hs). rewrite inorder_plug, !length_app. simpl. rewrite length_app. simpl. lia.
Qed.

Lemma split_unique (n : Z) (l1 m1 l2 m2 : list Z) : NoDup (l1 ++ n :: l2) ->
  l1 ++ n :: l2 = m1 ++ n :: m2 -> l2 = m2.
Proof.
  revert m1. induction l1 as [|a l1 IH]; intros [|b m1] Hnd He; simpl in *.
  - by injection He.
  - injection He as -> ->. apply NoDup_cons in Hnd as [Hn _]. set_solver.
  - injection He as -> <-. apply NoDup_cons in Hnd as [Hn _]. set_solver.
  - injection He as -> He. apply NoDup_cons in Hnd as [_ Hnd]. by eapply IH.
Qed.

Lemma rb_next_inorder F t s ns1 n ns2 : Rep F t s -> inorder t = ns1 ++ n :: ns2 ->
  rb_next n s = Some (hd NULL ns2, s).
Proof.
  intros Hs Ht. destruct (split_tree n t) as (K & c & l & r & ->); [rewrite Ht; set_solver|].
  pose proof (rep_nodup _ _ _ Hs) as Hnd. rewrite (rb_next_run _ _ _ _ _ _ _ Hs). do 3 f_equal.
  rewrite inorder_plug in *. simpl in *. rewrite <- app_assoc, app_assoc in *. by eapply split_unique.
Qed.

(** The mirror images. *)
Lemma mirrors_get {A} (k k' : rb_state -> M A) : (forall s, mirrors (k s) (k' (mstate s))) ->
  mirrors (st_get ≫= k) (st_get ≫= k').
Proof. intros Hk s. apply Hk. Qed.

Lemma heap_fuel_mstate s : heap_fuel (mstate s) = heap_fuel s.
Proof. unfold heap_fuel. simpl. by rewrite map_size_fmap. Qed.

Lemma mirrors_leftmost fuel : forall n, mirrors (leftmost fuel n) (rightmost fuel n).
Proof. induction fuel as [|fuel IH]; intros n; [done|]. cbn [leftmost rightmost]. mirror. Qed.

Lemma mirrors_up fuel : forall n, mirrors (up_from_right fuel n) (up_from_left fuel n).
Proof. induction fuel as [|fuel IH]; intros n; [done|]. cbn [up_from_right up_from_left]. mirror. Qed.

Lemma mirrors_first : mirrors rb_first rb_last.
Proof. apply mirrors_get. intros s. rewrite heap_fuel_mstate. mirror. apply mirrors_leftmost. Qed.

Lemma mirrors_next n : mirrors (rb_next n) (rb_prev n).
Proof.
  apply mirrors_get. intros s. rewrite heap_fuel_mstate. mirror; [apply mirrors_leftmost|apply mirrors_up].
Qed.

(** A read-only operation transfers to its mirror image. *)
Lemma mirror_read F (m m' : M Z) t v s : mirrors m m' ->
  (forall F s, Rep F (mtree t) s -> m s = Some (v, s)) -> Rep F t s -> m' s = Some (v, s).
Proof.
  intros Hm Hread H%Rep_mirror. rewrite <- (mstate_mstate s), Hm, (Hread _ _ H). simpl.
  by rewrite mstate_mstate.
Qed.

(** On any represented tree the traversal functions return, change
    nothing and walk the in-order sequence: [rb_first] and [rb_last] give its
    ends, [rb_next] and [rb_prev] the neighbours of a node, with null past an
    end. *)
Theorem rb_traversal_correct F t s ns1 n ns2 : Rep F t s -> inorder t = ns1 ++ n :: ns2 ->
  rb_first s = Some (hd NULL (inorder t), s) /\ rb_last s = Some (hd NULL (reverse (inorder t)), s) /\
  rb_next n s = Some (hd NULL ns2, s) /\ rb_prev n s = Some (hd NULL (reverse ns1), s).
Proof.
  intros Hs Ht. split; [by eapply rb_first_run|]. split; [|split; [by eapply rb_next_inorder|]].
  - apply (mirror_read F rb_first _ t); [apply mirrors_first| |done].
    intros F' s' Hs'. rewrite <- inorder_mtree. by eapply rb_first_run.
  - apply (mirror_read F (rb_next n) _ t); [apply mirrors_next| |done].
    intros F' s' Hs'. apply (rb_next_inorder F' (mtree t) s' (reverse ns2)); [done|].
    by rewrite inorder_mtree, Ht, reverse_app, reverse_cons, <- app_assoc.
Qed.

Lemma rb_traversal_correct_witness :
  let s := mk_rb_state (<[4 := mk_rb_node 9 0 0]> (<[8 := mk_rb_node 1 12 4]> (<[12 := mk_rb_node 9 0 0]> ∅))) 8 in
  rb_first s = Some (4, s) /\ rb_last s = Some (12, s) /\ rb_next 8 s = Some (12, s) /\ rb_prev 8 s = Some (4, s).
Proof.
  apply (rb_traversal_correct ∅ (T Black (T Black E 4 E) 8 (T Black E 12 E)) _ [4] 8 [12]).
  - split; simpl.
    + repeat constructor; set_solver.
    + repeat constructor; done.
    + done.
    + done.
    + intros a Ha. rewrite !lookup_insert_ne by set_solver. done.
  - done.
Defined.

(** ** [rb_replace_node] *)

(** [rb_replace_node] puts a node outside the tree in the victim's place:
    colours, shape and every other node's position stay, and the victim's
    record is left as it was. *)
Theorem rb_replace_correct F K c l n r y s : Rep F (plug K (T c l n r)) s ->
  y ∉ inorder (plug K (T c l n r)) -> addr_ok y -> is_Some (F !! y) ->
  exists s', rb_replace_node n y s = Some (tt, s') /\
    Rep (<[n := enc (kptr K) c (ptr l) (ptr r)]> F) (plug K (T c l y r)) s'.
Proof.
  intros Hs Hy Hay [w HF]. destruct s as [h rt].
  pose proof (node_facts _ _ _ _ _ _ _ _ Hs) as (Hn & Hwn & Hwk & Hv).
  apply Rep_Foc in Hs. rewrite inorder_plug in Hy.
  assert (h !! y = Some w) as Hyh by (rewrite <- HF; by apply Hs).
  destruct (replace_run _ _ _ _ _ _ y _ _ Hs Hy) as
    (h1 & rt1 & h2 & h3 & E1 & E2 & E3 & Hn1 & Hn2 & Hl3 & Hr3 & Hk3 & Hs3).
  rewrite Hv in Hn1, Hn2.
  assert (y ∉ inorder l /\ y ∉ inorder r /\ y ∉ kbefore K ++ kafter K) as (Hyl & Hyr & HyK)
    by (simpl in Hy; set_solver).
  assert (forall a, at_ptr a l \/ at_ptr a r \/ at_kptr a K -> a <> y /\ a <> n) as Hne.
  { pose proof (NoDup_around _ _ _ (foc_nodup _ _ _ _ Hs)) as (_ & Hndt & HtK).
    pose proof (NoDup_node _ _ _ _ Hndt) as (_ & _ & Hnl & Hnr & _). specialize (HtK n ltac:(simpl; set_solver)).
    intros a [Ha%at_ptr_elem|[Ha%at_ptr_elem|Ha%at_kptr_elem]]; split; by intros ->. }
  assert (h3 !! n = h !! n /\ h3 !! y = Some w) as [Hn3 Hy3].
  { rewrite <- Hyh. split; apply Hs3; intros Ha; destruct (Hne _ ltac:(eauto)); done. }
  rewrite Hv in Hn3. exists (mk_rb_state (<[y := enc (kptr K) c (ptr l) (ptr r)]> h3) rt1). split.
  - unfold rb_replace_node. unfold mbind at 1, ST_bind at 1. rewrite (run_parent _ _ _ _ _ _ _ Hn Hwk Hv).
    fold (relink_l (kptr K) n y). unfold mbind at 1, ST_bind at 1. rewrite E1.
    unfold mbind at 1, ST_bind at 1. rewrite (run_left _ _ _ _ _ _ _ Hn Hn1).
    fold (set_parent_opt (ptr l) y). unfold mbind at 1, ST_bind at 1. rewrite E2.
    unfold mbind at 1, ST_bind at 1. rewrite (run_right _ _ _ _ _ _ _ Hn Hn2).
    fold (set_parent_opt (ptr r) y). unfold mbind at 1, ST_bind at 1. rewrite E3.
    unfold mbind, ST_bind. rewrite (ld_run _ _ _ _ Hn Hn3). by apply (sto_run _ _ _ w); [destruct Hay|].
  - apply Rep_Foc. eapply replace_foc; try done; [apply lookup_insert_eq|apply insert_same_but].
Qed.

Lemma rb_replace_correct_witness :
  let F := <[16 := mk_rb_node 0 0 0]> ∅ in
  let s := mk_rb_state (<[4 := mk_rb_node 8 0 0]> (<[8 := mk_rb_node 1 0 4]> F)) 8 in
  exists s', rb_replace_node 4 16 s = Some (tt, s') /\
    Rep (<[4 := mk_rb_node 8 0 0]> F) (T Black (T Red E 16 E) 8 E) s'.
Proof.
  apply (rb_replace_correct (<[16 := mk_rb_node 0 0 0]> ∅) [FL Black 8 E] Red E 4 E 16).
  - split; simpl.
    + repeat constructor; set_solver.
    + repeat constructor; done.
    + done.
    + done.
    + intros a Ha. rewrite !(lookup_insert_ne _ 4), (lookup_insert_ne _ 8) by set_solver. done.
  - simpl. set_solver.
  - done.
  - by eexists.
Defined.
End RbTreeOps.
