(* ===== verification/RwSem.v ===== *)
(** * Reader-writer semaphores: [lib/rwsem-spinlock.c]

    [wait_lock] makes the code between [spin_lock] and [spin_unlock] atomic,
    so each operation is a function on the semaphore, the waiter records and
    the task states.  A blocked task then runs the wait loop of [__down_read]
    and [__down_write_nested] without the lock, one test, sleep or state change
    at a time; [sys_step] interleaves these steps with the operations of all
    other tasks and with the delivery of wake-ups. *)

From S2P Require Import Prelude.

Module RwSem.

Definition NULL : Z := 0.
Definition RWSEM_WAITING_FOR_READ : Z := 1.
Definition RWSEM_WAITING_FOR_WRITE : Z := 2.

Record rwsem_waiter := mk_waiter { task : Z; flags : Z }.

(** [wait_list] holds the addresses of the waiters, front first. *)
Record rw_semaphore := mk_sem { activity : Z; wait_list : list Z }.

Inductive task_state := TASK_RUNNING | TASK_UNINTERRUPTIBLE.

(** What the locked sections touch.  A waiter lives on its task's stack and is
    named by the task; [wakes] collects the [wake_up_process] calls. *)
Record state := mk_state {
  sem : rw_semaphore;
  waiters : gmap Z rwsem_waiter;
  tstate : gmap Z task_state;
  wakes : list Z
}.

Abbreviation M := (ST state).

Definition get_sem : M rw_semaphore := s ← st_get; mret (sem s).
Definition set_sem (r : rw_semaphore) : M unit :=
  fun s => Some (tt, mk_state r (waiters s) (tstate s) (wakes s)).
Definition set_activity (a : Z) : M unit := r ← get_sem; set_sem (mk_sem a (wait_list r)).

(** [list_entry(sem->wait_list.next)], a fault on the empty list. *)
Definition first_waiter : M Z := r ← get_sem; st_lift (head (wait_list r)).

Definition list_del (w : Z) : M unit :=
  r ← get_sem; set_sem (mk_sem (activity r) (filter (fun x => x <> w) (wait_list r))).

Definition list_add_tail (w : Z) : M unit :=
  r ← get_sem; set_sem (mk_sem (activity r) (wait_list r ++ [w])).

Definition list_empty : M bool := r ← get_sem; mret (bool_decide (wait_list r = [])).

(** [w->list.next]; past the last waiter it is the list head, named 0. *)
Fixpoint next_of (w : Z) (l : list Z) : Z :=
  match l with
  | [] => NULL
  | x :: l => if x =? w then default NULL (head l) else next_of w l
  end.
Definition list_next (w : Z) : M Z := r ← get_sem; mret (next_of w (wait_list r)).

Definition ld_waiter (w : Z) : M rwsem_waiter := s ← st_get; st_lift (waiters s !! w).
Definition st_waiter (w : Z) (v : rwsem_waiter) : M unit :=
  fun s => Some (tt, mk_state (sem s) (<[w := v]> (waiters s)) (tstate s) (wakes s)).
Definition set_task_state (p : Z) (t : task_state) : M unit :=
  fun s => Some (tt, mk_state (sem s) (waiters s) (<[p := t]> (tstate s)) (wakes s)).
Definition wake_up_process (p : Z) : M unit :=
  fun s => Some (tt, mk_state (sem s) (waiters s) (tstate s) (wakes s ++ [p])).

(** [list_del]; [tsk = waiter->task; waiter->task = NULL; wake_up_process(tsk)]. *)
Definition grant (w : Z) : M unit :=
  list_del w ;;
  v ← ld_waiter w;
  st_waiter w (mk_waiter NULL (flags v)) ;;
  wake_up_process (task v).

(** ** Waking *)

Fixpoint wake_readers (fuel : nat) (waiter woken : Z) : M Z :=
  match fuel with
  | O => st_fault
  | S fuel =>
      v ← ld_waiter waiter;
      if Z.land (flags v) RWSEM_WAITING_FOR_READ =? 0 then mret woken else
      next ← list_next waiter;
      grant waiter ;;
      e ← list_empty;
      if (e : bool) then mret (woken + 1) else wake_readers fuel next (woken + 1)
  end.

Definition dont_wake_writers (waiter : Z) : M unit :=
  r ← get_sem;
  woken ← wake_readers (S (length (wait_list r))) waiter 0;
  r ← get_sem; set_activity (s32 (activity r + woken)).

Definition __rwsem_do_wake (wakewrite : bool) : M unit :=
  waiter ← first_waiter;
  v ← ld_waiter waiter;
  let writer := negb (Z.land (flags v) RWSEM_WAITING_FOR_WRITE =? 0) in
  if negb wakewrite then
    if writer then mret tt else dont_wake_writers waiter
  else if writer then
    set_activity (-1) ;; grant waiter
  else dont_wake_writers waiter.

Definition __rwsem_wake_one_writer : M unit :=
  set_activity (-1) ;; waiter ← first_waiter; grant waiter.

(** ** The operations, up to the release of [wait_lock] *)

Definition __init_rwsem : rw_semaphore := mk_sem 0 [].

(** Queue the current task; it goes on to the wait loop. *)
Definition enqueue (tsk fl : Z) : M unit :=
  set_task_state tsk TASK_UNINTERRUPTIBLE ;;
  st_waiter tsk (mk_waiter tsk fl) ;;
  list_add_tail tsk.

(** [true]: granted at once; [false]: queued. *)
Definition __down_read (current : Z) : M bool :=
  r ← get_sem; e ← list_empty;
  if (0 <=? activity r) && e then set_activity (s32 (activity r + 1)) ;; mret true
  else enqueue current RWSEM_WAITING_FOR_READ ;; mret false.

Definition __down_read_trylock : M Z :=
  r ← get_sem; e ← list_empty;
  if (0 <=? activity r) && e then set_activity (s32 (activity r + 1)) ;; mret 1 else mret 0.

Definition __down_write_nested (current : Z) : M bool :=
  r ← get_sem; e ← list_empty;
  if (activity r =? 0) && e then set_activity (-1) ;; mret true
  else enqueue current RWSEM_WAITING_FOR_WRITE ;; mret false.

Definition __down_write (current : Z) : M bool := __down_write_nested current.

Definition __down_write_trylock : M Z :=
  r ← get_sem; e ← list_empty;
  if (activity r =? 0) && e then set_activity (-1) ;; mret 1 else mret 0.

Definition __up_read : M unit :=
  r ← get_sem;
  let a := s32 (activity r - 1) in
  set_activity a ;;
  e ← list_empty;
  if (a =? 0) && negb e then __rwsem_wake_one_writer else mret tt.

Definition __up_write : M unit :=
  set_activity 0 ;;
  e ← list_empty;
  if negb e then __rwsem_do_wake true else mret tt.

Definition __downgrade_write : M unit :=
  set_activity 1 ;;
  e ← list_empty;
  if negb e then __rwsem_do_wake false else mret tt.

Definition rwsem_is_locked (r : rw_semaphore) : bool := negb (activity r =? 0).

(** ** Tasks *)

Inductive kind := KR | KW.

(** Where a task is: outside, at one of the three points of the wait loop, or
    holding the semaphore. *)
Inductive pc := Idle | Test (k : kind) | Sched (k : kind) | SetState (k : kind) | Hold (k : kind).

Definition wflag (k : kind) : Z :=
  match k with KR => RWSEM_WAITING_FOR_READ | KW => RWSEM_WAITING_FOR_WRITE end.

Record sys := mk_sys { st : state; pcs : gmap Z pc }.

Definition set_pc (p : Z) (c : pc) (m : gmap Z pc) : gmap Z pc := <[p := c]> m.

(** Leaving the wait loop: the waiter's stack frame is gone. *)
Definition leave (p : Z) (s : state) : state :=
  mk_state (sem s) (delete p (waiters s)) (<[p := TASK_RUNNING]> (tstate s)) (wakes s).

Definition after_down (k : kind) (granted : bool) : pc := if granted then Hold k else Test k.
Definition after_try (k : kind) (r : Z) : pc := if r =? 0 then Idle else Hold k.

Definition mk_up (k : kind) : M unit := match k with KR => __up_read | KW => __up_write end.
Definition mk_down (k : kind) (p : Z) : M bool :=
  match k with KR => __down_read p | KW => __down_write p end.
Definition mk_try (k : kind) : M Z :=
  match k with KR => __down_read_trylock | KW => __down_write_trylock end.

Inductive sys_step : sys -> sys -> Prop :=
| s_down k p s m g s' : m !! p = Some Idle -> mk_down k p s = Some (g, s') ->
    sys_step (mk_sys s m) (mk_sys s' (set_pc p (after_down k g) m))
| s_try k p s m r s' : m !! p = Some Idle -> mk_try k s = Some (r, s') ->
    sys_step (mk_sys s m) (mk_sys s' (set_pc p (after_try k r) m))
| s_up k p s m s' : m !! p = Some (Hold k) -> mk_up k s = Some (tt, s') ->
    sys_step (mk_sys s m) (mk_sys s' (set_pc p Idle m))
| s_downgrade p s m s' : m !! p = Some (Hold KW) -> __downgrade_write s = Some (tt, s') ->
    sys_step (mk_sys s m) (mk_sys s' (set_pc p (Hold KR) m))
| s_break k p s m v : m !! p = Some (Test k) -> waiters s !! p = Some v -> task v = NULL ->
    sys_step (mk_sys s m) (mk_sys (leave p s) (set_pc p (Hold k) m))
| s_loop k p s m v : m !! p = Some (Test k) -> waiters s !! p = Some v -> task v <> NULL ->
    sys_step (mk_sys s m) (mk_sys s (set_pc p (Sched k) m))
| s_schedule k p s m : m !! p = Some (Sched k) -> tstate s !! p = Some TASK_RUNNING ->
    sys_step (mk_sys s m) (mk_sys s (set_pc p (SetState k) m))
| s_set_state k p s m : m !! p = Some (SetState k) ->
    sys_step (mk_sys s m)
      (mk_sys (mk_state (sem s) (waiters s) (<[p := TASK_UNINTERRUPTIBLE]> (tstate s)) (wakes s))
              (set_pc p (Test k) m))
| s_wake p w1 w2 s m : wakes s = w1 ++ p :: w2 ->
    sys_step (mk_sys s m)
      (mk_sys (mk_state (sem s) (waiters s) (<[p := TASK_RUNNING]> (tstate s)) (w1 ++ w2)) m).

(** All tasks start outside, running, the semaphore free. *)
Definition initial (tasks : list Z) : sys :=
  mk_sys (mk_state __init_rwsem ∅ (list_to_map ((fun p => (p, TASK_RUNNING)) <$> tasks)) [])
         (list_to_map ((fun p => (p, Idle)) <$> tasks)).

Inductive reachable (tasks : list Z) : sys -> Prop :=
| r_init : reachable tasks (initial tasks)
| r_step x y : reachable tasks x -> sys_step x y -> reachable tasks y.

(** ** What the operations do *)

(** The tasks [gs] at the front of the queue are granted the semaphore. *)
Definition nullify (gs : list Z) (ws : gmap Z rwsem_waiter) : gmap Z rwsem_waiter :=
  foldl (fun ws p => alter (fun v => mk_waiter NULL (flags v)) p ws) ws gs.

Definition granted (a : Z) (gs rest : list Z) (s : state) : state :=
  mk_state (mk_sem a rest) (nullify gs (waiters s)) (tstate s) (wakes s ++ gs).

Lemma nullify_lookup gs : forall ws p, nullify gs ws !! p =
  if decide (p ∈ gs) then (fun v => mk_waiter NULL (flags v)) <$> ws !! p else ws !! p.
Proof.
  induction gs as [|g gs IH]; intros ws p; [by case_decide; [set_solver|]|].
  change (nullify (g :: gs) ws) with (nullify gs (alter (fun v => mk_waiter NULL (flags v)) g ws)). rewrite IH.
  destruct (decide (p = g)) as [->|Hne].
  - rewrite lookup_alter_eq. case_decide as H1; case_decide as H2; [|set_solver|done|set_solver].
    by destruct (ws !! g).
  - rewrite lookup_alter_ne by done.
    case_decide as H1; case_decide as H2; try done; set_solver.
Qed.

Lemma filter_front p (l : list Z) : NoDup (p :: l) -> filter (fun x => x <> p) (p :: l) = l.
Proof.
  intros [Hp Hnd]%NoDup_cons. rewrite filter_cons_False by tauto.
  induction l as [|x l IH]; [done|]. rewrite filter_cons_True by set_solver.
  f_equal. apply IH; [set_solver|by apply NoDup_cons in Hnd as [_ Hnd]].
Qed.

Lemma alter_lookup p (ws : gmap Z rwsem_waiter) f v : ws !! p = Some v -> alter f p ws = <[p := f v]> ws.
Proof.
  intros Hv. apply map_eq. intros q. destruct (decide (q = p)) as [->|].
  - by rewrite lookup_alter_eq, lookup_insert_eq, Hv.
  - by rewrite lookup_alter_ne, lookup_insert_ne.
Qed.

Lemma grant_run p l s k : wait_list (sem s) = p :: l -> NoDup (p :: l) ->
  waiters s !! p = Some (mk_waiter p (wflag k)) ->
  grant p s = Some (tt, granted (activity (sem s)) [p] l s).
Proof.
  intros Hl Hnd Hw. destruct s as [r ws ts wk]. unfold grant, list_del, get_sem, ld_waiter, st_get, st_lift. cbn in *.
  unfold mbind, ST_bind. cbn. rewrite Hl, filter_front, Hw by done. cbn. unfold granted. cbn.
  by rewrite (alter_lookup p ws _ _ Hw).
Qed.

(** [wait_list] as the readers at its front and a rest that starts with a writer. *)
Definition reader_prefix (ws : gmap Z rwsem_waiter) (l rs rest : list Z) : Prop :=
  l = rs ++ rest /\ Forall (fun q => ws !! q = Some (mk_waiter q (wflag KR))) rs /\
  match rest with [] => True | q :: _ => ws !! q = Some (mk_waiter q (wflag KW)) end.

Lemma granted_app a a' g gs l rest s : granted a' gs rest (granted a [g] l s) = granted a' (g :: gs) rest s.
Proof. destruct s as [r ws ts wk]. unfold granted. cbn. by rewrite <- app_assoc. Qed.

Lemma wake_readers_run rs : forall p rest s fuel woken,
  reader_prefix (waiters s) (wait_list (sem s)) (p :: rs) rest -> NoDup (wait_list (sem s)) ->
  (length (p :: rs) < fuel)%nat ->
  wake_readers fuel p woken s =
    Some (woken + Z.of_nat (length (p :: rs)), granted (activity (sem s)) (p :: rs) rest s).
Proof.
  induction rs as [|q rs IH]; intros p rest s fuel woken (Hl & Hf & Hr) Hnd Hfuel;
    (destruct fuel as [|fuel]; [lia|]); apply Forall_cons in Hf as [Hp Hf]; cbn [wake_readers];
    rewrite Hl in Hnd; simpl in Hl, Hnd; unfold ld_waiter, list_next, list_empty, get_sem, st_get, st_lift;
    unfold mbind, ST_bind; cbn; rewrite Hp; cbn;
    change (Z.land RWSEM_WAITING_FOR_READ RWSEM_WAITING_FOR_READ =? 0) with false; cbn; rewrite Hl; cbn [next_of]; rewrite Z.eqb_refl;
    rewrite (grant_run p _ s KR Hl Hnd Hp); cbn.
  - destruct rest as [|q rest]; [done|]. rewrite bool_decide_eq_false_2 by done.
    destruct fuel as [|fuel]; [simpl in Hfuel; lia|]. cbn [wake_readers].
    unfold ld_waiter, mbind, ST_bind, st_get, st_lift. cbn.
    rewrite lookup_alter_ne by (apply NoDup_cons in Hnd as [Hn _]; set_solver). rewrite Hr. done.
  - rewrite (IH q rest); cbn [granted sem waiters wait_list activity].
    + rewrite granted_app. f_equal. f_equal. simpl length. lia.
    + split; [done|]. apply NoDup_cons in Hnd as [Hn _]. split.
      * eapply Forall_impl; [apply Forall_and; split; [exact Hf|]|].
        { apply Forall_forall. intros x Hx. assert (x <> p) by set_solver. exact H. }
        intros x [Hx Hne]. cbn. by rewrite lookup_alter_ne.
      * destruct rest as [|x rest]; [done|]. cbn. rewrite lookup_alter_ne; [done|set_solver].
    + by apply NoDup_cons in Hnd as [_ Hnd].
    + simpl in Hfuel |- *. lia.
Qed.

Definition queue_ok (s : state) : Prop :=
  NoDup (wait_list (sem s)) /\
  Forall (fun q => exists k, waiters s !! q = Some (mk_waiter q (wflag k))) (wait_list (sem s)).

Lemma reader_prefix_exists ws l : Forall (fun q => exists k, ws !! q = Some (mk_waiter q (wflag k))) l ->
  exists rs rest, reader_prefix ws l rs rest.
Proof.
  induction 1 as [|q l [[] Hq] _ (rs & rest & -> & Hrs & Hrest)]; [by exists [], []| |].
  - exists (q :: rs), rest. split; [done|]. split; [by constructor|done].
  - by exists [], (q :: rs ++ rest).
Qed.

(** The outcomes of a wake-up: one writer, or all readers before the first
    writer. *)
Definition wake_outcome (ws : gmap Z rwsem_waiter) (l : list Z) (a a' : Z) (gs rest : list Z) : Prop :=
  l = gs ++ rest /\
  ((exists p, gs = [p] /\ ws !! p = Some (mk_waiter p (wflag KW)) /\ a' = -1) \/
   (gs <> [] /\ reader_prefix ws l gs rest /\ a' = s32 (a + Z.of_nat (length gs)))).

Lemma get_sem_run s : get_sem s = Some (sem s, s).
Proof. done. Qed.

Lemma list_empty_run s : list_empty s = Some (bool_decide (wait_list (sem s) = []), s).
Proof. done. Qed.

Lemma first_waiter_run p l s : wait_list (sem s) = p :: l -> first_waiter s = Some (p, s).
Proof. intros Hl. unfold first_waiter. rewrite (bind_run _ _ _ _ _ (get_sem_run s)), Hl. done. Qed.

Lemma set_activity_run a s : set_activity a s = Some (tt, granted a [] (wait_list (sem s)) s).
Proof. destruct s. unfold granted. cbn. by rewrite app_nil_r. Qed.

Lemma dont_wake_writers_run p l s : wait_list (sem s) = p :: l -> queue_ok s ->
  waiters s !! p = Some (mk_waiter p (wflag KR)) ->
  exists gs rest a', wake_outcome (waiters s) (p :: l) (activity (sem s)) a' gs rest /\
    dont_wake_writers p s = Some (tt, granted a' gs rest s).
Proof.
  intros Hl [Hnd Hf] Hp. rewrite Hl in Hf. apply Forall_cons in Hf as [_ Hf].
  destruct (reader_prefix_exists _ _ Hf) as (rs & rest & -> & Hrs & Hrest).
  assert (reader_prefix (waiters s) (wait_list (sem s)) (p :: rs) rest) as Hpre.
  { rewrite Hl. split; [done|]. split; [by constructor|done]. }
  exists (p :: rs), rest, (s32 (activity (sem s) + Z.of_nat (length (p :: rs)))). split.
  - split; [done|]. right. rewrite <- Hl. done.
  - unfold dont_wake_writers, get_sem, mbind, ST_bind, st_get. cbn -[wake_readers].
    rewrite (wake_readers_run rs p rest s) by (done || rewrite Hl; simpl; rewrite length_app; lia).
    cbn. destruct s. unfold granted. cbn. done.
Qed.

Lemma do_wake_run w p l s : wait_list (sem s) = p :: l -> queue_ok s ->
  exists gs rest a', __rwsem_do_wake w s = Some (tt, granted a' gs rest s) /\
    (wake_outcome (waiters s) (p :: l) (activity (sem s)) a' gs rest /\
      (w = false -> exists q, q ∈ gs /\ waiters s !! q = Some (mk_waiter q (wflag KR))) \/
     w = false /\ gs = [] /\ rest = p :: l /\ a' = activity (sem s) /\
      waiters s !! p = Some (mk_waiter p (wflag KW))).
Proof.
  intros Hl Hq. pose proof Hq as [Hnd Hf]. rewrite Hl in Hnd, Hf. apply Forall_cons in Hf as [[k Hk] _].
  assert (forall a, queue_ok (granted a [] (p :: l) s)) as Hq' by (intros a; destruct Hq; rewrite <- Hl; done).
  unfold __rwsem_do_wake, first_waiter, ld_waiter, get_sem, mbind, ST_bind, st_get, st_lift.
  cbn -[set_activity grant dont_wake_writers]. rewrite Hl. cbn -[set_activity grant dont_wake_writers].
  rewrite Hk. destruct k; cbn -[set_activity grant dont_wake_writers].
  - destruct (dont_wake_writers_run p l s Hl Hq Hk) as (gs & rest & a' & Ho & E).
    exists gs, rest, a'. split; [by destruct w|]. left. split; [done|]. intros ->.
    exists p. split; [|done]. destruct Ho as [Ho [(q & -> & _)|(Hgs & _)]].
    + injection Ho as -> _. set_solver.
    + destruct gs as [|g gs]; [done|]. injection Ho as -> _. set_solver.
  - change (Z.land RWSEM_WAITING_FOR_WRITE RWSEM_WAITING_FOR_WRITE =? 0) with false.
    destruct w; cbn -[set_activity grant].
    + exists [p], l, (-1). pose proof (grant_run p l (granted (-1) [] (p :: l) s) KW eq_refl Hnd Hk) as E.
      rewrite set_activity_run, Hl, E. split; [by destruct s; unfold granted; cbn; rewrite app_nil_r|].
      left. split; [|done]. split; [done|]. left. by exists p.
    + exists [], (p :: l), (activity (sem s)). split; [|right; done]. unfold mret, ST_ret. do 2 f_equal.
      destruct s as [[a wl] ws ts wk]. cbn in *. unfold granted. cbn. by rewrite app_nil_r, Hl.
Qed.

(** ** The invariant *)

Definition blocked (c : pc) : option kind :=
  match c with Test k | Sched k | SetState k => Some k | Idle | Hold _ => None end.

Definition waiting (m : gmap Z pc) (p : Z) : option kind := m !! p ≫= blocked.

(** A task owns the semaphore from the moment it is granted, also while it is
    still on its way out of the wait loop. *)
Definition owns (wl : list Z) (m : gmap Z pc) (p : Z) (k : kind) : Prop :=
  m !! p = Some (Hold k) \/ waiting m p = Some k /\ p ∉ wl.

(** [activity] counts the readers, or is -1 for the one writer. *)
Definition counts (a : Z) (wl : list Z) (m : gmap Z pc) : Prop :=
  exists R W : gset Z, (forall p, p ∈ R <-> owns wl m p KR) /\ (forall p, p ∈ W <-> owns wl m p KW) /\
    (W = ∅ /\ a = Z.of_nat (size R) \/ exists q, W = {[q]} /\ R = ∅ /\ a = -1).

(** Nobody waits on a free semaphore, and only a writer heads the queue while
    readers are active. *)
Definition head_ok (a : Z) (wl : list Z) (m : gmap Z pc) : Prop :=
  match wl with [] => True | q :: _ => a <> 0 /\ (0 < a -> waiting m q = Some KW) end.

Definition waiter_ok (wl : list Z) (ws : gmap Z rwsem_waiter) (p : Z) (k : kind) : Prop :=
  p ∈ wl /\ ws !! p = Some (mk_waiter p (wflag k)) \/ p ∉ wl /\ ws !! p = Some (mk_waiter NULL (wflag k)).

Record inv (x : sys) : Prop := {
  i_size : Z.of_nat (size (pcs x)) < 2 ^ 31;
  i_null : pcs x !! NULL = None;
  i_nodup : NoDup (wait_list (sem (st x)));
  i_listed : forall p, p ∈ wait_list (sem (st x)) -> waiting (pcs x) p <> None;
  i_waiters : forall p k, waiting (pcs x) p = Some k ->
    waiter_ok (wait_list (sem (st x))) (waiters (st x)) p k;
  i_counts : counts (activity (sem (st x))) (wait_list (sem (st x))) (pcs x);
  i_head : head_ok (activity (sem (st x))) (wait_list (sem (st x))) (pcs x);
  i_sleep : forall p k, pcs x !! p = Some (Sched k) -> p ∉ wait_list (sem (st x)) ->
    tstate (st x) !! p = Some TASK_RUNNING \/ p ∈ wakes (st x)
}.

Lemma waiting_insert m p c q : waiting (set_pc p c m) q = if decide (q = p) then blocked c else waiting m q.
Proof.
  unfold waiting, set_pc. case_decide as H; [subst; by rewrite lookup_insert_eq|by rewrite lookup_insert_ne].
Qed.

Lemma owns_waiting wl m p k : owns wl m p k -> waiting m p <> None -> waiting m p = Some k.
Proof. intros [H|[H _]]; [|done]. unfold waiting. by rewrite H. Qed.

(** The owners after [p] moves to [c] and [gs] are granted. *)
Lemma owns_grant gs rest m p c q k : NoDup (gs ++ rest) -> waiting m p = None -> p ∉ gs ++ rest ->
  blocked c = None ->
  owns rest (set_pc p c m) q k <->
    q = p /\ c = Hold k \/ q <> p /\ (owns (gs ++ rest) m q k \/ q ∈ gs /\ waiting m q = Some k).
Proof.
  intros Hnd Hp Hpl Hc. unfold owns. rewrite waiting_insert. unfold set_pc.
  destruct (decide (q = p)) as [->|Hne].
  - rewrite lookup_insert_eq, Hc. naive_solver.
  - rewrite lookup_insert_ne by done. apply NoDup_app in Hnd as (_ & Hd & _).
    rewrite not_elem_of_app. destruct (decide (q ∈ gs)) as [Hg|Hg]; [specialize (Hd q Hg)|]; naive_solver.
Qed.

Lemma owners_bound wl m (R : gset Z) k : (forall p, p ∈ R <-> owns wl m p k) -> (size R <= size m)%nat.
Proof.
  intros HR. rewrite <- size_dom. apply subseteq_size. intros p Hp. apply HR in Hp. apply elem_of_dom.
  destruct Hp as [Hp|[Hp _]]; [by eexists|]. unfold waiting in Hp. destruct (m !! p); [by eexists|done].
Qed.

Lemma queue_ok_inv s m : inv (mk_sys s m) -> queue_ok s.
Proof.
  intros [_ _ Hnd Hl Hw _ _ _]. simpl in *. split; [done|]. apply Forall_forall. intros p Hp.
  destruct (waiting m p) as [k|] eqn:E; [|by destruct (Hl p Hp)].
  destruct (Hw p k E) as [[_ H]|[H _]]; [by exists k|done].
Qed.

Lemma kind_of s m p k k' : inv (mk_sys s m) -> p ∈ wait_list (sem s) ->
  waiters s !! p = Some (mk_waiter p (wflag k)) -> waiting m p = Some k' -> k = k'.
Proof.
  intros Hi Hp Hw Hk. destruct (i_waiters _ Hi p k' Hk) as [[_ H]|[H _]]; [|done]. simpl in H.
  rewrite Hw in H. by destruct k, k'.
Qed.

(** An unblocked task moves to an unblocked point and [gs] are granted. *)
Lemma inv_grant s m p c c0 gs rest a : inv (mk_sys s m) -> m !! p = Some c0 -> blocked c0 = None ->
  blocked c = None -> wait_list (sem s) = gs ++ rest ->
  counts a rest (set_pc p c m) -> head_ok a rest m -> inv (mk_sys (granted a gs rest s) (set_pc p c m)).
Proof.
  intros [Hsz Hnull Hnd Hl Hw _ _ Hs] Hp Hc0 Hc Hwl Hcnt Hh. simpl in *. rewrite Hwl in *.
  assert (waiting m p = None) as Hwp by (unfold waiting; by rewrite Hp).
  assert (p ∉ gs ++ rest) as Hpl by (intros H; by apply (Hl p)).
  split; simpl.
  - unfold set_pc. rewrite map_size_insert_Some; [done|by eexists].
  - unfold set_pc. rewrite lookup_insert_ne; [done|]. intros ->. by rewrite Hnull in Hp.
  - by apply NoDup_app in Hnd as (_ & _ & Hnd).
  - intros q Hq. rewrite waiting_insert. case_decide as Hd; [subst; set_solver|]. apply Hl. set_solver.
  - intros q k. rewrite waiting_insert. case_decide as Hd; [by rewrite Hc|]. intros Hk.
    unfold waiter_ok. rewrite nullify_lookup. apply NoDup_app in Hnd as (_ & Hdis & _). specialize (Hdis q).
    destruct (Hw q k Hk) as [[Hin ->]|[Hin ->]]; apply elem_of_app in Hin || apply not_elem_of_app in Hin;
      case_decide; naive_solver.
  - done.
  - destruct rest as [|q rest]; [done|]. destruct Hh as [H1 H2]. split; [done|]. intros Ha.
    rewrite waiting_insert, decide_False by set_solver. by apply H2.
  - intros q k. unfold set_pc. destruct (decide (q = p)) as [->|Hne].
    { rewrite lookup_insert_eq. intros [= ->]. done. }
    rewrite lookup_insert_ne by done. intros Hq Hr. destruct (decide (q ∈ gs)); [right; set_solver|].
    destruct (Hs q k Hq); [set_solver|by left|right; set_solver].
Qed.

(** ** The counts after each operation *)

Section Counts.
Context (s : state) (m : gmap Z pc) (p : Z).
Hypothesis Hi : inv (mk_sys s m).
Local Abbreviation wl := (wait_list (sem s)).
Local Abbreviation a := (activity (sem s)).

Lemma small_size (R : gset Z) wl' m' k : (forall q, q ∈ R <-> owns wl' m' q k) -> size m' = size m ->
  s32 (Z.of_nat (size R)) = Z.of_nat (size R).
Proof using Hi.
  intros HR Hm. apply s32_small. pose proof (owners_bound _ _ _ _ HR). pose proof (i_size _ Hi). simpl in *. lia.
Qed.

Lemma size_set_pc c c0 : m !! p = Some c0 -> size (set_pc p c m) = size m.
Proof. intros H. unfold set_pc. by rewrite map_size_insert_Some. Qed.

Lemma counts_owner k : owns wl m p k ->
  exists R W : gset Z, (forall q, q ∈ R <-> owns wl m q KR) /\ (forall q, q ∈ W <-> owns wl m q KW) /\
    match k with
    | KR => p ∈ R /\ W = ∅ /\ a = Z.of_nat (size R)
    | KW => W = {[p]} /\ R = ∅ /\ a = -1
    end.
Proof using Hi.
  intros Ho. destruct (i_counts _ Hi) as (R & W & HR & HW & Hc). simpl in *. exists R, W. split; [done|]. split; [done|].
  destruct k.
  - apply HR in Ho. destruct Hc as [[-> ->]|(q & -> & -> & ->)]; [done|set_solver].
  - apply HW in Ho. destruct Hc as [[-> ->]|(q & -> & -> & ->)]; [set_solver|]. assert (p = q) by set_solver. by subst.
Qed.

Lemma counts_down_read : m !! p = Some Idle -> 0 <= a -> wl = [] ->
  counts (s32 (a + 1)) [] (set_pc p (Hold KR) m).
Proof using Hi.
  intros Hp Ha Hwl. destruct (i_counts _ Hi) as (R & W & HR & HW & Hc). simpl in *. rewrite Hwl in *.
  destruct Hc as [[-> Hc]|(q & _ & _ & Hc)]; [|lia].
  assert (waiting m p = None) as Hwp by (unfold waiting; by rewrite Hp).
  assert (forall q k, owns [] (set_pc p (Hold KR) m) q k <-> q = p /\ KR = k \/ q <> p /\ owns [] m q k) as Ho.
  { intros q k. rewrite (owns_grant [] [] m p (Hold KR) q k); [|constructor|done|set_solver|done]. set_solver. }
  assert (p ∉ R) as HpR by (rewrite HR; unfold owns; rewrite Hp, Hwp; naive_solver).
  assert (forall q, q ∈ {[p]} ∪ R <-> owns [] (set_pc p (Hold KR) m) q KR) as HR'.
  { intros q. rewrite Ho, <- HR. destruct (decide (q = p)); set_solver. }
  exists ({[p]} ∪ R), ∅. split; [done|]. split; [intros q; rewrite Ho, <- HW; set_solver|]. left. split; [done|].
  rewrite <- (small_size _ _ _ _ HR') by by eapply size_set_pc.
  rewrite size_union, size_singleton by set_solver. rewrite Hc. f_equal. lia.
Qed.

Lemma counts_down_write : m !! p = Some Idle -> a = 0 -> wl = [] -> counts (-1) [] (set_pc p (Hold KW) m).
Proof using Hi.
  intros Hp Ha Hwl. destruct (i_counts _ Hi) as (R & W & HR & HW & Hc). simpl in *. rewrite Hwl in *.
  destruct Hc as [[-> Hc]|(q & _ & _ & Hc)]; [|lia].
  assert (R = ∅) as -> by (apply leibniz_equiv, size_empty_inv; lia).
  assert (waiting m p = None) as Hwp by (unfold waiting; by rewrite Hp).
  exists ∅, {[p]}. split; [|split; [|right; by exists p]]; intros q;
    rewrite (owns_grant [] [] m p (Hold KW) q _), <- ?HR, <- ?HW by (constructor || done || set_solver);
    destruct (decide (q = p)); set_solver.
Qed.

(** [p] moves to [c] and readers [gs] join the owners [B] that remain. *)
Lemma counts_readers c c0 (B : gset Z) gs rest : m !! p = Some c0 -> blocked c0 = None -> blocked c = None ->
  wl = gs ++ rest -> Forall (fun g => waiting m g = Some KR) gs ->
  (forall q, q ∈ B <-> q = p /\ c = Hold KR \/ q <> p /\ owns wl m q KR) ->
  (forall q, ~ (q = p /\ c = Hold KW \/ q <> p /\ owns wl m q KW)) ->
  counts (s32 (Z.of_nat (size B) + Z.of_nat (length gs))) rest (set_pc p c m).
Proof using Hi.
  intros Hp Hc0 Hc Hwl Hgs HB HnW. rewrite Hwl in *. rewrite Forall_forall in Hgs.
  pose proof (i_nodup _ Hi) as Hnd. pose proof (i_listed _ Hi) as Hl. simpl in *. rewrite Hwl in *.
  assert (waiting m p = None) as Hwp by (unfold waiting; by rewrite Hp).
  assert (p ∉ gs ++ rest) as Hpl by (intros H; by apply (Hl p)).
  assert (forall q k, owns rest (set_pc p c m) q k <-> q = p /\ c = Hold k \/
    q <> p /\ (owns (gs ++ rest) m q k \/ q ∈ gs /\ waiting m q = Some k)) as Ho by (intros; by apply owns_grant).
  assert (forall q, q ∈ B ∪ list_to_set gs <-> owns rest (set_pc p c m) q KR) as HR'.
  { intros q. rewrite Ho, elem_of_union, elem_of_list_to_set, HB. specialize (Hgs q).
    destruct (decide (q = p)) as [->|]; [|naive_solver]. set_solver. }
  assert (B ## list_to_set gs) as Hdis.
  { intros q Hq1 Hq2. apply HB in Hq1. apply elem_of_list_to_set in Hq2. specialize (Hgs q Hq2).
    destruct Hq1 as [[-> _]|[_ [Hq|[_ Hq]]]]; [set_solver| |set_solver].
    unfold waiting in Hgs. by rewrite Hq in Hgs. }
  exists (B ∪ list_to_set gs), ∅. split; [done|]. split; [|left; split; [done|]].
  - intros q. rewrite Ho. split; [set_solver|]. specialize (Hgs q). specialize (HnW q). naive_solver.
  - rewrite <- (small_size _ _ _ _ HR') by by eapply size_set_pc. f_equal.
    apply NoDup_app in Hnd as (Hndg & _). rewrite size_union, size_list_to_set by done. lia.
Qed.

(** Nobody is left and writer [g] is granted. *)
Lemma counts_writer c0 g rest : m !! p = Some c0 -> blocked c0 = None -> wl = g :: rest ->
  waiting m g = Some KW -> (forall q k, q <> p -> ~ owns wl m q k) -> counts (-1) rest (set_pc p Idle m).
Proof using Hi.
  intros Hp Hc0 Hwl Hg Hn. pose proof (i_nodup _ Hi) as Hnd. pose proof (i_listed _ Hi) as Hl. simpl in *.
  rewrite Hwl in *. assert (waiting m p = None) as Hwp by (unfold waiting; by rewrite Hp).
  assert (p ∉ [g] ++ rest) as Hpl by (intros H; by apply (Hl p)).
  assert (forall q k, owns rest (set_pc p Idle m) q k <-> q = g /\ k = KW) as Ho.
  { intros q k. rewrite (owns_grant [g] rest m p Idle q k Hnd Hwp Hpl eq_refl). specialize (Hn q k).
    split; [intros [[]|(? & [?|[]])]; set_solver|]. intros [-> ->]. set_solver. }
  exists ∅, {[g]}. split; [|split; [|right; by exists g]]; intros q; rewrite Ho; set_solver.
Qed.
End Counts.

(** ** Every operation keeps the invariant *)

Definition free_for (k : kind) (r : rw_semaphore) : bool :=
  match k with KR => 0 <=? activity r | KW => activity r =? 0 end && bool_decide (wait_list r = []).

Definition taken (k : kind) (a : Z) : Z := match k with KR => s32 (a + 1) | KW => -1 end.

Definition enqueued (k : kind) (p : Z) (s : state) : state :=
  mk_state (mk_sem (activity (sem s)) (wait_list (sem s) ++ [p])) (<[p := mk_waiter p (wflag k)]> (waiters s))
    (<[p := TASK_UNINTERRUPTIBLE]> (tstate s)) (wakes s).

Lemma granted_nil a s : granted a [] (wait_list (sem s)) s =
  mk_state (mk_sem a (wait_list (sem s))) (waiters s) (tstate s) (wakes s).
Proof. unfold granted. cbn. by rewrite app_nil_r. Qed.

Lemma down_run k p s : mk_down k p s = Some (if free_for k (sem s)
  then (true, granted (taken k (activity (sem s))) [] (wait_list (sem s)) s) else (false, enqueued k p s)).
Proof.
  destruct k; unfold mk_down, __down_read, __down_write, __down_write_nested, list_empty, get_sem, mbind, ST_bind, st_get, free_for;
    cbn -[Z.leb Z.eqb]; destruct (_ && _); cbn; by rewrite ?granted_nil.
Qed.

Lemma try_run k s : mk_try k s = Some (if free_for k (sem s)
  then (1, granted (taken k (activity (sem s))) [] (wait_list (sem s)) s) else (0, s)).
Proof.
  destruct k; unfold mk_try, __down_read_trylock, __down_write_trylock, list_empty, get_sem, mbind, ST_bind, st_get, free_for;
    cbn -[Z.leb Z.eqb]; destruct (_ && _); cbn; by rewrite ?granted_nil.
Qed.

Lemma inv_take k p s m : inv (mk_sys s m) -> m !! p = Some Idle -> free_for k (sem s) = true ->
  inv (mk_sys (granted (taken k (activity (sem s))) [] (wait_list (sem s)) s) (set_pc p (Hold k) m)).
Proof.
  intros Hi Hp Hf. unfold free_for in Hf. apply andb_true_iff in Hf as [Ha Hwl%bool_decide_eq_true].
  apply (inv_grant s m p (Hold k) Idle); try done; rewrite Hwl; [|done].
  destruct k; [apply (counts_down_read s)|apply (counts_down_write s)]; (done || lia).
Qed.

Lemma owns_enqueue k p wl m q k' : m !! p = Some Idle ->
  owns (wl ++ [p]) (set_pc p (Test k) m) q k' <-> owns wl m q k'.
Proof.
  intros Hp. unfold owns. rewrite waiting_insert. unfold set_pc. destruct (decide (q = p)) as [->|Hne].
  - rewrite lookup_insert_eq. unfold waiting. rewrite Hp. set_solver.
  - rewrite lookup_insert_ne by done. set_solver.
Qed.

Lemma inv_enqueue k p s m : inv (mk_sys s m) -> m !! p = Some Idle -> free_for k (sem s) = false ->
  inv (mk_sys (enqueued k p s) (set_pc p (Test k) m)).
Proof.
  intros [Hsz Hnull Hnd Hl Hw (R & W & HR & HW & Hc) Hh Hs] Hp Hf. simpl in *.
  assert (waiting m p = None) as Hwp by (unfold waiting; by rewrite Hp).
  assert (p ∉ wait_list (sem s)) as Hpl by (intros H; by apply (Hl p)).
  split; simpl.
  - unfold set_pc. rewrite map_size_insert_Some; [done|by eexists].
  - unfold set_pc. rewrite lookup_insert_ne; [done|]. intros ->. by rewrite Hnull in Hp.
  - apply NoDup_app. split; [done|]. split; [set_solver|apply NoDup_singleton].
  - intros q Hq. rewrite waiting_insert. case_decide as Hd; [done|]. apply Hl. set_solver.
  - intros q k'. rewrite waiting_insert. unfold waiter_ok. case_decide as Hd.
    + subst. intros [= <-]. left. rewrite lookup_insert_eq. set_solver.
    + intros Hk. rewrite lookup_insert_ne by done. destruct (Hw q k' Hk) as [[]|[]]; [left|right]; set_solver.
  - exists R, W. split; [|split; [|done]]; intros q; by rewrite owns_enqueue.
  - destruct (wait_list (sem s)) as [|q l] eqn:E; simpl.
    + unfold free_for in Hf. rewrite E, andb_true_r in Hf. rewrite waiting_insert, decide_True by done.
      destruct k; simpl; split; try done; lia.
    + destruct Hh as [H1 H2]. split; [done|]. intros Ha. rewrite waiting_insert, decide_False by set_solver. by apply H2.
  - intros q k'. unfold set_pc. destruct (decide (q = p)) as [->|Hne]; [by rewrite lookup_insert_eq|].
    rewrite !lookup_insert_ne by done. intros Hq Hr. apply (Hs q k'); [done|set_solver].
Qed.

(** Releasing code grants a front part of the queue and keeps the invariant. *)
Definition releases (mm : M unit) (s : state) (m : gmap Z pc) : Prop :=
  exists a gs rest, mm s = Some (tt, granted a gs rest s) /\ wait_list (sem s) = gs ++ rest /\
    inv (mk_sys (granted a gs rest s) m).

Lemma head_waiting s m p l : inv (mk_sys s m) -> wait_list (sem s) = p :: l -> exists k,
  waiting m p = Some k /\ waiters s !! p = Some (mk_waiter p (wflag k)).
Proof.
  intros Hi Hl. pose proof (i_listed _ Hi p) as H. simpl in H. rewrite Hl in H.
  destruct (waiting m p) as [k|] eqn:E; [|by destruct H; [left|]]. exists k. split; [done|].
  destruct (i_waiters _ Hi p k E) as [[_ Hw]|[Hn _]]; [done|]. simpl in Hn. rewrite Hl in Hn. set_solver.
Qed.

Lemma up_read_spec s m p : inv (mk_sys s m) -> m !! p = Some (Hold KR) ->
  releases __up_read s (set_pc p Idle m).
Proof.
  intros Hi Hp. destruct (counts_owner s m p Hi KR (or_introl Hp)) as (R & W & HR & HW & HpR & -> & Ha).
  assert (forall q, q ∈ R ∖ {[p]} <-> q = p /\ Idle = Hold KR \/ q <> p /\ owns (wait_list (sem s)) m q KR) as HB.
  { intros q. rewrite <- HR. set_solver. }
  assert (Z.of_nat (size (R ∖ {[p]})) = activity (sem s) - 1) as Hsz.
  { rewrite size_difference, size_singleton by set_solver.
    assert (size R <> 0%nat) by (intros H0; apply size_empty_inv in H0; set_solver). lia. }
  pose proof (counts_readers s m p Hi Idle (Hold KR) (R ∖ {[p]}) [] (wait_list (sem s)) Hp eq_refl eq_refl eq_refl
    (Forall_nil_2 _) HB) as Hcnt. rewrite Hsz, Z.add_0_r in Hcnt.
  specialize (Hcnt ltac:(intros q; rewrite <- HW; set_solver)).
  assert (s32 (activity (sem s) - 1) = activity (sem s) - 1) as Hs32.
  { apply s32_small. pose proof (owners_bound _ _ _ _ HR). pose proof (i_size _ Hi). simpl in *. lia. }
  unfold releases, __up_read. rewrite (bind_run _ _ _ _ _ (get_sem_run s)), (bind_run _ _ _ _ _ (set_activity_run _ _)),
    (bind_run _ _ _ _ _ (list_empty_run _)). cbn [granted sem wait_list]. rewrite Hs32 in *.
  destruct (wait_list (sem s)) as [|g l] eqn:Hl.
  - rewrite andb_false_r. exists (activity (sem s) - 1), [], []. split; [done|]. split; [done|].
    by apply (inv_grant s m p Idle (Hold KR)).
  - rewrite andb_true_r. destruct (Z.eqb_spec (activity (sem s) - 1) 0) as [H0|H0]; cbn [negb].
    + destruct (head_waiting s m g l Hi Hl) as (k & Hk & Hw). pose proof (i_head _ Hi) as Hh. simpl in Hh. rewrite Hl in Hh.
      destruct Hh as [_ Hh]. rewrite Hh in Hk by lia. injection Hk as <-.
      pose proof (i_nodup _ Hi) as Hnd. simpl in Hnd. rewrite Hl in Hnd.
      exists (-1), [g], l. split; [|split; [done|]].
      * unfold __rwsem_wake_one_writer. rewrite (bind_run _ _ _ _ _ (set_activity_run _ _)).
        erewrite bind_run by by apply (first_waiter_run g l).
        erewrite grant_run; [|done|done|exact Hw]. unfold granted. cbn. by rewrite !app_nil_r.
      * apply (inv_grant s m p Idle (Hold KR)); try done.
        -- apply (counts_writer s m p Hi (Hold KR) g l Hp eq_refl Hl); [by apply Hh; lia|].
           intros q k Hq Ho. rewrite Hl in Ho. destruct k; [|apply HW in Ho; set_solver].
           assert (q ∈ R ∖ {[p]}) as Hin by (apply HB; by right).
           apply (size_empty_inv (R ∖ {[p]})) in Hin; [done|lia].
        -- destruct l as [|q l]; [done|]. simpl. split; lia.
    + exists (activity (sem s) - 1), [], (g :: l). split; [done|]. split; [done|].
      apply (inv_grant s m p Idle (Hold KR)); try done. pose proof (i_head _ Hi) as Hh. simpl in Hh. rewrite Hl in Hh.
      destruct Hh as [_ Hh]. split; [done|]. intros _. apply Hh. lia.
Qed.

Lemma counts_nonzero a wl m q k : counts a wl m -> owns wl m q k -> a <> 0.
Proof.
  intros (R & W & HR & HW & [[-> ->]|(x & -> & -> & ->)]) Ho; [|done].
  destruct k; [|apply HW in Ho; set_solver]. apply HR in Ho. intros H0.
  apply (size_empty_inv R) in Ho; [done|lia].
Qed.

Lemma queue_kind s m q k : inv (mk_sys s m) -> q ∈ wait_list (sem s) ->
  waiters s !! q = Some (mk_waiter q (wflag k)) -> waiting m q = Some k.
Proof.
  intros Hi Hq Hw. destruct (waiting m q) as [k'|] eqn:E; [|by destruct (i_listed _ Hi q Hq)].
  f_equal. symmetry. by eapply kind_of.
Qed.

(** The end of a write lock: [p] moves to [c], and with [w] writers may be woken. *)
Section WriteRelease.
Context (s : state) (m : gmap Z pc) (p : Z) (w : bool) (c : pc) (B : gset Z) (a0 : Z).
Hypothesis Hi : inv (mk_sys s m).
Hypothesis Hp : m !! p = Some (Hold KW).
Hypothesis Hw : w = true /\ c = Idle /\ B = ∅ /\ a0 = 0 \/ w = false /\ c = Hold KR /\ B = {[p]} /\ a0 = 1.

Lemma only_writer q k : owns (wait_list (sem s)) m q k -> q = p /\ k = KW.
Proof using Hi Hp.
  clear Hw. destruct (counts_owner s m p Hi KW (or_introl Hp)) as (R & W & HR & HW & -> & -> & _).
  destruct k; intros Ho; [apply HR in Ho|apply HW in Ho]; set_solver.
Qed.

Lemma release_readers gs rest : wait_list (sem s) = gs ++ rest -> Forall (fun g => waiting m g = Some KR) gs ->
  counts (s32 (a0 + Z.of_nat (length gs))) rest (set_pc p c m).
Proof using Hi Hp Hw.
  intros Hl Hgs. pose proof only_writer as Hown.
  assert (Z.of_nat (size B) = a0) as <- by (destruct Hw as [(_ & _ & -> & ->)|(_ & _ & -> & ->)]; [done|by rewrite size_singleton]).
  apply (counts_readers s m p Hi c (Hold KW) B gs rest); try done.
  - by destruct Hw as [(_ & -> & _)|(_ & -> & _)].
  - intros q. specialize (Hown q KR). destruct Hw as [(_ & -> & -> & _)|(_ & -> & -> & _)]; naive_solver set_solver.
  - intros q. specialize (Hown q KW). destruct Hw as [(_ & -> & _)|(_ & -> & _)]; naive_solver.
Qed.

Lemma release_inv a gs rest : wake_outcome (waiters s) (wait_list (sem s)) a0 a gs rest ->
  (w = false -> exists q, q ∈ gs /\ waiters s !! q = Some (mk_waiter q (wflag KR))) ->
  inv (mk_sys (granted a gs rest s) (set_pc p c m)).
Proof using Hi Hp Hw.
  intros [Hl Ho] Hwf. assert (blocked c = None) as Hc by (by destruct Hw as [(_ & -> & _)|(_ & -> & _)]).
  destruct Ho as [(g & -> & Hg & ->)|(Hgs & (_ & Hrs & Hrest) & ->)].
  - destruct Hw as [(_ & -> & _)|(Hwf' & _)].
    2:{ destruct (Hwf Hwf') as (q & Hq & Hk). apply list_elem_of_singleton in Hq as ->. by rewrite Hg in Hk. }
    apply (inv_grant s m p Idle (Hold KW)); try done; [|destruct rest; [done|by split]].
    apply (counts_writer s m p Hi (Hold KW) g rest Hp eq_refl Hl); [eapply queue_kind; try done; rewrite Hl; set_solver|].
    intros q k Hq [? _]%only_writer. done.
  - assert (Forall (fun g => waiting m g = Some KR) gs) as Hk.
    { apply Forall_forall. intros g Hg. rewrite Forall_forall in Hrs.
      eapply queue_kind; [done|rewrite Hl; set_solver|by apply Hrs]. }
    pose proof (release_readers gs rest Hl Hk) as Hcnt. apply (inv_grant s m p c (Hold KW)); try done.
    destruct gs as [|g gs]; [done|]. apply Forall_cons in Hk as [Hk _].
    pose proof (i_nodup _ Hi) as Hnd. simpl in Hnd. rewrite Hl in Hnd.
    assert (g <> p) as Hgp by (intros ->; unfold waiting in Hk; by rewrite Hp in Hk).
    assert (owns rest (set_pc p c m) g KR) as Hog.
    { right. rewrite waiting_insert, decide_False by done. split; [done|]. apply NoDup_app in Hnd as (_ & Hd & _). set_solver. }
    pose proof (counts_nonzero _ _ _ _ _ Hcnt Hog). destruct rest as [|q rest]; [done|]. split; [done|].
    intros _. eapply queue_kind; [done|rewrite Hl; set_solver|done].
Qed.

Lemma write_release : releases (set_activity a0 ;; e ← list_empty; if negb e then __rwsem_do_wake w else mret tt)
  s (set_pc p c m).
Proof using Hi Hp Hw.
  unfold releases. rewrite (bind_run _ _ _ _ _ (set_activity_run _ _)), (bind_run _ _ _ _ _ (list_empty_run _)).
  cbn [granted sem wait_list]. pose proof (release_readers [] (wait_list (sem s)) eq_refl (Forall_nil_2 _)) as Hcnt.
  assert (s32 (a0 + Z.of_nat (length (@nil Z))) = a0) as Ha0 by (by destruct Hw as [(_ & _ & _ & ->)|(_ & _ & _ & ->)]).
  rewrite Ha0 in Hcnt. assert (blocked c = None) as Hc by (by destruct Hw as [(_ & -> & _)|(_ & -> & _)]).
  destruct (wait_list (sem s)) as [|g l] eqn:Hl.
  - exists a0, [], []. split; [done|]. split; [done|]. by apply (inv_grant s m p c (Hold KW)).
  - cbn [negb]. rewrite bool_decide_eq_false_2 by done. cbn [negb].
    assert (queue_ok (granted a0 [] (g :: l) s)) as Hq.
    { destruct (queue_ok_inv _ _ Hi) as [H1 H2]. rewrite Hl in H1, H2. done. }
    destruct (do_wake_run w g l (granted a0 [] (g :: l) s) eq_refl Hq) as (gs & rest & a & E & Ho).
    exists a, gs, rest. split; [rewrite E; unfold granted; cbn; by rewrite app_nil_r|].
    destruct Ho as [[Ho Hwf]|(-> & -> & -> & -> & Hg)]; cbn in *.
    + split; [by apply Ho|]. apply release_inv; [by rewrite Hl|done].
    + split; [done|]. apply (inv_grant s m p c (Hold KW)); try done.
      destruct Hw as [(? & _)|(_ & _ & _ & Ha)]; [done|]. split; [lia|]. intros _.
      eapply queue_kind; [done|rewrite Hl; set_solver|done].
Qed.
End WriteRelease.

(** ** The wait loop *)

Lemma owns_same wl m p c0 c q k : m !! p = Some c0 ->
  (forall k', owns wl (set_pc p c m) p k' <-> owns wl m p k') -> owns wl (set_pc p c m) q k <-> owns wl m q k.
Proof.
  intros Hp Hsame. destruct (decide (q = p)) as [->|Hne]; [apply Hsame|].
  unfold owns. rewrite waiting_insert, decide_False by done. unfold set_pc. by rewrite lookup_insert_ne.
Qed.

Lemma counts_same a wl m p c0 c : m !! p = Some c0 ->
  (forall k', owns wl (set_pc p c m) p k' <-> owns wl m p k') -> counts a wl m -> counts a wl (set_pc p c m).
Proof.
  intros Hp Hsame (R & W & HR & HW & Hc). exists R, W.
  split; [|split; [|done]]; intros q; by rewrite (owns_same _ _ _ c0).
Qed.

(** A blocked task moves inside the loop. *)
Lemma inv_loop k p s m c0 c ts : inv (mk_sys s m) -> m !! p = Some c0 -> blocked c0 = Some k ->
  blocked c = Some k -> (forall q, q <> p -> ts !! q = tstate s !! q) ->
  (forall k', c = Sched k' -> p ∈ wait_list (sem s)) ->
  inv (mk_sys (mk_state (sem s) (waiters s) ts (wakes s)) (set_pc p c m)).
Proof.
  intros [Hsz Hnull Hnd Hl Hw Hcnt Hh Hs] Hp Hc0 Hc Hts Hsched. simpl in *.
  assert (waiting m p = Some k) as Hwp by (unfold waiting; by rewrite Hp).
  assert (forall q, waiting (set_pc p c m) q = waiting m q) as Hwt.
  { intros q. rewrite waiting_insert. case_decide; [subst; by rewrite Hc|done]. }
  split; simpl; try setoid_rewrite Hwt; try done.
  - unfold set_pc. rewrite map_size_insert_Some; [done|by eexists].
  - unfold set_pc. rewrite lookup_insert_ne; [done|]. intros ->. by rewrite Hnull in Hp.
  - apply (counts_same _ _ _ _ c0); [done| |done]. intros k'. unfold owns. rewrite Hwt. unfold set_pc.
    rewrite lookup_insert_eq, Hp. destruct c0, c; simpl in *; naive_solver.
  - destruct (wait_list (sem s)); [done|]. simpl. by rewrite Hwt.
  - intros q k'. unfold set_pc. destruct (decide (q = p)) as [->|Hne].
    + rewrite lookup_insert_eq. intros [= ->]. intros Hn. by destruct (Hn (Hsched k' eq_refl)).
    + rewrite lookup_insert_ne, Hts by done. apply Hs.
Qed.

Lemma inv_break k p s m v : inv (mk_sys s m) -> m !! p = Some (Test k) -> waiters s !! p = Some v ->
  task v = NULL -> inv (mk_sys (leave p s) (set_pc p (Hold k) m)).
Proof.
  intros [Hsz Hnull Hnd Hl Hw Hcnt Hh Hs] Hp Hv Ht. simpl in *.
  assert (waiting m p = Some k) as Hwp by (unfold waiting; by rewrite Hp).
  assert (p <> NULL) as Hp0 by (intros ->; by rewrite Hnull in Hp).
  assert (p ∉ wait_list (sem s)) as Hpl.
  { destruct (Hw p k Hwp) as [[_ H]|[H _]]; [|done]. rewrite Hv in H. injection H as ->. by simpl in Ht. }
  split; simpl.
  - unfold set_pc. rewrite map_size_insert_Some; [done|by eexists].
  - unfold set_pc. by rewrite lookup_insert_ne.
  - done.
  - intros q Hq. rewrite waiting_insert, decide_False by set_solver. by apply Hl.
  - intros q k'. rewrite waiting_insert. case_decide as Hd; [done|]. intros Hk.
    unfold waiter_ok. rewrite lookup_delete_ne by done. by apply Hw.
  - apply (counts_same _ _ _ _ (Test k)); [done| |done]. intros k'. unfold owns. rewrite waiting_insert, decide_True by done.
    unfold set_pc. rewrite lookup_insert_eq, Hp, Hwp. simpl. naive_solver.
  - destruct (wait_list (sem s)) as [|q l]; [done|]. destruct Hh as [H1 H2]. split; [done|].
    rewrite waiting_insert, decide_False by set_solver. done.
  - intros q k'. unfold set_pc. destruct (decide (q = p)) as [->|Hne]; [by rewrite lookup_insert_eq|].
    rewrite !lookup_insert_ne by done. apply Hs.
Qed.

Lemma inv_wake p w1 w2 s m : inv (mk_sys s m) -> wakes s = w1 ++ p :: w2 ->
  inv (mk_sys (mk_state (sem s) (waiters s) (<[p := TASK_RUNNING]> (tstate s)) (w1 ++ w2)) m).
Proof.
  intros [Hsz Hnull Hnd Hl Hw Hcnt Hh Hs] Hwk. split; simpl in *; try done.
  intros q k Hq Hn. destruct (decide (q = p)) as [->|Hne]; [left; by rewrite lookup_insert_eq|].
  rewrite lookup_insert_ne by done. destruct (Hs q k Hq Hn) as [|H]; [by left|right].
  rewrite Hwk in H. set_solver.
Qed.

Lemma releases_inv mm s m s' : releases mm s m -> mm s = Some (tt, s') -> inv (mk_sys s' m).
Proof. intros (a & gs & rest & E & _ & Hi). rewrite E. by intros [= <-]. Qed.

Lemma up_spec k p s m : inv (mk_sys s m) -> m !! p = Some (Hold k) -> releases (mk_up k) s (set_pc p Idle m).
Proof.
  intros Hi Hp. destruct k; [by apply up_read_spec|].
  apply (write_release s m p true Idle ∅ 0); try done. left. done.
Qed.

Lemma downgrade_spec p s m : inv (mk_sys s m) -> m !! p = Some (Hold KW) ->
  releases __downgrade_write s (set_pc p (Hold KR) m).
Proof. intros Hi Hp. apply (write_release s m p false (Hold KR) {[p]} 1); try done. right. done. Qed.

Lemma sys_step_inv x y : inv x -> sys_step x y -> inv y.
Proof.
  intros Hi Hst. destruct Hst as [k p s m g s' Hp E|k p s m r s' Hp E|k p s m s' Hp E|p s m s' Hp E|
    k p s m v Hp Hv Ht|k p s m v Hp Hv Ht|k p s m Hp Ht|k p s m Hp|p w1 w2 s m Hwk].
  - rewrite down_run in E. destruct (free_for k (sem s)) eqn:Ef; injection E as <- <-; [by apply inv_take|by apply inv_enqueue].
  - rewrite try_run in E. destruct (free_for k (sem s)) eqn:Ef; injection E as <- <-; [by apply inv_take|].
    unfold set_pc, after_try. simpl. by rewrite insert_id.
  - by eapply releases_inv; [apply up_spec|].
  - by eapply releases_inv; [apply downgrade_spec|].
  - by eapply inv_break.
  - assert (inv (mk_sys (mk_state (sem s) (waiters s) (tstate s) (wakes s)) (set_pc p (Sched k) m))) as H; [|by destruct s].
    apply (inv_loop k p s m (Test k)); try done. intros k' _.
    destruct (i_waiters _ Hi p k) as [[H _]|[_ H]]; [unfold waiting; simpl; by rewrite Hp|done|].
    simpl in H. rewrite Hv in H. injection H as ->. done.
  - assert (inv (mk_sys (mk_state (sem s) (waiters s) (tstate s) (wakes s)) (set_pc p (SetState k) m))) as H; [|by destruct s].
    by apply (inv_loop k p s m (Sched k)).
  - apply (inv_loop k p s m (SetState k)); try done. intros q Hq. by rewrite lookup_insert_ne.
  - by apply inv_wake.
Qed.

Lemma list_to_map_size {A} (l : list (Z * A)) : (size (list_to_map l : gmap Z A) <= length l)%nat.
Proof.
  induction l as [|[p c] l IH]; [done|]. cbn [list_to_map length]. simpl. rewrite map_size_insert.
  destruct (_ !! p); simpl; lia.
Qed.

Lemma init_inv tasks : NULL ∉ tasks -> Z.of_nat (length tasks) < 2 ^ 31 -> inv (initial tasks).
Proof.
  intros Hnull Hlen.
  assert (forall p c, (list_to_map ((fun p => (p, Idle)) <$> tasks) : gmap Z pc) !! p = Some c -> p ∈ tasks /\ c = Idle) as Hm.
  { intros p c Hc. apply elem_of_list_to_map_2, list_elem_of_fmap in Hc as (q & [= -> ->] & Hq). done. }
  assert (forall wl p k, ~ owns wl (pcs (initial tasks)) p k) as Ho.
  { intros wl p k [H|[H _]]; [by apply Hm in H as [_ ?]|]. unfold waiting in H. simpl in H.
    destruct (list_to_map _ !! p) as [c|] eqn:E; [|done]. apply Hm in E as [_ ->]. done. }
  split; simpl; try done.
  - pose proof (list_to_map_size ((fun p => (p, Idle)) <$> tasks)) as H. rewrite length_fmap in H. lia.
  - destruct (list_to_map _ !! NULL) as [c|] eqn:E; [|done]. by apply Hm in E as [? _].
  - constructor.
  - intros p H. set_solver.
  - intros p k H. destruct (Ho [] p k). right. split; [done|set_solver].
  - exists ∅, ∅. split; [|split; [|left; done]]; intros p; (split; [set_solver|intros H; by destruct (Ho _ _ _ H)]).
  - intros p k H. apply Hm in H as [_ ?]. done.
Qed.

Lemma sys_reachable_inv tasks x : NULL ∉ tasks -> Z.of_nat (length tasks) < 2 ^ 31 -> reachable tasks x -> inv x.
Proof. intros H1 H2. induction 1; [by apply init_inv|by eapply sys_step_inv]. Qed.

(** ** What the semaphore promises *)

(** C1: while a task holds the semaphore for writing no other task holds it,
    for reading or writing, in any state any interleaving of any number of
    tasks reaches. *)
Theorem rwsem_exclusion tasks x p q k : NULL ∉ tasks -> Z.of_nat (length tasks) < 2 ^ 31 ->
  reachable tasks x -> pcs x !! p = Some (Hold KW) -> pcs x !! q = Some (Hold k) -> q = p.
Proof.
  intros Hn Hl Hr Hp Hq. apply sys_reachable_inv in Hr; [|done..]. destruct x as [s m].
  by destruct (only_writer s m p Hr Hp q k (or_introl Hq)).
Qed.

(** C2: in every reachable state no operation that a task may call faults, and
    no wake-up is lost: a task is queued only while another one holds the
    semaphore or has been granted it, and a granted task that sleeps has been
    made runnable or has its wake-up under way. *)
Theorem rwsem_progress tasks x : NULL ∉ tasks -> Z.of_nat (length tasks) < 2 ^ 31 -> reachable tasks x ->
  (forall p k, pcs x !! p = Some (Hold k) -> exists s', mk_up k (st x) = Some (tt, s')) /\
  (forall p, pcs x !! p = Some (Hold KW) -> exists s', __downgrade_write (st x) = Some (tt, s')) /\
  (forall p k, waiting (pcs x) p = Some k -> exists v, waiters (st x) !! p = Some v /\
    (task v <> NULL -> exists q k', owns (wait_list (sem (st x))) (pcs x) q k') /\
    (task v = NULL -> forall k', pcs x !! p = Some (Sched k') ->
       tstate (st x) !! p = Some TASK_RUNNING \/ p ∈ wakes (st x))).
Proof.
  intros Hn Hl Hr. apply sys_reachable_inv in Hr; [|done..]. destruct x as [s m]. simpl. split; [|split].
  - intros p k Hp. destruct (up_spec k p s m Hr Hp) as (a & gs & rest & E & _). by eexists.
  - intros p Hp. destruct (downgrade_spec p s m Hr Hp) as (a & gs & rest & E & _). by eexists.
  - intros p k Hp. destruct (i_waiters _ Hr p k Hp) as [[Hin Hw]|[Hin Hw]]; simpl in *; eexists; (split; [exact Hw|]).
    + pose proof (i_null _ Hr) as H0. simpl in H0.
      split; [|intros Hz; simpl in Hz; subst; unfold waiting in Hp; by rewrite H0 in Hp].
      intros _. pose proof (i_head _ Hr) as Hh. simpl in Hh. destruct (wait_list (sem s)) eqn:E; [set_solver|].
      destruct Hh as [Ha _]. destruct (i_counts _ Hr) as (R & W & HR & HW & Hc). simpl in *. rewrite E in *.
      destruct Hc as [[-> Hc]|(q & -> & _)]; [|exists q, KW; apply HW; set_solver].
      destruct (set_choose_or_empty R) as [[q Hq]|HR0]; [exists q, KR; by apply HR|].
      apply leibniz_equiv in HR0. subst. by rewrite size_empty in Hc.
    + split; [done|]. intros _ k' Hk. by apply (i_sleep _ Hr p k').
Qed.

Lemma owns_granted a gs rest s m p c c0 q k : inv (mk_sys s m) -> m !! p = Some c0 -> blocked c0 = None ->
  blocked c = None -> wait_list (sem s) = gs ++ rest ->
  owns (wait_list (sem (granted a gs rest s))) (set_pc p c m) q k ->
  q = p /\ c = Hold k \/ owns (wait_list (sem s)) m q k \/ q ∈ gs.
Proof.
  intros Hi Hp Hc0 Hc Hl Ho. pose proof (i_nodup _ Hi) as Hnd. pose proof (i_listed _ Hi) as Hls. simpl in *. rewrite Hl in *.
  assert (waiting m p = None) as Hwp by (unfold waiting; by rewrite Hp).
  apply (owns_grant gs) in Ho; [naive_solver|done|done| |done]. intros Hpl. by apply (Hls p).
Qed.

Lemma owns_take wl m p k c q k' : m !! p = Some c -> blocked c = None -> owns wl (set_pc p (Hold k) m) q k' ->
  q = p \/ owns wl m q k'.
Proof.
  intros Hp Hc. unfold owns. rewrite waiting_insert. unfold set_pc.
  destruct (decide (q = p)) as [->|Hne]; [by left|]. rewrite lookup_insert_ne by done. tauto.
Qed.

(** A step in the order of the queue: the tasks [gs] leave it from its front, and each owns
    the semaphore as it had asked; at most one task joins at the back, which had not
    been queued; any other task that becomes an owner found the queue empty. *)
Definition served (x y : sys) : Prop :=
  exists gs rest new, wait_list (sem (st x)) = gs ++ rest /\ wait_list (sem (st y)) = rest ++ new /\
    (forall q, q ∈ gs -> exists k, waiting (pcs x) q = Some k /\ owns (wait_list (sem (st y))) (pcs y) q k) /\
    (new = [] \/ exists p k, new = [p] /\ pcs x !! p = Some Idle /\ waiting (pcs y) p = Some k) /\
    (forall q k, owns (wait_list (sem (st y))) (pcs y) q k ->
      (exists k', owns (wait_list (sem (st x))) (pcs x) q k') \/ q ∈ gs \/ wait_list (sem (st x)) = []).

Lemma served_same s s' m p c0 c : m !! p = Some c0 -> sem s' = sem s ->
  (forall k', owns (wait_list (sem s)) (set_pc p c m) p k' -> owns (wait_list (sem s)) m p k') ->
  served (mk_sys s m) (mk_sys s' (set_pc p c m)).
Proof.
  intros Hp Hsem Hs. exists [], (wait_list (sem s)), []. simpl. rewrite app_nil_r, Hsem.
  do 2 (split; [done|]). split; [by intros q ?%elem_of_nil|]. split; [by left|]. intros q k Ho. left. exists k. destruct (decide (q = p)) as [->|Hne]; [by apply Hs|].
  unfold owns in *. rewrite waiting_insert, decide_False in Ho by done. unfold set_pc in Ho.
  by rewrite lookup_insert_ne in Ho.
Qed.

Lemma served_take k p s m : free_for k (sem s) = true ->
  served (mk_sys s m) (mk_sys (granted (taken k (activity (sem s))) [] (wait_list (sem s)) s) (set_pc p (Hold k) m)).
Proof.
  intros [_ Hwl%bool_decide_eq_true]%andb_true_iff. exists [], [], []. simpl. rewrite Hwl. do 2 (split; [done|]). split; [by intros q ?%elem_of_nil|]. auto.
Qed.

Lemma served_release mm s m p c c0 s' : inv (mk_sys s m) -> m !! p = Some c0 -> blocked c0 = None ->
  blocked c = None -> (c <> Idle -> exists k, c0 = Hold k) -> releases mm s (set_pc p c m) ->
  mm s = Some (tt, s') -> served (mk_sys s m) (mk_sys s' (set_pc p c m)).
Proof.
  intros Hi Hp Hc0 Hc Hown (a & gs & rest & E & Hwl & _) E'. rewrite E in E'. injection E' as <-.
  exists gs, rest, []. simpl. rewrite app_nil_r. do 2 (split; [done|]). split; [|split; [by left|]].
  - intros q Hq. pose proof (i_listed _ Hi q) as Hl. pose proof (i_nodup _ Hi) as Hnd. simpl in *. rewrite Hwl in *. apply NoDup_app in Hnd as (_ & Hd & _).
    destruct (waiting m q) as [k|] eqn:Hk; [|by destruct Hl; [set_solver|]]. exists k. split; [done|]. right.
    rewrite waiting_insert, decide_False; [split; [done|by apply Hd]|]. intros ->. unfold waiting in Hk. rewrite Hp in Hk. simpl in Hk. congruence.
  - intros q k' Ho. destruct (owns_granted a gs rest _ _ _ _ _ _ _ Hi Hp Hc0 Hc Hwl Ho) as [[-> ->]|[?|?]]; [|eauto|eauto].
    left. destruct Hown as [k ->]; [done|]. exists k. by left.
Qed.

Lemma served_break k p s m v : inv (mk_sys s m) -> m !! p = Some (Test k) -> waiters s !! p = Some v ->
  task v = NULL -> served (mk_sys s m) (mk_sys (leave p s) (set_pc p (Hold k) m)).
Proof.
  intros Hi Hp Hv Ht. apply (served_same s _ m p (Test k)); [done|done|]. intros k' Ho. assert (k' = k) as ->.
  { unfold owns in Ho. rewrite waiting_insert, decide_True in Ho by done. unfold set_pc in Ho.
    rewrite lookup_insert_eq in Ho. naive_solver. }
  right. assert (waiting m p = Some k) as Hwp by (unfold waiting; by rewrite Hp). split; [done|].
  destruct (i_waiters _ Hi p k Hwp) as [[_ H]|[H _]]; [|done]. simpl in H. rewrite Hv in H. injection H as ->.
  simpl in Ht. subst. pose proof (i_null _ Hi) as H. simpl in H. congruence.
Qed.

Lemma served_step x y : inv x -> sys_step x y -> served x y.
Proof.
  intros Hr Hst. destruct Hst as [k p s m g s' Hp E|k p s m r s' Hp E|k p s m s' Hp E|p s m s' Hp E|
    k p s m v Hp Hv Ht|k p s m v Hp Hv Ht|k p s m Hp Ht|k p s m Hp|p w1 w2 s m Hwk].
  - rewrite down_run in E. destruct (free_for k (sem s)) eqn:Ef; injection E as <- <-; [by apply served_take|].
    exists [], (wait_list (sem s)), [p]. do 2 (split; [done|]). split; [by intros q ?%elem_of_nil|].
    split; [right; exists p, k; simpl; by rewrite waiting_insert, decide_True by done|]. intros q k' Ho. left. exists k'.
    simpl in Ho. by apply (owns_enqueue k p _ m) in Ho.
  - rewrite try_run in E. destruct (free_for k (sem s)) eqn:Ef; injection E as <- <-; [by apply served_take|].
    apply (served_same s s m p Idle); [done|done|]. intros k'. unfold after_try, set_pc. simpl. by rewrite insert_id.
  - by eapply served_release; [..|apply up_spec|].
  - eapply served_release; [..|by apply downgrade_spec|]; try done. eauto.
  - by eapply served_break.
  - apply (served_same s s m p (Test k)); [done|done|]. intros k'. unfold owns, waiting, set_pc. rewrite lookup_insert_eq, Hp. naive_solver.
  - apply (served_same s s m p (Sched k)); [done|done|]. intros k'. unfold owns, waiting, set_pc. rewrite lookup_insert_eq, Hp. naive_solver.
  - eapply (served_same s _ m p (SetState k)); [done|done|]. intros k'. unfold owns, waiting, set_pc. rewrite lookup_insert_eq, Hp. naive_solver.
  - exists [], (wait_list (sem s)), []. simpl. rewrite app_nil_r. do 2 (split; [done|]). split; [by intros q ?%elem_of_nil|]. split; [by left|]. eauto.
Qed.

(** [p] is queued ahead of [q]. *)
Definition ahead (p q : Z) (x : sys) : Prop := exists l1 l2 l3, wait_list (sem (st x)) = l1 ++ p :: l2 ++ q :: l3.

Lemma ahead_step p q x y : inv y -> served x y -> ahead p q x -> p ∈ wait_list (sem (st y)) -> ahead p q y.
Proof.
  intros Hi (gs & rest & new & Ex & Ey & Hgs & _) (l1 & l2 & l3 & E) Hp. rewrite Ex in E. assert (p ∉ gs) as Hpg.
  { intros Hg. destruct (Hgs p Hg) as (k & _ & [Ho|[_ Ho]]); [|done]. apply (i_listed _ Hi) in Hp. unfold waiting in Hp. by rewrite Ho in Hp. }
  apply app_eq_app in E as (l & [[-> E]|[-> E]]).
  - destruct l as [|z l]; simpl in E; [|injection E as <- _; set_solver]. exists [], l2, (l3 ++ new). rewrite Ey, <- E. simpl. by rewrite <- app_assoc.
  - exists l, l2, (l3 ++ new). rewrite Ey, E, <- app_assoc. simpl. by rewrite <- app_assoc.
Qed.

(** Writers are not starved by readers: only a writer heads the queue while readers own
    the semaphore. *)
Lemma head_writer x p q l : inv x -> owns (wait_list (sem (st x))) (pcs x) p KR -> wait_list (sem (st x)) = q :: l -> waiting (pcs x) q = Some KW.
Proof.
  intros Hi Ho Hl. pose proof (i_head _ Hi) as Hh. rewrite Hl in Hh. destruct Hh as [Ha Hh]. apply Hh. destruct (i_counts _ Hi) as (R & W & HR & _ & [[_ Hc]|(w & _ & -> & _)]); [lia|]. apply HR in Ho. set_solver.
Qed.

(** C3: the queue is first come, first served.  In every step tasks leave the queue only
    from its front, as owners of the kind they asked for, and at most one task joins, at
    the back, which was not queued before; a task that becomes an owner comes from that
    front or found the queue empty.  So, in every execution, of two queued tasks the one
    in front stays in front as long as it waits: it is never overtaken.  While readers
    own the semaphore a writer heads the queue, so that waiting readers are let in
    together, up to the next writer. *)
Theorem rwsem_fifo tasks x : NULL ∉ tasks -> Z.of_nat (length tasks) < 2 ^ 31 -> reachable tasks x ->
  (forall y, sys_step x y -> exists gs rest new,
    wait_list (sem (st x)) = gs ++ rest /\ wait_list (sem (st y)) = rest ++ new /\
    (forall q, q ∈ gs -> exists k, waiting (pcs x) q = Some k /\ owns (wait_list (sem (st y))) (pcs y) q k) /\
    (new = [] \/ exists p k, new = [p] /\ pcs x !! p = Some Idle /\ waiting (pcs y) p = Some k) /\
    (forall q k, owns (wait_list (sem (st y))) (pcs y) q k ->
      (exists k', owns (wait_list (sem (st x))) (pcs x) q k') \/ q ∈ gs \/ wait_list (sem (st x)) = [])) /\
  (forall p q y, ahead p q x -> rtc (fun a b => sys_step a b /\ p ∈ wait_list (sem (st b))) x y -> ahead p q y) /\
  (forall p q l, owns (wait_list (sem (st x))) (pcs x) p KR -> wait_list (sem (st x)) = q :: l -> waiting (pcs x) q = Some KW).
Proof.
  intros Hn Hl Hr. apply sys_reachable_inv in Hr; [|done..]. split; [intros y; by apply served_step|]. split; [|intros p q l; by apply head_writer].
  intros p q y Ha Hst. revert Hr Ha. induction Hst as [|a b c [Hab Hp] _ IH]; [done|]. intros Hi Ha. assert (inv b) as Hb by (by eapply sys_step_inv). apply IH; [done|]. apply (ahead_step p q a b Hb); [by apply served_step|done|done].
Qed.

(** Task 4 takes the semaphore for writing and task 8 queues for reading. *)
Definition contended : sys :=
  let x := initial [4; 8] in
  let s := granted (-1) [] [] (st x) in
  mk_sys (enqueued KR 8 s) (set_pc 8 (Test KR) (set_pc 4 (Hold KW) (pcs x))).

Lemma contended_reachable : reachable [4; 8] contended.
Proof.
  eapply r_step; [eapply r_step; [apply r_init|]|].
  - apply (s_down KW 4 _ _ true (granted (-1) [] [] (st (initial [4; 8])))); [done|].
    by rewrite down_run.
  - apply (s_down KR 8 _ _ false (enqueued KR 8 (granted (-1) [] [] (st (initial [4; 8]))))); [done|].
    by rewrite down_run.
Qed.

Lemma rwsem_exclusion_witness : pcs contended !! 4 = Some (Hold KW) /\
  forall q k, pcs contended !! q = Some (Hold k) -> q = 4.
Proof.
  split; [done|]. intros q k. apply (rwsem_exclusion [4; 8] contended 4); [set_solver|done|apply contended_reachable|done].
Defined.

Lemma rwsem_progress_witness : exists s', __up_write (st contended) = Some (tt, s').
Proof.
  apply (proj1 (rwsem_progress [4; 8] contended ltac:(set_solver) ltac:(done) contended_reachable) 4 KW). done.
Defined.

Lemma rwsem_fifo_witness : exists s', __up_write (st contended) = Some (tt, s') /\
  exists gs rest new, wait_list (sem (st contended)) = gs ++ rest /\ wait_list (sem s') = rest ++ new.
Proof.
  destruct (rwsem_fifo [4; 8] contended ltac:(set_solver) ltac:(done) contended_reachable) as [H _]. eexists. split; [vm_compute; reflexivity|].
  destruct (H (mk_sys _ (set_pc 4 Idle (pcs contended))) (s_up KW 4 (st contended) (pcs contended) _ eq_refl eq_refl)) as (gs & rest & new & H1 & H2 & _). by exists gs, rest, new.
Defined.

End RwSem.
