(* ===== verification/CipherBase.v ===== *)
(** * Block ciphers: bytes, words and the interface the modes rely on

    Loading and storing 32-bit words in either byte order, rotation, and the
    class [BlockCipher] that states what a cipher promises to the modes of
    operation ([crypto/cipher.c] and the [cia_*] operations). *)

From S2P Require Import Prelude.

Module CipherBase.

Definition EINVAL : Z := 22.

(** ** Words in memory *)

(** [le32_to_cpu] and [be32_to_cpu] of the word at byte offset [4 * i]. *)
Definition le32 (m : list Z) (i : nat) : option Z :=
  b0 ← m !! (4 * i)%nat; b1 ← m !! (4 * i + 1)%nat; b2 ← m !! (4 * i + 2)%nat; b3 ← m !! (4 * i + 3)%nat;
  Some (Z.lor b0 (Z.lor (Z.shiftl b1 8) (Z.lor (Z.shiftl b2 16) (Z.shiftl b3 24)))).

Definition be32 (m : list Z) (i : nat) : option Z :=
  b0 ← m !! (4 * i)%nat; b1 ← m !! (4 * i + 1)%nat; b2 ← m !! (4 * i + 2)%nat; b3 ← m !! (4 * i + 3)%nat;
  Some (Z.lor b3 (Z.lor (Z.shiftl b2 8) (Z.lor (Z.shiftl b1 16) (Z.shiftl b0 24)))).

(** The bytes of [cpu_to_le32] and [cpu_to_be32]. *)
Definition le32_bytes (x : Z) : list Z :=
  [Z.land x 0xff; Z.land (Z.shiftr x 8) 0xff; Z.land (Z.shiftr x 16) 0xff; Z.land (Z.shiftr x 24) 0xff].
Definition be32_bytes (x : Z) : list Z :=
  [Z.land (Z.shiftr x 24) 0xff; Z.land (Z.shiftr x 16) 0xff; Z.land (Z.shiftr x 8) 0xff; Z.land x 0xff].

(** [rol32] of [include/linux/bitops.h]; the shift amounts are taken from a
    register, whose low byte an ARM shift uses: 32 and more give 0. *)
Definition shl32 (w s : Z) : Z := u32 (Z.shiftl w (Z.land s 0xff)).
Definition shr32 (w s : Z) : Z := Z.shiftr w (Z.land s 0xff).
Definition rol32 (word shift : Z) : Z := Z.lor (shl32 word shift) (shr32 word (u32 (32 - shift))).

Definition bytes (l : list Z) : Prop := Forall is_u8 l.

(** ** Counted loops *)

(** [for (i = i0; ...)] over a list of index values. *)
Fixpoint for_each {A} (ixs : list Z) (body : Z -> A -> option A) (a : A) : option A :=
  match ixs with
  | [] => Some a
  | i :: ixs => a ← body i a; for_each ixs body a
  end.

Definition upto (n : nat) : list Z := Z.of_nat <$> seq 0 n.

Lemma for_each_inv {A} (P : A -> Prop) ixs body : forall a, P a ->
  (forall i a, i ∈ ixs -> P a -> exists a', body i a = Some a' /\ P a') ->
  exists a', for_each ixs body a = Some a' /\ P a'.
Proof.
  induction ixs as [|i ixs IH]; intros a Ha Hb; [by exists a|].
  destruct (Hb i a) as (a1 & E & Ha1); [by left|done|]. destruct (IH a1 Ha1) as (a' & E' & Ha').
  { intros j x Hj. apply Hb. by right. }
  exists a'. cbn [for_each]. by rewrite E.
Qed.

Lemma elem_of_upto i n : i ∈ upto n -> 0 <= i < Z.of_nat n.
Proof. unfold upto. intros (k & -> & Hk)%list_elem_of_fmap. apply elem_of_seq in Hk. lia. Qed.

(** ** Lemmas on words and bytes *)

Lemma land_low_shift a b k : 0 <= k -> 0 <= a < 2 ^ k -> Z.land a (Z.shiftl b k) = 0.
Proof.
  intros Hk Ha. apply Z.bits_inj'. intros i Hi. rewrite Z.land_spec, Z.shiftl_spec, Z.bits_0 by lia.
  destruct (decide (i < k)).
  - rewrite (Z.testbit_neg_r _ (i - k)) by lia. apply andb_false_r.
  - rewrite (testbit_high a k) by lia. done.
Qed.

Lemma lor_shift_add a b k : 0 <= k -> 0 <= a < 2 ^ k -> Z.lor a (Z.shiftl b k) = a + 2 ^ k * b.
Proof.
  intros Hk Ha. pose proof (Z.add_lor_land a (Z.shiftl b k)) as H.
  rewrite land_low_shift, Z.shiftl_mul_pow2 in * by lia. lia.
Qed.

(** Four bytes as one number. *)
Lemma lor_bytes b0 b1 b2 b3 : is_u8 b0 -> is_u8 b1 -> is_u8 b2 -> is_u8 b3 ->
  Z.lor b0 (Z.lor (Z.shiftl b1 8) (Z.lor (Z.shiftl b2 16) (Z.shiftl b3 24))) =
  b0 + 2 ^ 8 * b1 + 2 ^ 16 * b2 + 2 ^ 24 * b3.
Proof.
  unfold is_u8. intros H0 H1 H2 H3.
  replace (Z.shiftl b3 24) with (Z.shiftl (Z.shiftl b3 8) 16) by (rewrite Z.shiftl_shiftl by lia; done).
  rewrite <- Z.shiftl_lor. replace 16 with (8 + 8) at 1 by lia. rewrite <- Z.shiftl_shiftl, <- Z.shiftl_lor by lia.
  rewrite !lor_shift_add by lia. lia.
Qed.

Lemma word_bytes x : is_u32 x ->
  x = x mod 2 ^ 8 + 2 ^ 8 * ((x / 2 ^ 8) mod 2 ^ 8) + 2 ^ 16 * ((x / 2 ^ 16) mod 2 ^ 8) +
      2 ^ 24 * ((x / 2 ^ 24) mod 2 ^ 8).
Proof.
  unfold is_u32. intros Hx. rewrite (Z.mod_small (x / 2 ^ 24)) by (split; [apply Z.div_pos|apply Z.div_lt_upper_bound]; lia).
  change (2 ^ 24) with (2 ^ 8 * 2 ^ 16). change (2 ^ 16) with (2 ^ 8 * 2 ^ 8).
  rewrite <- !Z.div_div by lia.
  pose proof (Z.div_mod x (2 ^ 8)). pose proof (Z.div_mod (x / 2 ^ 8) (2 ^ 8)).
  pose proof (Z.div_mod (x / 2 ^ 8 / 2 ^ 8) (2 ^ 8)). lia.
Qed.

Lemma land_ff x : Z.land x 0xff = x mod 2 ^ 8.
Proof. apply (Z.land_ones x 8). lia. Qed.

Lemma byte_land x : is_u8 (Z.land x 0xff).
Proof. rewrite land_ff. unfold is_u8. apply Z.mod_pos_bound. lia. Qed.

Lemma le32_bytes_ok x : bytes (le32_bytes x).
Proof. repeat constructor; apply byte_land. Qed.

Lemma be32_bytes_ok x : bytes (be32_bytes x).
Proof. repeat constructor; apply byte_land. Qed.

Lemma le32_le32_bytes x : is_u32 x ->
  Z.lor (Z.land x 0xff) (Z.lor (Z.shiftl (Z.land (Z.shiftr x 8) 0xff) 8)
    (Z.lor (Z.shiftl (Z.land (Z.shiftr x 16) 0xff) 16) (Z.shiftl (Z.land (Z.shiftr x 24) 0xff) 24))) = x.
Proof.
  intros Hx. rewrite lor_bytes by apply byte_land. rewrite !land_ff, !Z.shiftr_div_pow2 by lia.
  symmetry. by apply word_bytes.
Qed.

(** Storing words and loading them back. *)
Lemma le32_app_l m m' i : (4 * i + 4 <= length m)%nat -> le32 (m ++ m') i = le32 m i.
Proof. intros H. unfold le32. by rewrite !lookup_app_l by lia. Qed.
Lemma be32_app_l m m' i : (4 * i + 4 <= length m)%nat -> be32 (m ++ m') i = be32 m i.
Proof. intros H. unfold be32. by rewrite !lookup_app_l by lia. Qed.

Lemma le32_cons x m i : le32 (le32_bytes x ++ m) (S i) = le32 m i.
Proof.
  unfold le32. replace (4 * S i)%nat with (4 + 4 * i)%nat by lia. simpl. by rewrite <- !Nat.add_assoc.
Qed.
Lemma be32_cons x m i : be32 (be32_bytes x ++ m) (S i) = be32 m i.
Proof.
  unfold be32. replace (4 * S i)%nat with (4 + 4 * i)%nat by lia. simpl. by rewrite <- !Nat.add_assoc.
Qed.

Lemma le32_head x m : is_u32 x -> le32 (le32_bytes x ++ m) 0 = Some x.
Proof. intros Hx. unfold le32. simpl. f_equal. by apply le32_le32_bytes. Qed.
Lemma be32_head x m : is_u32 x -> be32 (be32_bytes x ++ m) 0 = Some x.
Proof. intros Hx. unfold be32. simpl. f_equal. by apply le32_le32_bytes. Qed.

(** Splitting a byte string into words. *)
Lemma land_bytes b0 b1 b2 b3 : is_u8 b0 -> is_u8 b1 -> is_u8 b2 -> is_u8 b3 ->
  let x := Z.lor b0 (Z.lor (Z.shiftl b1 8) (Z.lor (Z.shiftl b2 16) (Z.shiftl b3 24))) in
  is_u32 x /\ le32_bytes x = [b0; b1; b2; b3].
Proof.
  intros H0 H1 H2 H3 x. unfold x. rewrite lor_bytes by done. unfold is_u8, is_u32, le32_bytes in *.
  split; [lia|]. rewrite !land_ff, !Z.shiftr_div_pow2 by lia.
  assert (forall a b, 0 <= a < 2 ^ 8 -> (a + 2 ^ 8 * b) mod 2 ^ 8 = a /\ (a + 2 ^ 8 * b) / 2 ^ 8 = b) as Hd.
  { intros a b Ha. rewrite (Z.mul_comm (2 ^ 8)), Z.mod_add, Z.div_add, Z.mod_small, Z.div_small by lia. lia. }
  change (2 ^ 24) with (2 ^ 8 * 2 ^ 16). change (2 ^ 16) with (2 ^ 8 * 2 ^ 8). rewrite <- !Z.div_div by lia.
  replace (b0 + 2 ^ 8 * b1 + 2 ^ 8 * 2 ^ 8 * b2 + 2 ^ 8 * (2 ^ 8 * 2 ^ 8) * b3)
    with (b0 + 2 ^ 8 * (b1 + 2 ^ 8 * (b2 + 2 ^ 8 * b3))) by lia.
  rewrite !(proj2 (Hd b0 _ H0)), !(proj2 (Hd b1 _ H1)), !(proj2 (Hd b2 _ H2)),
    !(proj1 (Hd b0 _ H0)), !(proj1 (Hd b1 _ H1)), !(proj1 (Hd b2 _ H2)).
  rewrite (Z.mod_small b3) by lia. done.
Qed.

Lemma le32_split b0 b1 b2 b3 m : bytes (b0 :: b1 :: b2 :: b3 :: m) ->
  exists x, is_u32 x /\ b0 :: b1 :: b2 :: b3 :: m = le32_bytes x ++ m.
Proof.
  intros H. repeat (apply Forall_cons in H as [? H]).
  destruct (land_bytes b0 b1 b2 b3) as [Hx E]; try done. eexists. split; [exact Hx|]. by rewrite E.
Qed.

Lemma be32_split b0 b1 b2 b3 m : bytes (b0 :: b1 :: b2 :: b3 :: m) ->
  exists x, is_u32 x /\ b0 :: b1 :: b2 :: b3 :: m = be32_bytes x ++ m.
Proof.
  intros H. repeat (apply Forall_cons in H as [? H]).
  destruct (land_bytes b3 b2 b1 b0) as [Hx E]; try done. eexists. split; [exact Hx|].
  unfold le32_bytes in E. injection E as E0 E1 E2 E3. unfold be32_bytes. by rewrite E0, E1, E2, E3.
Qed.

(** An eight-byte block is two words. *)
Lemma le32_block b : length b = 8%nat -> bytes b ->
  exists y z, is_u32 y /\ is_u32 z /\ b = le32_bytes y ++ le32_bytes z.
Proof.
  intros Hl Hb. destruct b as [|b0 [|b1 [|b2 [|b3 b]]]]; try done.
  destruct (le32_split _ _ _ _ _ Hb) as (y & Hy & ->). do 4 apply Forall_inv_tail in Hb.
  destruct b as [|b4 [|b5 [|b6 [|b7 [|]]]]]; try done.
  destruct (le32_split _ _ _ _ _ Hb) as (z & Hz & ->). exists y, z. by rewrite app_nil_r.
Qed.

Lemma le32_two y z : is_u32 y -> is_u32 z ->
  le32 (le32_bytes y ++ le32_bytes z) 0 = Some y /\ le32 (le32_bytes y ++ le32_bytes z) 1 = Some z.
Proof. intros Hy Hz. rewrite le32_head, le32_cons, <- (app_nil_r (le32_bytes z)), le32_head by done. done. Qed.

Lemma two_words_block y z : length (le32_bytes y ++ le32_bytes z) = 8%nat /\ bytes (le32_bytes y ++ le32_bytes z).
Proof. split; [done|]. apply Forall_app. split; apply le32_bytes_ok. Qed.

Lemma be32_block b : length b = 8%nat -> bytes b ->
  exists y z, is_u32 y /\ is_u32 z /\ b = be32_bytes y ++ be32_bytes z.
Proof.
  intros Hl Hb. destruct b as [|b0 [|b1 [|b2 [|b3 b]]]]; try done.
  destruct (be32_split _ _ _ _ _ Hb) as (y & Hy & ->). do 4 apply Forall_inv_tail in Hb.
  destruct b as [|b4 [|b5 [|b6 [|b7 [|]]]]]; try done.
  destruct (be32_split _ _ _ _ _ Hb) as (z & Hz & ->). exists y, z. by rewrite app_nil_r.
Qed.

Lemma be32_two y z : is_u32 y -> is_u32 z ->
  be32 (be32_bytes y ++ be32_bytes z) 0 = Some y /\ be32 (be32_bytes y ++ be32_bytes z) 1 = Some z.
Proof. intros Hy Hz. rewrite be32_head, be32_cons, <- (app_nil_r (be32_bytes z)), be32_head by done. done. Qed.

Lemma two_be_words_block y z : length (be32_bytes y ++ be32_bytes z) = 8%nat /\ bytes (be32_bytes y ++ be32_bytes z).
Proof. split; [done|]. apply Forall_app. split; apply be32_bytes_ok. Qed.

Lemma log2_u32 a : 0 <= a -> is_u32 a <-> Z.log2 a < 32.
Proof.
  intros Ha. unfold is_u32. destruct (decide (a = 0)) as [->|]; [simpl; lia|].
  rewrite <- Z.log2_lt_pow2 by lia. lia.
Qed.

Lemma lxor_u32 a b : is_u32 a -> is_u32 b -> is_u32 (Z.lxor a b).
Proof.
  intros Ha Hb. pose proof (proj1 Ha). pose proof (proj1 Hb).
  apply log2_u32; [apply Z.lxor_nonneg; lia|]. apply log2_u32 in Ha, Hb; [|done..].
  pose proof (Z.log2_lxor a b). lia.
Qed.

Lemma lor_u32 a b : is_u32 a -> is_u32 b -> is_u32 (Z.lor a b).
Proof.
  intros Ha Hb. pose proof (proj1 Ha). pose proof (proj1 Hb).
  apply log2_u32; [apply Z.lor_nonneg; lia|]. apply log2_u32 in Ha, Hb; [|done..].
  rewrite Z.log2_lor by done. lia.
Qed.

Lemma lxor_cancel_r a b : Z.lxor (Z.lxor a b) b = a.
Proof. by rewrite Z.lxor_assoc, Z.lxor_nilpotent, Z.lxor_0_r. Qed.

Lemma lxor_cancel_l a b : Z.lxor a (Z.lxor a b) = b.
Proof. by rewrite <- Z.lxor_assoc, Z.lxor_nilpotent, Z.lxor_0_l. Qed.

Lemma shl_byte_u32 b k : is_u8 b -> 0 <= k <= 24 -> is_u32 (Z.shiftl b k).
Proof.
  unfold is_u8, is_u32. intros Hb Hk. rewrite Z.shiftl_mul_pow2 by lia.
  assert (0 < 2 ^ k) by (apply Z.pow_pos_nonneg; lia). assert (2 ^ k <= 2 ^ 24) by (apply Z.pow_le_mono_r; lia). nia.
Qed.

Lemma u8_u32 b : is_u8 b -> is_u32 b.
Proof. unfold is_u8, is_u32. lia. Qed.

Lemma aset_u32 l i x : Forall is_u32 l -> is_u32 x -> 0 <= i < Z.of_nat (length l) ->
  exists l', aset l i x = Some l' /\ length l' = length l /\ Forall is_u32 l'.
Proof.
  intros Hl Hx Hi. rewrite aset_Z by done. eexists. split; [done|]. split; [apply length_insert|].
  by apply Forall_insert.
Qed.

Lemma aget_some (P : Z -> Prop) (l : list Z) i : Forall P l -> 0 <= i < Z.of_nat (length l) ->
  exists v, aget l i = Some v /\ P v.
Proof.
  intros Hl Hi. rewrite aget_lookup by lia. destruct (lookup_lt_is_Some_2 l (Z.to_nat i)) as [v Hv]; [lia|].
  exists v. split; [done|]. by eapply Forall_lookup_1.
Qed.

(** ** The interface *)

(** A word read inside a byte string. *)
Lemma be32_ok m i : bytes m -> (4 * i + 4 <= length m)%nat -> exists x, be32 m i = Some x /\ is_u32 x.
Proof.
  intros Hm Hl. unfold be32.
  assert (forall j, (j < length m)%nat -> exists b, m !! j = Some b /\ is_u8 b) as Hget.
  { intros j Hj. destruct (lookup_lt_is_Some_2 m j Hj) as [b Hb]. exists b. split; [done|]. by apply (Forall_lookup_1 _ _ _ _ Hm Hb). }
  destruct (Hget (4 * i)%nat) as (b0 & -> & H0); [lia|]. destruct (Hget (4 * i + 1)%nat) as (b1 & -> & H1); [lia|].
  destruct (Hget (4 * i + 2)%nat) as (b2 & -> & H2); [lia|]. destruct (Hget (4 * i + 3)%nat) as (b3 & -> & H3); [lia|].
  eexists. split; [done|]. by apply (land_bytes b3 b2 b1 b0).
Qed.

(** A zeroed buffer with a key copied to its start. *)
Lemma pad_key_ok n key : bytes key -> (length key <= n)%nat ->
  exists p, memcpy (replicate n 0) 0 key 0 (Z.of_nat (length key)) = Some p /\ length p = n /\ bytes p.
Proof.
  intros Hk Hl. destruct (memcpy (replicate n 0) 0 key 0 (Z.of_nat (length key))) as [p|] eqn:E.
  2:{ rewrite memcpy_Some in E; [done|..]; rewrite ?length_replicate; lia. }
  exists p. split; [done|]. pose proof (memcpy_length _ _ _ _ _ _ E) as El. rewrite length_replicate in El. split; [done|].
  apply Forall_lookup. intros i x Hx. rewrite (memcpy_lookup _ _ _ _ _ _ _ E) in Hx.
  case_match; [by apply (Forall_lookup_1 _ _ _ _ Hk Hx)|]. apply lookup_replicate in Hx as [-> _]. done.
Qed.

Lemma be32_block4 b : length b = 16%nat -> bytes b -> exists w x y z, is_u32 w /\ is_u32 x /\ is_u32 y /\ is_u32 z /\
  b = be32_bytes w ++ be32_bytes x ++ be32_bytes y ++ be32_bytes z.
Proof.
  intros Hl Hb. rewrite <- (take_drop 8 b) in Hb |- *. apply Forall_app in Hb as [H1 H2].
  destruct (be32_block (take 8 b)) as (w & x & Hw & Hx & ->); [rewrite length_take; lia|done|].
  destruct (be32_block (drop 8 b)) as (y & z & Hy & Hz & ->); [rewrite length_drop; lia|done|].
  exists w, x, y, z. by rewrite <- app_assoc.
Qed.

Lemma be32_four w x y z : is_u32 w -> is_u32 x -> is_u32 y -> is_u32 z ->
  let b := be32_bytes w ++ be32_bytes x ++ be32_bytes y ++ be32_bytes z in
  be32 b 0 = Some w /\ be32 b 1 = Some x /\ be32 b 2 = Some y /\ be32 b 3 = Some z.
Proof.
  intros Hw Hx Hy Hz b. unfold b. rewrite <- (app_nil_r (be32_bytes z)).
  rewrite !be32_cons, !be32_head by done. done.
Qed.

Lemma four_be_words_block w x y z : let b := be32_bytes w ++ be32_bytes x ++ be32_bytes y ++ be32_bytes z in
  length b = 16%nat /\ bytes b.
Proof. split; [done|]. repeat (apply Forall_app; split); apply be32_bytes_ok. Qed.

(** What a cipher promises to the modes of operation.  [ctx_ok] holds of the
    contexts its [setkey] produces. *)
Class BlockCipher (ctx : Type) := {
  cra_blocksize : nat;
  cia_encrypt : ctx -> list Z -> option (list Z);
  cia_decrypt : ctx -> list Z -> option (list Z);
  ctx_ok : ctx -> Prop;
  is_block (b : list Z) : Prop := length b = cra_blocksize /\ bytes b;
  blocksize_ok : (0 < cra_blocksize)%nat /\ Z.of_nat cra_blocksize < 2 ^ 31;
  decrypt_encrypt : forall c b, ctx_ok c -> is_block b ->
    exists e, cia_encrypt c b = Some e /\ is_block e /\ cia_decrypt c e = Some b;
  decrypt_ok : forall c b, ctx_ok c -> is_block b -> exists d, cia_decrypt c b = Some d /\ is_block d
}.

Definition CRYPTO_TFM_RES_MASK : Z := 0xfff00000.
Definition CRYPTO_TFM_RES_WEAK_KEY : Z := 0x00100000.
Definition CRYPTO_TFM_RES_BAD_KEY_LEN : Z := 0x00200000.

(** [setkey] of [crypto/cipher.c]: the result flags are cleared and the key
    length is checked against the algorithm's bounds before its own function
    runs.  The result is the new [crt_flags] with the error or the context. *)
Definition setkey {ctx} (min_keysize max_keysize : Z) (cia_setkey : Z -> list Z -> option (Z * (Z + ctx)))
    (crt_flags : Z) (key : list Z) : option (Z * (Z + ctx)) :=
  let keylen := Z.of_nat (length key) in
  let crt_flags := Z.land crt_flags (Z.lxor CRYPTO_TFM_RES_MASK (2 ^ 32 - 1)) in
  if (keylen <? min_keysize) || (max_keysize <? keylen)
  then Some (Z.lor crt_flags CRYPTO_TFM_RES_BAD_KEY_LEN, inl (- EINVAL)) else cia_setkey crt_flags key.

End CipherBase.
