(* ===== verification/Tea.v ===== *)
(** * TEA, XTEA and XETA: [crypto/tea.c] *)

From S2P Require Import Prelude CipherBase.

Module Tea.
Import CipherBase.

Definition TEA_DELTA : Z := 0x9e3779b9.
Definition TEA_ROUNDS : nat := 32.
Definition XTEA_DELTA : Z := 0x9e3779b9.
Definition XTEA_ROUNDS : nat := 32.

(** [struct tea_ctx] and [struct xtea_ctx]: four key words. *)
Record tea_ctx := mk_tea { KEY : list Z }.

Definition tea_setkey (in_key : list Z) : option (Z + tea_ctx) :=
  k0 ← le32 in_key 0; k1 ← le32 in_key 1; k2 ← le32 in_key 2; k3 ← le32 in_key 3;
  Some (inr (mk_tea [k0; k1; k2; k3])).

Definition xtea_setkey (in_key : list Z) : option (Z + tea_ctx) :=
  k0 ← le32 in_key 0; k1 ← le32 in_key 1; k2 ← le32 in_key 2; k3 ← le32 in_key 3;
  Some (inr (mk_tea [k0; k1; k2; k3])).

(** ** TEA *)

(** [((v << 4) + ka) ^ (v + sum) ^ ((v >> 5) + kb)]. *)
Definition tea_mix (v sum ka kb : Z) : Z :=
  Z.lxor (Z.lxor (u32 (u32 (Z.shiftl v 4) + ka)) (u32 (v + sum))) (u32 (Z.shiftr v 5 + kb)).

Definition tea_enc_step (k0 k1 k2 k3 : Z) (s : Z * Z * Z) : Z * Z * Z :=
  let '(y, z, sum) := s in
  let sum := u32 (sum + TEA_DELTA) in
  let y := u32 (y + tea_mix z sum k0 k1) in
  let z := u32 (z + tea_mix y sum k2 k3) in
  (y, z, sum).

Definition tea_dec_step (k0 k1 k2 k3 : Z) (s : Z * Z * Z) : Z * Z * Z :=
  let '(y, z, sum) := s in
  let z := u32 (z - tea_mix y sum k2 k3) in
  let y := u32 (y - tea_mix z sum k0 k1) in
  let sum := u32 (sum - TEA_DELTA) in
  (y, z, sum).

Definition tea_encrypt (ctx : tea_ctx) (src : list Z) : option (list Z) :=
  y ← le32 src 0; z ← le32 src 1;
  k0 ← KEY ctx !! 0%nat; k1 ← KEY ctx !! 1%nat; k2 ← KEY ctx !! 2%nat; k3 ← KEY ctx !! 3%nat;
  let '(y, z, _) := Nat.iter TEA_ROUNDS (tea_enc_step k0 k1 k2 k3) (y, z, 0) in
  Some (le32_bytes y ++ le32_bytes z).

Definition tea_decrypt (ctx : tea_ctx) (src : list Z) : option (list Z) :=
  y ← le32 src 0; z ← le32 src 1;
  k0 ← KEY ctx !! 0%nat; k1 ← KEY ctx !! 1%nat; k2 ← KEY ctx !! 2%nat; k3 ← KEY ctx !! 3%nat;
  let sum := u32 (Z.shiftl TEA_DELTA 5) in
  let '(y, z, _) := Nat.iter TEA_ROUNDS (tea_dec_step k0 k1 k2 k3) (y, z, sum) in
  Some (le32_bytes y ++ le32_bytes z).

(** ** XTEA and XETA

    The two differ in how a word, the sum and a key word are mixed. *)

(** [((v << 4 ^ v >> 5) + v) ^ (sum + k)]. *)
Definition xtea_mix (v sum k : Z) : Z :=
  Z.lxor (u32 (Z.lxor (u32 (Z.shiftl v 4)) (Z.shiftr v 5) + v)) (u32 (sum + k)).

(** [(v << 4 ^ v >> 5) + (v ^ sum) + k]. *)
Definition xeta_mix (v sum k : Z) : Z :=
  u32 (u32 (Z.lxor (u32 (Z.shiftl v 4)) (Z.shiftr v 5) + Z.lxor v sum) + k).

Section Loops.
Context (mix : Z -> Z -> Z -> Z) (K : list Z).

(** [while (sum != limit)]. *)
Fixpoint x_enc_loop (fuel : nat) (limit y z sum : Z) : option (Z * Z) :=
  match fuel with
  | O => None
  | S fuel =>
      if sum =? limit then Some (y, z) else
      k ← K !! Z.to_nat (Z.land sum 3);
      let y := u32 (y + mix z sum k) in
      let sum := u32 (sum + XTEA_DELTA) in
      k ← K !! Z.to_nat (Z.land (Z.shiftr sum 11) 3);
      let z := u32 (z + mix y sum k) in
      x_enc_loop fuel limit y z sum
  end.

(** [while (sum)]. *)
Fixpoint x_dec_loop (fuel : nat) (y z sum : Z) : option (Z * Z) :=
  match fuel with
  | O => None
  | S fuel =>
      if sum =? 0 then Some (y, z) else
      k ← K !! Z.to_nat (Z.land (Z.shiftr sum 11) 3);
      let z := u32 (z - mix y sum k) in
      let sum := u32 (sum - XTEA_DELTA) in
      k ← K !! Z.to_nat (Z.land sum 3);
      let y := u32 (y - mix z sum k) in
      x_dec_loop fuel y z sum
  end.
End Loops.

(** The loops run [XTEA_ROUNDS] times; one more unit of fuel sees the end. *)
Definition x_fuel : nat := S XTEA_ROUNDS.

Definition x_limit : Z := u32 (XTEA_DELTA * Z.of_nat XTEA_ROUNDS).

Definition x_encrypt (mix : Z -> Z -> Z -> Z) (ctx : tea_ctx) (src : list Z) : option (list Z) :=
  y ← le32 src 0; z ← le32 src 1;
  '(y, z) ← x_enc_loop mix (KEY ctx) x_fuel x_limit y z 0;
  Some (le32_bytes y ++ le32_bytes z).

Definition x_decrypt (mix : Z -> Z -> Z -> Z) (ctx : tea_ctx) (src : list Z) : option (list Z) :=
  y ← le32 src 0; z ← le32 src 1;
  '(y, z) ← x_dec_loop mix (KEY ctx) x_fuel y z x_limit;
  Some (le32_bytes y ++ le32_bytes z).

Definition xtea_encrypt : tea_ctx -> list Z -> option (list Z) := x_encrypt xtea_mix.
Definition xtea_decrypt : tea_ctx -> list Z -> option (list Z) := x_decrypt xtea_mix.
Definition xeta_encrypt : tea_ctx -> list Z -> option (list Z) := x_encrypt xeta_mix.
Definition xeta_decrypt : tea_ctx -> list Z -> option (list Z) := x_decrypt xeta_mix.

(** ** Proofs *)

Definition key_ok (c : tea_ctx) : Prop := length (KEY c) = 4%nat /\ Forall is_u32 (KEY c).

Lemma u32_add_sub a b : is_u32 a -> u32 (u32 (a + b) - b) = a.
Proof. intros Ha. rewrite u32_sub_u32_l, Z.add_simpl_r. by apply u32_small. Qed.

Lemma iter_inverse {A} (f g : A -> A) (P : A -> Prop) n : (forall x, P x -> P (f x) /\ g (f x) = x) ->
  forall x, P x -> Nat.iter n g (Nat.iter n f x) = x.
Proof.
  intros Hfg. induction n as [|n IH]; intros x Hx; [done|].
  rewrite (Nat.iter_succ_r n _ f), (Nat.iter_succ n _ g), IH by by apply Hfg. by apply Hfg.
Qed.

Lemma iter_invariant {A} (f : A -> A) (P : A -> Prop) n x : (forall x, P x -> P (f x)) -> P x -> P (Nat.iter n f x).
Proof. intros Hf Hx. induction n as [|n IH]; [done|]. by apply Hf. Qed.

Definition words_ok (s : Z * Z * Z) : Prop := is_u32 (fst (fst s)) /\ is_u32 (snd (fst s)) /\ is_u32 (snd s).

Lemma tea_step_inverse k0 k1 k2 k3 s : words_ok s ->
  words_ok (tea_enc_step k0 k1 k2 k3 s) /\ tea_dec_step k0 k1 k2 k3 (tea_enc_step k0 k1 k2 k3 s) = s.
Proof.
  destruct s as [[y z] sum]. intros (Hy & Hz & Hs). simpl in *. split; [repeat split; apply u32_range|].
  unfold tea_enc_step, tea_dec_step. by rewrite !u32_add_sub.
Qed.

Lemma tea_sum k0 k1 k2 k3 n y z s0 : snd (Nat.iter n (tea_enc_step k0 k1 k2 k3) (y, z, s0)) = Nat.iter n (fun s => u32 (s + TEA_DELTA)) s0.
Proof.
  induction n as [|n IH]; [done|]. rewrite !Nat.iter_succ, <- IH. by destruct (Nat.iter n _ (y, z, s0)) as [[]].
Qed.

Lemma key_words c : key_ok c -> exists k0 k1 k2 k3, KEY c = [k0; k1; k2; k3].
Proof. intros [Hl _]. destruct (KEY c) as [|k0 [|k1 [|k2 [|k3 [|]]]]]; try done. eauto. Qed.

Lemma tea_decrypt_encrypt c b : key_ok c -> length b = 8%nat /\ bytes b ->
  exists e, tea_encrypt c b = Some e /\ (length e = 8%nat /\ bytes e) /\ tea_decrypt c e = Some b.
Proof.
  intros Hc [Hl Hb]. destruct (key_words c Hc) as (k0 & k1 & k2 & k3 & HK).
  destruct (le32_block b Hl Hb) as (y & z & Hy & Hz & ->). destruct (le32_two y z Hy Hz) as [E0 E1].
  unfold tea_encrypt, tea_decrypt. rewrite E0, E1, HK. cbn [mbind option_bind lookup list_lookup].
  pose proof (tea_step_inverse k0 k1 k2 k3) as Hinv.
  assert (words_ok (y, z, 0)) as H0 by done.
  pose proof (iter_inverse _ _ _ TEA_ROUNDS Hinv _ H0) as Hdec. pose proof (tea_sum k0 k1 k2 k3 TEA_ROUNDS y z 0) as Hsum.
  pose proof (iter_invariant (tea_enc_step k0 k1 k2 k3) words_ok TEA_ROUNDS _ (fun x Hx => proj1 (Hinv x Hx)) H0) as Hok.
  destruct (Nat.iter TEA_ROUNDS (tea_enc_step k0 k1 k2 k3) (y, z, 0)) as [[y' z'] s'] eqn:E. simpl in Hsum.
  eexists. split; [done|]. split; [apply two_words_block|].
  destruct Hok as (Hy' & Hz' & _). simpl in Hy', Hz'. destruct (le32_two y' z' Hy' Hz') as [-> ->].
  cbn [mbind option_bind]. replace (u32 (Z.shiftl TEA_DELTA 5)) with s' by (rewrite Hsum; by vm_compute).
  by rewrite Hdec.
Qed.

(** ** The loops of XTEA and XETA *)

Section XLoops.
Context (mix : Z -> Z -> Z -> Z) (K : list Z).
Hypothesis HK : length K = 4%nat.

(** The key word an index selects. *)
Definition kw (i : Z) : Z := default 0 (K !! Z.to_nat (Z.land i 3)).

Lemma key_lookup i : K !! Z.to_nat (Z.land i 3) = Some (kw i).
Proof using HK.
  unfold kw. destruct (lookup_lt_is_Some_2 K (Z.to_nat (Z.land i 3))) as [v ->]; [|done].
  rewrite HK. change 3 with (Z.ones 2). rewrite Z.land_ones by lia.
  pose proof (Z.mod_pos_bound i (2 ^ 2)). lia.
Qed.

Definition x_enc_step (s : Z * Z * Z) : Z * Z * Z :=
  let '(y, z, sum) := s in
  let y := u32 (y + mix z sum (kw sum)) in
  let sum := u32 (sum + XTEA_DELTA) in
  (y, u32 (z + mix y sum (kw (Z.shiftr sum 11))), sum).

Definition x_dec_step (s : Z * Z * Z) : Z * Z * Z :=
  let '(y, z, sum) := s in
  let z := u32 (z - mix y sum (kw (Z.shiftr sum 11))) in
  let sum := u32 (sum - XTEA_DELTA) in
  (u32 (y - mix z sum (kw sum)), z, sum).

Lemma x_step_inverse s : words_ok s -> words_ok (x_enc_step s) /\ x_dec_step (x_enc_step s) = s.
Proof.
  destruct s as [[y z] sum]. intros (Hy & Hz & Hs). simpl in *. split; [repeat split; apply u32_range|].
  unfold x_enc_step, x_dec_step. by rewrite !u32_add_sub.
Qed.

Definition x_sum (n : nat) : Z := u32 (XTEA_DELTA * Z.of_nat n).

Lemma x_sum_S n : x_sum (S n) = u32 (x_sum n + XTEA_DELTA) /\ x_sum n = u32 (x_sum (S n) - XTEA_DELTA).
Proof. unfold x_sum. rewrite u32_add_u32_l, u32_sub_u32_l. split; f_equal; lia. Qed.

(** The sums are different, so the loops stop after [XTEA_ROUNDS] rounds. *)
Lemma x_sums_distinct n : (n < XTEA_ROUNDS)%nat -> x_sum n <> x_limit /\ x_sum (S n) <> 0.
Proof.
  intros Hn. assert (forallb (fun n => negb (x_sum n =? x_limit) && negb (x_sum (S n) =? 0)) (seq 0 XTEA_ROUNDS) = true)
    as H by (by vm_compute).
  rewrite forallb_forall in H. specialize (H n). rewrite in_seq in H. specialize (H ltac:(lia)).
  rewrite andb_true_iff, !negb_true_iff, !Z.eqb_neq in H. done.
Qed.

Lemma x_enc_loop_run n : forall y z, (n <= XTEA_ROUNDS)%nat ->
  x_enc_loop mix K (S n) x_limit y z (x_sum (XTEA_ROUNDS - n)) =
    Some (fst (Nat.iter n x_enc_step (y, z, x_sum (XTEA_ROUNDS - n)))).
Proof using HK.
  induction n as [|n IH]; intros y z Hn; [by vm_compute|].
  remember (S n) as m. cbn [x_enc_loop]. subst m.
  destruct (x_sums_distinct (XTEA_ROUNDS - S n)) as [Hd _]; [lia|]. rewrite (proj2 (Z.eqb_neq _ _) Hd).
  rewrite !key_lookup. cbn [mbind option_bind]. replace (XTEA_ROUNDS - n)%nat with (S (XTEA_ROUNDS - S n)) in IH by lia.
  rewrite <- (proj1 (x_sum_S _)). rewrite IH by lia.
  rewrite Nat.iter_succ_r. unfold x_enc_step at 3. by rewrite <- (proj1 (x_sum_S _)).
Qed.

Lemma x_dec_loop_run n : forall y z, (n <= XTEA_ROUNDS)%nat ->
  x_dec_loop mix K (S n) y z (x_sum n) = Some (fst (Nat.iter n x_dec_step (y, z, x_sum n))).
Proof using HK.
  induction n as [|n IH]; intros y z Hn; [by vm_compute|].
  remember (S n) as m. cbn [x_dec_loop]. subst m.
  destruct (x_sums_distinct n) as [_ Hd]; [lia|]. rewrite (proj2 (Z.eqb_neq _ _) Hd).
  rewrite !key_lookup. cbn [mbind option_bind].
  rewrite <- (proj2 (x_sum_S _)). rewrite IH by lia.
  rewrite Nat.iter_succ_r. unfold x_dec_step at 3. by rewrite <- (proj2 (x_sum_S _)).
Qed.

Lemma x_sum_iter n y z : snd (Nat.iter n x_enc_step (y, z, 0)) = x_sum n.
Proof.
  induction n as [|n IH]; [done|]. rewrite Nat.iter_succ. rewrite (proj1 (x_sum_S n)), <- IH.
  by destruct (Nat.iter n _ _) as [[]].
Qed.
End XLoops.

Lemma x_decrypt_encrypt mix c b : key_ok c -> length b = 8%nat /\ bytes b ->
  exists e, x_encrypt mix c b = Some e /\ (length e = 8%nat /\ bytes e) /\ x_decrypt mix c e = Some b.
Proof.
  intros [HK _] [Hl Hb]. destruct (le32_block b Hl Hb) as (y & z & Hy & Hz & ->).
  destruct (le32_two y z Hy Hz) as [E0 E1]. unfold x_encrypt, x_decrypt. rewrite E0, E1. cbn [mbind option_bind].
  pose proof (x_enc_loop_run mix (KEY c) HK XTEA_ROUNDS y z ltac:(lia)) as Henc.
  change (x_sum (XTEA_ROUNDS - XTEA_ROUNDS)) with 0 in Henc. fold x_fuel in Henc. rewrite Henc.
  assert (words_ok (y, z, 0)) as H0 by done.
  pose proof (iter_inverse _ _ _ XTEA_ROUNDS (x_step_inverse mix (KEY c)) _ H0) as Hdec.
  pose proof (x_sum_iter mix (KEY c) HK XTEA_ROUNDS y z) as Hsum.
  pose proof (iter_invariant (x_enc_step mix (KEY c)) words_ok XTEA_ROUNDS _
    (fun x Hx => proj1 (x_step_inverse mix (KEY c) x Hx)) H0) as Hok.
  destruct (Nat.iter XTEA_ROUNDS (x_enc_step mix (KEY c)) (y, z, 0)) as [[y' z'] s']. cbn [fst snd] in *.
  eexists. split; [done|]. split; [apply two_words_block|].
  destruct Hok as (Hy' & Hz' & _). simpl in Hy', Hz'. destruct (le32_two y' z' Hy' Hz') as [-> ->].
  cbn [mbind option_bind]. change x_limit with (x_sum XTEA_ROUNDS).
  pose proof (x_dec_loop_run mix (KEY c) HK XTEA_ROUNDS y' z' ltac:(lia)) as Hrun. fold x_fuel in Hrun. rewrite Hrun, <- Hsum, Hdec.
  done.
Qed.

Lemma tea_decrypt_ok c b : key_ok c -> length b = 8%nat /\ bytes b ->
  exists d, tea_decrypt c b = Some d /\ (length d = 8%nat /\ bytes d).
Proof.
  intros Hc [Hl Hb]. destruct (key_words c Hc) as (k0 & k1 & k2 & k3 & HK).
  destruct (le32_block b Hl Hb) as (y & z & Hy & Hz & ->). destruct (le32_two y z Hy Hz) as [E0 E1].
  unfold tea_decrypt. rewrite E0, E1, HK. cbn [mbind option_bind lookup list_lookup].
  destruct (Nat.iter _ _ _) as [[y' z'] s']. eexists. split; [done|apply two_words_block].
Qed.

Lemma x_decrypt_ok mix c b : key_ok c -> length b = 8%nat /\ bytes b ->
  exists d, x_decrypt mix c b = Some d /\ (length d = 8%nat /\ bytes d).
Proof.
  intros [HK _] [Hl Hb]. destruct (le32_block b Hl Hb) as (y & z & Hy & Hz & ->).
  destruct (le32_two y z Hy Hz) as [E0 E1]. unfold x_decrypt. rewrite E0, E1. cbn [mbind option_bind].
  pose proof (x_dec_loop_run mix (KEY c) HK XTEA_ROUNDS y z ltac:(lia)) as Hrun. fold x_fuel in Hrun.
  change x_limit with (x_sum XTEA_ROUNDS). rewrite Hrun. destruct (Nat.iter _ _ _) as [[y' z'] s'].
  eexists. split; [done|apply two_words_block].
Qed.

Definition blocksize8 : (0 < 8)%nat /\ Z.of_nat 8 < 2 ^ 31 := conj (Nat.lt_0_succ 7) eq_refl.

#[export] Instance tea_cipher : BlockCipher tea_ctx | 10 := {|
  cra_blocksize := 8; cia_encrypt := tea_encrypt; cia_decrypt := tea_decrypt; ctx_ok := key_ok;
  blocksize_ok := blocksize8; decrypt_encrypt := tea_decrypt_encrypt; decrypt_ok := tea_decrypt_ok
|}.

Definition xtea_cipher : BlockCipher tea_ctx := {|
  cra_blocksize := 8; cia_encrypt := xtea_encrypt; cia_decrypt := xtea_decrypt; ctx_ok := key_ok;
  blocksize_ok := blocksize8; decrypt_encrypt := x_decrypt_encrypt xtea_mix; decrypt_ok := x_decrypt_ok xtea_mix
|}.

Definition xeta_cipher : BlockCipher tea_ctx := {|
  cra_blocksize := 8; cia_encrypt := xeta_encrypt; cia_decrypt := xeta_decrypt; ctx_ok := key_ok;
  blocksize_ok := blocksize8; decrypt_encrypt := x_decrypt_encrypt xeta_mix; decrypt_ok := x_decrypt_ok xeta_mix
|}.

Lemma setkey_ok key : length key = 16%nat -> bytes key ->
  exists c, tea_setkey key = Some (inr c) /\ xtea_setkey key = Some (inr c) /\ key_ok c.
Proof.
  intros Hl Hb. do 4 (destruct key as [|? [|? [|? [|? key]]]]; try done).
  destruct key; [|done].
  destruct (le32_split _ _ _ _ _ Hb) as (k0 & H0 & ->). do 4 apply Forall_inv_tail in Hb.
  destruct (le32_split _ _ _ _ _ Hb) as (k1 & H1 & ->). do 4 apply Forall_inv_tail in Hb.
  destruct (le32_split _ _ _ _ _ Hb) as (k2 & H2 & ->). do 4 apply Forall_inv_tail in Hb.
  destruct (le32_split _ _ _ _ _ Hb) as (k3 & H3 & ->).
  exists (mk_tea [k0; k1; k2; k3]). unfold tea_setkey, xtea_setkey.
  rewrite !le32_cons, !le32_head by done. cbn [mbind option_bind].
  split; [done|]. split; [done|]. split; [done|]. simpl. by rewrite !Forall_cons, Forall_nil.
Qed.

(** C33: TEA, XTEA and XETA decrypt what they encrypt: under any 16-byte key
    [setkey] succeeds, and every 8-byte block is encrypted to an 8-byte block
    from which the decryption function gets it back; all loops return. *)
Theorem tea_roundtrip key b : length key = 16%nat -> bytes key -> length b = 8%nat -> bytes b ->
  exists c e1 e2 e3, tea_setkey key = Some (inr c) /\ xtea_setkey key = Some (inr c) /\
    tea_encrypt c b = Some e1 /\ tea_decrypt c e1 = Some b /\
    xtea_encrypt c b = Some e2 /\ xtea_decrypt c e2 = Some b /\
    xeta_encrypt c b = Some e3 /\ xeta_decrypt c e3 = Some b.
Proof.
  intros Hk Hkb Hl Hb. destruct (setkey_ok key Hk Hkb) as (c & E1 & E2 & Hc).
  destruct (tea_decrypt_encrypt c b Hc (conj Hl Hb)) as (e1 & ? & _ & ?).
  destruct (x_decrypt_encrypt xtea_mix c b Hc (conj Hl Hb)) as (e2 & ? & _ & ?).
  destruct (x_decrypt_encrypt xeta_mix c b Hc (conj Hl Hb)) as (e3 & ? & _ & ?).
  by exists c, e1, e2, e3.
Qed.

(** The first block of each test vector of [crypto/tcrypt.h]. *)
Definition tea_enc_tv : list (list Z * list Z * list Z) :=
  [
   ([0; 0; 0; 0; 0; 0; 0; 0; 0; 0; 0; 0; 0; 0; 0; 0],
    [0; 0; 0; 0; 0; 0; 0; 0], [10; 58; 234; 65; 64; 169; 186; 148]);
   ([43; 2; 5; 104; 6; 20; 73; 118; 119; 93; 14; 38; 108; 40; 120; 67],
    [116; 101; 115; 116; 32; 109; 101; 46], [119; 93; 42; 106; 246; 206; 146; 9]);
   ([9; 101; 67; 17; 102; 68; 57; 37; 81; 58; 22; 16; 10; 8; 18; 110],
    [108; 111; 110; 103; 101; 114; 95; 116], [190; 122; 187; 129; 149; 45; 31; 30]);
   ([77; 118; 50; 23; 5; 63; 117; 44; 93; 4; 22; 54; 21; 114; 99; 47],
    [84; 101; 97; 32; 105; 115; 32; 103], [224; 77; 93; 60; 183; 140; 54; 71])
  ].

Definition xtea_enc_tv : list (list Z * list Z * list Z) :=
  [
   ([0; 0; 0; 0; 0; 0; 0; 0; 0; 0; 0; 0; 0; 0; 0; 0],
    [0; 0; 0; 0; 0; 0; 0; 0], [216; 212; 233; 222; 217; 30; 19; 247]);
   ([43; 2; 5; 104; 6; 20; 73; 118; 119; 93; 14; 38; 108; 40; 120; 67],
    [116; 101; 115; 116; 32; 109; 101; 46], [148; 235; 200; 150; 132; 106; 73; 168]);
   ([9; 101; 67; 17; 102; 68; 57; 37; 81; 58; 22; 16; 10; 8; 18; 110],
    [62; 206; 174; 34; 96; 86; 168; 157], [226; 4; 219; 242; 137; 133; 158; 234]);
   ([77; 118; 50; 23; 5; 63; 117; 44; 93; 4; 22; 54; 21; 114; 99; 47],
    [84; 101; 97; 32; 105; 115; 32; 103], [153; 129; 159; 93; 111; 75; 49; 58])
  ].

Definition xeta_enc_tv : list (list Z * list Z * list Z) :=
  [
   ([0; 0; 0; 0; 0; 0; 0; 0; 0; 0; 0; 0; 0; 0; 0; 0],
    [0; 0; 0; 0; 0; 0; 0; 0], [170; 34; 150; 229; 108; 97; 243; 69]);
   ([43; 2; 5; 104; 6; 20; 73; 118; 119; 93; 14; 38; 108; 40; 120; 67],
    [116; 101; 115; 116; 32; 109; 101; 46], [130; 62; 235; 53; 220; 221; 217; 195]);
   ([9; 101; 67; 17; 102; 68; 57; 37; 81; 58; 22; 16; 10; 8; 18; 110],
    [108; 111; 110; 103; 101; 114; 95; 116], [226; 4; 219; 242; 137; 133; 158; 234]);
   ([77; 118; 50; 23; 5; 63; 117; 44; 93; 4; 22; 54; 21; 114; 99; 47],
    [84; 101; 97; 32; 105; 115; 32; 103], [11; 3; 205; 138; 190; 149; 253; 177])
  ].

Definition vector_ok (setkey : list Z -> option (Z + tea_ctx)) (encrypt : tea_ctx -> list Z -> option (list Z))
    (v : list Z * list Z * list Z) : bool :=
  let '(key, input, result) := v in
  match setkey key with
  | Some (inr c) => bool_decide (encrypt c input = Some result)
  | _ => false
  end.

(** The definitions reproduce the vectors the kernel tests itself with, but
    for the third XTEA one: its input field holds the ciphertext of
    "longer_t" (see [xtea_third_vector]). *)
Lemma tea_vectors :
  map (vector_ok tea_setkey tea_encrypt) tea_enc_tv = [true; true; true; true] /\
  map (vector_ok xtea_setkey xtea_encrypt) xtea_enc_tv = [true; true; false; true] /\
  map (vector_ok xtea_setkey xeta_encrypt) xeta_enc_tv = [true; true; true; true].
Proof. by vm_compute. Qed.

(** The third XTEA vector: the code encrypts "longer_t" to the bytes the table
    gives as input, and these bytes to something else than the table's
    result. *)
Lemma xtea_third_vector :
  let key := [9; 101; 67; 17; 102; 68; 57; 37; 81; 58; 22; 16; 10; 8; 18; 110] in
  exists c, xtea_setkey key = Some (inr c) /\
    xtea_encrypt c [108; 111; 110; 103; 101; 114; 95; 116] = Some [62; 206; 174; 34; 96; 86; 168; 157] /\
    xtea_encrypt c [62; 206; 174; 34; 96; 86; 168; 157] <> Some [226; 4; 219; 242; 137; 133; 158; 234].
Proof. eexists. split; [reflexivity|]. split; [by vm_compute|]. by vm_compute. Qed.

Lemma tea_roundtrip_witness :
  let key := [43; 2; 5; 104; 6; 20; 73; 118; 119; 93; 14; 38; 108; 40; 120; 67] in
  let b := [116; 101; 115; 116; 32; 109; 101; 46] in
  exists c e1 e2 e3, tea_setkey key = Some (inr c) /\ xtea_setkey key = Some (inr c) /\
    tea_encrypt c b = Some e1 /\ tea_decrypt c e1 = Some b /\
    xtea_encrypt c b = Some e2 /\ xtea_decrypt c e2 = Some b /\
    xeta_encrypt c b = Some e3 /\ xeta_decrypt c e3 = Some b.
Proof. apply tea_roundtrip; try done; repeat (constructor; [done|]); constructor. Defined.

End Tea.
