(* ===== verification/CastBase.v ===== *)
(** * The round functions shared by CAST5 and CAST6

    [F1], [F2] and [F3] of [crypto/cast5.c] and [crypto/cast6.c] over four
    substitution tables, and the inverse property of a Feistel step. *)

From S2P Require Import Prelude CipherBase.

Module CastBase.
Import CipherBase.

(** Arrays of [n] 32-bit words. *)
Definition words (n : nat) (a : list Z) : Prop := length a = n /\ Forall is_u32 a.

(** A round function that returns on 32-bit arguments. *)
Definition total (F : Z -> Z -> Z -> option Z) : Prop :=
  forall D m r, is_u32 D -> is_u32 m -> exists v, F D m r = Some v /\ is_u32 v.

Section F.
Context (s1 s2 s3 s4 : list Z).

(** [I = rol32(I, r)] and the four table entries its bytes select. *)
Definition tables (I : Z) : option (Z * Z * Z * Z) :=
  a ← aget s1 (Z.shiftr I 24); b ← aget s2 (Z.land (Z.shiftr I 16) 0xff);
  c ← aget s3 (Z.land (Z.shiftr I 8) 0xff); d ← aget s4 (Z.land I 0xff);
  Some (a, b, c, d).

Definition F1 (D m r : Z) : option Z :=
  '(a, b, c, d) ← tables (rol32 (u32 (m + D)) r);
  Some (u32 (u32 (Z.lxor a b - c) + d)).
Definition F2 (D m r : Z) : option Z :=
  '(a, b, c, d) ← tables (rol32 (Z.lxor m D) r);
  Some (Z.lxor (u32 (u32 (a - b) + c)) d).
Definition F3 (D m r : Z) : option Z :=
  '(a, b, c, d) ← tables (rol32 (u32 (m - D)) r);
  Some (u32 (Z.lxor (u32 (a + b)) c - d)).

(** ** The functions are total on 32-bit words *)

Definition table_ok (t : list Z) : Prop := length t = 256%nat /\ Forall is_u32 t.
Hypothesis H1 : table_ok s1.
Hypothesis H2 : table_ok s2.
Hypothesis H3 : table_ok s3.
Hypothesis H4 : table_ok s4.

Lemma table_get t i : table_ok t -> 0 <= i < 256 -> exists v, aget t i = Some v /\ is_u32 v.
Proof. intros [Hl Ht] Hi. apply aget_some; [done|rewrite Hl; lia]. Qed.

Lemma rol32_u32 w r : is_u32 w -> is_u32 (rol32 w r).
Proof.
  intros Hw. apply lor_u32; [apply u32_range|]. unfold shr32, is_u32 in *.
  pose proof (byte_land (u32 (32 - r))) as Hb. unfold is_u8 in Hb.
  rewrite Z.shiftr_div_pow2 by lia. assert (0 < 2 ^ Z.land (u32 (32 - r)) 0xff) by (apply Z.pow_pos_nonneg; lia).
  split; [apply Z.div_pos; lia|]. apply Z.div_lt_upper_bound; nia.
Qed.

Lemma tables_ok I : is_u32 I -> exists a b c d, tables I = Some (a, b, c, d) /\
  is_u32 a /\ is_u32 b /\ is_u32 c /\ is_u32 d.
Proof using H1 H2 H3 H4.
  intros HI. unfold tables. pose proof (fun x => byte_land x) as Hb. unfold is_u8, is_u32 in Hb, HI.
  destruct (table_get s1 (Z.shiftr I 24) H1) as (a & -> & Ha).
  { rewrite Z.shiftr_div_pow2 by lia. split; [apply Z.div_pos; lia|apply Z.div_lt_upper_bound; lia]. }
  destruct (table_get s2 _ H2 (Hb (Z.shiftr I 16))) as (b & -> & Hb').
  destruct (table_get s3 _ H3 (Hb (Z.shiftr I 8))) as (c & -> & Hc).
  destruct (table_get s4 _ H4 (Hb I)) as (d & -> & Hd). by exists a, b, c, d.
Qed.

Lemma F1_ok D m r : exists v, F1 D m r = Some v /\ is_u32 v.
Proof using H1 H2 H3 H4.
  unfold F1. destruct (tables_ok (rol32 (u32 (m + D)) r)) as (a & b & c & d & -> & _); [apply rol32_u32, u32_range|].
  eexists. split; [done|apply u32_range].
Qed.
Lemma F2_ok D m r : is_u32 D -> is_u32 m -> exists v, F2 D m r = Some v /\ is_u32 v.
Proof using H1 H2 H3 H4.
  intros HD Hm. unfold F2.
  destruct (tables_ok (rol32 (Z.lxor m D) r)) as (a & b & c & d & -> & _ & _ & _ & Hd); [by apply rol32_u32, lxor_u32|].
  eexists. split; [done|]. apply lxor_u32; [apply u32_range|done].
Qed.
Lemma F3_ok D m r : exists v, F3 D m r = Some v /\ is_u32 v.
Proof using H1 H2 H3 H4.
  unfold F3. destruct (tables_ok (rol32 (u32 (m - D)) r)) as (a & b & c & d & -> & _); [apply rol32_u32, u32_range|].
  eexists. split; [done|apply u32_range].
Qed.
End F.

(** Checking a table by evaluation. *)
Definition u32_table (t : list Z) : bool :=
  (length t =? 256)%nat && forallb (fun x => (0 <=? x) && (x <? 2 ^ 32)) t.

Lemma u32_table_ok t : u32_table t = true -> table_ok t.
Proof.
  unfold u32_table. rewrite andb_true_iff, Nat.eqb_eq. intros [Hl Ht]. split; [done|].
  apply Forall_forall. intros x Hx. rewrite forallb_forall in Ht. apply list_elem_of_In in Hx.
  specialize (Ht x Hx). unfold is_u32. lia.
Qed.

End CastBase.
