(* ===== verification/Mem.v ===== *)
(** * Byte memory

    A flat memory of bytes, for the code that moves data through pointers.
    An access to an address that is not mapped faults. *)

From S2P Require Import Prelude.

Module Mem.

Abbreviation mem := (gmap Z Z).

(** The [n] bytes at [a]. *)
Fixpoint load (m : mem) (a : Z) (n : nat) : option (list Z) :=
  match n with
  | O => Some []
  | S n => b ← m !! a; l ← load m (a + 1) n; Some (b :: l)
  end.

Fixpoint upd (m : mem) (a : Z) (l : list Z) : mem :=
  match l with
  | [] => m
  | b :: l => upd (<[a := b]> m) (a + 1) l
  end.

(** Writes the bytes [l] at [a]. *)
Definition store (m : mem) (a : Z) (l : list Z) : option mem :=
  _ ← load m a (length l); Some (upd m a l).

(** [memcpy(d, s, n)]. *)
Definition copy (m : mem) (d s : Z) (n : nat) : option mem := l ← load m s n; store m d l.

Definition mapped (m : mem) (a : Z) (n : nat) : Prop := exists l, load m a n = Some l.

(** Two regions with no address in common. *)
Definition disj (a : Z) (n : nat) (b : Z) (k : nat) : Prop :=
  n = 0%nat \/ k = 0%nat \/ a + Z.of_nat n <= b \/ b + Z.of_nat k <= a.

Lemma disj_sym a n b k : disj a n b k -> disj b k a n.
Proof. unfold disj. lia. Qed.

Lemma disj_sub a n b k a' n' b' k' : disj a n b k ->
  a <= a' -> a' + Z.of_nat n' <= a + Z.of_nat n -> b <= b' -> b' + Z.of_nat k' <= b + Z.of_nat k -> disj a' n' b' k'.
Proof. unfold disj. lia. Qed.

Lemma disj_next a n b k : a + Z.of_nat n <= b -> disj a n b k.
Proof. unfold disj. lia. Qed.

Lemma disj_intro a n b k : (forall i j, (i < n)%nat -> (j < k)%nat -> a + Z.of_nat i <> b + Z.of_nat j) -> disj a n b k.
Proof.
  intros H. destruct (decide (disj a n b k)) as [|Hn]; [done|]. exfalso. unfold disj in Hn.
  destruct (decide (a <= b)).
  - apply (H (Z.to_nat (b - a)) 0%nat); lia.
  - apply (H 0%nat (Z.to_nat (a - b))); lia.
Qed.

Lemma load_spec m n : forall a l,
  load m a n = Some l <-> length l = n /\ forall i, (i < n)%nat -> m !! (a + Z.of_nat i) = l !! i.
Proof.
  induction n as [|n IH]; intros a l; simpl.
  { split; [intros [= <-]; split; [done|lia]|]. intros [H _]. by destruct l. }
  split.
  - destruct (m !! a) as [b|] eqn:Eb; [|done]. simpl. destruct (load m (a + 1) n) as [l'|] eqn:El; [|done].
    intros [= <-]. apply IH in El as [Hl Hi]. simpl. split; [lia|].
    intros [|i] Hlt; simpl; [by rewrite Z.add_0_r|]. rewrite <- Hi by lia. f_equal. lia.
  - intros [Hl Hi]. destruct l as [|b l]; [done|].
    pose proof (Hi 0%nat ltac:(lia)) as H0. rewrite Z.add_0_r in H0. simpl in H0. rewrite H0. simpl.
    rewrite (proj2 (IH (a + 1) l)); [done|]. split; [simpl in Hl; lia|].
    intros i Hlt. specialize (Hi (S i) ltac:(lia)). simpl in Hi. rewrite <- Hi. f_equal. lia.
Qed.

Lemma load_length m a n l : load m a n = Some l -> length l = n.
Proof. intros H. by apply load_spec in H as [? _]. Qed.

Lemma upd_lookup l : forall m a x,
  upd m a l !! x = if decide (a <= x < a + Z.of_nat (length l)) then l !! Z.to_nat (x - a) else m !! x.
Proof.
  induction l as [|b l IH]; intros m a x; simpl.
  { by rewrite decide_False by lia. }
  rewrite IH. destruct (decide (x = a)) as [->|Hx].
  - rewrite decide_False, decide_True by lia. rewrite Z.sub_diag. simpl. by rewrite lookup_insert_eq.
  - rewrite lookup_insert_ne by done. destruct (decide (a + 1 <= x < a + 1 + Z.of_nat (length l))).
    + rewrite decide_True by lia. replace (Z.to_nat (x - a)) with (S (Z.to_nat (x - (a + 1)))) by lia. done.
    + by rewrite decide_False by lia.
Qed.

Lemma upd_app m a l1 l2 : upd m a (l1 ++ l2) = upd (upd m a l1) (a + Z.of_nat (length l1)) l2.
Proof.
  apply map_eq. intros x. rewrite !upd_lookup, length_app. repeat case_decide; try done; try lia.
  - rewrite lookup_app_r by lia. f_equal. lia.
  - rewrite lookup_app_l by lia. done.
Qed.

Lemma upd_upd m a l l' : length l = length l' -> upd (upd m a l) a l' = upd m a l'.
Proof. intros H. apply map_eq. intros x. rewrite !upd_lookup, H. by case_decide. Qed.

Lemma upd_comm m a l b l' : disj a (length l) b (length l') -> upd (upd m a l) b l' = upd (upd m b l') a l.
Proof.
  unfold disj. intros H. apply map_eq. intros x. rewrite !upd_lookup. repeat case_decide; try done; lia.
Qed.

Lemma upd_id m a n l : load m a n = Some l -> upd m a l = m.
Proof.
  intros [Hl H]%load_spec. apply map_eq. intros x. rewrite upd_lookup. case_decide; [|done].
  rewrite <- H by lia. f_equal. lia.
Qed.

Lemma load_upd_eq m a l n : length l = n -> load (upd m a l) a n = Some l.
Proof.
  intros <-. apply load_spec. split; [done|]. intros i Hi. rewrite upd_lookup, decide_True by lia. f_equal. lia.
Qed.

Lemma load_ext m m' a n : (forall i, (i < n)%nat -> m !! (a + Z.of_nat i) = m' !! (a + Z.of_nat i)) -> load m a n = load m' a n.
Proof.
  revert a. induction n as [|n IH]; intros a H; [done|]. simpl.
  pose proof (H 0%nat ltac:(lia)) as H0. rewrite Z.add_0_r in H0. rewrite H0. destruct (m' !! a); [|done]. simpl.
  rewrite IH; [done|]. intros i Hi. specialize (H (S i) ltac:(lia)).
  replace (a + 1 + Z.of_nat i) with (a + Z.of_nat (S i)) by lia. done.
Qed.

Lemma load_upd_ne m a l b n : disj a (length l) b n -> load (upd m a l) b n = load m b n.
Proof.
  intros H. apply load_ext. intros i Hi. rewrite upd_lookup. case_decide; [|done].
  unfold disj in H. lia.
Qed.

Lemma load_app m n1 n2 : forall a,
  load m a (n1 + n2) = l1 ← load m a n1; l2 ← load m (a + Z.of_nat n1) n2; Some (l1 ++ l2).
Proof.
  induction n1 as [|n1 IH]; intros a; simpl.
  { rewrite Z.add_0_r. by destruct (load m a n2). }
  destruct (m !! a); [|done]. simpl. rewrite IH. replace (a + 1 + Z.of_nat n1) with (a + Z.of_nat (S n1)) by lia.
  destruct (load m (a + 1) n1); [|done]. simpl. by destruct (load m (a + Z.of_nat (S n1)) n2).
Qed.

(** Cutting a loaded region in two. *)
Lemma load_split m a n1 n2 l : load m a (n1 + n2) = Some l ->
  load m a n1 = Some (take n1 l) /\ load m (a + Z.of_nat n1) n2 = Some (drop n1 l).
Proof.
  rewrite load_app. destruct (load m a n1) as [l1|] eqn:E1; [|done]. simpl.
  destruct (load m (a + Z.of_nat n1) n2) as [l2|] eqn:E2; [|done]. intros [= <-].
  apply load_length in E1. subst n1. by rewrite take_app_length, drop_app_length.
Qed.

Lemma load_sub m a n l k j : load m a n = Some l -> (k + j <= n)%nat ->
  load m (a + Z.of_nat k) j = Some (take j (drop k l)).
Proof.
  intros H Hk. replace n with (k + (j + (n - k - j)))%nat in H by lia.
  apply load_split in H as [_ H]. by apply load_split in H as [H _].
Qed.

Lemma mapped_upd m a l b n : mapped m b n -> mapped (upd m a l) b n.
Proof.
  intros [l0 [Hl H]%load_spec]. assert (forall i, (i < n)%nat -> is_Some (upd m a l !! (b + Z.of_nat i))) as Hs.
  { intros i Hi. rewrite upd_lookup. case_decide; [apply lookup_lt_is_Some_2; lia|].
    rewrite H by done. apply lookup_lt_is_Some_2. lia. }
  clear Hl H l0. revert b Hs. induction n as [|n IH]; intros b Hs; [by exists []|].
  destruct (Hs 0%nat ltac:(lia)) as [x Hx]. rewrite Z.add_0_r in Hx. destruct (IH (b + 1)) as [l' Hl'].
  { intros i Hi. specialize (Hs (S i) ltac:(lia)). by replace (b + 1 + Z.of_nat i) with (b + Z.of_nat (S i)) by lia. }
  exists (x :: l'). simpl. by rewrite Hx, Hl'.
Qed.

Lemma mapped_sub m a n b k : mapped m a n -> a <= b -> b + Z.of_nat k <= a + Z.of_nat n -> mapped m b k.
Proof.
  intros [l H] Ha Hb. exists (take k (drop (Z.to_nat (b - a)) l)).
  replace b with (a + Z.of_nat (Z.to_nat (b - a))) at 1 by lia. apply (load_sub _ _ n); [done|lia].
Qed.

Lemma store_ok m a l : mapped m a (length l) -> store m a l = Some (upd m a l).
Proof. intros [l' H]. unfold store. by rewrite H. Qed.

Lemma copy_ok m d s n l : load m s n = Some l -> mapped m d n -> copy m d s n = Some (upd m d l).
Proof. intros H Hd. unfold copy. rewrite H. simpl. apply store_ok. by rewrite (load_length _ _ _ _ H). Qed.

(** ** Lists of addresses *)

(** The bytes at a list of addresses, and writing there. *)
Fixpoint get (m : mem) (as_ : list Z) : option (list Z) :=
  match as_ with
  | [] => Some []
  | a :: as_ => b ← m !! a; l ← get m as_; Some (b :: l)
  end.

Fixpoint put (m : mem) (as_ l : list Z) : mem :=
  match as_, l with
  | a :: as_, b :: l => put (<[a := b]> m) as_ l
  | _, _ => m
  end.

Lemma get_length m as_ l : get m as_ = Some l -> length l = length as_.
Proof.
  revert l. induction as_ as [|a as_ IH]; intros l; simpl; [by intros [= <-]|].
  destruct (m !! a); [|done]. simpl. destruct (get m as_) as [l'|]; [|done]. intros [= <-]. simpl. f_equal. by apply IH.
Qed.

Lemma seqZ_cons_nat a n : seqZ a (Z.of_nat (S n)) = a :: seqZ (a + 1) (Z.of_nat n).
Proof. rewrite seqZ_cons by lia. f_equal. f_equal; lia. Qed.

Lemma get_seqZ m n : forall a, get m (seqZ a (Z.of_nat n)) = load m a n.
Proof. induction n as [|n IH]; intros a; [done|]. rewrite seqZ_cons_nat. simpl. by rewrite IH. Qed.

Lemma put_seqZ l : forall m a, put m (seqZ a (Z.of_nat (length l))) l = upd m a l.
Proof. induction l as [|b l IH]; intros m a; [done|]. simpl length. rewrite seqZ_cons_nat. simpl. apply IH. Qed.

Lemma get_app m a1 a2 : get m (a1 ++ a2) = l1 ← get m a1; l2 ← get m a2; Some (l1 ++ l2).
Proof.
  induction a1 as [|a a1 IH]; simpl; [by destruct (get m a2)|]. destruct (m !! a); [|done]. simpl. rewrite IH.
  destruct (get m a1); [|done]. simpl. by destruct (get m a2).
Qed.

Lemma get_split m a1 a2 l : get m (a1 ++ a2) = Some l -> get m a1 = Some (take (length a1) l) /\ get m a2 = Some (drop (length a1) l).
Proof.
  rewrite get_app. destruct (get m a1) as [l1|] eqn:E1; [|done]. simpl. destruct (get m a2) as [l2|]; [|done]. intros [= <-].
  apply get_length in E1. by rewrite take_app_length', drop_app_length'.
Qed.

Lemma put_app m a1 l1 : forall a2 l2, length a1 = length l1 -> put m (a1 ++ a2) (l1 ++ l2) = put (put m a1 l1) a2 l2.
Proof. revert m l1. induction a1 as [|a a1 IH]; intros m [|b l1] a2 l2 H; try done. simpl in *. apply IH. lia. Qed.

Lemma put_lookup_ne as_ : forall m l x, x ∉ as_ -> put m as_ l !! x = m !! x.
Proof.
  induction as_ as [|a as_ IH]; intros m l x Hx; [done|]. destruct l as [|b l]; [done|]. simpl.
  apply not_elem_of_cons in Hx as [H1 H2]. by rewrite IH, lookup_insert_ne.
Qed.

Lemma get_ext m m' as_ : (forall a, a ∈ as_ -> m !! a = m' !! a) -> get m as_ = get m' as_.
Proof.
  induction as_ as [|a as_ IH]; intros H; [done|]. simpl. rewrite (H a) by by left. destruct (m' !! a); [|done]. simpl.
  rewrite IH; [done|]. intros b Hb. apply H. by right.
Qed.

Lemma get_put_ne m as_ l as' : (forall a, a ∈ as' -> a ∉ as_) -> get (put m as_ l) as' = get m as'.
Proof. intros H. apply get_ext. intros a Ha. apply put_lookup_ne. by apply H. Qed.

Lemma get_put_eq as_ : forall m l, NoDup as_ -> length as_ = length l -> get (put m as_ l) as_ = Some l.
Proof.
  induction as_ as [|a as_ IH]; intros m l Hn Hl; destruct l as [|b l]; try done.
  apply NoDup_cons in Hn as [Ha Hn]. simpl in *. rewrite put_lookup_ne by done. rewrite lookup_insert_eq. simpl.
  rewrite IH; [done|done|lia].
Qed.

(** Writing does not unmap an address. *)
Lemma get_mapped m as_ : (exists l, get m as_ = Some l) <-> forall a, a ∈ as_ -> is_Some (m !! a).
Proof.
  induction as_ as [|a as_ IH]; simpl; [split; [by intros _ a ?%not_elem_of_nil|by exists []]|]. split.
  - intros [l Hl] x [->|Hx]%elem_of_cons; [by destruct (m !! a)|]. apply IH; [|done].
    destruct (m !! a); [|done]. destruct (get m as_) as [l'|]; [|done]. by exists l'.
  - intros H. destruct (H a ltac:(by left)) as [b ->]. destruct (proj2 IH) as [l ->]; [|by exists (b :: l)].
    intros x Hx. apply H. by right.
Qed.

Lemma put_mapped as_ : forall m l x, is_Some (m !! x) -> is_Some (put m as_ l !! x).
Proof.
  induction as_ as [|a as_ IH]; intros m l x Hx; [done|]. destruct l as [|b l]; [done|]. simpl. apply IH.
  destruct (decide (x = a)) as [->|]; [by rewrite lookup_insert_eq|by rewrite lookup_insert_ne].
Qed.

Lemma elem_of_region x a n : x ∈ seqZ a (Z.of_nat n) <-> a <= x < a + Z.of_nat n.
Proof. rewrite elem_of_seqZ. lia. Qed.

Lemma upd_lookup_ne m a l x : ~ (a <= x < a + Z.of_nat (length l)) -> upd m a l !! x = m !! x.
Proof. intros H. by rewrite upd_lookup, decide_False. Qed.

Lemma get_upd_ne m a l as_ : (forall x, x ∈ as_ -> ~ (a <= x < a + Z.of_nat (length l))) -> get (upd m a l) as_ = get m as_.
Proof. intros H. apply get_ext. intros x Hx. apply upd_lookup_ne. by apply H. Qed.

(** Equality of two memories that are updates of the same one. *)
Ltac mem_eq :=
  unfold disj in *; apply map_eq; intros ?x; rewrite ?upd_lookup;
  repeat match goal with |- context [decide ?P] => destruct (decide P) end; try reflexivity; try (exfalso; lia);
  f_equal; lia.

End Mem.
