(* ===== verification/ModesSpec.v ===== *)
(** * The chunk routines compute their modes

    Block-by-block definitions of ECB, CBC and PCBC, the interface [Mode] that
    the walk over a scatterlist relies on, and its instances: the in-place and
    the buffer-to-buffer routine of each mode leave the same bytes. *)

From S2P Require Import Prelude CipherBase Mem Modes.

Module ModesSpec.
Import CipherBase Mem Modes.

(** ** Streams of blocks *)

(** Applies [step], from an initialisation vector and a block to an output
    block and the next vector, to the first [k] blocks of [data]. *)
Fixpoint stream (bs : nat) (step : list Z -> list Z -> option (list Z * list Z)) (k : nat) (iv data : list Z)
    : option (list Z * list Z) :=
  match k with
  | O => Some ([], iv)
  | S k =>
      '(out, iv) ← stream bs step k iv data;
      '(b, iv) ← step iv (take bs (drop (k * bs) data));
      Some (out ++ b, iv)
  end.

Definition sized (n : nat) (l : list Z) : Prop := length l = n /\ bytes l.

(** A step that returns on vectors of size [ivs] and blocks of size [bs]. *)
Definition step_total (ivs bs : nat) (step : list Z -> list Z -> option (list Z * list Z)) : Prop :=
  forall iv b, sized ivs iv -> sized bs b -> exists o iv', step iv b = Some (o, iv') /\ sized bs o /\ sized ivs iv'.

Lemma sized_block bs k j l : sized k l -> (j * bs + bs <= k)%nat -> sized bs (take bs (drop (j * bs) l)).
Proof.
  intros [Hl Hb] H. split; [rewrite length_take, length_drop; lia|]. by apply Forall_take, Forall_drop.
Qed.

Lemma stream_ok ivs bs step k iv data n : step_total ivs bs step -> sized ivs iv -> sized n data -> (k * bs <= n)%nat ->
  exists o v, stream bs step k iv data = Some (o, v) /\ sized (k * bs) o /\ sized ivs v.
Proof.
  intros Hs Hiv Hd Hk. induction k as [|k IH]; [exists [], iv; split; [done|]; split; [by split; [|constructor]|done]|]. simpl in Hk.
  destruct IH as (o & v & E & [Hol Hob] & Hv); [lia|]. simpl. rewrite E. cbn [mbind option_bind].
  destruct (Hs v (take bs (drop (k * bs) data)) Hv) as (b & v' & -> & [Hbl Hbb] & Hv'); [apply (sized_block _ n); [done|lia]|].
  exists (o ++ b), v'. split; [done|]. split; [|done]. split; [rewrite length_app; lia|by apply Forall_app].
Qed.

(** Running a stream in two parts. *)
Lemma stream_add bs step k j iv data :
  stream bs step (k + j) iv data =
    '(o1, v) ← stream bs step k iv data; '(o2, v) ← stream bs step j v (drop (k * bs) data); Some (o1 ++ o2, v).
Proof.
  induction j as [|j IH].
  { rewrite Nat.add_0_r. destruct (stream bs step k iv data) as [[o v]|]; [|done]. simpl. by rewrite app_nil_r. }
  rewrite Nat.add_succ_r. simpl. rewrite IH. destruct (stream bs step k iv data) as [[o1 v]|]; [|done]. simpl.
  destruct (stream bs step j v _) as [[o2 v2]|]; [|done]. simpl. rewrite drop_drop.
  replace (k * bs + j * bs)%nat with ((k + j) * bs)%nat by lia.
  destruct (step v2 _) as [[b v3]|]; [|done]. simpl. by rewrite app_assoc.
Qed.

Lemma stream_take bs step k n iv data : (k * bs <= n)%nat -> stream bs step k iv (take n data) = stream bs step k iv data.
Proof.
  induction k as [|k IH]; intros H; [done|]. simpl in H |- *. rewrite IH by lia.
  replace (take bs (drop (k * bs) (take n data))) with (take bs (drop (k * bs) data)); [done|].
  rewrite skipn_firstn_comm, take_take. f_equal. lia.
Qed.

(** ** The modes *)

Section Steps.
Context {ctx : Type} `{!BlockCipher ctx} (tfm : ctx).

Definition ecb_step (f : ctx -> list Z -> option (list Z)) (iv b : list Z) : option (list Z * list Z) := o ← f tfm b; Some (o, iv).
Definition cbc_enc_step (iv b : list Z) : option (list Z * list Z) := e ← cia_encrypt tfm (xorl iv b); Some (e, e).
Definition cbc_dec_step (iv b : list Z) : option (list Z * list Z) := d ← cia_decrypt tfm b; Some (xorl d iv, b).
Definition pcbc_enc_step (iv b : list Z) : option (list Z * list Z) := e ← cia_encrypt tfm (xorl iv b); Some (e, xorl e b).
Definition pcbc_dec_step (iv b : list Z) : option (list Z * list Z) :=
  d ← cia_decrypt tfm b; let p := xorl d iv in Some (p, xorl b p).

(** The dispatch of [crypto_cbc_encrypt] and its like on the addresses of a
    chunk; [tmp] is the address of the local array of the in-place routines. *)
Definition cbc_encrypt_chunk (tmp : Z) (m : mem) (src dst iv nbytes : Z) : option (mem * Z) :=
  if src =? dst then crypto_cbc_encrypt_inplace tfm m src iv nbytes else crypto_cbc_encrypt_segment tfm m src dst iv nbytes.
Definition cbc_decrypt_chunk (tmp : Z) (m : mem) (src dst iv nbytes : Z) : option (mem * Z) :=
  if src =? dst then crypto_cbc_decrypt_inplace tfm tmp m src iv nbytes else crypto_cbc_decrypt_segment tfm m src dst iv nbytes.
Definition pcbc_encrypt_chunk (tmp : Z) (m : mem) (src dst iv nbytes : Z) : option (mem * Z) :=
  if src =? dst then crypto_pcbc_encrypt_inplace tfm tmp m src iv nbytes else crypto_pcbc_encrypt_segment tfm m src dst iv nbytes.
Definition pcbc_decrypt_chunk (tmp : Z) (m : mem) (src dst iv nbytes : Z) : option (mem * Z) :=
  if src =? dst then crypto_pcbc_decrypt_inplace tfm tmp m src iv nbytes else crypto_pcbc_decrypt_segment tfm m src dst iv nbytes.
End Steps.

(** What a chunk routine may assume of its buffers: [N] bytes of data, a vector
    and a local array, of which only the two data buffers may coincide. *)
Record chunk_pre (ivs bs N : nat) (tmp : Z) (m : mem) (src dst iv : Z) (data ivb : list Z) : Prop := {
  pre_data : load m src N = Some data;
  pre_bytes : bytes data;
  pre_iv : load m iv ivs = Some ivb;
  pre_ivb : bytes ivb;
  pre_dst : mapped m dst N;
  pre_tmp : mapped m tmp bs;
  pre_alias : src = dst \/ disj src N dst N;
  pre_iv_src : disj iv ivs src N;
  pre_iv_dst : disj iv ivs dst N;
  pre_tmp_src : disj tmp bs src N;
  pre_tmp_dst : disj tmp bs dst N;
  pre_tmp_iv : disj tmp bs iv ivs
}.

(** What it leaves: the output blocks, the next vector, and the local array
    with some contents; the rest of the memory is untouched. *)
Definition chunk_post (ivs bs k rem : nat) (tmp : Z) (m : mem) (dst iv : Z) (o v : list Z) (r : option (mem * Z)) : Prop :=
  exists t, length t = bs /\ r = Some (upd (upd (upd m tmp t) dst o) iv v, Z.of_nat rem).

(** A mode of operation: its step and a routine that runs it over a chunk of
    [k] blocks and [rem] more bytes. *)
Class Mode (bs : nat) := {
  ivsize : nat;
  mode_step : list Z -> list Z -> option (list Z * list Z);
  mode_chunk : Z -> mem -> Z -> Z -> Z -> Z -> option (mem * Z);
  mode_step_total : step_total ivsize bs mode_step;
  mode_chunk_ok : forall k rem tmp m src dst iv data ivb o v, (0 < k)%nat -> (rem < bs)%nat ->
    Z.of_nat (k * bs + rem) < 2 ^ 32 -> chunk_pre ivsize bs (k * bs + rem) tmp m src dst iv data ivb ->
    stream bs mode_step k ivb data = Some (o, v) ->
    chunk_post ivsize bs k rem tmp m dst iv o v (mode_chunk tmp m src dst iv (Z.of_nat (k * bs + rem)))
}.

(** ** Proofs of the routines *)

Section Proofs.
Context {ctx : Type} `{!BlockCipher ctx} (tfm : ctx).
Hypothesis Hctx : ctx_ok tfm.
Notation bs := (cra_blocksize (ctx := ctx)).

Lemma do_while_inv {A} (P : nat -> A -> Prop) (body : A -> option A) rem k a : (0 < k)%nat -> (rem < bs)%nat ->
  Z.of_nat (k * bs + rem) < 2 ^ 32 -> P 0%nat a ->
  (forall i a, (i < k)%nat -> P i a -> exists a', body a = Some a' /\ P (S i) a') ->
  exists a', do_while (blocks (Z.of_nat (k * bs + rem))) body a (Z.of_nat (k * bs + rem)) = Some (a', Z.of_nat rem) /\ P k a'.
Proof.
  intros Hk Hr Hlt H0 Hbody. pose proof (proj1 blocksize_ok) as Hbs. unfold blocks, bsize.
  replace (Z.to_nat (Z.of_nat (k * bs + rem) / Z.of_nat bs)) with k.
  2:{ rewrite Nat2Z.inj_add, Nat2Z.inj_mul, Z.div_add_l, Z.div_small by lia. lia. }
  enough (forall j i a, (i + j = k)%nat -> (0 < j)%nat -> P i a -> exists a', do_while j body a (Z.of_nat (j * bs + rem)) =
    Some (a', Z.of_nat rem) /\ P k a') as H by by apply (H k 0%nat a).
  clear a H0. induction j as [|j IH]; intros i a Hij Hj Hp; [lia|]. cbn [do_while].
  destruct (Hbody i a ltac:(lia) Hp) as (a' & -> & Hp'). cbn [mbind option_bind].
  unfold bsize. rewrite u32_small by (unfold is_u32; nia).
  replace (Z.of_nat (S j * bs + rem) - Z.of_nat bs) with (Z.of_nat (j * bs + rem)) by lia.
  destruct (Z.leb_spec (Z.of_nat bs) (Z.of_nat (j * bs + rem))).
  - apply (IH (S i)); [lia| |done]. destruct j; [lia|lia].
  - assert (j = 0%nat) by nia. subst j. exists a'. split; [done|]. by replace k with (S i) by lia.
Qed.

Lemma xor_run m a b la lb : disj a bs b bs -> load m a bs = Some la -> load m b bs = Some lb -> bytes la -> bytes lb ->
  exists x, xor m a b = Some (upd m a x) /\ x = xorl la lb /\ sized bs x.
Proof.
  intros Hd Ha Hb Hla Hlb. eexists. split; [|split; [done|]].
  - apply ctx_xor_ok; try done; apply blocksize_ok || (pose proof (proj2 blocksize_ok); lia).
  - split; [by apply xorl_length; eapply load_length|by apply xorl_bytes].
Qed.

Lemma fn_run f m d s b o : load m s bs = Some b -> f tfm b = Some o -> length o = bs -> mapped m d bs ->
  fn tfm f m d s = Some (upd m d o).
Proof. intros Hs Hf Ho Hd. unfold fn. rewrite Hs. cbn [mbind option_bind]. rewrite Hf. cbn [mbind option_bind]. apply store_ok. by rewrite Ho. Qed.

Section Chunk.
Context (ivs k rem : nat) (tmp : Z) (m : mem) (src dst iv : Z) (data ivb : list Z).
Hypothesis Hpre : chunk_pre ivs bs (k * bs + rem) tmp m src dst iv data ivb.

(** The memory after some blocks. *)
Definition M (t o v : list Z) : mem := upd (upd (upd m tmp t) dst o) iv v.

Lemma M_start : exists t, length t = bs /\ M t [] ivb = m.
Proof using Hpre.
  destruct Hpre. destruct pre_tmp0 as [t Ht]. exists t. split; [by apply load_length in Ht|].
  unfold M. simpl. rewrite (upd_id m tmp bs t Ht). by apply (upd_id m iv ivs).
Qed.

Lemma block_end i : (i < k)%nat -> (i * bs + bs <= k * bs)%nat.
Proof. nia. Qed.

Context (i : nat).
Hypothesis Hi : (i < k)%nat.

Lemma M_block_sized : sized bs (take bs (drop (i * bs) data)).
Proof using Hpre Hi.
  destruct Hpre. apply (sized_block _ (k * bs + rem)); [split; [by eapply load_length|done]|].
  pose proof (block_end i Hi). lia.
Qed.

Lemma iv_block : disj iv ivs (src + Z.of_nat (i * bs)) bs /\ disj iv ivs (dst + Z.of_nat (i * bs)) bs.
Proof using Hpre Hi.
  pose proof (block_end i Hi). destruct Hpre. split; [eapply disj_sub; [exact pre_iv_src0|lia..]|eapply disj_sub; [exact pre_iv_dst0|lia..]].
Qed.

Lemma tmp_block : disj tmp bs (src + Z.of_nat (i * bs)) bs /\ disj tmp bs (dst + Z.of_nat (i * bs)) bs /\ disj tmp bs iv ivs.
Proof using Hpre Hi.
  pose proof (block_end i Hi). destruct Hpre.
  split; [eapply disj_sub; [exact pre_tmp_src0|lia..]|]. split; [eapply disj_sub; [exact pre_tmp_dst0|lia..]|done].
Qed.

Context (t o v : list Z).

Lemma M_dst : mapped (M t o v) (dst + Z.of_nat (i * bs)) bs.
Proof using Hpre Hi.
  pose proof (block_end i Hi). destruct Hpre. unfold M. repeat apply mapped_upd.
  apply (mapped_sub _ dst (k * bs + rem)); [done|lia|lia].
Qed.

Lemma M_tmp : mapped (M t o v) tmp bs.
Proof using Hpre. destruct Hpre. unfold M. by repeat apply mapped_upd. Qed.

Hypothesis Ht : length t = bs.
Hypothesis Ho : length o = (i * bs)%nat.
Hypothesis Hv : length v = ivs.

Lemma M_block : load (M t o v) (src + Z.of_nat (i * bs)) bs = Some (take bs (drop (i * bs) data)).
Proof using Hpre Hi Ht Ho Hv.
  pose proof (block_end i Hi). destruct (iv_block) as [Hb _]. destruct tmp_block as (Hb' & _).
  unfold M. rewrite load_upd_ne by by rewrite Hv. rewrite load_upd_ne.
  2:{ rewrite Ho. destruct (pre_alias _ _ _ _ _ _ _ _ _ _ Hpre) as [<-|Hd]; [apply disj_next; lia|].
      apply disj_sym in Hd. eapply disj_sub; [exact Hd|lia..]. }
  rewrite load_upd_ne by by rewrite Ht. apply (load_sub _ _ (k * bs + rem)); [apply Hpre|lia].
Qed.

Lemma M_iv : load (M t o v) iv ivs = Some v.
Proof using Hv. by apply load_upd_eq. Qed.

(** The memory with one more block written. *)
Lemma M_next t' e v' : length t' = bs -> length e = bs -> length v' = ivs ->
  upd (upd (upd (M t o v) tmp t') (dst + Z.of_nat (i * bs)) e) iv v' = M t' (o ++ e) v'.
Proof using Hpre Hi Ht Ho Hv.
  intros Ht' He Hv'. destruct iv_block as [_ H1]. destruct tmp_block as (_ & H2 & H3). pose proof (block_end i Hi).
  assert (disj tmp bs dst (i * bs)) by (eapply disj_sub; [exact (pre_tmp_dst _ _ _ _ _ _ _ _ _ _ Hpre)|lia..]).
  assert (disj iv ivs dst (i * bs)) by (eapply disj_sub; [exact (pre_iv_dst _ _ _ _ _ _ _ _ _ _ Hpre)|lia..]).
  unfold M. rewrite upd_app, Ho. rewrite (upd_comm _ iv v tmp t') by (rewrite Hv, Ht'; by apply disj_sym).
  rewrite (upd_comm _ iv v (dst + Z.of_nat (i * bs)) e) by by rewrite Hv, He.
  rewrite upd_upd by congruence. rewrite (upd_comm _ dst o tmp t') by (rewrite Ho, Ht'; by apply disj_sym).
  by rewrite (upd_upd m tmp t t') by congruence.
Qed.

(** The same when the local array is not written. *)
Lemma M_write e v' : length e = bs -> length v' = ivs ->
  upd (upd (M t o v) (dst + Z.of_nat (i * bs)) e) iv v' = M t (o ++ e) v'.
Proof using Hpre Hi Ht Ho Hv.
  intros He Hv'. rewrite <- (M_next t e v' Ht He Hv'). f_equal. f_equal. symmetry. apply (upd_id _ tmp bs).
  assert (disj dst (i * bs) tmp bs) by (apply disj_sym; eapply disj_sub; [exact (pre_tmp_dst _ _ _ _ _ _ _ _ _ _ Hpre)|pose proof (block_end i Hi); lia..]).
  destruct tmp_block as (_ & _ & H3). apply disj_sym in H3. unfold M. rewrite load_upd_ne by by rewrite Hv.
  rewrite load_upd_ne by by rewrite Ho. by apply load_upd_eq.
Qed.

Lemma M_write_block e : length e = bs -> upd (M t o v) (dst + Z.of_nat (i * bs)) e = M t (o ++ e) v.
Proof using Hpre Hi Ht Ho Hv.
  intros He. rewrite <- (M_write e v He Hv). symmetry. apply (upd_id _ iv ivs).
  destruct iv_block as [_ H1]. rewrite load_upd_ne by (rewrite He; by apply disj_sym). by apply M_iv.
Qed.
End Chunk.

Lemma encrypt_ok b : sized bs b -> exists e, cia_encrypt tfm b = Some e /\ sized bs e.
Proof using Hctx. intros Hb. destruct (decrypt_encrypt tfm b Hctx Hb) as (e & E & He & _). by exists e. Qed.

Lemma decrypt_total b : sized bs b -> exists d, cia_decrypt tfm b = Some d /\ sized bs d.
Proof using Hctx. by apply decrypt_ok. Qed.

Lemma xorl_sized a b : sized bs a -> sized bs b -> sized bs (xorl a b).
Proof. intros [Ha Hab] [Hb Hbb]. split; [by apply xorl_length|by apply xorl_bytes]. Qed.

Lemma cbc_total : step_total bs bs (cbc_enc_step tfm) /\ step_total bs bs (cbc_dec_step tfm).
Proof using Hctx.
  split; intros iv b Hiv Hb.
  - destruct (encrypt_ok (xorl iv b) (xorl_sized _ _ Hiv Hb)) as (e & E & He). exists e, e. unfold cbc_enc_step. by rewrite E.
  - destruct (decrypt_total b Hb) as (d & E & Hd). exists (xorl d iv), b. unfold cbc_dec_step. rewrite E.
    split; [done|]. split; [by apply xorl_sized|done].
Qed.

Lemma pcbc_total : step_total bs bs (pcbc_enc_step tfm) /\ step_total bs bs (pcbc_dec_step tfm).
Proof using Hctx.
  split; intros iv b Hiv Hb.
  - destruct (encrypt_ok (xorl iv b) (xorl_sized _ _ Hiv Hb)) as (e & E & He). exists e, (xorl e b). unfold pcbc_enc_step. rewrite E.
    split; [done|]. split; [done|by apply xorl_sized].
  - destruct (decrypt_total b Hb) as (d & E & Hd). exists (xorl d iv), (xorl b (xorl d iv)). unfold pcbc_dec_step. rewrite E.
    split; [done|]. split; [by apply xorl_sized|by apply xorl_sized, xorl_sized].
Qed.

(** ** ECB *)

Lemma ecb_chunk_ok f k rem tmp m src dst iv data ivb o v : (forall b, sized bs b -> exists e, f tfm b = Some e /\ sized bs e) ->
  (0 < k)%nat -> (rem < bs)%nat -> Z.of_nat (k * bs + rem) < 2 ^ 32 ->
  chunk_pre 0 bs (k * bs + rem) tmp m src dst iv data ivb -> stream bs (ecb_step tfm f) k ivb data = Some (o, v) ->
  chunk_post 0 bs k rem tmp m dst iv o v (ecb_crypt_chunk tfm f m src dst iv (Z.of_nat (k * bs + rem))).
Proof using Hctx.
  intros Hf Hk Hr Hlt Hpre Hs. destruct (M_start 0 k rem tmp m src dst iv data ivb Hpre) as (t & Ht & HM).
  unfold ecb_crypt_chunk.
  destruct (do_while_inv (fun i '(m', s, d) => exists o v, stream bs (ecb_step tfm f) i ivb data = Some (o, v) /\
    length o = (i * bs)%nat /\ length v = 0%nat /\ m' = M tmp m dst iv t o v /\
    s = src + Z.of_nat (i * bs) /\ d = dst + Z.of_nat (i * bs))
    (fun '(m, wsrc, wdst) => m ← fn tfm f m wdst wsrc; Some (m, wsrc + bsize, wdst + bsize)) rem k (m, src, dst))
    as ([[m' s] d] & -> & o' & v' & E & Ho & Hv & -> & _ & _); try done.
  - exists [], ivb. rewrite HM, !Z.add_0_r. repeat split; try done. by eapply load_length, Hpre.
  - intros i [[m' s] d] Hi (o' & v' & E & Ho & Hv & -> & -> & ->).
    pose proof (M_block_sized _ _ _ _ _ _ _ _ _ _ Hpre i Hi) as Hb. destruct (Hf _ Hb) as (e & Ee & He & _).
    erewrite fn_run; [|by eapply M_block|exact Ee|done|by eapply M_dst]. cbn [mbind option_bind].
    eexists. split; [done|]. exists (o' ++ e), v'. simpl. rewrite E. cbn [mbind option_bind]. unfold ecb_step at 1. rewrite Ee.
    repeat split; try done; try (rewrite ?length_app, ?Ho, ?He; lia).
    + rewrite <- (M_write _ _ _ _ _ _ _ _ _ _ Hpre i Hi t o' v' Ht Ho Hv e v' He Hv). by destruct v'.
    + unfold bsize. lia.
    + unfold bsize. lia.
  - cbn [mbind option_bind]. rewrite Hs in E. simplify_eq. by exists t.
Qed.

(** ** CBC *)

Section Mode.
Context (k rem : nat) (tmp : Z) (m : mem) (src dst iv : Z) (data ivb o v : list Z).
Hypothesis Hpre : chunk_pre bs bs (k * bs + rem) tmp m src dst iv data ivb.

Lemma ivb_sized : sized bs ivb.
Proof using Hpre. split; [by eapply load_length, Hpre|apply Hpre]. Qed.

(** A routine that goes forward from the vector in memory: the state after [i]
    blocks. *)
Definition forward (step : list Z -> list Z -> option (list Z * list Z)) (i : nat) (m' : mem) : Prop :=
  exists t o v, stream bs step i ivb data = Some (o, v) /\ length t = bs /\ sized (i * bs) o /\ sized bs v /\
    m' = M tmp m dst iv t o v.

Lemma forward_start step : forward step 0 m.
Proof using Hpre.
  destruct (M_start bs k rem tmp m src dst iv data ivb Hpre) as (t & Ht & HM). exists t, [], ivb.
  split; [done|]. split; [done|]. split; [by split; [|constructor]|]. by split; [apply ivb_sized|].
Qed.

Lemma forward_end step m' : stream bs step k ivb data = Some (o, v) -> forward step k m' ->
  chunk_post bs bs k rem tmp m dst iv o v (Some (m', Z.of_nat rem)).
Proof. intros Hs (t & o' & v' & E & Ht & _ & _ & ->). simplify_eq. by exists t. Qed.

(** The final [memcpy(walk->iv, iv, bsize)] when [iv] is [walk->iv]. *)
Lemma forward_copy step m' : forward step k m' -> copy m' iv iv bs = Some m'.
Proof.
  intros (t & o' & v' & E & Ht & _ & [Hv _] & ->). erewrite copy_ok; [|by apply M_iv|by exists v'; apply M_iv].
  by rewrite (upd_id _ iv bs) by by apply M_iv.
Qed.

Lemma forward_snoc step i t o' v' t' e v'' : (i < k)%nat -> stream bs step i ivb data = Some (o', v') ->
  step v' (take bs (drop (i * bs) data)) = Some (e, v'') -> length t = bs -> sized (i * bs) o' -> sized bs v' ->
  length t' = bs -> sized bs e -> sized bs v'' ->
  forward step (S i) (upd (upd (upd (M tmp m dst iv t o' v') tmp t') (dst + Z.of_nat (i * bs)) e) iv v'').
Proof using Hpre.
  intros Hi E Es Ht [Ho Hob] [Hv _] Ht' [He Heb] [Hv'' Hvb]. exists t', (o' ++ e), v''.
  split; [simpl; rewrite E; cbn [mbind option_bind]; by rewrite Es|]. split; [done|].
  split; [split; [rewrite length_app; simpl; lia|by apply Forall_app]|]. split; [done|].
  by apply (M_next bs k rem _ _ src _ _ data ivb).
Qed.

Lemma forward_write step i t o' v' e v'' : (i < k)%nat -> stream bs step i ivb data = Some (o', v') ->
  step v' (take bs (drop (i * bs) data)) = Some (e, v'') -> length t = bs -> sized (i * bs) o' -> sized bs v' ->
  sized bs e -> sized bs v'' ->
  forward step (S i) (upd (upd (M tmp m dst iv t o' v') (dst + Z.of_nat (i * bs)) e) iv v'').
Proof using Hpre.
  intros Hi E Es Ht [Ho Hob] [Hv _] [He Heb] [Hv'' Hvb]. exists t, (o' ++ e), v''.
  split; [simpl; rewrite E; cbn [mbind option_bind]; by rewrite Es|]. split; [done|].
  split; [split; [rewrite length_app; simpl; lia|by apply Forall_app]|]. split; [done|].
  by apply (M_write bs k rem _ _ src _ _ data ivb).
Qed.

(** A routine whose vector is at a pointer: [walk->iv] first, then a block of
    ciphertext. *)
Definition chained (step : list Z -> list Z -> option (list Z * list Z)) (i : nat) (m' : mem) (ivp : Z) : Prop :=
  exists t o v, stream bs step i ivb data = Some (o, v) /\ length t = bs /\ sized (i * bs) o /\ sized bs v /\
    m' = M tmp m dst iv t o ivb /\ load m' ivp bs = Some v /\ ((i < k)%nat -> disj ivp bs (dst + Z.of_nat (i * bs)) bs).

Lemma chained_start step : chained step 0 m iv.
Proof using Hpre.
  destruct (M_start bs k rem tmp m src dst iv data ivb Hpre) as (t & Ht & HM). exists t, [], ivb.
  split; [done|]. split; [done|]. split; [by split; [|constructor]|]. split; [apply ivb_sized|]. split; [done|].
  split; [apply Hpre|]. intros Hi. by apply (iv_block _ _ _ _ _ _ _ _ _ _ Hpre 0 Hi).
Qed.

Lemma chained_end step m' ivp : stream bs step k ivb data = Some (o, v) -> chained step k m' ivp ->
  chunk_post bs bs k rem tmp m dst iv o v (m ← copy m' iv ivp bs; Some (m, Z.of_nat rem)).
Proof using Hpre.
  intros Hs (t & o' & v' & E & Ht & _ & [Hv _] & -> & Hl & _). rewrite Hs in E. injection E as <- <-.
  rewrite (copy_ok _ _ _ _ _ Hl) by (eexists; apply M_iv, ivb_sized). cbn [mbind option_bind]. exists t. split; [done|].
  unfold M. rewrite upd_upd; [done|]. rewrite Hv. apply ivb_sized.
Qed.

Lemma chained_write step i t o' v' e v'' ivp : (i < k)%nat -> stream bs step i ivb data = Some (o', v') ->
  step v' (take bs (drop (i * bs) data)) = Some (e, v'') -> length t = bs -> sized (i * bs) o' -> sized bs e -> sized bs v'' ->
  load (upd (M tmp m dst iv t o' ivb) (dst + Z.of_nat (i * bs)) e) ivp bs = Some v'' ->
  ((S i < k)%nat -> disj ivp bs (dst + Z.of_nat (S i * bs)) bs) ->
  chained step (S i) (upd (M tmp m dst iv t o' ivb) (dst + Z.of_nat (i * bs)) e) ivp.
Proof using Hpre.
  intros Hi E Es Ht [Ho Hob] [He Heb] [Hv'' Hvb] Hl Hd. exists t, (o' ++ e), v''.
  split; [simpl; rewrite E; cbn [mbind option_bind]; by rewrite Es|]. split; [done|].
  split; [split; [rewrite length_app; simpl; lia|by apply Forall_app]|]. split; [done|]. split; [|done].
  apply (M_write_block bs k rem _ _ src _ _ data ivb); try done. apply ivb_sized.
Qed.

Hypothesis Hk : (0 < k)%nat.
Hypothesis Hr : (rem < bs)%nat.
Hypothesis Hlt : Z.of_nat (k * bs + rem) < 2 ^ 32.

Lemma cbc_encrypt_segment_ok : stream bs (cbc_enc_step tfm) k ivb data = Some (o, v) ->
  chunk_post bs bs k rem tmp m dst iv o v (crypto_cbc_encrypt_segment tfm m src dst iv (Z.of_nat (k * bs + rem))).
Proof using Hctx Hk Hr Hlt Hpre.
  intros Hs. unfold crypto_cbc_encrypt_segment.
  match goal with |- context [do_while _ ?body _ _] => destruct (do_while_inv (fun i '(m', s, d) => forward (cbc_enc_step tfm) i m' /\
    s = src + Z.of_nat (i * bs) /\ d = dst + Z.of_nat (i * bs)) body rem k (m, src, dst)) as ([[m' s] d] & -> & Hf & _); try done end.
  - rewrite !Z.add_0_r. split; [apply forward_start|done].
  - intros i [[m' s] d] Hi [(t & o' & v' & E & Ht & Ho & Hv & ->) [-> ->]].
    pose proof (M_block_sized _ _ _ _ _ _ _ _ _ _ Hpre i Hi) as Hb. destruct (iv_block _ _ _ _ _ _ _ _ _ _ Hpre i Hi) as [D1 D2].
    destruct (xor_run (M tmp m dst iv t o' v') iv (src + Z.of_nat (i * bs)) v' (take bs (drop (i * bs) data))) as (x & -> & Ex & Hx);
      [done|apply M_iv, Hv|by eapply M_block; try done; [apply Ho|apply Hv]|apply Hv|apply Hb|]. cbn [mbind option_bind].
    destruct (encrypt_ok x Hx) as (e & Ee & He).
    rewrite (fn_run cia_encrypt _ _ _ x e); [|apply load_upd_eq, Hx|done|apply He|by apply mapped_upd; eapply M_dst]. cbn [mbind option_bind].
    erewrite copy_ok; [|apply load_upd_eq, He|apply mapped_upd, mapped_upd; eexists; apply M_iv, Hv]. cbn [mbind option_bind].
    eexists. split; [done|]. split; [|unfold bsize; lia].
    rewrite (upd_comm _ iv x) by (rewrite (proj1 Hx), (proj1 He); done). rewrite upd_upd by (rewrite (proj1 Hx), (proj1 He); done).
    apply forward_write; try done. unfold cbc_enc_step. by rewrite <- Ex, Ee.
  - cbn [mbind option_bind]. by eapply forward_end.
Qed.

Lemma cbc_encrypt_inplace_ok : src = dst -> stream bs (cbc_enc_step tfm) k ivb data = Some (o, v) ->
  chunk_post bs bs k rem tmp m dst iv o v (crypto_cbc_encrypt_inplace tfm m src iv (Z.of_nat (k * bs + rem))).
Proof using Hctx Hk Hr Hlt Hpre.
  intros Hsd Hs. unfold crypto_cbc_encrypt_inplace.
  match goal with |- context [do_while _ ?body _ _] => destruct (do_while_inv (fun i '(m', s, p) => chained (cbc_enc_step tfm) i m' p /\
    s = src + Z.of_nat (i * bs)) body rem k (m, src, iv)) as ([[m' s] p] & -> & Hf & _); try done end.
  - rewrite !Z.add_0_r. split; [apply chained_start|done].
  - intros i [[m' s] p] Hi [(t & o' & v' & E & Ht & Ho & Hv & -> & Hl & Hd) ->]. specialize (Hd Hi).
    pose proof (M_block_sized _ _ _ _ _ _ _ _ _ _ Hpre i Hi) as Hb. rewrite <- Hsd in Hd.
    destruct (xor_run (M tmp m dst iv t o' ivb) (src + Z.of_nat (i * bs)) p (take bs (drop (i * bs) data)) v') as (x & -> & Ex & Hx);
      [by apply disj_sym|eapply M_block; try done; [apply Ho|apply ivb_sized]|done|apply Hb|apply Hv|]. cbn [mbind option_bind].
    destruct (encrypt_ok x Hx) as (e & Ee & He).
    rewrite (fn_run cia_encrypt _ _ _ x e); [|apply load_upd_eq, Hx|done|apply He|eexists; apply load_upd_eq, Hx]. cbn [mbind option_bind].
    eexists. split; [done|]. split; [|unfold bsize; lia].
    rewrite upd_upd by (rewrite (proj1 Hx), (proj1 He); done). rewrite Hsd.
    apply (chained_write _ _ _ _ v' _ e); try done.
    + unfold cbc_enc_step. by rewrite xorl_comm, <- Ex, Ee.
    + apply load_upd_eq, He.
    + intros _. apply disj_next. simpl. lia.
  - cbn [mbind option_bind]. by eapply chained_end.
Qed.

Lemma cbc_decrypt_segment_ok : disj src (k * bs + rem) dst (k * bs + rem) -> stream bs (cbc_dec_step tfm) k ivb data = Some (o, v) ->
  chunk_post bs bs k rem tmp m dst iv o v (crypto_cbc_decrypt_segment tfm m src dst iv (Z.of_nat (k * bs + rem))).
Proof using Hctx Hk Hr Hlt Hpre.
  intros Hsd Hs. unfold crypto_cbc_decrypt_segment.
  match goal with |- context [do_while _ ?body _ _] => destruct (do_while_inv (fun i '(m', s, d, p) => chained (cbc_dec_step tfm) i m' p /\
    s = src + Z.of_nat (i * bs) /\ d = dst + Z.of_nat (i * bs)) body rem k (m, src, dst, iv)) as ([[[m' s] d] p] & -> & Hf & _); try done end.
  - rewrite !Z.add_0_r. split; [apply chained_start|done].
  - intros i [[[m' s] d] p] Hi [(t & o' & v' & E & Ht & Ho & Hv & -> & Hl & Hd) [-> ->]]. specialize (Hd Hi).
    pose proof (M_block_sized _ _ _ _ _ _ _ _ _ _ Hpre i Hi) as Hb.
    assert (load (M tmp m dst iv t o' ivb) (src + Z.of_nat (i * bs)) bs = Some (take bs (drop (i * bs) data))) as Hlb
      by (eapply M_block; try done; [apply Ho|apply ivb_sized]).
    destruct (decrypt_total _ Hb) as (x & Exd & Hx).
    rewrite (fn_run cia_decrypt _ _ _ _ x Hlb Exd); [|apply Hx|by eapply M_dst]. cbn [mbind option_bind].
    destruct (xor_run (upd (M tmp m dst iv t o' ivb) (dst + Z.of_nat (i * bs)) x) (dst + Z.of_nat (i * bs)) p x v') as (y & -> & Ey & Hy);
      [by apply disj_sym|apply load_upd_eq, Hx|rewrite load_upd_ne by (rewrite (proj1 Hx); by apply disj_sym); done|apply Hx|apply Hv|].
    cbn [mbind option_bind]. eexists. split; [done|]. split; [|unfold bsize; lia].
    rewrite upd_upd by (rewrite (proj1 Hx), (proj1 Hy); done). pose proof (block_end k i Hi).
    assert (forall j, (j < k)%nat -> disj (src + Z.of_nat (i * bs)) bs (dst + Z.of_nat (j * bs)) bs) as Hsep.
    { intros j Hj. pose proof (block_end k j Hj). eapply disj_sub; [exact Hsd|lia..]. }
    apply (chained_write _ _ _ _ v' _ (take bs (drop (i * bs) data))); try done.
    + unfold cbc_dec_step. by rewrite Exd, Ey.
    + rewrite load_upd_ne; [done|]. rewrite (proj1 Hy). apply disj_sym, Hsep, Hi.
    + intros Hj. by apply Hsep.
  - cbn [mbind option_bind]. by eapply chained_end.
Qed.
End Mode.

(** The backward loop of the in-place CBC decryption. *)

Lemma cbc_dec_iv j iv data o v : stream bs (cbc_dec_step tfm) (S j) iv data = Some (o, v) -> v = take bs (drop (j * bs) data).
Proof.
  simpl. destruct (stream _ _ j iv data) as [[o' v']|]; [|done]. simpl. unfold cbc_dec_step.
  destruct (cia_decrypt tfm _); [|done]. simpl. by intros [= _ <-].
Qed.

(** One block decrypted in place and combined with the block at [p]. *)
Lemma decrypt_block mm a p b w : load mm a bs = Some b -> bytes b -> load mm p bs = Some w -> bytes w -> disj a bs p bs ->
  exists d, cia_decrypt tfm b = Some d /\ sized bs d /\ fn tfm cia_decrypt mm a a = Some (upd mm a d) /\
    xor (upd mm a d) a p = Some (upd mm a (xorl d w)) /\ length (xorl d w) = bs.
Proof using Hctx.
  intros Ha Hb Hp Hw Hd. pose proof (load_length _ _ _ _ Ha) as Hlb. destruct (decrypt_total b (conj Hlb Hb)) as (d & Ed & Hds).
  exists d. split; [done|]. split; [done|]. split; [by apply (fn_run _ _ _ _ b); [|..|by eexists]; try apply Hds|].
  destruct (xor_run (upd mm a d) a p d w) as (y & -> & -> & Hy); [done|apply load_upd_eq, Hds| |apply Hds|done|].
  { rewrite load_upd_ne; [done|]. by rewrite (proj1 Hds). }
  rewrite upd_upd by (rewrite (proj1 Hds), (proj1 Hy); done). split; [done|apply Hy].
Qed.

Definition finish_inplace (tmp : Z) (r : option (mem * Z * Z)) : option (mem * Z) :=
  '(m, src, nbytes) ← r; m ← xor m src tmp; Some (m, nbytes).

Lemma backward_loop rem src tmp ivb data j : forall mm o v, (rem < bs)%nat -> Z.of_nat (j * bs + bs + rem) < 2 ^ 32 ->
  disj tmp bs src (j * bs + bs) -> load mm src (j * bs + bs) = Some (take (j * bs + bs) data) -> bytes data ->
  load mm tmp bs = Some ivb -> bytes ivb -> stream bs (cbc_dec_step tfm) (S j) ivb data = Some (o, v) ->
  finish_inplace tmp (decrypt_inplace_loop tfm (S j) mm (src + Z.of_nat (j * bs)) (Z.of_nat (j * bs + bs + rem))) =
    Some (upd mm src o, Z.of_nat rem).
Proof using Hctx.
  pose proof (proj1 (blocksize_ok (ctx := ctx))) as Hpos.
  induction j as [|j IH]; intros mm o v Hr Hlt Hd Hl Hb Ht Hib Hs.
  - cbn [decrypt_inplace_loop]. rewrite Z.add_0_r. destruct (decrypt_block mm src tmp (take bs data) ivb) as (d & Ed & Hds & -> & Hx & _);
      [done|by apply Forall_take|done|done|by apply disj_sym|].
    cbn [mbind option_bind]. unfold bsize. replace (Z.of_nat (0 * bs + bs + rem) - Z.of_nat bs) with (Z.of_nat rem) by lia.
    rewrite u32_small by (unfold is_u32; lia). rewrite (proj2 (Z.ltb_lt _ _)) by lia. unfold finish_inplace. cbn [mbind option_bind].
    rewrite Hx. cbn [mbind option_bind]. unfold stream, cbc_dec_step in Hs. simpl in Hs. rewrite drop_0, Ed in Hs. by simplify_eq/=.
  - remember (S j) as j1 eqn:Ej1. cbn [decrypt_inplace_loop]. subst j1.
    replace (S j * bs)%nat with (j * bs + bs)%nat in * by lia. apply load_split in Hl as [Hl1 Hl2].
    rewrite take_take, Nat.min_l in Hl1 by lia. rewrite skipn_firstn_comm in Hl2. replace (j * bs + bs + bs - (j * bs + bs))%nat with bs in Hl2 by lia.
    assert (load mm (src + Z.of_nat (j * bs)) bs = Some (take bs (drop (j * bs) data))) as Hprev.
    { erewrite (load_sub _ _ _ _ (j * bs) bs Hl1) by lia. f_equal. rewrite skipn_firstn_comm, take_take. f_equal. lia. }
    destruct (decrypt_block mm (src + Z.of_nat (j * bs + bs)) (src + Z.of_nat (j * bs)) (take bs (drop (j * bs + bs) data))
      (take bs (drop (j * bs) data))) as (d & Ed & Hds & -> & Hx & Hlen);
      [done|by apply Forall_take, Forall_drop|done|by apply Forall_take, Forall_drop|apply disj_sym, disj_next; lia|].
    cbn [mbind option_bind]. unfold bsize. rewrite u32_small by (unfold is_u32; lia).
    replace (Z.of_nat (j * bs + bs + bs + rem) - Z.of_nat bs) with (Z.of_nat (j * bs + bs + rem)) by lia.
    rewrite (proj2 (Z.ltb_ge _ _)) by lia. replace (src + Z.of_nat (j * bs + bs) - Z.of_nat bs) with (src + Z.of_nat (j * bs)) by lia.
    rewrite Hx. cbn [mbind option_bind]. clear Hx.
    destruct (stream_ok bs bs (cbc_dec_step tfm) (S j) ivb data (length data)) as (o' & v' & E & [Hlo _] & _); [apply cbc_total| |by split| |].
    { split; [by eapply load_length|done]. }
    { apply load_length in Hl1. rewrite length_take in Hl1. lia. }
    pose proof (cbc_dec_iv _ _ _ _ _ E) as Hv'. remember (S j) as j1. cbn [stream] in Hs. rewrite E in Hs. subst j1.
    cbn [mbind option_bind] in Hs. replace (S j * bs)%nat with (j * bs + bs)%nat in * by lia.
    unfold cbc_dec_step in Hs. rewrite Ed in Hs. cbn [mbind option_bind] in Hs. injection Hs as <- _. subst v'.
    erewrite IH; [|done|lia|eapply disj_sub; [exact Hd|lia..]| |done| |done|exact E].
    + rewrite (upd_comm _ _ _ src o') by (rewrite Hlen, Hlo; apply disj_sym, disj_next; lia). by rewrite upd_app, Hlo.
    + rewrite load_upd_ne; [done|]. rewrite Hlen. apply disj_sym, disj_next. lia.
    + rewrite load_upd_ne; [done|]. rewrite Hlen. apply disj_sym. eapply disj_sub; [exact Hd|lia..].
Qed.

(** The state of an in-place loop after [i] blocks. *)
Definition inp_inv (tmp : Z) (m : mem) (src iv : Z) (data ivb : list Z) (step : list Z -> list Z -> option (list Z * list Z))
    (i : nat) (st : mem * Z) : Prop :=
  let '(m', s) := st in forward tmp m src iv data ivb step i m' /\ s = src + Z.of_nat (i * bs).

Section Mode2.
Context (k rem : nat) (tmp : Z) (m : mem) (src dst iv : Z) (data ivb o v : list Z).
Hypothesis Hk : (0 < k)%nat.
Hypothesis Hr : (rem < bs)%nat.
Hypothesis Hlt : Z.of_nat (k * bs + rem) < 2 ^ 32.
Hypothesis Hpre : chunk_pre bs bs (k * bs + rem) tmp m src dst iv data ivb.

Lemma cbc_decrypt_inplace_ok : src = dst -> stream bs (cbc_dec_step tfm) k ivb data = Some (o, v) ->
  chunk_post bs bs k rem tmp m dst iv o v (crypto_cbc_decrypt_inplace tfm tmp m src iv (Z.of_nat (k * bs + rem))).
Proof using Hctx Hk Hr Hlt Hpre.
  intros Hsd Hs. subst dst. pose proof (ivb_sized k rem tmp m src src iv data ivb Hpre) as [Hil Hib].
  destruct Hpre as [Pd Pb Pi _ _ Pt _ Pis _ Pts _ Pti]. unfold crypto_cbc_decrypt_inplace.
  destruct k as [|j]; [lia|]. replace (S j * bs + rem)%nat with (j * bs + bs + rem)%nat in * by lia.
  assert (Z.of_nat (j * bs + bs + rem) mod bsize = Z.of_nat rem) as Hmod.
  { unfold bsize. replace (Z.of_nat (j * bs + bs + rem)) with (Z.of_nat rem + (Z.of_nat j + 1) * Z.of_nat bs) by lia.
    rewrite Z_mod_plus_full, Z.mod_small by lia. done. }
  assert (blocks (Z.of_nat (j * bs + bs + rem)) = S j) as Hblk.
  { unfold blocks, bsize. replace (Z.of_nat (j * bs + bs + rem)) with (Z.of_nat rem + (Z.of_nat j + 1) * Z.of_nat bs) by lia.
    rewrite Z.div_add, Z.div_small by lia. lia. }
  rewrite Hmod, Hblk. unfold bsize. replace (src + (Z.of_nat (j * bs + bs + rem) - Z.of_nat rem - Z.of_nat bs)) with (src + Z.of_nat (j * bs)) by lia.
  rewrite (copy_ok _ _ _ _ _ Pi Pt). cbn [mbind option_bind].
  assert (forall a n, src <= a -> a + Z.of_nat n <= src + Z.of_nat (j * bs + bs + rem) -> disj tmp bs a n /\ disj iv bs a n) as Hsep.
  { intros a n H1 H2. split; [eapply disj_sub; [exact Pts|lia..]|eapply disj_sub; [exact Pis|lia..]]. }
  erewrite copy_ok; [|rewrite load_upd_ne by (rewrite Hil; apply Hsep; lia); apply (load_sub _ _ (j * bs + bs + rem)); [done|lia]|
    apply mapped_upd; by eexists]. cbn [mbind option_bind].
  pose proof (cbc_dec_iv _ _ _ _ _ Hs) as Hv. rewrite <- Hv. assert (length v = bs) as Hvl.
  { rewrite Hv, length_take, length_drop. apply load_length in Pd. lia. }
  change (chunk_post bs bs (S j) rem tmp m src iv o v (finish_inplace tmp (decrypt_inplace_loop tfm (S j) (upd (upd m tmp ivb) iv v)
    (src + Z.of_nat (j * bs)) (Z.of_nat (j * bs + bs + rem))))).
  assert (length o = S j * bs)%nat as Hol.
  { destruct (stream_ok bs bs (cbc_dec_step tfm) (S j) ivb data (length data)) as (o2 & v2 & E2 & [? _] & _);
      [apply cbc_total|by split|by split|apply load_length in Pd; lia|congruence]. }
  rewrite (backward_loop rem src tmp ivb data j _ o v); [|done|lia|apply Hsep; lia| |done| |done|exact Hs].
  - exists ivb. split; [done|]. rewrite upd_comm; [done|]. rewrite Hvl, Hol. apply Hsep; lia.
  - rewrite load_upd_ne by (rewrite Hvl; apply Hsep; lia). rewrite load_upd_ne by (rewrite Hil; apply Hsep; lia).
    apply load_split in Pd as [Pd _]. done.
  - rewrite load_upd_ne by (rewrite Hvl; by apply disj_sym). by apply load_upd_eq.
Qed.

(** ** PCBC *)

(** The start of both encryption routines on a block [b] at [p]: the vector
    receives the block and is encrypted to [d]. *)
Lemma xor_encrypt mm d p w b : load mm iv bs = Some w -> sized bs w -> load mm p bs = Some b -> sized bs b ->
  disj iv bs p bs -> disj iv bs d bs -> disj d bs p bs -> mapped mm d bs ->
  exists e, pcbc_enc_step tfm w b = Some (e, xorl e b) /\ sized bs e /\ sized bs (xorl e b) /\ forall A (K : mem -> option A),
    (m ← xor mm iv p; m ← fn tfm cia_encrypt m d iv; m ← copy m iv d bs; m ← xor m iv p; K m) = K (upd (upd mm d e) iv (xorl e b)).
Proof using Hctx.
  intros Hl [Hw Hwb] Hp Hbs Hd1 Hd2 Hd3 Hmap. destruct (xor_run mm iv p w b) as (x & -> & Ex & Hx); [done..|apply Hbs|]. cbn [mbind option_bind].
  destruct (encrypt_ok x Hx) as (e & Ee & He). exists e. unfold pcbc_enc_step. rewrite <- Ex, Ee.
  split; [done|]. split; [done|]. pose proof (xorl_sized e b He Hbs) as Hxs. split; [done|]. intros A K.
  rewrite (fn_run cia_encrypt _ _ _ x e); [|apply load_upd_eq, Hx|done|apply He|by apply mapped_upd]. cbn [mbind option_bind].
  erewrite copy_ok; [|apply load_upd_eq, He|apply mapped_upd, mapped_upd; by eexists]. cbn [mbind option_bind].
  rewrite (upd_comm _ iv x) by (rewrite (proj1 Hx), (proj1 He); done). rewrite upd_upd by (rewrite (proj1 Hx), (proj1 He); done).
  destruct (xor_run (upd (upd mm d e) iv e) iv p e b) as (y & -> & -> & Hy); [done|apply load_upd_eq, He| |apply He|apply Hbs|].
  - rewrite load_upd_ne by by rewrite (proj1 He). by rewrite load_upd_ne by by rewrite (proj1 He).
  - cbn [mbind option_bind]. by rewrite upd_upd by (rewrite (proj1 He), (proj1 Hy); done).
Qed.

(** Both decryption routines: the block [b], read at [s] for the cipher and at
    [p] for the vector, is decrypted to [d]. *)
Lemma decrypt_xor mm d s p w b : load mm iv bs = Some w -> sized bs w -> load mm s bs = Some b -> load mm p bs = Some b -> sized bs b ->
  disj iv bs d bs -> disj iv bs p bs -> disj d bs p bs -> mapped mm d bs ->
  exists q, pcbc_dec_step tfm w b = Some (q, xorl b q) /\ sized bs q /\ sized bs (xorl b q) /\ forall A (K : mem -> option A),
    (m ← fn tfm cia_decrypt mm d s; m ← xor m d iv; m ← copy m iv p bs; m ← xor m iv d; K m) = K (upd (upd mm d q) iv (xorl b q)).
Proof using Hctx.
  intros Hl [Hw Hwb] Hs Hp Hbs Hd1 Hd2 Hd3 Hmap. destruct (decrypt_total b Hbs) as (x & Ex & Hx).
  rewrite (fn_run cia_decrypt mm d s b x Hs Ex (proj1 Hx) Hmap). cbn [mbind option_bind].
  destruct (xor_run (upd mm d x) d iv x w) as (q & -> & Eq & Hq); [by apply disj_sym|apply load_upd_eq, Hx| |apply Hx|done|].
  { by rewrite load_upd_ne by (rewrite (proj1 Hx); by apply disj_sym). }
  exists q. unfold pcbc_dec_step. rewrite Ex. cbn [mbind option_bind]. rewrite <- Eq. split; [done|]. split; [done|].
  pose proof (xorl_sized b q Hbs Hq) as Hbq. split; [done|]. intros A K. rewrite upd_upd by (rewrite (proj1 Hx), (proj1 Hq); done).
  erewrite copy_ok; [|rewrite load_upd_ne by (rewrite (proj1 Hq); done); exact Hp|apply mapped_upd; by eexists]. cbn [mbind option_bind].
  destruct (xor_run (upd (upd mm d q) iv b) iv d b q) as (y & -> & -> & Hy); [done|apply load_upd_eq, Hbs| |apply Hbs|apply Hq|].
  - rewrite load_upd_ne by by rewrite (proj1 Hbs). apply load_upd_eq, Hq.
  - cbn [mbind option_bind]. by rewrite upd_upd by (rewrite (proj1 Hbs), (proj1 Hy); done).
Qed.

(** The state of a loop over buffers after [i] blocks. *)
Definition seg_inv (step : list Z -> list Z -> option (list Z * list Z)) (i : nat) (st : mem * Z * Z) : Prop :=
  let '(m', s, d) := st in
  forward tmp m dst iv data ivb step i m' /\ s = src + Z.of_nat (i * bs) /\ d = dst + Z.of_nat (i * bs).

Lemma pcbc_segments_ok : disj src (k * bs + rem) dst (k * bs + rem) ->
  (stream bs (pcbc_enc_step tfm) k ivb data = Some (o, v) ->
   chunk_post bs bs k rem tmp m dst iv o v (crypto_pcbc_encrypt_segment tfm m src dst iv (Z.of_nat (k * bs + rem)))) /\
  (stream bs (pcbc_dec_step tfm) k ivb data = Some (o, v) ->
   chunk_post bs bs k rem tmp m dst iv o v (crypto_pcbc_decrypt_segment tfm m src dst iv (Z.of_nat (k * bs + rem)))).
Proof using Hctx Hk Hr Hlt Hpre.
  intros Hsd.
  assert (forall step, seg_inv step 0 (m, src, dst)) as Hstart by (intros; split; [by eapply forward_start|lia]).
  assert (forall i, (i < k)%nat -> disj (dst + Z.of_nat (i * bs)) bs (src + Z.of_nat (i * bs)) bs) as Hblk.
  { intros i Hi. pose proof (block_end k i Hi). apply disj_sym. eapply disj_sub; [exact Hsd|lia..]. }
  split; intros Hs.
  - unfold crypto_pcbc_encrypt_segment.
    match goal with |- context [do_while _ ?body _ _] => destruct (do_while_inv (seg_inv (pcbc_enc_step tfm)) body rem k (m, src, dst))
      as ([[m' s] d] & -> & Hf & _); try done end; [|cbn [mbind option_bind]; by eapply forward_end].
    intros i [[m' s] d] Hi [(t & o' & v' & E & Ht & Ho & Hv & ->) [-> ->]].
    destruct (iv_block _ _ _ _ _ _ _ _ _ _ Hpre i Hi) as [D1 D2].
    edestruct xor_encrypt as (e & Ee & He & Hx & ->); [apply M_iv, Hv|done|by eapply M_block; try done; [apply Ho|apply Hv]|
      by eapply M_block_sized|done|exact D2|by apply Hblk|by eapply M_dst|].
    eexists. split; [done|]. split; [|unfold bsize; lia]. by eapply forward_write.
  - unfold crypto_pcbc_decrypt_segment.
    match goal with |- context [do_while _ ?body _ _] => destruct (do_while_inv (seg_inv (pcbc_dec_step tfm)) body rem k (m, src, dst))
      as ([[m' s] d] & -> & Hf & _); try done end;
      [|cbn [mbind option_bind]; erewrite forward_copy by done; cbn [mbind option_bind]; by eapply forward_end].
    intros i [[m' s] d] Hi [(t & o' & v' & E & Ht & Ho & Hv & ->) [-> ->]].
    destruct (iv_block _ _ _ _ _ _ _ _ _ _ Hpre i Hi) as [D1 D2].
    assert (load (M tmp m dst iv t o' v') (src + Z.of_nat (i * bs)) bs = Some (take bs (drop (i * bs) data))) as Hlb
      by (eapply M_block; try done; [apply Ho|apply Hv]).
    edestruct decrypt_xor as (q & Eq & Hq & Hx & ->); [apply M_iv, Hv|done|exact Hlb|exact Hlb|by eapply M_block_sized|exact D2|
      exact D1|by apply Hblk|by eapply M_dst|].
    eexists. split; [done|]. split; [|unfold bsize; lia]. by eapply forward_write.
Qed.

(** The in-place loops run on a copy of the block in the local array. *)
Lemma tmp_copy i t o' v' : (i < k)%nat -> length t = bs -> sized (i * bs) o' -> sized bs v' ->
  let b := take bs (drop (i * bs) data) in let mm := upd (M tmp m dst iv t o' v') tmp b in
  copy (M tmp m dst iv t o' v') tmp (src + Z.of_nat (i * bs)) bs = Some mm /\ sized bs b /\
  load mm iv bs = Some v' /\ load mm tmp bs = Some b /\ load mm (src + Z.of_nat (i * bs)) bs = Some b /\
  mapped mm (dst + Z.of_nat (i * bs)) bs.
Proof using Hpre.
  intros Hi Ht [Ho _] [Hv _] b mm. destruct (tmp_block _ _ _ _ _ _ _ _ _ _ Hpre i Hi) as (D1 & D2 & D3).
  pose proof (M_block_sized _ _ _ _ _ _ _ _ _ _ Hpre i Hi) as Hb. fold b in Hb.
  assert (load (M tmp m dst iv t o' v') (src + Z.of_nat (i * bs)) bs = Some b) as Hlb by by eapply M_block.
  rewrite (copy_ok _ _ _ _ _ Hlb) by by eapply M_tmp. split; [done|]. split; [done|]. unfold mm.
  split; [rewrite load_upd_ne by (rewrite (proj1 Hb); done); by apply M_iv|]. split; [apply load_upd_eq, Hb|].
  split; [by rewrite load_upd_ne by (rewrite (proj1 Hb); done)|]. apply mapped_upd. by eapply M_dst.
Qed.

Lemma pcbc_inplace_ok : src = dst ->
  (stream bs (pcbc_enc_step tfm) k ivb data = Some (o, v) ->
   chunk_post bs bs k rem tmp m dst iv o v (crypto_pcbc_encrypt_inplace tfm tmp m src iv (Z.of_nat (k * bs + rem)))) /\
  (stream bs (pcbc_dec_step tfm) k ivb data = Some (o, v) ->
   chunk_post bs bs k rem tmp m dst iv o v (crypto_pcbc_decrypt_inplace tfm tmp m src iv (Z.of_nat (k * bs + rem)))).
Proof using Hctx Hk Hr Hlt Hpre.
  intros Hsd. pose proof tmp_copy as Hcopy. pose proof Hpre as Hp. rewrite <- Hsd in *. clear Hsd.
  assert (forall step, inp_inv tmp m src iv data ivb step 0 (m, src)) as Hstart by (intros; split; [by eapply forward_start|lia]).
  split; intros Hs.
  - unfold crypto_pcbc_encrypt_inplace.
    match goal with |- context [do_while _ ?body _ _] => destruct (do_while_inv (inp_inv tmp m src iv data ivb (pcbc_enc_step tfm)) body rem k (m, src))
      as ([m' s] & -> & Hf & _); try done end;
      [|cbn [mbind option_bind]; erewrite forward_copy by done; cbn [mbind option_bind]; by eapply forward_end].
    intros i [m' s] Hi [(t & o' & v' & E & Ht & Ho & Hv & ->) ->].
    destruct (iv_block _ _ _ _ _ _ _ _ _ _ Hp i Hi) as [D1 _]. destruct (tmp_block _ _ _ _ _ _ _ _ _ _ Hp i Hi) as (D3 & _ & D5).
    destruct (Hcopy i t o' v' Hi Ht Ho Hv) as (-> & Hb & L1 & L2 & L3 & Hm). cbn [mbind option_bind].
    edestruct xor_encrypt as (e & Ee & He & Hx & ->); [exact L1|done|exact L2|done|by apply disj_sym|exact D1|by apply disj_sym|exact Hm|].
    eexists. split; [done|]. split; [|unfold bsize; lia]. eapply forward_snoc; try done. apply Hb.
  - unfold crypto_pcbc_decrypt_inplace.
    match goal with |- context [do_while _ ?body _ _] => destruct (do_while_inv (inp_inv tmp m src iv data ivb (pcbc_dec_step tfm)) body rem k (m, src))
      as ([m' s] & -> & Hf & _); try done end;
      [|cbn [mbind option_bind]; erewrite forward_copy by done; cbn [mbind option_bind]; by eapply forward_end].
    intros i [m' s] Hi [(t & o' & v' & E & Ht & Ho & Hv & ->) ->].
    destruct (iv_block _ _ _ _ _ _ _ _ _ _ Hp i Hi) as [D1 _]. destruct (tmp_block _ _ _ _ _ _ _ _ _ _ Hp i Hi) as (D3 & _ & D5).
    destruct (Hcopy i t o' v' Hi Ht Ho Hv) as (-> & Hb & L1 & L2 & L3 & Hm). cbn [mbind option_bind].
    edestruct decrypt_xor as (q & Eq & Hq & Hx & ->); [exact L1|done|exact L3|exact L2|done|exact D1|by apply disj_sym|by apply disj_sym|exact Hm|].
    eexists. split; [done|]. split; [|unfold bsize; lia]. eapply forward_snoc; try done. apply Hb.
Qed.
End Mode2.

End Proofs.

(** ** The instances *)

Section Instances.
Context {ctx : Type} `{!BlockCipher ctx} (tfm : ctx).
Hypothesis Hctx : ctx_ok tfm.
Notation bs := (cra_blocksize (ctx := ctx)).

Lemma ecb_total f : (forall b, sized bs b -> exists e, f tfm b = Some e /\ sized bs e) -> step_total 0 bs (ecb_step tfm f).
Proof. intros Hf iv b Hiv Hb. destruct (Hf b Hb) as (e & E & He). exists e, iv. unfold ecb_step. by rewrite E. Qed.

Definition ecb_mode (f : ctx -> list Z -> option (list Z)) (Hf : forall b, sized bs b -> exists e, f tfm b = Some e /\ sized bs e) : Mode bs := {|
  mode_chunk := fun _ => ecb_crypt_chunk tfm f; mode_step_total := ecb_total f Hf;
  mode_chunk_ok := fun k rem tmp m src dst iv data ivb o v => ecb_chunk_ok tfm Hctx f k rem tmp m src dst iv data ivb o v Hf
|}.

Lemma cbc_encrypt_chunk_ok k rem tmp m src dst iv data ivb o v : (0 < k)%nat -> (rem < bs)%nat ->
  Z.of_nat (k * bs + rem) < 2 ^ 32 -> chunk_pre bs bs (k * bs + rem) tmp m src dst iv data ivb ->
  stream bs (cbc_enc_step tfm) k ivb data = Some (o, v) ->
  chunk_post bs bs k rem tmp m dst iv o v (cbc_encrypt_chunk tfm tmp m src dst iv (Z.of_nat (k * bs + rem))).
Proof using Hctx.
  intros. unfold cbc_encrypt_chunk. destruct (Z.eqb_spec src dst) as [->|Hne].
  - by apply (cbc_encrypt_inplace_ok tfm Hctx k rem tmp m dst dst iv data ivb).
  - by apply (cbc_encrypt_segment_ok tfm Hctx k rem tmp m src dst iv data ivb).
Qed.

Lemma alias_disj ivs N tmp m src dst iv data ivb : chunk_pre ivs bs N tmp m src dst iv data ivb -> src <> dst -> disj src N dst N.
Proof. intros [_ _ _ _ _ _ [?|?] _ _ _ _ _] ?; done. Qed.

Lemma cbc_decrypt_chunk_ok k rem tmp m src dst iv data ivb o v : (0 < k)%nat -> (rem < bs)%nat ->
  Z.of_nat (k * bs + rem) < 2 ^ 32 -> chunk_pre bs bs (k * bs + rem) tmp m src dst iv data ivb ->
  stream bs (cbc_dec_step tfm) k ivb data = Some (o, v) ->
  chunk_post bs bs k rem tmp m dst iv o v (cbc_decrypt_chunk tfm tmp m src dst iv (Z.of_nat (k * bs + rem))).
Proof using Hctx.
  intros. unfold cbc_decrypt_chunk. destruct (Z.eqb_spec src dst) as [->|Hne].
  - by apply (cbc_decrypt_inplace_ok tfm Hctx k rem tmp m dst dst iv data ivb).
  - apply (cbc_decrypt_segment_ok tfm Hctx k rem tmp m src dst iv data ivb); try done. by eapply alias_disj.
Qed.

Lemma pcbc_encrypt_chunk_ok k rem tmp m src dst iv data ivb o v : (0 < k)%nat -> (rem < bs)%nat ->
  Z.of_nat (k * bs + rem) < 2 ^ 32 -> chunk_pre bs bs (k * bs + rem) tmp m src dst iv data ivb ->
  stream bs (pcbc_enc_step tfm) k ivb data = Some (o, v) ->
  chunk_post bs bs k rem tmp m dst iv o v (pcbc_encrypt_chunk tfm tmp m src dst iv (Z.of_nat (k * bs + rem))).
Proof using Hctx.
  intros. unfold pcbc_encrypt_chunk. destruct (Z.eqb_spec src dst) as [->|Hne].
  - by apply (pcbc_inplace_ok tfm Hctx k rem tmp m dst dst iv data ivb).
  - apply (pcbc_segments_ok tfm Hctx k rem tmp m src dst iv data ivb); try done. by eapply alias_disj.
Qed.

Lemma pcbc_decrypt_chunk_ok k rem tmp m src dst iv data ivb o v : (0 < k)%nat -> (rem < bs)%nat ->
  Z.of_nat (k * bs + rem) < 2 ^ 32 -> chunk_pre bs bs (k * bs + rem) tmp m src dst iv data ivb ->
  stream bs (pcbc_dec_step tfm) k ivb data = Some (o, v) ->
  chunk_post bs bs k rem tmp m dst iv o v (pcbc_decrypt_chunk tfm tmp m src dst iv (Z.of_nat (k * bs + rem))).
Proof using Hctx.
  intros. unfold pcbc_decrypt_chunk. destruct (Z.eqb_spec src dst) as [->|Hne].
  - by apply (pcbc_inplace_ok tfm Hctx k rem tmp m dst dst iv data ivb).
  - apply (pcbc_segments_ok tfm Hctx k rem tmp m src dst iv data ivb); try done. by eapply alias_disj.
Qed.

Definition ecb_encrypt_mode : Mode bs := ecb_mode cia_encrypt (encrypt_ok tfm Hctx).
Definition ecb_decrypt_mode : Mode bs := ecb_mode cia_decrypt (decrypt_total tfm Hctx).
Definition cbc_encrypt_mode : Mode bs := {|
  mode_chunk := cbc_encrypt_chunk tfm; mode_step_total := proj1 (cbc_total tfm Hctx); mode_chunk_ok := cbc_encrypt_chunk_ok |}.
Definition cbc_decrypt_mode : Mode bs := {|
  mode_chunk := cbc_decrypt_chunk tfm; mode_step_total := proj2 (cbc_total tfm Hctx); mode_chunk_ok := cbc_decrypt_chunk_ok |}.
Definition pcbc_encrypt_mode : Mode bs := {|
  mode_chunk := pcbc_encrypt_chunk tfm; mode_step_total := proj1 (pcbc_total tfm Hctx); mode_chunk_ok := pcbc_encrypt_chunk_ok |}.
Definition pcbc_decrypt_mode : Mode bs := {|
  mode_chunk := pcbc_decrypt_chunk tfm; mode_step_total := proj2 (pcbc_total tfm Hctx); mode_chunk_ok := pcbc_decrypt_chunk_ok |}.

(** ** Decryption inverts encryption, block by block *)

Definition inverse_steps (ivs : nat) (enc dec : list Z -> list Z -> option (list Z * list Z)) : Prop :=
  forall iv b, sized ivs iv -> sized bs b -> exists e v, enc iv b = Some (e, v) /\ dec iv e = Some (b, v) /\ sized bs e /\ sized ivs v.

Lemma ecb_inverse : inverse_steps 0 (ecb_step tfm cia_encrypt) (ecb_step tfm cia_decrypt).
Proof using Hctx.
  intros iv b Hiv Hb. destruct (decrypt_encrypt tfm b Hctx Hb) as (e & E & He & D). exists e, iv. unfold ecb_step. by rewrite E, D.
Qed.

Lemma cbc_inverse : inverse_steps bs (cbc_enc_step tfm) (cbc_dec_step tfm).
Proof using Hctx.
  intros iv b Hiv Hb. destruct (decrypt_encrypt tfm (xorl iv b) Hctx (xorl_sized iv b Hiv Hb)) as (e & E & He & D).
  exists e, e. unfold cbc_enc_step, cbc_dec_step. rewrite E, D. cbn [mbind option_bind].
  by rewrite (xorl_comm iv b), xorl_cancel by (rewrite (proj1 Hiv), (proj1 Hb); done).
Qed.

Lemma pcbc_inverse : inverse_steps bs (pcbc_enc_step tfm) (pcbc_dec_step tfm).
Proof using Hctx.
  intros iv b Hiv Hb. destruct (decrypt_encrypt tfm (xorl iv b) Hctx (xorl_sized iv b Hiv Hb)) as (e & E & He & D).
  exists e, (xorl e b). unfold pcbc_enc_step, pcbc_dec_step. rewrite E, D. cbn [mbind option_bind].
  rewrite (xorl_comm iv b), xorl_cancel by (rewrite (proj1 Hiv), (proj1 Hb); done).
  split; [done|]. split; [done|]. split; [done|by apply xorl_sized].
Qed.

Lemma stream_inverse ivs enc dec k iv data n : inverse_steps ivs enc dec -> sized ivs iv -> sized n data -> (k * bs <= n)%nat ->
  exists o v, stream bs enc k iv data = Some (o, v) /\ stream bs dec k iv o = Some (take (k * bs) data, v) /\ sized (k * bs) o /\ sized ivs v.
Proof.
  intros Hinv Hiv Hd Hk. induction k as [|k IH]; [exists [], iv; split_and!; try done; by split; [|constructor]|]. simpl in Hk.
  destruct IH as (o & v & E & D & [Hol Hob] & Hv); [lia|].
  destruct (Hinv v (take bs (drop (k * bs) data)) Hv) as (e & v' & Ee & De & [Hel Heb] & Hv'); [apply (sized_block _ n); [done|lia]|].
  exists (o ++ e), v'. cbn [stream]. rewrite E. cbn [mbind option_bind]. rewrite Ee. split; [done|].
  rewrite <- (stream_take bs dec k (k * bs) iv (o ++ e)) by done. rewrite take_app_length', D by done. cbn [mbind option_bind].
  rewrite drop_app_length' by done. rewrite (take_ge e) by (rewrite Hel; done). rewrite De. cbn [mbind option_bind].
  split; [|split; [split; [rewrite length_app; simpl; lia|by apply Forall_app]|done]].
  f_equal. f_equal. replace (S k * bs)%nat with (k * bs + bs)%nat by lia. by rewrite take_take_drop.
Qed.
End Instances.
End ModesSpec.
