(* ===== verification/Scatterwalk.v ===== *)
(** * Scatterlist walks: [crypto/scatterwalk.c], [crypto/scatterwalk.h]

    A walk goes through the bytes of a scatterlist page by page.  The proofs
    relate it to the list of the addresses of those bytes. *)

From S2P Require Import Prelude Mem.

Module Scatterwalk.
Import Mem.

Definition PAGE_SHIFT : Z := 12.
Definition PAGE_SIZE : Z := 4096.
Definition PAGE_MASK : Z := 2 ^ 32 - 4096.
Definition offset_in_page (p : Z) : Z := Z.land p (PAGE_SIZE - 1).

(** [struct scatterlist]; a page is its number in the linear mapping.  A
    scatterlist is the list of its entries, with the links between chained
    arrays already followed. *)
Record scatterlist := mk_sg { sg_page : Z; sg_offset : Z; sg_length : Z }.

(** [struct scatter_walk]: the current entry is the head of the list. *)
Record scatter_walk := mk_sw { sg : list scatterlist; offset : Z }.

(** Going past the last entry is a fault. *)
Definition sg_next (l : list scatterlist) : option (list scatterlist) :=
  match l with
  | _ :: s :: l => Some (s :: l)
  | _ => None
  end.

Definition cur (w : scatter_walk) : option scatterlist := head (sg w).

Definition scatterwalk_start (l : list scatterlist) : option scatter_walk :=
  s ← head l; _ ← BUG_ON (sg_length s =? 0); Some (mk_sw l (sg_offset s)).

Definition scatterwalk_page (w : scatter_walk) : option Z :=
  s ← cur w; Some (sg_page s + Z.shiftr (offset w) PAGE_SHIFT).

(** The address of the current byte: [crypto_kmap] is the linear mapping. *)
Definition scatterwalk_map (w : scatter_walk) : option Z :=
  p ← scatterwalk_page w; Some (p * PAGE_SIZE + offset_in_page (offset w)).

Definition scatterwalk_pagelen (w : scatter_walk) : option Z :=
  s ← cur w;
  let len := u32 (u32 (sg_offset s + sg_length s) - offset w) in
  let len_this_page := offset_in_page (2 ^ 32 - 1 - offset w) + 1 in
  Some (if len <? len_this_page then len else len_this_page).

Definition scatterwalk_clamp (w : scatter_walk) (nbytes : Z) : option Z :=
  len_this_page ← scatterwalk_pagelen w;
  Some (if len_this_page <? nbytes then len_this_page else nbytes).

Definition scatterwalk_advance (w : scatter_walk) (nbytes : Z) : scatter_walk :=
  mk_sw (sg w) (u32 (offset w + nbytes)).

Definition scatterwalk_aligned (w : scatter_walk) (alignmask : Z) : bool :=
  Z.land (offset w) alignmask =? 0.

(** The second component is the list of the pages flushed from the cache. *)
Definition scatterwalk_pagedone (w : scatter_walk) (out more : bool) : option (scatter_walk * list Z) :=
  s ← cur w;
  let flushed := if out then [sg_page s + Z.shiftr (u32 (offset w - 1)) PAGE_SHIFT] else [] in
  if more then
    let off := Z.land (u32 (offset w + (PAGE_SIZE - 1))) PAGE_MASK in
    if u32 (sg_offset s + sg_length s) <=? off
    then l ← sg_next (sg w); w ← scatterwalk_start l; Some (w, flushed)
    else Some (mk_sw (sg w) off, flushed)
  else Some (w, flushed).

Definition scatterwalk_done (w : scatter_walk) (out more : bool) : option (scatter_walk * list Z) :=
  if (offset_in_page (offset w) =? 0) || negb more then scatterwalk_pagedone w out more else Some (w, []).

(** [memcpy_dir]. *)
Definition memcpy_dir (m : mem) (buf sgdata nbytes : Z) (out : bool) : option mem :=
  let src := if out then buf else sgdata in
  let dst := if out then sgdata else buf in
  copy m dst src (Z.to_nat nbytes).

(** The fuel bounds the number of pieces. *)
Fixpoint copychunks (fuel : nat) (m : mem) (buf : Z) (w : scatter_walk) (nbytes : Z) (out : bool)
    : option (mem * scatter_walk * list Z) :=
  match fuel with
  | O => None
  | S fuel =>
      len ← scatterwalk_pagelen w;
      let len_this_page := if nbytes <? len then nbytes else len in
      vaddr ← scatterwalk_map w;
      m ← memcpy_dir m buf vaddr len_this_page out;
      let w := scatterwalk_advance w len_this_page in
      if nbytes =? len_this_page then Some (m, w, []) else
      '(w, f1) ← scatterwalk_pagedone w out true;
      '(m, w, f2) ← copychunks fuel m (buf + len_this_page) w (nbytes - len_this_page) out;
      Some (m, w, f1 ++ f2)
  end.

(** The first piece may be empty, each other one has at least one byte. *)
Definition scatterwalk_copychunks (m : mem) (buf : Z) (w : scatter_walk) (nbytes : Z) (out : bool)
    : option (mem * scatter_walk * list Z) := copychunks (S (S (Z.to_nat nbytes))) m buf w nbytes out.

(** ** The addresses of a walk *)

Definition entry_end (s : scatterlist) : Z := sg_offset s + sg_length s.
Definition sg_addrs (l : list scatterlist) : list Z :=
  l ≫= fun s => seqZ (sg_page s * PAGE_SIZE + sg_offset s) (sg_length s).

(** The addresses from the current position on. *)
Definition addrs (w : scatter_walk) : list Z :=
  match sg w with
  | [] => []
  | s :: l => seqZ (sg_page s * PAGE_SIZE + offset w) (entry_end s - offset w) ++ sg_addrs l
  end.

(** An entry is not empty and lies in the address space, below its last page. *)
Definition entry_ok (s : scatterlist) : Prop :=
  0 <= sg_page s /\ 0 <= sg_offset s /\ 0 < sg_length s /\ sg_page s * PAGE_SIZE + entry_end s < 2 ^ 32 - PAGE_SIZE.
Definition walk_ok (w : scatter_walk) : Prop :=
  Forall entry_ok (sg w) /\ exists s, cur w = Some s /\ sg_offset s <= offset w <= entry_end s.

Lemma offset_in_page_mod p : offset_in_page p = p mod 4096.
Proof. unfold offset_in_page. change (PAGE_SIZE - 1) with (2 ^ 12 - 1). by rewrite land_ones_mod by lia. Qed.

Lemma land_page_mask x : is_u32 x -> Z.land x PAGE_MASK = x / 4096 * 4096.
Proof.
  intros Hx. unfold PAGE_MASK. apply Z.bits_inj'. intros i Hi. rewrite Z.land_spec.
  change (2 ^ 32 - 4096) with (Z.shiftl (Z.ones 20) 12). change 4096 with (2 ^ 12). rewrite <- Z.shiftr_div_pow2, <- Z.shiftl_mul_pow2 by lia.
  rewrite !Z.shiftl_spec by lia. destruct (decide (i < 12)).
  - rewrite !(Z.testbit_neg_r _ (i - 12)) by lia. apply andb_false_r.
  - rewrite Z.shiftr_spec by lia. replace (i - 12 + 12) with i by lia. destruct (decide (i < 32)).
    + rewrite Z.ones_spec_low by lia. apply andb_true_r.
    + rewrite (testbit_high x 32) by (done || lia). done.
Qed.

Section Walk.
Context (w : scatter_walk) (s : scatterlist) (l : list scatterlist).
Hypothesis Hw : walk_ok w.
Hypothesis Hs : sg w = s :: l.

Lemma walk_cur : cur w = Some s.
Proof using Hs. unfold cur. by rewrite Hs. Qed.

Lemma walk_bounds : entry_ok s /\ Forall entry_ok l /\ sg_offset s <= offset w <= entry_end s.
Proof using Hw Hs.
  destruct Hw as [Ha (s' & Hc & Hb)]. rewrite walk_cur in Hc. simplify_eq. rewrite Hs in Ha. apply Forall_cons in Ha as [? ?]. done.
Qed.

Lemma map_run : scatterwalk_map w = Some (sg_page s * PAGE_SIZE + offset w).
Proof using Hs.
  unfold scatterwalk_map, scatterwalk_page. rewrite walk_cur. cbn [mbind option_bind]. f_equal.
  rewrite offset_in_page_mod. unfold PAGE_SHIFT. rewrite Z.shiftr_div_pow2 by lia. change (2 ^ 12) with 4096. unfold PAGE_SIZE.
  pose proof (Z_div_mod_eq_full (offset w) 4096). lia.
Qed.

Definition page_left : Z := Z.min (entry_end s - offset w) (4096 - offset w mod 4096).

Lemma pagelen_run : scatterwalk_pagelen w = Some page_left /\ 0 <= page_left <= entry_end s - offset w /\ page_left <= 4096.
Proof using Hw Hs.
  destruct walk_bounds as ((Hp & Ho & Hl & He) & _ & Hb). unfold scatterwalk_pagelen, page_left, PAGE_SIZE in *. rewrite walk_cur. cbn [mbind option_bind].
  unfold entry_end in *. rewrite !u32_small by (rewrite ?u32_small; unfold is_u32; lia).
  rewrite offset_in_page_mod. replace ((2 ^ 32 - 1 - offset w) mod 4096) with (4095 - offset w mod 4096).
  2:{ pose proof (Z.mod_pos_bound (offset w) 4096 ltac:(lia)). pose proof (Z_div_mod_eq_full (offset w) 4096).
      apply Z.mod_unique with (1048575 - offset w / 4096); lia. }
  pose proof (Z.mod_pos_bound (offset w) 4096 ltac:(lia)).
  split; [|lia]. f_equal. destruct (Z.ltb_spec (sg_offset s + sg_length s - offset w) (4095 - offset w mod 4096 + 1)); lia.
Qed.

Lemma advance_run n : 0 <= n <= entry_end s - offset w -> walk_ok (scatterwalk_advance w n) /\
  addrs (scatterwalk_advance w n) = drop (Z.to_nat n) (addrs w) /\ offset (scatterwalk_advance w n) = offset w + n.
Proof using Hw Hs.
  intros Hn. destruct walk_bounds as ((Hp & Ho & Hl & He) & Hall & Hb). unfold PAGE_SIZE in *. unfold scatterwalk_advance. simpl.
  rewrite u32_small by (unfold is_u32; lia). split; [|split; [|done]].
  - destruct Hw as [Ha _]. split; [done|]. exists s. unfold cur. simpl. rewrite Hs. split; [done|lia].
  - unfold addrs. simpl. rewrite Hs. rewrite drop_app_le by (rewrite length_seqZ; lia). f_equal.
    replace (entry_end s - offset w) with (n + (entry_end s - (offset w + n))) by lia.
    rewrite (seqZ_app _ n) by lia. rewrite drop_app_length' by (rewrite length_seqZ; lia). f_equal; lia.
Qed.

Lemma addrs_prefix n : 0 <= n <= entry_end s - offset w ->
  take (Z.to_nat n) (addrs w) = seqZ (sg_page s * PAGE_SIZE + offset w) n.
Proof using Hs.
  intros Hn. unfold addrs. rewrite Hs. rewrite take_app_le by (rewrite length_seqZ; lia).
  replace (entry_end s - offset w) with (n + (entry_end s - (offset w + n))) by lia.
  rewrite (seqZ_app _ n) by lia. by rewrite take_app_length' by (rewrite length_seqZ; lia).
Qed.

(** At the end of a page or of the entry the walk goes on to the next page. *)
Lemma pagedone_run out : offset w mod 4096 = 0 \/ offset w = entry_end s -> addrs w <> [] ->
  exists w' f, scatterwalk_pagedone w out true = Some (w', f) /\ walk_ok w' /\ addrs w' = addrs w /\
    exists s' l', sg w' = s' :: l' /\ offset w' < entry_end s'.
Proof using Hw Hs.
  intros Hoff Hne. destruct walk_bounds as ((Hp & Ho & Hl & He) & Hall & Hb). unfold PAGE_SIZE in *.
  unfold scatterwalk_pagedone. rewrite walk_cur. cbn [mbind option_bind].
  rewrite (u32_small (offset w + _)) by (unfold is_u32, PAGE_SIZE; lia). rewrite land_page_mask by (unfold is_u32, PAGE_SIZE; lia).
  rewrite (u32_small (sg_offset s + _)) by (unfold is_u32; unfold entry_end in He; lia). fold (entry_end s). unfold PAGE_SIZE.
  pose proof (Z_div_mod_eq_full (offset w + (4096 - 1)) 4096) as Hdiv. pose proof (Z.mod_pos_bound (offset w + (4096 - 1)) 4096 ltac:(lia)).
  set (off := (offset w + (4096 - 1)) / 4096 * 4096) in *.
  destruct (Z.leb_spec (entry_end s) off) as [Hle|Hgt].
  - assert (offset w = entry_end s) as Hend.
    { destruct Hoff as [H0|]; [|done]. assert ((offset w + (4096 - 1)) mod 4096 = 4095); [|lia].
      rewrite <- Zplus_mod_idemp_l, H0. done. }
    unfold addrs in Hne |- *. rewrite Hs in Hne |- *. rewrite Hend, Z.sub_diag, seqZ_nil in Hne |- * by lia. rewrite app_nil_l in Hne |- *.
    destruct l as [|s' l']; [done|]. apply Forall_cons in Hall as [(Hp' & Ho' & Hl' & He') Hall']. cbn [sg_next mbind option_bind].
    unfold scatterwalk_start. cbn [head mbind option_bind]. rewrite (proj2 (Z.eqb_neq (sg_length s') 0)) by lia. cbn [BUG_ON mbind option_bind].
    eexists _, _. split; [done|]. simpl. split; [|split; [|exists s', l'; split; [done|unfold entry_end; lia]]].
    + split; [by repeat constructor|]. exists s'. split; [done|]. simpl. unfold entry_end. lia.
    + unfold sg_addrs. simpl. f_equal. f_equal. unfold entry_end. lia.
  - assert (off = offset w) as Hoffw.
    { destruct Hoff as [H0|]; [|lia]. assert ((offset w + (4096 - 1)) mod 4096 = 4095); [|lia]. rewrite <- Zplus_mod_idemp_l, H0. done. }
    eexists _, _. split; [done|]. rewrite Hoffw. destruct w as [sgl o]. simpl in *. split; [done|]. split; [done|]. exists s, l. split; [done|]. lia.
Qed.

Lemma done_run out more : (more = true -> addrs w <> []) ->
  exists w' f, scatterwalk_done w out more = Some (w', f) /\ walk_ok w' /\ addrs w' = addrs w.
Proof using Hw Hs.
  intros Hne. unfold scatterwalk_done. rewrite offset_in_page_mod. destruct more; simpl.
  - destruct (Z.eqb_spec (offset w mod 4096) 0) as [H0|]; simpl; [|by exists w, []].
    destruct (pagedone_run out (or_introl H0) (Hne eq_refl)) as (w' & f & E & Hok & Ha & _). by exists w', f.
  - rewrite orb_true_r. unfold scatterwalk_pagedone. rewrite walk_cur. cbn [mbind option_bind]. by eexists _, _.
Qed.

End Walk.

Lemma start_run s l : Forall entry_ok (s :: l) ->
  scatterwalk_start (s :: l) = Some (mk_sw (s :: l) (sg_offset s)) /\ walk_ok (mk_sw (s :: l) (sg_offset s)) /\
  addrs (mk_sw (s :: l) (sg_offset s)) = sg_addrs (s :: l).
Proof.
  intros Hall. pose proof (Forall_inv Hall) as (Hp & Ho & Hl & He). unfold scatterwalk_start. cbn [head mbind option_bind].
  rewrite (proj2 (Z.eqb_neq (sg_length s) 0)) by lia. split; [done|]. split.
  - split; [done|]. exists s. split; [done|]. simpl. unfold entry_end. lia.
  - unfold addrs, sg_addrs. simpl. f_equal. f_equal. unfold entry_end. lia.
Qed.

Lemma walk_head w : walk_ok w -> exists s l, sg w = s :: l.
Proof. intros [_ (s & Hc & _)]. unfold cur in Hc. destruct (sg w) as [|s' l]; [done|]. eauto. Qed.

(** ** Copying through a walk *)

(** The fuel [copychunks] needs. *)
Definition chunk_fuel (w : scatter_walk) (n : nat) : nat :=
  match sg w with
  | s :: _ => n + (if offset w <? entry_end s then 1 else 2)
  | [] => 0
  end.

(** One piece: what [copychunks] does before it goes on to the rest. *)
Lemma piece w n : walk_ok w -> (n <= length (addrs w))%nat -> exists a len, (len <= n)%nat /\
  scatterwalk_pagelen w = Some (page_left w (hd (mk_sg 0 0 0) (sg w))) /\
  (if Z.of_nat n <? page_left w (hd (mk_sg 0 0 0) (sg w)) then Z.of_nat n else page_left w (hd (mk_sg 0 0 0) (sg w))) = Z.of_nat len /\
  scatterwalk_map w = Some a /\ take len (addrs w) = seqZ a (Z.of_nat len) /\
  walk_ok (scatterwalk_advance w (Z.of_nat len)) /\ addrs (scatterwalk_advance w (Z.of_nat len)) = drop len (addrs w) /\
  (n <> len -> forall out, exists w' f, scatterwalk_pagedone (scatterwalk_advance w (Z.of_nat len)) out true = Some (w', f) /\
    walk_ok w' /\ addrs w' = drop len (addrs w) /\ (chunk_fuel w' (n - len) < chunk_fuel w n)%nat).
Proof.
  intros Hw Hn. destruct (walk_head w Hw) as (s & l & Hs). destruct (pagelen_run w s l Hw Hs) as (Hpl & Hle & H4096).
  rewrite Hs. cbn [hd]. rewrite Hpl. exists (sg_page s * PAGE_SIZE + offset w), (Z.to_nat (Z.min (Z.of_nat n) (page_left w s))).
  set (len := Z.to_nat (Z.min (Z.of_nat n) (page_left w s))). assert (0 <= Z.of_nat len <= entry_end s - offset w) as Hlen by lia.
  split; [lia|]. split; [done|]. split; [destruct (Z.ltb_spec (Z.of_nat n) (page_left w s)); lia|]. split; [by apply map_run with l|].
  split; [rewrite <- (addrs_prefix w s l Hs _ Hlen); by rewrite Nat2Z.id|].
  destruct (advance_run w s l Hw Hs _ Hlen) as (Hok & Ha & Hoff). rewrite Nat2Z.id in Ha. split; [done|]. split; [done|].
  intros Hne out. destruct (pagedone_run (scatterwalk_advance w (Z.of_nat len)) s l Hok Hs out) as (w' & f & E & Hok' & Ha' & s' & l' & Hs' & Hlt).
  - rewrite Hoff. replace (Z.of_nat len) with (page_left w s) by lia. unfold page_left. pose proof (Z_div_mod_eq_full (offset w) 4096).
    destruct (decide (entry_end s - offset w <= 4096 - offset w mod 4096)); [right; lia|left].
    rewrite Z.min_r by lia. replace (offset w + (4096 - offset w mod 4096)) with ((offset w / 4096 + 1) * 4096) by lia. apply Z_mod_mult.
  - rewrite Ha. intros Hnil. apply (f_equal length) in Hnil. rewrite length_drop in Hnil. simpl in Hnil. lia.
  - exists w', f. rewrite <- Ha. split; [done|]. split; [done|]. split; [done|]. unfold chunk_fuel. rewrite Hs, Hs'.
    rewrite (proj2 (Z.ltb_lt _ _) Hlt). destruct (Z.ltb_spec (offset w) (entry_end s)) as [Hl|Hl]; [|lia].
    assert (0 < page_left w s) by (unfold page_left; pose proof (Z.mod_pos_bound (offset w) 4096 ltac:(lia)); lia). lia.
Qed.

Lemma take_cut {A} (k n : nat) (l : list A) : (k <= n)%nat -> take n l = take k l ++ take (n - k) (drop k l).
Proof. intros H. rewrite take_take_drop. f_equal. lia. Qed.

Lemma copychunks_in fuel : forall m buf w n data, walk_ok w -> (n <= length (addrs w))%nat -> (chunk_fuel w n <= fuel)%nat ->
  get m (take n (addrs w)) = Some data -> mapped m buf n ->
  (forall x, x ∈ take n (addrs w) -> ~ (buf <= x < buf + Z.of_nat n)) ->
  exists w' f, copychunks fuel m buf w (Z.of_nat n) false = Some (upd m buf data, w', f) /\ walk_ok w' /\ addrs w' = drop n (addrs w).
Proof.
  induction fuel as [|fuel IH]; intros m buf w n data Hw Hn Hf Hg Hm Hd.
  { destruct (walk_head w Hw) as (s & l & Hs). unfold chunk_fuel in Hf. rewrite Hs in Hf. case_match; lia. }
  destruct (piece w n Hw Hn) as (a & len & Hle & Hpl & Hlen & Hmap & Htk & Hok & Ha & Hrest).
  cbn [copychunks]. rewrite Hpl. cbn [mbind option_bind]. rewrite Hlen, Hmap. cbn [mbind option_bind].
  pose proof (take_cut len n (addrs w) Hle) as Hsplit.
  rewrite Hsplit in Hg. apply get_split in Hg as [Hg1 Hg2]. rewrite length_take, Nat.min_l in Hg1, Hg2 by lia. rewrite Htk, get_seqZ in Hg1.
  unfold memcpy_dir. rewrite Nat2Z.id. rewrite (copy_ok _ _ _ _ _ Hg1) by (apply (mapped_sub _ buf n); [done|lia|lia]). cbn [mbind option_bind].
  assert (length (take len data) = len) as Hld by by apply load_length in Hg1.
  destruct (Z.eqb_spec (Z.of_nat n) (Z.of_nat len)) as [E|E].
  - assert (len = n) by lia. subst len. eexists _, _. split; [|done].
    replace (take n data) with data; [done|]. rewrite Nat.sub_diag in Hg2. simpl in Hg2. injection Hg2 as Hg2. rewrite <- (take_drop n data) at 1. by rewrite <- Hg2, app_nil_r.
  - destruct (Hrest ltac:(lia) false) as (w' & f & -> & Hok' & Ha' & Hfuel). cbn [mbind option_bind].
    replace (Z.of_nat n - Z.of_nat len) with (Z.of_nat (n - len)) by lia.
    destruct (IH (upd m buf (take len data)) (buf + Z.of_nat len) w' (n - len)%nat (drop len data)) as (w2 & f2 & -> & Hok2 & Ha2);
      [done|rewrite Ha', length_drop; lia|lia| | | |].
    + rewrite Ha', get_upd_ne; [done|]. rewrite Hld. intros x Hx. specialize (Hd x). rewrite Hsplit, elem_of_app in Hd. specialize (Hd (or_intror Hx)). lia.
    + apply mapped_upd. apply (mapped_sub _ buf n); [done|lia|lia].
    + rewrite Ha'. intros x Hx. specialize (Hd x). rewrite Hsplit, elem_of_app in Hd. specialize (Hd (or_intror Hx)). lia.
    + cbn [mbind option_bind]. eexists _, _. split; [|split; [done|]].
      * rewrite <- Hld at 2. by rewrite <- upd_app, take_drop.
      * rewrite Ha2, Ha', drop_drop. f_equal. lia.
Qed.

Lemma copychunks_out fuel : forall m buf w n data, walk_ok w -> (n <= length (addrs w))%nat -> (chunk_fuel w n <= fuel)%nat ->
  (forall x, x ∈ take n (addrs w) -> is_Some (m !! x)) -> load m buf n = Some data ->
  (forall x, x ∈ take n (addrs w) -> ~ (buf <= x < buf + Z.of_nat n)) ->
  exists w' f, copychunks fuel m buf w (Z.of_nat n) true = Some (put m (take n (addrs w)) data, w', f) /\
    walk_ok w' /\ addrs w' = drop n (addrs w).
Proof.
  induction fuel as [|fuel IH]; intros m buf w n data Hw Hn Hf Hg Hm Hd.
  { destruct (walk_head w Hw) as (s & l & Hs). unfold chunk_fuel in Hf. rewrite Hs in Hf. case_match; lia. }
  destruct (piece w n Hw Hn) as (a & len & Hle & Hpl & Hlen & Hmap & Htk & Hok & Ha & Hrest).
  cbn [copychunks]. rewrite Hpl. cbn [mbind option_bind]. rewrite Hlen, Hmap. cbn [mbind option_bind].
  pose proof (take_cut len n (addrs w) Hle) as Hsplit. rewrite Hsplit in Hg, Hd |- *. setoid_rewrite elem_of_app in Hg. setoid_rewrite elem_of_app in Hd.
  assert (load m buf len = Some (take len data) /\ load m (buf + Z.of_nat len) (n - len) = Some (drop len data)) as [Hm1 Hm2]
    by (apply load_split; by replace (len + (n - len))%nat with n by lia).
  assert (length (take len data) = len) as Hld by by apply load_length in Hm1.
  assert (mapped m a len) as Hmap'.
  { unfold mapped. setoid_rewrite <- get_seqZ. rewrite <- Htk. apply get_mapped. intros x Hx. apply Hg. by left. }
  unfold memcpy_dir. rewrite Nat2Z.id. rewrite (copy_ok _ _ _ _ _ Hm1) by done. cbn [mbind option_bind].
  rewrite <- put_seqZ, Hld, <- Htk.
  destruct (Z.eqb_spec (Z.of_nat n) (Z.of_nat len)) as [E|E].
  - assert (len = n) by lia. subst len. eexists _, _. split; [|done]. rewrite Nat.sub_diag. simpl. rewrite app_nil_r.
    by rewrite (take_ge data) by (apply load_length in Hm; lia).
  - destruct (Hrest ltac:(lia) true) as (w' & f & -> & Hok' & Ha' & Hfuel). cbn [mbind option_bind].
    replace (Z.of_nat n - Z.of_nat len) with (Z.of_nat (n - len)) by lia. rewrite <- Ha' in Hg, Hd |- *.
    destruct (IH (put m (take len (addrs w)) (take len data)) (buf + Z.of_nat len) w' (n - len)%nat (drop len data)) as (w2 & f2 & -> & Hok2 & Ha2);
      [done|rewrite Ha', length_drop; lia|lia| | | |].
    + intros x Hx. apply put_mapped, Hg. by right.
    + rewrite <- get_seqZ, get_put_ne, get_seqZ; [done|]. intros x Hx Hx'. apply elem_of_region in Hx. specialize (Hd x (or_introl Hx')). lia.
    + intros x Hx. specialize (Hd x (or_intror Hx)). lia.
    + cbn [mbind option_bind]. eexists _, _. split; [|split; [done|]].
      * rewrite <- put_app, take_drop by (rewrite Hld, length_take; lia). done.
      * rewrite Ha2, Ha', drop_drop. f_equal. lia.
Qed.

Lemma chunk_fuel_bound w n : (chunk_fuel w n <= S (S n))%nat.
Proof. unfold chunk_fuel. destruct (sg w); [lia|]. case_match; lia. Qed.

End Scatterwalk.
