(* ===== verification/Blkcipher.v ===== *)
(** * The block cipher walk: [crypto/blkcipher.c]

    The walk hands the bytes of two scatterlists to a mode of operation in
    chunks: pages mapped in place, pages copied to an aligned one, and single
    blocks that straddle pages in a scratch buffer. *)

From S2P Require Import Prelude CipherBase Mem Scatterwalk.

Module Blkcipher.
Import CipherBase Mem Scatterwalk.

Definition ENOMEM : Z := 12.
Definition EDEADLK : Z := 35.
Definition CRYPTO_TFM_RES_BAD_BLOCK_LEN : Z := 0x00800000.

Definition BLKCIPHER_WALK_PHYS : Z := 1.
Definition BLKCIPHER_WALK_SLOW : Z := 2.
Definition BLKCIPHER_WALK_COPY : Z := 4.
Definition BLKCIPHER_WALK_DIFF : Z := 8.

(** [crypto_tfm_ctx_alignment()] with the EABI. *)
Definition ctx_alignment : Z := 8.

(** [struct blkcipher_walk]; a null pointer is 0. *)
Record walk := mk_walk {
  src_addr : Z; dst_addr : Z; w_in : scatter_walk; nbytes : Z; w_out : scatter_walk; total : Z;
  page : Z; buffer : Z; w_iv : Z; flags : Z }.

Definition set_src (a : Z) (w : walk) := mk_walk a (dst_addr w) (w_in w) (nbytes w) (w_out w) (total w) (page w) (buffer w) (w_iv w) (flags w).
Definition set_dst (a : Z) (w : walk) := mk_walk (src_addr w) a (w_in w) (nbytes w) (w_out w) (total w) (page w) (buffer w) (w_iv w) (flags w).
Definition set_in (i : scatter_walk) (w : walk) := mk_walk (src_addr w) (dst_addr w) i (nbytes w) (w_out w) (total w) (page w) (buffer w) (w_iv w) (flags w).
Definition set_nbytes (n : Z) (w : walk) := mk_walk (src_addr w) (dst_addr w) (w_in w) n (w_out w) (total w) (page w) (buffer w) (w_iv w) (flags w).
Definition set_out (o : scatter_walk) (w : walk) := mk_walk (src_addr w) (dst_addr w) (w_in w) (nbytes w) o (total w) (page w) (buffer w) (w_iv w) (flags w).
Definition set_total (t : Z) (w : walk) := mk_walk (src_addr w) (dst_addr w) (w_in w) (nbytes w) (w_out w) t (page w) (buffer w) (w_iv w) (flags w).
Definition set_page (p : Z) (w : walk) := mk_walk (src_addr w) (dst_addr w) (w_in w) (nbytes w) (w_out w) (total w) p (buffer w) (w_iv w) (flags w).
Definition set_buffer (b : Z) (w : walk) := mk_walk (src_addr w) (dst_addr w) (w_in w) (nbytes w) (w_out w) (total w) (page w) b (w_iv w) (flags w).
Definition set_iv (v : Z) (w : walk) := mk_walk (src_addr w) (dst_addr w) (w_in w) (nbytes w) (w_out w) (total w) (page w) (buffer w) v (flags w).
Definition set_flags (f : Z) (w : walk) := mk_walk (src_addr w) (dst_addr w) (w_in w) (nbytes w) (w_out w) (total w) (page w) (buffer w) (w_iv w) f.

(** The memory, the answers of the allocators to come, the allocations that
    are not freed yet, [desc->flags], and the pages given to
    [flush_dcache_page]. *)
Record env := mk_env { mm : mem; kmallocs : list Z; free_pages : list Z; live : list Z; desc_flags : Z; flushed : list Z }.

Definition set_mem (m : mem) (e : env) := mk_env m (kmallocs e) (free_pages e) (live e) (desc_flags e) (flushed e).
Definition set_live (l : list Z) (e : env) := mk_env (mm e) (kmallocs e) (free_pages e) l (desc_flags e) (flushed e).
Definition set_desc_flags (f : Z) (e : env) := mk_env (mm e) (kmallocs e) (free_pages e) (live e) f (flushed e).
Definition add_flushed (f : list Z) (e : env) := mk_env (mm e) (kmallocs e) (free_pages e) (live e) (desc_flags e) (flushed e ++ f).

Abbreviation state := (env * walk)%type.

(** [kmalloc] and [__get_free_page]: the next answer, 0 for a failure.  That an
    answer is a region of the size asked for is the allocator's contract. *)
Definition kmalloc (size : Z) (e : env) : Z * env :=
  match kmallocs e with
  | [] => (0, e)
  | a :: r => (a, mk_env (mm e) r (free_pages e) (if a =? 0 then live e else a :: live e) (desc_flags e) (flushed e))
  end.
Definition get_free_page (e : env) : Z * env :=
  match free_pages e with
  | [] => (0, e)
  | a :: r => (a, mk_env (mm e) (kmallocs e) r (if a =? 0 then live e else a :: live e) (desc_flags e) (flushed e))
  end.

Fixpoint remove_one (a : Z) (l : list Z) : option (list Z) :=
  match l with
  | [] => None
  | b :: l => if a =? b then Some l else r ← remove_one a l; Some (b :: r)
  end.

(** [kfree] and [free_page]; freeing what is not allocated is a fault. *)
Definition kfree (a : Z) (e : env) : option env :=
  if a =? 0 then Some e else l ← remove_one a (live e); Some (set_live l e).

(** [ALIGN(x, alignmask + 1)]. *)
Definition ALIGN (x alignmask : Z) : Z := Z.land (u32 (x + alignmask)) (2 ^ 32 - 1 - alignmask).

Definition blkcipher_get_spot (start len : Z) : Z :=
  let end_page := Z.land (u32 (start + len - 1)) PAGE_MASK in
  if end_page <? start then start else end_page.

Section Walk.
(** The block size, the size of the vector and the alignment mask of the
    transform, and [desc->info]. *)
Context (bsize ivsize alignmask info : Z).

Definition blkcipher_done_slow (s : state) : option (Z * state) :=
  let '(e, w) := s in
  let addr := blkcipher_get_spot (ALIGN (buffer w) alignmask) bsize in
  '(m, o, f) ← scatterwalk_copychunks (mm e) addr (w_out w) bsize true;
  Some (bsize, (add_flushed f (set_mem m e), set_out o w)).

Definition blkcipher_done_fast (s : state) (n : Z) : option (Z * state) :=
  let '(e, w) := s in
  let n := u32 (nbytes w - n) in
  '(e, w) ←
    (if negb (Z.land (flags w) BLKCIPHER_WALK_COPY =? 0) then
       d ← scatterwalk_map (w_out w);
       m ← copy (mm e) d (page w) (Z.to_nat n);
       Some (set_mem m e, set_dst d w)
     else Some (e, w));
  Some (n, (e, set_out (scatterwalk_advance (w_out w) n) (set_in (scatterwalk_advance (w_in w) n) w))).

(** The end of [blkcipher_walk_done], from [scatterwalk_done] on, with
    [blkcipher_walk_next] as [next]. *)
Definition walk_done_tail (next : state -> option (Z * state)) (s : state) (err n : Z) : option (Z * state) :=
  let '(e, w) := s in
  '(i, _) ← scatterwalk_done (w_in w) false (negb (n =? 0));
  '(o, f) ← scatterwalk_done (w_out w) true (negb (n =? 0));
  let e := add_flushed f e in
  let w := set_nbytes n (set_total n (set_out o (set_in i w))) in
  if negb (n =? 0) then next (e, w) else
  m ← (if negb (w_iv w =? info) then copy (mm e) info (w_iv w) (Z.to_nat ivsize) else Some (mm e));
  e ← (if negb (buffer w =? page w) then kfree (buffer w) (set_mem m e) else Some (set_mem m e));
  e ← (if negb (page w =? 0) then kfree (page w) e else Some e);
  Some (err, (e, w)).

(** [blkcipher_walk_done] with an error: [nbytes] is 0. *)
Definition walk_done_error (s : state) (err : Z) : option (Z * state) := walk_done_tail (fun _ => None) s err 0.

(** The size of the buffer that [blkcipher_next_slow] asks for. *)
Definition slow_size : Z :=
  u32 (bsize * 3 - (alignmask + 1) + Z.land alignmask (2 ^ 32 - 1 - (ctx_alignment - 1))).

(** [blkcipher_next_slow] up to the label [ok]: the buffer in use, the page, or
    a new buffer. *)
Definition next_slow_buffer (e : env) (w : walk) : state :=
  if negb (buffer w =? 0) then (e, w) else
  let w := set_buffer (page w) w in
  if negb (buffer w =? 0) then (e, w) else
  let '(b, e) := kmalloc slow_size e in (e, set_buffer b w).

Definition blkcipher_next_slow (s : state) : option (Z * state) :=
  let '(e, w) := next_slow_buffer (fst s) (snd s) in
  if buffer w =? 0 then walk_done_error (e, w) (- ENOMEM) else
  let d := blkcipher_get_spot (ALIGN (buffer w) alignmask) bsize in
  let sa := blkcipher_get_spot (d + bsize) bsize in
  '(m, i, _) ← scatterwalk_copychunks (mm e) sa (w_in w) bsize false;
  Some (0, (set_mem m e, set_flags (Z.lor (flags w) BLKCIPHER_WALK_SLOW) (set_nbytes bsize (set_in i (set_src sa (set_dst d w)))))).

Definition blkcipher_next_copy (s : state) : option (Z * state) :=
  let '(e, w) := s in
  let tmp := page w in
  sa ← scatterwalk_map (w_in w);
  m ← copy (mm e) tmp sa (Z.to_nat (nbytes w));
  Some (0, (set_mem m e, set_dst tmp (set_src tmp w))).

(** [sizeof(struct page)], for the difference of two page pointers. *)
Definition sizeof_page : Z := 32.

Definition blkcipher_next_fast (s : state) : option (Z * state) :=
  let '(e, w) := s in
  sp ← scatterwalk_page (w_in w); dp ← scatterwalk_page (w_out w);
  let so := offset_in_page (offset (w_in w)) in let do_ := offset_in_page (offset (w_out w)) in
  if negb (Z.land (flags w) BLKCIPHER_WALK_PHYS =? 0) then Some (0, (e, w)) else
  let diff := Z.lor (u32 (so - do_)) (u32 (sizeof_page * (sp - dp))) in
  sa ← scatterwalk_map (w_in w);
  let w := set_dst sa (set_src sa w) in
  if negb (diff =? 0) then
    da ← scatterwalk_map (w_out w);
    Some (0, (e, set_dst da (set_flags (Z.lor (flags w) BLKCIPHER_WALK_DIFF) w)))
  else Some (0, (e, w)).

(** The part of [blkcipher_walk_next] that prepares a copy to an aligned page:
    the number of bytes wanted is 0 when there is no page. *)
Definition next_align (e : env) (w : walk) (n : Z) : env * walk * Z :=
  if negb (scatterwalk_aligned (w_in w) alignmask) || negb (scatterwalk_aligned (w_out w) alignmask) then
    let w := set_flags (Z.lor (flags w) BLKCIPHER_WALK_COPY) w in
    if page w =? 0 then
      let '(p, e) := get_free_page e in (e, set_page p w, if p =? 0 then 0 else n)
    else (e, w, n)
  else (e, w, n).

Definition blkcipher_walk_next (s : state) : option (Z * state) :=
  let '(e, w) := s in
  let n := total w in
  if n <? bsize then walk_done_error (set_desc_flags (Z.lor (desc_flags e) CRYPTO_TFM_RES_BAD_BLOCK_LEN) e, w) (- EINVAL) else
  let w := set_flags (Z.ldiff (flags w) (Z.lor BLKCIPHER_WALK_SLOW (Z.lor BLKCIPHER_WALK_COPY BLKCIPHER_WALK_DIFF))) w in
  let '(e, w, n) := next_align e w n in
  n ← scatterwalk_clamp (w_in w) n;
  n ← scatterwalk_clamp (w_out w) n;
  if n <? bsize then blkcipher_next_slow (e, w) else
  let w := set_nbytes n w in
  if negb (Z.land (flags w) BLKCIPHER_WALK_COPY =? 0) then blkcipher_next_copy (e, w) else
  blkcipher_next_fast (e, w).

Definition blkcipher_walk_done (s : state) (err : Z) : option (Z * state) :=
  if 0 <=? err then
    '(n, s) ← (if Z.land (flags (snd s)) BLKCIPHER_WALK_SLOW =? 0 then blkcipher_done_fast s err else blkcipher_done_slow s);
    walk_done_tail blkcipher_walk_next s 0 (u32 (total (snd s) - n))
  else walk_done_error s err.

(** The size of the buffer that [blkcipher_copy_iv] asks for. *)
Definition iv_size : Z :=
  let size := u32 (bsize * 2 + ivsize + Z.max bsize ivsize - (alignmask + 1)) in
  u32 (size + Z.land alignmask (2 ^ 32 - 1 - (ctx_alignment - 1))).

Definition blkcipher_copy_iv (s : state) : option (Z * state) :=
  let '(e, w) := s in
  let '(b, e) := kmalloc iv_size e in
  let w := set_buffer b w in
  if b =? 0 then Some (- ENOMEM, (e, w)) else
  let iv := ALIGN b alignmask in
  let iv := blkcipher_get_spot iv bsize + bsize in
  let iv := blkcipher_get_spot iv bsize + bsize in
  let iv := blkcipher_get_spot iv ivsize in
  m ← copy (mm e) iv (w_iv w) (Z.to_nat ivsize);
  Some (0, (set_mem m e, set_iv iv w)).

Definition blkcipher_walk_first (in_irq : bool) (s : state) : option (Z * state) :=
  let '(e, w) := s in
  if in_irq then Some (- EDEADLK, s) else
  let w := set_nbytes (total w) w in
  if total w =? 0 then Some (0, (e, w)) else
  let w := set_iv info (set_buffer 0 w) in
  '(err, (e, w)) ← (if negb (Z.land (w_iv w) alignmask =? 0) then blkcipher_copy_iv (e, w) else Some (0, (e, w)));
  if negb (err =? 0) then Some (err, (e, w)) else
  i ← scatterwalk_start (sg (w_in w)); o ← scatterwalk_start (sg (w_out w));
  blkcipher_walk_next (e, set_page 0 (set_out o (set_in i w))).

Definition blkcipher_walk_virt (in_irq : bool) (s : state) : option (Z * state) :=
  let '(e, w) := s in
  blkcipher_walk_first in_irq (e, set_flags (Z.ldiff (flags w) BLKCIPHER_WALK_PHYS) w).

Definition blkcipher_walk_init (w : walk) (dst src : list scatterlist) (n : Z) : walk :=
  set_total n (set_out (mk_sw dst (offset (w_out w))) (set_in (mk_sw src (offset (w_in w))) w)).

(** ** The operation of a mode: the loop over the chunks *)

(** [crypt] is the chunk routine of the mode, with the address of its local
    array. *)
Context (crypt : Z -> mem -> Z -> Z -> Z -> Z -> option (mem * Z)) (tmp : Z).

Fixpoint crypt_loop (fuel : nat) (s : state) (err : Z) : option (Z * state) :=
  match fuel with
  | O => None
  | S fuel =>
      let '(e, w) := s in
      if nbytes w =? 0 then Some (err, s) else
      '(m, n) ← crypt tmp (mm e) (src_addr w) (dst_addr w) (w_iv w) (nbytes w);
      '(err, s) ← blkcipher_walk_done (set_mem m e, w) n;
      crypt_loop fuel s err
  end.

(** [crypto_ecb_crypt], [crypto_cbc_encrypt] and their like.  [w0] is the
    uninitialised walk on the stack; every round processes a block. *)
Definition blkcipher_crypt (in_irq : bool) (w0 : walk) (e : env) (dst src : list scatterlist) (n : Z) : option (Z * state) :=
  '(err, s) ← blkcipher_walk_virt in_irq (e, blkcipher_walk_init w0 dst src n);
  crypt_loop (S (Z.to_nat (n / bsize))) s err.

End Walk.

(** ** The places in the scratch buffer *)

Lemma align_run x j : 0 <= j <= 12 -> 0 <= x -> x + 2 ^ j < 2 ^ 32 ->
  x <= ALIGN x (2 ^ j - 1) /\ ALIGN x (2 ^ j - 1) < x + 2 ^ j /\ ALIGN x (2 ^ j - 1) mod 2 ^ j = 0.
Proof.
  intros Hj Hx Hlt. assert (0 < 2 ^ j) by (apply Z.pow_pos_nonneg; lia). unfold ALIGN. rewrite u32_small by (unfold is_u32; lia).
  replace (Z.land (x + (2 ^ j - 1)) (2 ^ 32 - 1 - (2 ^ j - 1))) with ((x + (2 ^ j - 1)) / 2 ^ j * 2 ^ j).
  - pose proof (Z_div_mod_eq_full (x + (2 ^ j - 1)) (2 ^ j)). pose proof (Z.mod_pos_bound (x + (2 ^ j - 1)) (2 ^ j) ltac:(lia)).
    split; [lia|]. split; [lia|]. apply Z_mod_mult.
  - rewrite <- Z.shiftr_div_pow2, <- Z.shiftl_mul_pow2 by lia. apply Z.bits_inj'. intros i Hi. rewrite Z.land_spec, Z.shiftl_spec by lia.
    replace (2 ^ 32 - 1 - (2 ^ j - 1)) with (Z.shiftl (Z.ones (32 - j)) j).
    2:{ rewrite Z.shiftl_mul_pow2, Z.ones_equiv by lia. assert (2 ^ (32 - j) * 2 ^ j = 2 ^ 32) by (rewrite <- Z.pow_add_r by lia; f_equal; lia). lia. }
    rewrite Z.shiftl_spec by lia. destruct (decide (i < j)).
    + rewrite !(Z.testbit_neg_r _ (i - j)) by lia. by rewrite andb_false_r.
    + rewrite Z.shiftr_spec by lia. replace (i - j + j) with i by lia. destruct (decide (i < 32)).
      * rewrite Z.ones_spec_low by lia. by rewrite andb_true_r.
      * rewrite (testbit_high (x + (2 ^ j - 1)) 32) by lia. done.
Qed.

(** A spot of [len] bytes: at the start, or at the page boundary that the bytes
    at the start would straddle. *)
Lemma spot_run start len : 0 < start -> 0 <= len <= 4096 -> start + len < 2 ^ 32 ->
  let r := blkcipher_get_spot start len in
  r = start /\ (start mod 4096 + len <= 4096) \/ start < r < start + len /\ r mod 4096 = 0.
Proof.
  intros Hs Hl Hlt. unfold blkcipher_get_spot. rewrite u32_small by (unfold is_u32; lia). rewrite land_page_mask by (unfold is_u32; lia).
  pose proof (Z_div_mod_eq_full (start + len - 1) 4096). pose proof (Z.mod_pos_bound (start + len - 1) 4096 ltac:(lia)).
  pose proof (Z_div_mod_eq_full start 4096). pose proof (Z.mod_pos_bound start 4096 ltac:(lia)).
  destruct (Z.ltb_spec ((start + len - 1) / 4096 * 4096) start) as [Hlt'|Hge]; simpl.
  - left. split; [done|]. assert ((start + len - 1) / 4096 <= start / 4096) by nia. nia.
  - destruct (decide ((start + len - 1) / 4096 * 4096 = start)) as [E|]; [|right; split; [lia|apply Z_mod_mult]].
    left. split; [done|]. lia.
Qed.

(** The alignment of a transform: a power of two that divides the sizes. *)
Definition align_ok (alignmask bsize ivsize : Z) : Prop :=
  exists j, 0 <= j <= 12 /\ alignmask = 2 ^ j - 1 /\ (2 ^ j | bsize) /\ (2 ^ j | ivsize).

Lemma align_slack j b : 0 <= j <= 12 -> 0 < b -> (8 | b) -> b + 2 ^ j < 2 ^ 32 ->
  b <= ALIGN b (2 ^ j - 1) /\ (2 ^ j | ALIGN b (2 ^ j - 1)) /\
  ALIGN b (2 ^ j - 1) <= b + Z.land (2 ^ j - 1) (2 ^ 32 - 1 - (ctx_alignment - 1)) /\
  0 <= Z.land (2 ^ j - 1) (2 ^ 32 - 1 - (ctx_alignment - 1)) < 2 ^ j.
Proof.
  intros Hj Hb [q ->] Hlt. destruct (align_run (q * 8) j Hj ltac:(lia) Hlt) as (H1 & H2 & H3).
  apply Z.mod_divide in H3; [|apply Z.pow_nonzero; lia]. split; [done|]. split; [done|]. destruct H3 as [r Hr]. unfold ctx_alignment.
  assert (j = 0 \/ j = 1 \/ j = 2 \/ j = 3 \/ j = 4 \/ j = 5 \/ j = 6 \/ j = 7 \/ j = 8 \/ j = 9 \/ j = 10 \/ j = 11 \/ j = 12) as Hc by lia.
  destruct_or! Hc; subst j;
    match goal with |- _ <= _ + ?x /\ _ => let y := eval vm_compute in x in change x with y end;
    match type of Hr with ALIGN _ _ = _ * ?x => let y := eval vm_compute in x in change x with y in * end; lia.
Qed.

Lemma jump_le A start len r : 0 < A -> (A | start) -> (A | len) -> (A | r) -> r < start + len -> r <= start + len - A.
Proof. intros HA [x ->] [y ->] [z ->] H. rewrite <- Z.mul_add_distr_r in *. apply Z.mul_lt_mono_pos_r in H; [|done]. nia. Qed.

Lemma spot_aligned A start len : 0 < A -> (A | 4096) -> (A | start) -> (A | len) -> 0 < start -> 0 <= len <= 4096 -> start + len < 2 ^ 32 ->
  let r := blkcipher_get_spot start len in
  (A | r) /\ (r = start \/ start < r /\ r <= start + len - A /\ (4096 | r)).
Proof.
  intros HA H4 Hst Hln Hs Hl Hlt. destruct (spot_run start len Hs Hl Hlt) as [[-> _]|[H1 H2]]; [auto|].
  set (r := blkcipher_get_spot start len) in *. simpl.
  apply Z.mod_divide in H2; [|lia]. assert (A | r) as Hr by by apply (Z.divide_trans A 4096 r). split; [done|]. right.
  split; [lia|]. split; [by apply jump_le; [done..|apply H1]|done].
Qed.

(** Two places of [bsize] bytes and one of [ivsize] bytes, one after the other,
    that end inside the sizes that were asked for. *)
Lemma places_ok alignmask bsize ivsize b : align_ok alignmask bsize ivsize -> 0 < bsize <= 512 -> 0 <= ivsize <= 512 ->
  0 < b -> (8 | b) -> b + 8192 < 2 ^ 32 ->
  let d := blkcipher_get_spot (ALIGN b alignmask) bsize in let sa := blkcipher_get_spot (d + bsize) bsize in
  let iv := blkcipher_get_spot (sa + bsize) ivsize in
  b <= d /\ d + bsize <= sa /\ sa + bsize <= iv /\ sa + bsize <= b + slow_size bsize alignmask /\ iv + ivsize <= b + iv_size bsize ivsize alignmask.
Proof.
  intros (j & Hj & -> & Ht & Hu) Hbs Hiv Hb H8 Hlt d sa iv.
  assert (0 < 2 ^ j) as Hpos by (apply Z.pow_pos_nonneg; lia). assert (2 ^ j <= bsize) as Hle by (apply Z.divide_pos_le; [lia|done]).
  assert (2 ^ j | 4096) as H4 by (exists (2 ^ (12 - j)); rewrite <- Z.pow_add_r by lia; replace (12 - j + j) with 12 by lia; done).
  destruct (align_slack j b Hj Hb H8 ltac:(lia)) as (H1 & Hq & H2 & H3). unfold slow_size, iv_size. set (al := Z.land _ _) in *.
  assert (0 <= al <= 512 /\ al <= bsize) as Hal by lia. set (s0 := ALIGN b (2 ^ j - 1)) in *.
  destruct (spot_aligned (2 ^ j) s0 bsize) as [Hd1 Hd2]; [done..|lia|lia|lia|]. fold d in Hd1, Hd2.
  destruct (spot_aligned (2 ^ j) (d + bsize) bsize) as [Hs1 Hs2]; [done..|by apply Z.divide_add_r|done|lia|lia|lia|]. fold sa in Hs1, Hs2.
  destruct (spot_aligned (2 ^ j) (sa + bsize) ivsize) as [Hi1 Hi2]; [done..|by apply Z.divide_add_r|done|lia|lia|lia|]. fold iv in Hi1, Hi2.
  rewrite !u32_small by (rewrite ?u32_small; unfold is_u32; lia).
  assert (ivsize = 0 \/ 2 ^ j <= ivsize) as Hi0 by (destruct (decide (ivsize = 0)); [by left|right; apply Z.divide_pos_le; [lia|done]]).
  split; [lia|]. split; [lia|]. split; [lia|].
  destruct Hd2 as [Ed|(Hd2 & Hd3 & [kd Hkd])], Hs2 as [Es|(Hs2 & Hs3 & [ks Hks])], Hi2 as [Ei|(Hi2 & Hi3 & [ki Hki])]; lia.
Qed.

End Blkcipher.
