(* ===== verification/BlkcipherProof.v ===== *)
(** * The block cipher walk is correct

    Over any layout of two scatterlists and with any alignment, an operation of a
    mode leaves the output of the mode on the blocks it has processed, nothing
    behind them, and frees what it allocated; allocations may fail, except for the
    copy of a misaligned vector. *)

From S2P Require Import Prelude CipherBase Mem ModesSpec Scatterwalk Blkcipher.

Module BlkcipherProof.
Import CipherBase Mem ModesSpec Scatterwalk Blkcipher.

(** The bytes that a walk can process at its current page. *)
Definition avail (w : scatter_walk) (n : nat) (a : Z) : Prop :=
  scatterwalk_map w = Some a /\ forall k, (k <= n)%nat -> take k (addrs w) = seqZ a (Z.of_nat k) /\
    walk_ok (scatterwalk_advance w (Z.of_nat k)) /\ addrs (scatterwalk_advance w (Z.of_nat k)) = drop k (addrs w).

Lemma clamp_run w n : walk_ok w -> exists n' a, scatterwalk_clamp w (Z.of_nat n) = Some (Z.of_nat n') /\ (n' <= n)%nat /\
  (n' <= 4096)%nat /\ (n' <= length (addrs w))%nat /\ avail w n' a.
Proof.
  intros Hw. destruct (walk_head w Hw) as (s & l & Hs). destruct (pagelen_run w s l Hw Hs) as (Hpl & Hle & H4096).
  exists (Z.to_nat (Z.min (Z.of_nat n) (page_left w s))), (sg_page s * PAGE_SIZE + offset w). unfold scatterwalk_clamp. rewrite Hpl.
  cbn [mbind option_bind]. split; [f_equal; destruct (Z.ltb_spec (page_left w s) (Z.of_nat n)); lia|]. split; [lia|]. split; [lia|].
  split. { unfold addrs. rewrite Hs, length_app, length_seqZ. lia. }
  split; [by apply map_run with l|]. intros k Hk. assert (0 <= Z.of_nat k <= entry_end s - offset w) as Hk' by lia.
  destruct (advance_run w s l Hw Hs _ Hk') as (Hok & Ha & _). rewrite Nat2Z.id in Ha. split; [|done].
  rewrite <- (addrs_prefix w s l Hs _ Hk'). by rewrite Nat2Z.id.
Qed.

Lemma avail_le w n k a : avail w n a -> (k <= n)%nat -> avail w k a.
Proof. intros [Hm H] Hk. split; [done|]. intros j Hj. apply H. lia. Qed.

Section Correct.
Context {bs : nat} `{MD : !Mode bs}.
Notation ivs := (ivsize (Mode := MD)).
Notation bsZ := (Z.of_nat bs).
Notation ivZ := (Z.of_nat ivs).

(** A request: the transform's alignment, the vector [info], the local array
    [tmp], the addresses of the two streams, their length and the input, the
    vector's bytes, the memory, and the answers of the allocators. *)
Context (alignmask info tmp : Z) (Ain Aout : list Z) (T : nat) (data iv0 : list Z) (m0 : mem) (ks ps live0 : list Z).

Definition unaligned : bool := negb (Z.land info alignmask =? 0).

(** The size of the buffer asked for: with room for the vector if that has to
    be copied. *)
Definition bufsz : nat := Z.to_nat (if unaligned then iv_size bsZ ivZ alignmask else slow_size bsZ alignmask).

Definition is_data (x : Z) : Prop := x ∈ take T Ain \/ x ∈ take T Aout.

(** A region that holds neither data nor the vector. *)
Record region_ok (a : Z) (n : nat) : Prop := {
  reg_mapped : mapped m0 a n;
  reg_data : forall x, a <= x < a + Z.of_nat n -> ~ is_data x;
  reg_iv : disj a n info ivs;
}.

Record request_ok : Prop := {
  r_bs : (0 < bs <= 512)%nat;
  r_ivs : (ivs <= 512)%nat;
  r_align : align_ok alignmask bsZ ivZ;
  r_T : Z.of_nat T < 2 ^ 31;
  r_in : (T <= length Ain)%nat;
  r_out : (T <= length Aout)%nat;
  r_alias : forall i j x, (i < T)%nat -> (j < T)%nat -> Ain !! i = Some x -> Aout !! j = Some x -> i = j;
  r_nodup : NoDup (take T Aout);
  r_data : get m0 (take T Ain) = Some data;
  r_bytes : bytes data;
  r_outmap : forall x, x ∈ take T Aout -> is_Some (m0 !! x);
  r_iv : load m0 info ivs = Some iv0;
  r_ivb : bytes iv0;
  r_ivdata : forall x, is_data x -> ~ (info <= x < info + ivZ);
  r_tmp : region_ok tmp bs;
  r_ks : forall a, a ∈ ks -> a <> 0 -> 0 < a /\ (8 | a) /\ a + 8192 < 2 ^ 32 /\ region_ok a bufsz /\ disj a bufsz tmp bs;
  r_ps : forall p, p ∈ ps -> p <> 0 -> 0 < p /\ (4096 | p) /\ p + 8192 < 2 ^ 32 /\ region_ok p 4096 /\ disj p 4096 tmp bs;
  r_kp : forall a p, a ∈ ks -> p ∈ ps -> a <> 0 -> p <> 0 -> disj a bufsz p 4096;
}.

Hypothesis R : request_ok.

(** ** The data in memory *)

Definition scratch (x : Z) : Prop :=
  (tmp <= x < tmp + bsZ) \/ (exists a, a ∈ ks /\ a <> 0 /\ a <= x < a + Z.of_nat bufsz) \/
  (exists p, p ∈ ps /\ p <> 0 /\ p <= x < p + 4096).

(** After [pos] bytes the output so far is [o], the rest of the input is
    untouched, and so is the memory outside the output so far, the vector and
    the scratch regions. *)
Record dinv (pos : nat) (o : list Z) (m : mem) : Prop := {
  d_in : get m (drop pos (take T Ain)) = Some (drop pos data);
  d_out : get m (take pos Aout) = Some o;
  d_map : forall x, is_Some (m0 !! x) -> is_Some (m !! x);
  d_frame : forall x, x ∉ take pos Aout -> ~ scratch x -> ~ (info <= x < info + ivZ) -> m !! x = m0 !! x;
}.

(** Regions that a walk may write without touching the data. *)
Definition safe (a : Z) (n : nat) : Prop :=
  forall x, a <= x < a + Z.of_nat n -> ~ is_data x /\ (scratch x \/ info <= x < info + ivZ).

Lemma take_pos_data pos x : (pos <= T)%nat -> x ∈ take pos Aout -> is_data x.
Proof. intros Hp Hx. right. replace (take pos Aout) with (take pos (take T Aout)) in Hx by (rewrite take_take; f_equal; lia). by eapply subseteq_take. Qed.

Lemma drop_pos_data pos x : x ∈ drop pos (take T Ain) -> is_data x.
Proof. intros Hx. left. by eapply subseteq_drop. Qed.

Lemma dinv_upd pos o m a l : (pos <= T)%nat -> dinv pos o m -> safe a (length l) -> dinv pos o (upd m a l).
Proof.
  intros Hp [Hin Hout Hmap Hfr] Hs. split.
  - rewrite get_upd_ne; [done|]. intros x Hx Hr. destruct (Hs x Hr) as [Hn _]. by apply Hn, (drop_pos_data pos).
  - rewrite get_upd_ne; [done|]. intros x Hx Hr. destruct (Hs x Hr) as [Hn _]. by apply Hn, (take_pos_data pos).
  - intros x Hx. rewrite upd_lookup. case_decide; [apply lookup_lt_is_Some_2; lia|by apply Hmap].
  - intros x H1 H2 H3. rewrite upd_lookup_ne; [by apply Hfr|]. intros Hr. destruct (Hs x Hr) as [_ [?|?]]; done.
Qed.

(** The next addresses of the output. *)
Definition next_out (pos n : nat) : list Z := take n (drop pos Aout).

Lemma next_out_data pos n x : (pos + n <= T)%nat -> x ∈ next_out pos n -> is_data x.
Proof.
  intros Hn Hx. apply (take_pos_data (pos + n)); [done|]. rewrite <- take_take_drop. apply elem_of_app. by right.
Qed.

Lemma next_out_length pos n : (pos + n <= T)%nat -> length (next_out pos n) = n.
Proof using R. intros Hn. pose proof (r_out R). unfold next_out. rewrite length_take, length_drop. lia. Qed.

Lemma dinv_put pos o m n oc : (pos + n <= T)%nat -> dinv pos o m -> length oc = n ->
  dinv (pos + n) (o ++ oc) (put m (next_out pos n) oc).
Proof using R.
  intros Hn [Hin Hout Hmap Hfr] Hl. pose proof (next_out_length pos n Hn) as Hlen. pose proof (r_out R) as Hlo. pose proof (r_in R) as Hli.
  assert (NoDup (take pos Aout ++ next_out pos n)) as Hnd.
  { unfold next_out. rewrite take_take_drop. replace (take (pos + n) Aout) with (take (pos + n) (take T Aout)) by (rewrite take_take; f_equal; lia).
    eapply sublist_NoDup; [apply (r_nodup R)|apply sublist_take]. }
  apply NoDup_app in Hnd as (_ & Hdisj & Hnd). split.
  - rewrite get_put_ne.
    + rewrite <- (drop_drop data n pos), <- (drop_drop (take T Ain) n pos). rewrite <- (take_drop n (drop pos (take T Ain))) in Hin.
      apply get_split in Hin as [_ Hin]. rewrite length_take, length_drop, length_take, Nat.min_l in Hin by lia. done.
    + intros x Hx Hx'. apply list_elem_of_lookup in Hx as [i Hi]. apply list_elem_of_lookup in Hx' as [j Hj].
      unfold next_out in Hj. apply lookup_take_Some in Hj as [Hj Hjn]. rewrite lookup_drop in Hi, Hj. apply lookup_take_Some in Hi as [Hi HiT].
      assert (pos + j < T)%nat as HjT by lia. pose proof (r_alias R _ _ _ HiT HjT Hi Hj). lia.
  - replace (take (pos + n) Aout) with (take pos Aout ++ next_out pos n) by apply take_take_drop. rewrite get_app.
    rewrite (get_put_ne _ _ _ (take pos Aout)) by (intros x Hx; by apply Hdisj). rewrite Hout, get_put_eq by (done || lia). done.
  - intros x Hx. by apply put_mapped, Hmap.
  - intros x H1 H2 H3. rewrite <- take_take_drop, not_elem_of_app in H1. destruct H1 as [H1 H4].
    rewrite put_lookup_ne by done. by apply Hfr.
Qed.

(** ** The scratch buffers *)

#[local] Opaque blkcipher_get_spot ALIGN slow_size iv_size.

Definition place_d (b : Z) : Z := blkcipher_get_spot (ALIGN b alignmask) bsZ.
Definition place_s (b : Z) : Z := blkcipher_get_spot (place_d b + bsZ) bsZ.
Definition place_iv (b : Z) : Z := blkcipher_get_spot (place_s b + bsZ) ivZ.

Lemma place_d_eq b : blkcipher_get_spot (ALIGN b alignmask) bsZ = place_d b.
Proof. done. Qed.
Lemma place_s_eq b : blkcipher_get_spot (place_d b + bsZ) bsZ = place_s b.
Proof. done. Qed.
Lemma place_iv_eq b : blkcipher_get_spot (place_s b + bsZ) ivZ = place_iv b.
Proof. done. Qed.

Lemma ks_places b : b ∈ ks -> b <> 0 -> b <= place_d b /\ place_d b + bsZ <= place_s b /\ place_s b + bsZ <= b + Z.of_nat bufsz /\
  (unaligned = true -> place_s b + bsZ <= place_iv b /\ place_iv b + ivZ <= b + Z.of_nat bufsz).
Proof using R.
  intros Hb Hb0. destruct (r_ks R b Hb Hb0) as (Hp & H8 & Hlt & _). pose proof (r_bs R). pose proof (r_ivs R).
  assert (b <= place_d b /\ place_d b + bsZ <= place_s b /\ place_s b + bsZ <= place_iv b /\
    place_s b + bsZ <= b + slow_size bsZ alignmask /\ place_iv b + ivZ <= b + iv_size bsZ ivZ alignmask) as (P1 & P2 & P3 & P4 & P5).
  { refine (places_ok alignmask bsZ ivZ b (r_align R) _ _ _ H8 _); lia. }
  unfold bufsz. clear -P1 P2 P3 P4 P5. destruct unaligned; (split; [done|]; split; [done|]; split; [lia|]; intros; [lia||done]).
Qed.

Lemma ps_places p : p ∈ ps -> p <> 0 -> place_d p = p /\ place_s p = p + bsZ.
Proof using R.
  intros Hp Hp0. destruct (r_ps R p Hp Hp0) as (Hpos & Hdiv & Hlt & _). pose proof (r_bs R) as Hbs. pose proof (r_align R) as (j & Hj & Hal & _).
  assert (ALIGN p alignmask = p) as HA.
  { rewrite Hal. destruct (align_run p j) as (H1 & H2 & H3); [lia|lia|assert (2 ^ j <= 2 ^ 12) by (apply Z.pow_le_mono_r; lia); lia|].
    assert (0 < 2 ^ j) by (apply Z.pow_pos_nonneg; lia). apply Z.mod_divide in H3 as [x Hx]; [|lia].
    assert (2 ^ j | p) as [y Hy]; [|rewrite Hx; rewrite Hx in H1, H2; rewrite Hy in H1, H2 |- *; assert (x = y) by nia; by subst]. transitivity 4096; [|done]. exists (2 ^ (12 - j)). rewrite <- Z.pow_add_r by lia. by replace (12 - j + j) with 12 by lia. }
  destruct Hdiv as [q Hq]. assert (place_d p = p) as Hd.
  { unfold place_d. rewrite HA. destruct (spot_run p bsZ) as [[-> _]|[H1 H2]]; [lia|lia|lia|done|].
    apply Z.mod_divide in H2 as [r Hr]; [|lia]. lia. }
  split; [done|]. unfold place_s. rewrite Hd. destruct (spot_run (p + bsZ) bsZ) as [[-> _]|[H1 H2]]; [lia|lia|lia|done|].
  apply Z.mod_divide in H2 as [r Hr]; [|lia]. lia.
Qed.

Lemma safe_ks b a n : b ∈ ks -> b <> 0 -> b <= a -> a + Z.of_nat n <= b + Z.of_nat bufsz -> safe a n /\ mapped m0 a n /\ disj a n tmp bs.
Proof using R.
  intros Hb Hb0 H1 H2. destruct (r_ks R b Hb Hb0) as (_ & _ & _ & [Hm Hd Hi] & Ht). split; [|split].
  - intros x Hx. split; [apply Hd; lia|]. left. right. left. exists b. split; [done|]. split; [done|]. lia.
  - apply (mapped_sub _ b bufsz); [done|lia|lia].
  - eapply disj_sub; [exact Ht|lia..].
Qed.

Lemma safe_ps p a n : p ∈ ps -> p <> 0 -> p <= a -> a + Z.of_nat n <= p + 4096 -> safe a n /\ mapped m0 a n /\ disj a n tmp bs.
Proof using R.
  intros Hp Hp0 H1 H2. destruct (r_ps R p Hp Hp0) as (_ & _ & _ & [Hm Hd Hi] & Ht). split; [|split].
  - intros x Hx. split; [apply Hd; lia|]. left. right. right. exists p. split; [done|]. split; [done|]. lia.
  - apply (mapped_sub _ p 4096); [done|lia|lia].
  - eapply disj_sub; [exact Ht|lia..].
Qed.

Lemma safe_tmp : safe tmp bs.
Proof using R. intros x Hx. split; [by apply (reg_data _ _ (r_tmp R))|]. left. by left. Qed.

Lemma safe_info : safe info ivs.
Proof using R. intros x Hx. split; [|by right]. intros Hd. by apply (r_ivdata R x Hd). Qed.

(** The state of the two scratch buffers and the place of the vector. *)
Record bufs (e : env) (w : walk) : Prop := {
  b_ks : forall a, a ∈ kmallocs e -> a ∈ ks;
  b_ps : forall p, p ∈ free_pages e -> p ∈ ps;
  b_page : page w <> 0 -> page w ∈ ps;
  b_buf : buffer w <> 0 -> buffer w <> page w -> buffer w ∈ ks;
  b_iv : unaligned = false /\ w_iv w = info \/ unaligned = true /\ buffer w ∈ ks /\ buffer w <> 0 /\ w_iv w = place_iv (buffer w);
  b_live : live e = (if page w =? 0 then [] else [page w]) ++ (if (buffer w =? 0) || (buffer w =? page w) then [] else [buffer w]) ++ live0;
}.

Lemma ks_not_ps a p : a ∈ ks -> p ∈ ps -> a <> 0 -> p <> 0 -> a <> p.
Proof using R.
  intros Ha Hp Ha0 Hp0 ->. pose proof (r_kp R _ _ Ha Hp Ha0 Hp0) as Hd. pose proof (r_bs R).
  destruct (ks_places p Ha Ha0) as (H1 & H2 & H3 & _). unfold disj in Hd. lia.
Qed.

(** The vector is clear of everything else that a chunk uses. *)
Lemma iv_clear e w : bufs e w -> safe (w_iv w) ivs /\ mapped m0 (w_iv w) ivs /\ disj tmp bs (w_iv w) ivs /\
  (forall p, p ∈ ps -> p <> 0 -> disj (w_iv w) ivs p 4096) /\
  (buffer w <> 0 -> disj (w_iv w) ivs (place_d (buffer w)) bs /\ disj (w_iv w) ivs (place_s (buffer w)) bs).
Proof using R.
  intros [_ _ Hpg Hbf Hiv _]. destruct Hiv as [[Hu ->]|(Hu & Hk & H0 & ->)].
  - split; [apply safe_info|]. split; [exists iv0; apply (r_iv R)|]. split; [apply (r_tmp R)|]. split.
    + intros p Hp Hp0. destruct (r_ps R p Hp Hp0) as (_ & _ & _ & [_ _ Hd] & _). by apply disj_sym.
    + intros H0. destruct (decide (buffer w = page w)) as [E|E].
      * destruct (ps_places (page w)) as [Ed Es]; [apply Hpg; congruence|congruence|]. rewrite E, Ed, Es.
        destruct (r_ps R (page w)) as (_ & _ & _ & [_ _ Hd] & _); [apply Hpg; congruence|congruence|]. pose proof (r_bs R). apply disj_sym in Hd.
        split; (eapply disj_sub; [exact Hd|lia..]).
      * specialize (Hbf H0 E). destruct (ks_places _ Hbf H0) as (H1 & H2 & H3 & _). destruct (r_ks R _ Hbf H0) as (_ & _ & _ & [_ _ Hd] & _).
        apply disj_sym in Hd. split; (eapply disj_sub; [exact Hd|lia..]).
  - destruct (ks_places _ Hk H0) as (H1 & H2 & H3 & H4). destruct (H4 Hu) as [H5 H6].
    destruct (safe_ks (buffer w) (place_iv (buffer w)) ivs Hk H0) as (S1 & S2 & S3); [lia|lia|]. split; [done|]. split; [done|].
    split; [by apply disj_sym|]. split.
    + intros p Hp Hp0. eapply disj_sub; [exact (r_kp R _ _ Hk Hp H0 Hp0)|lia..].
    + intros _. split; apply disj_sym, disj_next; lia.
Qed.

(** The places of a buffer in use. *)
Lemma buf_places e w : bufs e w -> buffer w <> 0 -> let d := place_d (buffer w) in let sa := place_s (buffer w) in
  (safe d bs /\ mapped m0 d bs /\ disj d bs tmp bs) /\ (safe sa bs /\ mapped m0 sa bs /\ disj sa bs tmp bs) /\ disj sa bs d bs /\ sa <> d.
Proof using R.
  intros [_ _ Hpg Hbf _ _] H0. pose proof (r_bs R). destruct (decide (buffer w = page w)) as [E|E]; simpl.
  - destruct (ps_places (page w)) as [Ed Es]; [apply Hpg; congruence|congruence|]. rewrite E, Ed, Es.
    split; [apply (safe_ps (page w)); [apply Hpg; congruence|congruence|lia|lia]|].
    split; [apply (safe_ps (page w)); [apply Hpg; congruence|congruence|lia|lia]|]. split; [apply disj_sym, disj_next; lia|lia].
  - specialize (Hbf H0 E). destruct (ks_places _ Hbf H0) as (H1 & H2 & H3 & _).
    split; [apply (safe_ks (buffer w)); try done; lia|]. split; [apply (safe_ks (buffer w)); try done; lia|].
    split; [apply disj_sym, disj_next; lia|lia].
Qed.

(** ** The end of a walk *)

Record final (pos : nat) (o v : list Z) (s : state) : Prop := {
  f_data : dinv pos o (mm (fst s));
  f_iv : load (mm (fst s)) info ivs = Some v;
  f_live : live (fst s) = live0;
  f_nbytes : nbytes (snd s) = 0;
}.

Lemma remove_one_head a l : remove_one a (a :: l) = Some l.
Proof. simpl. by rewrite Z.eqb_refl. Qed.

Lemma frees_ok e w m : bufs e w -> exists e',
  (e ← (if negb (buffer w =? page w) then kfree (buffer w) (set_mem m e) else Some (set_mem m e));
   if negb (page w =? 0) then kfree (page w) e else Some e) = Some e' /\ mm e' = m /\ live e' = live0 /\ desc_flags e' = desc_flags e.
Proof using R.
  intros [_ _ Hpg Hbf _ Hlive]. unfold kfree. destruct (Z.eqb_spec (page w) 0) as [E0|E0]; destruct (Z.eqb_spec (buffer w) (page w)) as [E1|E1]; simpl in *.
  - cbn [mbind option_bind]. eexists. split; [done|]. simpl. split; [done|]. rewrite Hlive, E1, E0. done.
  - destruct (Z.eqb_spec (buffer w) 0) as [E2|E2]; [lia|]. simpl. rewrite Hlive. simpl. rewrite Z.eqb_refl. by eexists.
  - cbn [mbind option_bind]. simpl. rewrite Hlive. rewrite orb_true_r. simpl. rewrite Z.eqb_refl. simpl. by eexists.
  - destruct (Z.eqb_spec (buffer w) 0) as [E2|E2]; simpl in *; rewrite Hlive; simpl.
    + rewrite Z.eqb_refl. simpl. by eexists.
    + rewrite (proj2 (Z.eqb_neq _ _) E1). rewrite Z.eqb_refl. simpl. rewrite Z.eqb_refl. by eexists.
Qed.

Lemma tail_final next pos o v e w err : (pos <= T)%nat -> bufs e w -> dinv pos o (mm e) -> load (mm e) (w_iv w) ivs = Some v ->
  walk_ok (w_in w) -> walk_ok (w_out w) ->
  exists s, walk_done_tail ivZ info next (e, w) err 0 = Some (err, s) /\ final pos o v s /\ desc_flags (fst s) = desc_flags e.
Proof using R.
  intros Hpos Hb Hd Hiv Hin Hout. unfold walk_done_tail. change (negb (0 =? 0)) with false. destruct (walk_head _ Hin) as (s1 & l1 & Hs1). destruct (walk_head _ Hout) as (s2 & l2 & Hs2).
  destruct (done_run _ _ _ Hin Hs1 false false) as (i' & f1 & -> & _); [done|]. cbn [mbind option_bind].
  destruct (done_run _ _ _ Hout Hs2 true false) as (o' & f2 & -> & _); [done|]. cbn [mbind option_bind Z.eqb negb].
  set (w' := set_nbytes 0 (set_total 0 (set_out o' (set_in i' w)))). assert (bufs e w') as Hb' by by destruct Hb.
  assert (exists m, (if negb (w_iv w' =? info) then copy (mm (add_flushed f2 e)) info (w_iv w') (Z.to_nat ivZ) else Some (mm (add_flushed f2 e))) = Some m /\
    dinv pos o m /\ load m info ivs = Some v) as (m & -> & Hdm & Hlm).
  { change (w_iv w') with (w_iv w). change (mm (add_flushed f2 e)) with (mm e). destruct (Z.eqb_spec (w_iv w) info) as [E|E]; simpl; [exists (mm e); by rewrite <- E|].
    pose proof (load_length _ _ _ _ Hiv) as Hlv. assert (mapped (mm e) info ivs) as Hmi.
    { unfold mapped. setoid_rewrite <- get_seqZ. apply get_mapped. intros x Hx. apply (d_map _ _ _ Hd). revert x Hx. apply get_mapped. rewrite get_seqZ. exists iv0. apply (r_iv R). }
    rewrite Nat2Z.id. rewrite (copy_ok _ _ _ _ _ Hiv Hmi). eexists. split; [done|]. split; [|by apply load_upd_eq].
    apply dinv_upd; [done|done|]. rewrite Hlv. apply safe_info. }
  cbn [mbind option_bind]. destruct (frees_ok (add_flushed f2 e) w' m) as (e' & Ef & Hm & Hl & Hfl); [by destruct Hb'|].
  revert Ef. destruct (if negb (buffer w' =? page w') then kfree (buffer w') (set_mem m (add_flushed f2 e)) else Some (set_mem m (add_flushed f2 e))) as [e1|]; [|done].
  cbn [mbind option_bind]. intros ->. eexists. split; [done|]. split; [|done]. split; simpl; [by rewrite Hm|by rewrite Hm|done|done].
Qed.

(** ** Starting a chunk *)

(** A walk after [pos] bytes of output, with its input at [ipos]. *)
Record winv (ipos pos : nat) (o v : list Z) (e : env) (w : walk) : Prop := {
  wi_pos : (pos <= T)%nat;
  wi_bufs : bufs e w;
  wi_d : dinv pos o (mm e);
  wi_iv : load (mm e) (w_iv w) ivs = Some v;
  wi_ivs : sized ivs v;
  wi_in : walk_ok (w_in w);
  wi_ina : addrs (w_in w) = drop ipos Ain;
  wi_out : walk_ok (w_out w);
  wi_outa : addrs (w_out w) = drop pos Aout;
  wi_total : total w = Z.of_nat (T - pos);
  wi_phys : Z.land (flags w) BLKCIPHER_WALK_PHYS = 0;
  wi_fresh : buffer w = 0 -> kmallocs e = ks;
}.

(** The three kinds of chunks: mapped in place, copied to a page, and a block
    in the scratch buffer. *)
Inductive ready (pos : nat) (o v : list Z) (e : env) (w : walk) : Prop :=
| ready_fast n : Z.land (flags w) BLKCIPHER_WALK_SLOW = 0 -> Z.land (flags w) BLKCIPHER_WALK_COPY = 0 ->
    winv pos pos o v e w -> nbytes w = Z.of_nat n -> (bs <= n <= T - pos)%nat ->
    avail (w_in w) n (src_addr w) -> avail (w_out w) n (dst_addr w) -> ready pos o v e w
| ready_copy n sa da : Z.land (flags w) BLKCIPHER_WALK_SLOW = 0 -> Z.land (flags w) BLKCIPHER_WALK_COPY <> 0 ->
    winv pos pos o v e w -> nbytes w = Z.of_nat n -> (bs <= n <= T - pos)%nat -> (n <= 4096)%nat ->
    avail (w_in w) n sa -> avail (w_out w) n da -> page w <> 0 -> src_addr w = page w -> dst_addr w = page w ->
    load (mm e) (page w) n = Some (take n (drop pos data)) -> ready pos o v e w
| ready_slow : Z.land (flags w) BLKCIPHER_WALK_SLOW <> 0 ->
    winv (pos + bs) pos o v e w -> nbytes w = bsZ -> (bs <= T - pos)%nat -> buffer w <> 0 ->
    src_addr w = place_s (buffer w) -> dst_addr w = place_d (buffer w) ->
    load (mm e) (place_s (buffer w)) bs = Some (take bs (drop pos data)) -> ready pos o v e w.

(** What a call that moves the walk on can return. *)
Definition outcome (pos : nat) (o v : list Z) (flg : Z) (r : option (Z * state)) : Prop :=
  exists err s, r = Some (err, s) /\
    (err = 0 /\ ready pos o v (fst s) (snd s) /\ desc_flags (fst s) = flg \/
     err = - EINVAL /\ (T - pos < bs)%nat /\ final pos o v s /\ desc_flags (fst s) = Z.lor flg CRYPTO_TFM_RES_BAD_BLOCK_LEN \/
     err = - ENOMEM /\ ((pos + bs <= T)%nat /\ hd 0 ks = 0) /\ final pos o v s /\ desc_flags (fst s) = flg).

Lemma mapped_now pos o m a n : dinv pos o m -> mapped m0 a n -> mapped m a n.
Proof.
  intros Hd Hm. unfold mapped in *. setoid_rewrite <- get_seqZ. apply get_mapped. intros x Hx. apply (d_map _ _ _ Hd).
  revert x Hx. apply get_mapped. by setoid_rewrite get_seqZ.
Qed.

(** The input still to come, as addresses and as bytes. *)
Lemma input_now pos n o m : (n <= T - pos)%nat -> dinv pos o m -> get m (take n (drop pos Ain)) = Some (take n (drop pos data)).
Proof using R.
  intros Hn Hd. pose proof (d_in _ _ _ Hd) as H. pose proof (r_in R). rewrite <- (take_drop n (drop pos (take T Ain))) in H.
  apply get_split in H as [H _]. rewrite length_take, length_drop, length_take, Nat.min_l in H by lia.
  rewrite skipn_firstn_comm, take_take, Nat.min_l in H by lia. done.
Qed.

Lemma input_avail pos n o m w a k : (n <= T - pos)%nat -> (k <= n)%nat -> dinv pos o m -> addrs w = drop pos Ain -> avail w n a ->
  load m a k = Some (take k (drop pos data)).
Proof using R.
  intros Hn Hk Hd Ha [_ Hav]. destruct (Hav k Hk) as [Ht _]. rewrite Ha in Ht. rewrite <- get_seqZ, <- Ht. apply (input_now pos k o); [lia|done].
Qed.

Lemma land_ldiff_comm f c b : Z.land (Z.ldiff f c) b = Z.land f (Z.ldiff b c).
Proof. apply Z.bits_inj'. intros i Hi. rewrite !Z.land_spec, !Z.ldiff_spec. by destruct (Z.testbit f i), (Z.testbit c i), (Z.testbit b i). Qed.

(** The buffer of the slow path: the one in use, the page, or a new one. *)
Lemma acquire_ok e w : bufs e w -> (buffer w = 0 -> kmallocs e = ks) -> exists e' b,
  next_slow_buffer bsZ alignmask e w = (e', set_buffer b w) /\
  bufs e' (set_buffer b w) /\ (b = 0 -> hd 0 ks = 0) /\ mm e' = mm e /\ desc_flags e' = desc_flags e.
Proof using R.
  intros Hb Hfr. unfold next_slow_buffer. destruct (Z.eqb_spec (buffer w) 0) as [E0|E0]; simpl.
  2:{ exists e, (buffer w). split; [by destruct w|]. split; [by destruct Hb|done]. }
  destruct Hb as [Hk Hp Hpg Hbf Hiv Hl]. specialize (Hfr E0). destruct Hiv as [[Hu Hi]|(_ & _ & Hc & _)]; [|done].
  destruct (Z.eqb_spec (page w) 0) as [E1|E1]; simpl.
  2:{ exists e, (page w). split; [done|]. split; [|done]. split; simpl; try done; [by left|].
      rewrite Hl, E0, (Z.eqb_refl (page w)), orb_true_r, (proj2 (Z.eqb_neq _ _) E1). done. }
  unfold kmalloc. destruct (kmallocs e) as [|a r] eqn:Ek.
  - exists e, 0. split; [done|]. split; [|split; [by rewrite <- Hfr|done]]. split; simpl; try done; [by rewrite Ek|by left|by rewrite Hl, E0, E1].
  - eexists _, a. split; [done|]. split; [|split; [by rewrite <- Hfr|done]]. split; simpl; try done.
    + intros x Hx. apply Hk. by right.
    + intros _ _. apply Hk. by left.
    + by left.
    + rewrite Hl, E1, E0. simpl. destruct (Z.eqb_spec a 0) as [->|]; done.
Qed.

Lemma next_slow_ok pos o v e w : winv pos pos o v e w -> (bs <= T - pos)%nat ->
  outcome pos o v (desc_flags e) (blkcipher_next_slow bsZ ivZ alignmask info (e, w)).
Proof using R.
  intros [Hp Hb Hd Hiv Hivs Hi Hia Ho Hoa Ht Hph Hfr] Hn. unfold blkcipher_next_slow. cbn [fst snd].
  destruct (acquire_ok e w Hb Hfr) as (e' & b & -> & Hb' & Hb0 & Hmm & Hfl). rewrite <- Hmm in Hd, Hiv.
  change (buffer (set_buffer b w)) with b. change (w_in (set_buffer b w)) with (w_in w).
  destruct (Z.eqb_spec b 0) as [E|E].
  - destruct (tail_final (fun _ => None) pos o v e' (set_buffer b w) (- ENOMEM)) as (s & Es & Hs & Hsf); [done..|].
    unfold walk_done_error. rewrite Es. eexists _, _. split; [done|]. right. right. split; [done|].
    split; [pose proof (r_bs R); split; [lia|by apply Hb0]|]. split; [done|congruence].
  - destruct (buf_places e' (set_buffer b w) Hb' E) as (_ & (S1 & S2 & S3) & _). simpl in S1, S2, S3.
    rewrite place_d_eq, place_s_eq.
    pose proof (input_now pos bs o (mm e') Hn Hd) as Hg. pose proof (r_in R) as Hli.
    unfold scatterwalk_copychunks. destruct (copychunks_in (S (S (Z.to_nat bsZ))) (mm e') (place_s b) (w_in w) bs (take bs (drop pos data)))
      as (i' & f & -> & Hi' & Hia').
    + done.
    + rewrite Hia, length_drop. lia.
    + rewrite Nat2Z.id. apply chunk_fuel_bound.
    + by rewrite Hia.
    + by eapply mapped_now.
    + rewrite Hia. intros x Hx Hr. destruct (S1 x Hr) as [Hnd _]. apply Hnd, (drop_pos_data pos).
      replace (take bs (drop pos Ain)) with (take bs (drop pos (take T Ain))) in Hx
        by (rewrite skipn_firstn_comm, take_take; f_equal; lia). by eapply subseteq_take.
    + cbn [mbind option_bind]. eexists _, _. split; [done|]. left. split; [done|]. split; [|done]. simpl.
      assert (length (take bs (drop pos data)) = bs) as Hlb by (apply get_length in Hg; rewrite Hg, length_take, length_drop; lia).
      destruct (iv_clear e' (set_buffer b w) Hb') as (I1 & I2 & I3 & I4 & I5). destruct (I5 E) as [I6 I7]. simpl in I6, I7.
      apply ready_slow; simpl; try done.
      * rewrite Z.land_lor_distr_l. change (Z.land BLKCIPHER_WALK_SLOW BLKCIPHER_WALK_SLOW) with 2. intros Hc%Z.lor_eq_0_iff. lia.
      * split; simpl; try done.
        -- by destruct Hb'.
        -- apply dinv_upd; [done|done|by rewrite Hlb].
        -- rewrite load_upd_ne; [done|]. rewrite Hlb. by apply disj_sym.
        -- rewrite Hia', Hia, drop_drop. done.
        -- rewrite Z.land_lor_distr_l, Hph. done.
      * apply load_upd_eq, Hlb.
Qed.

(** Changes of the walk that do not concern the invariant. *)
Lemma winv_set_nbytes ipos pos o v e w n : winv ipos pos o v e w -> winv ipos pos o v e (set_nbytes n w).
Proof. intros [? Hb ? ? ? ? ? ? ? ? ? ?]. split; try done. by destruct Hb. Qed.

Lemma winv_set_flags ipos pos o v e w f : Z.land f BLKCIPHER_WALK_PHYS = 0 -> winv ipos pos o v e w -> winv ipos pos o v e (set_flags f w).
Proof. intros Hf [? Hb ? ? ? ? ? ? ? ? ? ?]. split; try done. by destruct Hb. Qed.

Lemma winv_set_addrs ipos pos o v e w a b : winv ipos pos o v e w -> winv ipos pos o v e (set_dst a (set_src b w)).
Proof. intros [? Hb ? ? ? ? ? ? ? ? ? ?]. split; try done. by destruct Hb. Qed.

Lemma next_align_ok pos o v e w n : winv pos pos o v e w -> Z.land (flags w) BLKCIPHER_WALK_SLOW = 0 -> Z.land (flags w) BLKCIPHER_WALK_COPY = 0 ->
  exists e' w' n', next_align alignmask e w n = (e', w', n') /\ winv pos pos o v e' w' /\ Z.land (flags w') BLKCIPHER_WALK_SLOW = 0 /\
    (n' = 0 \/ n' = n /\ (Z.land (flags w') BLKCIPHER_WALK_COPY <> 0 -> page w' <> 0)) /\ desc_flags e' = desc_flags e.
Proof using R.
  intros Hw Hslow Hcopy. unfold next_align. destruct (negb _ || negb _); simpl.
  2:{ exists e, w, n. split; [done|]. split; [done|]. split; [done|]. split; [by right|done]. }
  assert (winv pos pos o v e (set_flags (Z.lor (flags w) BLKCIPHER_WALK_COPY) w)) as Hw1.
  { apply winv_set_flags; [|done]. rewrite Z.land_lor_distr_l, (wi_phys _ _ _ _ _ _ Hw). done. }
  assert (Z.land (Z.lor (flags w) BLKCIPHER_WALK_COPY) BLKCIPHER_WALK_SLOW = 0) as Hs1 by (rewrite Z.land_lor_distr_l, Hslow; done).
  destruct (Z.eqb_spec (page w) 0) as [E|E].
  2:{ eexists _, _, n. split; [done|]. split; [done|]. split; [done|]. split; [|done]. right. split; done. }
  unfold get_free_page. destruct Hw1 as [Hp [Hk Hps Hpg Hbf Hiv' Hl] Hd Hiv Hivs Hi Hia Ho Hoa Ht Hph Hfr]. simpl in *. destruct (free_pages e) as [|p r] eqn:Ep.
  - eexists _, _, 0. split; [done|]. split; [|split; [done|split; [by left|done]]]. split; simpl; try done. split; simpl; try done; [by rewrite Ep| |by rewrite Hl, E].
    intros H1 H2. apply Hbf; [done|]. by rewrite E.
  - destruct (Z.eqb_spec p 0) as [E0|E0].
    + eexists _, _, 0. split; [done|]. split; [|split; [done|split; [by left|done]]]. subst p. split; simpl; try done. split; simpl; try done.
      * intros x Hx. apply Hps. by right.
      * intros H1 H2. apply Hbf; [done|]. by rewrite E.
      * by rewrite Hl, E.
    + eexists _, _, n. split; [done|]. split; [|split; [done|split; [by right|done]]]. split; simpl; try done. split; simpl; try done.
      * intros x Hx. apply Hps. by right.
      * intros _. apply Hps. by left.
      * intros H1 H2. destruct (decide (buffer w = 0)); [done|]. apply Hbf; [done|]. by rewrite E.
      * rewrite Hl, E. simpl. rewrite (proj2 (Z.eqb_neq _ _) E0). simpl. f_equal.
        destruct (Z.eqb_spec (buffer w) 0) as [|Hb0]; simpl; [done|].
        assert (buffer w ∈ ks) as Hbk by (apply Hbf; [done|by rewrite E]).
        assert (buffer w <> p) by (apply ks_not_ps; try done; apply Hps; by left). by rewrite (proj2 (Z.eqb_neq _ _) H).
Qed.

Lemma walk_page_map w a : walk_ok w -> scatterwalk_map w = Some a ->
  exists p, scatterwalk_page w = Some p /\ 0 <= p < 2 ^ 20 /\ a = p * PAGE_SIZE + offset_in_page (offset w) /\ 0 <= offset_in_page (offset w) < 4096.
Proof.
  intros Hw. destruct (walk_head w Hw) as (s & l & Hs). destruct (walk_bounds w s l Hw Hs) as ((H1 & H2 & H3 & H4) & _ & H5).
  unfold scatterwalk_map, scatterwalk_page. rewrite (walk_cur w s l Hs). cbn [mbind option_bind]. intros [= <-]. eexists. split; [done|].
  rewrite offset_in_page_mod. unfold PAGE_SHIFT, PAGE_SIZE in *. rewrite Z.shiftr_div_pow2 by lia. change (2 ^ 12) with 4096.
  pose proof (Z_div_mod_eq_full (offset w) 4096). pose proof (Z.mod_pos_bound (offset w) 4096 ltac:(lia)).
  split; [|by split]. assert (0 <= offset w / 4096) by (apply Z.div_pos; lia). lia.
Qed.

Lemma next_fast_ok pos o v e w n sa da : winv pos pos o v e w -> Z.land (flags w) BLKCIPHER_WALK_SLOW = 0 -> Z.land (flags w) BLKCIPHER_WALK_COPY = 0 ->
  nbytes w = Z.of_nat n -> (bs <= n <= T - pos)%nat -> avail (w_in w) n sa -> avail (w_out w) n da ->
  outcome pos o v (desc_flags e) (blkcipher_next_fast (e, w)).
Proof.
  intros Hw Hslow Hcopy Hn Hle Hai Hao. unfold blkcipher_next_fast.
  destruct (walk_page_map _ _ (wi_in _ _ _ _ _ _ Hw) (proj1 Hai)) as (p1 & Ep1 & Hp1 & Ha1 & Ho1).
  destruct (walk_page_map _ _ (wi_out _ _ _ _ _ _ Hw) (proj1 Hao)) as (p2 & Ep2 & Hp2 & Ha2 & Ho2).
  rewrite Ep1, Ep2. cbn [mbind option_bind]. rewrite (wi_phys _ _ _ _ _ _ Hw). cbn [Z.eqb negb]. rewrite (proj1 Hai). cbn [mbind option_bind].
  set (so := offset_in_page (offset (w_in w))) in *. set (do_ := offset_in_page (offset (w_out w))) in *.
  unfold PAGE_SIZE, sizeof_page in *. destruct (Z.eqb_spec (Z.lor (u32 (so - do_)) (u32 (32 * (p1 - p2)))) 0) as [E|E]; simpl.
  - assert (sa = da) as Hsd.
    { apply Z.lor_eq_0_iff in E as [E1 E2]. unfold u32 in E1, E2. apply Z.mod_divide in E1 as [q1 Hq1]; [|lia]. apply Z.mod_divide in E2 as [q2 Hq2]; [|lia]. lia. }
    eexists _, _. split; [done|]. left. split; [done|]. split; [|done]. apply (ready_fast _ _ _ _ _ n); simpl; try done; [|by rewrite Hsd].
    by apply winv_set_addrs.
  - rewrite (proj1 Hao). cbn [mbind option_bind]. eexists _, _. split; [done|]. left. split; [done|]. split; [|done].
    assert (forall b, Z.land BLKCIPHER_WALK_DIFF b = 0 -> Z.land (Z.lor (flags w) BLKCIPHER_WALK_DIFF) b = Z.land (flags w) b) as Hbit.
    { intros b Hb. by rewrite Z.land_lor_distr_l, Hb, Z.lor_0_r. }
    apply (ready_fast _ _ _ _ _ n); simpl; try done; [by rewrite Hbit|by rewrite Hbit|].
    apply (winv_set_addrs _ _ _ _ _ (set_flags (Z.lor (flags w) BLKCIPHER_WALK_DIFF) w)), winv_set_flags; [|done].
    rewrite Hbit by done. apply Hw.
Qed.

Lemma next_copy_ok pos o v e w n sa da : winv pos pos o v e w -> Z.land (flags w) BLKCIPHER_WALK_SLOW = 0 -> Z.land (flags w) BLKCIPHER_WALK_COPY <> 0 ->
  nbytes w = Z.of_nat n -> (bs <= n <= T - pos)%nat -> (n <= 4096)%nat -> page w <> 0 -> avail (w_in w) n sa -> avail (w_out w) n da ->
  outcome pos o v (desc_flags e) (blkcipher_next_copy (e, w)).
Proof using R.
  intros Hw Hslow Hcopy Hn Hle H4096 Hpg Hai Hao. unfold blkcipher_next_copy. rewrite (proj1 Hai). cbn [mbind option_bind].
  pose proof (input_avail pos n o (mm e) (w_in w) sa n ltac:(lia) ltac:(lia) (wi_d _ _ _ _ _ _ Hw) (wi_ina _ _ _ _ _ _ Hw) Hai) as Hl.
  pose proof (b_page _ _ (wi_bufs _ _ _ _ _ _ Hw) Hpg) as Hps.
  destruct (safe_ps (page w) (page w) n Hps Hpg) as (S1 & S2 & S3); [lia|lia|]. pose proof (mapped_now _ _ _ _ _ (wi_d _ _ _ _ _ _ Hw) S2) as Hm.
  rewrite Hn, Nat2Z.id. rewrite (copy_ok _ _ _ _ _ Hl Hm). cbn [mbind option_bind]. pose proof (load_length _ _ _ _ Hl) as Hlen.
  destruct (iv_clear e w (wi_bufs _ _ _ _ _ _ Hw)) as (I1 & I2 & I3 & I4 & I5).
  eexists _, _. split; [done|]. left. split; [done|]. split; [|done]. apply (ready_copy _ _ _ _ _ n sa da); simpl; try done; [|by apply load_upd_eq].
  apply winv_set_addrs. destruct Hw as [Hp Hb Hd Hiv Hivs Hi Hia Ho Hoa Ht Hph Hfr]. split; simpl; try done; [by destruct Hb|apply dinv_upd; [done|done|by rewrite Hlen]|].
  rewrite load_upd_ne; [done|]. rewrite Hlen. apply disj_sym. eapply disj_sub; [exact (I4 _ Hps Hpg)|lia..].
Qed.

Lemma walk_next_ok pos o v e w : winv pos pos o v e w -> outcome pos o v (desc_flags e) (blkcipher_walk_next bsZ ivZ alignmask info (e, w)).
Proof using R.
  intros Hw. unfold blkcipher_walk_next. pose proof (r_bs R) as Hbs. rewrite (wi_total _ _ _ _ _ _ Hw).
  destruct (Z.ltb_spec (Z.of_nat (T - pos)) bsZ) as [Hlt|Hge].
  { destruct Hw as [Hp Hb Hd Hiv Hivs Hi Hia Ho Hoa Ht Hph Hfr].
    destruct (tail_final (fun _ => None) pos o v (set_desc_flags (Z.lor (desc_flags e) CRYPTO_TFM_RES_BAD_BLOCK_LEN) e) w (- EINVAL))
      as (s & Es & Hs & Hsf); [done|by destruct Hb|done..|]. unfold walk_done_error. rewrite Es. eexists _, _. split; [done|]. right. left.
    split; [done|]. split; [lia|]. split; [done|]. by rewrite Hsf. }
  set (w1 := set_flags _ w). assert (winv pos pos o v e w1 /\ Z.land (flags w1) BLKCIPHER_WALK_SLOW = 0 /\ Z.land (flags w1) BLKCIPHER_WALK_COPY = 0) as (Hw1 & H2 & H4).
  { unfold w1. simpl. rewrite !land_ldiff_comm. split; [|split; apply Z.land_0_r].
    apply winv_set_flags; [|done]. rewrite land_ldiff_comm. apply Hw. }
  destruct (next_align_ok pos o v e w1 (Z.of_nat (T - pos)) Hw1 H2 H4) as (e' & w' & n' & -> & Hw' & Hslow & Hn' & Hfl). rewrite <- Hfl.
  assert (exists k, n' = Z.of_nat k /\ (k <= T - pos)%nat /\ (k = 0%nat \/ (Z.land (flags w') BLKCIPHER_WALK_COPY <> 0 -> page w' <> 0))) as (k & -> & Hk & Hpg).
  { destruct Hn' as [->|[-> Hpg]]; [exists 0%nat; split; [done|]; split; [lia|by left]|]. exists (T - pos)%nat. split; [done|]. split; [lia|by right]. }
  destruct (clamp_run (w_in w') k (wi_in _ _ _ _ _ _ Hw')) as (n1 & sa & -> & Hn1 & _ & _ & Hai). cbn [mbind option_bind].
  destruct (clamp_run (w_out w') n1 (wi_out _ _ _ _ _ _ Hw')) as (n2 & da & -> & Hn2 & H4096 & _ & Hao). cbn [mbind option_bind].
  apply (avail_le _ _ n2) in Hai; [|done]. destruct (Z.ltb_spec (Z.of_nat n2) bsZ) as [Hs|Hs]; [apply next_slow_ok; [done|lia]|].
  change (flags (set_nbytes (Z.of_nat n2) w')) with (flags w').
  destruct (Z.eqb_spec (Z.land (flags w') BLKCIPHER_WALK_COPY) 0) as [Hc|Hc]; cbn [negb].
  - apply (next_fast_ok pos o v e' _ n2 sa da); try done; [by apply winv_set_nbytes|lia].
  - apply (next_copy_ok pos o v e' _ n2 sa da); try done; [by apply winv_set_nbytes|lia|]. simpl. destruct Hpg as [->|Hpg]; [lia|by apply Hpg].
Qed.

(** ** One chunk *)

Lemma tail_next pos o v e w flg : desc_flags e = flg -> winv pos pos o v e (set_total (Z.of_nat (T - pos)) w) ->
  let r := walk_done_tail ivZ info (blkcipher_walk_next bsZ ivZ alignmask info) (e, w) 0 (Z.of_nat (T - pos)) in
  ((pos < T)%nat -> outcome pos o v flg r) /\
  (pos = T -> exists s, r = Some (0, s) /\ final pos o v s /\ desc_flags (fst s) = flg).
Proof using R.
  intros <- Hw. destruct Hw as [Hp Hb Hd Hiv Hivs Hi Hia Ho Hoa Ht Hph Hfr]. simpl in Hiv, Hi, Hia, Ho, Hoa, Hph. cbv zeta. assert (bufs e w) as Hbw by by destruct Hb. split.
  - intros Hlt. unfold walk_done_tail. rewrite (proj2 (Z.eqb_neq (Z.of_nat (T - pos)) 0)) by lia. cbn [negb].
    destruct (walk_head _ Hi) as (s1 & l1 & Hs1). destruct (walk_head _ Ho) as (s2 & l2 & Hs2). pose proof (r_in R). pose proof (r_out R).
    destruct (done_run _ _ _ Hi Hs1 false true) as (i' & f1 & -> & Hi' & Hia').
    { intros _ E. rewrite Hia in E. apply (f_equal length) in E. rewrite length_drop in E. simpl in E. lia. }
    destruct (done_run _ _ _ Ho Hs2 true true) as (o' & f2 & E2 & Ho' & Hoa').
    { intros _ E. rewrite Hoa in E. apply (f_equal length) in E. rewrite length_drop in E. simpl in E. lia. }
    cbn [mbind option_bind]. rewrite E2. cbn [mbind option_bind].
    change (desc_flags e) with (desc_flags (add_flushed f2 e)). apply walk_next_ok. split; simpl; try done; [by destruct Hb|congruence|congruence].
  - intros ->. replace (Z.of_nat (T - T)) with 0 by lia. by apply tail_final.
Qed.

Lemma load_put_safe m pos n oc a k : (pos + n <= T)%nat -> safe a k -> load (put m (next_out pos n) oc) a k = load m a k.
Proof.
  intros Hn Hs. rewrite <- !get_seqZ. apply get_put_ne. intros x Hx Hx'. apply elem_of_region in Hx. destruct (Hs x Hx) as [Hnd _].
  by apply Hnd, (next_out_data pos n).
Qed.

(** The effect of a chunk routine on buffers that hold no data. *)
Lemma chunk_safe pos o m t d oc iv v' : (pos <= T)%nat -> dinv pos o m -> length t = bs -> safe d (length oc) -> safe iv (length v') ->
  dinv pos o (upd (upd (upd m tmp t) d oc) iv v').
Proof using R.
  intros Hp Hd Ht Hs1 Hs2. apply dinv_upd; [done| |done]. apply dinv_upd; [done| |done]. apply dinv_upd; [done|done|]. rewrite Ht. apply safe_tmp.
Qed.

(** The blocks of a chunk. *)
Lemma chunk_blocks n : (bs <= n)%nat -> exists k rem, n = (k * bs + rem)%nat /\ (0 < k)%nat /\ (rem < bs)%nat.
Proof using R.
  intros Hn. pose proof (r_bs R). exists (n / bs)%nat, (n mod bs)%nat. pose proof (Nat.div_mod_eq n bs). pose proof (Nat.mod_upper_bound n bs ltac:(lia)).
  split; [lia|]. split; [apply Nat.div_str_pos; lia|lia].
Qed.

Lemma chunk_stream pos k v : (pos + k * bs <= T)%nat -> sized ivs v ->
  exists oc v', stream bs mode_step k v (drop pos data) = Some (oc, v') /\ sized (k * bs) oc /\ sized ivs v'.
Proof using R.
  intros Hk Hv. pose proof (get_length _ _ _ (r_data R)) as Hl. rewrite length_take in Hl. pose proof (r_in R).
  apply (stream_ok ivs bs mode_step k v (drop pos data) (T - pos)); [apply mode_step_total|done| |lia].
  split; [rewrite length_drop; lia|]. apply Forall_drop, (r_bytes R).
Qed.

(** What a round of the loop of an operation does. *)
Definition round_result (pos : nat) (o v : list Z) (e : env) (w : walk) : Prop :=
  exists k oc v' m n, (0 < k)%nat /\ (pos + k * bs <= T)%nat /\ stream bs mode_step k v (drop pos data) = Some (oc, v') /\
    mode_chunk tmp (mm e) (src_addr w) (dst_addr w) (w_iv w) (nbytes w) = Some (m, n) /\
    let r := blkcipher_walk_done bsZ ivZ alignmask info (set_mem m e, w) n in
    ((pos + k * bs < T)%nat -> outcome (pos + k * bs) (o ++ oc) v' (desc_flags e) r) /\
    ((pos + k * bs = T)%nat -> exists s, r = Some (0, s) /\ final (pos + k * bs) (o ++ oc) v' s /\ desc_flags (fst s) = desc_flags e).

Lemma avail_data_in pos n w a x : (pos + n <= T)%nat -> addrs w = drop pos Ain -> avail w n a -> a <= x < a + Z.of_nat n -> is_data x.
Proof using R.
  intros Hn Ha [_ Hav] Hx. destruct (Hav n ltac:(lia)) as [Ht _]. rewrite Ha in Ht. apply elem_of_region in Hx. rewrite <- Ht in Hx.
  left. replace (take n (drop pos Ain)) with (drop pos (take (pos + n) Ain)) in Hx by (rewrite skipn_firstn_comm; f_equal; lia).
  apply subseteq_drop in Hx. replace (take (pos + n) Ain) with (take (pos + n) (take T Ain)) in Hx by (rewrite take_take; f_equal; lia). by eapply subseteq_take.
Qed.

Lemma avail_data_out pos n w a x : (pos + n <= T)%nat -> addrs w = drop pos Aout -> avail w n a -> a <= x < a + Z.of_nat n -> is_data x.
Proof using R.
  intros Hn Ha [_ Hav] Hx. destruct (Hav n ltac:(lia)) as [Ht _]. rewrite Ha in Ht. apply elem_of_region in Hx. rewrite <- Ht in Hx. by apply (next_out_data pos n).
Qed.

Lemma disj_safe a n b k : safe a n -> (forall x, b <= x < b + Z.of_nat k -> is_data x) -> disj a n b k.
Proof.
  intros Hs Hd. apply disj_intro. intros i j Hi Hj E. destruct (Hs (a + Z.of_nat i)) as [Hn _]; [lia|]. apply Hn, Hd. lia.
Qed.

Lemma alias_chunk pos n wi wo sa da : (pos + n <= T)%nat -> addrs wi = drop pos Ain -> addrs wo = drop pos Aout -> avail wi n sa -> avail wo n da ->
  sa = da \/ disj sa n da n.
Proof using R.
  intros Hn Hi Ho [_ Hai] [_ Hao]. destruct (decide (sa = da)) as [|Hne]; [by left|]. right. apply disj_intro. intros i j Hli Hlj E. apply Hne.
  destruct (Hai n ltac:(lia)) as [Hti _]. destruct (Hao n ltac:(lia)) as [Hto _]. rewrite Hi in Hti. rewrite Ho in Hto.
  assert (Ain !! (pos + i)%nat = Some (sa + Z.of_nat i)) as E1.
  { rewrite <- lookup_drop. rewrite <- (lookup_take_lt _ n) by lia. rewrite Hti. apply lookup_seqZ. lia. }
  assert (Aout !! (pos + j)%nat = Some (sa + Z.of_nat i)) as E2.
  { rewrite <- lookup_drop. rewrite <- (lookup_take_lt _ n) by lia. rewrite Hto, E. apply lookup_seqZ. lia. }
  assert (pos + i < T)%nat as L1 by lia. assert (pos + j < T)%nat as L2 by lia. pose proof (r_alias R _ _ _ L1 L2 E1 E2). lia.
Qed.

Lemma out_mapped pos n o m w a : (pos + n <= T)%nat -> dinv pos o m -> addrs w = drop pos Aout -> avail w n a -> mapped m a n.
Proof using R.
  intros Hn Hd Ha Hav. unfold mapped. setoid_rewrite <- get_seqZ. apply get_mapped. intros x Hx%elem_of_region. apply (d_map _ _ _ Hd), (r_outmap R).
  destruct Hav as [_ Hav]. destruct (Hav n ltac:(lia)) as [Ht _]. rewrite Ha in Ht. apply elem_of_region in Hx. rewrite <- Ht in Hx.
  replace (take n (drop pos Aout)) with (drop pos (take (pos + n) Aout)) in Hx by (rewrite skipn_firstn_comm; f_equal; lia).
  apply subseteq_drop in Hx. replace (take (pos + n) Aout) with (take (pos + n) (take T Aout)) in Hx by (rewrite take_take; f_equal; lia). by eapply subseteq_take.
Qed.

Lemma drop_data_length pos : length (drop pos data) = (T - pos)%nat.
Proof using R. pose proof (get_length _ _ _ (r_data R)) as Hl. rewrite length_take in Hl. pose proof (r_in R). rewrite length_drop. lia. Qed.

Lemma round_fast pos o v e w n : Z.land (flags w) BLKCIPHER_WALK_SLOW = 0 -> Z.land (flags w) BLKCIPHER_WALK_COPY = 0 ->
  winv pos pos o v e w -> nbytes w = Z.of_nat n -> (bs <= n <= T - pos)%nat ->
  avail (w_in w) n (src_addr w) -> avail (w_out w) n (dst_addr w) -> round_result pos o v e w.
Proof using R.
  intros Hslow Hcopy [Hp Hb Hd Hiv Hivs Hi Hia Ho Hoa Ht Hph Hfr] Hn Hle Hai Hao. destruct (chunk_blocks n) as (k & rem & En & Hk & Hrem); [lia|].
  destruct (chunk_stream pos k v) as (oc & v' & Es & [Hocl Hocb] & Hv'); [lia|done|]. pose proof (r_T R) as HT.
  destruct (iv_clear e w Hb) as (I1 & I2 & I3 & _ & _).
  pose proof (fun x => avail_data_in pos n (w_in w) (src_addr w) x ltac:(lia) Hia Hai) as Din.
  pose proof (fun x => avail_data_out pos n (w_out w) (dst_addr w) x ltac:(lia) Hoa Hao) as Dout.
  edestruct (mode_chunk_ok k rem tmp (mm e) (src_addr w) (dst_addr w) (w_iv w) (take n (drop pos data)) v oc v') as (t & Hlt & Hrun); [done|done|lia| |
    rewrite stream_take by lia; exact Es|].
  { rewrite <- En. split.
    - by apply (input_avail pos n o (mm e) (w_in w)); try done; lia.
    - apply Forall_take, Forall_drop, (r_bytes R).
    - done.
    - apply Hivs.
    - by apply (out_mapped pos n o _ (w_out w)); try done; lia.
    - eapply mapped_now; [done|apply (r_tmp R)].
    - apply (alias_chunk pos n (w_in w) (w_out w)); try done; lia.
    - by apply disj_safe.
    - by apply disj_safe.
    - apply disj_safe; [apply safe_tmp|done].
    - apply disj_safe; [apply safe_tmp|done].
    - done. }
  eexists k, oc, v', _, (Z.of_nat rem). split; [done|]. split; [lia|]. split; [done|]. split; [rewrite Hn, En; exact Hrun|].
  unfold blkcipher_walk_done. rewrite (proj2 (Z.leb_le 0 (Z.of_nat rem))) by lia. cbn [snd]. rewrite Hslow. cbn [Z.eqb].
  unfold blkcipher_done_fast. rewrite Hcopy. cbn [Z.eqb negb mbind option_bind snd]. rewrite Hn.
  rewrite (u32_small (Z.of_nat n - Z.of_nat rem)) by (unfold is_u32; lia). replace (Z.of_nat n - Z.of_nat rem) with (Z.of_nat (k * bs)) by lia.
  change (total (set_out _ _)) with (total w). rewrite Ht, u32_small by (unfold is_u32; lia).
  replace (Z.of_nat (T - pos) - Z.of_nat (k * bs)) with (Z.of_nat (T - (pos + k * bs))) by lia.
  destruct Hai as [_ Hai]. destruct (Hai (k * bs)%nat) as (Ti & Oki & Adi); [lia|]. destruct Hao as [_ Hao]. destruct (Hao (k * bs)%nat) as (To & Oko & Ado); [lia|].
  apply tail_next; [done|]. split; simpl; try done.
  - lia.
  - by destruct Hb.
  - apply dinv_upd; [lia| |by rewrite (proj1 Hv')]. rewrite <- put_seqZ, Hocl, <- To, Hoa. apply dinv_put; [lia| |done].
    apply dinv_upd; [done|done|]. rewrite Hlt. apply safe_tmp.
  - apply load_upd_eq, Hv'.
  - rewrite Adi, Hia. apply drop_drop.
  - rewrite Ado, Hoa. apply drop_drop.
Qed.

Lemma round_copy pos o v e w n sa da : Z.land (flags w) BLKCIPHER_WALK_SLOW = 0 -> Z.land (flags w) BLKCIPHER_WALK_COPY <> 0 ->
  winv pos pos o v e w -> nbytes w = Z.of_nat n -> (bs <= n <= T - pos)%nat -> (n <= 4096)%nat ->
  avail (w_in w) n sa -> avail (w_out w) n da -> page w <> 0 -> src_addr w = page w -> dst_addr w = page w ->
  load (mm e) (page w) n = Some (take n (drop pos data)) -> round_result pos o v e w.
Proof using R.
  intros Hslow Hcopy [Hp Hb Hd Hiv Hivs Hi Hia Ho Hoa Ht Hph Hfr] Hn Hle H4096 Hai Hao Hpg Hsrc Hdst Hl.
  destruct (chunk_blocks n) as (k & rem & En & Hk & Hrem); [lia|].
  destruct (chunk_stream pos k v) as (oc & v' & Es & [Hocl Hocb] & Hv'); [lia|done|]. pose proof (r_T R) as HT.
  destruct (iv_clear e w Hb) as (I1 & I2 & I3 & I4 & _). pose proof (b_page _ _ Hb Hpg) as Hps.
  destruct (safe_ps (page w) (page w) n Hps Hpg) as (S1 & S2 & S3); [lia|lia|].
  assert (disj (w_iv w) ivs (page w) n) as Hivp by (eapply disj_sub; [exact (I4 _ Hps Hpg)|lia..]).
  destruct (mode_chunk_ok k rem tmp (mm e) (page w) (page w) (w_iv w) (take n (drop pos data)) v oc v') as (t & Hlt & Hrun); [done|done|lia| |
    by rewrite stream_take by lia|].
  { rewrite <- En. split; try done; try (by left); try (by apply disj_sym).
    - apply Forall_take, Forall_drop, (r_bytes R).
    - apply Hivs.
    - by eapply mapped_now.
    - eapply mapped_now; [done|apply (r_tmp R)]. }
  eexists k, oc, v', _, (Z.of_nat rem). split; [done|]. split; [lia|]. split; [done|]. split; [rewrite Hsrc, Hdst, Hn, En; exact Hrun|].
  unfold blkcipher_walk_done. rewrite (proj2 (Z.leb_le 0 (Z.of_nat rem))) by lia. cbn [snd]. rewrite Hslow. cbn [Z.eqb].
  unfold blkcipher_done_fast. rewrite (proj2 (Z.eqb_neq _ _) Hcopy). cbn [negb]. rewrite (proj1 Hao). cbn [mbind option_bind]. rewrite Hn.
  rewrite (u32_small (Z.of_nat n - Z.of_nat rem)) by (unfold is_u32; lia). replace (Z.of_nat n - Z.of_nat rem) with (Z.of_nat (k * bs)) by lia.
  set (m1 := upd (upd (upd (mm e) tmp t) (page w) oc) (w_iv w) v'). change (mm (set_mem m1 e)) with m1. rewrite Nat2Z.id.
  assert (dinv pos o m1) as Hd1.
  { apply chunk_safe; [done|done|done| |by rewrite (proj1 Hv')]. intros x Hx. apply S1. lia. }
  assert (load m1 (page w) (k * bs) = Some oc) as Hlo.
  { unfold m1. rewrite load_upd_ne by (rewrite (proj1 Hv'); eapply disj_sub; [exact Hivp|lia..]). by apply load_upd_eq. }
  rewrite (copy_ok _ _ _ _ _ Hlo) by (apply (out_mapped pos _ o _ (w_out w)); [lia|done|done|apply (avail_le _ n); [done|lia]]). cbn [mbind option_bind snd].
  change (total (set_out _ _)) with (total w). rewrite Ht, u32_small by (unfold is_u32; lia).
  replace (Z.of_nat (T - pos) - Z.of_nat (k * bs)) with (Z.of_nat (T - (pos + k * bs))) by lia.
  destruct Hai as [_ Hai]. destruct (Hai (k * bs)%nat) as (Ti & Oki & Adi); [lia|]. destruct Hao as [_ Hao]. destruct (Hao (k * bs)%nat) as (To & Oko & Ado); [lia|].
  apply tail_next; [done|]. rewrite <- put_seqZ, Hocl, <- To, Hoa. fold (next_out pos (k * bs)). split; simpl; try done.
  - lia.
  - by destruct Hb.
  - apply dinv_put; [lia|done|done].
  - rewrite load_put_safe by (done || lia). apply load_upd_eq, Hv'.
  - rewrite Adi, Hia. apply drop_drop.
  - rewrite Ado, Hoa. apply drop_drop.
Qed.

Lemma round_slow pos o v e w : Z.land (flags w) BLKCIPHER_WALK_SLOW <> 0 ->
  winv (pos + bs) pos o v e w -> nbytes w = bsZ -> (bs <= T - pos)%nat -> buffer w <> 0 ->
  src_addr w = place_s (buffer w) -> dst_addr w = place_d (buffer w) ->
  load (mm e) (place_s (buffer w)) bs = Some (take bs (drop pos data)) -> round_result pos o v e w.
Proof using R.
  intros Hslow [Hp Hb Hd Hiv Hivs Hi Hia Ho Hoa Ht Hph Hfr] Hn Hle Hbuf Hsrc Hdst Hl.
  destruct (chunk_stream pos 1 v) as (oc & v' & Es & [Hocl Hocb] & Hv'); [lia|done|]. pose proof (r_T R) as HT. pose proof (r_bs R) as Hbs.
  rewrite Nat.mul_1_l in Hocl.
  destruct (iv_clear e w Hb) as (I1 & I2 & I3 & _ & I5). destruct (I5 Hbuf) as [I6 I7].
  destruct (buf_places e w Hb Hbuf) as ((S1 & S2 & S3) & (S4 & S5 & S6) & S7 & S8).
  destruct (mode_chunk_ok 1 0 tmp (mm e) (place_s (buffer w)) (place_d (buffer w)) (w_iv w) (take bs (drop pos data)) v oc v') as (t & Hlt & Hrun);
    [lia|lia|lia| |by rewrite stream_take by lia|].
  { replace (1 * bs + 0)%nat with bs by lia. split; try done; try (by right); try (by apply disj_sym).
    - apply Forall_take, Forall_drop, (r_bytes R).
    - apply Hivs.
    - by eapply mapped_now.
    - eapply mapped_now; [done|apply (r_tmp R)]. }
  replace (Z.of_nat (1 * bs + 0)) with bsZ in Hrun by lia.
  eexists 1%nat, oc, v', _, (Z.of_nat 0). split; [lia|]. split; [lia|]. split; [done|]. split; [rewrite Hsrc, Hdst, Hn; exact Hrun|].
  unfold blkcipher_walk_done. cbn [snd]. change (0 <=? Z.of_nat 0) with true. rewrite (proj2 (Z.eqb_neq _ _) Hslow).
  unfold blkcipher_done_slow. set (m1 := upd (upd (upd (mm e) tmp t) (place_d (buffer w)) oc) (w_iv w) v'). change (mm (set_mem m1 e)) with m1.
  rewrite place_d_eq.
  assert (dinv pos o m1) as Hd1 by (apply chunk_safe; [done|done|done|by rewrite Hocl|by rewrite (proj1 Hv')]).
  assert (load m1 (place_d (buffer w)) bs = Some oc) as Hlo.
  { unfold m1. rewrite load_upd_ne by by rewrite (proj1 Hv'). by apply load_upd_eq. }
  unfold scatterwalk_copychunks. rewrite Nat2Z.id. pose proof (r_out R) as Hlo'.
  destruct (copychunks_out (S (S bs)) m1 (place_d (buffer w)) (w_out w) bs oc) as (o' & f & -> & Hok' & Ha'); [done|rewrite Hoa, length_drop; lia|
    apply chunk_fuel_bound| |done| |].
  { rewrite Hoa. intros x Hx. apply (d_map _ _ _ Hd1), (r_outmap R).
    replace (take bs (drop pos Aout)) with (drop pos (take (pos + bs) Aout)) in Hx by (rewrite skipn_firstn_comm; f_equal; lia).
    apply subseteq_drop in Hx. replace (take (pos + bs) Aout) with (take (pos + bs) (take T Aout)) in Hx by (rewrite take_take; f_equal; lia). by eapply subseteq_take. }
  { rewrite Hoa. intros x Hx Hr. destruct (S1 x Hr) as [Hnd _]. apply Hnd. apply (next_out_data pos bs); [lia|done]. }
  cbn [mbind option_bind snd]. change (total (set_out o' w)) with (total w). rewrite Ht, u32_small by (unfold is_u32; lia).
  replace (Z.of_nat (T - pos) - bsZ) with (Z.of_nat (T - (pos + 1 * bs))) by lia.
  apply tail_next; [done|]. rewrite Hoa. fold (next_out pos bs). replace (1 * bs)%nat with bs by lia. split; simpl; try done.
  - lia.
  - by destruct Hb.
  - apply dinv_put; [lia|done|done].
  - rewrite load_put_safe by (done || lia). apply load_upd_eq, Hv'.
  - rewrite Ha', Hoa. apply drop_drop.
Qed.

Lemma round_ok pos o v e w : ready pos o v e w -> round_result pos o v e w.
Proof using R. intros [n|n sa da|]; [by apply round_fast with n|by apply round_copy with n sa da|by apply round_slow]. Qed.

(** ** The whole operation *)

(** What an operation leaves after [k] blocks with the result [err]. *)
Definition completed (flg : Z) (err : Z) (s : state) : Prop :=
  exists k o v, stream bs mode_step k iv0 data = Some (o, v) /\ final (k * bs) o v s /\
    (err = 0 /\ (k * bs = T)%nat /\ desc_flags (fst s) = flg \/
     err = - EINVAL /\ (k * bs < T < k * bs + bs)%nat /\ desc_flags (fst s) = Z.lor flg CRYPTO_TFM_RES_BAD_BLOCK_LEN \/
     err = - ENOMEM /\ (k * bs + bs <= T)%nat /\ hd 0 ks = 0 /\ desc_flags (fst s) = flg).

Lemma crypt_loop_done fuel s err : nbytes (snd s) = 0 -> crypt_loop bsZ ivZ alignmask info mode_chunk tmp (S fuel) s err = Some (err, s).
Proof. destruct s as [e w]. simpl. by intros ->. Qed.

Lemma loop_ok fuel : forall k o v e w, ((T - k * bs) / bs < fuel)%nat -> stream bs mode_step k iv0 data = Some (o, v) ->
  ready (k * bs) o v e w ->
  exists err s, crypt_loop bsZ ivZ alignmask info mode_chunk tmp fuel (e, w) 0 = Some (err, s) /\ completed (desc_flags e) err s.
Proof using R.
  pose proof (r_bs R) as Hbs. induction fuel as [|fuel IH]; intros k o v e w Hf Hs Hr; [lia|].
  destruct (round_ok _ _ _ _ _ Hr) as (j & oc & v' & m & n & Hj & Hle & Es & Hrun & Hlt & Heq).
  assert (nbytes w <> 0) as Hnb.
  { destruct Hr as [n' _ _ _ Hn Hle' _ _|n' sa da _ _ _ Hn Hle' _ _ _ _ _ _ _|_ _ Hn _ _ _ _ _]; lia. }
  assert (stream bs mode_step (k + j) iv0 data = Some (o ++ oc, v')) as Hs'.
  { rewrite stream_add, Hs. cbn [mbind option_bind]. by rewrite Es. }
  replace (k * bs + j * bs)%nat with ((k + j) * bs)%nat in * by lia.
  assert ((T - (k + j) * bs) / bs < fuel)%nat as Hf'.
  { enough ((T - k * bs) / bs = (T - (k + j) * bs) / bs + j)%nat by lia.
    replace (T - k * bs)%nat with (T - (k + j) * bs + j * bs)%nat by lia. rewrite Nat.div_add by lia. done. }
  cbn [crypt_loop]. rewrite (proj2 (Z.eqb_neq _ _) Hnb). rewrite Hrun. cbn [mbind option_bind].
  destruct (decide ((k + j) * bs = T)%nat) as [E|E].
  - destruct (Heq E) as (s & -> & Hfin & Hfl). cbn [mbind option_bind]. destruct fuel as [|fuel]; [lia|].
    rewrite crypt_loop_done by apply Hfin. eexists _, _. split; [done|]. exists (k + j)%nat, (o ++ oc), v'. split; [done|]. split; [done|]. left. done.
  - destruct (Hlt ltac:(lia)) as (err & s & -> & [(-> & Hr' & Hfl)|[(-> & Hb & Hfin & Hfl)|(-> & Hh & Hfin & Hfl)]]); cbn [mbind option_bind].
    + destruct s as [e' w']. simpl in Hfl. rewrite <- Hfl. by eapply IH.
    + destruct fuel as [|fuel]; [lia|]. rewrite crypt_loop_done by apply Hfin. eexists _, _. split; [done|].
      exists (k + j)%nat, (o ++ oc), v'. split; [done|]. split; [done|]. right. left. split; [done|]. split; [lia|done].
    + destruct fuel as [|fuel]; [lia|]. rewrite crypt_loop_done by apply Hfin. eexists _, _. split; [done|].
      exists (k + j)%nat, (o ++ oc), v'. split; [done|]. split; [done|]. right. right. split_and!; tauto.
Qed.

Lemma dinv_start : dinv 0 [] m0.
Proof using R. split; [rewrite !drop_0; apply (r_data R)|done|done|done]. Qed.

(** The vector's copy in the buffer. *)
Lemma copy_iv_ok w a r fp dfl fsh : unaligned = true -> ks = a :: r -> a <> 0 -> w_iv w = info ->
  exists e' w', blkcipher_copy_iv bsZ ivZ alignmask (mk_env m0 ks fp live0 dfl fsh, w) = Some (0, (e', w')) /\
    w' = set_iv (place_iv a) (set_buffer a w) /\ kmallocs e' = r /\ free_pages e' = fp /\ live e' = a :: live0 /\ desc_flags e' = dfl /\
    dinv 0 [] (mm e') /\ load (mm e') (place_iv a) ivs = Some iv0.
Proof using R.
  intros Hu Hks Ha Hiv. unfold blkcipher_copy_iv, kmalloc. cbn [kmallocs]. rewrite Hks. rewrite (proj2 (Z.eqb_neq a 0) Ha).
  rewrite place_d_eq, place_s_eq, place_iv_eq.
  assert (a ∈ ks) as Hin by (rewrite Hks; by left). destruct (ks_places a Hin Ha) as (H1 & H2 & H3 & H4). destruct (H4 Hu) as [H5 H6].
  destruct (safe_ks a (place_iv a) ivs Hin Ha) as (S1 & S2 & S3); [lia|lia|].
  change (w_iv (set_buffer a w)) with (w_iv w). rewrite Hiv, Nat2Z.id. cbn [mm]. pose proof (load_length _ _ _ _ (r_iv R)) as Hl.
  rewrite (copy_ok _ _ _ _ _ (r_iv R) S2). cbn [mbind option_bind]. eexists _, _. split; [done|]. simpl. split; [done|]. split_and!; try done.
  - apply dinv_upd; [lia|apply dinv_start|by rewrite Hl].
  - by apply load_upd_eq.
Qed.

Context (src dst : list scatterlist).
Hypothesis Hsrc : Forall entry_ok src.
Hypothesis Hdst : Forall entry_ok dst.
Hypothesis Esrc : Ain = sg_addrs src.
Hypothesis Edst : Aout = sg_addrs dst.

Lemma sg_nonempty l : (T <= length (sg_addrs l))%nat -> (0 < T)%nat -> exists s r, l = s :: r.
Proof. destruct l as [|s r]; simpl; [lia|eauto]. Qed.

Lemma start_next e w : (0 < T)%nat -> sg (w_in w) = src -> sg (w_out w) = dst -> total w = Z.of_nat T ->
  Z.land (flags w) BLKCIPHER_WALK_PHYS = 0 -> bufs e (set_page 0 w) -> (buffer w = 0 -> kmallocs e = ks) ->
  dinv 0 [] (mm e) -> load (mm e) (w_iv w) ivs = Some iv0 ->
  outcome 0 [] iv0 (desc_flags e)
    (i ← scatterwalk_start (sg (w_in w)); o ← scatterwalk_start (sg (w_out w));
     blkcipher_walk_next bsZ ivZ alignmask info (e, set_page 0 (set_out o (set_in i w)))).
Proof using R Hsrc Hdst Esrc Edst.
  intros HT Hi Ho Ht Hph Hb Hfr Hd Hiv. rewrite Hi, Ho. pose proof (r_in R) as Li. pose proof (r_out R) as Lo. rewrite Esrc in Li. rewrite Edst in Lo.
  destruct (sg_nonempty src Li HT) as (s1 & l1 & E1). destruct (sg_nonempty dst Lo HT) as (s2 & l2 & E2).
  rewrite E1 in Hsrc |- *. rewrite E2 in Hdst |- *. destruct (start_run s1 l1 Hsrc) as (-> & O1 & A1). cbn [mbind option_bind].
  destruct (start_run s2 l2 Hdst) as (-> & O2 & A2). cbn [mbind option_bind]. apply walk_next_ok. split; try done.
  - lia.
  - by destruct Hb.
  - split; [by eapply load_length, (r_iv R)|apply (r_ivb R)].
  - transitivity (sg_addrs (s1 :: l1)); [exact A1|]. by rewrite drop_0, Esrc, E1.
  - transitivity (sg_addrs (s2 :: l2)); [exact A2|]. by rewrite drop_0, Edst, E2.
  - simpl. rewrite Ht. f_equal. lia.
Qed.

Lemma walk_virt_ok w0 e : mm e = m0 -> kmallocs e = ks -> free_pages e = ps -> live e = live0 -> (0 < T)%nat ->
  (unaligned = true -> hd 0 ks <> 0) ->
  outcome 0 [] iv0 (desc_flags e) (blkcipher_walk_virt bsZ ivZ alignmask info false (e, blkcipher_walk_init w0 dst src (Z.of_nat T))).
Proof using R Hsrc Hdst Esrc Edst.
  intros Hm Hk Hp Hl HT Hal. unfold blkcipher_walk_virt, blkcipher_walk_first, blkcipher_walk_init.
  set (w1 := set_flags _ _). set (w2 := set_iv info (set_buffer 0 (set_nbytes (total w1) w1))).
  change (total (set_nbytes (total w1) w1)) with (Z.of_nat T). rewrite (proj2 (Z.eqb_neq (Z.of_nat T) 0)) by lia. fold w2.
  assert (Z.land (flags w2) BLKCIPHER_WALK_PHYS = 0) as Hfl by (simpl; rewrite land_ldiff_comm; apply Z.land_0_r).
  change (w_iv w2) with info. unfold unaligned in Hal. destruct (Z.eqb_spec (Z.land info alignmask) 0) as [Ea|Ea].
  - cbn [negb mbind option_bind]. change (0 =? 0) with true. cbn [negb]. apply start_next; try done.
    + split; try done; [by rewrite Hk|by rewrite Hp|left; unfold unaligned; by rewrite Ea].
    + rewrite Hm. apply dinv_start.
    + rewrite Hm. apply (r_iv R).
  - cbn [negb] in Hal |- *. specialize (Hal eq_refl). destruct ks as [|a r] eqn:Eks; [done|]. simpl in Hal. rewrite <- Eks in *.
    assert (unaligned = true) as Hu by (unfold unaligned; by rewrite (proj2 (Z.eqb_neq _ _) Ea)).
    destruct e as [em ek ep el ef ec]. cbn [mm kmallocs free_pages live desc_flags] in *. subst em ek ep el.
    destruct (copy_iv_ok w2 a r ps ef ec) as (e' & w' & -> & -> & Ek & Ep & El & Ef & Hd & Hiv); try done.
    cbn [mbind option_bind]. change (0 =? 0) with true. cbn [negb]. rewrite <- Ef. apply start_next; try done.
    split; try done.
    + rewrite Ek, Eks. intros x Hx. by right.
    + by rewrite Ep.
    + intros _ _. simpl. rewrite Eks. by left.
    + right. split; [done|]. simpl. rewrite Eks. split; [by left|done].
    + rewrite El. simpl. rewrite (proj2 (Z.eqb_neq a 0)) by done. done.
Qed.

(** An operation on the whole request. *)
Lemma crypt_ok w0 e : mm e = m0 -> kmallocs e = ks -> free_pages e = ps -> live e = live0 -> (unaligned = true -> hd 0 ks <> 0) ->
  exists err s, blkcipher_crypt bsZ ivZ alignmask info mode_chunk tmp false w0 e dst src (Z.of_nat T) = Some (err, s) /\
    completed (desc_flags e) err s.
Proof using R Hsrc Hdst Esrc Edst.
  intros Hm Hk Hp Hl Hal. pose proof (r_bs R) as Hbs. unfold blkcipher_crypt. destruct (decide (T = 0%nat)) as [ET|ET].
  - unfold blkcipher_walk_virt, blkcipher_walk_first. cbn [total set_flags set_total blkcipher_walk_init set_nbytes].
    rewrite ET. change (Z.of_nat 0 =? 0) with true. cbn [mbind option_bind]. rewrite crypt_loop_done by done. eexists _, _. split; [done|].
    exists 0%nat, [], iv0. split; [done|]. split; [|by left; rewrite ET]. split; simpl; try done.
    + rewrite Hm. apply dinv_start.
    + rewrite Hm. apply (r_iv R).
  - destruct (walk_virt_ok w0 e Hm Hk Hp Hl ltac:(lia) Hal) as (err & [e' w'] & -> & Hout). cbn [mbind option_bind].
    destruct Hout as [(-> & Hr & Hfl)|[(-> & Hlt & Hf & Hfl)|(-> & Hh & Hf & Hfl)]].
    + simpl in Hfl. rewrite <- Hfl. apply (loop_ok _ 0 [] iv0); [|done|done]. rewrite Nat.sub_0_r.
      rewrite <- Nat2Z.inj_div, Nat2Z.id. lia.
    + rewrite crypt_loop_done by apply Hf. eexists _, _. split; [done|]. exists 0%nat, [], iv0. split; [done|]. split; [done|]. right. left.
      split; [done|]. split; [lia|done].
    + rewrite crypt_loop_done by apply Hf. eexists _, _. split; [done|]. exists 0%nat, [], iv0. split; [done|]. split; [done|]. right. right.
      split_and!; tauto.
Qed.

End Correct.
End BlkcipherProof.
