(* ===== verification/CryptoModes.v ===== *)
(** * Operations of the modes on scatterlists

    [crypto_ecb_encrypt], [crypto_cbc_encrypt], [crypto_pcbc_encrypt] and the
    decryption operations: chunk routine and walk together, over any cipher. *)

From S2P Require Import Prelude CipherBase Mem Modes ModesSpec Scatterwalk Blkcipher BlkcipherProof Tea.

Module CryptoModes.
Import CipherBase Mem Modes ModesSpec Scatterwalk Blkcipher BlkcipherProof.

(** A request to an operation: the alignment mask, [desc->info], the address of
    the local array of the in-place routines, whether the caller is in an
    interrupt, the uninitialised walk, the two scatterlists and the size. *)
Record request := mk_request {
  q_alignmask : Z; q_info : Z; q_tmp : Z; q_in_irq : bool; q_walk : walk;
  q_dst : list scatterlist; q_src : list scatterlist; q_nbytes : Z }.

Section Operations.
Context {ctx : Type} `{!BlockCipher ctx} (tfm : ctx).

Definition operation (ivsize : Z) (crypt : Z -> mem -> Z -> Z -> Z -> Z -> option (mem * Z)) (e : env) (q : request) : option (Z * state) :=
  blkcipher_crypt (bsize (ctx := ctx)) ivsize (q_alignmask q) (q_info q) crypt (q_tmp q) (q_in_irq q) (q_walk q) e (q_dst q) (q_src q) (q_nbytes q).

(** ECB has no vector. *)
Definition crypto_ecb_encrypt : env -> request -> option (Z * state) := operation 0 (fun _ => ecb_crypt_chunk tfm cia_encrypt).
Definition crypto_ecb_decrypt : env -> request -> option (Z * state) := operation 0 (fun _ => ecb_crypt_chunk tfm cia_decrypt).
Definition crypto_cbc_encrypt : env -> request -> option (Z * state) := operation (bsize (ctx := ctx)) (cbc_encrypt_chunk tfm).
Definition crypto_cbc_decrypt : env -> request -> option (Z * state) := operation (bsize (ctx := ctx)) (cbc_decrypt_chunk tfm).
Definition crypto_pcbc_encrypt : env -> request -> option (Z * state) := operation (bsize (ctx := ctx)) (pcbc_encrypt_chunk tfm).
Definition crypto_pcbc_decrypt : env -> request -> option (Z * state) := operation (bsize (ctx := ctx)) (pcbc_decrypt_chunk tfm).
End Operations.

(** ** The operations refine the modes *)

(** What a request needs: the buffers are mapped and overlap at most byte for
    byte, allocations are fresh, and the vector can be copied if it must be. *)
Definition valid {bs : nat} `{!Mode bs} (e : env) (q : request) (T : nat) (data iv0 : list Z) : Prop :=
  request_ok (q_alignmask q) (q_info q) (q_tmp q) (sg_addrs (q_src q)) (sg_addrs (q_dst q)) T data iv0 (mm e) (kmallocs e) (free_pages e) /\
  Forall entry_ok (q_src q) /\ Forall entry_ok (q_dst q) /\ q_nbytes q = Z.of_nat T /\ q_in_irq q = false /\
  (unaligned (q_alignmask q) (q_info q) = true -> hd 0 (kmallocs e) <> 0).

(** The specification of an operation with the step of a mode: [k] blocks are
    processed, all of them unless the size is not a multiple of the block size
    or memory runs out while a whole block is left; the vector is left for the
    next operation; nothing else changes, the output bytes after these blocks
    included, and nothing leaks. *)
Definition refines {bs : nat} `{!Mode bs} (e : env) (q : request) (T : nat) (data iv0 : list Z) (r : option (Z * state)) : Prop :=
  exists err e' w' k o v, r = Some (err, (e', w')) /\ stream bs mode_step k iv0 data = Some (o, v) /\
    get (mm e') (take (k * bs) (sg_addrs (q_dst q))) = Some o /\ load (mm e') (q_info q) ivsize = Some v /\ live e' = live e /\
    (forall x, x ∉ take (k * bs) (sg_addrs (q_dst q)) -> ~ scratch (q_alignmask q) (q_info q) (q_tmp q) (kmallocs e) (free_pages e) x ->
      ~ (q_info q <= x < q_info q + Z.of_nat ivsize) -> mm e' !! x = mm e !! x) /\
    (err = 0 /\ (k * bs = T)%nat /\ desc_flags e' = desc_flags e \/
     err = - EINVAL /\ (k * bs < T < k * bs + bs)%nat /\ desc_flags e' = Z.lor (desc_flags e) CRYPTO_TFM_RES_BAD_BLOCK_LEN \/
     err = - ENOMEM /\ (k * bs + bs <= T)%nat /\ hd 0 (kmallocs e) = 0 /\ desc_flags e' = desc_flags e).

Lemma crypt_refines {bs : nat} `{MD : !Mode bs} e q T data iv0 : valid e q T data iv0 ->
  refines e q T data iv0 (blkcipher_crypt (Z.of_nat bs) (Z.of_nat ivsize) (q_alignmask q) (q_info q) mode_chunk (q_tmp q) (q_in_irq q)
    (q_walk q) e (q_dst q) (q_src q) (q_nbytes q)).
Proof.
  intros (R & Hsrc & Hdst & -> & -> & Hal).
  destruct (crypt_ok _ _ _ _ _ _ _ _ _ _ _ (live e) R _ _ Hsrc Hdst eq_refl eq_refl (q_walk q) e eq_refl eq_refl eq_refl eq_refl Hal)
    as (err & [e' w'] & Erun & k & o & v & Hs & [[_ Hout _ Hfr] Hiv Hl _] & Hcase). simpl in *.
  exists err, e', w', k, o, v. split; [exact Erun|]. split; [done|]. split; [done|]. split; [done|]. split; [done|]. split; [done|].
  destruct Hcase as [H|[H|H]]; [by left|right; left|right; right]; done.
Qed.

Section Claims.
Context {ctx : Type} `{!BlockCipher ctx} (tfm : ctx) (Hctx : ctx_ok tfm).

Inductive mode_name := ECB | CBC | PCBC.
Inductive direction := Encrypt | Decrypt.

Definition op (d : direction) (n : mode_name) : env -> request -> option (Z * state) :=
  match d, n with
  | Encrypt, ECB => crypto_ecb_encrypt tfm | Encrypt, CBC => crypto_cbc_encrypt tfm | Encrypt, PCBC => crypto_pcbc_encrypt tfm
  | Decrypt, ECB => crypto_ecb_decrypt tfm | Decrypt, CBC => crypto_cbc_decrypt tfm | Decrypt, PCBC => crypto_pcbc_decrypt tfm
  end.

(** The mode that an operation implements. *)
Definition mode_of (d : direction) (n : mode_name) : Mode (cra_blocksize (ctx := ctx)) :=
  match d, n with
  | Encrypt, ECB => ecb_encrypt_mode tfm Hctx | Encrypt, CBC => cbc_encrypt_mode tfm Hctx | Encrypt, PCBC => pcbc_encrypt_mode tfm Hctx
  | Decrypt, ECB => ecb_decrypt_mode tfm Hctx | Decrypt, CBC => cbc_decrypt_mode tfm Hctx | Decrypt, PCBC => pcbc_decrypt_mode tfm Hctx
  end.

Abbreviation bs := (cra_blocksize (ctx := ctx)).
Abbreviation steps d n := (mode_step (Mode := mode_of d n)).

Lemma op_refines d n e q T data iv0 : valid (Mode0 := mode_of d n) e q T data iv0 ->
  refines (Mode0 := mode_of d n) e q T data iv0 (op d n e q).
Proof. intros H. apply (crypt_refines (MD := mode_of d n)) in H. by destruct d, n. Qed.

Lemma op_runs d n e q T data iv0 : valid (Mode0 := mode_of d n) e q T data iv0 -> (bs | T)%nat -> hd 0 (kmallocs e) <> 0 ->
  exists e' w' k o v, op d n e q = Some (0, (e', w')) /\ (k * bs = T)%nat /\ stream bs (steps d n) k iv0 data = Some (o, v) /\
    get (mm e') (take T (sg_addrs (q_dst q))) = Some o /\ load (mm e') (q_info q) (ivsize (Mode := mode_of d n)) = Some v.
Proof.
  intros HV [j Hj] Hk. destruct (op_refines _ _ _ _ _ _ _ HV) as (err & e' & w' & k & o & v & E & Hs & Ho & Hv & _ & _ & Hc).
  destruct Hc as [(-> & Hc & _)|[(_ & Hc & _)|(_ & _ & Hc & _)]]; [|exfalso; destruct (decide (j <= k)%nat); nia|done].
  rewrite Hc in Ho. by exists e', w', k, o, v.
Qed.

Lemma ivsize_same n : ivsize (Mode := mode_of Encrypt n) = ivsize (Mode := mode_of Decrypt n).
Proof. by destruct n. Qed.

Lemma steps_inverse n : inverse_steps (ctx := ctx) (ivsize (Mode := mode_of Encrypt n)) (steps Encrypt n) (steps Decrypt n).
Proof. destruct n; [by apply ecb_inverse|by apply cbc_inverse|by apply pcbc_inverse]. Qed.

Lemma valid_sized d n e q T data iv0 : valid (Mode0 := mode_of d n) e q T data iv0 ->
  sized (ivsize (Mode := mode_of d n)) iv0 /\ sized T data.
Proof.
  intros [[_ _ _ _ Hi _ _ _ Hd Hb _ Hv Hvb _ _ _ _ _] _]. split; (split; [|done]); [by apply load_length in Hv|].
  apply get_length in Hd. rewrite Hd, length_take. lia.
Qed.

(** C18: the operations of the modes ECB, CBC and PCBC, in both directions and
    over any cipher, refine the mode on a list of blocks.  For a request whose
    buffers are mapped and overlap at most byte for byte, on scatterlists of any
    shape, outside interrupts, and provided that the copy of a misaligned
    [desc->info] can be allocated ([copy_iv_failure_runs] is the case where it
    cannot), the operation ends after some number of blocks: the bytes at the
    addresses of the output list are the mode's output for these blocks of the
    input list, [desc->info] holds the vector for the next operation, all other
    memory but the scratch buffers is unchanged, the output after these blocks
    included, and every buffer is freed.  The result is 0 and all bytes are
    processed; or -EINVAL with the flag, and all but a partial last block is; or
    -ENOMEM, when the allocator has failed while a whole block was left. *)
Theorem crypto_op_correct d n e q T data iv0 : valid (Mode0 := mode_of d n) e q T data iv0 ->
  refines (Mode0 := mode_of d n) e q T data iv0 (op d n e q).
Proof. apply op_refines. Qed.

(** C19: encryption of whole blocks succeeds, and decryption of the bytes it
    wrote, in any later memory, through any scatterlists and with the same
    vector, gives back the plaintext: for ECB, CBC and PCBC over any cipher. *)
Theorem crypto_op_roundtrip n e q T data iv0 : valid (Mode0 := mode_of Encrypt n) e q T data iv0 -> (bs | T)%nat -> hd 0 (kmallocs e) <> 0 ->
  exists e' w' ct, op Encrypt n e q = Some (0, (e', w')) /\ get (mm e') (take T (sg_addrs (q_dst q))) = Some ct /\
    forall e2 q2, valid (Mode0 := mode_of Decrypt n) e2 q2 T ct iv0 -> hd 0 (kmallocs e2) <> 0 ->
      exists e2' w2', op Decrypt n e2 q2 = Some (0, (e2', w2')) /\ get (mm e2') (take T (sg_addrs (q_dst q2))) = Some data.
Proof.
  intros HV HT Hk. destruct (op_runs _ _ _ _ _ _ _ HV HT Hk) as (e' & w' & k & ct & v & E & Hk' & Hs & Ho & _).
  exists e', w', ct. split; [done|]. split; [done|]. intros e2 q2 HV2 Hk2.
  destruct (op_runs _ _ _ _ _ _ _ HV2 HT Hk2) as (e2' & w2' & k2 & pt & v2 & E2 & Hk2' & Hs2 & Ho2 & _).
  destruct (valid_sized _ _ _ _ _ _ _ HV) as [Hiv Hd]. pose proof (proj1 (blocksize_ok (ctx := ctx))).
  assert (k2 = k) as -> by nia.
  destruct (stream_inverse _ _ _ k iv0 data T (steps_inverse n) Hiv Hd) as (o & v3 & H1 & H2 & _); [lia|].
  rewrite Hs in H1. simplify_eq. exists e2', w2'. split; [done|]. rewrite Ho2. f_equal.
  apply take_ge. destruct Hd. lia.
Qed.

(** Two operations in a row, the second with the vector that the first left
    in [desc->info], give what one operation gives on the concatenated data. *)
Theorem crypto_op_chained d n e q T data iv0 e2 q2 T2 data2 : valid (Mode0 := mode_of d n) e q T data iv0 -> (bs | T)%nat ->
  hd 0 (kmallocs e) <> 0 -> (bs | T2)%nat -> hd 0 (kmallocs e2) <> 0 ->
  exists e' w' o v, op d n e q = Some (0, (e', w')) /\ get (mm e') (take T (sg_addrs (q_dst q))) = Some o /\
    load (mm e') (q_info q) (ivsize (Mode := mode_of d n)) = Some v /\
    (valid (Mode0 := mode_of d n) e2 q2 T2 data2 v ->
     exists e2' w2' o2 k v2, op d n e2 q2 = Some (0, (e2', w2')) /\ get (mm e2') (take T2 (sg_addrs (q_dst q2))) = Some o2 /\
      (k * bs = T + T2)%nat /\ stream bs (steps d n) k iv0 (data ++ data2) = Some (o ++ o2, v2) /\
      load (mm e2') (q_info q2) (ivsize (Mode := mode_of d n)) = Some v2).
Proof.
  intros HV HT Hk HT2 Hk2. destruct (op_runs _ _ _ _ _ _ _ HV HT Hk) as (e' & w' & k & o & v & E & Hkb & Hs & Ho & Hv).
  exists e', w', o, v. do 3 (split; [done|]). intros HV2.
  destruct (op_runs _ _ _ _ _ _ _ HV2 HT2 Hk2) as (e2' & w2' & k2 & o2 & v2 & E2 & Hkb2 & Hs2 & Ho2 & Hv2).
  exists e2', w2', o2, (k + k2)%nat, v2. do 2 (split; [done|]). split; [lia|]. split; [|done].
  destruct (valid_sized _ _ _ _ _ _ _ HV) as [_ [Hl _]].
  rewrite stream_add, <- (stream_take _ _ k T) by lia. rewrite take_app_length', Hs by lia. cbn [mbind option_bind].
  rewrite drop_app_length', Hs2 by lia. done.
Qed.
End Claims.

(** ** Error paths of the walk *)

Lemma crypt_loop_step bs ivs alignmask info crypt tmp fuel e w err :
  crypt_loop bs ivs alignmask info crypt tmp (S fuel) (e, w) err =
    if nbytes w =? 0 then Some (err, (e, w)) else
    '(m, n) ← crypt tmp (mm e) (src_addr w) (dst_addr w) (w_iv w) (nbytes w);
    '(err, s) ← blkcipher_walk_done bs ivs alignmask info (set_mem m e, w) n;
    crypt_loop bs ivs alignmask info crypt tmp fuel s err.
Proof. done. Qed.

Lemma walk_virt_copy_fails bs ivs alignmask info e w : Z.land info alignmask <> 0 -> total w <> 0 -> hd 0 (kmallocs e) = 0 ->
  exists e' w', blkcipher_walk_virt bs ivs alignmask info false (e, w) = Some (- ENOMEM, (e', w')) /\
    mm e' = mm e /\ nbytes w' = total w /\ src_addr w' = src_addr w /\ dst_addr w' = dst_addr w /\ w_iv w' = info.
Proof.
  intros Hal Hn Hk. apply Z.eqb_neq in Hal, Hn. unfold blkcipher_walk_virt, blkcipher_walk_first. destruct w. simpl in Hn |- *.
  rewrite Hn, Hal. unfold blkcipher_copy_iv, kmalloc. destruct (kmallocs e) as [|a r]; simpl in Hk; subst; simpl; by eexists _, _.
Qed.

(** When the aligned copy of the vector cannot be allocated, the operation
    does not stop: the chunk routine runs on the addresses that the
    uninitialised walk on the stack happens to hold, with the whole size, because
    [walk->nbytes] is set before the allocation. *)
Theorem copy_iv_failure_runs bs ivs alignmask info crypt tmp w0 e dst src n : Z.land info alignmask <> 0 -> n <> 0 -> hd 0 (kmallocs e) = 0 ->
  exists e' w, nbytes w = n /\
    blkcipher_crypt bs ivs alignmask info crypt tmp false w0 e dst src n =
      '(m, r) ← crypt tmp (mm e) (src_addr w0) (dst_addr w0) info n;
      '(err, s) ← blkcipher_walk_done bs ivs alignmask info (set_mem m e', w) r;
      crypt_loop bs ivs alignmask info crypt tmp (Z.to_nat (n / bs)) s err.
Proof.
  intros Hal Hn Hk. unfold blkcipher_crypt.
  destruct (walk_virt_copy_fails bs ivs alignmask info e (blkcipher_walk_init w0 dst src n) Hal Hn Hk) as (e' & w & -> & Em & En & Es & Ed & Ei).
  exists e', w. split; [done|]. cbn [mbind option_bind]. rewrite crypt_loop_step, Em, Es, Ed, Ei, En.
  change (total (blkcipher_walk_init w0 dst src n)) with n. by rewrite (proj2 (Z.eqb_neq _ _) Hn).
Qed.

(** a request shorter than a block, whose output starts at the start of a
    page, is refused with -EINVAL without touching the data, but the page that
    is flushed is not one of the request: it lies 0xfffff pages above, because
    [scatterwalk_pagedone] takes the offset before the start. *)
Theorem short_request_flush bs ivs alignmask info crypt tmp w0 e p len dst src pi oi li n : 0 < n < bs -> Z.land info alignmask = 0 ->
  len <> 0 -> li <> 0 ->
  exists s, blkcipher_crypt bs ivs alignmask info crypt tmp false w0 e (mk_sg p 0 len :: dst) (mk_sg pi oi li :: src) n = Some (- EINVAL, s) /\
    mm (fst s) = mm e /\ flushed (fst s) = flushed e ++ [p + 1048575].
Proof.
  intros [Hn Hb] Hal Hl Hli. unfold blkcipher_crypt, blkcipher_walk_virt, blkcipher_walk_first.
  assert ((n =? 0) = false) as En by lia. apply Z.eqb_neq in Hl, Hli. apply Z.ltb_lt in Hb. apply Z.eqb_eq in Hal.
  cbn -[crypt_loop Z.land Z.div blkcipher_copy_iv]. rewrite En, Hal. cbn -[crypt_loop Z.land Z.div blkcipher_walk_next].
  rewrite Hli, Hl. unfold blkcipher_walk_next. cbn -[crypt_loop Z.land Z.div Z.lor]. rewrite Hb.
  unfold walk_done_error, walk_done_tail, scatterwalk_done. cbn -[crypt_loop Z.land Z.div Z.lor offset_in_page]. rewrite !orb_true_r.
  cbn -[crypt_loop Z.land Z.div Z.lor]. rewrite Z.eqb_refl. cbn -[crypt_loop Z.land Z.div Z.lor].
  rewrite crypt_loop_step. cbn. eexists. split; [done|]. done.
Qed.

(** C29: the scratch buffer of a walk holds, one after the other and inside the
    size that the code computes for it, the aligned output block, the input
    block and, when the vector is copied, the vector: for every power-of-two
    alignment that divides the sizes and every address that [kmalloc] returns. *)
Theorem walk_buffer_bounds alignmask bsize ivsize b : align_ok alignmask bsize ivsize -> 0 < bsize <= 512 -> 0 <= ivsize <= 512 ->
  0 < b -> (8 | b) -> b + 8192 < 2 ^ 32 ->
  let d := blkcipher_get_spot (ALIGN b alignmask) bsize in let sa := blkcipher_get_spot (d + bsize) bsize in
  let iv := blkcipher_get_spot (sa + bsize) ivsize in
  b <= d /\ d + bsize <= sa /\ sa + bsize <= iv /\ sa + bsize <= b + slow_size bsize alignmask /\ iv + ivsize <= b + iv_size bsize ivsize alignmask.
Proof. apply places_ok. Qed.

(** Whichever exclusive-or routine [crypto_cbc_init_tfm] chooses for the
    block size (64-bit, 128-bit, bytes or words), it writes the bytewise
    exclusive or over the first operand and nothing else. *)
Theorem ctx_xor_correct n m a b la lb : (0 < n)%nat -> Z.of_nat n < 2 ^ 32 -> disj a n b n ->
  load m a n = Some la -> load m b n = Some lb -> bytes la -> bytes lb ->
  ctx_xor (Z.of_nat n) m a b (Z.of_nat n) = Some (upd m a (xorl la lb)).
Proof. apply ctx_xor_ok. Qed.

(** ** An example request *)

(** Sixteen bytes whose first block straddles two pages, so that it goes
    through a scratch buffer, to an output in two entries. *)
#[local] Existing Instance Tea.tea_cipher.

Definition ex_tfm : Tea.tea_ctx := Tea.mk_tea [1; 2; 3; 4].
Definition ex_src : list scatterlist := [mk_sg 1 4092 16].
Definition ex_dst : list scatterlist := [mk_sg 4 0 8; mk_sg 6 100 8].
Definition ex_request : request := mk_request 0 40960 45056 false (mk_walk 0 0 (mk_sw [] 0) 0 (mk_sw [] 0) 0 0 0 0 0) ex_dst ex_src 16.
Definition ex_mem (data : list Z) : mem :=
  upd (upd (upd (upd (upd (upd ∅ 8188 data) 16384 (replicate 8 0)) 24676 (replicate 8 0)) 40960 [1;2;3;4;5;6;7;8]) 45056 (replicate 8 0)) 65536 (replicate 23 0).
Definition ex_env (data : list Z) : env := mk_env (ex_mem data) [65536] [] [] 0 [].
Definition ex_data : list Z := seqZ 16 16.


Lemma ex_key : ctx_ok ex_tfm.
Proof. split; [done|]. repeat (constructor; [done|]). constructor. Qed.

Definition ex_iv (n : mode_name) : list Z := match n with ECB => [] | _ => [1;2;3;4;5;6;7;8] end.

Lemma ex_in x : x ∈ take 16 (sg_addrs ex_src) -> 8188 <= x < 8204.
Proof. change (take 16 (sg_addrs ex_src)) with (seqZ 8188 16). by rewrite elem_of_seqZ. Qed.
Lemma ex_out x : x ∈ take 16 (sg_addrs ex_dst) -> 16384 <= x < 16392 \/ 24676 <= x < 24684.
Proof. change (take 16 (sg_addrs ex_dst)) with (seqZ 16384 8 ++ seqZ 24676 8). by rewrite elem_of_app, !elem_of_seqZ. Qed.

Lemma ex_some (m : mem) l x : forallb (fun x => if m !! x is Some _ then true else false) l = true -> x ∈ l -> is_Some (m !! x).
Proof. intros H Hx. rewrite forallb_forall in H. apply list_elem_of_In, H in Hx. by destruct (m !! x). Qed.

Lemma ex_region d n a k : mapped (ex_mem ex_data) a k -> 45056 <= a ->
  region_ok (MD := mode_of ex_tfm ex_key d n) 40960 (sg_addrs ex_src) (sg_addrs ex_dst) 16 (ex_mem ex_data) a k.
Proof.
  intros Hm Ha. split; [done| |].
  - intros x Hx [H|H]; [apply ex_in in H|apply ex_out in H]; lia.
  - unfold disj. destruct d, n; simpl; lia.
Qed.

Lemma ex_valid d n : valid (Mode0 := mode_of ex_tfm ex_key d n) (ex_env ex_data) ex_request 16 ex_data (ex_iv n).
Proof.
  split; [split|split_and!]; try done.
  - simpl. lia.
  - destruct d, n; simpl; lia.
  - exists 0. split_and!; try done; apply Z.divide_1_l.
  - intros i j x Hi Hj H1 H2. rewrite <- (lookup_take_lt _ 16) in H1 by lia. rewrite <- (lookup_take_lt _ 16) in H2 by lia. apply list_elem_of_lookup_2, ex_in in H1.
    apply list_elem_of_lookup_2, ex_out in H2. lia.
  - apply (bool_decide_unpack _). by vm_compute.
  - apply (bool_decide_unpack _). by vm_compute.
  - intros x. by apply ex_some.
  - destruct d, n; by vm_compute.
  - apply (bool_decide_unpack _). destruct n; by vm_compute.
  - intros x [H|H]; [apply ex_in in H|apply ex_out in H]; destruct d, n; simpl; lia.
  - apply ex_region; [eexists; by vm_compute|done].
  - intros a ->%list_elem_of_singleton _. split_and!; try done; [by exists 8192| |do 3 right; by vm_compute].
    apply ex_region; [eexists; by vm_compute|done].
  - intros p Hp. by apply elem_of_nil in Hp.
  - intros a p _ Hp. by apply elem_of_nil in Hp.
  - repeat constructor; done.
  - repeat constructor; done.
Qed.

Lemma crypto_op_correct_witness :
  refines (Mode0 := mode_of ex_tfm ex_key Encrypt CBC) (ex_env ex_data) ex_request 16 ex_data (ex_iv CBC) (op ex_tfm Encrypt CBC (ex_env ex_data) ex_request).
Proof. apply (crypto_op_correct ex_tfm ex_key Encrypt CBC). apply ex_valid. Defined.

Lemma crypto_op_roundtrip_witness :
  exists e' w' ct, op ex_tfm Encrypt PCBC (ex_env ex_data) ex_request = Some (0, (e', w')) /\ get (mm e') (take 16 (sg_addrs ex_dst)) = Some ct /\
    forall e2 q2, valid (Mode0 := mode_of ex_tfm ex_key Decrypt PCBC) e2 q2 16 ct (ex_iv PCBC) -> hd 0 (kmallocs e2) <> 0 ->
      exists e2' w2', op ex_tfm Decrypt PCBC e2 q2 = Some (0, (e2', w2')) /\ get (mm e2') (take 16 (sg_addrs (q_dst q2))) = Some ex_data.
Proof. apply (crypto_op_roundtrip ex_tfm ex_key PCBC (ex_env ex_data) ex_request); [apply ex_valid|by exists 2%nat|done]. Defined.

Lemma crypto_op_chained_witness :
  exists e' w' o v, op ex_tfm Decrypt ECB (ex_env ex_data) ex_request = Some (0, (e', w')) /\ get (mm e') (take 16 (sg_addrs ex_dst)) = Some o /\
    load (mm e') 40960 0 = Some v /\
    (valid (Mode0 := mode_of ex_tfm ex_key Decrypt ECB) (ex_env ex_data) ex_request 16 ex_data v ->
     exists e2' w2' o2 k v2, op ex_tfm Decrypt ECB (ex_env ex_data) ex_request = Some (0, (e2', w2')) /\
      get (mm e2') (take 16 (sg_addrs ex_dst)) = Some o2 /\ (k * 8 = 16 + 16)%nat /\
      stream 8 (mode_step (Mode := mode_of ex_tfm ex_key Decrypt ECB)) k (ex_iv ECB) (ex_data ++ ex_data) = Some (o ++ o2, v2) /\
      load (mm e2') 40960 0 = Some v2).
Proof.
  apply (crypto_op_chained ex_tfm ex_key Decrypt ECB (ex_env ex_data) ex_request 16 ex_data (ex_iv ECB) (ex_env ex_data) ex_request 16 ex_data);
    [apply ex_valid|by exists 2%nat|done|by exists 2%nat|done].
Defined.

Lemma copy_iv_failure_runs_witness : exists e' w, nbytes w = 16 /\
  blkcipher_crypt 8 8 3 40961 (cbc_encrypt_chunk ex_tfm) 45056 false (mk_walk 4096 8192 (mk_sw [] 0) 0 (mk_sw [] 0) 0 0 0 0 0)
    (mk_env (ex_mem ex_data) [0] [] [] 0 []) ex_dst ex_src 16 =
    '(m, r) ← cbc_encrypt_chunk ex_tfm 45056 (ex_mem ex_data) 4096 8192 40961 16;
    '(err, s) ← blkcipher_walk_done 8 8 3 40961 (set_mem m e', w) r;
    crypt_loop 8 8 3 40961 (cbc_encrypt_chunk ex_tfm) 45056 2 s err.
Proof. by apply (copy_iv_failure_runs 8 8 3 40961 (cbc_encrypt_chunk ex_tfm) 45056 (mk_walk 4096 8192 _ _ _ _ _ _ _ _) (mk_env (ex_mem ex_data) [0] _ _ _ _)). Defined.

Lemma short_request_flush_witness : exists s,
  blkcipher_crypt 8 8 0 40960 (cbc_encrypt_chunk ex_tfm) 45056 false (q_walk ex_request) (ex_env ex_data) ex_dst ex_src 5 = Some (- EINVAL, s) /\
    mm (fst s) = ex_mem ex_data /\ flushed (fst s) = [4 + 1048575].
Proof. by apply (short_request_flush 8 8 0 40960 (cbc_encrypt_chunk ex_tfm) 45056 (q_walk ex_request) (ex_env ex_data) 4 8). Defined.

Lemma walk_buffer_bounds_witness :
  8184 <= 8192 /\ 8192 + 16 <= 8208 /\ 8208 + 16 <= 8224 /\ 8208 + 16 <= 8184 + slow_size 16 15 /\ 8224 + 16 <= 8184 + iv_size 16 16 15.
Proof.
  apply (walk_buffer_bounds 15 16 16 8184); try done; [|by exists 1023].
  exists 4. split; [done|]. split; [done|]. split; by exists 1.
Defined.

Lemma ctx_xor_correct_witness : ctx_xor 12 (upd (upd ∅ 100 (replicate 12 5)) 200 (replicate 12 3)) 100 200 12 =
  Some (upd (upd (upd ∅ 100 (replicate 12 5)) 200 (replicate 12 3)) 100 (replicate 12 6)).
Proof.
  apply (ctx_xor_correct 12 _ 100 200 (replicate 12 5) (replicate 12 3)); try done; [lia|do 2 right; left; done|..];
    repeat (constructor; [done|]); constructor.
Defined.

End CryptoModes.
