(* ===== verification/Timer.v ===== *)
(** * The timer wheel: [kernel/timer.c]

    Five vectors of lists hold the pending timers; [__run_timers] empties one
    list of the first vector per tick and refills the vectors from the next
    ones ([cascade]).  The module [Wheel] is the code, on a uniprocessor as
    configured, and [TimerSpec] the map from timers to due times that it
    implements. *)

From S2P Require Import Prelude.

Module Timer.

(** [CONFIG_BASE_SMALL] is 0. *)
Definition TVN_BITS : Z := 6.
Definition TVR_BITS : Z := 8.
Definition TVN_SIZE : Z := Z.shiftl 1 TVN_BITS.
Definition TVR_SIZE : Z := Z.shiftl 1 TVR_BITS.
Definition TVN_MASK : Z := TVN_SIZE - 1.
Definition TVR_MASK : Z := TVR_SIZE - 1.
Definition HZ : Z := 100.

(** [struct timer_list].  [entry.next != NULL] is [timer_pending]; a null
    [function] is 0. *)
Record timer_list := mk_timer { timer_pending : bool; expires : Z; function : Z; data : Z }.

(** A list of timers is the list of their addresses, [vec] an array of lists. *)
Abbreviation tvec := (list (list Z)).

Record tvec_base := mk_base { timer_jiffies : Z; tv1 : tvec; tv2 : tvec; tv3 : tvec; tv4 : tvec; tv5 : tvec }.

(** The base, the timers by address, the list [work_list] of the running
    [__run_timers], and [jiffies]. *)
Record state := mk_state { base : tvec_base; timers : gmap Z timer_list; work_list : list Z; jiffies : Z }.

Definition set_timer_jiffies (j : Z) (b : tvec_base) : tvec_base := mk_base j (tv1 b) (tv2 b) (tv3 b) (tv4 b) (tv5 b).

(** [tv1] to [tv5] by level. *)
Definition tv (b : tvec_base) (k : nat) : tvec :=
  match k with 0 => tv1 b | 1 => tv2 b | 2 => tv3 b | 3 => tv4 b | _ => tv5 b end%nat.
Definition set_tv (b : tvec_base) (k : nat) (v : tvec) : tvec_base :=
  match k with
  | 0 => mk_base (timer_jiffies b) v (tv2 b) (tv3 b) (tv4 b) (tv5 b)
  | 1 => mk_base (timer_jiffies b) (tv1 b) v (tv3 b) (tv4 b) (tv5 b)
  | 2 => mk_base (timer_jiffies b) (tv1 b) (tv2 b) v (tv4 b) (tv5 b)
  | 3 => mk_base (timer_jiffies b) (tv1 b) (tv2 b) (tv3 b) v (tv5 b)
  | _ => mk_base (timer_jiffies b) (tv1 b) (tv2 b) (tv3 b) (tv4 b) v
  end%nat.

Definition set_base (b : tvec_base) (s : state) : state := mk_state b (timers s) (work_list s) (jiffies s).
Definition set_timer (t : Z) (tm : timer_list) (s : state) : state := mk_state (base s) (<[t := tm]> (timers s)) (work_list s) (jiffies s).

Definition time_after_eq (a b : Z) : bool := 0 <=? s32 (a - b).

Definition __round_jiffies (jiffies j cpu : Z) : Z :=
  let original := j in
  let j := u32 (j + cpu * 3) in
  let rem := j mod HZ in
  let j := if rem <? HZ / 4 then u32 (j - rem) else u32 (j - rem + HZ) in
  let j := u32 (j - cpu * 3) in
  if j <=? jiffies then original else j.

(** The vector and the index that [internal_add_timer] chooses.  On 32 bits
    [idx] never exceeds [0xffffffff]. *)
Definition vec_of (timer_jiffies expires : Z) : nat * Z :=
  let idx := u32 (expires - timer_jiffies) in
  if idx <? TVR_SIZE then (0%nat, Z.land expires TVR_MASK)
  else if idx <? Z.shiftl 1 (TVR_BITS + TVN_BITS) then (1%nat, Z.land (Z.shiftr expires TVR_BITS) TVN_MASK)
  else if idx <? Z.shiftl 1 (TVR_BITS + 2 * TVN_BITS) then (2%nat, Z.land (Z.shiftr expires (TVR_BITS + TVN_BITS)) TVN_MASK)
  else if idx <? Z.shiftl 1 (TVR_BITS + 3 * TVN_BITS) then (3%nat, Z.land (Z.shiftr expires (TVR_BITS + 2 * TVN_BITS)) TVN_MASK)
  else if s32 idx <? 0 then (0%nat, Z.land timer_jiffies TVR_MASK)
  else (4%nat, Z.land (Z.shiftr expires (TVR_BITS + 3 * TVN_BITS)) TVN_MASK).

(** [list_add_tail] on an entry of a vector; an index out of range is a fault. *)
Definition list_add_tail (t i : Z) (v : tvec) : option tvec :=
  l ← v !! Z.to_nat i; Some (<[Z.to_nat i := l ++ [t]]> v).

Definition internal_add_timer (b : tvec_base) (t expires : Z) : option tvec_base :=
  let '(k, i) := vec_of (timer_jiffies b) expires in
  v ← list_add_tail t i (tv b k); Some (set_tv b k v).

(** [detach_timer]: [__list_del] unlinks the timer from the list it is on,
    whichever that is. *)
Definition unlink (t : Z) (l : list Z) : list Z := filter (.≠ t) l.
Definition base_unlink (t : Z) (b : tvec_base) : tvec_base :=
  mk_base (timer_jiffies b) (unlink t <$> tv1 b) (unlink t <$> tv2 b) (unlink t <$> tv3 b) (unlink t <$> tv4 b) (unlink t <$> tv5 b).
Definition detach_timer (t : Z) (clear_pending : bool) (s : state) : option state :=
  tm ← timers s !! t;
  let tm := if clear_pending then mk_timer false (expires tm) (function tm) (data tm) else tm in
  Some (mk_state (base_unlink t (base s)) (<[t := tm]> (timers s)) (unlink t (work_list s)) (jiffies s)).

(** [init_timer]: the timer is on no list. *)
Definition init_timer (t fn d : Z) (s : state) : state := set_timer t (mk_timer false 0 fn d) s.

(** There is one base, so [lock_timer_base] returns it and [base == new_base].
    [list_add_tail] sets [entry.next]. *)
Definition __mod_timer (t e : Z) (s : state) : option (Z * state) :=
  tm ← timers s !! t;
  _ ← BUG_ON (function tm =? 0);
  '(ret, s) ← (if timer_pending tm then s ← detach_timer t false s; Some (1, s) else Some (0, s));
  b ← internal_add_timer (base s) t e;
  Some (ret, set_timer t (mk_timer true e (function tm) (data tm)) (set_base b s)).

Definition mod_timer (t e : Z) (s : state) : option (Z * state) :=
  tm ← timers s !! t;
  _ ← BUG_ON (function tm =? 0);
  if (expires tm =? e) && timer_pending tm then Some (1, s) else __mod_timer t e s.

Definition add_timer (t : Z) (s : state) : option state :=
  tm ← timers s !! t;
  _ ← BUG_ON (timer_pending tm);
  '(_, s) ← __mod_timer t (expires tm) s; Some s.

Definition del_timer (t : Z) (s : state) : option (Z * state) :=
  tm ← timers s !! t;
  if timer_pending tm then s ← detach_timer t true s; Some (1, s) else Some (0, s).

(** ** Running the timers *)

Fixpoint add_all (tms : gmap Z timer_list) (l : list Z) (b : tvec_base) : option tvec_base :=
  match l with
  | [] => Some b
  | t :: l => tm ← tms !! t; b ← internal_add_timer b t (expires tm); add_all tms l b
  end.

(** [list_replace_init] empties the list before its timers are added again. *)
Definition cascade (tms : gmap Z timer_list) (b : tvec_base) (k : nat) (index : Z) : option (Z * tvec_base) :=
  l ← tv b k !! Z.to_nat index;
  b ← add_all tms l (set_tv b k (<[Z.to_nat index := []]> (tv b k)));
  Some (index, b).

Definition INDEX (b : tvec_base) (n : Z) : Z := Z.land (Z.shiftr (timer_jiffies b) (TVR_BITS + n * TVN_BITS)) TVN_MASK.

(** The condition of the [if] before the increment: a vector is cascaded when
    the indices of the vectors before it are 0. *)
Definition cascade_timers (tms : gmap Z timer_list) (b : tvec_base) (index : Z) : option tvec_base :=
  if negb (index =? 0) then Some b else
  '(i, b) ← cascade tms b 1 (INDEX b 0);
  if negb (i =? 0) then Some b else
  '(i, b) ← cascade tms b 2 (INDEX b 1);
  if negb (i =? 0) then Some b else
  '(i, b) ← cascade tms b 3 (INDEX b 2);
  if negb (i =? 0) then Some b else
  '(_, b) ← cascade tms b 4 (INDEX b 3);
  Some b.

(** The body of the loop of [__run_timers] up to the inner loop. *)
Definition begin_tick (s : state) : option state :=
  let index := Z.land (timer_jiffies (base s)) TVR_MASK in
  b ← cascade_timers (timers s) (base s) index;
  let b := set_timer_jiffies (u32 (timer_jiffies b + 1)) b in
  l ← tv1 b !! Z.to_nat index;
  Some (mk_state (set_tv b 0 (<[Z.to_nat index := []]> (tv1 b))) (timers s) l (jiffies s)).

(** The first timer of the work list, detached; its handler is to run. *)
Definition take_timer (s : state) : option (Z * state) :=
  t ← head (work_list s); s ← detach_timer t true s; Some (t, s).

(** What a handler does to the timers: calls of the interface above, and timer
    interrupts that come in meanwhile. *)
Inductive call := Mod (t e : Z) | Add (t e : Z) | Del (t : Z) | Tick.

Definition run_call (c : call) (s : state) : option state :=
  match c with
  | Mod t e => '(_, s) ← mod_timer t e s; Some s
  | Add t e => tm ← timers s !! t; add_timer t (set_timer t (mk_timer (timer_pending tm) e (function tm) (data tm)) s)
  | Del t => '(_, s) ← del_timer t s; Some s
  | Tick => Some (mk_state (base s) (timers s) (work_list s) (u32 (jiffies s + 1)))
  end.

Section Run.
(** The handlers: the calls that [fn(data)] makes in a state. *)
Context (handler : Z -> Z -> state -> list call).

Fixpoint run_calls (l : list call) (s : state) : option state :=
  match l with [] => Some s | c :: l => s ← run_call c s; run_calls l s end.

Fixpoint run_work (fuel : nat) (s : state) : option state :=
  match work_list s, fuel with
  | [], _ => Some s
  | _, O => None
  | t :: _, S fuel =>
      tm ← timers s !! t;
      '(_, s) ← take_timer s;
      s ← run_calls (handler (function tm) (data tm) s) s;
      run_work fuel s
  end.

(** The fuel of the outer loop bounds the ticks; a tick runs at most the timers
    of its list. *)
Fixpoint __run_timers (fuel : nat) (s : state) : option state :=
  if time_after_eq (jiffies s) (timer_jiffies (base s)) then
    match fuel with
    | O => None
    | S fuel => s ← begin_tick s; s ← run_work (length (work_list s)) s; __run_timers fuel s
    end
  else Some s.
End Run.

(** [init_timers_cpu]: empty vectors. *)
Definition init_base (j : Z) : tvec_base :=
  let v := replicate (Z.to_nat TVN_SIZE) [] in
  mk_base j (replicate (Z.to_nat TVR_SIZE) []) v v v v.

End Timer.
