(* ===== verification/TimerProof.v ===== *)
(** * The timer wheel implements a map from timers to due times

    [spec_step] is the specification: a timer is armed with a due time, and the
    clock advances only when every timer that is due has run.  The simulation
    relation places a timer by its due time: a timer on level [k] waits for the
    tick at which that level is cascaded to it. *)

From S2P Require Import Prelude Timer.

Module TimerProof.
Import Timer.

(** ** The specification *)

(** Time is not bounded; [armed] maps a pending timer to [expires] and to the
    tick at which it is due. *)
Record spec := mk_spec { now : Z; armed : gmap Z (Z * Z) }.

(** A timer in the past is due at the next tick. *)
Definition due_of (T e : Z) : Z := let idx := u32 (e - T) in if idx <? 2 ^ 31 then T + idx else T.

Inductive label :=
| LInit (t : Z) | LMod (t e r : Z) | LAdd (t e : Z) | LDel (t r : Z) | LTick | LBegin | LFire (t : Z).

Definition is_armed (a : spec) (t : Z) : Z := match armed a !! t with Some _ => 1 | None => 0 end.

Inductive spec_step : spec -> label -> spec -> Prop :=
| sp_init a t : armed a !! t = None -> spec_step a (LInit t) a
| sp_mod_same a t e D : armed a !! t = Some (e, D) -> spec_step a (LMod t e 1) a
| sp_mod a t e : (forall D, armed a !! t <> Some (e, D)) ->
    spec_step a (LMod t e (is_armed a t)) (mk_spec (now a) (<[t := (e, due_of (now a) e)]> (armed a)))
| sp_add a t e : armed a !! t = None -> spec_step a (LAdd t e) (mk_spec (now a) (<[t := (e, due_of (now a) e)]> (armed a)))
| sp_del a t : spec_step a (LDel t (is_armed a t)) (mk_spec (now a) (delete t (armed a)))
| sp_tick a : spec_step a LTick a
| sp_begin a : (forall t e D, armed a !! t = Some (e, D) -> now a <= D) -> spec_step a LBegin (mk_spec (now a + 1) (armed a))
| sp_fire a t e : armed a !! t = Some (e, now a - 1) -> spec_step a (LFire t) (mk_spec (now a) (delete t (armed a))).

(** ** The code as a transition system

    Calls of the interface come at any point where the lock is free: between
    the handlers, from the handlers and from the rest of the kernel. *)
Inductive step : state -> label -> state -> Prop :=
| st_init s t fn d : (forall tm, timers s !! t = Some tm -> timer_pending tm = false) -> step s (LInit t) (init_timer t fn d s)
| st_mod s t e r s' : is_u32 e -> mod_timer t e s = Some (r, s') -> step s (LMod t e r) s'
| st_add s t e s' : is_u32 e -> run_call (Add t e) s = Some s' -> step s (LAdd t e) s'
| st_del s t r s' : del_timer t s = Some (r, s') -> step s (LDel t r) s'
| st_tick s s' : run_call Tick s = Some s' -> step s LTick s'
| st_begin s s' : work_list s = [] -> time_after_eq (jiffies s) (timer_jiffies (base s)) = true -> begin_tick s = Some s' -> step s LBegin s'
| st_fire s t s' : take_timer s = Some (t, s') -> step s (LFire t) s'.

(** ** Places in the wheel *)

Definition shift (k : nat) : Z := match k with 0%nat => 0 | 1%nat => 8 | 2%nat => 14 | 3%nat => 20 | _ => 26 end.
Definition bits (k : nat) : Z := match k with 0%nat => 8 | _ => 6 end.

(** The tick at which level [k] is cascaded to a timer that is due at [D]. *)
Definition turn (k : nat) (D : Z) : Z := D / 2 ^ shift k * 2 ^ shift k.

Definition placed (k : nat) (T D : Z) (i : nat) : Prop :=
  T <= turn k D < T + 2 ^ (shift k + bits k) /\ Z.of_nat i = (D / 2 ^ shift k) mod 2 ^ bits k.

(** Every timer of the base is in its place; up to level [m] its turn is not
    now. *)
Record wheel (a : gmap Z (Z * Z)) (T : Z) (m : nat) (b : tvec_base) : Prop := {
  w_tj : timer_jiffies b = u32 T;
  w_len : forall k, (k < 5)%nat -> length (tv b k) = Z.to_nat (2 ^ bits k);
  w_tv : forall k i l t, (k < 5)%nat -> tv b k !! i = Some l -> t ∈ l -> exists e D, a !! t = Some (e, D) /\ placed k T D i /\
    (k <> 0%nat -> e = u32 D /\ D < T + 2 ^ 31 /\ ((k <= m)%nat -> T < turn k D)) }.

Definition all_timers (b : tvec_base) : list Z := concat (tv1 b) ++ concat (tv2 b) ++ concat (tv3 b) ++ concat (tv4 b) ++ concat (tv5 b).

(** The lists hold the armed timers, each once; the work list those that are
    due. *)
Record lists_ok (b : tvec_base) (w : list Z) (a : spec) : Prop := {
  s_wheel : wheel (armed a) (now a) 0 b;
  s_nodup : NoDup (w ++ all_timers b);
  s_all : forall t, t ∈ w ++ all_timers b <-> is_Some (armed a !! t);
  s_work : forall t, t ∈ w -> exists e, armed a !! t = Some (e, now a - 1) }.

Record timers_ok (tms : gmap Z timer_list) (a : spec) : Prop := {
  s_armed : forall t e D, armed a !! t = Some (e, D) -> is_u32 e /\ exists tm, tms !! t = Some tm /\ timer_pending tm = true /\ expires tm = e;
  s_idle : forall t tm, armed a !! t = None -> tms !! t = Some tm -> timer_pending tm = false }.

Definition sim (s : state) (a : spec) : Prop := lists_ok (base s) (work_list s) a /\ timers_ok (timers s) a.

(** ** Arithmetic of the places *)

Lemma u32_slot T s n : 0 <= s -> 0 <= n -> s + n <= 32 -> (u32 T / 2 ^ s) mod 2 ^ n = (T / 2 ^ s) mod 2 ^ n.
Proof.
  intros Hs Hn H. unfold u32. assert (T = T mod 2 ^ 32 + (T / 2 ^ 32 * 2 ^ (32 - s - n) * 2 ^ n) * 2 ^ s) as E.
  { rewrite <- !Z.mul_assoc, <- !Z.pow_add_r by lia. replace (32 - s - n + (n + s)) with 32 by lia. rewrite Z.mul_comm, Z.add_comm. by apply Z.div_mod. }
  rewrite E at 2. rewrite Z.div_add, Z.mod_add by (apply Z.pow_nonzero; lia). done.
Qed.

Lemma slot_index x s n : 0 <= s -> 0 <= n -> s + n <= 32 -> Z.land (Z.shiftr (u32 x) s) (2 ^ n - 1) = (x / 2 ^ s) mod 2 ^ n.
Proof. intros Hs Hn H. rewrite land_ones_mod, Z.shiftr_div_pow2 by lia. by apply u32_slot. Qed.

Lemma turn_le k D : turn k D <= D < turn k D + 2 ^ shift k.
Proof. unfold turn. assert (0 < 2 ^ shift k) by (apply Z.pow_pos_nonneg; [lia|destruct k as [|[|[|[|]]]]; simpl; lia]).
  pose proof (Z_div_mod_eq_full D (2 ^ shift k)). pose proof (Z.mod_pos_bound D (2 ^ shift k) ltac:(lia)). lia. Qed.

(** Two turns in a window of one revolution that have the same index are equal. *)
Lemma same_turn k T D : T mod 2 ^ shift k = 0 -> T <= turn k D < T + 2 ^ (shift k + bits k) ->
  (D / 2 ^ shift k) mod 2 ^ bits k = (T / 2 ^ shift k) mod 2 ^ bits k -> turn k D = T.
Proof.
  intros Hm Hw He. unfold turn in *.
  assert (0 <= shift k /\ 0 <= bits k) as [Hs Hb] by (destruct k as [|[|[|[|]]]]; simpl; lia).
  assert (0 < 2 ^ shift k) by (apply Z.pow_pos_nonneg; lia). assert (0 < 2 ^ bits k) by (apply Z.pow_pos_nonneg; lia).
  rewrite Z.pow_add_r in Hw by lia. pose proof (Z_div_mod_eq_full T (2 ^ shift k)) as ET. rewrite Hm in ET.
  set (q := D / 2 ^ shift k) in *. set (p := T / 2 ^ shift k) in *. set (S := 2 ^ shift k) in *. set (B := 2 ^ bits k) in *.
  pose proof (Z_div_mod_eq_full q B). pose proof (Z_div_mod_eq_full p B).
  assert (p <= q < p + B) by nia. assert (q / B = p / B) by nia. nia.
Qed.

(** A due time that is far enough away has its turn on level [k] ahead of it. *)
Lemma placed_far k T D i : 2 ^ shift k <= D - T < 2 ^ (shift k + bits k) -> Z.of_nat i = (D / 2 ^ shift k) mod 2 ^ bits k ->
  placed k T D i /\ T < turn k D.
Proof. intros H Hi. pose proof (turn_le k D). split; [split; [lia|done]|lia]. Qed.

Lemma due_of_diff T e : due_of T e = (if u32 (e - T) <? 2 ^ 31 then T + u32 (e - T) else T).
Proof. done. Qed.

Lemma due_of_u32 T D : T <= D < T + 2 ^ 31 -> due_of T (u32 D) = D.
Proof. intros H. unfold due_of. rewrite u32_sub_u32_l, u32_small by (unfold is_u32; lia). zcases; lia. Qed.

Lemma u32_due T e : is_u32 e -> u32 (e - T) < 2 ^ 31 -> u32 (due_of T e) = e.
Proof.
  intros He H. unfold due_of. rewrite (proj2 (Z.ltb_lt _ _) H), u32_add_u32_r. replace (T + (e - T)) with e by lia. by apply u32_small.
Qed.

Lemma level_index k x : (k < 5)%nat -> Z.land (Z.shiftr (u32 x) (shift k)) (2 ^ bits k - 1) = (x / 2 ^ shift k) mod 2 ^ bits k.
Proof. intros H. apply slot_index; destruct k as [|[|[|[|]]]]; simpl; lia. Qed.

Definition good_place (T e : Z) (p : nat * Z) : Prop :=
  exists k i, p = (k, Z.of_nat i) /\ (k < 5)%nat /\ placed k T (due_of T e) i /\
    (k <> 0%nat -> e = u32 (due_of T e) /\ due_of T e < T + 2 ^ 31 /\ T < turn k (due_of T e)).

Lemma good_place_mk T e k z : (k < 5)%nat -> z = (due_of T e / 2 ^ shift k) mod 2 ^ bits k ->
  (forall i, Z.of_nat i = z -> placed k T (due_of T e) i /\ (k <> 0%nat -> e = u32 (due_of T e) /\ due_of T e < T + 2 ^ 31 /\ T < turn k (due_of T e))) ->
  good_place T e (k, z).
Proof.
  intros Hk Ez H. assert (0 <= z) as Hz by (subst z; apply Z.mod_pos_bound, Z.pow_pos_nonneg; [lia|destruct k; simpl; lia]).
  exists k, (Z.to_nat z). rewrite Z2Nat.id by done. split; [done|]. split; [done|]. apply H. by apply Z2Nat.id.
Qed.

Lemma good_place_level T e k : is_u32 e -> (k < 5)%nat -> let idx := u32 (e - T) in idx < 2 ^ 31 ->
  (k = 0%nat \/ 2 ^ shift k <= idx) -> idx < 2 ^ (shift k + bits k) -> good_place T e (k, Z.land (Z.shiftr e (shift k)) (2 ^ bits k - 1)).
Proof.
  intros He Hk idx H31 Hlo Hhi. assert (due_of T e = T + idx) as ED by (unfold due_of; fold idx; by rewrite (proj2 (Z.ltb_lt _ _) H31)).
  pose proof (u32_range (e - T)) as Hr. unfold is_u32 in Hr. fold idx in Hr.
  assert (Z.land (Z.shiftr e (shift k)) (2 ^ bits k - 1) = (due_of T e / 2 ^ shift k) mod 2 ^ bits k) as E.
  { rewrite <- level_index by done. by rewrite u32_due. }
  apply good_place_mk; [done|done|]. intros i Hi. rewrite E in Hi. rewrite (u32_due T e) by done.
  destruct Hlo as [->|Hlo].
  - split; [|done]. split; [|done]. unfold turn. change (2 ^ shift 0) with 1. rewrite Z.div_1_r. simpl in Hhi |- *. lia.
  - destruct (placed_far k T (due_of T e) i) as [H1 H2]; [lia|done|]. split; [done|]. split; [done|]. lia.
Qed.

(** [internal_add_timer] chooses the place of the due time. *)
Lemma vec_of_ok T e : is_u32 e -> good_place T e (vec_of (u32 T) e).
Proof.
  intros He. unfold vec_of. rewrite u32_sub_u32_r. pose proof (u32_range (e - T)) as Hr. unfold is_u32 in Hr.
  change TVR_SIZE with (2 ^ 8). change (Z.shiftl 1 (TVR_BITS + TVN_BITS)) with (2 ^ 14).
  change (Z.shiftl 1 (TVR_BITS + 2 * TVN_BITS)) with (2 ^ 20). change (Z.shiftl 1 (TVR_BITS + 3 * TVN_BITS)) with (2 ^ 26).
  assert ((s32 (u32 (e - T)) <? 0) = negb (u32 (e - T) <? 2 ^ 31)) as ->.
  { unfold s32. rewrite u32_u32. destruct (Z.ltb_spec (u32 (e - T)) (2 ^ 31)); zcases; simpl; lia. }
  destruct (Z.ltb_spec (u32 (e - T)) (2 ^ 8)).
  { rewrite <- (Z.shiftr_0_r e) at 2. apply (good_place_level T e 0); simpl; [done|lia..]. }
  destruct (Z.ltb_spec (u32 (e - T)) (2 ^ 14)); [apply (good_place_level T e 1); simpl; [done|lia..]|].
  destruct (Z.ltb_spec (u32 (e - T)) (2 ^ 20)); [apply (good_place_level T e 2); simpl; [done|lia..]|].
  destruct (Z.ltb_spec (u32 (e - T)) (2 ^ 26)); [apply (good_place_level T e 3); simpl; [done|lia..]|].
  destruct (Z.ltb_spec (u32 (e - T)) (2 ^ 31)) as [|Hpast]; [apply (good_place_level T e 4); simpl; [done|lia..]|].
  cbn [negb]. assert (due_of T e = T) as ED by (unfold due_of; by rewrite (proj2 (Z.ltb_ge _ _) Hpast)).
  apply good_place_mk; rewrite ?ED; [lia| |].
  - rewrite <- level_index by lia. simpl. by rewrite Z.shiftr_0_r.
  - intros i Hi. split; [|done]. split; [unfold turn; simpl; rewrite Z.div_1_r; lia|]. rewrite Hi, <- level_index by lia. simpl. by rewrite Z.shiftr_0_r.
Qed.

(** ** Adding a timer *)

Lemma tv_set b k v j : (k < 5)%nat -> (j < 5)%nat -> tv (set_tv b k v) j = if decide (j = k) then v else tv b j.
Proof. intros Hk Hj. do 5 (destruct k as [|k]; [do 5 (destruct j as [|j]; [done|]); lia|]). lia. Qed.

Lemma tj_set b k v : timer_jiffies (set_tv b k v) = timer_jiffies b.
Proof. by destruct k as [|[|[|[|]]]]. Qed.

Lemma all_timers_set b k v l : (k < 5)%nat -> concat v ≡ₚ l ++ concat (tv b k) -> all_timers (set_tv b k v) ≡ₚ l ++ all_timers b.
Proof.
  intros Hk Hv. unfold all_timers. do 5 (destruct k as [|k]; [simpl in Hv |- *; rewrite Hv; by solve_Permutation|]). lia.
Qed.

Lemma elem_concat (v : tvec) t : t ∈ concat v <-> exists i l, v !! i = Some l /\ t ∈ l.
Proof.
  rewrite list_elem_of_In, in_concat. split.
  - intros (l & Hl & Ht). apply list_elem_of_In in Hl. apply list_elem_of_In in Ht. apply list_elem_of_lookup_1 in Hl as [i Hi]. eauto.
  - intros (i & l & Hi & Ht). exists l. split; apply list_elem_of_In; [by eapply list_elem_of_lookup_2|done].
Qed.

Lemma elem_all b t : t ∈ all_timers b <-> exists k i l, (k < 5)%nat /\ tv b k !! i = Some l /\ t ∈ l.
Proof.
  unfold all_timers. rewrite !elem_of_app, !elem_concat. split.
  - intros H. destruct_or! H; destruct H as (i & l & H1 & H2);
      [exists 0%nat|exists 1%nat|exists 2%nat|exists 3%nat|exists 4%nat]; exists i, l; (split; [lia|done]).
  - intros (k & i & l & Hk & H1 & H2). destruct k as [|[|[|[|[|]]]]]; [..|lia]; eauto 8.
Qed.

Lemma concat_insert (v : tvec) i l l' : v !! i = Some l -> concat (<[i := l']> v) ++ l ≡ₚ concat v ++ l'.
Proof.
  revert i. induction v as [|x v IH]; intros [|i] H; simplify_eq/=; [solve_Permutation|].
  rewrite <- !app_assoc. by rewrite IH.
Qed.

Lemma wheel_weaken a a' T m b : (forall t, t ∈ all_timers b -> a !! t = a' !! t) -> wheel a T m b -> wheel a' T m b.
Proof.
  intros H [H1 H2 H3]. split; [done..|]. intros k i l t Hk Hl Ht. rewrite <- H by (apply elem_all; eauto 8). eauto.
Qed.

Lemma wheel_add a T m b t e : wheel a T m b -> is_u32 e -> a !! t = Some (e, due_of T e) ->
  exists b', internal_add_timer b t e = Some b' /\ wheel a T m b' /\ all_timers b' ≡ₚ t :: all_timers b.
Proof.
  intros [Htj Hlen Htv] He Ha. unfold internal_add_timer. rewrite Htj.
  destruct (vec_of_ok T e He) as (k & i & -> & Hk & Hp & Hs). unfold list_add_tail. rewrite Nat2Z.id.
  assert (i < length (tv b k))%nat as Hi.
  { rewrite Hlen by done. destruct Hp as [_ Hi]. pose proof (Z.mod_pos_bound (due_of T e / 2 ^ shift k) (2 ^ bits k)).
    assert (0 < 2 ^ bits k) by (apply Z.pow_pos_nonneg; [lia|destruct k; simpl; lia]). lia. }
  apply lookup_lt_is_Some_2 in Hi as [l Hl]. rewrite Hl. cbn [mbind option_bind]. eexists. split; [done|]. split; [split|].
  - by rewrite tj_set.
  - intros j Hj. rewrite tv_set by done. case_decide; [subst; rewrite length_insert|]; by apply Hlen.
  - intros j i' l' x Hj. rewrite tv_set by done. case_decide; [subst j|by apply Htv]. intros Hl' Hx.
    apply list_lookup_insert_Some in Hl' as [(<- & <- & _)|[_ Hl']]; [|by apply (Htv _ _ _ _ Hk Hl')].
    apply elem_of_app in Hx as [Hx|Hx]; [by apply (Htv _ _ _ _ Hk Hl)|]. apply list_elem_of_singleton in Hx as ->.
    exists e, (due_of T e). split; [done|]. split; [done|]. intros Hk0. destruct (Hs Hk0) as (? & ? & ?). done.
  - apply (all_timers_set _ _ _ [t]); [done|]. pose proof (concat_insert _ _ _ (l ++ [t]) Hl) as Hc.
    apply (Permutation_app_inv_r l). rewrite Hc. solve_Permutation.
Qed.

(** ** Cascading *)

Lemma wheel_add_all a tms T m l : forall b,
  wheel a T m b -> (forall t, t ∈ l -> exists D, a !! t = Some (u32 D, D) /\ T <= D < T + 2 ^ 31) ->
  (forall t e D, a !! t = Some (e, D) -> exists tm, tms !! t = Some tm /\ expires tm = e) ->
  exists b', add_all tms l b = Some b' /\ wheel a T m b' /\ all_timers b' ≡ₚ l ++ all_timers b.
Proof.
  induction l as [|t l IH]; intros b Hw Hl Ht; [by exists b|].
  destruct (Hl t) as (D & Ha & HD); [by left|]. destruct (Ht _ _ _ Ha) as (tm & Etm & He). cbn [add_all].
  rewrite Etm. cbn [mbind option_bind]. rewrite He.
  destruct (wheel_add a T m b t (u32 D)) as (b1 & -> & Hw1 & Hp1); [done|apply u32_range|by rewrite due_of_u32|]. cbn [mbind option_bind].
  destruct (IH b1 Hw1) as (b2 & E2 & Hw2 & Hp2); [intros; apply Hl; by right|done|]. exists b2. split; [done|]. split; [done|].
  rewrite Hp2, Hp1. solve_Permutation.
Qed.

(** Taking the list at the current index of level [k] leaves no timer there
    whose turn is now. *)
Lemma wheel_take a T k b : wheel a T (k - 1) b -> (k < 5)%nat -> T mod 2 ^ shift k = 0 ->
  let i := Z.to_nat ((T / 2 ^ shift k) mod 2 ^ bits k) in
  exists l, tv b k !! i = Some l /\ (forall t, t ∈ l -> exists e D, a !! t = Some (e, D) /\ turn k D = T /\ (k <> 0%nat -> e = u32 D /\ D < T + 2 ^ 31)) /\
    wheel a T k (set_tv b k (<[i := []]> (tv b k))) /\
    (forall j x t, (<[i := []]> (tv b k)) !! j = Some x -> t ∈ x -> exists e D, a !! t = Some (e, D) /\ T < turn k D) /\
    l ++ all_timers (set_tv b k (<[i := []]> (tv b k))) ≡ₚ all_timers b.
Proof.
  intros [Htj Hlen Htv] Hk Hm i. pose proof (Hlen k Hk) as Hlk.
  assert (0 <= (T / 2 ^ shift k) mod 2 ^ bits k < 2 ^ bits k) as Hb by (apply Z.mod_pos_bound, Z.pow_pos_nonneg; [lia|destruct k; simpl; lia]).
  assert (i < length (tv b k))%nat as Hi by lia. apply lookup_lt_is_Some_2 in Hi as [l Hl].
  assert (forall j x t, (<[i := []]> (tv b k)) !! j = Some x -> t ∈ x -> tv b k !! j = Some x /\ j <> i) as Hin.
  { intros j x t Hx Ht. apply list_lookup_insert_Some in Hx as [(<- & <- & _)|[Hne Hx]]; [by apply elem_of_nil in Ht|done]. }
  assert (forall j x t, (<[i := []]> (tv b k)) !! j = Some x -> t ∈ x -> exists e D, a !! t = Some (e, D) /\ T < turn k D) as Hrest.
  { intros j x t Hx Ht. destruct (Hin _ _ _ Hx Ht) as [Hx' Hne]. destruct (Htv _ _ _ _ Hk Hx' Ht) as (e & D & Ha & [Hw Hj] & _).
    exists e, D. split; [done|]. destruct (decide (turn k D = T)) as [E|]; [|lia]. destruct Hne.
    assert (D / 2 ^ shift k = T / 2 ^ shift k) as Eq by (rewrite <- E; unfold turn; rewrite Z.div_mul; [done|apply Z.pow_nonzero; [lia|destruct k as [|[|[|[|]]]]; simpl; lia]]).
    rewrite Eq in Hj. unfold i. lia. }
  exists l. split; [done|]. split; [|split; [|split; [done|]]].
  - intros t Ht. destruct (Htv _ _ _ _ Hk Hl Ht) as (e & D & Ha & [Hw Hj] & Hs). exists e, D. split; [done|].
    split; [|intros H0; destruct (Hs H0) as (? & ? & _); done]. apply same_turn; [done..|]. lia.
  - split; [by rewrite tj_set|..].
    + intros j Hj. rewrite tv_set by done. case_decide; [subst; rewrite length_insert|]; by apply Hlen.
    + intros j i' l' t Hj. rewrite tv_set by done. intros Hl' Ht. case_decide as Ej.
      * subst j. destruct (Hin _ _ _ Hl' Ht) as [Hx' _]. destruct (Htv _ _ _ _ Hk Hx' Ht) as (e & D & Ha & Hp & Hs).
        destruct (Hrest _ _ _ Hl' Ht) as (e' & D' & Ha' & HT). rewrite Ha in Ha'. injection Ha' as <- <-. exists e, D. split; [done|]. split; [done|].
        intros H0. destruct (Hs H0) as (? & ? & _). done.
      * destruct (Htv _ _ _ _ Hj Hl' Ht) as (e & D & Ha & Hp & Hs). exists e, D. split; [done|]. split; [done|].
        intros H0. destruct (Hs H0) as (? & ? & H3). split; [done|]. split; [done|]. intros Hjk. apply H3. lia.
  - unfold all_timers. pose proof (concat_insert _ _ _ [] Hl) as Hc. rewrite app_nil_r in Hc.
    do 5 (destruct k as [|k]; [simpl in Hc |- *; rewrite <- Hc; solve_Permutation|]). lia.
Qed.

Lemma wheel_cascade a tms T k b : wheel a T (k - 1) b -> k <> 0%nat -> (k < 5)%nat -> T mod 2 ^ shift k = 0 ->
  (forall t e D, a !! t = Some (e, D) -> exists tm, tms !! t = Some tm /\ expires tm = e) ->
  let i := (T / 2 ^ shift k) mod 2 ^ bits k in
  exists b', cascade tms b k i = Some (i, b') /\ wheel a T k b' /\ all_timers b' ≡ₚ all_timers b.
Proof.
  intros Hw H0 Hk Hm Ht i. destruct (wheel_take _ _ _ _ Hw Hk Hm) as (l & Hl & Hdue & Hw' & _ & Hp).
  unfold cascade. fold i in Hl, Hw', Hp. rewrite Hl. cbn [mbind option_bind].
  destruct (wheel_add_all a tms T k l _ Hw') as (b' & -> & Hb & Hp'); [|done|].
  - intros t Hx. destruct (Hdue _ Hx) as (e & D & Ha & Hturn & Hs). destruct (Hs H0) as [-> HD]. exists D. split; [done|].
    pose proof (turn_le k D). lia.
  - exists b'. split; [done|]. split; [done|]. by rewrite Hp'.
Qed.

(** Levels whose period does not divide the tick have no turn now. *)
Lemma wheel_unaligned a T m b : wheel a T m b -> (forall k, (m < k < 5)%nat -> T mod 2 ^ shift k <> 0) -> wheel a T 4 b.
Proof.
  intros [Htj Hlen Htv] Hm. split; [done..|]. intros k i l t Hk Hl Ht. destruct (Htv _ _ _ _ Hk Hl Ht) as (e & D & Ha & Hp & Hs).
  exists e, D. split; [done|]. split; [done|]. intros H0. destruct (Hs H0) as (He & HD & H3). split; [done|]. split; [done|]. intros _.
  destruct (decide (k <= m)%nat); [by apply H3|]. destruct Hp as [[H1 _] _]. destruct (decide (turn k D = T)) as [E|]; [|lia].
  destruct (Hm k); [lia|]. rewrite <- E. unfold turn. apply Z_mod_mult.
Qed.

(** A level is due when the lower ones have gone round. *)
Lemma aligned_next T s n : 0 <= s -> 0 <= n -> T mod 2 ^ s = 0 -> (T / 2 ^ s) mod 2 ^ n = 0 <-> T mod 2 ^ (s + n) = 0.
Proof.
  intros Hs Hn Hm. assert (0 < 2 ^ s /\ 0 < 2 ^ n) as [H1 H2] by (split; apply Z.pow_pos_nonneg; lia).
  rewrite Z.pow_add_r, Z.rem_mul_r by lia. nia.
Qed.

Lemma unaligned_up T s n : 0 <= s -> 0 <= n -> T mod 2 ^ s <> 0 -> T mod 2 ^ (s + n) <> 0.
Proof.
  intros Hs Hn Hm E. apply Hm. assert (0 < 2 ^ s /\ 0 < 2 ^ n) as [H1 H2] by (split; apply Z.pow_pos_nonneg; lia).
  rewrite Z.pow_add_r, Z.rem_mul_r in E by lia. pose proof (Z.mod_pos_bound T (2 ^ s)). pose proof (Z.mod_pos_bound (T / 2 ^ s) (2 ^ n)). nia.
Qed.

Lemma INDEX_level a T m b k : wheel a T m b -> (0 < k < 5)%nat -> INDEX b (Z.of_nat (k - 1)) = (T / 2 ^ shift k) mod 2 ^ bits k.
Proof.
  intros Hw Hk. unfold INDEX. rewrite (w_tj _ _ _ _ Hw), <- level_index by lia.
  destruct k as [|[|[|[|[|]]]]]; [lia|done..|lia].
Qed.

Lemma above_unaligned T k : (k < 4)%nat -> T mod 2 ^ shift (S k) <> 0 -> forall j, (k < j < 5)%nat -> T mod 2 ^ shift j <> 0.
Proof.
  intros Hk H j Hj. assert (0 <= shift (S k) <= shift j) as Hs by (destruct k as [|[|[|[|]]]], j as [|[|[|[|[|]]]]]; simpl; lia).
  replace (shift j) with (shift (S k) + (shift j - shift (S k))) by lia. apply unaligned_up; [lia|lia|done].
Qed.

Lemma shift_next k : (0 < k < 4)%nat -> shift (S k) = shift k + bits k.
Proof. intros. destruct k as [|[|[|[|]]]]; simpl; lia. Qed.

Lemma shift_nonneg k : 0 <= shift k.
Proof. destruct k as [|[|[|[|]]]]; simpl; lia. Qed.

(** One level of the condition in [__run_timers]: its index is 0 exactly when
    the next level has its turn. *)
Lemma cascade_level a tms T k n b : n = Z.of_nat (k - 1) -> wheel a T (k - 1) b -> (0 < k < 5)%nat -> T mod 2 ^ shift k = 0 ->
  (forall t e D, a !! t = Some (e, D) -> exists tm, tms !! t = Some tm /\ expires tm = e) ->
  exists i b', cascade tms b k (INDEX b n) = Some (i, b') /\ wheel a T k b' /\ all_timers b' ≡ₚ all_timers b /\
    (i = 0 -> (k < 4)%nat -> T mod 2 ^ shift (S k) = 0) /\ (i <> 0 -> wheel a T 4 b').
Proof.
  intros -> Hw Hk Hm Ht. rewrite (INDEX_level _ _ _ _ k Hw) by lia.
  destruct (wheel_cascade a tms T k b) as (b' & E & Hw' & Hp); [done|lia..|done|done|].
  exists ((T / 2 ^ shift k) mod 2 ^ bits k), b'. do 3 (split; [done|]). assert (0 <= bits k) by (destruct k; simpl; lia).
  rewrite (aligned_next T (shift k) (bits k) (shift_nonneg k)) by done. split.
  - intros E0 Hk4. by rewrite shift_next by lia.
  - intros Hi. destruct (decide (k = 4)%nat) as [->|]; [done|]. apply (wheel_unaligned a T k); [done|].
    apply above_unaligned; [lia|]. by rewrite shift_next by lia.
Qed.

Lemma wheel_cascades a tms T b : wheel a T 0 b -> (forall t e D, a !! t = Some (e, D) -> exists tm, tms !! t = Some tm /\ expires tm = e) ->
  exists b', cascade_timers tms b (T mod 2 ^ 8) = Some b' /\ wheel a T 4 b' /\ all_timers b' ≡ₚ all_timers b.
Proof.
  intros Hw Ht. unfold cascade_timers. destruct (Z.eqb_spec (T mod 2 ^ 8) 0) as [E|E]; cbn [negb].
  2:{ exists b. split; [done|]. split; [|done]. apply (wheel_unaligned a T 0 b Hw), above_unaligned; [lia|done]. }
  destruct (cascade_level a tms T 1 0 b) as (i1 & b1 & -> & Hw1 & Hp1 & Hz1 & Hn1); [done|done|lia|done|done|]. cbn [mbind option_bind].
  destruct (Z.eqb_spec i1 0) as [E1|E1]; cbn [negb]; [|exists b1; auto].
  destruct (cascade_level a tms T 2 1 b1) as (i2 & b2 & -> & Hw2 & Hp2 & Hz2 & Hn2); [done|done|lia|apply Hz1; [done|lia]|done|]. cbn [mbind option_bind].
  rewrite Hp1 in Hp2. destruct (Z.eqb_spec i2 0) as [E2|E2]; cbn [negb]; [|exists b2; auto].
  destruct (cascade_level a tms T 3 2 b2) as (i3 & b3 & -> & Hw3 & Hp3 & Hz3 & Hn3); [done|done|lia|apply Hz2; [done|lia]|done|]. cbn [mbind option_bind].
  rewrite Hp2 in Hp3. destruct (Z.eqb_spec i3 0) as [E3|E3]; cbn [negb]; [|exists b3; auto].
  destruct (cascade_level a tms T 4 3 b3) as (i4 & b4 & -> & Hw4 & Hp4 & _); [done|done|lia|apply Hz3; [done|lia]|done|]. cbn [mbind option_bind].
  rewrite Hp3 in Hp4. exists b4. auto.
Qed.

Lemma u32_low T : u32 T mod 2 ^ 8 = T mod 2 ^ 8.
Proof. pose proof (u32_slot T 0 8 ltac:(lia) ltac:(lia) ltac:(lia)) as H. by rewrite !Z.div_1_r in H. Qed.

(** ** The steps preserve the simulation *)

Lemma sim_tms s a : sim s a -> forall t e D, armed a !! t = Some (e, D) -> exists tm, timers s !! t = Some tm /\ expires tm = e.
Proof. intros [_ Hs] t e D H. destruct (s_armed _ _ Hs _ _ _ H) as (_ & tm & H1 & _ & H2). eauto. Qed.

(** The tick of [T]: the wheel moves on, and the list taken holds the timers
    that are due at [T]. *)
Lemma wheel_begin a tms T b : wheel a T 0 b -> (forall t e D, a !! t = Some (e, D) -> exists tm, tms !! t = Some tm /\ expires tm = e) ->
  let i := Z.to_nat (T mod 2 ^ 8) in
  exists b1 l, cascade_timers tms b (T mod 2 ^ 8) = Some b1 /\ tv1 b1 !! i = Some l /\ timer_jiffies b1 = u32 T /\
    (forall t, t ∈ l -> exists e, a !! t = Some (e, T)) /\
    (let b2 := set_tv (set_timer_jiffies (u32 (T + 1)) b1) 0 (<[i := []]> (tv1 b1)) in
     wheel a (T + 1) 0 b2 /\ l ++ all_timers b2 ≡ₚ all_timers b).
Proof.
  intros Hw Ht i. destruct (wheel_cascades a tms T b Hw Ht) as (b1 & E & Hw1 & Hp1).
  destruct (wheel_take a T 0 b1) as (l & Hl & Hdue & _ & Hrest & Hp); [|lia|by rewrite Z.mod_1_r|].
  { destruct Hw1 as [H1 H2 H3]. split; [done..|]. intros k j x t Hk Hx Hxt. destruct (H3 _ _ _ _ Hk Hx Hxt) as (e & D & Ha & Hpl & Hs).
    exists e, D. split; [done|]. split; [done|]. intros H0. destruct (Hs H0) as (He & HD & Hm). split; [done|]. split; [done|]. lia. }
  change (2 ^ shift 0) with 1 in *. rewrite Z.div_1_r in *. change (bits 0) with 8 in *. fold i in Hl, Hrest, Hp.
  assert (forall D, turn 0 D = D) as Hturn by (intros D; unfold turn; change (2 ^ shift 0) with 1; rewrite Z.div_1_r; lia).
  exists b1, l. split; [done|]. split; [done|]. split; [apply Hw1|]. split.
  { intros t Hx. destruct (Hdue _ Hx) as (e & D & Ha & HD & _). rewrite Hturn in HD. subst D. eauto. }
  split; [|by rewrite <- Hp1, <- Hp]. destruct Hw1 as [H1 H2 H3]. split; [done|..].
  - intros k Hk. rewrite tv_set by lia. case_decide; [subst k; rewrite length_insert; by apply (H2 0%nat)|]. by destruct k as [|[|[|[|[|]]]]]; apply (H2 _ Hk).
  - intros k j x t Hk. rewrite tv_set by lia. case_decide as Ek; intros Hx Hxt.
    + subst k. destruct (Hrest _ _ _ Hx Hxt) as (e & D & Ha & HT). rewrite Hturn in HT.
      apply list_lookup_insert_Some in Hx as [(_ & <- & _)|[_ Hx]]; [by apply elem_of_nil in Hxt|].
      destruct (H3 0%nat _ _ _ Hk Hx Hxt) as (e' & D' & Ha' & [Hpl1 Hpl2] & _). rewrite Ha in Ha'. injection Ha' as <- <-. rewrite Hturn in Hpl1.
      exists e, D. split; [done|]. split; [|done]. split; [|done]. rewrite Hturn. lia.
    + assert (tv b1 k !! j = Some x) as Hx' by (by destruct k as [|[|[|[|]]]]).
      destruct (H3 k _ _ _ Hk Hx' Hxt) as (e & D & Ha & [Hpl1 Hpl2] & Hs). destruct (Hs Ek) as (He & HD & Hm). specialize (Hm ltac:(lia)).
      exists e, D. split; [done|]. split; [split; [lia|done]|]. intros _. split; [done|]. split; [lia|]. lia.
Qed.

Lemma begin_ok s a : sim s a -> work_list s = [] ->
  (forall t e D, armed a !! t = Some (e, D) -> now a <= D) /\
  exists s', begin_tick s = Some s' /\ sim s' (mk_spec (now a + 1) (armed a)) /\ jiffies s' = jiffies s /\ timers s' = timers s.
Proof.
  intros Hs Hwl. pose proof Hs as [[Hw Hnd Hall Hwork] Htm]. rewrite Hwl in Hnd. setoid_rewrite Hwl in Hall. simpl in Hnd, Hall. split.
  { intros t e D Ha. destruct (proj1 (elem_all _ t) (proj2 (Hall t) (mk_is_Some _ _ Ha))) as (k & i & l & Hk & Hl & Ht).
    destruct (w_tv _ _ _ _ Hw _ _ _ _ Hk Hl Ht) as (e' & D' & Ha' & [[Hp _] _] & _). rewrite Ha in Ha'. injection Ha' as <- <-.
    pose proof (turn_le k D). lia. }
  destruct (wheel_begin (armed a) (timers s) (now a) (base s) Hw (sim_tms _ _ Hs)) as (b1 & l & E & Hl & Etj & Hdue & Hw2 & Hp).
  unfold begin_tick. rewrite (w_tj _ _ _ _ Hw). change TVR_MASK with (2 ^ 8 - 1). rewrite land_ones_mod by lia.
  rewrite (u32_low (now a)).
  rewrite E. cbn [mbind option_bind]. rewrite Etj, u32_add_u32_l. cbn [tv1 set_timer_jiffies]. rewrite Hl. cbn [mbind option_bind].
  eexists. split; [done|]. split; [|done]. split; [|by destruct Htm]. split; simpl; [done|..].
  - by rewrite Hp.
  - intros t. by rewrite Hp.
  - intros t Ht. replace (now a + 1 - 1) with (now a) by lia. by apply Hdue.
Qed.

Lemma tv_unlink t b k : tv (base_unlink t b) k = unlink t <$> tv b k.
Proof. by destruct k as [|[|[|[|]]]]. Qed.

Lemma unlink_concat t (v : tvec) : concat (unlink t <$> v) = unlink t (concat v).
Proof. induction v as [|l v IH]; [done|]. cbn. rewrite IH. unfold unlink. by rewrite filter_app. Qed.

Lemma all_unlink t b : all_timers (base_unlink t b) = unlink t (all_timers b).
Proof. unfold all_timers. simpl. rewrite !unlink_concat. unfold unlink. by rewrite !filter_app. Qed.

Lemma elem_unlink t x l : x ∈ unlink t l <-> x <> t /\ x ∈ l.
Proof. unfold unlink. by rewrite list_elem_of_filter. Qed.

Lemma lists_unlink b w a t : lists_ok b w a -> lists_ok (base_unlink t b) (unlink t w) (mk_spec (now a) (delete t (armed a))).
Proof.
  intros [[Htj Hlen Htv] Hnd Hall Hwork]. split; simpl.
  - split; [done|..].
    + intros k Hk. rewrite tv_unlink, length_fmap. by apply Hlen.
    + intros k i l x Hk. rewrite tv_unlink, list_lookup_fmap. destruct (tv b k !! i) as [l'|] eqn:El; [|done]. intros [= <-] [Hne Hx]%elem_unlink.
      destruct (Htv _ _ _ _ Hk El Hx) as (e & D & Ha & H). exists e, D. split; [by rewrite lookup_delete_ne|done].
  - rewrite all_unlink. unfold unlink. rewrite <- filter_app. by apply NoDup_filter.
  - intros x. rewrite all_unlink, elem_of_app, !elem_unlink. destruct (decide (x = t)) as [->|Hne].
    + rewrite lookup_delete_eq. split; [naive_solver|by intros [? [=]]].
    + rewrite lookup_delete_ne by done. rewrite <- Hall, elem_of_app. naive_solver.
  - intros x [Hne Hx]%elem_unlink. rewrite lookup_delete_ne by done. by apply Hwork.
Qed.

Lemma lists_add b w a t e : lists_ok b w a -> armed a !! t = None -> is_u32 e ->
  exists b', internal_add_timer b t e = Some b' /\ lists_ok b' w (mk_spec (now a) (<[t := (e, due_of (now a) e)]> (armed a))).
Proof.
  intros [Hw Hnd Hall Hwork] Hn He. assert (t ∉ w ++ all_timers b) as Ht by (rewrite Hall, Hn; by intros [? [=]]).
  set (a' := <[t := (e, due_of (now a) e)]> (armed a)).
  assert (wheel a' (now a) 0 b) as Hw'.
  { eapply wheel_weaken; [|done]. intros x Hx. unfold a'. rewrite lookup_insert_ne; [done|]. intros ->. apply Ht, elem_of_app. by right. }
  destruct (wheel_add _ _ _ _ t e Hw' He) as (b' & -> & Hw2 & Hp); [apply lookup_insert_eq|]. exists b'. split; [done|].
  assert (w ++ all_timers b' ≡ₚ t :: w ++ all_timers b) as Hp' by (rewrite Hp; solve_Permutation). split; simpl; [done|..].
  - rewrite Hp'. by constructor.
  - intros x. rewrite Hp', elem_of_cons, Hall. unfold a'. destruct (decide (x = t)) as [->|Hne].
    + rewrite lookup_insert_eq. naive_solver.
    + rewrite lookup_insert_ne by done. naive_solver.
  - intros x Hx. unfold a'. rewrite lookup_insert_ne; [by apply Hwork|]. intros ->. apply Ht, elem_of_app. by left.
Qed.

Lemma timers_arm tms a t e fn d D : timers_ok tms a -> is_u32 e ->
  timers_ok (<[t := mk_timer true e fn d]> tms) (mk_spec (now a) (<[t := (e, D)]> (armed a))).
Proof.
  intros [H1 H2] He. split; simpl.
  - intros x e' D'. destruct (decide (x = t)) as [->|]; rewrite ?lookup_insert_eq, ?lookup_insert_ne by done; [|apply H1].
    intros [= <- <-]. split; [done|]. by eexists.
  - intros x tm. destruct (decide (x = t)) as [->|]; rewrite ?lookup_insert_eq, ?lookup_insert_ne by done; [done|apply H2].
Qed.

Lemma timers_disarm tms a t tm : timers_ok tms a -> timer_pending tm = false ->
  timers_ok (<[t := tm]> tms) (mk_spec (now a) (delete t (armed a))).
Proof.
  intros [H1 H2] Hp. split; simpl.
  - intros x e' D'. destruct (decide (x = t)) as [->|]; rewrite ?lookup_delete_eq, ?lookup_delete_ne, ?lookup_insert_ne by done; [done|apply H1].
  - intros x tm'. destruct (decide (x = t)) as [->|]; rewrite ?lookup_insert_eq, ?lookup_insert_ne, ?lookup_delete_ne by done; [by intros _ [= <-]|apply H2].
Qed.

(** The timers that exist and may be armed, which the calls keep. *)
Definition known (s : state) (t : Z) : Prop := exists tm, timers s !! t = Some tm /\ function tm <> 0.
Definition keeps (s s' : state) : Prop := (forall t, known s t -> known s' t) /\ jiffies s' = jiffies s /\ (length (work_list s') <= length (work_list s))%nat.

Lemma pending_armed s a t tm : sim s a -> timers s !! t = Some tm ->
  if timer_pending tm then exists D, armed a !! t = Some (expires tm, D) else armed a !! t = None.
Proof.
  intros [_ [H1 H2]] Ht. destruct (armed a !! t) as [[e D]|] eqn:Ea.
  - destruct (H1 _ _ _ Ea) as (_ & tm' & Ht' & Hp & He). simplify_eq. rewrite Hp. eauto.
  - by rewrite (H2 _ _ Ea Ht).
Qed.

Lemma unlink_length t l : (length (unlink t l) <= length l)%nat.
Proof. apply length_filter. Qed.

Lemma known_insert s t tm fn s' : timers s !! t = Some tm -> timers s' = <[t := fn]> (timers s) -> function fn = function tm ->
  forall x, known s x -> known s' x.
Proof.
  intros Ht E Hf x (tm' & Hx & Hn). unfold known. rewrite E. destruct (decide (x = t)) as [->|]; [|by exists tm'; rewrite lookup_insert_ne].
  exists fn. rewrite lookup_insert_eq, Hf. split; [done|congruence].
Qed.

(** [__mod_timer]: the timer leaves the list it is on and takes its new place. *)
Lemma rearm_ok s a t tm e : sim s a -> timers s !! t = Some tm -> function tm <> 0 -> is_u32 e ->
  exists s', __mod_timer t e s = Some (is_armed a t, s') /\ sim s' (mk_spec (now a) (<[t := (e, due_of (now a) e)]> (armed a))) /\ keeps s s'.
Proof.
  intros Hs Ht Hf He. pose proof (pending_armed _ _ _ _ Hs Ht) as Hp. destruct Hs as [Hl Htm].
  unfold __mod_timer. rewrite Ht. cbn [mbind option_bind]. rewrite (proj2 (Z.eqb_neq _ _) Hf). cbn [BUG_ON mbind option_bind]. unfold is_armed.
  assert (<[t := (e, due_of (now a) e)]> (delete t (armed a)) = <[t := (e, due_of (now a) e)]> (armed a)) as Ei by apply insert_delete_eq.
  destruct (timer_pending tm) eqn:Ep.
  - destruct Hp as [D Hp]. rewrite Hp. unfold detach_timer. rewrite Ht. cbn [mbind option_bind base].
    destruct (lists_add _ _ _ t e (lists_unlink _ _ _ t Hl)) as (b' & -> & Hl'); [apply lookup_delete_eq|done|]. cbn [mbind option_bind armed now] in *. rewrite Ei in Hl'.
    eexists. split; [done|]. split; [split; [done|]|split; [|split; [done|apply unlink_length]]].
    + apply timers_arm; [|done]. simpl. by rewrite insert_id.
    + eapply known_insert; [done| |]; simpl; [apply insert_insert_eq|done].
  - rewrite Hp. cbn [mbind option_bind]. destruct (lists_add _ _ _ t e Hl Hp He) as (b' & -> & Hl'). cbn [mbind option_bind].
    eexists. split; [done|]. split; [split; [done|by apply timers_arm]|split; [|done]]. by eapply known_insert.
Qed.

Lemma mod_ok s a t tm e : sim s a -> timers s !! t = Some tm -> function tm <> 0 -> is_u32 e ->
  exists r s' a', mod_timer t e s = Some (r, s') /\ spec_step a (LMod t e r) a' /\ sim s' a' /\ keeps s s'.
Proof.
  intros Hs Ht Hf He. pose proof (pending_armed _ _ _ _ Hs Ht) as Hp. unfold mod_timer. rewrite Ht. cbn [mbind option_bind].
  rewrite (proj2 (Z.eqb_neq _ _) Hf). cbn [BUG_ON mbind option_bind].
  destruct ((expires tm =? e) && timer_pending tm) eqn:E.
  - apply andb_true_iff in E as [<-%Z.eqb_eq Epe]. rewrite Epe in Hp. destruct Hp as [D Hp]. eexists _, _, _. split; [done|].
    split; [by eapply sp_mod_same|]. split; [done|]. done.
  - destruct (rearm_ok s a t tm e Hs Ht Hf He) as (s' & -> & Hs' & Hk). eexists _, _, _. split; [done|]. split; [|done].
    apply sp_mod. intros D Ha. rewrite Ha in Hp. destruct (timer_pending tm); [destruct Hp; simplify_eq; by rewrite Z.eqb_refl in E|done].
Qed.

Lemma del_ok s a t tm : sim s a -> timers s !! t = Some tm ->
  exists s' , del_timer t s = Some (is_armed a t, s') /\ sim s' (mk_spec (now a) (delete t (armed a))) /\ keeps s s'.
Proof.
  intros Hs Ht. pose proof (pending_armed _ _ _ _ Hs Ht) as Hp. unfold del_timer, is_armed. rewrite Ht. cbn [mbind option_bind].
  destruct (timer_pending tm).
  - destruct Hp as [D ->]. unfold detach_timer. rewrite Ht. cbn [mbind option_bind]. eexists. split; [done|]. destruct Hs as [Hl Htm].
    split; [split; [by apply lists_unlink|by apply timers_disarm]|]. split; [by eapply known_insert|]. split; [done|apply unlink_length].
  - rewrite Hp. eexists. split; [done|]. split; [|done]. destruct a as [n am]. simpl in *. by rewrite delete_id.
Qed.

Lemma fire_ok s a t w : sim s a -> work_list s = t :: w ->
  exists e tm s', armed a !! t = Some (e, now a - 1) /\ timers s !! t = Some tm /\ take_timer s = Some (t, s') /\
    sim s' (mk_spec (now a) (delete t (armed a))) /\ keeps s s' /\ (length (work_list s') < length (work_list s))%nat.
Proof.
  intros [Hl Htm] Hw. destruct (s_work _ _ _ Hl t) as [e Ha]; [rewrite Hw; by left|].
  destruct (s_armed _ _ Htm _ _ _ Ha) as (_ & tm & Ht & _ & _). exists e, tm. unfold take_timer, detach_timer. rewrite Hw. cbn [head mbind option_bind].
  rewrite Ht. cbn [mbind option_bind]. eexists. split; [done|]. split; [done|]. split; [done|].
  split; [split; [simpl; rewrite <- Hw; by apply lists_unlink|by apply timers_disarm]|].
  assert (length (unlink t (t :: w)) <= length w)%nat as Hlen.
  { unfold unlink. rewrite filter_cons_False by (simpl; tauto). apply length_filter. }
  split; [split; [by eapply known_insert|split; [done|]]|]; cbn [work_list]; rewrite ?Hw; simpl length in *; lia.
Qed.

(** Setting [expires] or the function of a timer that is not armed. *)
Lemma set_idle s a t tm : sim s a -> armed a !! t = None -> timer_pending tm = false -> sim (set_timer t tm s) a.
Proof. intros [Hl Htm] Hn Hp. split; [done|]. destruct a as [n am]. rewrite <- (delete_id am t) by done. by apply (timers_disarm _ (mk_spec n am)). Qed.

Lemma add_ok s a t tm e : sim s a -> timers s !! t = Some tm -> timer_pending tm = false -> function tm <> 0 -> is_u32 e ->
  exists s', run_call (Add t e) s = Some s' /\ armed a !! t = None /\ sim s' (mk_spec (now a) (<[t := (e, due_of (now a) e)]> (armed a))) /\ keeps s s'.
Proof.
  intros Hs Ht Hp Hf He. pose proof (pending_armed _ _ _ _ Hs Ht) as Ha. rewrite Hp in Ha. cbn [run_call]. rewrite Ht. cbn [mbind option_bind].
  set (tm1 := mk_timer _ e _ _). set (s1 := set_timer t tm1 s). assert (timers s1 !! t = Some tm1) as Ht1 by apply lookup_insert_eq.
  destruct (rearm_ok s1 a t tm1 e) as (s' & E & Hs' & Hk1 & Hk2 & Hk3); [by apply set_idle|done|done|done|].
  unfold add_timer. rewrite Ht1. cbn [mbind option_bind]. change (timer_pending tm1) with (timer_pending tm). rewrite Hp. cbn [BUG_ON mbind option_bind].
  change (expires tm1) with e. rewrite E. cbn [mbind option_bind]. exists s'. split; [done|]. split; [done|]. split; [done|].
  split; [|done]. intros x Hx. apply Hk1. by apply (known_insert s t tm tm1).
Qed.

Lemma add_inv s t e s' : run_call (Add t e) s = Some s' -> exists tm, timers s !! t = Some tm /\ timer_pending tm = false /\ function tm <> 0.
Proof.
  cbn [run_call]. destruct (timers s !! t) as [tm|] eqn:Ht; [|done]. cbn [mbind option_bind]. intros E. exists tm. split; [done|].
  set (s1 := set_timer t _ s) in E. assert (timers s1 !! t = Some (mk_timer (timer_pending tm) e (function tm) (data tm))) as Ht1 by apply lookup_insert_eq.
  unfold add_timer, __mod_timer in E. rewrite Ht1 in E. cbn [mbind option_bind timer_pending function] in E.
  destruct (timer_pending tm); [done|]. split; [done|]. intros Hf. by rewrite Hf in E.
Qed.

Lemma step_sim s a l s' : sim s a -> step s l s' -> exists a', spec_step a l a' /\ sim s' a'.
Proof.
  intros Hs Hst. destruct Hst as [s t fn d Hn|s t e r s' He E|s t e s' He E|s t r s' E|s s' [= <-]|s s' Hw _ E|s t s' E].
  - assert (armed a !! t = None) as Ha.
    { destruct (armed a !! t) as [[e D]|] eqn:Ea; [|done]. destruct Hs as [_ Htm]. destruct (s_armed _ _ Htm _ _ _ Ea) as (_ & tm & Ht & Hp & _). by rewrite (Hn _ Ht) in Hp. }
    exists a. split; [by constructor|]. by apply set_idle.
  - destruct (timers s !! t) as [tm|] eqn:Ht; [|unfold mod_timer in E; by rewrite Ht in E].
    destruct (decide (function tm = 0)) as [Hf|Hf]; [unfold mod_timer in E; rewrite Ht in E; cbn [mbind option_bind] in E; by rewrite Hf in E|].
    destruct (mod_ok s a t tm e Hs Ht Hf He) as (r' & s1 & a' & E' & Hsp & Hs' & _). rewrite E in E'. injection E' as <- <-. eauto.
  - destruct (add_inv s t e s' E) as (tm & Ht & Hp & Hf). destruct (add_ok s a t tm e Hs Ht Hp Hf He) as (s1 & E' & Ha & Hs' & _).
    rewrite E in E'. injection E' as <-. eexists. split; [by constructor|done].
  - destruct (timers s !! t) as [tm|] eqn:Ht; [|unfold del_timer in E; by rewrite Ht in E].
    destruct (del_ok s a t tm Hs Ht) as (s1 & E' & Hs' & _). rewrite E in E'. injection E' as -> <-. eexists. split; [by constructor|done].
  - exists a. split; [by constructor|done].
  - destruct (begin_ok s a Hs Hw) as (Hdue & s1 & E' & Hs' & _). rewrite E in E'. injection E' as <-. eexists. split; [by constructor|done].
  - destruct (work_list s) as [|t' w] eqn:Hw; [unfold take_timer in E; by rewrite Hw in E|].
    destruct (fire_ok s a t' w Hs Hw) as (e & tm & s1 & Ha & _ & E' & Hs' & _). rewrite E in E'. injection E' as -> <-. eexists. split; [by econstructor|done].
Qed.

(** ** Runs *)

Inductive steps : state -> list label -> state -> Prop :=
| steps_nil s : steps s [] s
| steps_cons s l s1 tr s2 : step s l s1 -> steps s1 tr s2 -> steps s (l :: tr) s2.

Inductive spec_steps : spec -> list label -> spec -> Prop :=
| spec_nil a : spec_steps a [] a
| spec_cons a l a1 tr a2 : spec_step a l a1 -> spec_steps a1 tr a2 -> spec_steps a (l :: tr) a2.

Lemma steps_sim s tr s' : steps s tr s' -> forall a, sim s a -> exists a', spec_steps a tr a' /\ sim s' a'.
Proof.
  induction 1 as [s|s l s1 tr s2 Hst _ IH]; intros a Hs; [exists a; by split; [constructor|]|].
  destruct (step_sim _ _ _ _ Hs Hst) as (a1 & Hsp & Hs1). destruct (IH _ Hs1) as (a2 & Hsp2 & Hs2). exists a2. split; [by econstructor|done].
Qed.

(** The start: an empty wheel at tick [T] and no pending timer. *)
Definition started (s : state) (T : Z) : Prop :=
  base s = init_base (u32 T) /\ work_list s = [] /\ forall t tm, timers s !! t = Some tm -> timer_pending tm = false.

Lemma init_empty j : all_timers (init_base j) = [].
Proof. done. Qed.

Lemma started_sim s T : started s T -> sim s (mk_spec T ∅).
Proof.
  intros (Hb & Hw & Hp). assert (forall t, t ∉ all_timers (init_base (u32 T))) as Hn by (intros t; rewrite init_empty; apply not_elem_of_nil).
  split; [rewrite Hb, Hw|]; split; simpl.
  - split; [done|..].
    + intros k Hk. by destruct k as [|[|[|[|[|]]]]]; [..|lia].
    + intros k i l t Hk Hl Ht. destruct (Hn t). apply elem_all. eauto 8.
  - rewrite init_empty. constructor.
  - intros t. rewrite lookup_empty. split; [intros Ht; by destruct (Hn t)|by intros [? [=]]].
  - intros t Ht. by apply elem_of_nil in Ht.
  - intros t e D. by rewrite lookup_empty.
  - intros t tm _. apply Hp.
Qed.

(** The ticks begun in a run. *)
Fixpoint begins (tr : list label) : Z :=
  match tr with [] => 0 | LBegin :: tr => 1 + begins tr | _ :: tr => begins tr end.

Lemma begins_app tr1 tr2 : begins (tr1 ++ tr2) = begins tr1 + begins tr2.
Proof. induction tr1 as [|l tr1 IH]; [done|]. destruct l; simpl; lia. Qed.

Definition touches (t : Z) (l : label) : Prop :=
  match l with LMod x _ _ | LAdd x _ | LDel x _ => x = t | _ => False end.

Lemma spec_now a tr a' : spec_steps a tr a' -> now a' = now a + begins tr.
Proof. induction 1 as [|a l a1 tr a2 Hst _ IH]; simpl; [lia|]. destruct Hst; simpl in *; lia. Qed.

Lemma spec_app a tr1 tr2 a' : spec_steps a (tr1 ++ tr2) a' -> exists a1, spec_steps a tr1 a1 /\ spec_steps a1 tr2 a'.
Proof.
  revert a. induction tr1 as [|l tr1 IH]; intros a H; [exists a; by split; [constructor|]|].
  inversion H as [|? ? a1 ? ? Hst H']; subst. destruct (IH _ H') as (a2 & H1 & H2). exists a2. split; [by econstructor|done].
Qed.

(** A timer that is not armed does not fire. *)
Lemma spec_idle a tr a' t : spec_steps a tr a' -> armed a !! t = None -> Forall (fun l => ~ touches t l) tr -> LFire t ∉ tr.
Proof.
  induction 1 as [|a l a1 tr a2 Hst _ IH]; intros Ha Htr; [apply not_elem_of_nil|]. apply Forall_cons in Htr as [Hl Htr].
  apply not_elem_of_cons. destruct Hst as [| |? x| x| ? x| | |? x]; simpl in *; (split; [congruence|]); apply IH; simpl; try done.
  - by rewrite lookup_insert_ne.
  - by rewrite lookup_insert_ne.
  - by rewrite lookup_delete_ne.
  - by apply lookup_delete_None; right.
Qed.

(** The life of an armed timer that is left alone: it fires once, at the tick
    at which it is due, and the clock does not pass that tick without it. *)
Lemma spec_life a tr a' t e D : spec_steps a tr a' -> armed a !! t = Some (e, D) -> now a <= D + 1 -> Forall (fun l => ~ touches t l) tr ->
  (LFire t ∉ tr /\ now a' <= D + 1) \/
  (exists tr3 tr4, tr = tr3 ++ LFire t :: tr4 /\ now a + begins tr3 = D + 1 /\ LFire t ∉ tr3 /\ LFire t ∉ tr4).
Proof.
  intros Hsteps. revert e D. induction Hsteps as [|a l a1 tr a2 Hst Hrest IH]; intros e D Ha Hn Htr; [left; by split; [apply not_elem_of_nil|]|].
  apply Forall_cons in Htr as [Hl Htr].
  assert (l = LFire t \/ l <> LFire t /\ armed a1 !! t = Some (e, D) /\ now a1 <= D + 1 /\ now a1 = now a + begins [l]) as [->|(Hne & Ha1 & Hn1 & En)].
  { destruct Hst as [| |? x| x| ? x| |? Hb|a x]; simpl in Hl |- *; try (right; split; [done|]; simpl; rewrite ?lookup_insert_ne, ?lookup_delete_ne by done; split; [done|]; lia).
    - right. split; [done|]. split; [done|]. specialize (Hb _ _ _ Ha). lia.
    - destruct (decide (x = t)) as [->|]; [by left|right]. split; [congruence|]. rewrite lookup_delete_ne by done. split; [done|]. lia. }
  - right. exists [], tr. inversion Hst as [| | | | | | |? ? e' Ha']; subst. rewrite Ha in Ha'. injection Ha' as _ ->. split; [done|]. simpl. split; [lia|].
    split; [apply not_elem_of_nil|]. eapply spec_idle; [done| |done]. simpl. apply lookup_delete_eq.
  - destruct (IH e D Ha1 Hn1 Htr) as [[Hf Hd]|(tr3 & tr4 & -> & Hb & H3 & H4)].
    + left. split; [|done]. by apply not_elem_of_cons.
    + right. exists (l :: tr3), tr4. split; [done|]. split; [|by split; [apply not_elem_of_cons|]]. replace (begins (l :: tr3)) with (begins [l] + begins tr3) by (rewrite <- begins_app; done). lia.
Qed.

(** ** [__run_timers] with handlers *)

(** A handler names timers that exist and that have a function and adds only timers that
    are not pending; timer interrupts come in while it runs, up to the jiffy [L]. *)
Definition call_ok (L : Z) (c : call) (s : state) : Prop :=
  match c with
  | Mod t e => is_u32 e /\ known s t
  | Add t e => is_u32 e /\ exists tm, timers s !! t = Some tm /\ function tm <> 0 /\ timer_pending tm = false
  | Del t => is_Some (timers s !! t)
  | Tick => jiffies s <> u32 L
  end.

Fixpoint calls_ok (L : Z) (l : list call) (s : state) : Prop :=
  match l with [] => True | c :: l => call_ok L c s /\ forall s', run_call c s = Some s' -> calls_ok L l s' end.

(** The jiffy is [J], and it may advance to [L]. *)
Definition clock (L J : Z) (s : state) : Prop := jiffies s = u32 J /\ J <= L < J + 2 ^ 31.

Lemma clock_tick L J s : clock L J s -> jiffies s <> u32 L -> clock L (J + 1) (mk_state (base s) (timers s) (work_list s) (u32 (jiffies s + 1))).
Proof. intros [Hj HL] Hne. split; [by rewrite Hj, u32_add_u32_l|]. assert (J <> L) by (intros ->; done). lia. Qed.

Section Handlers.
Context (handler : Z -> Z -> state -> list call) (L : Z).

(** A run of calls: the clock moves on, the wheel does not. *)
Definition runs (J : Z) (s : state) (a : spec) (o : option state) : Prop :=
  exists s' a' J', o = Some s' /\ sim s' a' /\ now a' = now a /\ (length (work_list s') <= length (work_list s))%nat /\ J <= J' /\ clock L J' s'.

Lemma call_run c s a J : sim s a -> clock L J s -> call_ok L c s -> runs J s a (run_call c s).
Proof.
  intros Hs HJ. assert (forall s' a', run_call c s = Some s' -> sim s' a' -> now a' = now a -> keeps s s' -> runs J s a (run_call c s)) as done'.
  { intros s' a' E Hs' Hn (_ & Hj & Hl). exists s', a', J. split; [done|]. split; [done|]. split; [done|]. split; [done|]. split; [lia|]. split; [by rewrite Hj; apply HJ|apply HJ]. }
  destruct c as [t e|t e|t|]; cbn [call_ok].
  - intros [He (tm & Ht & Hf)]. destruct (mod_ok s a t tm e Hs Ht Hf He) as (r & s' & a' & E & Hsp & Hs' & Hk). apply (done' s' a'); [cbn [run_call]; by rewrite E|done|by inversion Hsp|done].
  - intros [He (tm & Ht & Hf & Hp)]. destruct (add_ok s a t tm e Hs Ht Hp Hf He) as (s' & E & _ & Hs' & Hk). by eapply done'.
  - intros [tm Ht]. destruct (del_ok s a t tm Hs Ht) as (s' & E & Hs' & Hk). eapply (done' s'); [cbn [run_call]; by rewrite E|done|done|done].
  - intros Hne. eexists _, a, (J + 1). split; [reflexivity|]. split; [done|]. split; [done|]. split; [done|]. split; [lia|by apply clock_tick].
Qed.

Lemma calls_run l : forall s a J, sim s a -> clock L J s -> calls_ok L l s -> runs J s a (run_calls l s).
Proof.
  induction l as [|c l IH]; intros s a J Hs HJ Hok; [exists s, a, J; split; [done|]; split; [done|]; split; [done|]; split; [done|]; split; [lia|done]|]. destruct Hok as [Hc Hl].
  destruct (call_run c s a J Hs HJ Hc) as (s1 & a1 & J1 & E1 & Hs1 & Hn1 & Hl1 & HJ1 & HC1). destruct (IH s1 a1 J1 Hs1 HC1 (Hl _ E1)) as (s2 & a2 & J2 & E2 & Hs2 & Hn2 & Hl2 & HJ2 & HC2).
  exists s2, a2, J2. cbn [run_calls]. rewrite E1. cbn [mbind option_bind]. split; [done|]. split; [done|]. split; [congruence|]. split; [lia|]. split; [lia|done].
Qed.

Hypothesis handler_ok : forall fn d s a, sim s a -> calls_ok L (handler fn d s) s.

Lemma work_run n : forall s a J, sim s a -> clock L J s -> (length (work_list s) <= n)%nat ->
  exists s' a' J', run_work handler n s = Some s' /\ sim s' a' /\ now a' = now a /\ work_list s' = [] /\ J <= J' /\ clock L J' s'.
Proof using handler_ok.
  induction n as [|n IH]; intros s a J Hs HJ Hn; cbn [run_work]; destruct (work_list s) as [|t w] eqn:Hw; try (exists s, a, J; split; [done|]; split; [done|]; split; [done|]; split; [done|]; split; [lia|done]); [simpl in Hn; lia|].
  destruct (fire_ok s a t w Hs Hw) as (e & tm & s1 & _ & Ht & -> & Hs1 & (_ & Hj1 & _) & Hlen). rewrite Ht. cbn [mbind option_bind]. assert (clock L J s1) as HJ1 by (split; [by rewrite Hj1; apply HJ|apply HJ]).
  destruct (calls_run _ s1 _ J Hs1 HJ1 (handler_ok (function tm) (data tm) s1 _ Hs1)) as (s2 & a2 & J2 & -> & Hs2 & Hn2 & Hl2 & HJ2 & HC2). cbn [mbind option_bind].
  destruct (IH s2 a2 J2 Hs2 HC2) as (s3 & a3 & J3 & E3 & Hs3 & Hn3 & Hw3 & HJ3 & HC3); [rewrite Hw in Hlen; simpl in Hlen, Hn; lia|].
  exists s3, a3, J3. split; [done|]. split; [done|]. simpl in Hn2. split; [congruence|]. split; [done|]. split; [lia|done].
Qed.

(** The test of the outer loop. *)
Lemma behind s a J : sim s a -> jiffies s = u32 J -> now a <= J + 1 < now a + 2 ^ 31 -> time_after_eq (jiffies s) (timer_jiffies (base s)) = (now a <=? J).
Proof.
  intros Hs Hj Hr. unfold time_after_eq. rewrite Hj, (w_tj _ _ _ _ (s_wheel _ _ _ (proj1 Hs))). unfold s32. rewrite u32_sub_u32_l, u32_sub_u32_r.
  destruct (Z.leb_spec (now a) J); [rewrite u32_small by (unfold is_u32; lia); zcases; lia|]. by replace (J - now a) with (-1) by lia.
Qed.

Lemma run_timers_run n : forall s a J, sim s a -> work_list s = [] -> clock L J s -> now a <= J + 1 -> L + 1 < now a + 2 ^ 31 -> L + 1 - now a <= Z.of_nat n ->
  exists s' a' J', __run_timers handler n s = Some s' /\ sim s' a' /\ work_list s' = [] /\ J <= J' /\ clock L J' s' /\ now a' = J' + 1.
Proof using handler_ok.
  induction n as [|n IH]; intros s a J Hs Hw HJ Hr HL Hn; cbn [__run_timers]; rewrite (behind s a J Hs) by (apply HJ || destruct HJ; lia).
  all: destruct (Z.leb_spec (now a) J) as [Hle|Hgt]; [|exists s, a, J; split; [done|]; split; [done|]; split; [done|]; split; [lia|]; split; [done|lia]].
  - destruct HJ. lia.
  - destruct (begin_ok s a Hs Hw) as (_ & s1 & -> & Hs1 & Hj1 & _). cbn [mbind option_bind]. assert (clock L J s1) as HJ1 by (split; [by rewrite Hj1; apply HJ|apply HJ]).
    destruct (work_run _ s1 _ J Hs1 HJ1 (Nat.le_refl _)) as (s2 & a2 & J2 & -> & Hs2 & Hn2 & Hw2 & HJ2 & HC2). cbn [mbind option_bind]. simpl in Hn2.
    destruct (IH s2 a2 J2) as (s3 & a3 & J3 & E3 & Hs3 & Hw3 & HJ3 & HC3 & Hn3); [done|done|done|lia|lia|lia|]. exists s3, a3, J3. split; [done|]. split; [done|]. split; [done|]. split; [lia|done].
Qed.
End Handlers.

(** ** Claims *)

(** C23: the timer wheel implements the map from timers to due times: from an
    empty wheel, every run of calls, ticks and expiries, interleaved in any order,
    is a run of the specification, in which a timer fires only in the tick at
    which it is due and no tick passes while a timer that is due remains; and
    in the state reached every armed timer is on exactly one list, in the place
    of its due time. *)
Theorem timer_wheel_refines s T tr s' : started s T -> steps s tr s' -> exists a', spec_steps (mk_spec T ∅) tr a' /\ sim s' a'.
Proof. intros Hst Htr. eapply steps_sim; [done|by apply started_sim]. Qed.

(** C24: a timer that is armed when it is inactive and then left alone fires
    exactly once, in the tick in which it expires (the next tick if [expires] is
    in the past), however often it has been cascaded; and once the wheel has
    passed that tick it has fired. *)
Theorem timer_on_time s T tr1 t e tr2 s' : started s T -> steps s (tr1 ++ LMod t e 0 :: tr2) s' -> Forall (fun l => ~ touches t l) tr2 ->
  let D := due_of (T + begins tr1) e in
  (forall tr3 tr4, tr2 = tr3 ++ LFire t :: tr4 -> T + begins (tr1 ++ tr3) = D + 1 /\ LFire t ∉ tr3 /\ LFire t ∉ tr4) /\
  (D + 1 < T + begins (tr1 ++ tr2) -> LFire t ∈ tr2).
Proof.
  intros Hst Htr Hq D. destruct (steps_sim _ _ _ Htr _ (started_sim _ _ Hst)) as (a' & Hsp & _).
  apply spec_app in Hsp as (a1 & H1 & H2). pose proof (spec_now _ _ _ H1) as En. simpl in En.
  inversion H2 as [|? ? a2 ? ? Hmod H3 Ea El]; subst. inversion Hmod as [| |? ? ? Hna Ea El| | | | |]; subst.
  destruct (spec_life _ _ _ t e D H3) as [[Hf Hd]|(tr3 & tr4 & -> & Hb & Hn3 & Hn4)]; simpl in *.
  - unfold D. rewrite <- En. apply lookup_insert_eq.
  - unfold D. rewrite <- En, due_of_diff. pose proof (u32_range (e - now a1)) as Hr. unfold is_u32 in Hr. zcases; lia.
  - done.
  - pose proof (spec_now _ _ _ H3) as En'. simpl in En'. rewrite begins_app. split; [|lia]. intros tr3 tr4 ->. destruct Hf. apply elem_of_app. right. by left.
  - split; [|intros _; apply elem_of_app; right; by left]. intros tr3' tr4' E. rewrite begins_app.
    assert (tr3 = tr3' /\ tr4 = tr4') as [-> ->]; [|split; [lia|done]].
    clear -E Hn3 Hn4. revert tr3' E Hn3. induction tr3 as [|x tr3 IH]; intros [|y tr3'] E Hn; simplify_eq/=; [done|..].
    + destruct Hn4. apply elem_of_app. right. by left.
    + destruct Hn. by left.
    + apply not_elem_of_cons in Hn as [_ Hn]. by destruct (IH tr3') as [-> ->].
Qed.

(** C25: [__run_timers] returns, for all handlers that call the timer interface on
    existing timers, re-arming their own and others included, while timer interrupts
    come in during the handlers, as long as these bring the clock to no later jiffy than
    some [L]: when it returns, the wheel stands behind the jiffy [J'] that the clock has
    then reached, and no timer that expires up to it is pending any more.  The loop runs
    at most once for each jiffy up to [L].  (The bound is there because the loop reads the
    clock again in every round.) *)
Theorem run_timers_complete handler L s a J n : (forall fn d s a, sim s a -> calls_ok L (handler fn d s) s) ->
  sim s a -> work_list s = [] -> jiffies s = u32 J -> now a <= J + 1 -> J <= L -> L + 1 < now a + 2 ^ 31 -> L + 1 - now a <= Z.of_nat n ->
  exists s' a' J', __run_timers handler n s = Some s' /\ sim s' a' /\ J <= J' <= L /\ jiffies s' = u32 J' /\ now a' = J' + 1 /\
    forall t e D, armed a' !! t = Some (e, D) -> J' < D.
Proof.
  intros Hh Hs Hw Hj Hr HJL HL Hn. destruct (run_timers_run handler L Hh n s a J Hs Hw) as (s' & a' & J' & E & Hs' & Hw' & HJ' & [Hc1 Hc2] & Hn'); [split; [done|lia]|done|done|done|].
  exists s', a', J'. split; [done|]. split; [done|]. split; [lia|]. split; [done|]. split; [done|]. intros t e D Ha. destruct (begin_ok s' a' Hs' Hw') as [Hdue _]. specialize (Hdue _ _ _ Ha). lia.
Qed.

(** ** Examples *)

Definition ex_state (j : Z) : state := mk_state (init_base 0) (<[1 := mk_timer false 0 16 1]> (<[2 := mk_timer false 0 16 2]> ∅)) [] j.
Definition at_jiffy (j : Z) (s : state) : state := mk_state (base s) (timers s) (work_list s) j.
Definition no_calls (fn d : Z) (s : state) : list call := [].

(** timers that expire in the same jiffy do not run in the order in which
    they were added: a timer that waits in the second vector is appended, when
    that is cascaded, behind one that was added later but nearer to the
    expiry. *)
Theorem timers_not_fifo : exists s1 s2 s3 s4 s5,
  mod_timer 1 300 (ex_state 0) = Some (0, s1) /\ __run_timers no_calls 100 (at_jiffy 99 s1) = Some s2 /\
  mod_timer 2 300 s2 = Some (0, s3) /\ __run_timers no_calls 200 (at_jiffy 299 s3) = Some s4 /\
  begin_tick s4 = Some s5 /\ work_list s5 = [2; 1].
Proof. do 5 eexists. do 5 (split; [vm_compute; reflexivity|]). vm_compute. reflexivity. Qed.

Lemma ex_started j : started (ex_state j) 0.
Proof.
  split; [done|]. split; [done|]. intros t tm Ht. cbn [timers ex_state] in Ht. apply lookup_insert_Some in Ht as [[_ <-]|[_ Ht]]; [done|].
  apply lookup_insert_Some in Ht as [[_ <-]|[_ Ht]]; [done|]. by rewrite lookup_empty in Ht.
Qed.

Definition ex_trace : list label := [LBegin; LBegin; LTick; LMod 2 1 0; LBegin; LFire 1; LFire 2; LBegin].

Lemma ex_steps : exists s', steps (ex_state 3) (LMod 1 2 0 :: ex_trace) s'.
Proof.
  eexists. econstructor; [apply st_mod; [done|vm_compute; reflexivity]|].
  do 2 (econstructor; [apply st_begin; vm_compute; reflexivity|]).
  econstructor; [apply st_tick; vm_compute; reflexivity|].
  econstructor; [apply st_mod; [done|vm_compute; reflexivity]|].
  econstructor; [apply st_begin; vm_compute; reflexivity|]. do 2 (econstructor; [apply st_fire; vm_compute; reflexivity|]).
  econstructor; [apply st_begin; vm_compute; reflexivity|].
  constructor.
Qed.

Lemma timer_wheel_refines_witness : exists s' a', spec_steps (mk_spec 0 ∅) (LMod 1 2 0 :: ex_trace) a' /\ sim s' a'.
Proof. destruct ex_steps as [s' H]. exists s'. apply (timer_wheel_refines (ex_state 3) 0 (LMod 1 2 0 :: ex_trace)); [apply ex_started|exact H]. Defined.

Lemma timer_on_time_witness :
  (forall tr3 tr4, ex_trace = tr3 ++ LFire 1 :: tr4 -> 0 + begins tr3 = 3 /\ LFire 1 ∉ tr3 /\ LFire 1 ∉ tr4) /\ (3 < 0 + begins ex_trace -> LFire 1 ∈ ex_trace).
Proof.
  destruct ex_steps as [s' H]. apply (timer_on_time (ex_state 3) 0 [] 1 2 ex_trace s'); [apply ex_started|exact H|].
  unfold ex_trace. rewrite !Forall_cons. cbn [touches]. repeat split; try constructor; lia.
Defined.

(** A handler that re-arms the timer given as its argument, and during which the clock
    advances up to jiffy 12. *)
Definition periodic (fn d : Z) (s : state) : list call :=
  match timers s !! d with
  | Some tm => if function tm =? 0 then [] else Mod d (u32 (jiffies s + 3)) :: (if jiffies s =? 12 then [] else [Tick])
  | None => []
  end.

Lemma mod_jiffies t e s s' : run_call (Mod t e) s = Some s' -> jiffies s' = jiffies s.
Proof.
  cbn [run_call]. unfold mod_timer, __mod_timer. destruct (timers s !! t) as [tm|]; [|done]. cbn [mbind option_bind]. destruct (BUG_ON (function tm =? 0)); [|done]. cbn [mbind option_bind].
  destruct ((expires tm =? e) && timer_pending tm); [by intros [= <-]|]. unfold detach_timer. destruct (timer_pending tm); [destruct (timers s !! t); [|done]|]; cbn [mbind option_bind]; destruct (internal_add_timer _ _ _); cbn [mbind option_bind]; try done; by intros [= <-].
Qed.

Lemma periodic_ok fn d s a : sim s a -> calls_ok 12 (periodic fn d s) s.
Proof.
  intros _. unfold periodic. destruct (timers s !! d) as [tm|] eqn:Et; [|done]. destruct (Z.eqb_spec (function tm) 0); [done|].
  split; [split; [apply u32_range|by exists tm]|]. intros s' E%mod_jiffies. destruct (Z.eqb_spec (jiffies s) 12); [done|]. split; [cbn [call_ok]; by rewrite E|done].
Qed.

Lemma run_timers_complete_witness : exists r s1 s' a' J', mod_timer 1 4 (ex_state 10) = Some (r, s1) /\ __run_timers periodic 13 s1 = Some s' /\
  sim s' a' /\ 10 <= J' <= 12 /\ now a' = J' + 1 /\ forall t e D, armed a' !! t = Some (e, D) -> J' < D.
Proof.
  destruct (mod_ok (ex_state 10) (mk_spec 0 ∅) 1 (mk_timer false 0 16 1) 4) as (r & s1 & a1 & E & Hsp & Hs & (_ & Hj & Hw)); [apply started_sim, ex_started|done|done|done|].
  assert (now a1 = 0) as Hn by (by inversion Hsp). exists r, s1.
  destruct (run_timers_complete periodic 12 s1 a1 10 13) as (s' & a' & J' & H1 & H2 & H3 & _ & H4); [exact periodic_ok|done| |done|rewrite Hn; done|done|rewrite Hn; done|rewrite Hn; done|by exists s', a', J'].
  simpl in Hw. destruct (work_list s1); [done|simpl in Hw; lia].
Defined.

End TimerProof.
