(* ===== verification/Locks.v ===== *)
(** * File locks: [fs/locks.c]

    The list of locks of an inode, the POSIX byte-range locks that
    [__posix_lock_file] merges, splits and replaces in it, the BSD locks of
    [flock_lock_file], the requests that wait for a lock, and the detection of
    deadlocks.  The kernel lock makes every operation atomic. *)

From S2P Require Import Prelude.

Module Locks.

Definition FL_POSIX : Z := 1.
Definition FL_FLOCK : Z := 2.
Definition FL_ACCESS : Z := 8.
Definition FL_EXISTS : Z := 16.
Definition FL_LEASE : Z := 32.
Definition FL_SLEEP : Z := 128.
Definition F_RDLCK : Z := 0.
Definition F_WRLCK : Z := 1.
Definition F_UNLCK : Z := 2.
Definition FL_CLOSE : Z := 64.
Definition LOCK_SH : Z := 1.
Definition LOCK_EX : Z := 2.
Definition LOCK_UN : Z := 8.
Definition LOCK_MAND : Z := 32.
Definition LOCK_RW : Z := 192.
Definition SEEK_SET : Z := 0.
Definition SEEK_CUR : Z := 1.
Definition SEEK_END : Z := 2.
Definition EAGAIN : Z := 11.
Definition ENOMEM : Z := 12.
Definition EINVAL : Z := 22.
Definition ENOENT : Z := 2.
Definition ENOLCK : Z := 37.
Definition EDEADLK : Z := 35.
Definition EOVERFLOW : Z := 75.
Definition OFFSET_MAX : Z := 2 ^ 63 - 1.
Definition OFFT_OFFSET_MAX : Z := 2 ^ 31 - 1.

(** [loff_t]. *)
Definition s64 (z : Z) : Z := let m := u64 z in if m <? 2 ^ 63 then m else m - 2 ^ 64.

(** [fl_lmops]: none, or the operations of the NFS lock manager. *)
Inductive lmops := no_lmops | nlmsvc_lock_operations.

(** [struct file_lock] with its address.  [fl_block] is the list of the requests
    that wait for the lock.  The chain [fl_next] of the locks of an inode is the
    list that holds them; the field is what it is in a waiting request: the lock
    that blocks it, 0 if none. *)
Record file_lock := mk_lock {
  fl_addr : Z; fl_owner : Z; fl_pid : Z; fl_lmops : lmops; fl_file : Z; fl_flags : Z; fl_type : Z;
  fl_start : Z; fl_end : Z; fl_block : list Z; fl_next : Z }.

Definition set_start (z : Z) (f : file_lock) := mk_lock (fl_addr f) (fl_owner f) (fl_pid f) (fl_lmops f) (fl_file f) (fl_flags f) (fl_type f) z (fl_end f) (fl_block f) (fl_next f).
Definition set_end (z : Z) (f : file_lock) := mk_lock (fl_addr f) (fl_owner f) (fl_pid f) (fl_lmops f) (fl_file f) (fl_flags f) (fl_type f) (fl_start f) z (fl_block f) (fl_next f).
Definition set_type (z : Z) (f : file_lock) := mk_lock (fl_addr f) (fl_owner f) (fl_pid f) (fl_lmops f) (fl_file f) (fl_flags f) z (fl_start f) (fl_end f) (fl_block f) (fl_next f).
Definition set_block (l : list Z) (f : file_lock) := mk_lock (fl_addr f) (fl_owner f) (fl_pid f) (fl_lmops f) (fl_file f) (fl_flags f) (fl_type f) (fl_start f) (fl_end f) l (fl_next f).
Definition set_next (z : Z) (f : file_lock) := mk_lock (fl_addr f) (fl_owner f) (fl_pid f) (fl_lmops f) (fl_file f) (fl_flags f) (fl_type f) (fl_start f) (fl_end f) (fl_block f) z.

Definition set_lmops (z : lmops) (f : file_lock) := mk_lock (fl_addr f) (fl_owner f) (fl_pid f) z (fl_file f) (fl_flags f) (fl_type f) (fl_start f) (fl_end f) (fl_block f) (fl_next f).

Definition has_flag (f : file_lock) (b : Z) : bool := negb (Z.land (fl_flags f) b =? 0).
Definition IS_POSIX (f : file_lock) : bool := has_flag f FL_POSIX.
Definition IS_FLOCK (f : file_lock) : bool := has_flag f FL_FLOCK.
Definition IS_LEASE (f : file_lock) : bool := has_flag f FL_LEASE.

(** [locks_copy_lock] to a new lock at address [a]; the private data of file
    systems is not modelled. *)
Definition locks_copy_lock (a : Z) (f : file_lock) : file_lock :=
  mk_lock a (fl_owner f) (fl_pid f) (fl_lmops f) (fl_file f) (fl_flags f) (fl_type f) (fl_start f) (fl_end f) [] 0.

Definition locks_overlap (f1 f2 : file_lock) : bool := (fl_start f2 <=? fl_end f1) && (fl_start f1 <=? fl_end f2).

(** [fs/lockd/svclock.c]. *)
Definition nlmsvc_same_owner (f1 f2 : file_lock) : bool := (fl_owner f1 =? fl_owner f2) && (fl_pid f1 =? fl_pid f2).

Definition posix_same_owner (f1 f2 : file_lock) : bool :=
  match fl_lmops f1 with
  | nlmsvc_lock_operations => match fl_lmops f2 with nlmsvc_lock_operations => nlmsvc_same_owner f1 f2 | _ => false end
  | no_lmops => fl_owner f1 =? fl_owner f2
  end.

Definition locks_conflict (caller_fl sys_fl : file_lock) : bool :=
  if fl_type sys_fl =? F_WRLCK then true else if fl_type caller_fl =? F_WRLCK then true else false.

Definition posix_locks_conflict (caller_fl sys_fl : file_lock) : bool :=
  if negb (IS_POSIX sys_fl) || posix_same_owner caller_fl sys_fl then false
  else if negb (locks_overlap caller_fl sys_fl) then false
  else locks_conflict caller_fl sys_fl.

Definition flock_locks_conflict (caller_fl sys_fl : file_lock) : bool :=
  if negb (IS_FLOCK sys_fl) || (fl_file caller_fl =? fl_file sys_fl) then false
  else if negb (Z.land (fl_type caller_fl) LOCK_MAND =? 0) || negb (Z.land (fl_type sys_fl) LOCK_MAND =? 0) then false
  else locks_conflict caller_fl sys_fl.

(** ** Waiting requests *)

(** The requests that wait or have waited, by address, the global lists, and
    the requests woken so far. *)
Record waits := mk_waits { waiters : gmap Z file_lock; blocked_list : list Z; file_lock_list : list Z; woken : list Z }.

Definition remove (a : Z) (l : list Z) : list Z := filter (.≠ a) l.

(** [__locks_delete_block], for a waiter that its blocker's list is rid of. *)
Definition __locks_delete_block (a : Z) (w : waits) : option waits :=
  f ← waiters w !! a;
  Some (mk_waits (<[a := set_next 0 f]> (waiters w)) (remove a (blocked_list w)) (file_lock_list w) (woken w)).

(** The loop of [locks_wake_up_blocks] over the list [fl_block]; [fl_notify] and
    [wake_up] both make the waiter try again. *)
Fixpoint wake_up_blocks (l : list Z) (w : waits) : option waits :=
  match l with
  | [] => Some w
  | a :: l =>
      w ← __locks_delete_block a w;
      wake_up_blocks l (mk_waits (waiters w) (blocked_list w) (file_lock_list w) (woken w ++ [a]))
  end.

Definition locks_wake_up_blocks (f : file_lock) (w : waits) : option (file_lock * waits) :=
  w ← wake_up_blocks (fl_block f) w; Some (set_block [] f, w).

(** [locks_insert_block]: the new blocker and the new state.  A request that is
    on a list already is a bug. *)
Definition locks_insert_block (blocker waiter : file_lock) (w : waits) : option (file_lock * waits) :=
  _ ← BUG_ON (negb (fl_next waiter =? 0));
  Some (set_block (fl_block blocker ++ [fl_addr waiter]) blocker,
        mk_waits (<[fl_addr waiter := set_next (fl_addr blocker) waiter]> (waiters w))
          (if IS_POSIX blocker then fl_addr waiter :: blocked_list w else blocked_list w) (file_lock_list w) (woken w)).

(** [locks_delete_lock], after the lock has left the list of the inode. *)
Definition locks_delete_lock (f : file_lock) (w : waits) : option waits :=
  let w := mk_waits (waiters w) (blocked_list w) (remove (fl_addr f) (file_lock_list w)) (woken w) in
  '(_, w) ← locks_wake_up_blocks f w; Some w.

(** The part of [locks_insert_lock] that concerns the global list. *)
Definition link_lock (f : file_lock) (w : waits) : waits :=
  mk_waits (waiters w) (blocked_list w) (fl_addr f :: file_lock_list w) (woken w).

(** The locks of the inode, those of all other inodes, and the waiting
    requests. *)
Record state := mk_state { i_flock : list file_lock; elsewhere : list file_lock; ws : waits }.

Definition at_addr (a : Z) (f : file_lock) : bool := fl_addr f =? a.
Definition find_lock (a : Z) (l : list file_lock) : option file_lock := List.find (at_addr a) l.
Definition upd_lock (a : Z) (g : file_lock -> file_lock) (l : list file_lock) : list file_lock :=
  (fun f => if fl_addr f =? a then g f else f) <$> l.

(** ** Deadlock detection *)

Definition blocked_requests (w : waits) : list file_lock := omap (fun a => waiters w !! a) (blocked_list w).

(** The loop over [next_task]; every round follows one edge from the owner of a
    lock to the lock that this owner waits for. *)
Fixpoint deadlock_loop (fuel : nat) (s : state) (caller_fl block_fl : file_lock) : option bool :=
  if posix_same_owner caller_fl block_fl then Some true else
  match List.find (fun f => posix_same_owner f block_fl) (blocked_requests (ws s)) with
  | None => Some false
  | Some f =>
      match fuel with
      | O => None
      | S fuel => b ← find_lock (fl_next f) (i_flock s ++ elsewhere s); deadlock_loop fuel s caller_fl b
      end
  end.

Definition posix_locks_deadlock (s : state) (caller_fl block_fl : file_lock) : option bool :=
  deadlock_loop (length (blocked_list (ws s))) s caller_fl block_fl.

Definition posix_test_lock (s : state) (f : file_lock) : bool * file_lock :=
  match List.find (fun cfl => IS_POSIX cfl && posix_locks_conflict cfl f) (i_flock s) with
  | Some cfl => (true, mk_lock (fl_addr f) (fl_owner cfl) (fl_pid cfl) no_lmops 0 (fl_flags cfl) (fl_type cfl) (fl_start cfl) (fl_end cfl) (fl_block f) (fl_next f))
  | None => (false, set_type F_UNLCK f)
  end.

(** ** [__posix_lock_file] *)

(** The state of the loop over the locks of the owner: the locks before
    [before] and those from [*before] on, the caller's structure, the lock that
    [request] points to instead once the request has become a lock of the list,
    [added], [left] and [right] (addresses, 0 for null). *)
Record loop := mk_loop {
  passed : list file_lock; rest : list file_lock; caller : file_lock; request : option Z; added : bool;
  left : Z; right : Z; lw : waits }.

Definition get_request (c : loop) : option file_lock :=
  match request c with None => Some (caller c) | Some a => find_lock a (passed c) end.
Definition upd_request (g : file_lock -> file_lock) (c : loop) : loop :=
  match request c with
  | None => mk_loop (passed c) (rest c) (g (caller c)) None (added c) (left c) (right c) (lw c)
  | Some a => mk_loop (upd_lock a g (passed c)) (rest c) (caller c) (request c) (added c) (left c) (right c) (lw c)
  end.
Definition next_lock (f : file_lock) (l : list file_lock) (c : loop) : loop :=
  mk_loop (passed c ++ [f]) l (caller c) (request c) (added c) (left c) (right c) (lw c).
Definition become (f : file_lock) (l : list file_lock) (c : loop) : loop :=
  mk_loop (passed c ++ [f]) l (caller c) (Some (fl_addr f)) true (left c) (right c) (lw c).
Definition drop_lock (f : file_lock) (l : list file_lock) (c : loop) : option loop :=
  w ← locks_delete_lock f (lw c); Some (mk_loop (passed c) l (caller c) (request c) (added c) (left c) (right c) w).

(** A lock of the same type: merged with the request if adjacent.  [false] ends
    the loop at this lock. *)
Definition same_type (r f : file_lock) (l : list file_lock) (c : loop) : option (bool * loop) :=
  if fl_end f <? s64 (fl_start r - 1) then Some (true, next_lock f l c) else
  if fl_end r <? s64 (fl_start f - 1) then Some (false, c) else
  let '(f, c) := if fl_start r <? fl_start f then (set_start (fl_start r) f, c) else (f, upd_request (set_start (fl_start f)) c) in
  let '(f, c) := if fl_end f <? fl_end r then (set_end (fl_end r) f, c) else (f, upd_request (set_end (fl_end f)) c) in
  if added c then c ← drop_lock f l c; Some (true, c) else Some (true, become f l c).

(** A lock of another type: kept, cut or replaced. *)
Definition other_type (r f : file_lock) (l : list file_lock) (c : loop) : option (bool * loop) :=
  if fl_end f <? fl_start r then Some (true, next_lock f l c) else
  if fl_end r <? fl_start f then Some (false, c) else
  let c := mk_loop (passed c) (rest c) (caller c) (request c) ((fl_type r =? F_UNLCK) || added c)
             (if fl_start f <? fl_start r then fl_addr f else left c) (right c) (lw c) in
  if fl_end r <? fl_end f then
    Some (false, mk_loop (passed c) (rest c) (caller c) (request c) (added c) (left c) (fl_addr f) (lw c))
  else if fl_start r <=? fl_start f then
    if added c then c ← drop_lock f l c; Some (true, c) else
    '(f, w) ← locks_wake_up_blocks f (lw c);
    let f := set_lmops (fl_lmops r) (set_type (fl_type r) (set_end (fl_end r) (set_start (fl_start r) f))) in
    Some (true, become f l (mk_loop (passed c) (rest c) (caller c) (request c) (added c) (left c) (right c) w))
  else Some (true, next_lock f l c).

(** The second [while] loop; every round takes a lock off [*before]. *)
Fixpoint process (l : list file_lock) (c : loop) : option loop :=
  match l with
  | [] => Some c
  | f :: l =>
      r ← get_request c;
      if negb (posix_same_owner r f) then Some c else
      '(go, c) ← (if fl_type r =? fl_type f then same_type r f l c else other_type r f l c);
      if (go : bool) then process l c else Some c
  end.

(** The first loop: the locks of other owners. *)
Fixpoint skip (r : file_lock) (pre l : list file_lock) : list file_lock * list file_lock :=
  match l with
  | [] => (pre, [])
  | f :: l' => if negb (IS_POSIX f) || negb (posix_same_owner r f) then skip r (pre ++ [f]) l' else (pre, l)
  end.

(** A change to the lock at address [a], which is in one of the two lists. *)
Definition upd_loop (a : Z) (g : file_lock -> file_lock) (c : loop) : loop :=
  mk_loop (upd_lock a g (passed c)) (upd_lock a g (rest c)) (caller c) (request c) (added c) (left c) (right c) (lw c).
Definition wake_loop (a : Z) (c : loop) : option loop :=
  f ← find_lock a (passed c ++ rest c);
  '(f', w) ← locks_wake_up_blocks f (lw c);
  let c := upd_loop a (fun _ => f') c in
  Some (mk_loop (passed c) (rest c) (caller c) (request c) (added c) (left c) (right c) w).

(** [locks_insert_lock(before, f)]. *)
Definition insert_lock (f : file_lock) (c : loop) : loop :=
  mk_loop (passed c) (f :: rest c) (caller c) (request c) (added c) (left c) (right c) (link_lock f (lw c)).

(** The request splits a lock in two: the second new lock is the part before. *)
Definition split_right (new_fl2 : Z) (c : loop) : option loop :=
  if left c =? right c then
    f ← find_lock (right c) (passed c ++ rest c);
    let c := insert_lock (locks_copy_lock new_fl2 f) c in
    Some (mk_loop (passed c) (rest c) (caller c) (request c) (added c) new_fl2 (right c) (lw c))
  else Some c.

(** [if (right) ...]: the lock in which the request ends. *)
Definition cut_right (new_fl2 : Z) (c : loop) : option loop :=
  if right c =? 0 then Some c else
  c ← split_right new_fl2 c;
  r ← get_request c;
  wake_loop (right c) (upd_loop (right c) (set_start (s64 (fl_end r + 1))) c).

Definition cut_left (c : loop) : option loop :=
  if left c =? 0 then Some c else
  r ← get_request c;
  wake_loop (left c) (upd_loop (left c) (set_end (s64 (fl_start r - 1))) c).

(** The end of the function: the error and the locks. *)
Definition finish (new_fl new_fl2 : Z) (c : loop) : option (Z * loop) :=
  if negb (right c =? 0) && (left c =? right c) && (new_fl2 =? 0) then Some (- ENOLCK, c) else
  r ← get_request c;
  if negb (added c) && (fl_type r =? F_UNLCK) then Some (if has_flag r FL_EXISTS then - ENOENT else 0, c) else
  if negb (added c) && (new_fl =? 0) then Some (- ENOLCK, c) else
  let c := if negb (added c) then insert_lock (locks_copy_lock new_fl r) c else c in
  c ← cut_right new_fl2 c;
  c ← cut_left c;
  Some (0, c).

(** What a call leaves: the error, the caller's structure, [conflock] if one is
    filled in, and the state. *)
Record result := mk_result { error : Z; req_after : file_lock; conflock_after : option file_lock; after : state }.

(** The first [for_each_lock] loop, for a lock that conflicts. *)
Definition conflict_found (s : state) (req f : file_lock) (conf : option file_lock) : option result :=
  if negb (has_flag req FL_SLEEP) then Some (mk_result (- EAGAIN) req conf s) else
  d ← posix_locks_deadlock s req f;
  if (d : bool) then Some (mk_result (- EDEADLK) req conf s) else
  '(f', w) ← locks_insert_block f req (ws s);
  Some (mk_result (- EAGAIN) (set_next (fl_addr f) req) conf (mk_state (upd_lock (fl_addr f) (fun _ => f') (i_flock s)) (elsewhere s) w)).

(** [conflock] is an address, 0 for none; [new_fl] and [new_fl2] are the answers
    of [locks_alloc_lock], 0 for a failure. *)
Definition __posix_lock_file (s : state) (req : file_lock) (conflock new_fl new_fl2 : Z) : option result :=
  let needed := negb (has_flag req FL_ACCESS) && (negb (fl_type req =? F_UNLCK) || negb (fl_start req =? 0) || negb (fl_end req =? OFFSET_MAX)) in
  let new_fl := if needed then new_fl else 0 in
  let new_fl2 := if needed then new_fl2 else 0 in
  match (if negb (fl_type req =? F_UNLCK) then List.find (fun f => IS_POSIX f && posix_locks_conflict req f) (i_flock s) else None) with
  | Some f => conflict_found s req f (if conflock =? 0 then None else Some (locks_copy_lock conflock f))
  | None =>
      if has_flag req FL_ACCESS then Some (mk_result 0 req None s) else
      let '(pre, l) := skip req [] (i_flock s) in
      c ← process l (mk_loop pre l req None false 0 0 (ws s));
      '(error, c) ← finish new_fl new_fl2 c;
      Some (mk_result error (caller c) None (mk_state (passed c ++ rest c) (elsewhere s) (lw c)))
  end.

(** ** Giving up and closing *)

(** [locks_delete_block]: a request stops waiting. *)
Definition locks_delete_block (a : Z) (s : state) : option state :=
  q ← waiters (ws s) !! a;
  w ← __locks_delete_block a (ws s);
  let rid := upd_lock (fl_next q) (fun f => set_block (remove a (fl_block f)) f) in
  Some (mk_state (rid (i_flock s)) (rid (elsewhere s)) w).

Definition posix_unblock_lock (s : state) (waiter : Z) : option (Z * state) :=
  q ← waiters (ws s) !! waiter;
  if negb (fl_next q =? 0) then s ← locks_delete_block waiter s; Some (0, s) else Some (- ENOENT, s).

(** [locks_remove_posix], for a file system without a [lock] operation of its
    own; the structure on the stack is at address [a]. *)
Definition locks_remove_posix (s : state) (a filp owner tgid : Z) : option state :=
  match i_flock s with
  | [] => Some s
  | _ =>
      r ← __posix_lock_file s (mk_lock a owner tgid no_lmops filp (Z.lor FL_POSIX FL_CLOSE) F_UNLCK 0 OFFSET_MAX [] 0) 0 0 0;
      Some (after r)
  end.

(** ** BSD locks *)

Definition flock_translate_cmd (cmd : Z) : Z :=
  if negb (Z.land cmd LOCK_MAND =? 0) then Z.land cmd (Z.lor LOCK_MAND LOCK_RW)
  else if cmd =? LOCK_SH then F_RDLCK else if cmd =? LOCK_EX then F_WRLCK else if cmd =? LOCK_UN then F_UNLCK else - EINVAL.

(** [flock_make_lock]: the error and the lock; [fl] is the answer of
    [locks_alloc_lock]. *)
Definition flock_make_lock (filp cmd tgid fl : Z) : Z * option file_lock :=
  let type := flock_translate_cmd cmd in
  if type <? 0 then (type, None) else if fl =? 0 then (- ENOMEM, None)
  else (0, Some (mk_lock fl 0 tgid no_lmops filp FL_FLOCK (u8 type) 0 OFFSET_MAX [] 0)).

(** The first loop of [flock_lock_file]: the lock of the open file, if it has one,
    with the locks before and behind it. *)
Fixpoint flock_own (filp : Z) (pre l : list file_lock) : option (list file_lock * file_lock * list file_lock) :=
  match l with
  | [] => None
  | f :: l' => if IS_POSIX f then None else if IS_LEASE f || negb (filp =? fl_file f) then flock_own filp (pre ++ [f]) l' else Some (pre, f, l')
  end.

(** The second loop: the lock that conflicts, or where the loop ends. *)
Fixpoint flock_scan (r : file_lock) (pre l : list file_lock) : option file_lock * list file_lock * list file_lock :=
  match l with
  | [] => (None, pre, [])
  | f :: l' => if IS_POSIX f then (None, pre, l) else if IS_LEASE f || negb (flock_locks_conflict r f) then flock_scan r (pre ++ [f]) l' else (Some f, pre, l)
  end.

(** From [find_conflict] on. *)
Definition find_conflict (s : state) (req : file_lock) (new_fl : Z) : option result :=
  match flock_scan req [] (i_flock s) with
  | (Some f, _, _) =>
      if negb (has_flag req FL_SLEEP) then Some (mk_result (- EAGAIN) req None s) else
      '(f', w) ← locks_insert_block f req (ws s);
      Some (mk_result (- EAGAIN) (set_next (fl_addr f) req) None (mk_state (upd_lock (fl_addr f) (fun _ => f') (i_flock s)) (elsewhere s) w))
  | (None, pre, l) =>
      if has_flag req FL_ACCESS then Some (mk_result 0 req None s) else
      let f := locks_copy_lock new_fl req in
      Some (mk_result 0 req None (mk_state (pre ++ f :: l) (elsewhere s) (link_lock f (ws s))))
  end.

(** The first part, up to [cond_resched]: an answer, or the state, and if a lock of
    the file was found and removed. *)
Definition flock_replace (s : state) (filp : Z) (req : file_lock) (new_fl : Z) : option (result + bool * state) :=
  if has_flag req FL_ACCESS then Some (inr (false, s)) else
  let alloc (found : bool) (s : state) := if new_fl =? 0 then inl (mk_result (- ENOMEM) req None s) else inr (found, s) in
  match flock_own filp [] (i_flock s) with
  | Some (pre, f, l) =>
      if fl_type req =? fl_type f then Some (inl (mk_result 0 req None s)) else
      w ← locks_delete_lock f (ws s);
      let s := mk_state (pre ++ l) (elsewhere s) w in
      if fl_type req =? F_UNLCK then Some (inl (mk_result 0 req None s)) else Some (alloc true s)
  | None =>
      if fl_type req =? F_UNLCK then Some (inl (mk_result (if has_flag req FL_EXISTS then - ENOENT else 0) req None s)) else Some (alloc false s)
  end.

(** [cond_resched] is what other tasks do to the state while this one, having
    removed its lock, lets them run. *)
Definition flock_lock_file (cond_resched : state -> state) (s : state) (filp : Z) (req : file_lock) (new_fl : Z) : option result :=
  p ← flock_replace s filp req new_fl;
  match p with
  | inl r => Some r
  | inr (found, s) => find_conflict (if (found : bool) then cond_resched s else s) req new_fl
  end.

(** ** Requests from user space *)

(** [struct flock] and [struct flock64]. *)
Record flock := mk_flock { l_type : Z; l_whence : Z; l_start : Z; l_len : Z; l_pid : Z }.

(** What the conversions read of [current] and of the open file. *)
Record task_file := mk_task_file { files : Z; tgid : Z; filp : Z; f_pos : Z; i_size : Z }.

Definition whence_base (c : task_file) (whence : Z) : option Z :=
  if whence =? SEEK_SET then Some 0 else if whence =? SEEK_CUR then Some (f_pos c) else if whence =? SEEK_END then Some (i_size c) else None.

(** The fields that both conversions set at the end. *)
Definition fill_posix (c : task_file) (fl : file_lock) : file_lock :=
  mk_lock (fl_addr fl) (files c) (tgid c) no_lmops (filp c) FL_POSIX (fl_type fl) (fl_start fl) (fl_end fl) (fl_block fl) (fl_next fl).

Definition assign_type (fl : file_lock) (type : Z) : Z * file_lock :=
  if (type =? F_RDLCK) || (type =? F_WRLCK) || (type =? F_UNLCK) then (0, set_type type fl) else (- EINVAL, fl).

(** The error and the structure; [off_t] has 32 bits. *)
Definition flock_to_posix_lock (c : task_file) (fl : file_lock) (l : flock) : Z * file_lock :=
  match whence_base c (l_whence l) with
  | None => (- EINVAL, fl)
  | Some base =>
      let start := s32 (s32 base + l_start l) in
      if start <? 0 then (- EINVAL, fl) else
      let fl := set_end OFFSET_MAX fl in
      let finish (fl : file_lock) (start : Z) :=
        let fl := set_start start fl in
        if fl_end fl <? fl_start fl then (- EOVERFLOW, fl) else assign_type (fill_posix c fl) (l_type l) in
      if 0 <? l_len l then finish (set_end (s32 (s32 (start + l_len l) - 1)) fl) start
      else if l_len l <? 0 then
        let fl := set_end (start - 1) fl in
        let start := s32 (start + l_len l) in
        if start <? 0 then (- EINVAL, fl) else finish fl start
      else finish fl start
  end.

Definition flock64_to_posix_lock (c : task_file) (fl : file_lock) (l : flock) : Z * file_lock :=
  match whence_base c (l_whence l) with
  | None => (- EINVAL, fl)
  | Some base =>
      let start := s64 (base + l_start l) in
      if start <? 0 then (- EINVAL, fl) else
      let fl := set_end OFFSET_MAX fl in
      let finish (fl : file_lock) (start : Z) :=
        let fl := set_start start fl in
        if fl_end fl <? fl_start fl then (- EOVERFLOW, fl) else assign_type (fill_posix c fl) (l_type l) in
      if 0 <? l_len l then finish (set_end (s64 (s64 (start + l_len l) - 1)) fl) start
      else if l_len l <? 0 then
        let fl := set_end (start - 1) fl in
        let start := s64 (start + l_len l) in
        if start <? 0 then (- EINVAL, fl) else finish fl start
      else finish fl start
  end.

(** [l_pid] is set also when the lock does not fit. *)
Definition posix_lock_to_flock (fl : file_lock) (l : flock) : Z * flock :=
  if (OFFT_OFFSET_MAX <? fl_start fl) || (negb (fl_end fl =? OFFSET_MAX) && (OFFT_OFFSET_MAX <? fl_end fl))
  then (- EOVERFLOW, mk_flock (l_type l) (l_whence l) (l_start l) (l_len l) (fl_pid fl))
  else (0, mk_flock (fl_type fl) 0 (s32 (fl_start fl)) (if fl_end fl =? OFFSET_MAX then 0 else s32 (s64 (fl_end fl - fl_start fl + 1))) (fl_pid fl)).

Definition posix_lock_to_flock64 (fl : file_lock) : flock :=
  mk_flock (fl_type fl) 0 (fl_start fl) (if fl_end fl =? OFFSET_MAX then 0 else s64 (fl_end fl - fl_start fl + 1)) (fl_pid fl).

(** The conversions of [fcntl_getlk64] around [vfs_test_lock]: the error and what
    is copied back to user space. *)
Definition fcntl_getlk64 (s : state) (c : task_file) (fl : file_lock) (l : flock) : Z * flock :=
  if negb (l_type l =? F_RDLCK) && negb (l_type l =? F_WRLCK) then (- EINVAL, l) else
  let '(error, fl) := flock64_to_posix_lock c fl l in
  if negb (error =? 0) then (error, l) else
  let fl := snd (posix_test_lock s fl) in
  (0, if negb (fl_type fl =? F_UNLCK) then posix_lock_to_flock64 fl else mk_flock (fl_type fl) (l_whence l) (l_start l) (l_len l) (l_pid l)).

End Locks.
