(* ===== verification/LocksProof.v ===== *)
(** * File locks: the locks of an inode are a map from bytes to lock types

    The waiting requests first, then the merging and splitting of ranges. *)

From stdpp Require Import sorting.
From S2P Require Import Prelude Locks.

Module LocksProof.
Import Locks.

Lemma s64_small z : - 2 ^ 63 <= z < 2 ^ 63 -> s64 z = z.
Proof.
  intros H. unfold s64, u64. destruct (decide (0 <= z)).
  - rewrite Z.mod_small by lia. destruct (Z.ltb_spec z (2 ^ 63)); lia.
  - rewrite <- (Z_mod_plus_full z 1), Z.mod_small by lia. destruct (Z.ltb_spec (z + 1 * 2 ^ 64) (2 ^ 63)); lia.
Qed.

(** ** Locks by address *)

Lemma upd_lock_app a g l k : upd_lock a g (l ++ k) = upd_lock a g l ++ upd_lock a g k.
Proof. apply fmap_app. Qed.

Lemma upd_lock_ne a g l : (forall f, f ∈ l -> fl_addr f <> a) -> upd_lock a g l = l.
Proof.
  induction l as [|x l IH]; intros H; [done|]. cbn. rewrite (proj2 (Z.eqb_neq _ _) (H x ltac:(by left))). f_equal. apply IH. intros f Hf. apply H. by right.
Qed.

Lemma upd_lock_cons f g l : (forall h, h ∈ l -> fl_addr h <> fl_addr f) -> upd_lock (fl_addr f) g (f :: l) = g f :: l.
Proof. intros H. cbn. rewrite Z.eqb_refl. f_equal. by apply upd_lock_ne. Qed.

(** The lock [f] in a list with distinct addresses. *)
Lemma upd_lock_at g l f k : NoDup (fl_addr <$> l ++ f :: k) -> upd_lock (fl_addr f) g (l ++ f :: k) = l ++ g f :: k.
Proof.
  rewrite fmap_app, fmap_cons. intros (H1 & H2 & [H3 H4]%NoDup_cons)%NoDup_app. rewrite upd_lock_app, upd_lock_ne, upd_lock_cons.
  - done.
  - intros h Hh E. apply H3. rewrite <- E. by apply list_elem_of_fmap_2.
  - intros h Hh E. apply (H2 (fl_addr h)); [by apply list_elem_of_fmap_2|]. rewrite E. by left.
Qed.

Lemma find_lock_at l f k : NoDup (fl_addr <$> l ++ f :: k) -> find_lock (fl_addr f) (l ++ f :: k) = Some f.
Proof.
  induction l as [|x l IH]; simpl; intros Hnd; [unfold at_addr; by rewrite Z.eqb_refl|]. apply NoDup_cons in Hnd as [Hx Hnd].
  unfold find_lock in *. simpl. unfold at_addr at 1. destruct (Z.eqb_spec (fl_addr x) (fl_addr f)) as [E|]; [|by apply IH].
  destruct Hx. rewrite E, fmap_app, elem_of_app. right. by left.
Qed.

(** ** Waiting requests

    [waits_ok] is what the lock code keeps about waiting: a request waits on the
    list of the lock that [fl_next] names, and it still conflicts with that lock;
    so a lock that is removed, cut or changed leaves nobody waiting in vain.  What
    a lease conflicts with is not modelled. *)
Definition blocks (q f : file_lock) : bool :=
  if IS_POSIX f then posix_locks_conflict q f else if IS_LEASE f then true else flock_locks_conflict q f.

Record waits_ok (L : list file_lock) (w : waits) : Prop := {
  wo_block : forall f a, f ∈ L -> a ∈ fl_block f ->
    exists q, waiters w !! a = Some q /\ fl_next q = fl_addr f /\ blocks q f = true /\ (IS_POSIX f = true -> a ∈ blocked_list w);
  wo_nodup : forall f, f ∈ L -> NoDup (fl_block f);
  wo_next : forall a q, waiters w !! a = Some q -> fl_next q <> 0 -> exists f, f ∈ L /\ fl_addr f = fl_next q /\ a ∈ fl_block f;
  wo_blocked : forall a, a ∈ blocked_list w -> exists f, f ∈ L /\ IS_POSIX f = true /\ a ∈ fl_block f;
  wo_addr : NoDup (fl_addr <$> L);
  wo_null : forall f, f ∈ L -> fl_addr f <> 0;
  wo_key : forall a q, waiters w !! a = Some q -> fl_addr q = a }.

#[global] Instance waits_ok_perm : Proper ((≡ₚ) ==> (=) ==> iff) waits_ok.
Proof.
  assert (forall L L' w, L ≡ₚ L' -> waits_ok L w -> waits_ok L' w) as H.
  { intros L L' w HL [H1 H2 H3 H4 H5 H6 H7]. split; try done.
    - intros f a Hf. rewrite <- HL in Hf. by apply H1.
    - intros f Hf. rewrite <- HL in Hf. by apply H2.
    - intros a q Hq Hn. destruct (H3 _ _ Hq Hn) as (f & Hf & H). exists f. by rewrite <- HL.
    - intros a Ha. destruct (H4 a Ha) as (f & Hf & H). exists f. by rewrite <- HL.
    - by rewrite <- HL.
    - intros f Hf. rewrite <- HL in Hf. by apply H6. }
  intros L L' HL w w' <-. split; by apply H.
Qed.

(** What [wake_up_blocks] does: the requests of the list no longer wait. *)
Lemma wake_run l : forall w, NoDup l -> (forall a, a ∈ l -> is_Some (waiters w !! a)) ->
  exists w', wake_up_blocks l w = Some w' /\ woken w' = woken w ++ l /\ file_lock_list w' = file_lock_list w /\
    (forall a, waiters w' !! a = if decide (a ∈ l) then set_next 0 <$> waiters w !! a else waiters w !! a) /\
    (forall a, a ∈ blocked_list w' <-> a ∈ blocked_list w /\ a ∉ l).
Proof.
  induction l as [|a l IH]; intros w Hnd Hl.
  { exists w. split; [done|]. rewrite app_nil_r. split; [done|]. split; [done|]. split; [done|]. intros a. split; [|tauto]. intros; split; [done|apply not_elem_of_nil]. }
  apply NoDup_cons in Hnd as [Ha Hnd]. destruct (Hl a) as [q Hq]; [by left|]. cbn [wake_up_blocks]. unfold __locks_delete_block. rewrite Hq. cbn [mbind option_bind waiters blocked_list file_lock_list woken].
  edestruct (IH (mk_waits (<[a:=set_next 0 q]> (waiters w)) (remove a (blocked_list w)) (file_lock_list w) (woken w ++ [a]))) as (w' & -> & H1 & H2 & H3 & H4); [done| |].
  { intros b Hb. cbn [waiters]. destruct (decide (b = a)) as [->|]; [by rewrite lookup_insert_eq|]. rewrite lookup_insert_ne by done. apply Hl. by right. }
  exists w'. split; [done|]. cbn [woken file_lock_list waiters blocked_list] in *. rewrite H1, <- app_assoc. split; [done|]. split; [done|]. split.
  - intros b. rewrite H3. destruct (decide (b = a)) as [->|Hne].
    + rewrite decide_False, lookup_insert_eq, decide_True, Hq by (done || by left). done.
    + rewrite lookup_insert_ne by done. destruct (decide (b ∈ l)); [rewrite decide_True by by right|rewrite decide_False by (rewrite elem_of_cons; tauto)]; done.
  - intros b. rewrite H4, elem_of_cons. unfold remove. rewrite list_elem_of_filter. tauto.
Qed.

Lemma addr_inj L w f g : waits_ok L w -> f ∈ L -> g ∈ L -> fl_addr f = fl_addr g -> f = g.
Proof.
  intros H Hf Hg E. apply list_elem_of_lookup_1 in Hf as [i Hi]. apply list_elem_of_lookup_1 in Hg as [j Hj].
  assert (i = j) as ->; [|congruence]. apply (NoDup_lookup (fl_addr <$> L) i j (fl_addr f)); [apply H|by rewrite list_lookup_fmap, Hi|rewrite list_lookup_fmap, Hj; simpl; congruence].
Qed.

Lemma addr_fresh f L w : waits_ok (f :: L) w -> forall g, g ∈ L -> fl_addr g <> fl_addr f.
Proof. intros H g Hg E. pose proof (wo_addr _ _ H) as Hnd. simpl in Hnd. apply NoDup_cons in Hnd as [Hn _]. apply Hn. rewrite <- E. by apply list_elem_of_fmap_2. Qed.

(** Waking the requests of [f]: nobody waits for it any more. *)
Lemma waits_wake f L w : waits_ok (f :: L) w -> exists w', locks_wake_up_blocks f w = Some (set_block [] f, w') /\
  (forall f', fl_addr f' = fl_addr f -> fl_block f' = [] -> waits_ok (f' :: L) w').
Proof.
  intros H. pose proof (addr_fresh _ _ _ H) as Hfr. destruct (wake_run (fl_block f) w) as (w' & E & _ & _ & Hw & Hb).
  { apply H. by left. } { intros a Ha. destruct (wo_block _ _ H f a) as (q & -> & _); [by left|done|by eexists]. }
  unfold locks_wake_up_blocks. rewrite E. cbn [mbind option_bind]. exists w'. split; [done|]. intros f' Ea Eb.
  assert (forall g a, g ∈ L -> a ∈ fl_block g -> a ∉ fl_block f) as Hdis.
  { intros g a Hg Ha Ha'. destruct (wo_block _ _ H g a) as (q & Hq & Hn & _); [by right|done|]. destruct (wo_block _ _ H f a) as (q' & Hq' & Hn' & _); [by left|done|].
    rewrite Hq in Hq'. injection Hq' as <-. apply (Hfr g Hg). congruence. }
  split.
  - intros g a [->|Hg]%elem_of_cons Ha; [rewrite Eb in Ha; by apply elem_of_nil in Ha|].
    destruct (wo_block _ _ H g a) as (q & Hq & Hn & Hc & Hp); [by right|done|]. exists q. rewrite Hw, decide_False by by eapply Hdis. split; [done|]. split; [done|].
    split; [done|]. intros Hip. apply Hb. split; [by apply Hp|by eapply Hdis].
  - intros g [->|Hg]%elem_of_cons; [rewrite Eb; constructor|]. apply H. by right.
  - intros a q. rewrite Hw. destruct (decide (a ∈ fl_block f)) as [Ha|Ha].
    + intros Hq Hn. destruct (waiters w !! a); [injection Hq as <-; done|done].
    + intros Hq Hn. destruct (wo_next _ _ H _ _ Hq Hn) as (g & [->|Hg]%elem_of_cons & E1 & E2); [done|]. exists g. split; [by right|done].
  - intros a Ha. apply Hb in Ha as [Ha Hna]. destruct (wo_blocked _ _ H a Ha) as (g & [->|Hg]%elem_of_cons & Hp & Hg2); [done|]. exists g. split; [by right|done].
  - simpl. rewrite Ea. apply (wo_addr _ _ H).
  - intros g [->|Hg]%elem_of_cons; [rewrite Ea|]; apply H; [by left|by right].
  - intros a q. rewrite Hw. case_decide; [|apply (wo_key _ _ H)]. destruct (waiters w !! a) as [q'|] eqn:E'; [|done]. intros [= <-]. simpl. by apply (wo_key _ _ H).
Qed.

(** Taking away a lock that nobody waits for. *)
Lemma waits_drop f L w : waits_ok (f :: L) w -> fl_block f = [] -> waits_ok L w.
Proof.
  intros H Eb. split.
  - intros g a Hg. apply (wo_block _ _ H). by right.
  - intros g Hg. apply (wo_nodup _ _ H). by right.
  - intros a q Hq Hn. destruct (wo_next _ _ H _ _ Hq Hn) as (g & [->|Hg]%elem_of_cons & E1 & E2); [rewrite Eb in E2; by apply elem_of_nil in E2|eauto].
  - intros a Ha. destruct (wo_blocked _ _ H a Ha) as (g & [->|Hg]%elem_of_cons & Hp & E2); [rewrite Eb in E2; by apply elem_of_nil in E2|eauto].
  - pose proof (wo_addr _ _ H) as Hnd. simpl in Hnd. by apply NoDup_cons in Hnd as [_ ?].
  - intros g Hg. apply (wo_null _ _ H). by right.
  - apply (wo_key _ _ H).
Qed.

Lemma waits_file_list L w l : waits_ok L w -> waits_ok L (mk_waits (waiters w) (blocked_list w) l (woken w)).
Proof. intros [H1 H2 H3 H4 H5 H6 H7]. by split. Qed.

Lemma waits_delete f L w : waits_ok (f :: L) w -> exists w', locks_delete_lock f w = Some w' /\ waits_ok L w'.
Proof.
  intros H. unfold locks_delete_lock. destruct (waits_wake f L _ (waits_file_list _ _ (remove (fl_addr f) (file_lock_list w)) H)) as (w' & -> & Hw).
  cbn [mbind option_bind]. exists w'. split; [done|]. eapply (waits_drop (set_block [] f)); [by apply Hw|done].
Qed.

(** A lock that covers more bytes keeps the requests that wait for it. *)
Definition grows (f f' : file_lock) : Prop :=
  fl_addr f' = fl_addr f /\ fl_owner f' = fl_owner f /\ fl_pid f' = fl_pid f /\ fl_lmops f' = fl_lmops f /\ fl_file f' = fl_file f /\ fl_flags f' = fl_flags f /\
  fl_type f' = fl_type f /\ fl_block f' = fl_block f /\ fl_start f' <= fl_start f /\ fl_end f <= fl_end f'.

Lemma blocks_grows q f f' : grows f f' -> blocks q f = true -> blocks q f' = true.
Proof.
  intros (E1 & E2 & E3 & E4 & E & E5 & E6 & E7 & Hs & He). unfold blocks, flock_locks_conflict, posix_locks_conflict, IS_POSIX, IS_LEASE, IS_FLOCK, has_flag, posix_same_owner, nlmsvc_same_owner, locks_conflict, locks_overlap.
  rewrite E2, E3, E4, E, E5, E6. repeat case_match; simplify_eq/=; try done; rewrite ?negb_false_iff, ?negb_true_iff, ?andb_true_iff, ?andb_false_iff, ?Z.leb_le, ?Z.leb_gt in *; lia.
Qed.

Lemma waits_grow f f' L w : waits_ok (f :: L) w -> grows f f' -> waits_ok (f' :: L) w.
Proof.
  intros H Hg. pose proof Hg as (E1 & E2 & E3 & E4 & E & E5 & E6 & E7 & Hs & He). split.
  - intros g a [->|Hin]%elem_of_cons Ha; [|apply (wo_block _ _ H); [by right|done]]. rewrite E7 in Ha.
    destruct (wo_block _ _ H f a) as (q & Hq & Hn & Hc & Hb); [by left|done|]. exists q. split; [done|]. split; [congruence|].
    split; [by eapply blocks_grows|]. intros Hp. apply Hb. unfold IS_POSIX, has_flag in *. by rewrite <- E5.
  - intros g [->|Hin]%elem_of_cons; [rewrite E7|]; apply (wo_nodup _ _ H); [by left|by right].
  - intros a q Hq Hn. destruct (wo_next _ _ H _ _ Hq Hn) as (g & [->|Hin]%elem_of_cons & Eg1 & Eg2); [exists f'; split; [by left|]; split; congruence|exists g; split; [by right|done]].
  - intros a Ha. destruct (wo_blocked _ _ H a Ha) as (g & [->|Hin]%elem_of_cons & Hp & Eg2); [exists f'|exists g; split; [by right|done]].
    split; [by left|]. unfold IS_POSIX, has_flag in *. rewrite E5, E7. done.
  - simpl. rewrite E1. apply (wo_addr _ _ H).
  - intros g [->|Hin]%elem_of_cons; [rewrite E1|]; apply (wo_null _ _ H); [by left|by right].
  - apply (wo_key _ _ H).
Qed.

Lemma waits_insert f L w : waits_ok L w -> fl_addr f <> 0 -> (forall g, g ∈ L -> fl_addr g <> fl_addr f) -> fl_block f = [] -> waits_ok (f :: L) (link_lock f w).
Proof.
  intros H H0 Hfr Eb. split; simpl.
  - intros g a [->|Hin]%elem_of_cons Ha; [rewrite Eb in Ha; by apply elem_of_nil in Ha|by apply (wo_block _ _ H)].
  - intros g [->|Hin]%elem_of_cons; [rewrite Eb; constructor|by apply (wo_nodup _ _ H)].
  - intros a q Hq Hn. destruct (wo_next _ _ H _ _ Hq Hn) as (g & Hin & Eg). exists g. split; [by right|done].
  - intros a Ha. destruct (wo_blocked _ _ H a Ha) as (g & Hin & Eg). exists g. split; [by right|done].
  - apply NoDup_cons. split; [|apply (wo_addr _ _ H)]. intros (g & E & Hg)%list_elem_of_fmap. by apply (Hfr g).
  - intros g [->|Hin]%elem_of_cons; [done|by apply (wo_null _ _ H)].
  - apply (wo_key _ _ H).
Qed.

(** ** Owners

    [lockd o] says that [o] is an owner of the NFS lock manager: a host, and not
    the table of open files of a process. *)
Section Owners.
Context (lockd : Z -> bool).

Definition consistent (f : file_lock) : Prop :=
  match fl_lmops f with nlmsvc_lock_operations => true | no_lmops => false end = lockd (fl_owner f).
Definition ident (f : file_lock) : Z * Z := (fl_owner f, match fl_lmops f with nlmsvc_lock_operations => fl_pid f | no_lmops => 0 end).

Lemma same_owner_ident f g : consistent f -> consistent g -> posix_same_owner f g = bool_decide (ident f = ident g).
Proof.
  unfold consistent, posix_same_owner, nlmsvc_same_owner, ident. intros Hf Hg.
  destruct (Z.eqb_spec (fl_owner f) (fl_owner g)) as [E|E].
  - rewrite <- E, <- Hf in Hg. rewrite E. destruct (fl_lmops f), (fl_lmops g); try done.
    + by rewrite bool_decide_true.
    + simpl. destruct (Z.eqb_spec (fl_pid f) (fl_pid g)) as [->|]; [by rewrite bool_decide_true|rewrite bool_decide_false by congruence; done].
  - rewrite bool_decide_false by congruence. by destruct (fl_lmops f), (fl_lmops g).
Qed.

Lemma lmops_same f g : consistent f -> consistent g -> ident f = ident g -> fl_lmops f = fl_lmops g.
Proof. unfold consistent, ident. intros Hf Hg [= E _]. rewrite E, <- Hg in Hf. by destruct (fl_lmops f), (fl_lmops g). Qed.

(** A POSIX lock of the list. *)
Record posix_ok (f : file_lock) : Prop := {
  po_posix : IS_POSIX f = true;
  po_cons : consistent f;
  po_range : 0 <= fl_start f <= fl_end f /\ fl_end f <= OFFSET_MAX;
  po_type : fl_type f = F_RDLCK \/ fl_type f = F_WRLCK }.

(** The locks of an owner are in order, and apart if they have the same type. *)
Definition before (f g : file_lock) : Prop := fl_end f < fl_start g /\ (fl_type f = fl_type g -> fl_end f + 1 < fl_start g).

Lemma sorted_app (l k : list file_lock) : StronglySorted before (l ++ k) <->
  StronglySorted before l /\ StronglySorted before k /\ (forall f g, f ∈ l -> g ∈ k -> before f g).
Proof. rewrite StronglySorted_app. naive_solver. Qed.

(** ** The loop over the locks of an owner

    [own] are the locks of the owner, [t], [a] and [b] type and range of the
    request.  The loop has gone through [dn], which lie before the request, then
    [lf], which the request cuts off, then [mid], which it has swallowed and
    which have extended it to [a'], [b']; [todo] is left. *)
Record split_at (own : list file_lock) (t a b : Z) (dn lf mid todo : list file_lock) (a' b' : Z) : Prop := {
  sa_own : own = dn ++ lf ++ mid ++ todo;
  sa_sorted : StronglySorted before own;
  sa_range : 0 <= a' <= a /\ a <= b <= b' /\ b' <= OFFSET_MAX;
  sa_dn : forall f, f ∈ dn -> fl_end f < a /\ (fl_type f = t -> fl_end f + 1 < a);
  sa_lf : lf = [] \/ exists f, lf = [f] /\ fl_type f <> t /\ fl_start f < a <= fl_end f /\ fl_end f <= b;
  sa_mid : forall m, m ∈ mid -> a' <= fl_start m <= fl_end m /\ fl_end m <= b';
  sa_left : a' = a \/ exists m, m ∈ mid /\ fl_type m = t /\ fl_start m = a';
  sa_right : b' = b \/ exists m, m ∈ mid /\ fl_type m = t /\ fl_end m = b';
  sa_union : forall x, a' <= x <= b' -> a <= x <= b \/ exists m, m ∈ mid /\ fl_type m = t /\ fl_start m <= x <= fl_end m }.

(** Once a lock has been cut or swallowed, the next one starts inside or behind
    the request. *)
Lemma split_next own t a b dn lf mid f todo a' b' : split_at own t a b dn lf mid (f :: todo) a' b' -> lf ++ mid <> [] -> a' < fl_start f.
Proof.
  intros [-> Hs Hr Hdn Hlf Hmid Hl _ _] Hne. apply sorted_app in Hs as (_ & Hs & _). apply sorted_app in Hs as (_ & Hs & Hlf2). apply sorted_app in Hs as (_ & _ & Hm2).
  destruct mid as [|m mid].
  - destruct Hlf as [->|(g & -> & _ & Hg & _)]; [done|]. destruct (Hlf2 g f) as [H _]; [by left|by left|]. lia.
  - destruct (Hm2 m f) as [H _]; [by left|by left|]. destruct (Hmid m) as [Hm _]; [by left|]. lia.
Qed.

Lemma split_skip own t a b dn f todo a' b' : split_at own t a b dn [] [] (f :: todo) a' b' -> fl_end f < a -> (fl_type f = t -> fl_end f + 1 < a) ->
  split_at own t a b (dn ++ [f]) [] [] todo a' b'.
Proof.
  intros [-> Hs Hr Hdn _ Hmid Hl Hrt Hu] H1 H2. split; try done.
  - by rewrite <- app_assoc.
  - intros g [Hg| ->%list_elem_of_singleton]%elem_of_app; [by apply Hdn|done].
  - by left.
Qed.

Lemma split_cut own t a b dn f todo a' b' : split_at own t a b dn [] [] (f :: todo) a' b' -> fl_type f <> t -> fl_start f < a <= fl_end f -> fl_end f <= b ->
  split_at own t a b dn [f] [] todo a' b'.
Proof. intros [-> Hs Hr Hdn _ Hmid Hl Hrt Hu] H1 H2 H3. split; try done. right. by exists f. Qed.

Lemma split_swallow own t a b dn lf mid f todo a' b' : split_at own t a b dn lf mid (f :: todo) a' b' -> a' <= fl_start f <= fl_end f -> fl_end f <= b' ->
  split_at own t a b dn lf (mid ++ [f]) todo a' b'.
Proof.
  intros [-> Hs Hr Hdn Hlf Hmid Hl Hrt Hu] H1 H2. split; try done.
  - by rewrite <- (app_assoc mid).
  - intros m [Hm| ->%list_elem_of_singleton]%elem_of_app; [by apply Hmid|done].
  - destruct Hl as [Hl|(m & Hm & H)]; [by left|right; exists m; split; [apply elem_of_app; by left|done]].
  - destruct Hrt as [Hl'|(m & Hm & H)]; [by left|right; exists m; split; [apply elem_of_app; by left|done]].
  - intros x Hx. destruct (Hu x Hx) as [?|(m & Hm & H)]; [by left|right; exists m; split; [apply elem_of_app; by left|done]].
Qed.

Lemma split_merge own t a b dn lf mid f todo a' b' : split_at own t a b dn lf mid (f :: todo) a' b' -> fl_type f = t ->
  0 <= fl_start f <= fl_end f -> fl_end f <= OFFSET_MAX -> a' - 1 <= fl_end f -> fl_start f - 1 <= b' ->
  split_at own t a b dn lf (mid ++ [f]) todo (Z.min a' (fl_start f)) (Z.max b' (fl_end f)).
Proof.
  intros [-> Hs Hr Hdn Hlf Hmid Hl Hrt Hu] Ht Hf Hmax H1 H2. split; try done.
  - by rewrite <- (app_assoc mid).
  - lia.
  - intros m [Hm| ->%list_elem_of_singleton]%elem_of_app; [specialize (Hmid m Hm)|]; lia.
  - destruct (Z.min_spec a' (fl_start f)) as [[_ ->]|[_ ->]].
    + destruct Hl as [Hl|(m & Hm & H)]; [by left|right; exists m; split; [apply elem_of_app; by left|done]].
    + right. exists f. split; [apply elem_of_app; right; by left|done].
  - destruct (Z.max_spec b' (fl_end f)) as [[_ ->]|[_ ->]].
    + right. exists f. split; [apply elem_of_app; right; by left|done].
    + destruct Hrt as [Hl'|(m & Hm & H)]; [by left|right; exists m; split; [apply elem_of_app; by left|done]].
  - intros x Hx. destruct (decide (fl_start f <= x <= fl_end f)) as [Hxf|Hxf]; [right; exists f; split; [apply elem_of_app; right; by left|done]|].
    destruct (Hu x) as [?|(m & Hm & H)]; [lia|by left|right; exists m; split; [apply elem_of_app; by left|done]].
Qed.

Section Loop.
Context (req : file_lock) (pre post elsew own : list file_lock).
Hypothesis req_posix : IS_POSIX req = true.
Hypothesis req_cons : consistent req.
Hypothesis req_range : 0 <= fl_start req <= fl_end req /\ fl_end req <= OFFSET_MAX.
Hypothesis req_type : fl_type req = F_RDLCK \/ fl_type req = F_WRLCK \/ fl_type req = F_UNLCK.
Hypothesis own_ok : forall f, f ∈ own -> posix_ok f /\ ident f = ident req.
Hypothesis post_ok : forall f l, post = f :: l -> consistent f /\ ident f <> ident req.

Notation t := (fl_type req).
Notation a := (fl_start req).
Notation b := (fl_end req).

(** The lock or structure that [request] points to. *)
Definition is_request (r : file_lock) (a' b' : Z) : Prop :=
  fl_start r = a' /\ fl_end r = b' /\ fl_type r = t /\ IS_POSIX r = true /\ consistent r /\ ident r = ident req.

(** Where the request is: still in the caller's structure, or the last lock
    passed. *)
Definition shape (c : loop) (dn lf mid : list file_lock) (hit : bool) (a' b' : Z) : Prop :=
  (request c = None /\ caller c = req /\ passed c = pre ++ dn ++ lf /\ a' = a /\ b' = b /\ (t = F_UNLCK \/ mid = []) /\
    added c = (t =? F_UNLCK) && hit) \/
  (exists v, request c = Some (fl_addr v) /\ passed c = pre ++ dn ++ lf ++ [v] /\ added c = true /\ is_request v a' b' /\ t <> F_UNLCK /\ mid <> []).

Definition nonempty (l : list file_lock) : bool := match l with [] => false | _ => true end.
Definition left_of (lf : list file_lock) : Z := match lf with f :: _ => fl_addr f | [] => 0 end.

Record at_loop (c : loop) (dn lf mid todo : list file_lock) (a' b' : Z) : Prop := {
  al_split : split_at own t a b dn lf mid todo a' b';
  al_rest : rest c = todo ++ post;
  al_left : left c = left_of lf;
  al_right : right c = 0;
  al_waits : waits_ok ((passed c ++ rest c) ++ elsew) (lw c);
  al_shape : shape c dn lf mid (nonempty (lf ++ mid)) a' b' }.

(** The loop ends before [todo], or at its first lock, which the request cuts. *)
Record at_exit (c : loop) (dn lf mid todo : list file_lock) (a' b' : Z) : Prop := {
  ae_split : split_at own t a b dn lf mid todo a' b';
  ae_rest : rest c = todo ++ post;
  ae_waits : waits_ok ((passed c ++ rest c) ++ elsew) (lw c);
  ae_end : (right c = 0 /\ left c = left_of lf /\ shape c dn lf mid (nonempty (lf ++ mid)) a' b' /\
            forall g, g ∈ todo -> b' < fl_start g /\ (fl_type g = t -> b' + 1 < fl_start g)) \/
           (exists f tl, todo = f :: tl /\ right c = fl_addr f /\ fl_type f <> t /\ fl_start f <= b' < fl_end f /\ shape c dn lf mid true a' b' /\
            (fl_start f < a' /\ lf = [] /\ mid = [] /\ left c = fl_addr f \/ a' <= fl_start f /\ left c = left_of lf)) }.

Lemma addrs_nodup c w : waits_ok ((passed c ++ rest c) ++ elsew) w -> NoDup (fl_addr <$> passed c ++ rest c).
Proof. intros H. pose proof (wo_addr _ _ H) as Hnd. rewrite fmap_app in Hnd. by apply NoDup_app in Hnd as (? & _). Qed.

Lemma request_ok c dn lf mid hit a' b' w : shape c dn lf mid hit a' b' -> waits_ok ((passed c ++ rest c) ++ elsew) w ->
  exists r, get_request c = Some r /\ is_request r a' b'.
Proof.
  intros [(H1 & H2 & H3 & -> & -> & _)|(v & H1 & H2 & _ & Hv & _)] Hw; unfold get_request; rewrite H1.
  - exists (caller c). split; [done|]. rewrite H2. by repeat split.
  - exists v. split; [|done]. rewrite H2. apply addrs_nodup in Hw. rewrite H2, fmap_app in Hw. apply NoDup_app in Hw as (Hw & _).
    rewrite !app_assoc in Hw |- *. by apply find_lock_at.
Qed.

Lemma todo_ok dn lf mid f todo a' b' : split_at own t a b dn lf mid (f :: todo) a' b' -> posix_ok f /\ ident f = ident req.
Proof. intros [E _ _ _ _ _ _ _ _]. apply own_ok. rewrite E, !elem_of_app. do 3 right. by left. Qed.

Lemma todo_after dn lf mid f todo a' b' : split_at own t a b dn lf mid (f :: todo) a' b' -> b' < fl_start f -> (fl_type f = t -> b' + 1 < fl_start f) ->
  forall g, g ∈ f :: todo -> b' < fl_start g /\ (fl_type g = t -> b' + 1 < fl_start g).
Proof.
  intros Hs H1 H2 g [->|Hg]%elem_of_cons; [done|]. pose proof (proj1 (todo_ok _ _ _ _ _ _ _ Hs)) as Hf. apply po_range in Hf.
  destruct Hs as [-> Hs _ _ _ _ _ _ _]. apply sorted_app in Hs as (_ & Hs & _). apply sorted_app in Hs as (_ & Hs & _). apply sorted_app in Hs as (_ & Hs & _).
  apply StronglySorted_cons in Hs as [Hs _]. rewrite Forall_forall in Hs. destruct (Hs g Hg) as [H3 _]. lia.
Qed.

(** Going on to the next lock. *)
Lemma next_lock_ok c dn lf mid f todo a' b' dn' lf' : at_loop c dn lf mid (f :: todo) a' b' ->
  split_at own t a b dn' lf' [] todo a' b' -> dn' ++ lf' = dn ++ [f] -> lf = [] -> mid = [] ->
  forall c', passed c' = passed c ++ [f] -> rest c' = todo ++ post -> request c' = request c -> caller c' = caller c -> right c' = right c -> lw c' = lw c ->
  left c' = left_of lf' -> added c' = (t =? F_UNLCK) && nonempty (lf' ++ []) -> at_loop c' dn' lf' [] todo a' b'.
Proof.
  intros [Hsp Hr Hl Hri Hw Hsh] Hsp' Hdn -> -> c' E1 E2 E3 E4 E5 E6 E7 E8. split; [done|done|done|congruence| |].
  - rewrite E1, E2, E6. rewrite Hr in Hw. by rewrite <- (app_assoc (passed c) [f]).
  - destruct Hsh as [(H1 & H2 & H3 & -> & -> & _)|(v & _ & _ & _ & _ & _ & H)]; [|done]. left.
    rewrite E3, E4, E1, H3. split; [done|]. split; [done|]. split; [by rewrite app_nil_r, <- app_assoc, Hdn|]. split; [done|]. split; [done|]. split; [by right|done].
Qed.

(** The lock [f] becomes the request. *)
Lemma become_ok c dn lf f f' todo a' b' mid' a2 b2 : at_loop c dn lf [] (f :: todo) a' b' -> t <> F_UNLCK ->
  split_at own t a b dn lf mid' todo a2 b2 -> mid' <> [] -> is_request f' a2 b2 -> fl_addr f' = fl_addr f ->
  forall c', passed c' = passed c -> left c' = left c -> right c' = right c ->
  waits_ok (f' :: passed c ++ (todo ++ post) ++ elsew) (lw c') -> at_loop (become f' (todo ++ post) c') dn lf mid' todo a2 b2.
Proof.
  intros [Hsp Hr Hl Hri Hw Hsh] Ht Hsp' Hm Hf' Ea c' E1 E2 E3 Hw'. split; cbn [become rest left right passed request added lw]; [done|done|congruence|congruence| |].
  - rewrite E1. eapply waits_ok_perm; [|done|exact Hw']. solve_Permutation.
  - destruct Hsh as [(H1 & H2 & H3 & _)|(v & _ & _ & _ & _ & _ & H)]; [|done]. right. exists f'. cbn [become request passed added].
    split; [done|]. split; [by rewrite E1, H3, <- !app_assoc|]. done.
Qed.

(** Deleting a lock that the request covers, after the request may have been
    extended. *)
Lemma drop_ok c dn lf mid f todo a' b' c1 f1 b2 : at_loop c dn lf mid (f :: todo) a' b' -> added c1 = true -> left c1 = left c -> right c1 = right c ->
  split_at own t a b dn lf (mid ++ [f]) todo a' b2 ->
  shape c1 dn lf (mid ++ [f]) true a' b2 ->
  waits_ok (f1 :: passed c1 ++ (todo ++ post) ++ elsew) (lw c1) ->
  exists c', drop_lock f1 (todo ++ post) c1 = Some c' /\ at_loop c' dn lf (mid ++ [f]) todo a' b2.
Proof.
  intros [Hsp Hr Hl Hri Hw Hsh] Ead E1 E2 Hsp' Hsh' Hw'. unfold drop_lock. destruct (waits_delete _ _ _ Hw') as (w' & -> & Hw2). cbn [mbind option_bind].
  eexists. split; [done|]. split; cbn [rest left right passed lw]; [done|done|congruence|congruence|by rewrite <- app_assoc|].
  replace (nonempty (lf ++ mid ++ [f])) with true by (destruct lf, mid; done).
  destruct Hsh' as [(H1 & H2 & H3 & H4)|(v & H1 & H2 & H4)]; [left|right; exists v]; by cbn [request caller passed added].
Qed.

(** Writing through [request] once it points to the last lock passed. *)
Lemma upd_alias c l v g w : waits_ok ((passed c ++ rest c) ++ elsew) w -> request c = Some (fl_addr v) -> passed c = l ++ [v] ->
  upd_request g c = mk_loop (l ++ [g v]) (rest c) (caller c) (request c) (added c) (left c) (right c) (lw c).
Proof.
  intros Hw E1 E2. unfold upd_request. rewrite E1, E2. f_equal. apply addrs_nodup in Hw. rewrite E2, fmap_app in Hw. apply NoDup_app in Hw as (Hw & _). by apply upd_lock_at.
Qed.

Lemma grows_range f s e : s <= fl_start f -> fl_end f <= e -> grows f (set_end e (set_start s f)).
Proof. by repeat split. Qed.

(** A lock of the type of the request that touches it, when the request is not
    in the list yet. *)
Lemma merge_caller c dn lf f todo a' b' r : at_loop c dn lf [] (f :: todo) a' b' -> is_request r a' b' -> fl_type f = t -> request c = None -> added c = false ->
  a' - 1 <= fl_end f -> fl_start f - 1 <= b' -> 
  exists c', (let '(f, c) := if fl_start r <? fl_start f then (set_start (fl_start r) f, c) else (f, upd_request (set_start (fl_start f)) c) in
    let '(f, c) := if fl_end f <? fl_end r then (set_end (fl_end r) f, c) else (f, upd_request (set_end (fl_end f)) c) in
    if added c then c ← drop_lock f (todo ++ post) c; Some (true, c) else Some (true, become f (todo ++ post) c)) = Some (true, c') /\
    at_loop c' dn lf [f] todo (Z.min a' (fl_start f)) (Z.max b' (fl_end f)).
Proof.
  intros Hl (Er1 & Er2 & _) Hty Eq Ead H1 H2. pose proof (al_split _ _ _ _ _ _ _ Hl) as Hsp. destruct (todo_ok _ _ _ _ _ _ _ Hsp) as [[Hp Hc [Hr Hm] Htt] Hid].
  assert (t <> F_UNLCK) as Ht by (rewrite <- Hty; destruct Htt as [->| ->]; done).
  pose proof (split_merge _ _ _ _ _ _ _ _ _ _ _ Hsp Hty Hr Hm H1 H2) as Hsp'.
  set (f' := set_end (Z.max b' (fl_end f)) (set_start (Z.min a' (fl_start f)) f)).
  assert (waits_ok (f' :: passed c ++ (todo ++ post) ++ elsew) (lw c)) as Hw.
  { apply (waits_grow f); [|apply grows_range; lia]. eapply waits_ok_perm; [|done|apply (al_waits _ _ _ _ _ _ _ Hl)]. rewrite (al_rest _ _ _ _ _ _ _ Hl). solve_Permutation. }
  assert (forall f1 c', f1 = f' -> passed c' = passed c -> left c' = left c -> right c' = right c -> lw c' = lw c -> at_loop (become f1 (todo ++ post) c') dn lf [f] todo (Z.min a' (fl_start f)) (Z.max b' (fl_end f))) as Hb.
  { intros f1 c' -> E1 E2 E3 E4. eapply become_ok; [exact Hl|done|exact Hsp'|done|by repeat split|done|done|done|done|]. by rewrite E4. }
  rewrite Er1, Er2.
  destruct (Z.ltb_spec a' (fl_start f)); cbn [fl_end set_start]; (destruct (Z.ltb_spec (fl_end f) b'); [|unfold upd_request; rewrite ?Eq]);
    unfold upd_request; rewrite ?Eq; cbn [request passed rest caller left right lw added]; rewrite Ead; (eexists; split; [done|]).
  all: apply Hb; [|done..]; unfold f'; destruct f; unfold set_start, set_end; cbn in *; f_equal; lia.
Qed.

(** The same once the request is a lock of the list: that is extended and the
    lock deleted. *)
Lemma merge_alias c dn lf mid f todo a' b' r v : at_loop c dn lf mid (f :: todo) a' b' -> is_request r a' b' -> fl_type f = t ->
  request c = Some (fl_addr v) -> passed c = pre ++ dn ++ lf ++ [v] -> added c = true -> is_request v a' b' -> t <> F_UNLCK -> mid <> [] ->
  fl_start f - 1 <= b' ->
  exists c', (let '(f, c) := if fl_start r <? fl_start f then (set_start (fl_start r) f, c) else (f, upd_request (set_start (fl_start f)) c) in
    let '(f, c) := if fl_end f <? fl_end r then (set_end (fl_end r) f, c) else (f, upd_request (set_end (fl_end f)) c) in
    if added c then c ← drop_lock f (todo ++ post) c; Some (true, c) else Some (true, become f (todo ++ post) c)) = Some (true, c') /\
    at_loop c' dn lf (mid ++ [f]) todo a' (Z.max b' (fl_end f)).
Proof.
  intros Hl (Er1 & Er2 & _) Hty Eq Ep Ead Hv Ht Hmid H2. pose proof (al_split _ _ _ _ _ _ _ Hl) as Hsp. pose proof (al_waits _ _ _ _ _ _ _ Hl) as Hw.
  destruct (todo_ok _ _ _ _ _ _ _ Hsp) as [[Hp Hc [Hr Hm] Htt] Hid].
  assert (a' < fl_start f) as Hlt by (eapply split_next; [done|]; destruct lf, mid; done).
  assert (split_at own t a b dn lf (mid ++ [f]) todo a' (Z.max b' (fl_end f))) as Hsp'.
  { replace a' with (Z.min a' (fl_start f)) at 1 by lia. eapply split_merge; [done|done|lia..]. }
  rewrite Er1, (proj2 (Z.ltb_lt _ _) Hlt), Er2. cbn [fl_end set_start].
  pose proof (al_rest _ _ _ _ _ _ _ Hl) as Erest. rewrite Erest, Ep in Hw.
  assert (forall e, b' <= e -> exists v', v' = set_end e v /\ is_request v' a' e /\ waits_ok (f :: (pre ++ dn ++ lf ++ [v']) ++ (todo ++ post) ++ elsew) (lw c)) as Hgrow.
  { intros e He. exists (set_end e v). split; [done|]. destruct Hv as (E1 & E2 & E3 & E4 & E5 & E6). split; [by repeat split|].
    eapply waits_ok_perm; [|done|apply (waits_grow v (set_end e v) (f :: (pre ++ dn ++ lf) ++ (todo ++ post) ++ elsew))].
    - solve_Permutation.
    - eapply waits_ok_perm; [|done|exact Hw]. solve_Permutation.
    - repeat split; simpl; lia. }
  destruct (Z.ltb_spec (fl_end f) b') as [Hlt2|Hge2].
  - rewrite Ead. destruct (drop_ok c dn lf mid f todo a' b' c (set_end b' (set_start a' f)) (Z.max b' (fl_end f))) as (c' & -> & Hc'); [done|done|done|done|done| | |by exists c'].
    + right. exists v. rewrite Z.max_l by lia. split; [done|]. split; [done|]. split; [done|]. split; [done|]. split; [done|]. by destruct mid.
    + rewrite Ep. apply (waits_grow f); [|apply grows_range; lia]. eapply waits_ok_perm; [|done|exact Hw]. solve_Permutation.
  - rewrite (upd_alias c (pre ++ dn ++ lf) v _ (lw c)); [|by apply (al_waits _ _ _ _ _ _ _ Hl)|done|by rewrite Ep, <- !app_assoc].
    cbn [added]. rewrite Ead. destruct (Hgrow (fl_end f) ltac:(lia)) as (v' & Ev' & Hv' & Hw').
    edestruct (drop_ok c dn lf mid f todo a' b' (mk_loop ((pre ++ dn ++ lf) ++ [set_end (fl_end f) v]) (rest c) (caller c) (request c) true (left c) (right c) (lw c)) (set_start a' f) (Z.max b' (fl_end f)))
      as (c' & -> & Hc'); [done|done|done|done|done| | |by exists c'].
    + right. exists v'. rewrite Z.max_r by lia. cbn [request passed added]. rewrite Ev'. split; [done|]. split; [by rewrite <- !app_assoc|]. split; [done|].
      split; [by rewrite <- Ev'|]. split; [done|]. by destruct mid.
    + cbn [passed lw]. apply (waits_grow f); [|repeat split; simpl; lia]. rewrite <- Ev'. eapply waits_ok_perm; [|done|exact Hw']. solve_Permutation.
Qed.

Lemma same_type_ok c dn lf mid f todo a' b' r : at_loop c dn lf mid (f :: todo) a' b' -> is_request r a' b' -> fl_type f = t ->
  exists go c', same_type r f (todo ++ post) c = Some (go, c') /\
    if (go : bool) then exists dn' lf' mid' a2 b2, at_loop c' dn' lf' mid' todo a2 b2 else at_exit c' dn lf mid (f :: todo) a' b'.
Proof.
  intros Hl Hr Hty. pose proof Hr as (Er1 & Er2 & _). pose proof (al_split _ _ _ _ _ _ _ Hl) as Hsp. pose proof (sa_range _ _ _ _ _ _ _ _ _ _ Hsp) as Hrg.
  destruct (todo_ok _ _ _ _ _ _ _ Hsp) as [[Hp Hc [Hrf Hm] Htt] Hid]. unfold OFFSET_MAX in *. unfold same_type. rewrite Er1, Er2, !s64_small by lia.
  destruct (Z.ltb_spec (fl_end f) (a' - 1)) as [H1|H1].
  { assert (lf ++ mid = []) as E by (destruct (decide (lf ++ mid = [])) as [|Hne]; [done|]; pose proof (split_next _ _ _ _ _ _ _ _ _ _ _ Hsp Hne); lia).
    apply app_eq_nil in E as [-> ->]. eexists _, _. split; [done|]. exists (dn ++ [f]), [], [], a', b'.
    destruct (al_shape _ _ _ _ _ _ _ Hl) as [(E1 & E2 & E3 & -> & -> & _ & E4)|(? & _ & _ & _ & _ & _ & H)]; [|done].
    eapply (next_lock_ok c dn [] []); [done|apply split_skip; [done|lia|lia]|by rewrite app_nil_r|done..|apply Hl|done]. }
  destruct (Z.ltb_spec b' (fl_start f - 1)) as [H2|H2].
  { eexists _, _. split; [done|]. split; [done|apply Hl|apply Hl|]. left. split; [apply Hl|]. split; [apply Hl|]. split; [apply Hl|]. eapply todo_after; [done|lia|lia]. }
  destruct (al_shape _ _ _ _ _ _ _ Hl) as [(E1 & E2 & E3 & E4 & E5 & E6 & E7)|(v & E1 & E2 & E3 & E4 & E5 & E6)].
  - assert (t <> F_UNLCK) as Ht by (rewrite <- Hty; destruct Htt as [->| ->]; done). destruct E6 as [|E6]; [done|]. subst mid.
    destruct (merge_caller c dn lf f todo a' b' r Hl Hr Hty E1) as (c' & E & Hc'); [by rewrite E7, (proj2 (Z.eqb_neq _ _) Ht)|lia|lia|].
    rewrite Er1, Er2 in E. exists true, c'. split; [done|]. by eexists _, _, _, _, _.
  - destruct (merge_alias c dn lf mid f todo a' b' r v Hl Hr Hty E1 E2 E3 E4 E5 E6) as (c' & E & Hc'); [lia|].
    rewrite Er1, Er2 in E. exists true, c'. split; [done|]. by eexists _, _, _, _, _.
Qed.

(** A lock of another type that the request covers: deleted, or replaced by the
    request if that is not in the list yet. *)
Lemma covered_ok c dn lf mid f todo a' b' r c1 : at_loop c dn lf mid (f :: todo) a' b' -> is_request r a' b' -> fl_type f <> t ->
  a' <= fl_start f -> fl_end f <= b' ->
  c1 = mk_loop (passed c) (rest c) (caller c) (request c) ((t =? F_UNLCK) || added c) (left c) (right c) (lw c) ->
  exists c' mid', (if added c1 then c ← drop_lock f (todo ++ post) c1; Some (true, c) else
    '(f, w) ← locks_wake_up_blocks f (lw c1);
    let f := set_lmops (fl_lmops r) (set_type (fl_type r) (set_end (fl_end r) (set_start (fl_start r) f))) in
    Some (true, become f (todo ++ post) (mk_loop (passed c1) (rest c1) (caller c1) (request c1) (added c1) (left c1) (right c1) w))) = Some (true, c') /\
    at_loop c' dn lf mid' todo a' b'.
Proof.
  intros Hl (Er1 & Er2 & Er3 & _ & Erc & Eri) Hty H1 H2 ->. pose proof (al_split _ _ _ _ _ _ _ Hl) as Hsp. pose proof (al_waits _ _ _ _ _ _ _ Hl) as Hw.
  destruct (todo_ok _ _ _ _ _ _ _ Hsp) as [[Hp Hc [Hr Hm] Htt] Hid]. rewrite (al_rest _ _ _ _ _ _ _ Hl) in Hw. rewrite (lmops_same r f) by (done || congruence). cbn [added lw passed rest caller request left right].
  assert (split_at own t a b dn lf (mid ++ [f]) todo a' b') as Hsp' by (apply split_swallow; [done|lia|lia]).
  assert (waits_ok (f :: passed c ++ (todo ++ post) ++ elsew) (lw c)) as Hwf by (eapply waits_ok_perm; [|done|exact Hw]; solve_Permutation).
  destruct (decide ((t =? F_UNLCK) || added c = true)) as [Ead|Ead].
  - rewrite Ead. edestruct (drop_ok c dn lf mid f todo a' b' (mk_loop (passed c) (rest c) (caller c) (request c) true (left c) (right c) (lw c)) f b') as (c' & -> & Hc');
      [done|done|done|done|done| |done|by exists c', (mid ++ [f])].
    destruct (al_shape _ _ _ _ _ _ _ Hl) as [(E1 & E2 & E3 & E4 & E5 & E6 & E7)|(v & E1 & E2 & E3 & E4 & E5 & E6)].
    + left. cbn [request caller passed added]. assert ((t =? F_UNLCK) = true) as Eu by (rewrite E7 in Ead; destruct (t =? F_UNLCK); done).
      rewrite Eu. repeat (split; [done|]). split; [left; by apply Z.eqb_eq|done].
    + right. exists v. cbn [request caller passed added]. repeat (split; [done|]). by destruct mid.
  - apply not_true_is_false in Ead. rewrite Ead. apply orb_false_iff in Ead as [Eu Ead]. apply Z.eqb_neq in Eu.
    destruct (al_shape _ _ _ _ _ _ _ Hl) as [(E1 & E2 & E3 & E4 & E5 & E6 & E7)|(v & E1 & E2 & E3 & E4 & E5 & E6)]; [|congruence].
    destruct E6 as [| ->]; [done|]. destruct (waits_wake _ _ _ Hwf) as (w' & -> & Hw'). cbn [mbind option_bind]. eexists _, [f]. split; [done|].
    eapply become_ok; [exact Hl|done|exact Hsp'|done| |done|done|done|done|].
    + split; [done|]. split; [done|]. by repeat split.
    + by apply Hw'.
Qed.

Lemma other_type_ok c dn lf mid f todo a' b' r : at_loop c dn lf mid (f :: todo) a' b' -> is_request r a' b' -> fl_type f <> t ->
  exists go c', other_type r f (todo ++ post) c = Some (go, c') /\
    if (go : bool) then exists dn' lf' mid' a2 b2, at_loop c' dn' lf' mid' todo a2 b2 else at_exit c' dn lf mid (f :: todo) a' b'.
Proof.
  intros Hl Hr Hty. pose proof Hr as (Er1 & Er2 & Er3 & _). pose proof (al_split _ _ _ _ _ _ _ Hl) as Hsp. pose proof (sa_range _ _ _ _ _ _ _ _ _ _ Hsp) as Hrg.
  destruct (todo_ok _ _ _ _ _ _ _ Hsp) as [[Hp Hc [Hrf Hm] Htt] Hid]. unfold other_type. rewrite Er1, Er2, Er3.
  assert (fl_start f <= a' -> lf = [] /\ mid = []) as Hfirst.
  { intros H. destruct (decide (lf ++ mid = [])) as [E|Hne]; [by apply app_eq_nil in E|]. pose proof (split_next _ _ _ _ _ _ _ _ _ _ _ Hsp Hne). lia. }
  destruct (Z.ltb_spec (fl_end f) a') as [H1|H1].
  { destruct Hfirst as [-> ->]; [lia|]. eexists _, _. split; [done|]. exists (dn ++ [f]), [], [], a', b'.
    destruct (al_shape _ _ _ _ _ _ _ Hl) as [(E1 & E2 & E3 & -> & -> & _ & E4)|(? & _ & _ & _ & _ & _ & H)]; [|done].
    eapply (next_lock_ok c dn [] []); [done|apply split_skip; [done|lia|done]|by rewrite app_nil_r|done..|apply Hl|done]. }
  destruct (Z.ltb_spec b' (fl_start f)) as [H2|H2].
  { eexists _, _. split; [done|]. split; [done|apply Hl|apply Hl|]. left. split; [apply Hl|]. split; [apply Hl|]. split; [apply Hl|]. eapply todo_after; [done|lia|done]. }
  cbn [passed rest caller request added left right lw]. destruct (Z.ltb_spec b' (fl_end f)) as [H3|H3].
  { eexists _, _. split; [done|]. split; cbn [passed rest lw right]; [done|apply Hl|apply Hl|]. right. exists f, todo. split; [done|]. split; [done|]. split; [done|]. split; [lia|]. split.
    - destruct (al_shape _ _ _ _ _ _ _ Hl) as [(E1 & E2 & E3 & E4 & E5 & E6 & E7)|(v & E1 & E2 & E3 & E4 & E5 & E6)].
      + left. cbn [request caller passed added]. repeat (split; [done|]). rewrite E7. by destruct (t =? F_UNLCK).
      + right. exists v. cbn [request caller passed added]. rewrite E3, orb_true_r. done.
    - cbn [left]. destruct (Z.ltb_spec (fl_start f) a') as [H4|H4]; [left; split; [done|]; destruct Hfirst as [-> ->]; [lia|done]|right; split; [done|apply Hl]]. }
  destruct (Z.ltb_spec (fl_start f) a') as [H4|H4].
  - rewrite (proj2 (Z.leb_gt _ _) H4). destruct Hfirst as [-> ->]; [lia|]. eexists _, _. split; [done|]. exists dn, [f], [], a', b'.
    destruct (al_shape _ _ _ _ _ _ _ Hl) as [(E1 & E2 & E3 & -> & -> & _ & E4)|(? & _ & _ & _ & _ & _ & H)]; [|done].
    eapply (next_lock_ok c dn [] []); [done|by apply split_cut|done..|]. cbn [next_lock added]. rewrite E4. by destruct (t =? F_UNLCK).
  - rewrite (proj2 (Z.leb_le _ _) H4). destruct (covered_ok c dn lf mid f todo a' b' r _ Hl Hr Hty H4 H3 eq_refl) as (c' & mid' & E & Hc').
    cbn [passed rest caller request added left right lw] in E. rewrite Er1, Er2, Er3 in E. exists true, c'. split; [done|]. by eexists _, _, _, _, _.
Qed.

(** The loop. *)
Lemma process_ok todo : forall c dn lf mid a' b', at_loop c dn lf mid todo a' b' ->
  exists c' dn' lf' mid' todo' a2 b2, process (todo ++ post) c = Some c' /\ at_exit c' dn' lf' mid' todo' a2 b2.
Proof.
  induction todo as [|f todo IH]; intros c dn lf mid a' b' Hl; destruct (request_ok _ _ _ _ _ _ _ _ (al_shape _ _ _ _ _ _ _ Hl) (al_waits _ _ _ _ _ _ _ Hl)) as (r & Er & Hr).
  - assert (process ([] ++ post) c = Some c) as ->.
    { destruct post as [|p l]; [done|]. cbn [process app]. rewrite Er. cbn [mbind option_bind]. destruct (post_ok p l eq_refl) as [Hc Hi]. destruct Hr as (_ & _ & _ & _ & Hrc & Hri).
      rewrite same_owner_ident by done. rewrite bool_decide_false by congruence. done. }
    exists c, dn, lf, mid, [], a', b'. split; [done|]. split; [apply Hl..|]. left. split; [apply Hl|]. split; [apply Hl|]. split; [apply Hl|]. intros g Hg. by apply elem_of_nil in Hg.
  - cbn [process app]. rewrite Er. cbn [mbind option_bind]. destruct (todo_ok _ _ _ _ _ _ _ (al_split _ _ _ _ _ _ _ Hl)) as [[_ Hfc _ _] Hfi]. pose proof Hr as (_ & _ & Ety & _ & Hrc & Hri).
    rewrite same_owner_ident by done. rewrite bool_decide_true by congruence. cbn [negb].
    assert (exists go c', (if fl_type r =? fl_type f then same_type r f (todo ++ post) c else other_type r f (todo ++ post) c) = Some (go, c') /\
      if (go : bool) then exists dn' lf' mid' a2 b2, at_loop c' dn' lf' mid' todo a2 b2 else at_exit c' dn lf mid (f :: todo) a' b') as (go & c' & -> & Hgo).
    { destruct (Z.eqb_spec (fl_type r) (fl_type f)) as [E|E]; [apply same_type_ok|apply other_type_ok]; [done|done|congruence|done|done|congruence]. }
    cbn [mbind option_bind]. destruct go.
    + destruct Hgo as (dn' & lf' & mid' & a2 & b2 & Hl'). by eapply IH.
    + exists c', dn, lf, mid, (f :: todo), a', b'. done.
Qed.

(** ** The locks of the owner after the call *)

Definition has (l : list file_lock) (x ty : Z) : Prop := exists f, f ∈ l /\ fl_start f <= x <= fl_end f /\ fl_type f = ty.

(** A part of [f]. *)
Definition piece (f g : file_lock) (s e : Z) : Prop :=
  fl_start g = s /\ fl_end g = e /\ fl_type g = fl_type f /\ IS_POSIX g = IS_POSIX f /\ (consistent f -> consistent g) /\ ident g = ident f.

Definition cut_before (lf L : list file_lock) (a' : Z) : Prop := lf = [] /\ L = [] \/ exists f g, lf = [f] /\ L = [g] /\ piece f g (fl_start f) (a' - 1).

(** The locks before, the part of the cut lock, the request, the part of the lock
    it ends in, and the locks behind. *)
Record final (own' dn lf mid todo : list file_lock) (a' b' : Z) (L V R tl : list file_lock) : Prop := {
  fi_list : own' = dn ++ L ++ V ++ R ++ tl;
  fi_split : split_at own t a b dn lf mid todo a' b';
  fi_req : t = F_UNLCK /\ V = [] /\ a' = a /\ b' = b \/ t <> F_UNLCK /\ exists v, V = [v] /\ is_request v a' b';
  fi_end : (R = [] /\ tl = todo /\ cut_before lf L a' /\ forall g, g ∈ todo -> b' < fl_start g /\ (fl_type g = t -> b' + 1 < fl_start g)) \/
           (exists f f', todo = f :: tl /\ R = [f'] /\ piece f f' (b' + 1) (fl_end f) /\ fl_type f <> t /\ fl_start f <= b' < fl_end f /\
             (fl_start f < a' /\ lf = [] /\ mid = [] /\ (exists g, L = [g] /\ piece f g (fl_start f) (a' - 1)) \/ a' <= fl_start f /\ cut_before lf L a')) }.

Lemma sorted_inj l f g x : StronglySorted before l -> f ∈ l -> g ∈ l -> fl_start f <= x <= fl_end f -> fl_start g <= x <= fl_end g -> f = g.
Proof.
  intros Hs Hf Hg Hxf Hxg. induction Hs as [|h l Hs IH Hh]; [by apply elem_of_nil in Hf|]. rewrite Forall_forall in Hh.
  apply elem_of_cons in Hf as [->|Hf]; apply elem_of_cons in Hg as [->|Hg]; [done|destruct (Hh g Hg); lia|destruct (Hh f Hf); lia|by apply IH].
Qed.

(** Behind a lock that is cut, the request has not been extended. *)
Lemma cut_start dn f mid todo a' b' : split_at own t a b dn [f] mid todo a' b' -> a' = a.
Proof.
  intros [E Hs Hr _ Hlf _ Hl _ _]. destruct Hl as [|(m & Hm & _ & Hst)]; [done|]. destruct Hlf as [|(g & [= <-] & _ & Hf & _)]; [done|].
  rewrite E in Hs. apply sorted_app in Hs as (_ & Hs & _). apply sorted_app in Hs as (_ & _ & Hs). destruct (Hs f m) as [H _]; [by left|apply elem_of_app; by left|]. lia.
Qed.

Section Final.
Context (own' dn lf mid todo L V R tl : list file_lock) (a' b' : Z).
Hypothesis HF : final own' dn lf mid todo a' b' L V R tl.

Lemma final_range : 0 <= a' <= a /\ a <= b <= b' /\ b' <= OFFSET_MAX.
Proof. apply (sa_range _ _ _ _ _ _ _ _ _ _ (fi_split _ _ _ _ _ _ _ _ _ _ _ HF)). Qed.

(** What [L] is cut from. *)
Lemma final_L g : g ∈ L -> exists f, f ∈ own /\ piece f g (fl_start f) (a' - 1) /\ fl_start f < a' <= fl_end f /\ a' = a /\ fl_type f <> t /\
  (forall d, d ∈ dn -> before d f).
Proof.
  intros Hg. pose proof final_range as Hrange. pose proof (fi_split _ _ _ _ _ _ _ _ _ _ _ HF) as Hsp. pose proof Hsp as [E Hs _ _ Hlf _ Hl _ _].
  assert (forall f, f ∈ lf ++ mid ++ todo -> f ∈ own /\ forall d, d ∈ dn -> before d f) as Hdn.
  { intros f Hf. rewrite E. split; [apply elem_of_app; by right|]. rewrite E in Hs. apply sorted_app in Hs as (_ & _ & Hs). intros d Hd. by apply Hs. }
  assert (cut_before lf L a' -> exists f, f ∈ own /\ piece f g (fl_start f) (a' - 1) /\ fl_start f < a' <= fl_end f /\ a' = a /\ fl_type f <> t /\ (forall d, d ∈ dn -> before d f)) as Hcut.
  { intros [[_ ->]|(f & g' & -> & -> & Hp)]; [by apply elem_of_nil in Hg|]. apply list_elem_of_singleton in Hg as ->. exists f. destruct (Hdn f) as [H1 H2]; [by left|].
    pose proof (cut_start _ _ _ _ _ _ Hsp). destruct Hlf as [|(f1 & [= <-] & ? & ? & ?)]; [done|]. split; [done|]. split; [done|]. split; [lia|]. done. }
  destruct (fi_end _ _ _ _ _ _ _ _ _ _ _ HF) as [(_ & _ & Hc & _)|(f & f' & Et & _ & _ & Hty & Hf & [(Hlt & El & Em & g' & -> & Hp)|[_ Hc]])]; [by apply Hcut| |by apply Hcut].
  apply list_elem_of_singleton in Hg as ->. exists f. destruct (Hdn f) as [H1 H2]; [rewrite Et; apply elem_of_app; right; apply elem_of_app; right; by left|].
  split; [done|]. split; [done|]. split; [lia|]. split; [|done]. destruct Hl as [|(m & Hm & _)]; [done|]. rewrite Em in Hm. by apply elem_of_nil in Hm.
Qed.

(** What [R] is cut from, and that the rest lies behind. *)
Lemma final_R f' : f' ∈ R -> exists f, f ∈ own /\ piece f f' (b' + 1) (fl_end f) /\ fl_start f <= b' < fl_end f /\ fl_type f <> t /\ (forall g, g ∈ tl -> before f g).
Proof.
  intros Hf'. pose proof (fi_split _ _ _ _ _ _ _ _ _ _ _ HF) as [E Hs _ _ _ _ _ _ _].
  destruct (fi_end _ _ _ _ _ _ _ _ _ _ _ HF) as [(-> & _)|(f & f1 & Et & -> & Hp & Hty & Hf & _)]; [by apply elem_of_nil in Hf'|]. apply list_elem_of_singleton in Hf' as ->.
  exists f. rewrite E in Hs |- *. split; [rewrite Et, !elem_of_app; do 3 right; by left|]. split; [done|]. split; [done|]. split; [done|].
  apply sorted_app in Hs as (_ & Hs & _). apply sorted_app in Hs as (_ & Hs & _). apply sorted_app in Hs as (_ & Hs & _). rewrite Et in Hs.
  apply StronglySorted_cons in Hs as [Hs _]. by rewrite Forall_forall in Hs.
Qed.

Lemma final_tl g : g ∈ tl -> g ∈ own /\ b' < fl_start g /\ (fl_type g = t -> b' + 1 < fl_start g).
Proof.
  intros Hg. pose proof (fi_split _ _ _ _ _ _ _ _ _ _ _ HF) as [E Hs _ _ _ _ _ _ _].
  destruct (fi_end _ _ _ _ _ _ _ _ _ _ _ HF) as [(_ & -> & _ & H)|(f & f1 & Et & ER & Hp & Hty & Hf & _)].
  - split; [rewrite E, !elem_of_app; by do 3 right|by apply H].
  - split; [rewrite E, Et, !elem_of_app; do 3 right; by right|]. destruct (final_R f1) as (f2 & _ & Hp2 & Hf2 & _ & Hb); [rewrite ER; by left|].
    destruct (Hb g Hg) as [H _]. lia.
Qed.

Lemma final_V v : v ∈ V -> t <> F_UNLCK /\ is_request v a' b'.
Proof. intros Hv. destruct (fi_req _ _ _ _ _ _ _ _ _ _ _ HF) as [(_ & -> & _)|(Ht & v' & -> & Hv')]; [by apply elem_of_nil in Hv|]. by apply list_elem_of_singleton in Hv as ->. Qed.

(** The locks before lie before the extended request. *)
Lemma final_dn d : d ∈ dn -> d ∈ own /\ fl_end d < a' /\ (fl_type d = t -> fl_end d + 1 < a').
Proof.
  intros Hd. pose proof (fi_split _ _ _ _ _ _ _ _ _ _ _ HF) as [E Hs _ Hdn _ _ Hl _ _]. split; [rewrite E; apply elem_of_app; by left|]. specialize (Hdn d Hd).
  destruct Hl as [->|(m & Hm & Hmt & <-)]; [done|]. rewrite E in Hs. apply sorted_app in Hs as (_ & _ & Hs).
  destruct (Hs d m Hd) as [H1 H2]; [rewrite !elem_of_app; auto|]. rewrite <- Hmt. done.
Qed.
(** Each of the lists holds at most one lock, or is a part of [own]. *)
Lemma final_sorted : StronglySorted before own'.
Proof.
  pose proof final_range as Hr. pose proof (fi_split _ _ _ _ _ _ _ _ _ _ _ HF) as [E Hs _ _ _ _ _ _ _].
  assert (forall l : list file_lock, (length l <= 1)%nat -> StronglySorted before l) as Hone.
  { intros [|f [|]] H; [constructor|by repeat constructor|simpl in H; lia]. }
  assert (StronglySorted before dn /\ StronglySorted before tl /\ forall d g, d ∈ dn -> g ∈ tl -> before d g) as (Hsd & Hst & Hdt).
  { rewrite E in Hs. apply sorted_app in Hs as (Hs1 & Hs & Hx). split; [done|].
    apply sorted_app in Hs as (_ & Hs & _). apply sorted_app in Hs as (_ & Hs & _).
    destruct (fi_end _ _ _ _ _ _ _ _ _ _ _ HF) as [(_ & -> & _)|(f & f1 & -> & _)]; [split; [done|]; intros d g Hd Hg; apply Hx; [done|rewrite !elem_of_app; auto]|].
    apply StronglySorted_cons in Hs as [_ Hs]. split; [done|]. intros d g Hd Hg. apply Hx; [done|]. rewrite !elem_of_app. do 2 right. by right. }
  assert ((length L <= 1)%nat /\ (length V <= 1)%nat /\ (length R <= 1)%nat) as (HL & HV & HR).
  { split; [|split].
    - destruct (fi_end _ _ _ _ _ _ _ _ _ _ _ HF) as [(_ & _ & [[_ ->]|(? & ? & _ & -> & _)] & _)|(f & f1 & _ & _ & _ & _ & _ & [(_ & _ & _ & ? & -> & _)|[_ [[_ ->]|(? & ? & _ & -> & _)]]])]; simpl; lia.
    - destruct (fi_req _ _ _ _ _ _ _ _ _ _ _ HF) as [(_ & -> & _)|(_ & v & -> & _)]; simpl; lia.
    - destruct (fi_end _ _ _ _ _ _ _ _ _ _ _ HF) as [(-> & _)|(f & f1 & _ & -> & _)]; simpl; lia. }
  rewrite (fi_list _ _ _ _ _ _ _ _ _ _ _ HF). apply sorted_app. split; [done|]. split; [apply sorted_app; split; [by apply Hone|]; split; [apply sorted_app; split; [by apply Hone|]; split; [apply sorted_app; split; [by apply Hone|]; split; [done|]|]|]|].
  - intros f' g Hf' Hg. destruct (final_R f' Hf') as (f & _ & (_ & E2 & E3 & _) & _ & _ & Hb). destruct (Hb g Hg). split; [|rewrite E3]; rewrite E2; [done|auto].
  - intros v g Hv Hg. destruct (final_V v Hv) as [Ht (E1 & E2 & E3 & _)]. split; [rewrite E2|rewrite E2, E3].
    + apply elem_of_app in Hg as [Hg|Hg]; [destruct (final_R g Hg) as (f & _ & (E4 & _) & _); lia|destruct (final_tl g Hg) as (_ & ? & _); lia].
    + intros Ety. apply elem_of_app in Hg as [Hg|Hg]; [destruct (final_R g Hg) as (f & _ & (_ & _ & E4 & _) & _ & Hn & _); congruence|destruct (final_tl g Hg) as (_ & _ & H); auto].
  - intros l g Hl Hg. destruct (final_L l Hl) as (f & _ & (E1 & E2 & E3 & _) & Hf & Ea & Hn & _). unfold before. rewrite E2, E3.
    apply elem_of_app in Hg as [Hg|Hg]; [destruct (final_V g Hg) as [Ht (E4 & E5 & E6 & _)]; rewrite E4, E6; split; [lia|done]|].
    apply elem_of_app in Hg as [Hg|Hg]; [destruct (final_R g Hg) as (f2 & _ & (E4 & _) & _); rewrite E4; lia|destruct (final_tl g Hg) as (_ & ? & _); lia].
  - intros d g Hd Hg. destruct (final_dn d Hd) as (Hdo & H1 & H2). unfold before.
    apply elem_of_app in Hg as [Hg|Hg]; [destruct (final_L g Hg) as (f & _ & (E1 & E2 & E3 & _) & _ & _ & _ & Hb); destruct (Hb d Hd); by rewrite E1, E3|].
    apply elem_of_app in Hg as [Hg|Hg]; [destruct (final_V g Hg) as [Ht (E4 & E5 & E6 & _)]; by rewrite E4, E6|].
    apply elem_of_app in Hg as [Hg|Hg]; [destruct (final_R g Hg) as (f2 & _ & (E4 & _) & _); rewrite E4; lia|by apply Hdt].
Qed.

Lemma final_posix g : g ∈ own' -> posix_ok g /\ ident g = ident req.
Proof.
  pose proof final_range as Hr. rewrite (fi_list _ _ _ _ _ _ _ _ _ _ _ HF), !elem_of_app. intros Hg.
  assert (forall f s e, f ∈ own -> piece f g s e -> 0 <= s <= e -> e <= OFFSET_MAX -> posix_ok g /\ ident g = ident req) as Hpiece.
  { intros f s e Hf (E1 & E2 & E3 & E4 & E5 & E6) Hse He. destruct (own_ok f Hf) as [[Hp Hc _ Hty] Hi]. split; [|congruence]. split; [congruence|auto|lia|by rewrite E3]. }
  destruct Hg as [Hg|[Hg|[Hg|[Hg|Hg]]]].
  - apply own_ok. by apply final_dn.
  - destruct (final_L g Hg) as (f & Hf & Hp & Hf2 & _). destruct (own_ok f Hf) as [[_ _ Hfr _] _]. eapply Hpiece; [done|done|lia|lia].
  - destruct (final_V g Hg) as [Ht (E1 & E2 & E3 & E4 & E5 & E6)]. split; [|done]. split; [done|done|lia|]. rewrite E3. destruct req_type as [?|[?|?]]; [by left|by right|done].
  - destruct (final_R g Hg) as (f & Hf & Hp & Hf2 & _). destruct (own_ok f Hf) as [[_ _ Hfr _] _]. eapply Hpiece; [done|done|lia|lia].
  - apply own_ok. by apply final_tl.
Qed.

(** Inside the range the owner has the type of the request, outside what it had. *)
Lemma final_points x ty : has own' x ty <-> if decide (a <= x <= b) then ty = t /\ t <> F_UNLCK else has own x ty.
Proof.
  pose proof final_range as Hr. pose proof (fi_split _ _ _ _ _ _ _ _ _ _ _ HF) as Hsp. pose proof Hsp as [E Hs _ _ Hlf Hmid _ _ Hu].
  assert (forall f n, f ∈ own -> n ∈ own -> fl_start f <= x <= fl_end f -> fl_start n <= x <= fl_end n -> f = n) as Hinj by (intros f n; by apply sorted_inj).
  assert (t <> F_UNLCK -> a' <= x <= b' -> has own' x t) as HV.
  { intros Ht Hx. destruct (fi_req _ _ _ _ _ _ _ _ _ _ _ HF) as [(? & _)|(_ & v & EV & (E1 & E2 & E3 & _))]; [done|]. exists v.
    rewrite (fi_list _ _ _ _ _ _ _ _ _ _ _ HF), !elem_of_app, EV. split; [do 2 right; left; by left|]. split; [lia|done]. }
  split.
  - intros (g & Hg & Hx & Hty). rewrite (fi_list _ _ _ _ _ _ _ _ _ _ _ HF), !elem_of_app in Hg. destruct Hg as [Hg|[Hg|[Hg|[Hg|Hg]]]].
    + destruct (final_dn g Hg) as (Ho & H1 & _). rewrite decide_False by lia. by exists g.
    + destruct (final_L g Hg) as (f & Hf & (E1 & E2 & E3 & _) & Hf2 & Ea & _). rewrite decide_False by lia. exists f. split; [done|]. split; [lia|congruence].
    + destruct (final_V g Hg) as [Ht (E1 & E2 & E3 & _)]. case_decide; [split; [congruence|done]|]. destruct (Hu x) as [?|(m & Hm & Hmt & Hmx)]; [lia|done|].
      exists m. split; [rewrite E, !elem_of_app; auto|]. split; [done|congruence].
    + destruct (final_R g Hg) as (f & Hf & (E1 & E2 & E3 & _) & Hf2 & _). rewrite decide_False by lia. exists f. split; [done|]. split; [lia|congruence].
    + destruct (final_tl g Hg) as (Ho & H1 & _). rewrite decide_False by lia. by exists g.
  - case_decide as Hd; [intros [-> Ht]; apply HV; [done|lia]|]. intros (g & Hg & Hx & Hty).
    assert (a' <= x <= b' -> exists m, m ∈ own /\ m ∈ mid /\ fl_type m = t /\ g = m) as Hsame.
    { intros Hx'. destruct (Hu x Hx') as [?|(m & Hm & Hmt & Hmx)]; [done|]. assert (m ∈ own) as Hmo by (rewrite E, !elem_of_app; auto). exists m. split; [done|]. split; [done|]. split; [done|]. by apply Hinj. }
    assert (t = F_UNLCK -> a' <= x <= b' -> False) as Hunl.
    { intros Ht Hx'. destruct (fi_req _ _ _ _ _ _ _ _ _ _ _ HF) as [(_ & _ & -> & ->)|[? _]]; [by apply Hd|done]. }
    destruct (decide (a' <= x <= b')) as [Hin|Hout].
    { destruct (Hsame Hin) as (m & _ & _ & Hmt & ->). rewrite <- Hty, Hmt. apply HV; [|done]. intros Ht. by apply Hunl. }
    assert (forall l, (l = dn \/ l = L \/ l = R \/ l = tl) -> forall h, h ∈ l -> fl_start h <= x <= fl_end h -> fl_type h = ty -> has own' x ty) as Hmk.
    { intros l Hl h Hh Hhx Hht. exists h. rewrite (fi_list _ _ _ _ _ _ _ _ _ _ _ HF), !elem_of_app. split; [destruct_or! Hl; subst l; auto|done]. }
    rewrite E, !elem_of_app in Hg. destruct Hg as [Hg|[Hg|[Hg|Hg]]]; [by eapply (Hmk dn); eauto| |destruct (Hmid g Hg); lia|].
    + assert (cut_before lf L a' -> has own' x ty) as Hcut.
      { intros [[-> _]|(f & l & -> & EL & (E1 & E2 & E3 & _))]; [by apply elem_of_nil in Hg|]. apply list_elem_of_singleton in Hg as ->.
        pose proof (cut_start _ _ _ _ _ _ Hsp). destruct Hlf as [|(f1 & [= <-] & _ & ? & ?)]; [done|]. apply (Hmk L ltac:(auto) l); [rewrite EL; by left|lia|congruence]. }
      destruct (fi_end _ _ _ _ _ _ _ _ _ _ _ HF) as [(_ & _ & Hc & _)|(f & f1 & _ & _ & _ & _ & _ & [(_ & -> & _)|[_ Hc]])]; [auto|by apply elem_of_nil in Hg|auto].
    + destruct (fi_end _ _ _ _ _ _ _ _ _ _ _ HF) as [(_ & -> & _ & _)|(f & f1 & Et & ER & (E1 & E2 & E3 & _) & Hn & Hf & Hlo)]; [by eapply (Hmk todo); eauto|].
      rewrite Et in Hg. apply elem_of_cons in Hg as [->|Hg]; [|by eapply (Hmk tl); eauto]. destruct (decide (b' < x)); [apply (Hmk R ltac:(auto) f1); [rewrite ER; by left|lia|congruence]|].
      destruct Hlo as [(Hlt & _ & _ & l & EL & (E4 & E5 & E6 & _))|[Hge _]]; [|lia]. apply (Hmk L ltac:(auto) l); [rewrite EL; by left|lia|congruence].
Qed.

End Final.

(** ** The end of the call *)

Lemma upd_lock_twice x g h l : (forall f, fl_addr (g f) = fl_addr f) -> upd_lock x (fun _ => h) (upd_lock x g l) = upd_lock x (fun _ => h) l.
Proof.
  intros Hg. unfold upd_lock. rewrite <- list_fmap_compose. apply list_fmap_ext. intros i f _. unfold compose. destruct (fl_addr f =? x) eqn:E; [by rewrite Hg, E|by rewrite E].
Qed.

(** Changing the range of a lock and waking the requests that wait for it. *)
Lemma change_ok c f g : waits_ok ((passed c ++ rest c) ++ elsew) (lw c) -> f ∈ passed c ++ rest c ->
  (forall h, fl_addr (g h) = fl_addr h /\ fl_block (g h) = fl_block h) ->
  exists w', wake_loop (fl_addr f) (upd_loop (fl_addr f) g c) =
      Some (mk_loop (upd_lock (fl_addr f) (fun _ => set_block [] (g f)) (passed c)) (upd_lock (fl_addr f) (fun _ => set_block [] (g f)) (rest c))
        (caller c) (request c) (added c) (left c) (right c) w') /\
    waits_ok (upd_lock (fl_addr f) (fun _ => set_block [] (g f)) (passed c ++ rest c) ++ elsew) w'.
Proof.
  intros Hw Hf Hg. pose proof (addrs_nodup _ _ Hw) as Hnd. apply list_elem_of_split in Hf as (l1 & l2 & El). rewrite El in Hw, Hnd.
  unfold wake_loop, upd_loop. cbn [passed rest caller request added left right lw]. rewrite <- upd_lock_app, El, upd_lock_at by done.
  assert (NoDup (fl_addr <$> l1 ++ g f :: l2)) as Hnd' by (rewrite fmap_app, fmap_cons, (proj1 (Hg f)); by rewrite fmap_app, fmap_cons in Hnd).
  rewrite <- (proj1 (Hg f)), find_lock_at by done. cbn [mbind option_bind].
  assert (waits_ok (f :: (l1 ++ l2) ++ elsew) (lw c)) as Hwf by (eapply waits_ok_perm; [|done|exact Hw]; solve_Permutation).
  destruct (waits_wake _ _ _ Hwf) as (w' & E & Hw'). unfold locks_wake_up_blocks in E |- *. rewrite (proj2 (Hg f)).
  destruct (wake_up_blocks (fl_block f) (lw c)) as [w1|]; [|done]. injection E as <-. cbn [mbind option_bind].
  exists w1. rewrite (proj1 (Hg f)). split.
  - f_equal. f_equal; apply upd_lock_twice; apply Hg.
  - rewrite upd_lock_at by done. eapply waits_ok_perm; [|done|apply (Hw' (set_block [] (g f))); [apply Hg|done]]. solve_Permutation.
Qed.

(** Inserting a lock at [before]. *)
Lemma insert_ok c g : waits_ok ((passed c ++ rest c) ++ elsew) (lw c) -> fl_addr g <> 0 -> (forall f, f ∈ (passed c ++ rest c) ++ elsew -> fl_addr f <> fl_addr g) ->
  fl_block g = [] -> waits_ok ((passed (insert_lock g c) ++ rest (insert_lock g c)) ++ elsew) (lw (insert_lock g c)).
Proof.
  intros Hw H0 Hfr Hb. cbn [insert_lock passed rest lw]. eapply waits_ok_perm; [|done|apply (waits_insert g _ _ Hw H0 Hfr Hb)]. solve_Permutation.
Qed.

End Loop.

End Owners.

End LocksProof.
