(* ===== verification/LocksOps.v ===== *)
(** * File locks: the operations

    [__posix_lock_file] as a whole on a well-formed list of locks. *)

From stdpp Require Import sorting.
From S2P Require Import Prelude Locks LocksProof.

Module LocksOps.
Import Locks LocksProof.

Section Finish.
Context (lockd : Z -> bool) (req : file_lock) (pre post own E0 : list file_lock) (new_fl new_fl2 : Z).
Hypothesis req_posix : IS_POSIX req = true.
Hypothesis req_cons : consistent lockd req.
Hypothesis req_range : 0 <= fl_start req <= fl_end req /\ fl_end req <= OFFSET_MAX.
Hypothesis req_type : fl_type req = F_RDLCK \/ fl_type req = F_WRLCK \/ fl_type req = F_UNLCK.
Hypothesis own_ok : forall f, f ∈ own -> posix_ok lockd f /\ ident f = ident req.

Notation t := (fl_type req).
Notation a := (fl_start req).
Notation b := (fl_end req).
Notation is_request := (is_request lockd req).
Notation piece := (piece lockd).

(** The structures that [locks_alloc_lock] returned: nobody waits for them and
    they are in no list. *)
Definition alloc (n : Z) : list file_lock := if n =? 0 then [] else [mk_lock n 0 0 no_lmops 0 0 0 0 0 [] 0].
Definition allocated : list file_lock := alloc new_fl ++ alloc new_fl2 ++ E0.

Definition fresh (n : Z) (l : list file_lock) : Prop := n <> 0 -> forall f, f ∈ l -> fl_addr f <> n.

Lemma alloc_drop n L w : waits_ok (alloc n ++ L) w -> waits_ok L w /\ fresh n L.
Proof.
  unfold alloc, fresh. destruct (Z.eqb_spec n 0); simpl; intros H; [done|]. split; [by eapply waits_drop|]. intros _ f Hf. by apply (addr_fresh _ _ _ H).
Qed.

Lemma allocated_drop L w : waits_ok (L ++ allocated) w ->
  waits_ok (L ++ E0) w /\ fresh new_fl (L ++ E0) /\ fresh new_fl2 (L ++ E0) /\ (new_fl <> 0 -> new_fl <> new_fl2).
Proof.
  intros H. assert (waits_ok (alloc new_fl ++ alloc new_fl2 ++ L ++ E0) w) as H' by (eapply waits_ok_perm; [|done|exact H]; unfold allocated; solve_Permutation).
  apply alloc_drop in H' as [H1 F1]. pose proof H1 as H2. apply alloc_drop in H2 as [H2 F2]. split; [done|]. split; [|split; [done|]].
  - intros Hn f Hf. apply F1; [done|]. apply elem_of_app. by right.
  - intros Hn E. specialize (F1 Hn). unfold alloc in F1. rewrite <- E in F1. destruct (Z.eqb_spec new_fl 0); [done|]. eapply (F1 (mk_lock new_fl 0 0 no_lmops 0 0 0 0 0 [] 0)); [by left|done].
Qed.

Lemma request_same c c' : request c' = request c -> caller c' = caller c -> passed c' = passed c -> get_request c' = get_request c.
Proof. intros E1 E2 E3. unfold get_request. by rewrite E1, E2, E3. Qed.

Lemma range_piece f s e : piece f (set_block [] (set_end e (set_start s f))) s e.
Proof. by repeat split. Qed.

(** Cutting the lock in which the request ends; [g] is the part before the request
    if the lock is split. *)
Lemma cut_right_ok c f vr tl r : waits_ok ((passed c ++ rest c) ++ E0) (lw c) -> rest c = vr ++ f :: tl -> right c = fl_addr f ->
  get_request c = Some r -> 0 <= fl_end r < OFFSET_MAX -> (left c = right c -> new_fl2 <> 0 /\ fresh new_fl2 ((passed c ++ rest c) ++ E0)) ->
  exists c' lg, cut_right new_fl2 c = Some c' /\ passed c' = passed c /\ request c' = request c /\ caller c' = caller c /\
    waits_ok ((passed c' ++ rest c') ++ E0) (lw c') /\
    rest c' = lg ++ vr ++ set_block [] (set_start (fl_end r + 1) f) :: tl /\
    (left c = right c /\ lg = [locks_copy_lock new_fl2 f] /\ left c' = new_fl2 \/ left c <> right c /\ lg = [] /\ left c' = left c).
Proof.
  intros Hw Er Eri Hr Hrg Hsplit. unfold cut_right. assert (fl_addr f <> 0) as Hf0 by (apply (wo_null _ _ Hw); rewrite Er, !elem_of_app; left; right; right; by left).
  rewrite Eri in *. rewrite (proj2 (Z.eqb_neq _ _) Hf0).
  set (c1 := if left c =? fl_addr f then mk_loop (passed c) (locks_copy_lock new_fl2 f :: rest c) (caller c) (request c) (added c) new_fl2 (fl_addr f) (link_lock (locks_copy_lock new_fl2 f) (lw c)) else c).
  assert (split_right new_fl2 c = Some c1) as ->.
  { unfold c1, split_right. rewrite Eri. destruct (left c =? fl_addr f); [|done]. pose proof (addrs_nodup E0 _ _ Hw) as Hnd. rewrite Er, app_assoc in Hnd. rewrite Er, app_assoc, find_lock_at by done.
    cbn [mbind option_bind insert_lock passed rest caller request added right lw]. rewrite Er, Eri, <- ?app_assoc. done. }
  assert (waits_ok ((passed c1 ++ rest c1) ++ E0) (lw c1) /\ f ∈ passed c1 ++ rest c1 /\ right c1 = fl_addr f /\ get_request c1 = Some r /\ passed c1 = passed c /\ request c1 = request c /\ caller c1 = caller c) as (Hw1 & Hf1 & Er1 & Hg1 & Ep1 & Eq1 & Ec1).
  { unfold c1. destruct (Z.eqb_spec (left c) (fl_addr f)) as [E|E].
    - destruct (Hsplit E) as [Hn Hfr]. split; [apply (insert_ok E0 c (locks_copy_lock new_fl2 f)); [done|done|by apply Hfr|done]|].
      split; [cbn [passed rest]; rewrite Er, !elem_of_app; right; right; apply elem_of_app; right; by left|]. split; [done|]. split; [by rewrite (request_same c)|done].
    - split; [done|]. split; [rewrite Er, !elem_of_app; right; right; by left|]. done. }
  cbn [mbind option_bind]. rewrite Hg1. cbn [mbind option_bind]. rewrite Er1.
  destruct (change_ok E0 c1 f (set_start (s64 (fl_end r + 1))) Hw1 Hf1) as (w' & -> & Hw'); [done|].
  rewrite s64_small in * by (unfold OFFSET_MAX in Hrg; lia).
  assert (exists lg, rest c1 = lg ++ vr ++ f :: tl /\ (left c = fl_addr f /\ lg = [locks_copy_lock new_fl2 f] /\ left c1 = new_fl2 \/ left c <> fl_addr f /\ lg = [] /\ left c1 = left c)) as (lg & Elg & Hlg).
  { unfold c1. destruct (Z.eqb_spec (left c) (fl_addr f)); [exists [locks_copy_lock new_fl2 f]; cbn [rest left]; rewrite Er; auto|exists []; auto]. }
  pose proof (addrs_nodup E0 _ _ Hw1) as Hnd. rewrite Elg in Hnd, Hw' |- *. rewrite !(app_assoc lg) in *. pose proof Hnd as Hnd'.
  rewrite upd_lock_app in Hw'. rewrite fmap_app in Hnd'. apply NoDup_app in Hnd' as (_ & Hd & Hnd').
  rewrite upd_lock_at in Hw' |- * by done. rewrite (upd_lock_ne _ _ (passed c1)) in Hw' |- *.
  2,3: intros h Hh E; apply (Hd (fl_addr h)); [by apply list_elem_of_fmap_2|]; rewrite E, fmap_app, fmap_cons, elem_of_app; right; by left.
  eexists _, lg. split; [done|]. cbn [passed rest request caller lw left]. split; [done|]. split; [done|]. split; [done|]. split; [done|].
  split; [by rewrite <- (app_assoc lg)|]. by rewrite Ep1 || done.
Qed.

(** Cutting the lock in which the request starts. *)
Lemma cut_left_ok c g l1 l2 r : waits_ok ((passed c ++ rest c) ++ E0) (lw c) -> passed c ++ rest c = l1 ++ g :: l2 -> left c = fl_addr g ->
  get_request c = Some r -> 0 <= fl_start r <= OFFSET_MAX ->
  exists c', cut_left c = Some c' /\ waits_ok ((passed c' ++ rest c') ++ E0) (lw c') /\
    passed c' ++ rest c' = l1 ++ set_block [] (set_end (fl_start r - 1) g) :: l2.
Proof.
  intros Hw El Eleft Hr Hrg. assert (g ∈ passed c ++ rest c) as Hg by (rewrite El, elem_of_app; right; by left).
  unfold cut_left. rewrite Eleft. rewrite (proj2 (Z.eqb_neq _ _)) by (apply (wo_null _ _ Hw), elem_of_app; by left). rewrite Hr. cbn [mbind option_bind].
  destruct (change_ok E0 c g (set_end (s64 (fl_start r - 1))) Hw Hg) as (w' & -> & Hw'); [done|]. rewrite s64_small in * by (unfold OFFSET_MAX in *; lia).
  eexists. split; [done|]. cbn [passed rest lw]. rewrite <- upd_lock_app. split; [done|]. pose proof (addrs_nodup E0 _ _ Hw) as Hnd. rewrite El in Hnd |- *. by rewrite upd_lock_at.
Qed.

(** The request in the list: it is there already, or the first new lock is
    inserted, or it is a request to unlock. *)
Lemma inserted_ok c dn lf mid todo a' b' hit r : shape lockd req pre c dn lf mid hit a' b' -> rest c = todo ++ post ->
  waits_ok ((passed c ++ rest c) ++ E0) (lw c) -> get_request c = Some r -> is_request r a' b' ->
  (added c = true \/ t <> F_UNLCK /\ new_fl <> 0 /\ fresh new_fl ((passed c ++ rest c) ++ E0)) ->
  exists c1 vp vr, (if negb (added c) then insert_lock (locks_copy_lock new_fl r) c else c) = c1 /\
    passed c1 = pre ++ dn ++ lf ++ vp /\ rest c1 = vr ++ todo ++ post /\ left c1 = left c /\ right c1 = right c /\
    waits_ok ((passed c1 ++ rest c1) ++ E0) (lw c1) /\ get_request c1 = Some r /\
    (forall n, fresh n ((passed c ++ rest c) ++ E0) -> (new_fl <> 0 -> new_fl <> n) -> fresh n ((passed c1 ++ rest c1) ++ E0)) /\
    (mid = [] -> vp = []) /\
    (t = F_UNLCK /\ vp ++ vr = [] /\ a' = a /\ b' = b \/ t <> F_UNLCK /\ exists v, vp ++ vr = [v] /\ is_request v a' b').
Proof.
  intros Hsh Er Hw Hg Hr Had. destruct Hsh as [(E1 & E2 & E3 & E4 & E5 & E6 & E7)|(v & E1 & E2 & E3 & E4 & E5 & E6)].
  - destruct (added c) eqn:Ead; cbn [negb].
    + exists c, [], []. rewrite !app_nil_r, app_nil_l. repeat (split; [done|]). left. split; [|done]. destruct (Z.eqb_spec t F_UNLCK); [done|by rewrite andb_false_l in E7].
    + destruct Had as [|(Ht & Hn & Hfr)]; [done|]. eexists _, [], [locks_copy_lock new_fl r]. split; [done|]. rewrite app_nil_r. cbn [insert_lock passed rest left right].
      split; [done|]. split; [by rewrite Er|]. split; [done|]. split; [done|]. split; [apply (insert_ok E0 c (locks_copy_lock new_fl r)); [done|done|by apply Hfr|done]|].
      split; [by rewrite (request_same c)|]. split.
      * intros n Hfn Hne Hn0 f. rewrite !elem_of_app, elem_of_cons. intros [[Hf|[->|Hf]]|Hf]; [|simpl; by apply Hne|..]; (apply Hfn; [done|]; rewrite !elem_of_app; auto).
      * split; [done|]. right. split; [done|]. eexists. split; [done|]. destruct Hr as (R1 & R2 & R3 & R4 & R5 & R6). by repeat split.
  - rewrite E3. exists c, [v], []. rewrite app_nil_r, app_nil_l. repeat (split; [done|]). right. split; [done|]. by exists v.
Qed.

Notation final := (final lockd req own).

(** A lock that only ends in the request is not the one in which that ends. *)
Lemma left_not_right c dn lf vp vr f tl w : passed c = pre ++ dn ++ lf ++ vp -> rest c = vr ++ (f :: tl) ++ post ->
  waits_ok ((passed c ++ rest c) ++ E0) w -> left_of lf <> fl_addr f.
Proof.
  intros Ep Er Hw E. assert (f ∈ passed c ++ rest c) as Hfin by (rewrite Er, !elem_of_app; right; right; left; by left).
  destruct lf as [|g lf']; simpl in E; [apply (wo_null _ _ Hw f); [apply elem_of_app; by left|done]|].
  pose proof (addrs_nodup E0 _ _ Hw) as Hnd. rewrite fmap_app in Hnd. apply NoDup_app in Hnd as (_ & Hd & _). apply (Hd (fl_addr g)).
  - apply list_elem_of_fmap_2. rewrite Ep, !elem_of_app. right. right. left. by left.
  - rewrite E. apply list_elem_of_fmap_2. rewrite Er, !elem_of_app. right. left. by left.
Qed.

(** [cut_left], with the part [lg] of a split lock and the locks [rr] and [tl]
    behind the request. *)
Lemma cut_left_list c dn lf mid todo a' b' vp vr r lg rr tl : split_at own t a b dn lf mid todo a' b' ->
  passed c = pre ++ dn ++ lf ++ vp -> rest c = lg ++ vr ++ rr ++ tl ++ post -> get_request c = Some r -> is_request r a' b' ->
  waits_ok ((passed c ++ rest c) ++ E0) (lw c) ->
  (lg = [] /\ left c = left_of lf \/ exists g, lf = [] /\ vp = [] /\ lg = [g] /\ left c = fl_addr g) ->
  exists c' L, (c ← cut_left c; Some (0, c)) = Some (0, c') /\ passed c' ++ rest c' = pre ++ (dn ++ L ++ (vp ++ vr) ++ rr ++ tl) ++ post /\
    waits_ok ((passed c' ++ rest c') ++ E0) (lw c') /\
    (lg = [] /\ cut_before lockd lf L a' \/ exists g, lg = [g] /\ L = [set_block [] (set_end (a' - 1) g)]).
Proof.
  intros Hsp Ep Er Hg (Ra & _) Hw Hlg. pose proof (sa_range _ _ _ _ _ _ _ _ _ _ Hsp) as Hrg. assert (0 <= fl_start r <= OFFSET_MAX) as Hrs by lia.
  destruct Hlg as [[-> El]|(g & Elf & Evp & -> & El)].
  - destruct lf as [|g lf'] eqn:Elf.
    + unfold cut_left. rewrite El. cbn. eexists c, []. split; [done|]. rewrite Er, Ep. split; [by rewrite <- !app_assoc|]. split; [by rewrite Er, Ep in Hw|]. left. split; [done|]. by left.
    + destruct (sa_lf _ _ _ _ _ _ _ _ _ _ Hsp) as [|(g' & [= <- ->] & _)]; [done|].
      destruct (cut_left_ok c g (pre ++ dn) (vp ++ vr ++ rr ++ tl ++ post) r Hw) as (c' & -> & Hw' & Ec'); [by rewrite Er, Ep, <- !app_assoc|done|done|done|].
      cbn [mbind option_bind]. exists c', [set_block [] (set_end (a' - 1) g)]. split; [done|]. rewrite Ec', Ra. split; [by rewrite <- !app_assoc|].
      split; [by rewrite Ec', Ra in Hw'|]. left. split; [done|]. right. eexists g, _. split; [done|]. split; [done|]. by repeat split.
  - subst lf vp. destruct (cut_left_ok c g (pre ++ dn) (vr ++ rr ++ tl ++ post) r Hw) as (c' & -> & Hw' & Ec'); [by rewrite Er, Ep, !app_nil_r, <- !app_assoc|done|done|done|].
    cbn [mbind option_bind]. exists c', [set_block [] (set_end (a' - 1) g)]. split; [done|]. rewrite Ec', Ra. split; [by rewrite <- !app_assoc|].
    split; [by rewrite Ec', Ra in Hw'|]. right. by exists g.
Qed.

(** [cut_right] and [cut_left] with the request in the list. *)
Lemma cuts_ok c1 dn lf mid todo a' b' vp vr r : split_at own t a b dn lf mid todo a' b' ->
  passed c1 = pre ++ dn ++ lf ++ vp -> rest c1 = vr ++ todo ++ post -> waits_ok ((passed c1 ++ rest c1) ++ E0) (lw c1) ->
  get_request c1 = Some r -> is_request r a' b' -> (mid = [] -> vp = []) ->
  (t = F_UNLCK /\ vp ++ vr = [] /\ a' = a /\ b' = b \/ t <> F_UNLCK /\ exists v, vp ++ vr = [v] /\ is_request v a' b') ->
  (right c1 = 0 /\ left c1 = left_of lf /\ (forall g, g ∈ todo -> b' < fl_start g /\ (fl_type g = t -> b' + 1 < fl_start g)) \/
   exists f tl, todo = f :: tl /\ right c1 = fl_addr f /\ fl_type f <> t /\ fl_start f <= b' < fl_end f /\
     (fl_start f < a' /\ lf = [] /\ mid = [] /\ left c1 = fl_addr f /\ new_fl2 <> 0 /\ fresh new_fl2 ((passed c1 ++ rest c1) ++ E0) \/
      a' <= fl_start f /\ left c1 = left_of lf)) ->
  exists c' own', (c ← cut_right new_fl2 c1; c ← cut_left c; Some (0, c)) = Some (0, c') /\ passed c' ++ rest c' = pre ++ own' ++ post /\
    waits_ok ((passed c' ++ rest c') ++ E0) (lw c') /\ exists L V R tl, final own' dn lf mid todo a' b' L V R tl.
Proof.
  intros Hsp Ep Er Hw Hg Hr Hvp Hreq Hend. pose proof (sa_range _ _ _ _ _ _ _ _ _ _ Hsp) as Hrg. pose proof Hr as (Ra & Rb & _).
  destruct Hend as [(Eri & El & Hafter)|(f & tl & Et & Eri & Hty & Hf & Hlo)].
  - unfold cut_right. rewrite Eri. cbn [Z.eqb mbind option_bind].
    destruct (cut_left_list c1 dn lf mid todo a' b' vp vr r [] [] todo) as (c' & L & E & Ec' & Hw' & HL); [done|done|done|done|done|done|by left|].
    exists c'. eexists. split; [exact E|]. split; [exact Ec'|]. split; [done|].
    exists L, (vp ++ vr), [], todo. split; [done|done|done|]. left. split; [done|]. split; [done|]. split; [|done]. by destruct HL as [[_ ?]|(? & ? & _)].
  - subst todo. pose proof (own_ok f) as Hfo. rewrite (sa_own _ _ _ _ _ _ _ _ _ _ Hsp), !elem_of_app in Hfo. destruct Hfo as [[_ _ Hfr _] _]; [do 3 right; by left|].
    pose proof (left_not_right _ _ _ _ _ _ _ _ Ep Er Hw) as Hne.
    assert (left c1 = right c1 -> lf = [] /\ mid = [] /\ fl_start f < a' /\ new_fl2 <> 0 /\ fresh new_fl2 ((passed c1 ++ rest c1) ++ E0)) as Hsplit.
    { intros E. destruct Hlo as [(? & ? & ? & _ & ? & ?)|[_ El]]; [done|congruence]. }
    destruct (cut_right_ok c1 f vr (tl ++ post) r Hw) as (c2 & lg & -> & E1 & E2 & E3 & Hw2 & E4 & Hlg); [done|done|done|lia|intros E; by destruct (Hsplit E) as (_ & _ & _ & ?)|].
    cbn [mbind option_bind]. rewrite Rb in *.
    destruct (cut_left_list c2 dn lf mid (f :: tl) a' b' vp vr r lg [set_block [] (set_start (b' + 1) f)] tl) as (c' & L & E & Ec' & Hw' & HL);
      [done|congruence|by rewrite E4|by rewrite (request_same c1)|done|done| |].
    { destruct Hlg as [(Elr & -> & El2)|(Elr & -> & El2)].
      - destruct (Hsplit Elr) as (-> & Em & _). right. exists (locks_copy_lock new_fl2 f). split; [done|]. split; [by apply Hvp|]. done.
      - left. split; [done|]. rewrite El2. destruct Hlo as [(_ & _ & _ & El & _)|[_ El]]; [congruence|done]. }
    exists c'. eexists. split; [exact E|]. split; [exact Ec'|]. split; [done|]. exists L, (vp ++ vr), [set_block [] (set_start (b' + 1) f)], tl.
    split; [done|done|done|]. right. exists f, (set_block [] (set_start (b' + 1) f)). split; [done|]. split; [done|]. split; [by repeat split|]. split; [done|]. split; [done|].
    destruct Hlg as [(Elr & -> & El2)|(Elr & -> & El2)].
    + destruct (Hsplit Elr) as (-> & -> & Hlt & _). left. split; [done|]. split; [done|]. split; [done|]. destruct HL as [[? _]|(g & [= <-] & ->)]; [done|]. eexists. split; [done|]. by repeat split.
    + right. destruct Hlo as [(_ & _ & _ & El & _)|[Hge El]]; [congruence|]. split; [done|]. by destruct HL as [[_ ?]|(? & ? & _)].
Qed.

(** If the request is not in the list, the loop has not changed that. *)
Lemma unchanged c dn lf mid todo a' b' hit : split_at own t a b dn lf mid todo a' b' -> rest c = todo ++ post -> shape lockd req pre c dn lf mid hit a' b' -> mid = [] ->
  passed c ++ rest c = pre ++ own ++ post.
Proof.
  intros Hsp Er Hsh ->. rewrite (sa_own _ _ _ _ _ _ _ _ _ _ Hsp), Er. destruct Hsh as [(_ & _ & -> & _)|(v & _ & _ & _ & _ & _ & ?)]; [|done]. by rewrite <- !app_assoc.
Qed.

(** A request that is not in the list has swallowed no lock. *)
Lemma not_added_mid c dn lf mid a' b' hit : shape lockd req pre c dn lf mid hit a' b' -> added c = false -> (hit = false -> mid = []) -> mid = [].
Proof.
  intros [(_ & _ & _ & _ & _ & [Ht| ->] & E)|(v & _ & _ & E & _)] Ha Hh; [|done|congruence]. rewrite Ht, Ha in E. by apply Hh.
Qed.

(** The end of the call at the exit of the loop. *)
Lemma finish_ok c dn lf mid todo a' b' : at_exit lockd req pre post allocated own c dn lf mid todo a' b' ->
  exists err c' own', finish new_fl new_fl2 c = Some (err, c') /\ passed c' ++ rest c' = pre ++ own' ++ post /\ waits_ok ((passed c' ++ rest c') ++ E0) (lw c') /\
   ((err = 0 \/ err = - ENOENT /\ t = F_UNLCK /\ has_flag req FL_EXISTS = true /\ own' = own) /\ (exists L V R tl, final own' dn lf mid todo a' b' L V R tl) \/
    err = - ENOLCK /\ own' = own /\ (new_fl = 0 /\ t <> F_UNLCK \/ new_fl2 = 0 /\ exists f, f ∈ own /\ fl_type f <> t /\ fl_start f < a /\ b < fl_end f)).
Proof.
  intros [Hsp Er Hw Hend]. apply allocated_drop in Hw as (Hw & Hfr1 & Hfr2 & Hne).
  assert (exists hit, shape lockd req pre c dn lf mid hit a' b' /\ (hit = false -> mid = [] /\ lf = [])) as (hit & Hsh & Hhit).
  { destruct Hend as [(_ & _ & Hsh & _)|(f & tl & _ & _ & _ & _ & Hsh & _)]; [exists (nonempty (lf ++ mid)); split; [done|]; by destruct lf, mid|by exists true]. }
  destruct (request_ok lockd req pre E0 req_posix req_cons _ _ _ _ _ _ _ _ Hsh Hw) as (r & Hg & Hr). unfold finish. rewrite Hg.
  destruct (negb (right c =? 0) && (left c =? right c) && (new_fl2 =? 0)) eqn:Eg.
  { apply andb_true_iff in Eg as [[E1 E2]%andb_true_iff E3]. apply Z.eqb_eq in E2, E3. exists (- ENOLCK), c, own. split; [done|].
    assert (mid = [] /\ exists f tl, todo = f :: tl /\ fl_type f <> t /\ fl_start f < a' /\ b' < fl_end f) as [Em (f & tl & Et & Hty & Hlo & Hhi)].
    { destruct Hend as [(Eri & _)|(f & tl & Et & Eri & Hty & Hf & Hsh' & [(Hlt & _ & ? & _)|[_ El]])]; [by rewrite Eri in E1|split; [done|]; exists f, tl; by repeat split; try lia|exfalso].
      subst todo. destruct Hsh' as [(_ & _ & Ep & _)|(v & _ & Ep & _)].
      - eapply (left_not_right c dn lf [] [] f tl); [by rewrite app_nil_r|exact Er|exact Hw|congruence].
      - eapply (left_not_right c dn lf [v] [] f tl); [exact Ep|exact Er|exact Hw|congruence]. }
    pose proof (unchanged _ _ _ _ _ _ _ _ Hsp Er Hsh Em) as Eu. split; [done|]. split; [done|]. right. split; [done|]. split; [done|]. right. split; [done|].
    exists f. pose proof Hsp as [-> _ _ _ _ _ Hl Hri _]. rewrite Em in Hl, Hri. destruct Hl as [<-|(m & Hm & _)]; [|by apply elem_of_nil in Hm]. destruct Hri as [<-|(m & Hm & _)]; [|by apply elem_of_nil in Hm].
    split; [rewrite Et, !elem_of_app; do 3 right; by left|]. by repeat split. }
  cbn [mbind option_bind]. destruct (negb (added c) && (fl_type r =? F_UNLCK)) eqn:Eg2.
  { apply andb_true_iff in Eg2 as [E1%negb_true_iff E2%Z.eqb_eq]. pose proof Hr as (_ & _ & E3 & _). rewrite E3 in E2.
    assert (hit = false /\ get_request c = Some req) as [Ehit Ereq].
    { destruct Hsh as [(Eq & Ec & _ & _ & _ & _ & E4)|(v & _ & _ & E4 & _)]; [|congruence]. split; [rewrite E1, E2 in E4; by destruct hit|]. unfold get_request. by rewrite Eq, Ec. }
    destruct (Hhit Ehit) as [-> ->]. pose proof (unchanged _ _ _ _ _ _ _ _ Hsp Er Hsh eq_refl) as Eu.
    eexists _, c, own. split; [done|]. split; [done|]. split; [done|]. left. rewrite Hg in Ereq. injection Ereq as ->. split; [destruct (has_flag req FL_EXISTS); auto 6|].
    assert (a' = a /\ b' = b) as [Ea Eb] by (destruct Hsh as [(_ & _ & _ & ? & ? & _)|(v & _ & _ & E4 & _)]; [done|congruence]).
    destruct Hend as [(_ & _ & _ & Hafter)|(f & tl & Et & _ & _ & _ & Hsh' & _)].
    - exists [], [], [], todo. split; [by rewrite (sa_own _ _ _ _ _ _ _ _ _ _ Hsp)|done|left; done|]. left. split; [done|]. split; [done|]. split; [by left|done].
    - destruct Hsh' as [(_ & _ & _ & _ & _ & _ & E4)|(v & _ & _ & E4 & _)]; [rewrite E1, E2 in E4; done|congruence]. }
  destruct (negb (added c) && (new_fl =? 0)) eqn:Eg3.
  { apply andb_true_iff in Eg3 as [E1%negb_true_iff E2%Z.eqb_eq]. exists (- ENOLCK), c, own. split; [done|].
    pose proof (unchanged _ _ _ _ _ _ _ _ Hsp Er Hsh (not_added_mid _ _ _ _ _ _ _ Hsh E1 (fun H => proj1 (Hhit H)))) as Eu. split; [done|]. split; [done|]. right. split; [done|]. split; [done|]. left. split; [done|]. destruct Hr as (_ & _ & E3 & _). rewrite E1, E3 in Eg2. by apply Z.eqb_neq in Eg2. }
  destruct (inserted_ok c dn lf mid todo a' b' hit r Hsh Er Hw Hg Hr) as (c1 & vp & vr & -> & Ep1 & Er1 & El1 & Eri1 & Hw1 & Hg1 & Hfr & Hvp & Hreq).
  { destruct (added c); [by left|right]. destruct Hr as (_ & _ & E3 & _). rewrite E3 in Eg2. simpl in Eg2, Eg3. apply Z.eqb_neq in Eg2, Eg3. auto. }
  destruct (cuts_ok c1 dn lf mid todo a' b' vp vr r Hsp Ep1 Er1 Hw1 Hg1 Hr Hvp Hreq) as (c' & own' & E & Ec' & Hw' & Hfin).
  { rewrite El1, Eri1. destruct Hend as [(Eri & El & _ & Hafter)|(f & tl & Et & Eri & Hty & Hf & _ & Hlo)]; [by left|right].
    exists f, tl. split; [done|]. split; [done|]. split; [done|]. split; [done|]. destruct Hlo as [(Hlt & E1 & E2 & E3)|?]; [left|by right].
    do 4 (split; [done|]). assert (new_fl2 <> 0) as Hn2.
    { intros E0'. rewrite E3, Eri, Z.eqb_refl, E0' in Eg. rewrite !andb_true_r in Eg. apply negb_false_iff, Z.eqb_eq in Eg.
      revert Eg. apply (wo_null _ _ Hw). rewrite Er, Et, !elem_of_app. left. right. left. by left. }
    split; [done|]. by apply Hfr. }
  exists 0, c', own'. split; [exact E|]. split; [done|]. split; [done|]. left. auto.
Qed.

End Finish.

End LocksOps.
