(* ===== verification/LocksWf.v ===== *)
(** * File locks: well-formed lists

    The shape of the list of locks of an inode that every operation relies on and
    keeps: leases and BSD locks first, then the POSIX locks, those of an owner
    next to each other, in order, and apart where they have the same type. *)

From stdpp Require Import sorting.
From S2P Require Import Prelude Locks LocksProof LocksOps.

Module LocksWf.
Import Locks LocksProof LocksOps.

Section Wf.
Context (lockd : Z -> bool).

(** The POSIX locks as groups, one for each owner. *)
Definition groups := list ((Z * Z) * list file_lock).
Definition flat (G : groups) : list file_lock := concat (snd <$> G).

Definition group_ok (g : (Z * Z) * list file_lock) : Prop :=
  snd g <> [] /\ StronglySorted before (snd g) /\ forall f, f ∈ snd g -> posix_ok lockd f /\ ident f = fst g.

(** BSD locks: no two conflict. *)
Definition flocks (A : list file_lock) : list file_lock := filter (fun f => IS_LEASE f = false) A.
Record flocks_ok (A : list file_lock) : Prop := {
  fo_posix : forall f, f ∈ A -> IS_POSIX f = false;
  fo_flock : forall f, f ∈ flocks A -> IS_FLOCK f = true;
  fo_conflict : forall f g, f ∈ flocks A -> g ∈ flocks A -> flock_locks_conflict f g = false }.

(** The owners of different groups hold no conflicting locks. *)
Definition compatible (B : list file_lock) : Prop := forall f g, f ∈ B -> g ∈ B -> posix_locks_conflict f g = false.

Record wf_lists (s : state) (A : list file_lock) (G : groups) : Prop := {
  wf_list : i_flock s = A ++ flat G;
  wf_flocks : flocks_ok A;
  wf_nodup : NoDup (fst <$> G);
  wf_group : forall g, g ∈ G -> group_ok g;
  wf_compat : compatible (flat G);
  wf_waits : waits_ok (i_flock s ++ elsewhere s) (ws s);
  wf_waiting : forall a q, a ∈ blocked_list (ws s) -> waiters (ws s) !! a = Some q -> consistent lockd q }.

Definition wf (s : state) : Prop := exists A G, wf_lists s A G.

(** A request that a caller may pass: it is not waiting, and the structure is a
    POSIX lock of a range of bytes. *)
Record valid_request (s : state) (req : file_lock) : Prop := {
  vr_posix : IS_POSIX req = true;
  vr_cons : consistent lockd req;
  vr_range : 0 <= fl_start req <= fl_end req /\ fl_end req <= OFFSET_MAX;
  vr_type : fl_type req = F_RDLCK \/ fl_type req = F_WRLCK \/ fl_type req = F_UNLCK;
  vr_next : fl_next req = 0;
  vr_idle : forall q, waiters (ws s) !! fl_addr req = Some q -> fl_next q = 0 }.

(** The answers of [locks_alloc_lock]. *)
Definition fresh_locks (s : state) (new_fl new_fl2 : Z) : Prop :=
  fresh new_fl (i_flock s ++ elsewhere s) /\ fresh new_fl2 (i_flock s ++ elsewhere s) /\ (new_fl <> 0 -> new_fl <> new_fl2).

(** What the owner [o] holds at byte [x]. *)
Definition holds (s : state) (o : Z * Z) (x ty : Z) : Prop :=
  exists f, f ∈ i_flock s /\ IS_POSIX f = true /\ ident f = o /\ fl_start f <= x <= fl_end f /\ fl_type f = ty.

Lemma elem_flat f G : f ∈ flat G <-> exists g, g ∈ G /\ f ∈ snd g.
Proof.
  unfold flat. rewrite list_elem_of_In, in_concat. split.
  - intros (l & Hl & Hf). rewrite <- list_elem_of_In in Hl. rewrite <- list_elem_of_In in Hf. apply list_elem_of_fmap in Hl as (g & -> & Hg). eauto.
  - intros (g & Hg & Hf). exists (snd g). rewrite <- !list_elem_of_In. split; [by apply list_elem_of_fmap_2|done].
Qed.

Lemma flat_app G H : flat (G ++ H) = flat G ++ flat H.
Proof. unfold flat. by rewrite fmap_app, concat_app. Qed.

(** The list around the locks of the owner [o]. *)
Lemma group_split G o : NoDup (fst <$> G) -> (forall g, g ∈ G -> group_ok g) -> exists G1 own G2, flat G = flat G1 ++ own ++ flat G2 /\
  (own = [] /\ G2 = [] /\ G = G1 \/ own <> [] /\ G = G1 ++ (o, own) :: G2) /\
  (forall g, g ∈ G1 ++ G2 -> g ∈ G /\ fst g <> o) /\ StronglySorted before own /\ forall f, f ∈ own -> posix_ok lockd f /\ ident f = o.
Proof.
  intros Hnd Hok. destruct (decide (o ∈ fst <$> G)) as [Ho|Ho].
  - apply list_elem_of_fmap in Ho as ([o' own] & E0 & Ho). simpl in E0. subst o'. destruct (Hok _ Ho) as (Hne & Hs & Hf). apply list_elem_of_split in Ho as (G1 & G2 & ->).
    exists G1, own, G2. rewrite flat_app. split; [done|]. split; [by right|]. split; [|done]. intros g Hg. rewrite fmap_app, fmap_cons, NoDup_app, NoDup_cons in Hnd.
    destruct Hnd as (_ & Hd & Hn & _). apply elem_of_app in Hg as [Hg|Hg]; (split; [rewrite elem_of_app, elem_of_cons; auto|]); intros E.
    + apply (Hd (fst g)); [by apply list_elem_of_fmap_2|]. rewrite E. by left.
    + apply Hn. simpl. rewrite <- E. by apply list_elem_of_fmap_2.
  - exists G, [], []. rewrite !app_nil_r. split; [done|]. split; [by left|]. split; [|split; [constructor|intros f Hf; by apply elem_of_nil in Hf]].
    intros g Hg. split; [done|]. intros <-. apply Ho. by apply list_elem_of_fmap_2.
Qed.

(** ** What the operations do to the waiting requests

    They stop waiting, and nothing else. *)
Definition shrinks (w w' : waits) : Prop := forall a, a ∈ blocked_list w' -> a ∈ blocked_list w /\ waiters w' !! a = waiters w !! a.

#[local] Instance shrinks_pre : PreOrder shrinks.
Proof.
  split; [done|]. intros w1 w2 w3 H1 H2 a Ha. destruct (H2 a Ha) as [Ha2 ->]. by apply H1.
Qed.

Lemma delete_block_shrinks a w w' : __locks_delete_block a w = Some w' -> shrinks w w'.
Proof.
  unfold __locks_delete_block. intros (q & Hq & [= <-])%bind_Some b. cbn [waiters blocked_list]. intros Hb. unfold remove in Hb. apply list_elem_of_filter in Hb as [Hne Hb].
  by rewrite lookup_insert_ne by done.
Qed.

Lemma wake_up_shrinks l : forall w w', wake_up_blocks l w = Some w' -> shrinks w w'.
Proof.
  induction l as [|a l IH]; intros w w'; cbn [wake_up_blocks]; [intros [= <-]; reflexivity|]. intros (w1 & Hw1 & H)%bind_Some.
  etransitivity; [by eapply delete_block_shrinks|]. by apply IH in H.
Qed.

Lemma wake_blocks_shrinks f w f' w' : locks_wake_up_blocks f w = Some (f', w') -> shrinks w w'.
Proof. intros (w1 & Hw1 & [= <- <-])%bind_Some. by eapply wake_up_shrinks. Qed.

Lemma delete_lock_shrinks f w w' : locks_delete_lock f w = Some w' -> shrinks w w'.
Proof. intros ([f1 w1] & Hw1 & [= <-])%bind_Some. by apply wake_blocks_shrinks in Hw1. Qed.

(** Case analysis on the steps of a call. *)
Ltac steps := repeat match goal with
  | H : Some _ = Some _ |- _ => injection H as H
  | H : (_ ≫= _) = Some _ |- _ => apply bind_Some in H as (? & ? & ?)
  | H : (let '(_, _) := ?x in _) = Some _ |- _ => destruct x
  | H : (if ?b then _ else _) = Some _ |- _ => destruct b
  | _ => progress simplify_eq/=
  end.

Lemma drop_shrinks f l c c' : drop_lock f l c = Some c' -> shrinks (lw c) (lw c').
Proof. unfold drop_lock. intros H. steps. by eapply delete_lock_shrinks. Qed.

Lemma upd_request_lw g c : lw (upd_request g c) = lw c.
Proof. unfold upd_request. by destruct (request c). Qed.

Lemma process_shrinks l : forall c c', process l c = Some c' -> shrinks (lw c) (lw c').
Proof.
  induction l as [|f l IH]; intros c c'; cbn [process]; [intros [= <-]; reflexivity|]. intros (r & Hr & H)%bind_Some. case_match; [by simplify_eq|].
  apply bind_Some in H as ([go c1] & H1 & H). transitivity (lw c1); [|destruct go; [by apply IH|by simplify_eq]]. clear IH H.
  destruct (fl_type r =? fl_type f); [unfold same_type in H1|unfold other_type in H1].
  - do 2 (case_match; [by simplify_eq|]).
    destruct (fl_start r <? fl_start f); simpl in H1; destruct (fl_end f <? fl_end r); case_match; steps;
      try (match goal with H : drop_lock _ _ _ = Some _ |- _ => apply drop_shrinks in H; by rewrite ?upd_request_lw in H end); simpl; rewrite ?upd_request_lw; reflexivity.
  - steps; try done; try (by match goal with H : drop_lock _ _ _ = Some _ |- _ => apply drop_shrinks in H end).
    all: by eapply wake_blocks_shrinks.
Qed.

Lemma wake_loop_shrinks a c c' : wake_loop a c = Some c' -> shrinks (lw c) (lw c').
Proof. unfold wake_loop. intros H. steps. by eapply wake_blocks_shrinks. Qed.

Lemma finish_shrinks n n2 c err c' : finish n n2 c = Some (err, c') -> shrinks (lw c) (lw c').
Proof.
  assert (forall c c', cut_left c = Some c' -> shrinks (lw c) (lw c')) as HL.
  { unfold cut_left. intros c0 c1 H. steps; [done|]. eapply (wake_loop_shrinks _ (upd_loop _ _ _)); eassumption. }
  assert (forall c c', cut_right n2 c = Some c' -> shrinks (lw c) (lw c')) as HR.
  { unfold cut_right, split_right. intros c0 c1 H. steps; [done|..]; match goal with H : wake_loop _ _ = Some _ |- _ => by apply wake_loop_shrinks in H end. }
  unfold finish. intros H. steps; try done. apply HR in H0. apply HL in H1. destruct (negb (added c)); by transitivity (lw x0).
Qed.

(** ** Granting a request *)

Lemma skip_ok r P : forall pre l, (forall f, f ∈ P -> IS_POSIX f = false \/ posix_same_owner r f = false) ->
  (l = [] \/ exists f l', l = f :: l' /\ IS_POSIX f = true /\ posix_same_owner r f = true) -> skip r pre (P ++ l) = (pre ++ P, l).
Proof.
  induction P as [|p P IH]; intros pre l HP Hl.
  - rewrite app_nil_r. destruct Hl as [->|(f & l' & -> & H1 & H2)]; [done|]. simpl. by rewrite H1, H2.
  - cbn [app skip]. assert (negb (IS_POSIX p) || negb (posix_same_owner r p) = true) as ->.
    { destruct (HP p) as [->| ->]; [by left|done|by rewrite orb_true_r]. }
    rewrite IH; [by rewrite <- app_assoc| |done]. intros f Hf. apply HP. by right.
Qed.

Lemma waits_alloc n L w : waits_ok L w -> fresh n L -> waits_ok (alloc n ++ L) w.
Proof.
  unfold alloc. destruct (Z.eqb_spec n 0) as [|Hn]; intros H Hf; [done|]. simpl.
  assert (w = mk_waits (waiters w) (blocked_list w) (file_lock_list w) (woken w)) as -> by by destruct w.
  apply (waits_file_list _ (link_lock (mk_lock n 0 0 no_lmops 0 0 0 0 0 [] 0) w)). apply waits_insert; [done|done|by apply Hf|done].
Qed.

Lemma ident_consistent f g : consistent lockd f -> consistent lockd g -> ident f <> ident g -> posix_same_owner f g = false.
Proof. intros Hf Hg Hn. rewrite (same_owner_ident lockd) by done. by apply bool_decide_false. Qed.

(** What the owner of the request has at the end of a call without a conflict. *)
Record granted (req : file_lock) (own own' : list file_lock) : Prop := {
  gr_sorted : StronglySorted before own';
  gr_posix : forall f, f ∈ own' -> posix_ok lockd f /\ ident f = ident req;
  gr_points : forall x ty, has own' x ty <-> if decide (fl_start req <= x <= fl_end req) then ty = fl_type req /\ fl_type req <> F_UNLCK else has own x ty }.

Lemma grant_ok s req n n2 A G : wf_lists s A G -> valid_request s req -> fresh_locks s n n2 ->
  exists G1 own own' G2 err c c0, flat G = flat G1 ++ own ++ flat G2 /\
    (own = [] /\ G2 = [] /\ G = G1 \/ own <> [] /\ G = G1 ++ (ident req, own) :: G2) /\ (forall g, g ∈ G1 ++ G2 -> g ∈ G /\ fst g <> ident req) /\
    (forall f, f ∈ own -> posix_ok lockd f /\ ident f = ident req) /\
    skip req [] (i_flock s) = (A ++ flat G1, own ++ flat G2) /\
    process (own ++ flat G2) (mk_loop (A ++ flat G1) (own ++ flat G2) req None false 0 0 (ws s)) = Some c0 /\ finish n n2 c0 = Some (err, c) /\
    shrinks (ws s) (lw c) /\ passed c ++ rest c = (A ++ flat G1) ++ own' ++ flat G2 /\ waits_ok ((passed c ++ rest c) ++ elsewhere s) (lw c) /\
    ((err = 0 \/ err = - ENOENT /\ fl_type req = F_UNLCK /\ has_flag req FL_EXISTS = true /\ own' = own) /\ granted req own own' \/
     err = - ENOLCK /\ own' = own /\ (n = 0 /\ fl_type req <> F_UNLCK \/
       n2 = 0 /\ exists f, f ∈ own /\ fl_type f <> fl_type req /\ fl_start f < fl_start req /\ fl_end req < fl_end f)).
Proof.
  intros [Hl HA Hnd Hg _ Hw _] [Hp Hc Hr Ht _ _] (Hf1 & Hf2 & Hne). destruct (group_split G (ident req) Hnd Hg) as (G1 & own & G2 & E & Hcase & Hother & Hs & Hown).
  assert (forall f, f ∈ flat G1 ++ flat G2 -> consistent lockd f /\ ident f <> ident req) as Hout.
  { intros f. rewrite <- flat_app, elem_flat. intros (g & Hin & Hf). destruct (Hother _ Hin) as [HG Hi]. destruct (Hg _ HG) as (_ & _ & Hgf). destruct (Hgf f Hf) as [Hpo Hid]. split; [apply Hpo|congruence]. }
  assert (skip req [] (i_flock s) = (A ++ flat G1, own ++ flat G2)) as Hskip.
  { rewrite Hl, E, app_assoc. apply (skip_ok req (A ++ flat G1) []).
    - intros f [Hf|Hf]%elem_of_app; [left; by apply HA|right]. destruct (Hout f) as [Hfc Hfi]; [apply elem_of_app; by left|]. by apply ident_consistent.
    - destruct own as [|f own]; [destruct Hcase as [(_ & -> & _)|[? _]]; [by left|done]|right]. exists f, (own ++ flat G2). destruct (Hown f) as [[H1 H2 _ _] H3]; [by left|].
      split; [done|]. split; [done|]. rewrite (same_owner_ident lockd) by done. by apply bool_decide_true. }
  assert (forall f l, flat G2 = f :: l -> consistent lockd f /\ ident f <> ident req) as Hpost.
  { intros f l E2. apply Hout. rewrite E2, elem_of_app. right. by left. }
  assert (waits_ok (i_flock s ++ allocated (elsewhere s) n n2) (ws s)) as Hwa.
  { assert (alloc n ++ alloc n2 ++ i_flock s ++ elsewhere s ≡ₚ i_flock s ++ allocated (elsewhere s) n n2) as <- by (unfold allocated; solve_Permutation).
    apply waits_alloc; [by apply waits_alloc|]. intros Hn f [Hf|Hf]%elem_of_app; [|by apply Hf1]. unfold alloc in Hf. destruct (n2 =? 0); [by apply elem_of_nil in Hf|].
    apply list_elem_of_singleton in Hf as ->. simpl. intros E0. by apply Hne. }
  set (c0 := mk_loop (A ++ flat G1) (own ++ flat G2) req None false 0 0 (ws s)).
  destruct (process_ok lockd req (A ++ flat G1) (flat G2) (allocated (elsewhere s) n n2) own Hp Hc Hown Hpost own c0 [] [] [] (fl_start req) (fl_end req))
    as (c1 & dn & lf & mid & todo & a' & b' & Hproc & Hexit).
  { split; [|done|done|done|unfold c0; cbn [passed rest lw]; by rewrite Hl, E, app_assoc in Hwa|left; repeat split; auto; by rewrite ?app_nil_r, ?andb_false_r].
    split; [done|done|lia|intros f Hf; by apply elem_of_nil in Hf|by left|intros f Hf; by apply elem_of_nil in Hf|by left|by left|auto]. }
  destruct (finish_ok lockd req _ _ _ _ _ _ Hp Hc Hr Hown _ _ _ _ _ _ _ Hexit) as (err & c & own' & Hfin & Hlist & Hw' & Hend).
  exists G1, own, own', G2, err, c, c1. do 7 (split; [done|]). split; [transitivity (lw c1); [by apply process_shrinks in Hproc|by eapply finish_shrinks]|].
  split; [done|]. split; [done|]. destruct Hend as [[Herr (L & V & R & tl & HF)]|?]; [left|by right]. split; [done|]. split.
  - by eapply final_sorted.
  - intros f Hf. by eapply final_posix.
  - intros x ty. by eapply final_points.
Qed.

(** Two POSIX locks conflict if different owners have them at a byte, and one of
    them is a write lock. *)
Lemma conflict_point f g : consistent lockd f -> consistent lockd g -> IS_POSIX g = true -> fl_start f <= fl_end f -> fl_start g <= fl_end g ->
  posix_locks_conflict f g = true <-> ident f <> ident g /\ (fl_type f = F_WRLCK \/ fl_type g = F_WRLCK) /\ exists x, fl_start f <= x <= fl_end f /\ fl_start g <= x <= fl_end g.
Proof.
  intros Hf Hg Hp Hfr Hgr. unfold posix_locks_conflict, locks_conflict, locks_overlap. rewrite Hp, (same_owner_ident lockd) by done. case_bool_decide as Hi; [split; [done|by intros [? _]]|]. cbn [negb orb].
  assert ((fl_start g <=? fl_end f) && (fl_start f <=? fl_end g) = true <-> exists x, fl_start f <= x <= fl_end f /\ fl_start g <= x <= fl_end g) as Ho.
  { rewrite andb_true_iff, !Z.leb_le. split; [intros [? ?]; exists (Z.max (fl_start f) (fl_start g)); lia|intros (x & ? & ?); lia]. }
  rewrite <- Ho. destruct ((fl_start g <=? fl_end f) && (fl_start f <=? fl_end g)); [|split; [done|by intros (_ & _ & ?)]]. simpl.
  destruct (Z.eqb_spec (fl_type g) F_WRLCK), (Z.eqb_spec (fl_type f) F_WRLCK); split; try done; try tauto; intros (_ & [?|?] & _); done.
Qed.

Lemma regroup G G1 own own' G2 req : NoDup (fst <$> G) -> (forall g, g ∈ G -> group_ok g) ->
  (own = [] /\ G2 = [] /\ G = G1 \/ own <> [] /\ G = G1 ++ (ident req, own) :: G2) -> (forall g, g ∈ G1 ++ G2 -> g ∈ G /\ fst g <> ident req) ->
  StronglySorted before own' -> (forall f, f ∈ own' -> posix_ok lockd f /\ ident f = ident req) ->
  exists G', flat G' = flat G1 ++ own' ++ flat G2 /\ NoDup (fst <$> G') /\ forall g, g ∈ G' -> group_ok g.
Proof.
  intros Hnd Hg Hc Ho Hs Hown. assert (NoDup (fst <$> G1 ++ G2)) as Hnd'.
  { destruct Hc as [(_ & -> & ->)|[_ ->]]; [by rewrite app_nil_r|]. rewrite fmap_app, fmap_cons in Hnd. rewrite fmap_app. eapply NoDup_Permutation_proper in Hnd; [|by apply Permutation_middle]. by apply NoDup_cons in Hnd as [_ ?]. }
  exists (G1 ++ (match own' with [] => [] | _ => [(ident req, own')] end) ++ G2). rewrite !flat_app. split; [destruct own'; [done|]; unfold flat; simpl; by rewrite app_nil_r|]. split.
  - destruct own' as [|f l]; [done|]. rewrite fmap_app. simpl. rewrite <- Permutation_middle, <- fmap_app. apply NoDup_cons. split; [|done].
    intros (g & E & Hin)%list_elem_of_fmap. by apply (proj2 (Ho _ Hin)).
  - intros g. rewrite !elem_of_app. intros [H|[H|H]]; [apply Hg, Ho; rewrite elem_of_app; by left| |apply Hg, Ho; rewrite elem_of_app; by right].
    destruct own' as [|f l] eqn:E; [by apply elem_of_nil in H|]. apply list_elem_of_singleton in H as ->. by split.
Qed.

(** The locks of the owner agree with those of the others afterwards. *)
Lemma granted_compatible req own own' B : consistent lockd req -> 0 <= fl_start req <= fl_end req -> granted req own own' -> (forall f, f ∈ own -> posix_ok lockd f /\ ident f = ident req) ->
  (forall f, f ∈ B -> posix_ok lockd f /\ ident f <> ident req) -> compatible (B ++ own) -> (fl_type req = F_UNLCK \/ forall f, f ∈ B -> posix_locks_conflict req f = false) -> compatible (B ++ own').
Proof.
  intros Hrc Hrr [Hs Hp Hpt] Hown HB Hcomp Hnc. assert (forall f g, f ∈ own' -> g ∈ B -> posix_locks_conflict f g = false) as Hfg.
  { intros f g Hf Hg. destruct (Hp f Hf) as [[Hf1 Hf2 Hf3 Hf4] Hf5]. destruct (HB g Hg) as [[Hg1 Hg2 Hg3 Hg4] Hg5]. apply not_true_iff_false. rewrite conflict_point by (done || lia).
    intros (Hi & Hty & x & Hx1 & Hx2). assert (has own' x (fl_type f)) as Hh by (exists f; auto). apply Hpt in Hh. case_decide as Hd.
    - destruct Hh as [Ht Hu]. destruct Hnc as [|Hnc]; [done|]. specialize (Hnc g Hg). apply not_true_iff_false in Hnc. apply Hnc. rewrite conflict_point by (done || lia). split; [congruence|]. split; [by rewrite <- Ht|]. eauto.
    - destruct Hh as (f0 & Hf0 & Hx0 & Ht0). destruct (Hown f0 Hf0) as [[H1 H2 H3 H4] H5]. specialize (Hcomp f0 g). rewrite !elem_of_app in Hcomp.
      apply not_true_iff_false in Hcomp; [|auto..]. apply Hcomp. rewrite conflict_point by (done || lia). split; [congruence|]. split; [by rewrite Ht0|]. eauto. }
  intros f g [Hf|Hf]%elem_of_app [Hg|Hg]%elem_of_app; [apply Hcomp; apply elem_of_app; auto| |by apply Hfg|].
  - specialize (Hfg g f Hg Hf). apply not_true_iff_false in Hfg. apply not_true_iff_false. intros Hc. apply Hfg. destruct (Hp g Hg) as [[? ? ? _] ?]. destruct (HB f Hf) as [[? ? ? _] ?].
    rewrite conflict_point in Hc |- * by (done || lia). destruct Hc as (? & ? & x & ? & ?). split; [done|]. split; [tauto|eauto].
  - destruct (Hp f Hf) as [[? ? ? _] ?], (Hp g Hg) as [[? ? ? _] ?]. apply not_true_iff_false. rewrite conflict_point by (done || lia). intros [Hi _]. congruence.
Qed.

End Wf.

End LocksWf.
