(* ===== verification/LocksSafe.v ===== *)
(** * File locks: what the operations promise

    The theorems about [__posix_lock_file], [flock_lock_file] and the operations
    that end waiting, on well-formed lists of locks. *)

From stdpp Require Import sorting.
From S2P Require Import Prelude Locks LocksProof LocksOps LocksWf.

Module LocksSafe.
Import Locks LocksProof LocksOps LocksWf.

(** Membership in parts of a list. *)
Ltac inlist := repeat match goal with H : _ ∈ _ |- _ => revert H end; rewrite ?elem_of_app; clear; tauto.

Section Ops.
Context (lockd : Z -> bool).

Lemma fresh_0 L : fresh 0 L.
Proof. by intros H. Qed.

Lemma waiting_shrinks w w' : shrinks w w' -> (forall a q, a ∈ blocked_list w -> waiters w !! a = Some q -> consistent lockd q) ->
  forall a q, a ∈ blocked_list w' -> waiters w' !! a = Some q -> consistent lockd q.
Proof. intros Hs H a q Ha Hq. destruct (Hs a Ha) as [Ha' E]. rewrite E in Hq. by apply (H a q). Qed.

(** The locks of the owner of a request and those of the others, before and after. *)
Lemma holds_own s A G1 own G2 o : i_flock s = A ++ flat G1 ++ own ++ flat G2 -> (forall f, f ∈ A -> IS_POSIX f = false) ->
  (forall f, f ∈ flat G1 ++ flat G2 -> ident f <> o) -> (forall f, f ∈ own -> posix_ok lockd f /\ ident f = o) ->
  forall x ty, holds s o x ty <-> has own x ty.
Proof.
  intros E HA HG Ho x ty. unfold holds, has. rewrite E. split.
  - intros (f & Hf & Hp & Hi & H). exists f. split; [|done]. rewrite !elem_of_app in Hf. destruct Hf as [Hf|[Hf|[Hf|Hf]]]; [by rewrite (HA f Hf) in Hp| |done|];
      (exfalso; apply (HG f); [apply elem_of_app; auto|done]).
  - intros (f & Hf & H). exists f. rewrite !elem_of_app. destruct (Ho f Hf) as [[? _ _ _] ?]. auto 6.
Qed.

Lemma holds_other s s' A G1 own own' G2 i o : i_flock s = A ++ flat G1 ++ own ++ flat G2 -> i_flock s' = A ++ flat G1 ++ own' ++ flat G2 ->
  (forall f, f ∈ own -> posix_ok lockd f /\ ident f = i) -> (forall f, f ∈ own' -> posix_ok lockd f /\ ident f = i) -> o <> i -> forall x ty, holds s' o x ty <-> holds s o x ty.
Proof.
  intros E E' Ho Ho' Hn x ty. unfold holds. rewrite E, E'. split; intros (f & Hf & Hp & Hi & H); exists f; (split; [|done]); rewrite !elem_of_app in Hf |- *;
    (destruct Hf as [Hf|[Hf|[Hf|Hf]]]; [auto|auto| |auto]).
  - by destruct (Ho' f Hf) as [_ <-].
  - by destruct (Ho f Hf) as [_ <-].
Qed.

(** The waiting requests of [s'] wait in [s] as well, for the same owners. *)
Definition same_locks (L L' : list file_lock) : Prop := forall f f', f ∈ L -> f' ∈ L' -> fl_addr f = fl_addr f' -> ident f = ident f'.
Definition fewer (s s' : state) : Prop := shrinks (ws s) (ws s') /\ same_locks (i_flock s ++ elsewhere s) (i_flock s' ++ elsewhere s').

Lemma same_locks_part (P C N L L' : list file_lock) w w' i : waits_ok L w -> waits_ok L' w' -> (forall f, f ∈ L -> f ∈ P \/ f ∈ C) -> (forall f, f ∈ L' -> f ∈ P \/ f ∈ N) ->
  (forall f, f ∈ P -> f ∈ L /\ f ∈ L') -> (forall f f', f ∈ C -> f' ∈ N -> fl_addr f = fl_addr f' -> ident f = i /\ ident f' = i) -> same_locks L L'.
Proof.
  intros H H' HL HL' HP HC f f' Hf Hf' E. destruct (HL f Hf) as [Hp|Hc].
  - assert (f = f') as -> by (eapply addr_inj; [exact H'|by apply HP|done|done]). done.
  - destruct (HL' f' Hf') as [Hp|Hn]; [assert (f = f') as -> by (eapply addr_inj; [exact H|done|by apply HP|done]); done|]. destruct (HC f f' Hc Hn E). congruence.
Qed.

(** The answer to a request that meets no conflicting lock. *)
Record grant (s : state) (req : file_lock) (n n2 : Z) (r : result) : Prop := {
  g_wf : wf lockd (after r);
  g_elsewhere : elsewhere (after r) = elsewhere s;
  g_fewer : fewer s (after r);
  g_conf : conflock_after r = None;
  g_others : forall o x ty, o <> ident req -> holds (after r) o x ty <-> holds s o x ty;
  g_error :
    error r = 0 /\ (forall x ty, holds (after r) (ident req) x ty <->
      if decide (fl_start req <= x <= fl_end req) then ty = fl_type req /\ fl_type req <> F_UNLCK else holds s (ident req) x ty) \/
    error r = - ENOENT /\ fl_type req = F_UNLCK /\ has_flag req FL_EXISTS = true /\ i_flock (after r) = i_flock s /\
      (forall x ty, fl_start req <= x <= fl_end req -> ~ holds s (ident req) x ty) \/
    error r = - ENOLCK /\ i_flock (after r) = i_flock s /\ (n = 0 /\ fl_type req <> F_UNLCK \/
      n2 = 0 /\ exists f, f ∈ i_flock s /\ posix_ok lockd f /\ ident f = ident req /\ fl_type f <> fl_type req /\ fl_start f < fl_start req /\ fl_end req < fl_end f) }.

Definition no_conflict (s : state) (req : file_lock) : Prop :=
  fl_type req = F_UNLCK \/ forall f, f ∈ i_flock s -> IS_POSIX f = true -> posix_locks_conflict req f = false.

Lemma granted_result s req n n2 A G n' n2' : wf_lists lockd s A G -> valid_request lockd s req -> fresh_locks s n n2 -> no_conflict s req ->
  n' = n \/ n' = 0 /\ fl_type req = F_UNLCK -> n2' = n2 \/ n2' = 0 /\ fl_start req = 0 /\ fl_end req = OFFSET_MAX -> fresh_locks s n' n2' ->
  exists r, (let '(pre, l) := skip req [] (i_flock s) in c ← process l (mk_loop pre l req None false 0 0 (ws s)); '(error, c) ← finish n' n2' c;
      Some (mk_result error (caller c) None (mk_state (passed c ++ rest c) (elsewhere s) (lw c)))) = Some r /\ grant s req n n2 r.
Proof.
  intros Hwf Hv Hfr Hnc Hn Hn2 Hfr'. destruct (grant_ok lockd s req n' n2' A G Hwf Hv Hfr')
    as (G1 & own & own' & G2 & err & c & c0 & E & Hcase & Hoth & Hown & -> & -> & Hfin & Hsh & Hlist & Hw & Hend).
  cbn [mbind option_bind]. rewrite Hfin. cbn [mbind option_bind]. eexists. split; [done|]. destruct Hwf as [Hl HA Hnd Hg Hcomp Hw0 Hwt]. destruct Hv as [Hp Hc Hr Ht _ _].
  assert (forall f, f ∈ flat G1 ++ flat G2 -> posix_ok lockd f /\ ident f <> ident req) as Hout.
  { intros f. rewrite <- flat_app, elem_flat. intros (g & Hin & Hf). destruct (Hoth _ Hin) as [HG Hi]. destruct (Hg _ HG) as (_ & _ & Hgf). destruct (Hgf f Hf) as [Hpo Hid]. split; [done|congruence]. }
  assert (StronglySorted before own' /\ (forall f, f ∈ own' -> posix_ok lockd f /\ ident f = ident req) /\ compatible (flat G1 ++ own' ++ flat G2)) as (Hs' & Hown' & Hcomp').
  { assert (own' = own \/ granted lockd req own own') as [->|Hgr] by (destruct Hend as [[_ ?]|(_ & ? & _)]; auto).
    - split; [|split; [done|by rewrite <- E]]. destruct Hcase as [(-> & _)|[_ ->]]; [constructor|]. apply (Hg (ident req, own)). rewrite elem_of_app. right. by left.
    - split; [apply Hgr|]. split; [apply Hgr|]. intros f g Hf Hg'. eapply (granted_compatible lockd req own own' (flat G1 ++ flat G2)); [done|lia|done|done|done| | |inlist..].
      + intros f' g' Hf' Hg0. apply Hcomp; rewrite E; inlist.
      + destruct Hnc as [?|Hnc]; [by left|right]. intros h Hh. apply Hnc; [rewrite Hl, E; inlist|apply (Hout h Hh)]. }
  destruct (regroup lockd G G1 own own' G2 req Hnd Hg Hcase Hoth Hs' Hown') as (G' & EG & Hnd' & Hg').
  assert (i_flock s = A ++ flat G1 ++ own ++ flat G2) as E1 by (rewrite Hl; by f_equal).
  split; cbn [after elsewhere conflock_after error].
  - exists A, G'. split; cbn [i_flock ws elsewhere]; [by rewrite Hlist, EG, <- app_assoc|done|done|done|by rewrite EG|done|by apply (waiting_shrinks (ws s))].
  - done.
  - split; [done|]. cbn [i_flock elsewhere]. eapply (same_locks_part (A ++ flat G1 ++ flat G2 ++ elsewhere s) own own'); [exact Hw0|exact Hw|rewrite E1|rewrite Hlist|rewrite E1, Hlist|]; try (intros f; rewrite !elem_of_app; tauto).
    intros f f' Hf Hf' _. split; [by apply Hown|by apply Hown'].
  - done.
  - intros o x ty Hno. eapply (holds_other s); [exact E1|cbn [i_flock]; by rewrite Hlist, <- app_assoc|exact Hown|exact Hown'|done].
  - assert (forall x ty, holds s (ident req) x ty <-> has own x ty) as Hb by (eapply holds_own; [exact E1|apply HA|by apply Hout|done]).
    assert (forall x ty, holds (mk_state (passed c ++ rest c) (elsewhere s) (lw c)) (ident req) x ty <-> has own' x ty) as Ha
      by (eapply (holds_own _ A G1 own' G2); [cbn [i_flock]; by rewrite Hlist, <- app_assoc|apply HA|by apply Hout|done]).
    destruct Hend as [[[->|(-> & Hu & Hex & ->)] Hgr]|(-> & -> & Hno)]; [left|right; left|right; right].
    + split; [done|]. intros x ty. rewrite Ha, (gr_points _ _ _ _ Hgr). case_decide; [done|by rewrite Hb].
    + split; [done|]. split; [done|]. split; [done|]. split; [by rewrite E1; cbn [i_flock]; rewrite Hlist, <- app_assoc|]. intros x ty Hx. rewrite Hb, (gr_points _ _ _ _ Hgr), decide_True by done. tauto.
    + split; [done|]. split; [by rewrite E1; cbn [i_flock]; rewrite Hlist, <- app_assoc|]. destruct Hno as [[-> Hu]|[-> (f & Hf & Hx1 & Hx2 & Hx3)]].
      * left. split; [|done]. by destruct Hn as [->|[_ ?]].
      * right. destruct (Hown f Hf) as [Hpf Hi]. pose proof (po_range _ _ Hpf) as Hfr0. destruct Hn2 as [->|(_ & Hz & Hm)]; [|lia]. split; [done|]. exists f. split; [rewrite E1; inlist|done].
Qed.

(** ** Waiting *)

(** A request that waits nowhere is in no list of waiting requests. *)
Lemma idle_not_waiting L w a : waits_ok L w -> (forall q, waiters w !! a = Some q -> fl_next q = 0) -> (forall f, f ∈ L -> a ∉ fl_block f) /\ a ∉ blocked_list w.
Proof.
  intros H Hi. assert (forall f, f ∈ L -> a ∉ fl_block f) as Hb.
  { intros f Hf Ha. destruct (wo_block _ _ H f a Hf Ha) as (q & Hq & Hn & _). rewrite (Hi q Hq) in Hn. by apply (wo_null _ _ H f Hf). }
  split; [done|]. intros Ha. destruct (wo_blocked _ _ H a Ha) as (f & Hf & _ & Hin). by apply (Hb f).
Qed.

Lemma waits_block f L w req : waits_ok (f :: L) w -> fl_next req = 0 -> (forall q, waiters w !! fl_addr req = Some q -> fl_next q = 0) -> blocks req f = true ->
  exists w', locks_insert_block f req w = Some (set_block (fl_block f ++ [fl_addr req]) f, w') /\ waits_ok (set_block (fl_block f ++ [fl_addr req]) f :: L) w' /\
    waiters w' = <[fl_addr req := set_next (fl_addr f) req]> (waiters w) /\ blocked_list w' = if IS_POSIX f then fl_addr req :: blocked_list w else blocked_list w.
Proof.
  intros H Hn Hi Hbl. destruct (idle_not_waiting _ _ _ H Hi) as [Hnb Hnl]. unfold locks_insert_block. rewrite Hn. cbn [Z.eqb negb BUG_ON mbind option_bind].
  eexists. split; [done|]. cbn [waiters blocked_list]. split; [|done].
  assert (forall a, a ∈ blocked_list w -> a ∈ if IS_POSIX f then fl_addr req :: blocked_list w else blocked_list w) as Hinc by (intros a Ha; destruct (IS_POSIX f); [by right|done]).
  split; cbn [waiters blocked_list].
  - assert (forall g a, g ∈ f :: L -> a ∈ fl_block g -> exists q, <[fl_addr req:=set_next (fl_addr f) req]> (waiters w) !! a = Some q /\ fl_next q = fl_addr g /\ blocks q g = true /\
      (IS_POSIX g = true -> a ∈ if IS_POSIX f then fl_addr req :: blocked_list w else blocked_list w)) as Hold.
    { intros g a Hg Ha. destruct (wo_block _ _ H g a Hg Ha) as (q & Hq & H1 & H2 & H3). exists q. rewrite lookup_insert_ne by (intros <-; by apply (Hnb g)). split; [done|]. split; [done|]. split; [done|]. intros Hp. by apply Hinc, H3. }
    intros g a [->|Hg]%elem_of_cons Ha; [|apply Hold; [by right|done]]. apply elem_of_app in Ha as [Ha|Ha%list_elem_of_singleton]; [apply (Hold f); [by left|done]|].
    subst a. eexists. rewrite lookup_insert_eq. split; [done|]. split; [done|]. split; [done|]. intros Hp. change (IS_POSIX f = true) in Hp. rewrite Hp. by left.
  - intros g [->|Hg]%elem_of_cons; [|apply (wo_nodup _ _ H); by right]. apply NoDup_app. split; [apply (wo_nodup _ _ H); by left|]. split; [|apply NoDup_singleton].
    intros a Ha ->%list_elem_of_singleton. by apply (Hnb f); [left|].
  - intros a q. destruct (decide (a = fl_addr req)) as [->|Ha].
    + rewrite lookup_insert_eq. intros [= <-] _. eexists. split; [by left|]. split; [done|]. apply elem_of_app. right. by left.
    + rewrite lookup_insert_ne by done. intros Hq Hne. destruct (wo_next _ _ H a q Hq Hne) as (g & [->|Hg]%elem_of_cons & E1 & E2); [|exists g; split; [by right|done]].
      eexists. split; [by left|]. split; [done|]. apply elem_of_app. by left.
  - intros a Ha. assert (a = fl_addr req /\ IS_POSIX f = true \/ a ∈ blocked_list w) as [[-> Hp]|Ha']; [destruct (IS_POSIX f); [apply elem_of_cons in Ha as [->|?]|]; auto| |].
    + eexists. split; [by left|]. split; [done|]. apply elem_of_app. right. by left.
    + destruct (wo_blocked _ _ H a Ha') as (g & [->|Hg]%elem_of_cons & Hp & E2); [|exists g; split; [by right|done]]. eexists. split; [by left|]. split; [done|]. apply elem_of_app. by left.
  - apply (wo_addr _ _ H).
  - intros g [->|Hg]%elem_of_cons; [apply (wo_null _ _ H f); by left|apply (wo_null _ _ H); by right].
  - intros a q. destruct (decide (a = fl_addr req)) as [->|Ha]; [rewrite lookup_insert_eq; by intros [= <-]|rewrite lookup_insert_ne by done; apply (wo_key _ _ H)].
Qed.

(** The list with the request in the list of a lock. *)
Lemma upd_block_list l f b w L : waits_ok (l ++ L) w -> f ∈ l -> exists l1 l2, l = l1 ++ f :: l2 /\ upd_lock (fl_addr f) (fun _ => set_block b f) l = l1 ++ set_block b f :: l2.
Proof.
  intros H (l1 & l2 & ->)%list_elem_of_split. exists l1, l2. split; [done|]. apply (upd_lock_at (fun _ => set_block b f)). pose proof (wo_addr _ _ H) as Hnd. rewrite fmap_app in Hnd. by apply NoDup_app in Hnd as (? & _).
Qed.

(** Locks whose lists of waiting requests change. *)
Lemma wf_reblock s A G h e w : wf_lists lockd s A G -> (forall f, f ∈ i_flock s -> exists b, h f = set_block b f) -> waits_ok ((h <$> i_flock s) ++ e) w ->
  (forall a q, a ∈ blocked_list w -> waiters w !! a = Some q -> consistent lockd q) ->
  wf lockd (mk_state (h <$> i_flock s) e w) /\ forall o x ty, holds (mk_state (h <$> i_flock s) e w) o x ty <-> holds s o x ty.
Proof.
  intros [Hl [HA1 HA2 HA3] Hnd Hg Hc _ _] Hh Hw Hwt. set (hg := fun g : (Z * Z) * list file_lock => (fst g, h <$> snd g)).
  assert (forall f, f ∈ A ++ flat G -> exists b, h f = set_block b f) as Hh' by (by rewrite <- Hl).
  assert (flat (hg <$> G) = h <$> flat G) as Ef.
  { unfold flat. clear. induction G as [|g G IH]; [done|]. cbn [fmap list_fmap concat]. change (list_fmap _ _ hg G) with (hg <$> G). rewrite fmap_app. by f_equal. }
  assert (forall (l : list file_lock) f', f' ∈ h <$> l -> (forall f, f ∈ l -> f ∈ A ++ flat G) -> exists f b, f ∈ l /\ f' = set_block b f) as Hin.
  { intros l f' (f & -> & Hf)%list_elem_of_fmap Hsub. destruct (Hh' f (Hsub f Hf)) as [b ->]. eauto. }
  assert (forall f', f' ∈ flocks (h <$> A) -> exists f b, f ∈ flocks A /\ f' = set_block b f) as Hfl.
  { unfold flocks. intros f' [H1 H2]%list_elem_of_filter. destruct (Hin A f' H2) as (f & b & Hf & ->); [intros; inlist|]. exists f, b. split; [by apply list_elem_of_filter|done]. }
  split.
  - exists (h <$> A), (hg <$> G). split; cbn [i_flock elsewhere ws]; [by rewrite Hl, fmap_app, Ef| | | | |done|done].
    + split.
      * intros f' Hf'. destruct (Hin A f' Hf') as (f & b & Hf & ->); [intros; inlist|exact (HA1 f Hf)].
      * intros f' Hf'. destruct (Hfl f' Hf') as (f & b & Hf & ->). exact (HA2 f Hf).
      * intros f' g' Hf' Hg'. destruct (Hfl f' Hf') as (f & b & Hf & ->), (Hfl g' Hg') as (g & d & Hg2 & ->). exact (HA3 f g Hf Hg2).
    + by rewrite <- list_fmap_compose.
    + intros g' (g & -> & Hgin)%list_elem_of_fmap. destruct (Hg g Hgin) as (H1 & H2 & H3).
      assert (forall f, f ∈ snd g -> exists b, h f = set_block b f) as Hgh by (intros f Hf; apply Hh'; apply elem_of_app; right; apply elem_flat; eauto).
      split; [simpl; by destruct (snd g)|]. split.
      * cbn [hg snd]. clear H1 H3. revert H2 Hgh. generalize (snd g). intros l H2. induction H2 as [|f l Hs IH Hf]; intros Hgh; [constructor|]. cbn [fmap list_fmap]. constructor; [apply IH; intros; apply Hgh; by right|].
        rewrite Forall_forall in Hf |- *. intros k' (k & -> & Hk)%list_elem_of_fmap. destruct (Hgh f) as [b ->]; [by left|]. destruct (Hgh k) as [d ->]; [by right|]. exact (Hf k Hk).
      * intros f' (f & -> & Hf)%list_elem_of_fmap. destruct (Hgh f Hf) as [b ->]. destruct (H3 f Hf) as [[? ? ? ?] ?]. split; [by split|done].
    + rewrite Ef. intros f' g' Hf' Hg'. destruct (Hin (flat G) f' Hf') as (f & b & Hf & ->); [intros; inlist|]. destruct (Hin (flat G) g' Hg') as (g & d & Hg2 & ->); [intros; inlist|]. exact (Hc f g Hf Hg2).
  - intros o x ty. unfold holds. cbn [i_flock]. split.
    + intros (f' & (f & -> & Hf)%list_elem_of_fmap & H). destruct (Hh f Hf) as [b E]. rewrite E in H. by exists f.
    + intros (f & Hf & H). exists (h f). split; [by apply list_elem_of_fmap_2|]. destruct (Hh f Hf) as [b ->]. done.
Qed.

(** A request begins to wait for [f]. *)
Lemma block_ok s A G f req : wf_lists lockd s A G -> f ∈ i_flock s -> fl_next req = 0 -> (forall q, waiters (ws s) !! fl_addr req = Some q -> fl_next q = 0) ->
  blocks req f = true -> (IS_POSIX f = true -> consistent lockd req) ->
  exists f' w, locks_insert_block f req (ws s) = Some (f', w) /\ waiters w = <[fl_addr req := set_next (fl_addr f) req]> (waiters (ws s)) /\
    blocked_list w = (if IS_POSIX f then fl_addr req :: blocked_list (ws s) else blocked_list (ws s)) /\
    same_locks (i_flock s ++ elsewhere s) (upd_lock (fl_addr f) (fun _ => f') (i_flock s) ++ elsewhere s) /\
    let s' := mk_state (upd_lock (fl_addr f) (fun _ => f') (i_flock s)) (elsewhere s) w in wf lockd s' /\ forall o x ty, holds s' o x ty <-> holds s o x ty.
Proof.
  intros Hwf Hf Hn Hi Hb Hc. pose proof (wf_waits _ _ _ _ Hwf) as Hw.
  destruct (upd_block_list (i_flock s) f (fl_block f ++ [fl_addr req]) _ _ Hw Hf) as (l1 & l2 & El & Eu).
  assert (waits_ok (f :: l1 ++ l2 ++ elsewhere s) (ws s)) as Hw' by (rewrite El in Hw; eapply waits_ok_perm; [|done|exact Hw]; solve_Permutation).
  destruct (waits_block _ _ _ _ Hw' Hn Hi Hb) as (w & E & Hw2 & Ew & Ebl). eexists _, w. split; [exact E|]. split; [done|]. split; [done|]. split.
  { eapply (same_locks_part (l1 ++ l2 ++ elsewhere s) [f] [set_block (fl_block f ++ [fl_addr req]) f]); [exact Hw| |rewrite El|rewrite Eu|rewrite Eu, El|];
      [rewrite Eu; eapply waits_ok_perm; [|done|exact Hw2]; solve_Permutation|..]; try (intros g; rewrite !elem_of_app, ?elem_of_cons, ?elem_of_nil; tauto).
    intros g g' ->%list_elem_of_singleton ->%list_elem_of_singleton _. by split. }
  cbv zeta. apply (wf_reblock s A G); [done| | |].
  - intros g Hg. cbn beta. destruct (Z.eqb_spec (fl_addr g) (fl_addr f)) as [Ea|]; [|exists (fl_block g); by destruct g]. assert (g = f) as -> by (eapply addr_inj; [exact Hw|inlist..|done]). eauto.
  - fold (upd_lock (fl_addr f) (fun _ => set_block (fl_block f ++ [fl_addr req]) f) (i_flock s)). rewrite Eu. eapply waits_ok_perm; [|done|exact Hw2]. solve_Permutation.
  - intros a q Ha. rewrite Ew, Ebl in *. destruct (decide (a = fl_addr req)) as [->|Hne].
    + rewrite lookup_insert_eq. intros [= <-]. destruct (IS_POSIX f) eqn:Hp; [exact (Hc eq_refl)|]. by destruct (idle_not_waiting _ _ _ Hw Hi).
    + rewrite lookup_insert_ne by done. apply (wf_waiting _ _ _ _ Hwf). destruct (IS_POSIX f); [|done]. by apply elem_of_cons in Ha as [->|?].
Qed.

Lemma elem_remove a b l : b ∈ remove a l <-> b <> a /\ b ∈ l.
Proof. unfold remove. by rewrite list_elem_of_filter. Qed.

Lemma remove_id a l : a ∉ l -> remove a l = l.
Proof.
  intros H. induction l as [|b l IH]; [done|]. apply not_elem_of_cons in H as [H1 H2]. unfold remove in *. rewrite filter_cons_True by done. by rewrite IH.
Qed.

(** A request stops waiting. *)
Definition rid (a : Z) (f : file_lock) : file_lock := set_block (remove a (fl_block f)) f.

Lemma rid_list L w a q : waits_ok L w -> waiters w !! a = Some q -> forall l, (forall f, f ∈ l -> f ∈ L) -> upd_lock (fl_next q) (rid a) l = rid a <$> l.
Proof.
  intros H Hq l Hl. unfold upd_lock. apply list_fmap_ext. intros i f Hf%list_elem_of_lookup_2. destruct (Z.eqb_spec (fl_addr f) (fl_next q)) as [|Hne]; [done|].
  unfold rid. rewrite remove_id; [by destruct f|]. intros Ha. destruct (wo_block _ _ H f a (Hl f Hf) Ha) as (q' & Hq' & Hn & _). congruence.
Qed.

Lemma waits_rid L w a q : waits_ok L w -> waiters w !! a = Some q ->
  waits_ok (rid a <$> L) (mk_waits (<[a := set_next 0 q]> (waiters w)) (remove a (blocked_list w)) (file_lock_list w) (woken w)).
Proof.
  intros H Hq. split; cbn [waiters blocked_list].
  - intros f' b (f & -> & Hf)%list_elem_of_fmap [Hne Hb]%elem_remove. destruct (wo_block _ _ H f b Hf Hb) as (q' & Hq' & Hn & Hc & Hp). exists q'. rewrite lookup_insert_ne by done.
    split; [done|]. split; [done|]. split; [done|]. intros Hpo. apply elem_remove. split; [done|exact (Hp Hpo)].
  - intros f' (f & -> & Hf)%list_elem_of_fmap. apply NoDup_filter. by apply (wo_nodup _ _ H).
  - intros b q'. destruct (decide (b = a)) as [->|Hne]; [rewrite lookup_insert_eq; by intros [= <-]|]. rewrite lookup_insert_ne by done. intros Hb Hn.
    destruct (wo_next _ _ H b q' Hb Hn) as (f & Hf & E1 & E2). exists (rid a f). split; [by apply list_elem_of_fmap_2|]. split; [done|]. by apply elem_remove.
  - intros b [Hne Hb]%elem_remove. destruct (wo_blocked _ _ H b Hb) as (f & Hf & Hp & Hin). exists (rid a f). split; [by apply list_elem_of_fmap_2|]. split; [done|]. by apply elem_remove.
  - rewrite <- list_fmap_compose. apply (wo_addr _ _ H).
  - intros f' (f & -> & Hf)%list_elem_of_fmap. exact (wo_null _ _ H f Hf).
  - intros b q'. destruct (decide (b = a)) as [->|Hne]; [rewrite lookup_insert_eq; intros [= <-]; exact (wo_key _ _ H a q Hq)|rewrite lookup_insert_ne by done; apply (wo_key _ _ H)].
Qed.

Lemma unblock_ok s A G a q : wf_lists lockd s A G -> waiters (ws s) !! a = Some q -> exists s', locks_delete_block a s = Some s' /\ wf lockd s' /\
  (forall o x ty, holds s' o x ty <-> holds s o x ty) /\ fewer s s' /\ waiters (ws s') !! a = Some (set_next 0 q) /\ (forall f, f ∈ i_flock s' -> a ∉ fl_block f).
Proof.
  intros Hwf Hq. pose proof (wf_waits _ _ _ _ Hwf) as Hw. unfold locks_delete_block, __locks_delete_block. rewrite Hq. cbn [mbind option_bind]. fold (rid a).
  rewrite (rid_list _ _ _ _ Hw Hq (i_flock s)), (rid_list _ _ _ _ Hw Hq (elsewhere s)) by (intros; inlist). eexists. split; [done|].
  destruct (wf_reblock s A G (rid a) (rid a <$> elsewhere s) (mk_waits (<[a := set_next 0 q]> (waiters (ws s))) (remove a (blocked_list (ws s))) (file_lock_list (ws s)) (woken (ws s))) Hwf) as [H1 H2].
  - intros f _. by eexists.
  - rewrite <- fmap_app. by apply waits_rid.
  - cbn [waiters blocked_list]. intros b q' [Hne Hb]%elem_remove. rewrite lookup_insert_ne by done. by apply (wf_waiting _ _ _ _ Hwf).
  - split; [done|]. split; [done|]. split.
    { split; cbn [ws i_flock elsewhere].
      - intros b. cbn [blocked_list waiters]. intros [Hne Hb]%elem_remove. by rewrite lookup_insert_ne by done.
      - rewrite <- fmap_app. intros f f' Hf (g & -> & Hg)%list_elem_of_fmap E. rewrite (addr_inj _ _ _ _ Hw Hf Hg E). done. }
    cbn [ws waiters]. rewrite lookup_insert_eq. split; [done|]. intros f' (f & -> & Hf)%list_elem_of_fmap [? _]%elem_remove. done.
Qed.

(** ** POSIX requests *)

Definition conflicting (s : state) (req : file_lock) : option file_lock :=
  if negb (fl_type req =? F_UNLCK) then List.find (fun f => IS_POSIX f && posix_locks_conflict req f) (i_flock s) else None.

Lemma conflicting_none s req : conflicting s req = None <-> no_conflict s req.
Proof.
  unfold conflicting, no_conflict. destruct (Z.eqb_spec (fl_type req) F_UNLCK) as [E|E]; cbn [negb]; [tauto|]. split.
  - intros Hn. right. intros f Hf Hp. eapply find_none in Hn; [|by apply list_elem_of_In]. cbn beta in Hn. by rewrite Hp in Hn.
  - intros [?|H]; [done|]. destruct (List.find _ _) as [f|] eqn:Ef; [|done]. apply find_some in Ef as [Hf [Hp Hc]%andb_true_iff]. rewrite <- list_elem_of_In in Hf. rewrite (H f Hf Hp) in Hc. done.
Qed.

Lemma conflicting_some s req f : conflicting s req = Some f -> f ∈ i_flock s /\ IS_POSIX f = true /\ posix_locks_conflict req f = true.
Proof.
  unfold conflicting. case_match; [|done]. intros [Hf [Hp Hc]%andb_true_iff]%find_some. by rewrite <- list_elem_of_In in Hf.
Qed.

Lemma posix_lock_file_eq s req conf n n2 :
  __posix_lock_file s req conf n n2 =
  let needed := negb (has_flag req FL_ACCESS) && (negb (fl_type req =? F_UNLCK) || negb (fl_start req =? 0) || negb (fl_end req =? OFFSET_MAX)) in
  match conflicting s req with
  | Some f => conflict_found s req f (if conf =? 0 then None else Some (locks_copy_lock conf f))
  | None => if has_flag req FL_ACCESS then Some (mk_result 0 req None s) else
      let '(pre, l) := skip req [] (i_flock s) in
      c ← process l (mk_loop pre l req None false 0 0 (ws s));
      '(error, c) ← finish (if needed then n else 0) (if needed then n2 else 0) c;
      Some (mk_result error (caller c) None (mk_state (passed c ++ rest c) (elsewhere s) (lw c)))
  end.
Proof. done. Qed.

Lemma posix_grant s req conf n n2 : wf lockd s -> valid_request lockd s req -> fresh_locks s n n2 -> no_conflict s req -> has_flag req FL_ACCESS = false ->
  exists r, __posix_lock_file s req conf n n2 = Some r /\ grant s req n n2 r.
Proof.
  intros (A & G & Hwf) Hv Hfr Hnc Ha. rewrite posix_lock_file_eq, (proj2 (conflicting_none s req) Hnc), Ha. cbn [negb andb].
  apply (granted_result s req n n2 A G); [done|done|done|done|..].
  - destruct (Z.eqb_spec (fl_type req) F_UNLCK); cbn [negb orb]; [|by left]. case_match; auto.
  - destruct (Z.eqb_spec (fl_type req) F_UNLCK), (Z.eqb_spec (fl_start req) 0), (Z.eqb_spec (fl_end req) OFFSET_MAX); cbn [negb orb]; auto.
  - case_match; [done|]. split; [apply fresh_0|split; [apply fresh_0|done]].
Qed.

(** The answer to a request that meets the conflicting lock [f]. *)
Record refusal (s : state) (req f : file_lock) (r : result) : Prop := {
  rf_wf : wf lockd (after r);
  rf_elsewhere : elsewhere (after r) = elsewhere s;
  rf_holds : forall o x ty, holds (after r) o x ty <-> holds s o x ty;
  rf_error :
    has_flag req FL_SLEEP = false /\ error r = - EAGAIN /\ after r = s \/
    has_flag req FL_SLEEP = true /\ posix_locks_deadlock s req f = Some true /\ error r = - EDEADLK /\ after r = s \/
    has_flag req FL_SLEEP = true /\ posix_locks_deadlock s req f = Some false /\ error r = - EAGAIN /\ waiters (ws (after r)) = <[fl_addr req := set_next (fl_addr f) req]> (waiters (ws s)) /\
      blocked_list (ws (after r)) = fl_addr req :: blocked_list (ws s) /\ same_locks (i_flock s ++ elsewhere s) (i_flock (after r) ++ elsewhere (after r)) }.

Lemma posix_refused s req conf n n2 f : wf lockd s -> valid_request lockd s req -> conflicting s req = Some f -> (has_flag req FL_SLEEP = true -> is_Some (posix_locks_deadlock s req f)) ->
  exists r, __posix_lock_file s req conf n n2 = Some r /\ conflock_after r = (if conf =? 0 then None else Some (locks_copy_lock conf f)) /\ refusal s req f r.
Proof.
  intros (A & G & Hwf) Hv Hc Hd. assert (wf lockd s) as Hw by by exists A, G. rewrite posix_lock_file_eq, Hc. cbv zeta. unfold conflict_found. destruct (conflicting_some _ _ _ Hc) as (Hf & Hp & Hcf).
  destruct (has_flag req FL_SLEEP) eqn:Hsl; cbn [negb]; [|eexists; split; [done|]; split; [done|]; split; [done|done|done|by left]].
  destruct (Hd eq_refl) as [d Ed]. rewrite Ed. cbn [mbind option_bind]. destruct d.
  - eexists. split; [done|]. split; [done|]. split; [done|done|done|]. right. left. auto.
  - destruct Hv as [Hv1 Hv2 _ _ Hv5 Hv6]. destruct (block_ok s A G f req Hwf Hf Hv5 Hv6) as (f' & w & -> & Ew & Ebl & Hsl2 & Hw' & Hh); [unfold blocks; by rewrite Hp|done|].
    cbn [mbind option_bind]. eexists. split; [done|]. split; [done|]. split; [done|done|done|]. right. right. rewrite Hp in Ebl. auto 6.
Qed.

Lemma refused_returns s req conf n n2 f r : conflicting s req = Some f -> __posix_lock_file s req conf n n2 = Some r -> has_flag req FL_SLEEP = true -> is_Some (posix_locks_deadlock s req f).
Proof.
  intros Hc E Hs. rewrite posix_lock_file_eq, Hc in E. cbv zeta in E. unfold conflict_found in E. rewrite Hs in E. cbn [negb] in E. by apply bind_Some in E as (d & -> & _).
Qed.

(** Every answer. *)
Lemma posix_step s req conf n n2 r : wf lockd s -> valid_request lockd s req -> fresh_locks s n n2 -> __posix_lock_file s req conf n n2 = Some r ->
  wf lockd (after r) /\ elsewhere (after r) = elsewhere s.
Proof.
  intros Hwf Hv Hfr E. destruct (conflicting s req) as [f|] eqn:Hc.
  - assert (has_flag req FL_SLEEP = true -> is_Some (posix_locks_deadlock s req f))  as Hd by (by eapply refused_returns).
    destruct (posix_refused s req conf n n2 f Hwf Hv Hc Hd) as (r' & E' & _ & Hr). rewrite E in E'. injection E' as <-. split; apply Hr.
  - destruct (has_flag req FL_ACCESS) eqn:Ha; [rewrite posix_lock_file_eq, Hc, Ha in E; by injection E as <-|].
    destruct (posix_grant s req conf n n2) as (r' & E' & Hr); [done|done|done|by apply conflicting_none|done|]. rewrite E in E'. injection E' as <-. split; apply Hr.
Qed.

End Ops.

End LocksSafe.
