(* ===== verification/LocksSystem.v ===== *)
(** * File locks: all inodes and all operations

    The BSD locks, and the system of the lists of all inodes, in which any task may
    request, release or give up locks at any time. *)

From stdpp Require Import sorting.
From S2P Require Import Prelude Locks LocksProof LocksOps LocksWf LocksSafe.

Module LocksSystem.
Import Locks LocksProof LocksOps LocksWf LocksSafe.

Section System.
Context (lockd : Z -> bool).

Lemma fewer_refl s : wf lockd s -> fewer s s.
Proof. intros (A & G & H). split; [done|]. intros f f' Hf Hf' E. by rewrite (addr_inj _ _ _ _ (wf_waits _ _ _ _ H) Hf Hf' E). Qed.

(** ** BSD locks *)

Record valid_flock (s : state) (req : file_lock) : Prop := {
  vf_posix : IS_POSIX req = false;
  vf_flock : IS_FLOCK req = true;
  vf_lease : IS_LEASE req = false;
  vf_next : fl_next req = 0;
  vf_idle : forall q, waiters (ws s) !! fl_addr req = Some q -> fl_next q = 0 }.

Lemma flock_own_ok filp B : (forall f, f ∈ B -> IS_POSIX f = true) -> forall A pre, (forall f, f ∈ A -> IS_POSIX f = false) ->
  match flock_own filp pre (A ++ B) with
  | Some (p, f, l) => exists A1 A2, A = A1 ++ f :: A2 /\ p = pre ++ A1 /\ l = A2 ++ B /\ IS_LEASE f = false /\ fl_file f = filp
  | None => forall f, f ∈ flocks A -> fl_file f <> filp
  end.
Proof.
  intros HB A. induction A as [|f A IH]; intros pre HA.
  - assert (flock_own filp pre ([] ++ B) = None) as ->; [|by intros f ?%elem_of_nil]. destruct B as [|g B]; [done|]. simpl. rewrite (HB g); [done|by left].
  - cbn [app flock_own]. rewrite (HA f) by by left. unfold flocks. destruct (IS_LEASE f) eqn:Hl; cbn [orb].
    + specialize (IH (pre ++ [f]) ltac:(intros; apply HA; by right)). rewrite filter_cons_False by congruence.
      destruct (flock_own filp (pre ++ [f]) (A ++ B)) as [[[p g] l]|]; [|done]. destruct IH as (A1 & A2 & -> & -> & H). exists (f :: A1), A2. by rewrite <- app_assoc.
    + rewrite filter_cons_True by done. destruct (Z.eqb_spec filp (fl_file f)) as [->|Hne]; cbn [negb]; [exists [], A; by rewrite app_nil_r|].
      specialize (IH (pre ++ [f]) ltac:(intros; apply HA; by right)). destruct (flock_own filp (pre ++ [f]) (A ++ B)) as [[[p g] l]|].
      * destruct IH as (A1 & A2 & -> & -> & H). exists (f :: A1), A2. by rewrite <- app_assoc.
      * intros g [->|Hg]%elem_of_cons; [congruence|by apply IH].
Qed.

Lemma flock_scan_ok r B : (forall f, f ∈ B -> IS_POSIX f = true) -> forall A pre, (forall f, f ∈ A -> IS_POSIX f = false) ->
  (exists f p l, flock_scan r pre (A ++ B) = (Some f, p, l) /\ f ∈ flocks A /\ flock_locks_conflict r f = true) \/
  flock_scan r pre (A ++ B) = (None, pre ++ A, B) /\ forall f, f ∈ flocks A -> flock_locks_conflict r f = false.
Proof.
  intros HB A. induction A as [|f A IH]; intros pre HA.
  - right. split; [|by intros f ?%elem_of_nil]. rewrite app_nil_r. destruct B as [|g B]; [done|]. simpl. rewrite (HB g); [done|by left].
  - cbn [app flock_scan]. rewrite (HA f) by by left. unfold flocks. specialize (IH (pre ++ [f]) ltac:(intros; apply HA; by right)). rewrite <- app_assoc in IH. destruct (IS_LEASE f) eqn:Hl; cbn [orb].
    + by rewrite filter_cons_False by congruence.
    + rewrite filter_cons_True by done. destruct (flock_locks_conflict r f) eqn:Hc; cbn [negb]; [left; exists f, pre, (f :: A ++ B); split; [done|]; split; [by left|done]|].
      destruct IH as [(g & p & l & E & Hg & H)|[E H]]; [left; exists g, p, l; split; [done|]; split; [by right|done]|right]. split; [done|]. intros g [->|Hg]%elem_of_cons; [done|by apply H].
Qed.

Lemma flock_conflict_sym f g : IS_FLOCK f = true -> IS_FLOCK g = true -> flock_locks_conflict f g = flock_locks_conflict g f.
Proof.
  intros Hf Hg. unfold flock_locks_conflict, locks_conflict. rewrite Hf, Hg, (Z.eqb_sym (fl_file f)), orb_comm. cbn [negb orb].
  rewrite (orb_comm (negb (Z.land (fl_type f) LOCK_MAND =? 0))). destruct (fl_type f =? F_WRLCK), (fl_type g =? F_WRLCK); done.
Qed.

(** The BSD locks change, the POSIX locks do not. *)
Lemma wf_flock s A A' G w : wf_lists lockd s A G -> flocks_ok A' -> waits_ok ((A' ++ flat G) ++ elsewhere s) w ->
  (forall a q, a ∈ blocked_list w -> waiters w !! a = Some q -> consistent lockd q) ->
  wf lockd (mk_state (A' ++ flat G) (elsewhere s) w) /\ forall o x ty, holds (mk_state (A' ++ flat G) (elsewhere s) w) o x ty <-> holds s o x ty.
Proof.
  intros [Hl HA Hnd Hg Hc _ _] HA' Hw Hwt. split; [by exists A', G|]. intros o x ty. unfold holds. cbn [i_flock]. rewrite Hl.
  split; intros (f & Hf & Hp & H); exists f; (split; [|done]); apply elem_of_app; right; apply elem_of_app in Hf as [Hf|Hf]; try done; [by rewrite (fo_posix _ HA' f Hf) in Hp|by rewrite (fo_posix _ HA f Hf) in Hp].
Qed.

Lemma posix_groups s A G : wf_lists lockd s A G -> forall f, f ∈ flat G -> IS_POSIX f = true.
Proof. intros H f (g & Hg & Hf)%elem_flat. destruct (wf_group _ _ _ _ H g Hg) as (_ & _ & Hgf). apply (Hgf f Hf). Qed.

Lemma flocks_app A B : flocks (A ++ B) = flocks A ++ flocks B.
Proof. apply filter_app. Qed.

(** The second part of [flock_lock_file]. *)
Lemma find_conflict_ok s req n : wf lockd s -> valid_flock s req -> (has_flag req FL_ACCESS = false -> n <> 0) -> fresh n (i_flock s ++ elsewhere s) ->
  exists r, find_conflict s req n = Some r /\ wf lockd (after r) /\ elsewhere (after r) = elsewhere s /\ fewer s (after r) /\ (forall o x ty, holds (after r) o x ty <-> holds s o x ty).
Proof.
  intros (A & G & Hwf) [Hp Hfl Hle Hn Hi] Hn0 Hfr. pose proof (wf_flocks _ _ _ _ Hwf) as [HA1 HA2 HA3]. unfold find_conflict. rewrite (wf_list _ _ _ _ Hwf).
  destruct (flock_scan_ok req (flat G) (posix_groups s A G Hwf) A [] HA1) as [(f & p & l & -> & Hf & Hc)|[-> Hc]].
  - assert (fewer s s) as Hrefl by (apply fewer_refl; by exists A, G). destruct (has_flag req FL_SLEEP); cbn [negb]; [|eexists; split; [done|]; split; [by exists A, G|done]]. apply list_elem_of_filter in Hf as [Hfl' Hf].
    destruct (block_ok lockd s A G f req Hwf) as (f' & w & E & Ew & Ebl & Hsl & Hw & Hh); [rewrite (wf_list _ _ _ _ Hwf); inlist|done|done|unfold blocks; by rewrite (HA1 f Hf), Hfl'|by rewrite (HA1 f Hf)|].
    rewrite E. cbn [mbind option_bind]. eexists. split; [done|]. cbn [after elsewhere]. rewrite (wf_list _ _ _ _ Hwf) in Hw, Hh, Hsl. split; [done|]. split; [done|]. split; [|done]. rewrite (HA1 f Hf) in Ebl.
    split; [|cbn [i_flock elsewhere]; by rewrite (wf_list _ _ _ _ Hwf)]. intros a. cbn [ws]. rewrite Ebl, Ew. intros Ha. split; [done|]. rewrite lookup_insert_ne; [done|]. intros <-. by destruct (idle_not_waiting _ _ _ (wf_waits _ _ _ _ Hwf) Hi).
  - destruct (has_flag req FL_ACCESS) eqn:Ha; [eexists; split; [done|]; split; [by exists A, G|]; split; [done|]; split; [apply fewer_refl; by exists A, G|done]|]. eexists. split; [done|]. cbn [after elsewhere app].
    assert (A ++ locks_copy_lock n req :: flat G = (A ++ [locks_copy_lock n req]) ++ flat G) as -> by by rewrite <- app_assoc.
    destruct (wf_flock s A (A ++ [locks_copy_lock n req]) G (link_lock (locks_copy_lock n req) (ws s)) Hwf) as [H1 H2]; [| |apply (wf_waiting _ _ _ _ Hwf)|split; [done|]; split; [done|]; split; [|done]].
    + assert (flocks [locks_copy_lock n req] = [locks_copy_lock n req]) as Es by (unfold flocks; by rewrite filter_cons_True).
      assert (forall f, f ∈ flocks A -> flock_locks_conflict f (locks_copy_lock n req) = false) as Hsym by (intros f Hf; rewrite flock_conflict_sym; [exact (Hc f Hf)|by apply HA2|done]).
      split; [intros f [Hf|Hf%list_elem_of_singleton]%elem_of_app; [by apply HA1|by subst]|intros f|intros f g]; rewrite flocks_app, Es.
      * intros [Hf|Hf%list_elem_of_singleton]%elem_of_app; [by apply HA2|by subst].
      * intros [Hf|Hf%list_elem_of_singleton]%elem_of_app [Hg|Hg%list_elem_of_singleton]%elem_of_app; subst; [by apply HA3|by apply Hsym|exact (Hc g Hg)|].
        unfold flock_locks_conflict. cbn [fl_file locks_copy_lock]. by rewrite Z.eqb_refl, orb_true_r.
    + eapply waits_ok_perm; [|done|apply (waits_insert (locks_copy_lock n req) _ _ (wf_waits _ _ _ _ Hwf)); [by apply Hn0|by apply Hfr, Hn0|done]].
      rewrite (wf_list _ _ _ _ Hwf). solve_Permutation.
    + split; [done|]. cbn [i_flock elsewhere]. rewrite (wf_list _ _ _ _ Hwf) in *. intros f f' Hf Hf' E.
      assert (f' = locks_copy_lock n req \/ f' ∈ (A ++ flat G) ++ elsewhere s) as [->|Hin] by (revert Hf'; rewrite !elem_of_app, list_elem_of_singleton; tauto); [by destruct (Hfr (Hn0 eq_refl) f Hf)|].
      pose proof (wf_waits _ _ _ _ Hwf) as Hww. rewrite (wf_list _ _ _ _ Hwf) in Hww. by rewrite (addr_inj _ _ _ _ Hww Hf Hin E).
Qed.

(** The first part: the state of the answer, or that before [find_conflict]. *)
Definition replaced (p : result + bool * state) : state := match p with inl r => after r | inr (_, s) => s end.

Lemma flock_replace_ok s filp req n : wf lockd s -> exists p, flock_replace s filp req n = Some p /\ wf lockd (replaced p) /\ elsewhere (replaced p) = elsewhere s /\ fewer s (replaced p) /\
  (forall o x ty, holds (replaced p) o x ty <-> holds s o x ty) /\ match p with inl r => True | inr _ => has_flag req FL_ACCESS = false -> n <> 0 end.
Proof.
  intros (A & G & Hwf). assert (wf lockd s) as Hw by by exists A, G. pose proof (fewer_refl s Hw) as Hfew. unfold flock_replace. destruct (has_flag req FL_ACCESS) eqn:Ha; [by eexists|].
  pose proof (wf_flocks _ _ _ _ Hwf) as [HA1 HA2 HA3]. rewrite (wf_list _ _ _ _ Hwf).
  pose proof (flock_own_ok filp (flat G) (posix_groups s A G Hwf) A [] HA1) as Hown. destruct (flock_own filp [] (A ++ flat G)) as [[[p f] l]|].
  - destruct Hown as (A1 & A2 & EA & -> & -> & Hle & Hfi). cbn [app]. destruct (fl_type req =? fl_type f); [by eexists|].
    destruct (waits_delete f ((A1 ++ A2 ++ flat G) ++ elsewhere s) (ws s)) as (w & Ew & Hw').
    { eapply waits_ok_perm; [|done|exact (wf_waits _ _ _ _ Hwf)]. rewrite (wf_list _ _ _ _ Hwf), EA. solve_Permutation. }
    rewrite Ew. cbn [mbind option_bind]. destruct (wf_flock s A (A1 ++ A2) G w Hwf) as [H1 H2].
    { assert (forall f', f' ∈ A1 ++ A2 -> f' ∈ A) as Hsub by (intros f' Hf'; rewrite EA, !elem_of_app, elem_of_cons; inlist).
      assert (forall f', f' ∈ flocks (A1 ++ A2) -> f' ∈ flocks A) as Hsub' by (unfold flocks; intros f' [? ?]%list_elem_of_filter; apply list_elem_of_filter; auto). split; auto. }
    { by rewrite <- (app_assoc A1). } { eapply waiting_shrinks; [by eapply delete_lock_shrinks|apply (wf_waiting _ _ _ _ Hwf)]. }
    rewrite <- app_assoc in H1. rewrite <- app_assoc in H2.
    assert (fewer s (mk_state (A1 ++ A2 ++ flat G) (elsewhere s) w)) as Hfew'.
    { split; [by eapply delete_lock_shrinks|]. cbn [i_flock elsewhere]. intros g g' Hg Hg' E. assert (g' ∈ i_flock s ++ elsewhere s) as Hin by (rewrite (wf_list _ _ _ _ Hwf), EA; revert Hg'; rewrite !elem_of_app, elem_of_cons; tauto).
      by rewrite (addr_inj _ _ _ _ (wf_waits _ _ _ _ Hwf) Hg Hin E). }
    destruct (fl_type req =? F_UNLCK); [by eexists|]. destruct (Z.eqb_spec n 0); by eexists.
  - destruct (fl_type req =? F_UNLCK); [by eexists|]. destruct (Z.eqb_spec n 0); by eexists.
Qed.

(** ** Closing a file *)

Lemma remove_posix_ok s a filp owner tgid : wf lockd s -> lockd owner = false -> (forall q, waiters (ws s) !! a = Some q -> fl_next q = 0) ->
  exists s', locks_remove_posix s a filp owner tgid = Some s' /\ wf lockd s' /\ elsewhere s' = elsewhere s /\ fewer s s' /\
    forall o x ty, holds s' o x ty <-> o <> (owner, 0) /\ holds s o x ty.
Proof.
  intros Hwf Hlo Hi. unfold locks_remove_posix. destruct (i_flock s) as [|f l] eqn:El.
  { exists s. split; [done|]. split; [done|]. split; [done|]. split; [by apply fewer_refl|]. intros o x ty. unfold holds. rewrite El. split; [intros (f & ?%elem_of_nil & _); done|intros (_ & f & ?%elem_of_nil & _); done]. }
  set (req := mk_lock a owner tgid no_lmops filp (Z.lor FL_POSIX FL_CLOSE) F_UNLCK 0 OFFSET_MAX [] 0).
  destruct (posix_grant lockd s req 0 0 0) as (r & -> & [H1 H2 H3 _ H4 H5]); [done| |by split; [apply fresh_0|split; [apply fresh_0|]]|by left|done|].
  { split; [done|by symmetry|done|by right; right|done|done]. }
  cbn [mbind option_bind]. exists (after r). split; [done|]. split; [done|]. split; [done|]. split; [done|]. intros o x ty.
  destruct (decide (o = (owner, 0))) as [->|Hne]; [|rewrite (H4 o x ty) by done; tauto]. split; [|by intros [? _]]. intros Hh. exfalso.
  assert (fl_start req <= x <= fl_end req) as Hx.
  { destruct H1 as (A & G & Hwf'). destruct Hh as (g & Hg & Hp & _ & Hx & _). rewrite (wf_list _ _ _ _ Hwf') in Hg. apply elem_of_app in Hg as [Hg|Hg]; [by rewrite (fo_posix _ (wf_flocks _ _ _ _ Hwf') g Hg) in Hp|].
    apply elem_flat in Hg as (gr & Hgr & Hg). destruct (wf_group _ _ _ _ Hwf' gr Hgr) as (_ & _ & Hgf). destruct (Hgf g Hg) as [[_ _ Hrg _] _]. cbn [fl_start fl_end req]. lia. }
  destruct H5 as [[_ H5]|[(_ & _ & ? & _)|(_ & _ & [[_ ?]|[_ (g & Hg & [_ _ Hrg _] & Hid & _ & Hlt & Hgt)]])]]; [|done|done|].
  - apply H5 in Hh. rewrite decide_True in Hh by done. by destruct Hh as [_ ?].
  - cbn [fl_start fl_end req] in Hlt, Hgt. lia.
Qed.

(** ** The system

    [P s req] restricts the POSIX requests that the tasks make. *)

Inductive call (P : state -> file_lock -> Prop) : state -> state -> Prop :=
  | call_posix s req conf n n2 r : valid_request lockd s req -> P s req -> fresh_locks s n n2 -> __posix_lock_file s req conf n n2 = Some r -> call P s (after r)
  | call_flock s filp req n p : flock_replace s filp req n = Some p -> call P s (replaced p)
  | call_find_conflict s req n r : valid_flock s req -> (has_flag req FL_ACCESS = false -> n <> 0) -> fresh n (i_flock s ++ elsewhere s) -> find_conflict s req n = Some r -> call P s (after r)
  | call_unblock s a err s' : posix_unblock_lock s a = Some (err, s') -> call P s s'
  | call_delete_block s a s' : locks_delete_block a s = Some s' -> call P s s'
  | call_close s a filp owner tgid s' : lockd owner = false -> (forall q, waiters (ws s) !! a = Some q -> fl_next q = 0) ->
      locks_remove_posix s a filp owner tgid = Some s' -> call P s s'.

(** The lists of all inodes; a call works on one of them. *)
Record system := mk_system { inodes : list (list file_lock); sys_ws : waits }.

Definition at_inode (I1 I2 : list (list file_lock)) (l : list file_lock) (w : waits) : state := mk_state l (concat (I1 ++ I2)) w.

Inductive sys_step (P : state -> file_lock -> Prop) : system -> system -> Prop :=
  | sys_call I1 I2 l w l' w' : call P (at_inode I1 I2 l w) (at_inode I1 I2 l' w') -> sys_step P (mk_system (I1 ++ l :: I2) w) (mk_system (I1 ++ l' :: I2) w').

Definition sys_init (k : nat) : system := mk_system (replicate k []) (mk_waits ∅ [] [] []).

(** What a list has by itself, and all lists together. *)
Definition list_ok (l : list file_lock) : Prop := exists A G, l = A ++ flat G /\ flocks_ok A /\ NoDup (fst <$> G) /\ (forall g, g ∈ G -> group_ok lockd g) /\ compatible (flat G).

Record sys_ok (S : system) : Prop := {
  so_lists : forall l, l ∈ inodes S -> list_ok l;
  so_waits : waits_ok (concat (inodes S)) (sys_ws S);
  so_waiting : forall a q, a ∈ blocked_list (sys_ws S) -> waiters (sys_ws S) !! a = Some q -> consistent lockd q }.

Lemma wf_parts s : wf lockd s <-> list_ok (i_flock s) /\ waits_ok (i_flock s ++ elsewhere s) (ws s) /\
  (forall a q, a ∈ blocked_list (ws s) -> waiters (ws s) !! a = Some q -> consistent lockd q).
Proof.
  split.
  - intros (A & G & [H1 H2 H3 H4 H5 H6 H7]). split; [by exists A, G|done].
  - intros ((A & G & H1 & H2 & H3 & H4 & H5) & H6 & H7). by exists A, G.
Qed.

Lemma concat_middle (I1 I2 : list (list file_lock)) l : concat (I1 ++ l :: I2) ≡ₚ l ++ concat (I1 ++ I2).
Proof. rewrite !concat_app. simpl. solve_Permutation. Qed.

Lemma sys_at I1 I2 l w : sys_ok (mk_system (I1 ++ l :: I2) w) <-> wf lockd (at_inode I1 I2 l w) /\ forall l', l' ∈ I1 ++ I2 -> list_ok l'.
Proof.
  rewrite wf_parts. unfold at_inode. cbn [i_flock elsewhere ws]. split.
  - intros [H1 H2 H3]. cbn [inodes sys_ws] in *. rewrite concat_middle in H2. split; [split; [apply H1; rewrite elem_of_app; right; by left|done]|].
    intros l' Hl. apply H1. revert Hl. rewrite !elem_of_app, elem_of_cons. tauto.
  - intros [(H1 & H2 & H3) H4]. split; cbn [inodes sys_ws]; [|by rewrite concat_middle|done]. intros l'. rewrite elem_of_app, elem_of_cons. intros [H|[->|H]]; [|done|]; apply H4; inlist.
Qed.

(** A call keeps the list well-formed. *)
Lemma call_wf P s s' : call P s s' -> wf lockd s -> wf lockd s'.
Proof.
  intros Hcall Hwf. destruct Hcall as [s req conf n n2 r Hv _ Hfr E|s filp req n p E|s req n r Hv Hn Hfr E|s a err s' E|s a s' E|s a filp owner tgid s' Hl Hi E].
  - by eapply posix_step.
  - destruct (flock_replace_ok s filp req n Hwf) as (p' & E' & H & _). congruence.
  - destruct (find_conflict_ok s req n Hwf Hv Hn Hfr) as (r' & E' & H & _). congruence.
  - unfold posix_unblock_lock in E. apply bind_Some in E as (q & Hq & E). destruct (negb (fl_next q =? 0)); [|by simplify_eq]. apply bind_Some in E as (s1 & E1 & [= _ <-]).
    destruct Hwf as (A & G & Hwf). destruct (unblock_ok lockd s A G a q Hwf Hq) as (s2 & E2 & H & _). congruence.
  - unfold locks_delete_block in E. pose proof E as E0. apply bind_Some in E0 as (q & Hq & _). destruct Hwf as (A & G & Hwf). destruct (unblock_ok lockd s A G a q Hwf Hq) as (s2 & E2 & H & _).
    unfold locks_delete_block in E2. congruence.
  - destruct (remove_posix_ok s a filp owner tgid Hwf Hl Hi) as (s2 & E2 & H & _). congruence.
Qed.

Lemma sys_step_ok P S S' : sys_step P S S' -> sys_ok S -> sys_ok S'.
Proof. intros [I1 I2 l w l' w' H] [Hw Ho]%sys_at. apply sys_at. split; [by eapply call_wf|done]. Qed.

Lemma sys_init_ok k : sys_ok (sys_init k).
Proof.
  split; cbn [sys_init inodes sys_ws].
  - intros l [-> _]%elem_of_replicate. exists [], []. split; [done|]. split; [split; [by intros f ?%elem_of_nil|by intros f ?%elem_of_nil|by intros f g ?%elem_of_nil]|]. split; [constructor|]. split; [by intros g ?%elem_of_nil|by intros f g ?%elem_of_nil].
  - assert (concat (replicate k ([] : list file_lock)) = []) as -> by (induction k; done). split; try (intros f ?%elem_of_nil; done); [intros f a ?%elem_of_nil; done|done|constructor|done].
  - intros a q ?%elem_of_nil. done.
Qed.

Lemma reach_ok P k S : rtc (sys_step P) (sys_init k) S -> sys_ok S.
Proof. revert S. apply (rtc_ind_r sys_ok); [apply sys_init_ok|]. intros S S' _ H. by eapply sys_step_ok. Qed.

End System.

End LocksSystem.
