(* ===== verification/LocksDeadlock.v ===== *)
(** * File locks: deadlocks

    [posix_locks_deadlock] follows the requests that wait from owner to owner.  If
    every owner waits for one lock at a time, it finds exactly the cycles that the
    new request would close, and no cycle ever comes into being. *)

From stdpp Require Import sorting.
From S2P Require Import Prelude Locks LocksProof LocksOps LocksWf LocksSafe LocksSystem.

Module LocksDeadlock.
Import Locks LocksProof LocksOps LocksWf LocksSafe LocksSystem.

Definition locks_of (s : state) : list file_lock := i_flock s ++ elsewhere s.

(** The owner [o] waits for a lock of [o']. *)
Definition waits_for (L : list file_lock) (w : waits) (o o' : Z * Z) : Prop :=
  exists a q f, a ∈ blocked_list w /\ waiters w !! a = Some q /\ f ∈ L /\ fl_addr f = fl_next q /\ ident q = o /\ ident f = o'.

Definition one_wait (w : waits) : Prop := forall a b qa qb, a ∈ blocked_list w -> b ∈ blocked_list w ->
  waiters w !! a = Some qa -> waiters w !! b = Some qb -> ident qa = ident qb -> a = b.

Definition acyclic (L : list file_lock) (w : waits) : Prop := forall o, ~ tc (waits_for L w) o o.

Section Loop.
Context (lockd : Z -> bool) (s : state).
Hypothesis Hw : waits_ok (locks_of s) (ws s).
Hypothesis Hwaiting : forall a q, a ∈ blocked_list (ws s) -> waiters (ws s) !! a = Some q -> consistent lockd q.
Hypothesis Hlocks : forall f, f ∈ locks_of s -> IS_POSIX f = true -> consistent lockd f.
Hypothesis Hone : one_wait (ws s).
Hypothesis Hacyclic : acyclic (locks_of s) (ws s).

Abbreviation edge := (waits_for (locks_of s) (ws s)).

(** The request of the list and the lock it waits for. *)
Lemma blocked_edge q : q ∈ blocked_requests (ws s) -> exists f, find_lock (fl_next q) (locks_of s) = Some f /\ consistent lockd q /\ consistent lockd f /\
  forall o, edge (ident q) o <-> o = ident f.
Proof.
  unfold blocked_requests. intros (a & Ha & Hq)%list_elem_of_omap. destruct (wo_blocked _ _ Hw a Ha) as (f & Hf & Hp & Hin).
  destruct (wo_block _ _ Hw f a Hf Hin) as (q' & Hq' & Hn & _). rewrite Hq in Hq'. injection Hq' as <-. exists f.
  assert (find_lock (fl_next q) (locks_of s) = Some f) as E.
  { rewrite Hn. pose proof (wo_addr _ _ Hw) as Hnd. apply list_elem_of_split in Hf as (l1 & l2 & El). rewrite El in Hnd |- *. by apply find_lock_at. }
  split; [done|]. split; [by apply (Hwaiting a)|]. split; [by apply Hlocks|]. intros o. split.
  - intros (b & qb & g & Hb & Hqb & Hg & Eg & Ei & <-). assert (b = a) as -> by by eapply Hone. rewrite Hq in Hqb. injection Hqb as <-.
    assert (g = f) as ->; [|done]. eapply addr_inj; [exact Hw|done|done|congruence].
  - intros ->. exists a, q, f. done.
Qed.

Lemma edge_blocked o o' : edge o o' -> exists q, q ∈ blocked_requests (ws s) /\ ident q = o.
Proof. intros (a & q & f & Ha & Hq & _ & _ & Hi & _). exists q. split; [|done]. apply list_elem_of_omap. eauto. Qed.

Lemma loop_end block caller : consistent lockd block -> ident caller <> ident block ->
  List.find (fun f => posix_same_owner f block) (blocked_requests (ws s)) = None -> ~ rtc edge (ident block) (ident caller).
Proof.
  intros Hc Hi Ef H. destruct (rtc_inv _ _ H) as [E|(o & He & _)]; [congruence|]. apply edge_blocked in He as (q & Hq & Hqi). eapply find_none in Ef; [|by apply list_elem_of_In]. cbn beta in Ef.
  destruct (blocked_edge q Hq) as (_ & _ & Hqc & _). rewrite (same_owner_ident lockd), bool_decide_true in Ef by done. done.
Qed.

(** The loop: [v] are the owners it has come through. *)
Lemma deadlock_loop_ok caller : consistent lockd caller -> forall fuel v block, consistent lockd block -> NoDup v -> (forall o, o ∈ v -> o ∈ ident <$> blocked_requests (ws s)) ->
  (forall o, o ∈ v -> tc edge o (ident block)) -> (length (blocked_requests (ws s)) <= fuel + length v)%nat ->
  exists b, deadlock_loop fuel s caller block = Some b /\ (b = true <-> rtc edge (ident block) (ident caller)).
Proof.
  intros Hcc fuel. induction fuel as [|fuel IH]; intros v block Hcb Hnd Hv Hpath Hlen; cbn [deadlock_loop]; rewrite (same_owner_ident lockd) by done;
    (case_bool_decide as Hi; [exists true; split; [done|]; split; [intros _; rewrite Hi; done|done]|]);
    destruct (List.find _ _) as [q|] eqn:Ef.
  2,4: exists false; split; [done|]; split; [done|]; intros H; exfalso; by apply (loop_end block caller).
  all: apply find_some in Ef as [Hq Hqi]; rewrite <- list_elem_of_In in Hq; destruct (blocked_edge q Hq) as (f & Efl & Hqc & Hfc & Hedge);
    rewrite (same_owner_ident lockd) in Hqi by done; apply bool_decide_eq_true in Hqi;
    assert (edge (ident block) (ident f)) as He by (rewrite <- Hqi; by apply Hedge);
    assert (NoDup (ident block :: v)) as Hnd' by (apply NoDup_cons; split; [|done]; intros Hin; by apply (Hacyclic (ident block)), Hpath);
    assert (forall o, o ∈ ident block :: v -> o ∈ ident <$> blocked_requests (ws s)) as Hv' by (intros o [->|Ho]%elem_of_cons; [rewrite <- Hqi; by apply list_elem_of_fmap_2|by apply Hv]).
  - exfalso. apply NoDup_submseteq in Hv'; [|done]. apply submseteq_length in Hv'. rewrite length_fmap in Hv'. simpl in Hv'. lia.
  - unfold locks_of in Efl. rewrite Efl. cbn [mbind option_bind].
    destruct (IH (ident block :: v) f Hfc Hnd' Hv') as (b & -> & Hb); [|simpl; lia|].
    + intros o [->|Ho]%elem_of_cons; [by constructor|]. eapply tc_r; [by apply Hpath|done].
    + exists b. split; [done|]. rewrite Hb. split; [intros H; by eapply rtc_l|]. intros H. destruct (rtc_inv _ _ H) as [E|(o & He' & Hr)]; [congruence|].
      rewrite <- Hqi in He'. by apply Hedge in He' as ->.
Qed.

Lemma blocked_requests_length w : (length (blocked_requests w) <= length (blocked_list w))%nat.
Proof. unfold blocked_requests. induction (blocked_list w) as [|a l IH]; [done|]. unfold omap in *. simpl. destruct (waiters w !! a); simpl; lia. Qed.

(** The detection answers, and it finds the cycles. *)
Lemma deadlock_ok caller f : consistent lockd caller -> f ∈ locks_of s -> IS_POSIX f = true ->
  exists b, posix_locks_deadlock s caller f = Some b /\ (b = true <-> rtc edge (ident f) (ident caller)).
Proof.
  intros Hc Hf Hp. apply (deadlock_loop_ok caller Hc _ [] f); [by apply Hlocks|constructor|intros o ?%elem_of_nil; done|intros o ?%elem_of_nil; done|].
  simpl. rewrite Nat.add_0_r. apply blocked_requests_length.
Qed.

End Loop.

(** ** Cycles do not come into being *)

Section Cycles.
Context (lockd : Z -> bool).

(** A request that may sleep comes from an owner that does not wait already. *)
Definition alone (s : state) (req : file_lock) : Prop := has_flag req FL_SLEEP = true -> forall a q, a ∈ blocked_list (ws s) -> waiters (ws s) !! a = Some q -> ident q <> ident req.

Lemma fewer_waits s s' : waits_ok (locks_of s) (ws s) -> fewer s s' ->
  (forall o o', waits_for (locks_of s') (ws s') o o' -> waits_for (locks_of s) (ws s) o o') /\ (one_wait (ws s) -> one_wait (ws s')).
Proof.
  intros Hw [Hs Hl]. split.
  - intros o o' (a & q & f' & Ha & Hq & Hf' & E & Hi & Hi'). destruct (Hs a Ha) as [Ha0 Eq]. rewrite Eq in Hq. destruct (wo_blocked _ _ Hw a Ha0) as (f & Hf & _ & Hin).
    destruct (wo_block _ _ Hw f a Hf Hin) as (q' & Hq' & Hn & _). rewrite Hq in Hq'. injection Hq' as <-. exists a, q, f. rewrite (Hl f f') by (done || congruence). done.
  - intros H1 a b qa qb Ha Hb Hqa Hqb. destruct (Hs a Ha) as [Ha0 Ea], (Hs b Hb) as [Hb0 Eb]. rewrite Ea in Hqa. rewrite Eb in Hqb. by apply (H1 a b qa qb).
Qed.

(** An edge from [x] to [y] closes no cycle if there is no path back. *)
Lemma tc_add {A} (R R' : relation A) x y : (forall a b, R' a b -> R a b \/ a = x /\ b = y) -> forall a b, tc R' a b -> tc R a b \/ rtc R a x /\ rtc R y b.
Proof.
  intros HR a b H. induction H as [a b H|a b c H Ht IH]; destruct (HR _ _ H) as [H1|[-> ->]].
  - left. by constructor.
  - right. by split.
  - destruct IH as [IH|[IH1 IH2]]; [left; by eapply tc_l|right; split; [by eapply rtc_l|done]].
  - right. split; [done|]. destruct IH as [IH|[_ IH]]; [by apply tc_rtc|done].
Qed.

(** What a call does to the requests that wait. *)
Lemma call_waits s s' : call lockd alone s s' -> wf lockd s -> fewer s s' \/
  exists req f, valid_request lockd s req /\ (alone s req /\ has_flag req FL_SLEEP = true) /\ f ∈ i_flock s /\ IS_POSIX f = true /\ posix_locks_deadlock s req f = Some false /\
    waiters (ws s') = <[fl_addr req := set_next (fl_addr f) req]> (waiters (ws s)) /\ blocked_list (ws s') = fl_addr req :: blocked_list (ws s) /\ same_locks (locks_of s) (locks_of s').
Proof.
  intros Hcall Hwf. destruct Hcall as [s req conf n n2 r Hv Hal Hfr E|s filp req n p E|s req n r Hv Hn Hfr E|s a err s' E|s a s' E|s a filp owner tgid s' Hl Hi E].
  - destruct (conflicting s req) as [f|] eqn:Hc.
    + assert (has_flag req FL_SLEEP = true -> is_Some (posix_locks_deadlock s req f)) as Hd by (by eapply refused_returns).
      destruct (posix_refused lockd s req conf n n2 f Hwf Hv Hc Hd) as (r' & E' & _ & [_ _ _ Hr]). rewrite E in E'. injection E' as <-. destruct (conflicting_some _ _ _ Hc) as (Hf & Hp & _).
      destruct Hr as [(_ & _ & ->)|[(_ & _ & _ & ->)|(Hsl & H1 & _ & H2 & H3 & H4)]]; [left; by apply (fewer_refl lockd)|left; by apply (fewer_refl lockd)|right]. exists req, f. auto 9.
    + left. destruct (has_flag req FL_ACCESS) eqn:Ha; [rewrite posix_lock_file_eq, Hc, Ha in E; injection E as <-; by apply (fewer_refl lockd)|].
      destruct (posix_grant lockd s req conf n n2) as (r' & E' & Hr); [done|done|done|by apply conflicting_none|done|]. rewrite E in E'. injection E' as <-. apply Hr.
  - left. destruct (flock_replace_ok lockd s filp req n Hwf) as (p' & E' & _ & _ & H & _). congruence.
  - left. destruct (find_conflict_ok lockd s req n Hwf Hv Hn Hfr) as (r' & E' & _ & _ & H & _). congruence.
  - left. unfold posix_unblock_lock in E. apply bind_Some in E as (q & Hq & E). destruct (negb (fl_next q =? 0)); [|simplify_eq; by apply (fewer_refl lockd)].
    apply bind_Some in E as (s1 & E1 & [= _ <-]). destruct Hwf as (A & G & Hwf). destruct (unblock_ok lockd s A G a q Hwf Hq) as (s2 & E2 & _ & _ & H & _). congruence.
  - left. pose proof E as E0. unfold locks_delete_block in E0. apply bind_Some in E0 as (q & Hq & _). destruct Hwf as (A & G & Hwf). destruct (unblock_ok lockd s A G a q Hwf Hq) as (s2 & E2 & _ & _ & H & _). congruence.
  - left. destruct (remove_posix_ok lockd s a filp owner tgid Hwf Hl Hi) as (s2 & E2 & _ & _ & H & _). congruence.
Qed.

Lemma call_acyclic s s' : call lockd alone s s' -> wf lockd s -> (forall f, f ∈ locks_of s -> IS_POSIX f = true -> consistent lockd f) ->
  one_wait (ws s) -> acyclic (locks_of s) (ws s) -> one_wait (ws s') /\ acyclic (locks_of s') (ws s').
Proof.
  intros Hcall Hwf Hcons Hone Hac. pose proof Hwf as (_ & Hw & Hwt)%wf_parts. destruct (call_waits s s' Hcall Hwf) as [Hf|(req & f & Hv & [Hal0 Hsl] & Hf & Hp & Hd & Ew & Eb & Hl)].
  - destruct (fewer_waits s s' Hw Hf) as [H1 H2]. split; [by apply H2|]. intros o Ho. apply (Hac o). by apply (tc_congruence (fun x => x) _ _ _ H1).
  - pose proof (Hal0 Hsl) as Hal. assert (f ∈ locks_of s) as HfL by (unfold locks_of; inlist). destruct (deadlock_ok lockd s Hw Hwt Hcons Hone Hac req f (vr_cons _ _ _ Hv) HfL Hp) as (b & Eb2 & Hb). rewrite Hd in Eb2. injection Eb2 as <-.
    split.
    + intros a c qa qc. rewrite Ew, Eb. intros [->|Ha]%elem_of_cons [->|Hc]%elem_of_cons Hqa Hqc Hi; [done| | |].
      * destruct (decide (c = fl_addr req)) as [->|Hne]; [done|]. rewrite lookup_insert_eq in Hqa. rewrite lookup_insert_ne in Hqc by done. injection Hqa as <-. by destruct (Hal c qc Hc Hqc).
      * destruct (decide (a = fl_addr req)) as [->|Hne]; [done|]. rewrite lookup_insert_eq in Hqc. rewrite lookup_insert_ne in Hqa by done. injection Hqc as <-. by destruct (Hal a qa Ha Hqa).
      * destruct (idle_not_waiting _ _ _ Hw (vr_idle _ _ _ Hv)) as [_ Hnl]. rewrite lookup_insert_ne in Hqa by (intros <-; done). rewrite lookup_insert_ne in Hqc by (intros <-; done). by apply (Hone a c qa qc).
    + intros o Ho. eapply (tc_add (waits_for (locks_of s) (ws s)) _ (ident req) (ident f)) in Ho; [destruct Ho as [Ho|[H1 H2]]; [by apply (Hac o)|]; assert (false = true) as ?; [apply Hb; by transitivity o|done]|].
      intros o1 o2 (a & q & g & Ha & Hq & Hg & E & <- & <-). rewrite Ew, Eb in *. destruct (decide (a = fl_addr req)) as [->|Hne].
      * right. rewrite lookup_insert_eq in Hq. injection Hq as <-. split; [done|]. symmetry. apply Hl; [done|done|by symmetry].
      * left. rewrite lookup_insert_ne in Hq by done. apply elem_of_cons in Ha as [->|Ha]; [done|]. destruct (wo_blocked _ _ Hw a Ha) as (h & Hh & _ & Hin). destruct (wo_block _ _ Hw h a Hh Hin) as (q' & Hq' & Hn & _).
        rewrite Hq in Hq'. injection Hq' as <-. exists a, q, h. rewrite (Hl h g) by (done || congruence). done.
Qed.

(** In the system of all inodes. *)
Lemma list_consistent S f : sys_ok lockd S -> f ∈ concat (inodes S) -> IS_POSIX f = true -> consistent lockd f.
Proof.
  intros Hok Hf Hp. apply list_elem_of_In, in_concat in Hf as (l & Hl & Hf). rewrite <- list_elem_of_In in Hl. rewrite <- list_elem_of_In in Hf.
  destruct (so_lists _ _ Hok l Hl) as (A & G & -> & HA & _ & Hg & _). apply elem_of_app in Hf as [Hf|Hf]; [by rewrite (fo_posix _ HA f Hf) in Hp|].
  apply elem_flat in Hf as (g & Hgr & Hfg). destruct (Hg g Hgr) as (_ & _ & H). apply (H f Hfg).
Qed.

Lemma waits_for_perm L L' w : L ≡ₚ L' -> forall o o', waits_for L w o o' <-> waits_for L' w o o'.
Proof. intros HL o o'. unfold waits_for. by setoid_rewrite HL. Qed.

Lemma acyclic_perm L L' w : L ≡ₚ L' -> acyclic L w -> acyclic L' w.
Proof. intros HL H o Ho. apply (H o). eapply (tc_congruence (fun x => x)); [|exact Ho]. intros x y. by rewrite (waits_for_perm _ _ _ HL). Qed.

Lemma sys_consistent I1 I2 l w : sys_ok lockd (mk_system (I1 ++ l :: I2) w) -> forall f, f ∈ locks_of (at_inode I1 I2 l w) -> IS_POSIX f = true -> consistent lockd f.
Proof. intros Hok f Hf. apply (list_consistent _ f Hok). cbn [inodes]. by rewrite concat_middle. Qed.

Lemma reach_acyclic k S : rtc (sys_step lockd alone) (sys_init k) S -> sys_ok lockd S /\ one_wait (sys_ws S) /\ acyclic (concat (inodes S)) (sys_ws S).
Proof.
  revert S. apply rtc_ind_r.
  - split; [apply sys_init_ok|]. split; [intros a b qa qb ?%elem_of_nil; done|]. intros o Ho.
    assert (forall o o', ~ waits_for (concat (inodes (sys_init k))) (sys_ws (sys_init k)) o o') as Hn by (intros ? ? (a & _ & _ & ?%elem_of_nil & _); done).
    destruct Ho as [? ? H|? ? ? H _]; by apply Hn in H.
  - intros S0 S' _ Hs (Hok & Hone & Hac). split; [by eapply sys_step_ok|]. destruct Hs as [I1 I2 l w l' w' H]. cbn [inodes sys_ws] in *. pose proof Hok as [Hwf _]%sys_at.
    destruct (call_acyclic _ _ H Hwf (sys_consistent _ _ _ _ Hok) Hone) as [H1 H2]; [by eapply acyclic_perm; [apply concat_middle|]|]. split; [done|].
    eapply acyclic_perm; [symmetry; apply concat_middle|exact H2].
Qed.

Lemma deadlock_at I1 I2 l w caller f : sys_ok lockd (mk_system (I1 ++ l :: I2) w) -> one_wait w -> acyclic (concat (I1 ++ l :: I2)) w -> consistent lockd caller -> f ∈ l -> IS_POSIX f = true ->
  exists b, posix_locks_deadlock (at_inode I1 I2 l w) caller f = Some b /\ (b = true <-> rtc (waits_for (l ++ concat (I1 ++ I2)) w) (ident f) (ident caller)).
Proof.
  intros Hok Hone Hac Hc Hf Hp. pose proof Hok as [(_ & Hw & Hwt)%wf_parts _]%sys_at.
  apply (deadlock_ok lockd (at_inode I1 I2 l w) Hw Hwt (sys_consistent _ _ _ _ Hok) Hone); [by eapply acyclic_perm; [apply concat_middle|]|done|unfold locks_of; cbn [at_inode i_flock]; inlist|done].
Qed.

End Cycles.

End LocksDeadlock.
