(* ===== verification/LocksTheorems.v ===== *)
(** * File locks: the theorems

    What [__posix_lock_file] answers, what holds in every reachable state of the
    lists of all inodes, two situations in which the code does not do what it
    means to, and the conversions of the requests of user space. *)

From stdpp Require Import sorting.
From S2P Require Import Prelude Locks LocksProof LocksOps LocksWf LocksSafe LocksSystem LocksDeadlock.

Module LocksTheorems.
Import Locks LocksProof LocksOps LocksWf LocksSafe LocksSystem LocksDeadlock.

(** ** Concrete runs

    A run of requests on one inode, with the conditions of the steps as checks;
    it shows that a state is reachable. *)
Definition idleb (s : state) (a : Z) : bool := match waiters (ws s) !! a with Some q => fl_next q =? 0 | None => true end.
Definition valid_requestb (lockd : Z -> bool) (s : state) (req : file_lock) : bool :=
  IS_POSIX req && Bool.eqb (match fl_lmops req with nlmsvc_lock_operations => true | no_lmops => false end) (lockd (fl_owner req)) &&
  (0 <=? fl_start req) && (fl_start req <=? fl_end req) && (fl_end req <=? OFFSET_MAX) &&
  ((fl_type req =? F_RDLCK) || (fl_type req =? F_WRLCK) || (fl_type req =? F_UNLCK)) && (fl_next req =? 0) && idleb s (fl_addr req).
Definition freshb (n : Z) (l : list file_lock) : bool := (n =? 0) || forallb (fun f => negb (fl_addr f =? n)) l.
Definition fresh_locksb (s : state) (n n2 : Z) : bool :=
  freshb n (i_flock s ++ elsewhere s) && freshb n2 (i_flock s ++ elsewhere s) && ((n =? 0) || negb (n =? n2)).
Definition aloneb (s : state) (req : file_lock) : bool :=
  negb (has_flag req FL_SLEEP) || forallb (fun a => match waiters (ws s) !! a with Some q => negb (bool_decide (ident q = ident req)) | None => true end) (blocked_list (ws s)).

Lemma idleb_ok s a : idleb s a = true -> forall q, waiters (ws s) !! a = Some q -> fl_next q = 0.
Proof. unfold idleb. intros H q Hq. rewrite Hq in H. by apply Z.eqb_eq. Qed.

Lemma valid_requestb_ok lockd s req : valid_requestb lockd s req = true -> valid_request lockd s req.
Proof.
  unfold valid_requestb. rewrite !andb_true_iff, !orb_true_iff, !Z.leb_le, !Z.eqb_eq. intros (((((((H1 & H2) & H3) & H4) & H5) & H6) & H7) & H8).
  split; [done|by apply eqb_prop in H2|lia|tauto|done|by apply idleb_ok].
Qed.

Lemma freshb_ok n l : freshb n l = true -> fresh n l.
Proof.
  unfold freshb, fresh. intros [H%Z.eqb_eq|H]%orb_true_iff Hn f Hf; [done|]. rewrite forallb_forall in H. apply list_elem_of_In in Hf. apply H in Hf. by apply negb_true_iff, Z.eqb_neq in Hf.
Qed.

Lemma fresh_locksb_ok s n n2 : fresh_locksb s n n2 = true -> fresh_locks s n n2.
Proof.
  unfold fresh_locksb. intros [[H1 H2]%andb_true_iff H3]%andb_true_iff. split; [by apply freshb_ok|]. split; [by apply freshb_ok|]. intros Hn.
  apply orb_true_iff in H3 as [H3%Z.eqb_eq|H3%negb_true_iff%Z.eqb_neq]; done.
Qed.

Lemma aloneb_ok s req : aloneb s req = true -> alone s req.
Proof. unfold aloneb. intros H Hs. rewrite Hs in H. cbn [negb orb] in H. rewrite forallb_forall in H. intros a q Ha Hq. apply list_elem_of_In, H in Ha. rewrite Hq in Ha. by apply negb_true_iff, bool_decide_eq_false in Ha. Qed.

Definition one_inode (l : list file_lock) (w : waits) : state := at_inode [] [] l w.

Fixpoint posix_run (lockd : Z -> bool) (pb : state -> file_lock -> bool) (reqs : list (file_lock * Z * Z)) (l : list file_lock) (w : waits) : option (list Z * list file_lock * waits) :=
  match reqs with
  | [] => Some ([], l, w)
  | (req, n, n2) :: reqs =>
      let s := one_inode l w in
      if valid_requestb lockd s req && pb s req && fresh_locksb s n n2 then
        r ← __posix_lock_file s req 0 n n2;
        '(errors, l, w) ← posix_run lockd pb reqs (i_flock (after r)) (ws (after r));
        Some (error r :: errors, l, w)
      else None
  end.

Lemma posix_run_ok lockd pb (P : state -> file_lock -> Prop) reqs : (forall s req, pb s req = true -> P s req) -> forall l w errors l' w',
  sys_ok lockd (mk_system [l] w) -> posix_run lockd pb reqs l w = Some (errors, l', w') -> rtc (sys_step lockd P) (mk_system [l] w) (mk_system [l'] w').
Proof.
  intros HP. induction reqs as [|[[req n] n2] reqs IH]; intros l w errors l' w' Hok; cbn [posix_run]; [by intros [= _ -> ->]|].
  case_match eqn:Hc; [|done]. intros (r & Hr & H)%bind_Some. apply bind_Some in H as ([[es l1] w1] & Hrun & [= <- -> ->]).
  apply andb_true_iff in Hc as [[H1 H2]%andb_true_iff H3]. apply valid_requestb_ok in H1. apply HP in H2. apply fresh_locksb_ok in H3.
  assert (wf lockd (one_inode l w)) as Hwf by (by apply (sys_at lockd [] [] l w) in Hok as [? _]).
  destruct (posix_step lockd _ _ _ _ _ _ Hwf H1 H3 Hr) as [_ He].
  assert (sys_step lockd P (mk_system [l] w) (mk_system [i_flock (after r)] (ws (after r)))) as Hs.
  { apply (sys_call lockd P [] [] l w). unfold at_inode. replace (mk_state (i_flock (after r)) (concat ([] ++ [])) (ws (after r))) with (after r); [by eapply call_posix|].
    destruct (after r). cbn in He |- *. by rewrite He. }
  eapply rtc_l; [exact Hs|]. eapply IH; [by eapply sys_step_ok|exact Hrun].
Qed.

(** From the empty list. *)
Lemma posix_run_init lockd pb (P : state -> file_lock -> Prop) reqs errors l w : (forall s req, pb s req = true -> P s req) ->
  posix_run lockd pb reqs [] (mk_waits ∅ [] [] []) = Some (errors, l, w) -> rtc (sys_step lockd P) (sys_init 1) (mk_system [l] w).
Proof. intros HP H. eapply posix_run_ok; [exact HP|apply (sys_init_ok lockd 1)|exact H]. Qed.

(** Requests of processes without [lockd]. *)
Definition no_lockd : Z -> bool := fun _ => false.
Definition wait_request (a owner ty first last : Z) : file_lock := mk_lock a owner 0 no_lmops 0 (Z.lor FL_POSIX FL_SLEEP) ty first last [] 0.

(** Owner 1 holds a write lock of the bytes 0 to 9, owner 2 one of the bytes 20 to
    29, and owner 2 waits for the bytes 5 and 6. *)
Definition example_run : list (file_lock * Z * Z) :=
  [(wait_request 100 1 F_WRLCK 0 9, 1, 2); (wait_request 101 2 F_WRLCK 20 29, 3, 4); (wait_request 101 2 F_RDLCK 5 6, 5, 6)].
Definition example_state : list file_lock * waits :=
  match posix_run no_lockd aloneb example_run [] (mk_waits ∅ [] [] []) with Some (_, l, w) => (l, w) | None => ([], mk_waits ∅ [] [] []) end.

Lemma example_reach : rtc (sys_step no_lockd alone) (sys_init 1) (mk_system [fst example_state] (snd example_state)).
Proof. eapply (posix_run_init no_lockd aloneb alone example_run [0; 0; - EAGAIN]); [apply aloneb_ok|]. vm_compute. reflexivity. Qed.

Lemma example_wf : wf no_lockd (one_inode (fst example_state) (snd example_state)).
Proof. pose proof (reach_ok _ _ _ _ example_reach) as H. by apply (sys_at no_lockd [] []) in H as [? _]. Qed.

(** ** The answers of [__posix_lock_file] *)

(** C5: a request that meets no conflicting lock of another owner returns.  It
    leaves the locks of all other owners as they were, and the list in order.  If
    the answer is 0, its owner has the type asked for at every byte of the range,
    nothing if that is [F_UNLCK], and what it had at all other bytes, however the
    old locks had to be merged, cut, split or replaced.  [-ENOENT] is the answer
    to an unlock request with [FL_EXISTS] whose range the owner had not locked,
    and changes nothing.  [-ENOLCK] changes nothing either, and is given only if
    an allocation failed whose structure was needed: the first for a lock, the
    second for splitting a lock in whose middle the range is. *)
Theorem posix_lock_granted lockd s req conf n n2 : wf lockd s -> valid_request lockd s req -> fresh_locks s n n2 -> no_conflict s req -> has_flag req FL_ACCESS = false ->
  exists r, __posix_lock_file s req conf n n2 = Some r /\ wf lockd (after r) /\ (forall o x ty, o <> ident req -> holds (after r) o x ty <-> holds s o x ty) /\
   (error r = 0 /\ (forall x ty, holds (after r) (ident req) x ty <->
      if decide (fl_start req <= x <= fl_end req) then ty = fl_type req /\ fl_type req <> F_UNLCK else holds s (ident req) x ty) \/
    error r = - ENOENT /\ fl_type req = F_UNLCK /\ has_flag req FL_EXISTS = true /\ i_flock (after r) = i_flock s /\
      (forall x ty, fl_start req <= x <= fl_end req -> ~ holds s (ident req) x ty) \/
    error r = - ENOLCK /\ i_flock (after r) = i_flock s /\ (n = 0 /\ fl_type req <> F_UNLCK \/
      n2 = 0 /\ exists f, f ∈ i_flock s /\ ident f = ident req /\ fl_type f <> fl_type req /\ fl_start f < fl_start req /\ fl_end req < fl_end f)).
Proof.
  intros Hwf Hv Hfr Hnc Ha. destruct (posix_grant lockd s req conf n n2 Hwf Hv Hfr Hnc Ha) as (r & E & [H1 _ _ _ H2 H3]). exists r. split; [done|]. split; [done|]. split; [done|].
  destruct H3 as [?|[?|(? & ? & [?|(? & f & Hf & _ & ?)])]]; [auto|auto|right; right; auto|]. right. right. split; [done|]. split; [done|]. right. split; [done|]. by exists f.
Qed.

(** Unlocking the bytes 3 to 5 of the lock splits it and wakes owner 2. *)
Lemma posix_lock_granted_witness : exists r, __posix_lock_file (one_inode (fst example_state) (snd example_state)) (wait_request 102 1 F_UNLCK 3 5) 0 7 8 = Some r /\
  error r = 0 /\ map (fun f => (fl_start f, fl_end f)) (i_flock (after r)) = [(0, 2); (6, 9); (20, 29)] /\ woken (ws (after r)) = [101] /\
  (holds (after r) (1, 0) 4 F_WRLCK <-> F_WRLCK = F_UNLCK /\ F_UNLCK <> F_UNLCK).
Proof.
  destruct (posix_lock_granted no_lockd _ (wait_request 102 1 F_UNLCK 3 5) 0 7 8 example_wf) as (r & E & _ & _ & H).
  - apply valid_requestb_ok. by vm_compute.
  - apply fresh_locksb_ok. by vm_compute.
  - by left.
  - done.
  - exists r. split; [done|]. vm_compute in E. injection E as <-. split; [done|]. split; [done|]. split; [done|]. destruct H as [[_ H]|[(H & _)|(H & _)]]; [apply H|discriminate H|discriminate H].
Defined.

(** C6: a request that conflicts with the lock [f] of another owner.  Without [FL_SLEEP] it
    returns, in every reachable state, with [-EAGAIN] and changes nothing.  With
    [FL_SLEEP] it returns in every state that is reached while no owner requests a lock
    when it waits for another one already; no owner's locks change, and the answer
    is [-EDEADLK] exactly if the owner of [f] waits, over any number of other owners
    and inodes, for the owner of the request; else [-EAGAIN], and the request waits
    for [f].  The loop of the detection ends in at most as many rounds as there are
    waiting requests.  The caller gets a copy of [f] if it asks for one. *)
Theorem posix_lock_refused lockd k I1 I2 l w req conf n n2 f :
  valid_request lockd (at_inode I1 I2 l w) req -> conflicting (at_inode I1 I2 l w) req = Some f ->
  (forall P, rtc (sys_step lockd P) (sys_init k) (mk_system (I1 ++ l :: I2) w) -> has_flag req FL_SLEEP = false ->
    exists r, __posix_lock_file (at_inode I1 I2 l w) req conf n n2 = Some r /\ error r = - EAGAIN /\ after r = at_inode I1 I2 l w /\
      conflock_after r = (if conf =? 0 then None else Some (locks_copy_lock conf f))) /\
  (rtc (sys_step lockd alone) (sys_init k) (mk_system (I1 ++ l :: I2) w) ->
    exists r, __posix_lock_file (at_inode I1 I2 l w) req conf n n2 = Some r /\ (forall o x ty, holds (after r) o x ty <-> holds (at_inode I1 I2 l w) o x ty) /\
      conflock_after r = (if conf =? 0 then None else Some (locks_copy_lock conf f)) /\
      let cycle := rtc (waits_for (l ++ concat (I1 ++ I2)) w) (ident f) (ident req) in
      (has_flag req FL_SLEEP = false /\ error r = - EAGAIN /\ after r = at_inode I1 I2 l w \/
       has_flag req FL_SLEEP = true /\ cycle /\ error r = - EDEADLK /\ after r = at_inode I1 I2 l w \/
       has_flag req FL_SLEEP = true /\ ~ cycle /\ error r = - EAGAIN /\ waiters (ws (after r)) !! fl_addr req = Some (set_next (fl_addr f) req))).
Proof.
  intros Hv Hc. destruct (conflicting_some _ _ _ Hc) as (Hf & Hp & _). split.
  - intros P Hr Hs. pose proof (reach_ok _ _ _ _ Hr) as [Hwf _]%sys_at. destruct (posix_refused lockd _ req conf n n2 f Hwf Hv Hc) as (r & E & Ecf & [_ _ _ He]); [by rewrite Hs|].
    exists r. destruct He as [(_ & H2 & H3)|[(H1 & _)|(H1 & _)]]; [done|congruence|congruence].
  - intros Hr. destruct (reach_acyclic lockd k _ Hr) as (Hok & Hone & Hac). pose proof Hok as [Hwf _]%sys_at.
    destruct (deadlock_at lockd I1 I2 l w req f Hok Hone Hac (vr_cons _ _ _ Hv) Hf Hp) as (b & Eb & Hb).
    destruct (posix_refused lockd _ req conf n n2 f Hwf Hv Hc (fun _ => ltac:(rewrite Eb; by eexists))) as (r & E & Ecf & [_ _ Hh He]).
    exists r. split; [done|]. split; [done|]. split; [done|]. cbv zeta. destruct He as [?|[(H1 & H2 & H3)|(H1 & H2 & H3 & H4 & _)]]; [auto|right; left|right; right].
    + rewrite Eb in H2. injection H2 as ->. split; [done|]. split; [by apply Hb|done].
    + rewrite Eb in H2. injection H2 as ->. split; [done|]. split; [intros Hcy; by apply Hb in Hcy|]. split; [done|]. by rewrite H4, lookup_insert_eq.
Qed.

(** Owner 1 would wait for owner 2, which waits for it. *)
Lemma posix_lock_refused_witness : exists r, __posix_lock_file (one_inode (fst example_state) (snd example_state)) (wait_request 102 1 F_RDLCK 25 25) 50 7 8 = Some r /\
  error r = - EDEADLK /\ rtc (waits_for (fst example_state ++ []) (snd example_state)) (2, 0) (1, 0).
Proof.
  destruct (conflicting (one_inode (fst example_state) (snd example_state)) (wait_request 102 1 F_RDLCK 25 25)) as [f|] eqn:Ef; [|vm_compute in Ef; discriminate Ef].
  destruct (posix_lock_refused no_lockd 1 [] [] (fst example_state) (snd example_state) (wait_request 102 1 F_RDLCK 25 25) 50 7 8 f) as [_ HR].
  - apply valid_requestb_ok. by vm_compute.
  - exact Ef.
  - destruct (HR example_reach) as (r & E & _ & _ & H). exists r. split; [exact E|]. vm_compute in Ef. injection Ef as <-. vm_compute in E. injection E as <-.
    destruct H as [(H & _)|[(_ & H & _)|(_ & _ & H & _)]]; [discriminate H|split; [done|exact H]|discriminate H].
Defined.

(** ** What holds in every reachable state *)

(** C10: whatever tasks do, every list of locks stays in the order that the code
    relies on: leases and BSD locks first, then the POSIX locks, those of an owner
    together; each is a read or write lock of a non-empty range of bytes inside
    the file's offsets, the locks of an owner are sorted and disjoint, and two of
    the same type are never adjacent. *)
Theorem locks_lists_ordered lockd P k S l : rtc (sys_step lockd P) (sys_init k) S -> l ∈ inodes S ->
  exists A G, l = A ++ flat G /\ (forall f, f ∈ A -> IS_POSIX f = false) /\ NoDup (fst <$> G) /\
    forall o own, (o, own) ∈ G -> own <> [] /\
      (forall f, f ∈ own -> IS_POSIX f = true /\ ident f = o /\ 0 <= fl_start f <= fl_end f /\ fl_end f <= OFFSET_MAX /\ (fl_type f = F_RDLCK \/ fl_type f = F_WRLCK)) /\
      StronglySorted (fun f g => fl_end f < fl_start g /\ (fl_type f = fl_type g -> fl_end f + 1 < fl_start g)) own.
Proof.
  intros Hr Hl. destruct (so_lists _ _ (reach_ok _ _ _ _ Hr) l Hl) as (A & G & E & HA & Hnd & Hg & _). exists A, G. split; [done|]. split; [apply HA|]. split; [done|].
  intros o own Ho. destruct (Hg _ Ho) as (H1 & H2 & H3). split; [done|]. split; [|exact H2]. intros f Hf. destruct (H3 f Hf) as [[? ? [? ?] ?] ?]. done.
Qed.

Lemma locks_lists_ordered_witness : exists A G, fst example_state = A ++ flat G /\ length (fst example_state) = 2%nat /\ NoDup (fst <$> G).
Proof.
  destruct (locks_lists_ordered no_lockd alone 1 _ (fst example_state) example_reach) as (A & G & E & _ & Hnd & _); [by left|]. exists A, G. split; [exact E|]. split; [by vm_compute|exact Hnd].
Defined.

(** C8: in no reachable state do two locks of a file conflict: not two POSIX locks
    of different owners that overlap, one of them a write lock, nor two BSD locks
    of different open files. *)
Theorem locks_no_conflict lockd P k S l f g : rtc (sys_step lockd P) (sys_init k) S -> l ∈ inodes S -> f ∈ l -> g ∈ l ->
  (IS_POSIX f = true -> IS_POSIX g = true -> posix_locks_conflict f g = false) /\
  (IS_POSIX f = false -> IS_LEASE f = false -> IS_POSIX g = false -> IS_LEASE g = false -> flock_locks_conflict f g = false).
Proof.
  intros Hr Hl Hf Hg. destruct (so_lists _ _ (reach_ok _ _ _ _ Hr) l Hl) as (A & G & -> & HA & _ & Hgr & Hc).
  assert (forall h, h ∈ flat G -> IS_POSIX h = true) as Hp by (intros h (gr & H1 & H2)%elem_flat; destruct (Hgr gr H1) as (_ & _ & H3); apply (H3 h H2)).
  apply elem_of_app in Hf, Hg. split.
  - intros Pf Pg. destruct Hf as [Hf|Hf]; [by rewrite (fo_posix _ HA f Hf) in Pf|]. destruct Hg as [Hg|Hg]; [by rewrite (fo_posix _ HA g Hg) in Pg|]. by apply Hc.
  - intros Pf Lf Pg Lg. destruct Hf as [Hf|Hf]; [|by rewrite (Hp f Hf) in Pf]. destruct Hg as [Hg|Hg]; [|by rewrite (Hp g Hg) in Pg]. apply (fo_conflict _ HA); by apply list_elem_of_filter.
Qed.

Lemma locks_no_conflict_witness : exists f g, fst example_state = [f; g] /\ posix_locks_conflict f g = false.
Proof.
  destruct (fst example_state) as [|f [|g [|h l]]] eqn:E; [vm_compute in E; discriminate E..| |vm_compute in E; discriminate E]. exists f, g. split; [done|].
  apply (locks_no_conflict no_lockd alone 1 _ (fst example_state) f g example_reach); [by left|rewrite E; by left|rewrite E; by right; left|vm_compute in E; injection E as <- _; done|vm_compute in E; injection E as _ <-; done].
Defined.

(** C7: no wake-up is lost.  In every reachable state a request that waits is in
    the list of a lock that is still there and with which it still conflicts, so
    that the removal or change of this lock wakes it; it is there once, and a
    request that waits for a POSIX lock is known to the deadlock detection. *)
Theorem locks_no_lost_wakeup lockd P k S a q : rtc (sys_step lockd P) (sys_init k) S -> waiters (sys_ws S) !! a = Some q -> fl_next q <> 0 ->
  exists f, f ∈ concat (inodes S) /\ fl_addr f = fl_next q /\ a ∈ fl_block f /\ NoDup (fl_block f) /\ blocks q f = true /\ (IS_POSIX f = true -> a ∈ blocked_list (sys_ws S)).
Proof.
  intros Hr Hq Hn. pose proof (so_waits _ _ (reach_ok _ _ _ _ Hr)) as Hw. destruct (wo_next _ _ Hw a q Hq Hn) as (f & Hf & E & Ha). exists f. split; [done|]. split; [done|]. split; [done|].
  split; [by apply (wo_nodup _ _ Hw)|]. destruct (wo_block _ _ Hw f a Hf Ha) as (q' & Hq' & _ & Hb & Hp). rewrite Hq in Hq'. injection Hq' as <-. done.
Qed.

Lemma locks_no_lost_wakeup_witness : exists q f, waiters (snd example_state) !! 101 = Some q /\ f ∈ concat [fst example_state] /\ fl_addr f = 1 /\ 101 ∈ fl_block f.
Proof.
  destruct (waiters (snd example_state) !! 101) as [q|] eqn:Eq; [|vm_compute in Eq; discriminate Eq]. assert (fl_next q = 1) as En by (vm_compute in Eq; injection Eq as <-; done).
  destruct (locks_no_lost_wakeup no_lockd alone 1 _ 101 q example_reach Eq) as (f & H1 & H2 & H3 & _); [by rewrite En|]. exists q, f. rewrite <- En. auto.
Defined.

(** C9: if no owner asks for a lock while it waits for another, no state is ever
    reached in which owners wait for each other in a circle, on any files. *)
Theorem locks_deadlock_free lockd k S o : rtc (sys_step lockd alone) (sys_init k) S -> ~ tc (waits_for (concat (inodes S)) (sys_ws S)) o o.
Proof. intros Hr. apply (reach_acyclic lockd k S Hr). Qed.

Lemma locks_deadlock_free_witness : waits_for (concat [fst example_state]) (snd example_state) (2, 0) (1, 0) /\ ~ tc (waits_for (concat [fst example_state]) (snd example_state)) (1, 0) (1, 0).
Proof.
  split; [|apply (locks_deadlock_free no_lockd 1 _ _ example_reach)].
  destruct (waiters (snd example_state) !! 101) as [q|] eqn:Eq; [|vm_compute in Eq; discriminate Eq]. destruct (fst example_state) as [|f l] eqn:El; [vm_compute in El; discriminate El|].
  exists 101, q, f. split; [vm_compute; left|]. split; [done|]. split; [by left|]. vm_compute in Eq. injection Eq as <-. vm_compute in El. injection El as <- _. done.
Defined.

(** ** Where the code does not do what it means to *)

(** Threads that share their files have one owner.  Owner 1 waits for owner 2 with
    one thread and then for owner 3 with another, which is the one that the
    detection sees when owner 2 asks for a lock of owner 1; then owner 3 unlocks. *)
Definition shared_run : list (file_lock * Z * Z) :=
  [(wait_request 100 2 F_WRLCK 0 0, 1, 10); (wait_request 100 3 F_WRLCK 1 1, 2, 10); (wait_request 100 1 F_WRLCK 2 2, 3, 10);
   (wait_request 201 1 F_WRLCK 0 0, 4, 10); (wait_request 202 1 F_WRLCK 1 1, 4, 10); (wait_request 203 2 F_WRLCK 2 2, 4, 10); (wait_request 100 3 F_UNLCK 1 1, 4, 10)].
Definition shared_state : list file_lock * waits :=
  match posix_run no_lockd (fun _ _ => true) shared_run [] (mk_waits ∅ [] [] []) with Some (_, l, w) => (l, w) | None => ([], mk_waits ∅ [] [] []) end.

(** C38: the detection of deadlocks does not end in a state that processes reach
    with blocking requests: two threads of owner 1 have waited at the same time,
    owners 1 and 2 wait for each other undetected, and a request of owner 4 for the
    byte of owner 1 makes [posix_locks_deadlock] follow this cycle for ever,
    whatever the number of rounds. *)
Theorem deadlock_detection_loops : rtc (sys_step no_lockd (fun _ _ => True)) (sys_init 1) (mk_system [fst shared_state] (snd shared_state)) /\
  let s := one_inode (fst shared_state) (snd shared_state) in let req := wait_request 204 4 F_WRLCK 2 2 in
  valid_request no_lockd s req /\ exists f, conflicting s req = Some f /\ forall fuel, deadlock_loop fuel s req f = None.
Proof.
  split; [eapply (posix_run_init no_lockd (fun _ _ => true) _ shared_run [0; 0; 0; - EAGAIN; - EAGAIN; - EAGAIN; 0]); [done|]; vm_compute; reflexivity|].
  split; [apply valid_requestb_ok; by vm_compute|]. eexists. split; [vm_compute; reflexivity|].
  match goal with |- forall n, deadlock_loop n ?s ?req ?f = None => enough (forall n, deadlock_loop n s req f = None /\ exists g, find_lock 1 (fst shared_state) = Some g /\ deadlock_loop n s req g = None) by firstorder end.
  intros n. induction n as [|n (IH1 & g & Hg & IH2)]; [split; [vm_compute; reflexivity|]; eexists; split; vm_compute; reflexivity|].
  vm_compute in Hg. injection Hg as <-. split; [exact IH2|]. eexists. split; [vm_compute; reflexivity|exact IH1].
Qed.

(** A BSD lock request for the open file [filp]. *)
Definition flock_request (a filp ty : Z) : file_lock := mk_lock a 0 0 no_lmops filp FL_FLOCK ty 0 OFFSET_MAX [] 0.
Definition flock_state (r : option result) : state := match r with Some r => after r | None => mk_state [] [] (mk_waits ∅ [] [] []) end.

(** C40: [flock_lock_file] can leave an open file with two BSD locks.  A thread
    changes the shared lock of open file 7 to an exclusive one; having removed the
    old lock it lets another thread run, which takes a shared lock of the same open
    file; then it inserts its own.  Both calls succeed.  The unlock that follows
    also answers 0 but removes one of the locks only, and open file 8 cannot be
    locked although nobody means to hold a lock. *)
Theorem flock_lock_file_race :
  let other (s : state) := flock_state (flock_lock_file (fun s => s) s 7 (flock_request 102 7 F_RDLCK) 2) in
  exists r1 r2 r3 r4, flock_lock_file (fun s => s) (mk_state [] [] (mk_waits ∅ [] [] [])) 7 (flock_request 101 7 F_RDLCK) 1 = Some r1 /\ error r1 = 0 /\
    flock_lock_file other (after r1) 7 (flock_request 101 7 F_WRLCK) 3 = Some r2 /\ error r2 = 0 /\
    map (fun f => (fl_file f, fl_type f)) (i_flock (after r2)) = [(7, F_RDLCK); (7, F_WRLCK)] /\
    flock_lock_file (fun s => s) (after r2) 7 (flock_request 101 7 F_UNLCK) 4 = Some r3 /\ error r3 = 0 /\
    flock_lock_file (fun s => s) (after r3) 8 (flock_request 103 8 F_RDLCK) 5 = Some r4 /\ error r4 = - EAGAIN.
Proof. cbv zeta. do 4 eexists. split; [vm_compute; reflexivity|]. split; [reflexivity|]. split; [vm_compute; reflexivity|]. split; [reflexivity|]. split; [reflexivity|]. split; [vm_compute; reflexivity|]. split; [reflexivity|]. split; [vm_compute; reflexivity|]. reflexivity. Qed.

(** ** Requests from user space *)

Lemma s64_range z : - 2 ^ 63 <= s64 z < 2 ^ 63.
Proof. unfold s64, u64. pose proof (Z.mod_pos_bound z (2 ^ 64) eq_refl). destruct (Z.ltb_spec (z mod 2 ^ 64) (2 ^ 63)); lia. Qed.

Lemma s64_over z : 2 ^ 63 <= z < 2 ^ 64 -> s64 z = z - 2 ^ 64.
Proof. intros H. unfold s64, u64. rewrite Z.mod_small by lia. destruct (Z.ltb_spec z (2 ^ 63)); lia. Qed.

Definition type_ok (ty : Z) : Prop := ty = F_RDLCK \/ ty = F_WRLCK \/ ty = F_UNLCK.

Lemma assign_type_ok fl ty : assign_type fl ty = if decide (type_ok ty) then (0, set_type ty fl) else (- EINVAL, fl).
Proof.
  unfold assign_type. destruct (decide (type_ok ty)) as [H|H]; unfold type_ok in H.
  - assert ((ty =? F_RDLCK) || (ty =? F_WRLCK) || (ty =? F_UNLCK) = true) as ->; [|done]. rewrite !orb_true_iff, !Z.eqb_eq. tauto.
  - assert ((ty =? F_RDLCK) || (ty =? F_WRLCK) || (ty =? F_UNLCK) = false) as ->; [|done]. rewrite !orb_false_iff, !Z.eqb_neq. tauto.
Qed.

Lemma s64_s64 a b : s64 (s64 a + b) = s64 (a + b).
Proof.
  assert (exists k, s64 a = a + k * 2 ^ 64) as [k ->].
  { unfold s64, u64. pose proof (Z.div_mod a (2 ^ 64) ltac:(done)). destruct (a mod 2 ^ 64 <? 2 ^ 63); [exists (- (a / 2 ^ 64))|exists (- (a / 2 ^ 64) - 1)]; lia. }
  unfold s64, u64. replace (a + k * 2 ^ 64 + b) with (a + b + k * 2 ^ 64) by lia. by rewrite Z_mod_plus_full.
Qed.

(** The bytes that [l_start] and [l_len] mean from [base] on. *)
Definition posix_range (base start len : Z) : Z * Z :=
  let first := base + start in (if len <? 0 then first + len else first, if 0 <? len then first + len - 1 else if len <? 0 then first - 1 else OFFSET_MAX).

Definition is_s64 (z : Z) : Prop := - 2 ^ 63 <= z < 2 ^ 63.

(** C31: the 64-bit requests of user space become locks of exactly the bytes they
    mean, with no overflow.  The position asked for must be an offset, the range
    must not start before the file, else the answer is [-EINVAL]; a range that
    ends behind the last offset is [-EOVERFLOW]; then the type must be a lock type.
    The result is a request that [__posix_lock_file] may get: owned by the table of
    open files of the task, and of a non-empty range of offsets. *)
Theorem flock64_to_posix_lock_exact c fl l base : whence_base c (l_whence l) = Some base -> 0 <= base <= OFFSET_MAX -> is_s64 (l_start l) -> is_s64 (l_len l) ->
  let first := base + l_start l in let '(lo, hi) := posix_range base (l_start l) (l_len l) in
  let '(err, fl') := flock64_to_posix_lock c fl l in
  err = (if decide (0 <= first <= OFFSET_MAX /\ 0 <= lo) then if decide (hi <= OFFSET_MAX) then if decide (type_ok (l_type l)) then 0 else - EINVAL else - EOVERFLOW else - EINVAL) /\
  (err = 0 -> 0 <= lo <= hi /\ hi <= OFFSET_MAX /\
    fl' = mk_lock (fl_addr fl) (files c) (tgid c) no_lmops (filp c) FL_POSIX (l_type l) lo hi (fl_block fl) (fl_next fl)).
Proof.
  unfold is_s64, OFFSET_MAX. intros Hb Hbase Hs Hl. unfold flock64_to_posix_lock, posix_range. rewrite Hb. cbv zeta. unfold OFFSET_MAX. set (first := base + l_start l).
  destruct (decide (0 <= first <= 2 ^ 63 - 1)) as [Hf|Hf].
  2: { rewrite (decide_False (P := _ /\ _)) by tauto. assert (s64 first < 0) as Hneg by (destruct (Z.lt_ge_cases first 0); [rewrite s64_small; lia|rewrite s64_over; lia]).
       rewrite (proj2 (Z.ltb_lt _ _) Hneg). split; [done|discriminate]. }
  rewrite (s64_small first) by lia. rewrite (proj2 (Z.ltb_ge first 0)) by lia. rewrite !assign_type_ok. cbn [fl_end fl_start set_start set_end].
  destruct (Z.ltb_spec 0 (l_len l)).
  - rewrite (proj2 (Z.ltb_ge (l_len l) 0)) by lia. rewrite (decide_True (P := _ /\ _)) by lia. replace (s64 (first + l_len l) - 1) with (s64 (first + l_len l) + -1) by lia. rewrite s64_s64. replace (first + l_len l + -1) with (first + l_len l - 1) by lia.
    destruct (decide (first + l_len l - 1 <= 2 ^ 63 - 1)).
    + rewrite s64_small by lia. rewrite (proj2 (Z.ltb_ge _ first)) by lia. case_decide; (split; [done|]); [intros _; split; [lia|]; split; [lia|done]|discriminate].
    + rewrite s64_over by lia. rewrite (proj2 (Z.ltb_lt _ first)) by lia. split; [done|discriminate].
  - destruct (Z.ltb_spec (l_len l) 0).
    + rewrite (s64_small (first + l_len l)) by lia. destruct (Z.ltb_spec (first + l_len l) 0); [rewrite (decide_False (P := _ /\ _)) by lia; split; [done|discriminate]|].
      rewrite (decide_True (P := _ /\ _)), (decide_True (P := first - 1 <= _)), (proj2 (Z.ltb_ge _ _)) by lia. case_decide; (split; [done|]); [intros _; split; [lia|]; split; [lia|done]|discriminate].
    + rewrite (decide_True (P := _ /\ _)), (decide_True (P := 2 ^ 63 - 1 <= _)), (proj2 (Z.ltb_ge _ _)) by lia. case_decide; (split; [done|]); [intros _; split; [lia|]; split; [lia|done]|discriminate].
Qed.

(** Five bytes before the position 90. *)
Lemma flock64_to_posix_lock_exact_witness : let c := mk_task_file 77 5 7 100 1000 in let l := mk_flock F_WRLCK SEEK_CUR (-10) (-5) 0 in
  fst (flock64_to_posix_lock c (flock_request 9 0 0) l) = 0 /\ fl_start (snd (flock64_to_posix_lock c (flock_request 9 0 0) l)) = 85 /\ fl_end (snd (flock64_to_posix_lock c (flock_request 9 0 0) l)) = 89.
Proof.
  intros c l. pose proof (flock64_to_posix_lock_exact c (flock_request 9 0 0) l 100 eq_refl ltac:(unfold OFFSET_MAX; lia) ltac:(unfold is_s64; simpl; lia) ltac:(unfold is_s64; simpl; lia)) as H.
  cbv zeta in H. destruct (posix_range 100 (l_start l) (l_len l)) as [lo hi] eqn:Er. vm_compute in Er. injection Er as <- <-.
  destruct (flock64_to_posix_lock c (flock_request 9 0 0) l) as [err fl'] eqn:E. destruct H as [H1 H2]. vm_compute in H1. destruct (H2 H1) as (_ & _ & ->). split; [exact H1|]. split; reflexivity.
Defined.

Lemma s32_s32 a b : s32 (s32 a + b) = s32 (a + b).
Proof.
  assert (exists k, s32 a = a + k * 2 ^ 32) as [k ->].
  { unfold s32, u32. pose proof (Z.div_mod a (2 ^ 32) ltac:(done)). destruct (a mod 2 ^ 32 <? 2 ^ 31); [exists (- (a / 2 ^ 32))|exists (- (a / 2 ^ 32) - 1)]; lia. }
  unfold s32, u32. replace (a + k * 2 ^ 32 + b) with (a + b + k * 2 ^ 32) by lia. by rewrite Z_mod_plus_full.
Qed.

(** C32: what [F_GETLK] reports describes the lock that it found.  A lock that is
    reported in a [struct flock64] and requested again is the same range and type.
    With the 32-bit [struct flock], a lock that does not fit is [-EOVERFLOW], and
    every other one comes back as it was, except one: the length of a lock of the
    bytes 0 to 2 147 483 647 overflows to a negative [l_len], and the report is not
    a request at all. *)
Theorem posix_lock_to_flock_roundtrip c fl fl0 l : 0 <= fl_start fl0 <= fl_end fl0 -> fl_end fl0 <= OFFSET_MAX -> type_ok (fl_type fl0) ->
  let same := (0, mk_lock (fl_addr fl) (files c) (tgid c) no_lmops (filp c) FL_POSIX (fl_type fl0) (fl_start fl0) (fl_end fl0) (fl_block fl) (fl_next fl)) in
  let fits := fl_start fl0 <= OFFT_OFFSET_MAX /\ (fl_end fl0 = OFFSET_MAX \/ fl_end fl0 <= OFFT_OFFSET_MAX) in
  flock64_to_posix_lock c fl (posix_lock_to_flock64 fl0) = same /\
  (~ fits -> fst (posix_lock_to_flock fl0 l) = - EOVERFLOW) /\
  (fits -> fst (posix_lock_to_flock fl0 l) = 0 /\
    if decide (fl_start fl0 = 0 /\ fl_end fl0 = OFFT_OFFSET_MAX)
    then l_len (snd (posix_lock_to_flock fl0 l)) = - 2 ^ 31 /\ fst (flock_to_posix_lock c fl (snd (posix_lock_to_flock fl0 l))) = - EINVAL
    else flock_to_posix_lock c fl (snd (posix_lock_to_flock fl0 l)) = same).
Proof.
  intros Hr Hm Ht. cbv zeta. split; [|split].
  - unfold flock64_to_posix_lock, posix_lock_to_flock64, whence_base. cbn [l_whence l_start l_len l_type Z.eqb SEEK_SET]. rewrite Z.add_0_l, (s64_small (fl_start fl0)) by (unfold OFFSET_MAX in *; lia).
    rewrite (proj2 (Z.ltb_ge (fl_start fl0) 0)) by lia. rewrite !assign_type_ok, !decide_True by done. cbn [fl_end fl_start set_start set_end]. destruct (Z.eqb_spec (fl_end fl0) OFFSET_MAX) as [E|E].
    + cbn [Z.ltb Z.compare]. rewrite (proj2 (Z.ltb_ge OFFSET_MAX _)) by lia. by rewrite E.
    + unfold OFFSET_MAX in *. rewrite (s64_small (fl_end fl0 - fl_start fl0 + 1)) by lia. rewrite (proj2 (Z.ltb_lt 0 _)) by lia.
      replace (fl_start fl0 + (fl_end fl0 - fl_start fl0 + 1)) with (fl_end fl0 + 1) by lia. replace (s64 (fl_end fl0 + 1) - 1) with (s64 (fl_end fl0 + 1) + -1) by lia.
      rewrite s64_s64. replace (fl_end fl0 + 1 + -1) with (fl_end fl0) by lia. rewrite s64_small by lia. by rewrite (proj2 (Z.ltb_ge (fl_end fl0) _)) by lia.
  - intros Hn. unfold posix_lock_to_flock. destruct (Z.ltb_spec OFFT_OFFSET_MAX (fl_start fl0)); [done|]. destruct (Z.eqb_spec (fl_end fl0) OFFSET_MAX); [tauto|]. destruct (Z.ltb_spec OFFT_OFFSET_MAX (fl_end fl0)); [done|tauto].
  - intros [Hf1 Hf2]. unfold posix_lock_to_flock. rewrite (proj2 (Z.ltb_ge OFFT_OFFSET_MAX (fl_start fl0))) by lia.
    assert (negb (fl_end fl0 =? OFFSET_MAX) && (OFFT_OFFSET_MAX <? fl_end fl0) = false) as ->.
    { destruct (Z.eqb_spec (fl_end fl0) OFFSET_MAX); [done|]. apply Z.ltb_ge. tauto. }
    split; [done|]. unfold flock_to_posix_lock, whence_base. cbn [orb snd l_whence l_start l_len l_type Z.eqb SEEK_SET]. unfold OFFT_OFFSET_MAX in *.
    rewrite (s32_small 0), Z.add_0_l, !(s32_small (fl_start fl0)) by lia. rewrite (proj2 (Z.ltb_ge (fl_start fl0) 0)) by lia. cbn [fl_end fl_start set_start set_end].
    case_decide as Hd.
    + destruct Hd as [-> ->]. split; by vm_compute.
    + destruct (Z.eqb_spec (fl_end fl0) OFFSET_MAX) as [E|E]; rewrite !assign_type_ok, !decide_True by done.
      * cbn [Z.ltb Z.compare]. rewrite (proj2 (Z.ltb_ge OFFSET_MAX _)) by lia. by rewrite E.
      * destruct Hf2 as [|Hf2]; [done|]. rewrite (s64_small (fl_end fl0 - fl_start fl0 + 1)) by lia. rewrite (s32_small (fl_end fl0 - fl_start fl0 + 1)) by lia. rewrite (proj2 (Z.ltb_lt 0 _)) by lia.
        replace (fl_start fl0 + (fl_end fl0 - fl_start fl0 + 1)) with (fl_end fl0 + 1) by lia. replace (s32 (fl_end fl0 + 1) - 1) with (s32 (fl_end fl0 + 1) + -1) by lia.
        rewrite s32_s32. replace (fl_end fl0 + 1 + -1) with (fl_end fl0) by lia. rewrite s32_small by lia. by rewrite (proj2 (Z.ltb_ge (fl_end fl0) _)) by lia.
Qed.

Lemma posix_lock_to_flock_roundtrip_witness : let fl0 := wait_request 1 2 F_RDLCK 3 10 in let c := mk_task_file 77 5 7 0 0 in
  flock64_to_posix_lock c (flock_request 9 0 0) (posix_lock_to_flock64 fl0) = (0, mk_lock 9 77 5 no_lmops 7 FL_POSIX F_RDLCK 3 10 [] 0).
Proof.
  intros fl0 c. refine (proj1 (posix_lock_to_flock_roundtrip c (flock_request 9 0 0) fl0 (mk_flock 0 0 0 0 0) _ _ _)); [simpl; lia|unfold OFFSET_MAX; simpl; lia|by left].
Defined.

(** with the 32-bit [struct flock] a range relative to the file position is
    taken from the low 32 bits of that position: at any position [5 + k * 2^32] of
    a large file, a lock of one byte at the position locks byte 5, and the answer
    is 0. *)
Theorem flock_to_posix_lock_truncates (k : nat) fl : let c := mk_task_file 77 5 7 (5 + Z.of_nat k * 2 ^ 32) 0 in let l := mk_flock F_WRLCK SEEK_CUR 0 1 0 in
  fst (flock_to_posix_lock c fl l) = 0 /\ fl_start (snd (flock_to_posix_lock c fl l)) = 5 /\ fl_end (snd (flock_to_posix_lock c fl l)) = 5.
Proof.
  cbv zeta. assert (s32 (5 + Z.of_nat k * 2 ^ 32) = 5) as E by (unfold s32, u32; by rewrite Z_mod_plus_full).
  unfold flock_to_posix_lock, whence_base. cbn [l_whence l_start l_len l_type f_pos SEEK_CUR SEEK_SET Z.eqb Pos.eqb]. by rewrite E.
Qed.

End LocksTheorems.
