(* ===== verification/Radix.v ===== *)
(** * Radix trees: [lib/radix-tree.c], [include/linux/radix-tree.h]

    The nodes live in a heap indexed by address, with the slab that they are
    allocated from and freed to and the per-CPU pool of preloaded nodes.  A tree of
    height 0 holds at most the item of index 0, as a pointer with its low bit set
    in the root.  Writers exclude each other and readers. *)

From S2P Require Import Prelude.

Module Radix.

Definition RADIX_TREE_MAP_SHIFT : Z := 6.
Definition RADIX_TREE_MAP_SIZE : Z := Z.shiftl 1 RADIX_TREE_MAP_SHIFT.
Definition RADIX_TREE_MAP_MASK : Z := RADIX_TREE_MAP_SIZE - 1.
Definition RADIX_TREE_MAX_TAGS : Z := 2.
Definition RADIX_TREE_TAG_LONGS : Z := (RADIX_TREE_MAP_SIZE + BITS_PER_LONG - 1) / BITS_PER_LONG.
Definition RADIX_TREE_INDEX_BITS : Z := 8 * 4.
Definition RADIX_TREE_MAX_PATH : Z := RADIX_TREE_INDEX_BITS / RADIX_TREE_MAP_SHIFT + 2.
Definition __GFP_WAIT : Z := 16.
Definition __GFP_BITS_SHIFT : Z := 20.
Definition __GFP_BITS_MASK : Z := Z.shiftl 1 __GFP_BITS_SHIFT - 1.
Definition ENOMEM : Z := 12.
Definition EEXIST : Z := 17.
Definition NULL : Z := 0.

Record radix_tree_node := mk_node { node_height : Z; count : Z; slots : list Z; tags : list (list Z) }.
Record radix_tree_root := mk_root { height : Z; gfp_mask : Z; rnode : Z }.

(** [radix_tree_node_ctor]. *)
Definition zero_node : radix_tree_node :=
  mk_node 0 0 (replicate (Z.to_nat RADIX_TREE_MAP_SIZE) NULL) (replicate (Z.to_nat RADIX_TREE_MAX_TAGS) (replicate (Z.to_nat RADIX_TREE_TAG_LONGS) 0)).

(** [supply] are the answers that the slab will give to [kmem_cache_alloc], 0 for
    a failure; [preload] is the pool of nodes, its top first; [freed] are the nodes
    given back to the slab, which keep their contents. *)
Record state := mk_state { root : radix_tree_root; heap : gmap Z radix_tree_node; supply : list Z; preload : list Z; freed : list Z }.

Abbreviation M := (ST state).

Definition INIT_RADIX_TREE (mask : Z) : radix_tree_root := mk_root 0 mask NULL.

(** ** Memory *)

Definition ld (a : Z) : M radix_tree_node := fun s =>
  if a =? NULL then None else match heap s !! a with Some n => Some (n, s) | None => None end.
Definition sto (a : Z) (n : radix_tree_node) : M unit := fun s =>
  if a =? NULL then None
  else match heap s !! a with Some _ => Some (tt, mk_state (root s) (<[a := n]> (heap s)) (supply s) (preload s) (freed s)) | None => None end.
Definition ld_slot (a i : Z) : M Z := n ← ld a; st_lift (aget (slots n) i).
Definition st_slot (a i v : Z) : M unit := n ← ld a; l ← st_lift (aset (slots n) i v); sto a (mk_node (node_height n) (count n) l (tags n)).
Definition st_count (a c : Z) : M unit := n ← ld a; sto a (mk_node (node_height n) (u32 c) (slots n) (tags n)).
Definition st_height (a h : Z) : M unit := n ← ld a; sto a (mk_node h (count n) (slots n) (tags n)).
Definition ld_root : M radix_tree_root := fun s => Some (root s, s).
Definition st_root (r : radix_tree_root) : M unit := fun s => Some (tt, mk_state r (heap s) (supply s) (preload s) (freed s)).
Definition st_rnode (v : Z) : M unit := r ← ld_root; st_root (mk_root (height r) (gfp_mask r) v).
Definition st_root_height (h : Z) : M unit := r ← ld_root; st_root (mk_root h (gfp_mask r) (rnode r)).
Definition st_gfp (g : Z) : M unit := r ← ld_root; st_root (mk_root (height r) g (rnode r)).

(** ** Pointers *)

Definition RADIX_TREE_DIRECT_PTR : Z := 1.
Definition radix_tree_ptr_to_direct (p : Z) : Z := Z.lor p RADIX_TREE_DIRECT_PTR.
Definition radix_tree_direct_to_ptr (p : Z) : Z := Z.land p (u32 (Z.lnot RADIX_TREE_DIRECT_PTR)).
Definition radix_tree_is_direct_ptr (p : Z) : bool := negb (Z.land p RADIX_TREE_DIRECT_PTR =? 0).

(** ** Allocation *)

(** A new object is as its constructor or its last user left it. *)
Definition kmem_cache_alloc : M Z := fun s =>
  match supply s with
  | [] => Some (NULL, s)
  | a :: l =>
      let h := if a =? NULL then heap s else match heap s !! a with Some _ => heap s | None => <[a := zero_node]> (heap s) end in
      Some (a, mk_state (root s) h l (preload s) (filter (.≠ a) (freed s)))
  end.

Definition take_preload : M Z := fun s =>
  match preload s with
  | [] => Some (NULL, s)
  | a :: l => Some (a, mk_state (root s) (heap s) (supply s) l (freed s))
  end.

Definition root_gfp_mask (r : radix_tree_root) : Z := Z.land (gfp_mask r) __GFP_BITS_MASK.

Definition radix_tree_node_alloc : M Z :=
  r ← ld_root;
  let gfp_mask := root_gfp_mask r in
  ret ← kmem_cache_alloc;
  ret ← (if (ret =? NULL) && (Z.land gfp_mask __GFP_WAIT =? 0) then take_preload else mret ret);
  st_lift (BUG_ON (radix_tree_is_direct_ptr ret)) ;;
  mret ret.

Definition kmem_cache_free (a : Z) : M unit := fun s => Some (tt, mk_state (root s) (heap s) (supply s) (preload s) (a :: freed s)).

(** The grace period of RCU is over before the node is allocated again. *)
Definition radix_tree_node_free (a : Z) : M unit := kmem_cache_free a.

Definition push_preload (a : Z) : M unit := fun s => Some (tt, mk_state (root s) (heap s) (supply s) (a :: preload s) (freed s)).
Definition preload_nr : M Z := fun s => Some (Z.of_nat (length (preload s)), s).

(** The loop of [radix_tree_preload], with at most [n] rounds to go. *)
Fixpoint preload_loop (n : nat) : M Z :=
  nr ← preload_nr;
  if nr <? RADIX_TREE_MAX_PATH then
    match n with
    | O => st_fault
    | S n =>
        node ← kmem_cache_alloc;
        if node =? NULL then mret (- ENOMEM) else
        nr ← preload_nr;
        (if nr <? RADIX_TREE_MAX_PATH then push_preload node else kmem_cache_free node) ;; preload_loop n
    end
  else mret 0.
Definition radix_tree_preload : M Z := preload_loop (Z.to_nat RADIX_TREE_MAX_PATH).

(** ** Tags *)

Definition tag_word (n : radix_tree_node) (tag offset : Z) : option Z := ws ← aget (tags n) tag; aget ws (Z.shiftr offset 5).
Definition put_tag_word (n : radix_tree_node) (tag offset w : Z) : option radix_tree_node :=
  ws ← aget (tags n) tag; ws ← aset ws (Z.shiftr offset 5) w; t ← aset (tags n) tag ws; Some (mk_node (node_height n) (count n) (slots n) t).

Definition tag_set (a tag offset : Z) : M unit :=
  n ← ld a; w ← st_lift (tag_word n tag offset); n ← st_lift (put_tag_word n tag offset (Z.lor w (Z.shiftl 1 (Z.land offset 31)))); sto a n.
Definition tag_clear (a tag offset : Z) : M unit :=
  n ← ld a; w ← st_lift (tag_word n tag offset); n ← st_lift (put_tag_word n tag offset (Z.land w (u32 (Z.lnot (Z.shiftl 1 (Z.land offset 31)))))); sto a n.
Definition tag_get (a tag offset : Z) : M bool :=
  n ← ld a; w ← st_lift (tag_word n tag offset); mret (negb (Z.land (Z.shiftr w (Z.land offset 31)) 1 =? 0)).

Definition root_tag_bit (tag : Z) : Z := Z.shiftl 1 (tag + __GFP_BITS_SHIFT).
Definition root_tag_set (tag : Z) : M unit := r ← ld_root; st_gfp (Z.lor (gfp_mask r) (root_tag_bit tag)).
Definition root_tag_clear (tag : Z) : M unit := r ← ld_root; st_gfp (Z.land (gfp_mask r) (u32 (Z.lnot (root_tag_bit tag)))).
Definition root_tag_clear_all : M unit := r ← ld_root; st_gfp (Z.land (gfp_mask r) __GFP_BITS_MASK).
Definition root_tag_get (r : radix_tree_root) (tag : Z) : bool := negb (Z.land (gfp_mask r) (root_tag_bit tag) =? 0).

Definition any_tag_set (a tag : Z) : M bool :=
  n ← ld a; ws ← st_lift (aget (tags n) tag); mret (existsb (fun w => negb (w =? 0)) ws).

(** ** Heights *)

Definition __maxindex (h : Z) : Z :=
  let tmp := h * RADIX_TREE_MAP_SHIFT in
  if RADIX_TREE_INDEX_BITS <=? tmp then 2 ^ 32 - 1 else Z.shiftr (Z.shiftr (2 ^ 32 - 1) (RADIX_TREE_INDEX_BITS - tmp - 1)) 1.
Definition height_to_maxindex : list Z := (fun i => __maxindex (Z.of_nat i)) <$> seq 0 (Z.to_nat RADIX_TREE_MAX_PATH).
Definition radix_tree_maxindex (h : Z) : option Z := aget height_to_maxindex h.

(** The first loop of [radix_tree_extend]. *)
Fixpoint extend_height (n : nat) (index h : Z) : M Z :=
  m ← st_lift (radix_tree_maxindex h);
  if m <? index then match n with O => st_fault | S n => extend_height n index (h + 1) end else mret h.

Definition propagate_tag (node tag : Z) : M unit := r ← ld_root; if root_tag_get r tag then tag_set node tag 0 else mret tt.

(** The second loop; [n] is the number of levels to add. *)
Fixpoint extend_loop (n : nat) : M Z :=
  match n with
  | O => mret 0
  | S n =>
      node ← radix_tree_node_alloc;
      if node =? NULL then mret (- ENOMEM) else
      r ← ld_root;
      st_slot node 0 (radix_tree_direct_to_ptr (rnode r)) ;;
      propagate_tag node 0 ;; propagate_tag node 1 ;;
      let newheight := height r + 1 in
      st_height node newheight ;; st_count node 1 ;; st_rnode node ;; st_root_height newheight ;;
      extend_loop n
  end.

Definition radix_tree_extend (index : Z) : M Z :=
  r ← ld_root;
  h ← extend_height (Z.to_nat RADIX_TREE_MAX_PATH) index (height r + 1);
  if rnode r =? NULL then st_root_height h ;; mret 0
  else extend_loop (Z.to_nat (h - height r)).

(** ** Insertion and lookup *)

Definition offset_of (index shift : Z) : Z := Z.land (Z.shiftr index shift) RADIX_TREE_MAP_MASK.
Definition next_shift (shift : Z) : Z := u32 (shift - RADIX_TREE_MAP_SHIFT).
Definition first_shift (h : Z) : Z := u32 (u32 (h - 1) * RADIX_TREE_MAP_SHIFT).

(** [Have to add a child node]: its address, 0 for a failure. *)
Definition add_child (h node offset : Z) : M Z :=
  a ← radix_tree_node_alloc;
  if a =? NULL then mret NULL else
  st_height a h ;;
  (if negb (node =? NULL) then st_slot node offset a ;; n ← ld node; st_count node (count n + 1) else st_rnode a) ;;
  mret a.

(** The loop of [radix_tree_insert] over [height]: an error, or [node], [offset]
    and [slot]. *)
Fixpoint insert_loop (h : nat) (index shift node offset slot : Z) : M (Z + Z * Z * Z) :=
  match h with
  | O => mret (inr (node, offset, slot))
  | S h' =>
      slot ← (if slot =? NULL then add_child (Z.of_nat h) node offset else mret slot);
      if slot =? NULL then mret (inl (- ENOMEM)) else
      let offset := offset_of index shift in
      next ← ld_slot slot offset;
      insert_loop h' index (next_shift shift) slot offset next
  end.

Definition radix_tree_insert (index item : Z) : M Z :=
  st_lift (BUG_ON (radix_tree_is_direct_ptr item)) ;;
  r ← ld_root;
  m ← st_lift (radix_tree_maxindex (height r));
  error ← (if m <? index then radix_tree_extend index else mret 0);
  if negb (error =? 0) then mret error else
  r ← ld_root;
  p ← insert_loop (Z.to_nat (height r)) index (first_shift (height r)) NULL 0 (rnode r);
  match p with
  | inl error => mret error
  | inr (node, offset, slot) =>
      if negb (slot =? NULL) then mret (- EEXIST) else
      if negb (node =? NULL) then
        n ← ld node; st_count node (count n + 1) ;; st_slot node offset item ;;
        t0 ← tag_get node 0 offset; st_lift (BUG_ON t0) ;; t1 ← tag_get node 1 offset; st_lift (BUG_ON t1) ;;
        mret 0
      else
        st_rnode (radix_tree_ptr_to_direct item) ;;
        r ← ld_root; st_lift (BUG_ON (root_tag_get r 0)) ;; st_lift (BUG_ON (root_tag_get r 1)) ;;
        mret 0
  end.

(** The loops of [radix_tree_lookup_slot] and [radix_tree_lookup]: node and offset
    of the slot, and what it holds. *)
Fixpoint lookup_loop (h : nat) (index shift node : Z) : M (option (Z * Z * Z)) :=
  let offset := offset_of index shift in
  next ← ld_slot node offset;
  if next =? NULL then mret None else
  match h with
  | O | S O => mret (Some (node, offset, next))
  | S h => lookup_loop h index (next_shift shift) next
  end.

(** Where the slot is: in the root, or in a node. *)
Inductive slot_ptr := RootSlot | NodeSlot (node offset : Z).

Definition radix_tree_lookup_slot (index : Z) : M (option slot_ptr) :=
  r ← ld_root;
  let node := rnode r in
  if node =? NULL then mret None else
  if radix_tree_is_direct_ptr node then mret (if 0 <? index then None else Some RootSlot) else
  n ← ld node;
  m ← st_lift (radix_tree_maxindex (node_height n));
  if m <? index then mret None else
  o ← lookup_loop (Z.to_nat (node_height n)) index (first_shift (node_height n)) node;
  mret (match o with Some (a, k, _) => Some (NodeSlot a k) | None => None end).

Definition radix_tree_lookup (index : Z) : M Z :=
  r ← ld_root;
  let node := rnode r in
  if node =? NULL then mret NULL else
  if radix_tree_is_direct_ptr node then mret (if 0 <? index then NULL else radix_tree_direct_to_ptr node) else
  n ← ld node;
  m ← st_lift (radix_tree_maxindex (node_height n));
  if m <? index then mret NULL else
  o ← lookup_loop (Z.to_nat (node_height n)) index (first_shift (node_height n)) node;
  mret (match o with Some (_, _, v) => v | None => NULL end).

(** [*pslot]. *)
Definition ld_pslot (p : slot_ptr) : M Z := match p with RootSlot => r ← ld_root; mret (rnode r) | NodeSlot a k => ld_slot a k end.
Definition st_pslot (p : slot_ptr) (v : Z) : M unit := match p with RootSlot => st_rnode v | NodeSlot a k => st_slot a k v end.

Definition radix_tree_deref_slot (pslot : slot_ptr) : M Z := v ← ld_pslot pslot; mret (radix_tree_direct_to_ptr v).

Definition radix_tree_replace_slot (pslot : slot_ptr) (item : Z) : M unit :=
  st_lift (BUG_ON (radix_tree_is_direct_ptr item)) ;;
  v ← ld_pslot pslot;
  st_pslot pslot (Z.lor item (Z.land v RADIX_TREE_DIRECT_PTR)).

(** ** Setting and clearing tags *)

Fixpoint tag_set_loop (h : nat) (index tag shift slot : Z) : M Z :=
  match h with
  | O => mret slot
  | S h =>
      let offset := offset_of index shift in
      t ← tag_get slot tag offset;
      (if negb t then tag_set slot tag offset else mret tt) ;;
      slot ← ld_slot slot offset;
      st_lift (BUG_ON (slot =? NULL)) ;;
      tag_set_loop h index tag (next_shift shift) slot
  end.

Definition radix_tree_tag_set (index tag : Z) : M Z :=
  r ← ld_root;
  m ← st_lift (radix_tree_maxindex (height r));
  st_lift (BUG_ON (m <? index)) ;;
  slot ← tag_set_loop (Z.to_nat (height r)) index tag (first_shift (height r)) (rnode r);
  r ← ld_root;
  (if negb (slot =? NULL) && negb (root_tag_get r tag) then root_tag_set tag else mret tt) ;;
  mret slot.

(** The loops that go down to the item and fill in [path]: the path, its end
    first, and the slot; nothing if a slot on the way is null. *)
Fixpoint descend (h : nat) (index shift slot : Z) (path : list (Z * Z)) : M (option (list (Z * Z) * Z)) :=
  match h with
  | O => mret (Some (path, slot))
  | S h =>
      if slot =? NULL then mret None else
      let offset := offset_of index shift in
      next ← ld_slot slot offset;
      descend h index (next_shift shift) next ((slot, offset) :: path)
  end.

(** The loop that clears the tag from the end of the path up; [true] if it reaches
    the root. *)
Fixpoint tag_clear_loop (tag : Z) (path : list (Z * Z)) : M bool :=
  match path with
  | [] => mret true
  | (node, offset) :: path =>
      t ← tag_get node tag offset;
      if negb t then mret false else
      tag_clear node tag offset ;;
      any ← any_tag_set node tag;
      if (any : bool) then mret false else tag_clear_loop tag path
  end.

Definition radix_tree_tag_clear (index tag : Z) : M Z :=
  r ← ld_root;
  m ← st_lift (radix_tree_maxindex (height r));
  if m <? index then mret NULL else
  p ← descend (Z.to_nat (height r)) index (first_shift (height r)) (rnode r) [];
  match p with
  | None => mret NULL
  | Some (path, slot) =>
      if slot =? NULL then mret NULL else
      top ← tag_clear_loop tag path;
      r ← ld_root;
      (if (top : bool) && root_tag_get r tag then root_tag_clear tag else mret tt) ;;
      mret slot
  end.

(** ** Deletion *)

Fixpoint shrink_loop (n : nat) : M unit :=
  r ← ld_root;
  if negb (0 <? height r) then mret tt else
  nd ← ld (rnode r);
  s0 ← st_lift (aget (slots nd) 0);
  if negb ((count nd =? 1) && negb (s0 =? NULL)) then mret tt else
  match n with
  | O => st_fault
  | S n =>
      let to_free := rnode r in
      let newptr := if height r =? 1 then radix_tree_ptr_to_direct s0 else s0 in
      st_rnode newptr ;; st_root_height (height r - 1) ;;
      tag_clear to_free 0 0 ;; tag_clear to_free 1 0 ;;
      st_slot to_free 0 NULL ;; st_count to_free 0 ;;
      radix_tree_node_free to_free ;;
      shrink_loop n
  end.
Definition radix_tree_shrink : M unit := r ← ld_root; shrink_loop (Z.to_nat (height r)).

Definition free_if (a : Z) : M unit := if negb (a =? NULL) then radix_tree_node_free a else mret tt.

(** [Now free the nodes we do not need anymore]. *)
Fixpoint free_loop (path : list (Z * Z)) (to_free : Z) : M unit :=
  match path with
  | [] => root_tag_clear_all ;; st_root_height 0 ;; st_rnode NULL ;; free_if to_free
  | (node, offset) :: path =>
      st_slot node offset NULL ;;
      n ← ld node; st_count node (count n - 1) ;;
      free_if to_free ;;
      n ← ld node;
      if negb (count n =? 0) then
        r ← ld_root; if node =? rnode r then radix_tree_shrink else mret tt
      else free_loop path node
  end.

Definition clear_item_tag (index tag : Z) (path : list (Z * Z)) : M unit :=
  match path with
  | (node, offset) :: _ => t ← tag_get node tag offset; if (t : bool) then radix_tree_tag_clear index tag ;; mret tt else mret tt
  | [] => st_fault
  end.

Definition radix_tree_delete (index : Z) : M Z :=
  r ← ld_root;
  m ← st_lift (radix_tree_maxindex (height r));
  if m <? index then mret NULL else
  let slot := rnode r in
  if (height r =? 0) && negb (slot =? NULL) then
    root_tag_clear_all ;; st_rnode NULL ;; mret (radix_tree_direct_to_ptr slot)
  else
  p ← descend (Z.to_nat (height r)) index (first_shift (height r)) slot [];
  match p with
  | None => mret NULL
  | Some (path, slot) =>
      if slot =? NULL then mret NULL else
      clear_item_tag index 0 path ;; clear_item_tag index 1 path ;;
      free_loop path NULL ;;
      mret slot
  end.

Definition radix_tree_tagged (tag : Z) : M bool := r ← ld_root; mret (root_tag_get r tag).

(** ** Gang lookup *)

(** The inner loop of [__lookup] and [__lookup_tag]: looks for a slot that [p]
    accepts from the slot [i] on, where [n] slots are left, and moves the index
    along; the slot found, if any, and the index. *)
Fixpoint scan (p : Z -> M bool) (n : nat) (shift index i : Z) : M (option Z * Z) :=
  match n with
  | O => mret (None, index)
  | S n =>
      b ← p i;
      if (b : bool) then mret (Some i, index) else
      let index := Z.land index (u32 (Z.lnot (Z.shiftl 1 shift - 1))) in
      let index := u32 (index + Z.shiftl 1 shift) in
      if index =? 0 then mret (None, index) else scan p n shift index (i + 1)
  end.

Definition slots_left (i : Z) : nat := Z.to_nat (RADIX_TREE_MAP_SIZE - i).
Definition slot_used (node i : Z) : M bool := v ← ld_slot node i; mret (negb (v =? NULL)).

(** The bottom level: takes up to [max] items that [p] accepts. *)
Fixpoint grab (p : Z -> M bool) (n : nat) (node index i : Z) (max : Z) (results : list Z) : M (list Z * Z) :=
  match n with
  | O => mret (results, index)
  | S n =>
      let index := u32 (index + 1) in
      b ← p i;
      v ← ld_slot node i;
      if (b : bool) && negb (v =? NULL) then
        let results := results ++ [v] in
        if Z.of_nat (length results) =? max then mret (results, index) else grab p n node index (i + 1) max results
      else grab p n node index (i + 1) max results
  end.

(** The levels above the bottom level of [__lookup]. *)
Fixpoint lookup_down (h : nat) (index shift slot : Z) (max : Z) : M (list Z * Z) :=
  match h with
  | O => mret ([], index)
  | S O => grab (fun _ => mret true) (slots_left (Z.land index RADIX_TREE_MAP_MASK)) slot index (Z.land index RADIX_TREE_MAP_MASK) max []
  | S h =>
      let i := offset_of index shift in
      '(o, index) ← scan (slot_used slot) (slots_left i) shift index i;
      match o with
      | None => mret ([], index)
      | Some i =>
          next ← ld_slot slot i;
          if next =? NULL then mret ([], index) else lookup_down h index (next_shift shift) next max
      end
  end.

Definition __lookup (slot index max : Z) : M (list Z * Z) :=
  n ← ld slot; lookup_down (Z.to_nat (node_height n)) index (first_shift (node_height n)) slot max.

(** [__lookup_tag]; at the bottom level the slot is found by its tag as well. *)
Fixpoint lookup_tag_down (h : nat) (index shift slot tag : Z) (max : Z) : M (list Z * Z) :=
  match h with
  | O => mret ([], index)
  | S h' =>
      let i := offset_of index shift in
      '(o, index) ← scan (tag_get slot tag) (slots_left i) shift index i;
      match o with
      | None => mret ([], index)
      | Some i =>
          match h' with
          | O => let j := Z.land index RADIX_TREE_MAP_MASK in grab (tag_get slot tag) (slots_left j) slot index j max []
          | _ => next ← ld_slot slot i;
                 if next =? NULL then mret ([], index) else lookup_tag_down h' index (next_shift shift) next tag max
          end
      end
  end.

Definition __lookup_tag (slot index max tag : Z) : M (list Z * Z) :=
  n ← ld slot; lookup_tag_down (Z.to_nat (node_height n)) index (first_shift (node_height n)) slot tag max.

(** The loop of the gang lookups, with at most [n] rounds. *)
Fixpoint gang_loop (lookup : Z -> Z -> M (list Z * Z)) (n : nat) (cur max_index max_items : Z) (results : list Z) : M (list Z) :=
  let ret := Z.of_nat (length results) in
  if negb (ret <? max_items) then mret results else
  if max_index <? cur then mret results else
  match n with
  | O => st_fault
  | S n =>
      '(found, next) ← lookup cur (max_items - ret);
      let results := results ++ found in
      if next =? 0 then mret results else gang_loop lookup n next max_index max_items results
  end.

Definition radix_tree_gang_lookup (fuel : nat) (first_index max_items : Z) : M (list Z) :=
  r ← ld_root;
  let node := rnode r in
  if node =? NULL then mret [] else
  if radix_tree_is_direct_ptr node then mret (if 0 <? first_index then [] else [radix_tree_direct_to_ptr node]) else
  n ← ld node;
  m ← st_lift (radix_tree_maxindex (node_height n));
  gang_loop (__lookup node) fuel first_index m max_items [].

Definition radix_tree_gang_lookup_tag (fuel : nat) (first_index max_items tag : Z) : M (list Z) :=
  r ← ld_root;
  if negb (root_tag_get r tag) then mret [] else
  let node := rnode r in
  if node =? NULL then mret [] else
  if radix_tree_is_direct_ptr node then mret (if 0 <? first_index then [] else [radix_tree_direct_to_ptr node]) else
  n ← ld node;
  m ← st_lift (radix_tree_maxindex (node_height n));
  gang_loop (fun index max => __lookup_tag node index max tag) fuel first_index m max_items [].

End Radix.
