(* ===== verification/RadixNode.v ===== *)
(** * Radix trees: indices, nodes and tags

    The arithmetic of the levels, the bits of a node's tag words, and the effect of
    the accesses to one node. *)

From S2P Require Import Prelude Radix.

Module RadixNode.
Import Radix.

(** ** Levels

    The node that covers the index [i] at level [h] covers the indices with the
    same [pre h i]; [off h i] is the slot of its child. *)
Definition pre (h i : Z) : Z := i / 64 ^ h.
Definition off (h i : Z) : Z := pre (h - 1) i mod 64.

Lemma pow64 h : 0 <= h -> 64 ^ h = 2 ^ (6 * h).
Proof. intros. by rewrite Z.pow_mul_r by lia. Qed.

Lemma pow64_pos h : 0 <= h -> 0 < 64 ^ h.
Proof. intros. apply Z.pow_pos_nonneg; lia. Qed.

Lemma pow64_succ h : 1 <= h -> 64 ^ h = 64 * 64 ^ (h - 1).
Proof. intros. rewrite <- Z.pow_succ_r by lia. f_equal. lia. Qed.

Lemma pre_0 i : pre 0 i = i.
Proof. unfold pre. by rewrite Z.div_1_r. Qed.

Lemma pre_succ h i : 1 <= h -> pre h i = pre (h - 1) i / 64.
Proof. intros. unfold pre. rewrite pow64_succ by done. rewrite (Z.mul_comm 64). symmetry. apply Z.div_div; [pose proof (pow64_pos (h - 1)); lia|lia]. Qed.

Lemma pre_split h i : 1 <= h -> pre (h - 1) i = 64 * pre h i + off h i.
Proof. intros. rewrite (pre_succ h) by done. unfold off. apply Z.div_mod. lia. Qed.

Lemma off_range h i : 0 <= off h i < 64.
Proof. unfold off. apply Z.mod_pos_bound. lia. Qed.

Lemma pre_nonneg h i : 0 <= h -> 0 <= i -> 0 <= pre h i.
Proof. intros. unfold pre. apply Z.div_pos; [done|]. by apply pow64_pos. Qed.

Lemma offset_of_off h i : 1 <= h -> offset_of i (6 * (h - 1)) = off h i.
Proof.
  intros. unfold offset_of, off, pre. change RADIX_TREE_MAP_MASK with (2 ^ 6 - 1). rewrite land_ones_mod by lia. rewrite Z.shiftr_div_pow2 by lia. by rewrite pow64 by lia.
Qed.

Lemma first_shift_eq h : 1 <= h <= 6 -> first_shift h = 6 * (h - 1).
Proof. intros. unfold first_shift, RADIX_TREE_MAP_SHIFT. rewrite (u32_small (h - 1)) by (unfold is_u32; lia). rewrite u32_small by (unfold is_u32; lia). lia. Qed.

Lemma next_shift_eq h : 2 <= h <= 6 -> next_shift (6 * (h - 1)) = 6 * (h - 1 - 1).
Proof. intros. unfold next_shift, RADIX_TREE_MAP_SHIFT. rewrite u32_small by (unfold is_u32; lia). lia. Qed.

(** The largest index at a height. *)
Lemma maxindex_eq h : 0 <= h <= 6 -> radix_tree_maxindex h = Some (Z.min (64 ^ h) (2 ^ 32) - 1).
Proof. intros H. assert (h = 0 \/ h = 1 \/ h = 2 \/ h = 3 \/ h = 4 \/ h = 5 \/ h = 6) as [->|[->|[->|[->|[->|[->| ->]]]]]] by lia; reflexivity. Qed.

Lemma pre_top h i : 0 <= h -> 0 <= i <= Z.min (64 ^ h) (2 ^ 32) - 1 -> pre h i = 0.
Proof. intros. unfold pre. apply Z.div_small. lia. Qed.

Lemma pre_pre h h' i : 0 <= h -> 0 <= h' -> pre h' (pre h i) = pre (h + h') i.
Proof. intros. unfold pre. rewrite Z.pow_add_r, Z.div_div by (try apply pow64_pos; pose proof (pow64_pos h); lia). done. Qed.

(** ** Pointers *)

(** A pointer to a node or an item: not null, and its low bit is clear. *)
Definition good (p : Z) : Prop := 0 < p < 2 ^ 32 /\ Z.even p = true.

Lemma good_not_direct p : good p -> radix_tree_is_direct_ptr p = false.
Proof.
  intros [H He]. unfold radix_tree_is_direct_ptr, RADIX_TREE_DIRECT_PTR. change 1 with (2 ^ 1 - 1). rewrite land_ones_mod by lia. rewrite Zmod_even, He. done.
Qed.

Lemma null_not_direct : radix_tree_is_direct_ptr NULL = false.
Proof. done. Qed.

Lemma direct_eq p : good p -> radix_tree_ptr_to_direct p = p + 1.
Proof.
  intros [H He]. unfold radix_tree_ptr_to_direct, RADIX_TREE_DIRECT_PTR. apply Z.even_spec in He as [k ->].
  symmetry. rewrite Z.add_nocarry_lxor, Z.lxor_lor; [done| |]; change 1 with (2 ^ 1 - 1); rewrite land_ones_mod by lia; rewrite Z.mul_comm; apply Z.mod_mul; lia.
Qed.

Lemma direct_is p : good p -> radix_tree_is_direct_ptr (p + 1) = true.
Proof.
  intros [H He]. unfold radix_tree_is_direct_ptr, RADIX_TREE_DIRECT_PTR. change 1 with (2 ^ 1 - 1) at 2. rewrite land_ones_mod by lia. rewrite Zmod_even, Z.even_add, He. done.
Qed.

Lemma clear_low p : 0 <= p < 2 ^ 32 -> radix_tree_direct_to_ptr p = p - p mod 2.
Proof.
  intros H. unfold radix_tree_direct_to_ptr, RADIX_TREE_DIRECT_PTR. change (u32 (Z.lnot 1)) with (Z.ldiff (Z.ones 32) (Z.ones 1)). transitivity (Z.ldiff p (Z.ones 1)).
  - apply Z.bits_inj'. intros n Hn. rewrite Z.land_spec, !Z.ldiff_spec. destruct (Z.lt_ge_cases n 32) as [Hlt|Hge]; [by rewrite (Z.ones_spec_low 32) by lia|by rewrite (testbit_high p 32) by lia].
  - rewrite Z.ldiff_ones_r, Z.shiftl_mul_pow2, Z.shiftr_div_pow2 by lia. change (2 ^ 1) with 2. pose proof (Z.div_mod p 2 ltac:(done)). lia.
Qed.

Lemma direct_to_ptr_direct p : good p -> radix_tree_direct_to_ptr (p + 1) = p.
Proof. intros [H He]. apply Z.even_spec in He as [k ->]. rewrite clear_low by lia. replace ((2 * k + 1) mod 2) with 1; [lia|]. rewrite Z.add_comm, Z.mul_comm, Z_mod_plus_full. done. Qed.

Lemma direct_to_ptr_good p : good p -> radix_tree_direct_to_ptr p = p.
Proof. intros [H He]. rewrite clear_low, Zmod_even, He by lia. lia. Qed.

(** ** Tags of a node *)

Definition tags_shape (n : radix_tree_node) : Prop :=
  exists a b c d, tags n = [[a; b]; [c; d]] /\ is_u32 a /\ is_u32 b /\ is_u32 c /\ is_u32 d.

Definition tagb (n : radix_tree_node) (t k : Z) : bool :=
  match tag_word n t k with Some w => Z.testbit w (Z.land k 31) | None => false end.
Definition any_tag (n : radix_tree_node) (t : Z) : bool :=
  match aget (tags n) t with Some ws => existsb (fun w => negb (w =? 0)) ws | None => false end.

(** Slot [k] is bit [k mod 32] of word [k / 32]. *)
Lemma tag_index k : 0 <= k < 64 -> exists b, Z.land k 31 = b /\ 0 <= b < 32 /\ (Z.shiftr k 5 = 0 /\ k = b \/ Z.shiftr k 5 = 1 /\ k = 32 + b).
Proof.
  intros H. exists (k mod 32). split; [change 31 with (2 ^ 5 - 1); by rewrite land_ones_mod by lia|]. split; [apply Z.mod_pos_bound; lia|].
  rewrite Z.shiftr_div_pow2 by lia. change (2 ^ 5) with 32. pose proof (Z.div_mod k 32 ltac:(done)). pose proof (Z.mod_pos_bound k 32 ltac:(done)).
  assert (k / 32 = 0 \/ k / 32 = 1) as [E|E] by lia; rewrite E in *; [left|right]; lia.
Qed.

Lemma test_shift w b : 0 <= b -> negb (Z.land (Z.shiftr w b) 1 =? 0) = Z.testbit w b.
Proof.
  intros H. change 1 with (2 ^ 1 - 1). rewrite land_ones_mod by lia. change (2 ^ 1) with 2. rewrite <- Z.bit0_mod, Z.shiftr_spec, Z.add_0_l by lia. by destruct (Z.testbit w b).
Qed.

Lemma set_bit_spec w b m : 0 <= b < 32 -> 0 <= m < 32 -> Z.testbit (Z.lor w (Z.shiftl 1 b)) m = (m =? b) || Z.testbit w m.
Proof. intros. rewrite Z.lor_spec, Z.shiftl_spec by lia. rewrite orb_comm. f_equal. destruct (Z.eqb_spec m b) as [->|Hn]; [by rewrite Z.sub_diag|]. destruct (Z.lt_ge_cases m b); [by rewrite Z.testbit_neg_r by lia|]. apply (testbit_high 1 1); lia. Qed.

Lemma clear_bit_spec w b m : is_u32 w -> 0 <= b < 32 -> 0 <= m < 32 -> Z.testbit (Z.land w (u32 (Z.lnot (Z.shiftl 1 b)))) m = negb (m =? b) && Z.testbit w m.
Proof.
  intros. rewrite Z.land_spec, andb_comm. f_equal. unfold u32. rewrite Z.mod_pow2_bits_low, Z.lnot_spec by lia. f_equal. rewrite Z.shiftl_spec by lia.
  destruct (Z.eqb_spec m b) as [->|Hn]; [by rewrite Z.sub_diag|]. destruct (Z.lt_ge_cases m b); [by rewrite Z.testbit_neg_r by lia|]. apply (testbit_high 1 1); lia.
Qed.

Lemma lor_bit_u32 w b : is_u32 w -> 0 <= b < 32 -> is_u32 (Z.lor w (Z.shiftl 1 b)).
Proof.
  unfold is_u32. intros Hw Hb. assert (0 <= Z.lor w (Z.shiftl 1 b)) as H0 by (apply Z.lor_nonneg; split; [lia|apply Z.shiftl_nonneg; lia]). split; [done|].
  apply Z.lt_nge. intros Hge. assert (exists m, 32 <= m /\ Z.testbit (Z.lor w (Z.shiftl 1 b)) m = true) as (m & Hm & Ht).
  { exists (Z.log2 (Z.lor w (Z.shiftl 1 b))). split; [apply Z.log2_le_pow2; lia|apply Z.bit_log2; lia]. }
  rewrite Z.lor_spec, (testbit_high w 32), Z.shiftl_spec, (testbit_high 1 1) in Ht by lia. done.
Qed.

(** Another value of the tag bit [k]. *)
Record tag_changed (n : radix_tree_node) (t k : Z) (b : bool) (n' : radix_tree_node) : Prop := {
  tc_height : node_height n' = node_height n;
  tc_count : count n' = count n;
  tc_slots : slots n' = slots n;
  tc_shape : tags_shape n';
  tc_tagb : forall t' k', 0 <= t' < 2 -> 0 <= k' < 64 -> tagb n' t' k' = if decide (t' = t /\ k' = k) then b else tagb n t' k' }.

Lemma put_word_ok n t k f b : tags_shape n -> 0 <= t < 2 -> 0 <= k < 64 -> (forall w, is_u32 w -> is_u32 (f w)) ->
  (forall w m, is_u32 w -> 0 <= m < 32 -> Z.testbit (f w) m = if decide (m = Z.land k 31) then b else Z.testbit w m) ->
  exists w n', tag_word n t k = Some w /\ put_tag_word n t k (f w) = Some n' /\ tag_changed n t k b n'.
Proof.
  intros (w0 & w1 & w2 & w3 & E & H0 & H1 & H2 & H3) Ht Hk Hf Hb. destruct (tag_index k Hk) as (m & Em & Hm & Hk2). rewrite Em in Hb. unfold tag_word, put_tag_word. rewrite E.
  assert (t = 0 \/ t = 1) as [-> | ->] by lia; destruct Hk2 as [[-> Ek]|[-> Ek]]; eexists _, _; (split; [reflexivity|]; split; [reflexivity|]);
    (split; [done|done|done|do 4 eexists; (split; [reflexivity|]); auto|]); intros t' k' Ht' Hk'; destruct (tag_index k' Hk') as (m' & Em' & Hm' & Hk2'); unfold tagb, tag_word; cbn [tags]; rewrite E, Em';
    (assert (t' = 0 \/ t' = 1) as [-> | ->] by lia); destruct Hk2' as [[-> Ek']|[-> Ek']]; cbn; change (Z.to_nat 0) with 0%nat; change (Z.to_nat 1) with 1%nat; simpl; rewrite ?Hb by done; repeat case_decide; try lia; done.
Qed.

Lemma tag_word_ok n t k : tags_shape n -> 0 <= t < 2 -> 0 <= k < 64 -> exists w, tag_word n t k = Some w /\ is_u32 w.
Proof.
  intros (w0 & w1 & w2 & w3 & E & H0 & H1 & H2 & H3) Ht Hk. destruct (tag_index k Hk) as (m & Em & Hm & Hk2). unfold tag_word. rewrite E.
  assert (t = 0 \/ t = 1) as [-> | ->] by lia; destruct Hk2 as [[-> Ek]|[-> Ek]]; eexists; (split; [reflexivity|done]).
Qed.

Lemma any_tag_spec n t : tags_shape n -> 0 <= t < 2 -> any_tag n t = true <-> exists k, 0 <= k < 64 /\ tagb n t k = true.
Proof.
  intros (w0 & w1 & w2 & w3 & E & H0 & H1 & H2 & H3) Ht. unfold any_tag, tagb, tag_word. rewrite E.
  assert (forall w, is_u32 w -> w <> 0 -> exists m, 0 <= m < 32 /\ Z.testbit w m = true) as Hbit.
  { unfold is_u32. intros w Hw Hn. exists (Z.log2 w). split; [split; [apply Z.log2_nonneg|]; apply Z.log2_lt_pow2; lia|apply Z.bit_log2; lia]. }
  assert (forall a b, is_u32 a -> is_u32 b -> existsb (fun w => negb (w =? 0)) [a; b] = true <-> exists k, 0 <= k < 64 /\ match aget [a; b] (Z.shiftr k 5) with Some w => Z.testbit w (Z.land k 31) | None => false end = true) as Hgen.
  { intros x y Hx Hy. cbn [existsb]. rewrite orb_false_r, orb_true_iff, !negb_true_iff, !Z.eqb_neq. split.
    - intros [Hn|Hn]; [destruct (Hbit x Hx Hn) as (m & Hm & Hb); exists m|destruct (Hbit y Hy Hn) as (m & Hm & Hb); exists (32 + m)];
        (split; [lia|]); [destruct (tag_index m) as (m' & -> & Hm' & [[-> E']|[_ E']])|destruct (tag_index (32 + m)) as (m' & -> & Hm' & [[_ E']|[-> E']])]; try lia; cbn; change (Z.to_nat 0) with 0%nat; change (Z.to_nat 1) with 1%nat; simpl.
      + by rewrite <- E'.
      + by replace m' with m by lia.
    - intros (k & Hk & Hb). destruct (tag_index k Hk) as (m & Em & Hm & [[E1 _]|[E1 _]]); rewrite E1, Em in Hb; cbn in Hb; change (Z.to_nat 0) with 0%nat in Hb; change (Z.to_nat 1) with 1%nat in Hb; simpl in Hb; [left|right]; intros ->; by rewrite Z.bits_0 in Hb. }
  assert (t = 0 \/ t = 1) as [-> | ->] by lia; cbn; [apply (Hgen w0 w1 H0 H1)|apply (Hgen w2 w3 H2 H3)].
Qed.

(** ** Accesses *)

Definition upd (a : Z) (n : radix_tree_node) (s : state) : state := mk_state (root s) (<[a := n]> (heap s)) (supply s) (preload s) (freed s).
Definition slotv (n : radix_tree_node) (k : Z) : Z := default NULL (slots n !! Z.to_nat k).
Definition set_slot (n : radix_tree_node) (k v : Z) : radix_tree_node := mk_node (node_height n) (count n) (<[Z.to_nat k := v]> (slots n)) (tags n).
Definition set_count (n : radix_tree_node) (c : Z) : radix_tree_node := mk_node (node_height n) c (slots n) (tags n).
Definition set_height (n : radix_tree_node) (h : Z) : radix_tree_node := mk_node h (count n) (slots n) (tags n).
Definition with_root (r : radix_tree_root) (s : state) : state := mk_state r (heap s) (supply s) (preload s) (freed s).

Lemma slotv_set n k v k' : length (slots n) = 64%nat -> 0 <= k < 64 -> 0 <= k' < 64 -> slotv (set_slot n k v) k' = if decide (k' = k) then v else slotv n k'.
Proof.
  intros Hl Hk Hk'. unfold slotv, set_slot. cbn [slots]. case_decide as E; [subst; rewrite list_lookup_insert_eq by lia; done|]. rewrite list_lookup_insert_ne by lia. done.
Qed.

Section Run.
Context (s : state) (a : Z) (n : radix_tree_node).
Hypothesis Ha : a <> NULL.
Hypothesis Hn : heap s !! a = Some n.

Lemma node_ld_run : ld a s = Some (n, s).
Proof. unfold ld. by rewrite (proj2 (Z.eqb_neq _ _) Ha), Hn. Qed.

Lemma node_sto_run n' : sto a n' s = Some (tt, upd a n' s).
Proof. unfold sto. by rewrite (proj2 (Z.eqb_neq _ _) Ha), Hn. Qed.

Lemma st_height_run h : st_height a h s = Some (tt, upd a (set_height n h) s).
Proof. unfold st_height. erewrite bind_run by apply node_ld_run. apply node_sto_run. Qed.

Lemma st_count_run c : is_u32 c -> st_count a c s = Some (tt, upd a (set_count n c) s).
Proof. intros Hc. unfold st_count. erewrite bind_run by apply node_ld_run. rewrite u32_small by done. apply node_sto_run. Qed.

Hypothesis Hl : length (slots n) = 64%nat.

Lemma ld_slot_run k : 0 <= k < 64 -> ld_slot a k s = Some (slotv n k, s).
Proof.
  intros Hk. unfold ld_slot. erewrite bind_run by apply node_ld_run. unfold st_lift, slotv. rewrite aget_lookup by lia.
  destruct (slots n !! Z.to_nat k) eqn:E; [done|]. apply lookup_ge_None in E. lia.
Qed.

Lemma st_slot_run k v : 0 <= k < 64 -> st_slot a k v s = Some (tt, upd a (set_slot n k v) s).
Proof.
  intros Hk. unfold st_slot. erewrite bind_run by apply node_ld_run. erewrite bind_run by (unfold st_lift; rewrite aset_Z by lia; reflexivity). apply node_sto_run.
Qed.

Hypothesis Ht : tags_shape n.

Lemma tag_get_run t k : 0 <= t < 2 -> 0 <= k < 64 -> tag_get a t k s = Some (tagb n t k, s).
Proof.
  intros H1 H2. destruct (tag_word_ok n t k Ht H1 H2) as (w & Ew & _). unfold tag_get. erewrite bind_run by apply node_ld_run. erewrite bind_run by (unfold st_lift; rewrite Ew; reflexivity).
  unfold tagb. rewrite Ew. destruct (tag_index k H2) as (b & -> & Hb & _). by rewrite test_shift by lia.
Qed.

Lemma any_tag_set_run t : 0 <= t < 2 -> any_tag_set a t s = Some (any_tag n t, s).
Proof.
  intros H1. unfold any_tag_set, any_tag. erewrite bind_run by apply node_ld_run. destruct Ht as (w0 & w1 & w2 & w3 & -> & _). assert (t = 0 \/ t = 1) as [-> | ->] by lia; reflexivity.
Qed.

Lemma tag_set_run t k : 0 <= t < 2 -> 0 <= k < 64 -> exists n', tag_set a t k s = Some (tt, upd a n' s) /\ tag_changed n t k true n'.
Proof.
  intros H1 H2. destruct (tag_index k H2) as (b & Eb & Hb & _).
  destruct (put_word_ok n t k (fun w => Z.lor w (Z.shiftl 1 (Z.land k 31))) true Ht H1 H2) as (w & n' & Ew & En & Hn'); [rewrite Eb; intros; by apply lor_bit_u32| |].
  { intros w m Hw Hm. rewrite Eb, set_bit_spec by lia. case_decide; [by subst; rewrite Z.eqb_refl|]. by rewrite (proj2 (Z.eqb_neq m b)). }
  exists n'. split; [|done]. unfold tag_set. erewrite bind_run by apply node_ld_run. erewrite bind_run by (unfold st_lift; rewrite Ew; reflexivity).
  erewrite bind_run by (unfold st_lift; rewrite En; reflexivity). apply node_sto_run.
Qed.

Lemma tag_clear_run t k : 0 <= t < 2 -> 0 <= k < 64 -> exists n', tag_clear a t k s = Some (tt, upd a n' s) /\ tag_changed n t k false n'.
Proof.
  intros H1 H2. destruct (tag_index k H2) as (b & Eb & Hb & _).
  destruct (put_word_ok n t k (fun w => Z.land w (u32 (Z.lnot (Z.shiftl 1 (Z.land k 31))))) false Ht H1 H2) as (w & n' & Ew & En & Hn'); [intros; by apply land_u32| |].
  { intros w m Hw Hm. rewrite Eb, clear_bit_spec by (done || lia). case_decide; [by subst; rewrite Z.eqb_refl|]. by rewrite (proj2 (Z.eqb_neq m b)). }
  exists n'. split; [|done]. unfold tag_clear. erewrite bind_run by apply node_ld_run. erewrite bind_run by (unfold st_lift; rewrite Ew; reflexivity).
  erewrite bind_run by (unfold st_lift; rewrite En; reflexivity). apply node_sto_run.
Qed.

End Run.

End RadixNode.
