(* ===== verification/RadixShape.v ===== *)
(** * Radix trees: well-formed trees

    A tree of height [H] is described by the map [N] from labels to the addresses of
    its nodes: the label [(l, p)] is the node at level [l] for the indices [i] with
    [pre l i = p].  A label does not depend on the height, so growing and shrinking
    the tree at the root leaves all other labels as they are. *)

From S2P Require Import Prelude Radix RadixNode.

Module RadixShape.
Import Radix RadixNode.

Abbreviation labels := (gmap (Z * Z) Z).

Definition used (N : labels) (a : Z) : Prop := exists x, N !! x = Some a.
Definition nonnull (l : list Z) : Z := Z.of_nat (length (filter (.≠ 0) l)).

(** The nodes that are in no tree are zeroed, but for the height. *)
Definition zeroed (n : radix_tree_node) : Prop := slots n = slots zero_node /\ count n = 0 /\ tags n = tags zero_node.

(** The labels of a tree of height [H]: every node but the top one has a parent. *)
Record labels_ok (N : labels) (H : Z) : Prop := {
  lo_level : forall l p a, N !! (l, p) = Some a -> 1 <= l <= H /\ 0 <= p /\ (l = H -> p = 0) /\ good a;
  lo_parent : forall l p a, N !! (l, p) = Some a -> l < H -> is_Some (N !! (l + 1, p / 64));
  lo_inj : forall x y a, N !! x = Some a -> N !! y = Some a -> x = y }.

Record node_ok (N : labels) (l p : Z) (n : radix_tree_node) : Prop := {
  no_height : node_height n = l;
  no_len : length (slots n) = 64%nat;
  no_tags : tags_shape n;
  no_count : count n = nonnull (slots n);
  no_item : l = 1 -> forall k, 0 <= k < 64 -> slotv n k = 0 \/ good (slotv n k);
  no_child : 2 <= l -> forall k, 0 <= k < 64 -> slotv n k = default 0 (N !! (l - 1, 64 * p + k));
  no_bound : forall k, 0 <= k < 64 -> slotv n k <> 0 -> (64 * p + k) * 64 ^ (l - 1) < 2 ^ 32;
  no_tagged : forall t k, 0 <= t < 2 -> 0 <= k < 64 -> tagb n t k = true -> slotv n k <> 0 }.

Definition nodes_ok (N : labels) (h : gmap Z radix_tree_node) : Prop :=
  forall l p a, N !! (l, p) = Some a -> exists n, h !! a = Some n /\ node_ok N l p n.

Definition root_ok (N : labels) (r : radix_tree_root) : Prop :=
  0 <= height r <= 6 /\ is_u32 (gfp_mask r) /\
  (height r = 0 -> N = ∅ /\ (rnode r = 0 \/ exists item, good item /\ rnode r = item + 1)) /\
  (1 <= height r -> rnode r = default 0 (N !! (height r, 0))).

(** Every node that is neither in the tree nor in the hands of the running code
    ([own]) is free and zeroed, or preloaded and zeroed. *)
Record pool_ok (U : Z -> Prop) (own : list Z) (s : state) : Prop := {
  po_all : forall a n, heap s !! a = Some n -> U a \/ a ∈ own \/ a ∈ freed s ++ preload s /\ zeroed n;
  po_free : forall a, a ∈ freed s ++ preload s -> good a /\ is_Some (heap s !! a) /\ ~ U a /\ a ∉ own;
  po_nodup : NoDup (freed s ++ preload s);
  po_own : forall a, a ∈ own -> good a /\ is_Some (heap s !! a) /\ ~ U a;
  po_used : forall a, U a -> is_Some (heap s !! a);
  po_supply : NoDup (filter (.≠ 0) (supply s));
  po_fresh : forall a, a ∈ supply s -> a <> 0 -> good a /\ (heap s !! a = None \/ a ∈ freed s) }.

Record shape (N : labels) (own : list Z) (s : state) : Prop := {
  sh_labels : labels_ok N (height (root s));
  sh_root : root_ok N (root s);
  sh_nodes : nodes_ok N (heap s);
  sh_pool : pool_ok (used N) own s }.

(** ** Tags

    [up_tag] is the bit that stands for the node [(l, p)] in its parent or in the
    root; it is to say if the node has a tag at all. *)
Definition node_at (N : labels) (s : state) (l p : Z) : option radix_tree_node := a ← N !! (l, p); heap s !! a.
Definition up_tag (N : labels) (s : state) (t l p : Z) : bool :=
  if l =? height (root s) then root_tag_get (root s) t
  else match node_at N s (l + 1) (p / 64) with Some n => tagb n t (p mod 64) | None => false end.
Definition node_any (N : labels) (s : state) (t l p : Z) : bool :=
  match node_at N s l p with Some n => any_tag n t | None => false end.

Definition tags_ok (N : labels) (s : state) : Prop :=
  forall t, 0 <= t < 2 -> (height (root s) = 0 -> rnode (root s) = 0 -> root_tag_get (root s) t = false) /\
    forall l p, 1 <= l <= height (root s) -> 0 <= p -> (l = height (root s) -> p = 0) -> up_tag N s t l p = node_any N s t l p.

(** ** Contents *)

Definition contents (N : labels) (s : state) (i : Z) : Z :=
  if height (root s) =? 0 then (if i =? 0 then radix_tree_direct_to_ptr (rnode (root s)) else 0)
  else match node_at N s 1 (i / 64) with Some n => slotv n (i mod 64) | None => 0 end.
Definition tagged (N : labels) (s : state) (t i : Z) : bool :=
  if height (root s) =? 0 then (i =? 0) && negb (rnode (root s) =? 0) && root_tag_get (root s) t
  else match node_at N s 1 (i / 64) with Some n => tagb n t (i mod 64) | None => false end.

(** ** The pool *)

Lemma pool_upd U own s a n : pool_ok U own s -> U a \/ a ∈ own -> pool_ok U own (upd a n s).
Proof.
  intros [H1 H2 H3 H4 Hu H5 H6] Ha. assert (is_Some (heap s !! a)) as [m Hm] by (destruct Ha as [Ha|Ha]; [by apply Hu|by apply H4]). assert (forall b, is_Some (heap s !! b) -> is_Some (heap (upd a n s) !! b)) as Hsome.
  { intros b Hb. cbn [heap upd]. destruct (decide (b = a)) as [->|]; [rewrite lookup_insert_eq; by eexists|by rewrite lookup_insert_ne]. }
  split; cbn [freed preload supply upd]; [| |done| |auto|done|].
  - intros b k. cbn [heap upd]. destruct (decide (b = a)) as [->|Hne]; [rewrite lookup_insert_eq; tauto|]. rewrite lookup_insert_ne by done. apply H1.
  - intros b Hb. destruct (H2 b Hb) as (? & ? & ?). auto.
  - intros b Hb. destruct (H4 b Hb) as (? & ? & ?). auto.
  - intros b Hb Hn. destruct (H6 b Hb Hn) as [Hg [Hnone|Hf]]; split; auto. left. cbn [heap upd]. rewrite lookup_insert_ne; [done|congruence].
Qed.

(** A node becomes part of the tree, or leaves it. *)
Lemma pool_use U U' own s a : pool_ok U (a :: own) s -> a ∉ own -> (forall b, U' b <-> U b \/ b = a) -> pool_ok U' own s.
Proof.
  intros [H1 H2 H3 H4 Hu H5 H6] Hn HU. split; [| |done| | |done|done].
  - intros b n Hb. rewrite HU. destruct (H1 b n Hb) as [?|[[->|?]%elem_of_cons|?]]; auto.
  - intros b Hb. rewrite HU. destruct (H2 b Hb) as (? & ? & ? & Hno). apply not_elem_of_cons in Hno as [? ?]. tauto.
  - intros b Hb. rewrite HU. destruct (H4 b) as (? & ? & ?); [by right|]. split; [done|]. split; [done|]. intros [?| ->]; done.
  - intros b [?| ->]%HU; [by apply Hu|]. apply H4. by left.
Qed.

Lemma pool_unuse U U' own s a : pool_ok U own s -> U a -> good a -> is_Some (heap s !! a) -> (forall b, U' b <-> U b /\ b <> a) -> pool_ok U' (a :: own) s.
Proof.
  intros [H1 H2 H3 H4 Hu H5 H6] Ha Hg Hs HU. split; [| |done| | |done|done].
  - intros b n Hb. rewrite HU, elem_of_cons. destruct (decide (b = a)) as [->|Hne]; [auto|]. destruct (H1 b n Hb) as [?|[?|?]]; auto.
  - intros b Hb. rewrite HU, elem_of_cons. destruct (H2 b Hb) as (? & ? & ? & ?). split; [done|]. split; [done|]. split; [tauto|]. intros [-> |?]; done.
  - intros b. rewrite HU, elem_of_cons. intros [->|Hb]; [tauto|]. destruct (H4 b Hb) as (? & ? & ?). tauto.
  - intros b [? _]%HU. by apply Hu.
Qed.

Lemma pool_root U own s r : pool_ok U own s -> pool_ok U own (with_root r s).
Proof. intros [H1 H2 H3 H4 Hu H5 H6]. by split. Qed.

(** Giving a node back to the slab. *)
Lemma pool_release U own s a n : pool_ok U (a :: own) s -> a ∉ own -> heap s !! a = Some n -> zeroed n ->
  pool_ok U own (mk_state (root s) (heap s) (supply s) (preload s) (a :: freed s)).
Proof.
  intros [H1 H2 H3 H4 Huse H5 H6] Hn Ha Hz. destruct (H4 a) as (Hg & Hs & Hu); [by left|]. split; cbn [heap freed preload supply].
  - intros b m Hb. rewrite <- app_comm_cons, elem_of_cons. destruct (H1 b m Hb) as [?|[[->|?]%elem_of_cons|[? ?]]]; [auto| |auto|auto]. right. right. split; [by left|]. congruence.
  - intros b. rewrite <- app_comm_cons, elem_of_cons. intros [->|Hb]; [done|]. destruct (H2 b Hb) as (? & ? & ? & Hno). apply not_elem_of_cons in Hno as [? ?]. done.
  - rewrite <- app_comm_cons. apply NoDup_cons. split; [|done]. intros Hin. destruct (H2 a Hin) as (_ & _ & _ & Hno). apply not_elem_of_cons in Hno as [? ?]. done.
  - intros b Hb. apply H4. by right.
  - done.
  - done.
  - intros b Hb H0. destruct (H6 b Hb H0) as [? [?|?]]; split; auto. right. by right.
Qed.

(** Taking a node from the slab or from the preloaded ones: null, or a zeroed node
    that nobody has. *)
Definition got (U : Z -> Prop) (own : list Z) (s : state) (a : Z) (s' : state) : Prop :=
  root s' = root s /\ (forall b, U b \/ b ∈ own -> heap s' !! b = heap s !! b) /\
  (a = NULL /\ pool_ok U own s' \/ good a /\ ~ U a /\ a ∉ own /\ pool_ok U (a :: own) s' /\ exists n, heap s' !! a = Some n /\ zeroed n).

Lemma zero_zeroed : zeroed zero_node.
Proof. done. Qed.

Lemma cache_alloc_ok U own s : pool_ok U own s -> exists a s', kmem_cache_alloc s = Some (a, s') /\ got U own s a s' /\ preload s' = preload s.
Proof.
  intros [H1 H2 H3 H4 Hu H5 H6]. unfold kmem_cache_alloc. destruct (supply s) as [|a l] eqn:Es.
  { exists NULL, s. split; [done|]. split; [|done]. split; [done|]. split; [done|]. left. split; [done|]. split; try done; by rewrite Es. }
  eexists a, _. split; [done|]. split; [|done]. split; [done|]. cbn [heap]. destruct (Z.eqb_spec a NULL) as [->|Hn].
  { split; [done|]. left. split; [done|]. unfold NULL in *. assert (filter (.≠ 0) (freed s) = freed s) as Ef.
    { clear -H2. induction (freed s) as [|b f IH]; [done|]. rewrite filter_cons_True; [f_equal; apply IH; intros c Hc; apply H2; rewrite <- app_comm_cons, elem_of_cons; auto|].
      destruct (H2 b) as ([? _] & _); [by left|lia]. }
    rewrite Ef. split; cbn [heap freed preload supply]; [done|done|done|done|done|by rewrite filter_cons_False in H5 by (intros ?; done)|]. intros b Hb. apply H6. by right. }
  assert (a <> 0) as Hn0 by done. destruct (H6 a) as [Hg Hfr]; [by left|done|].
  assert (~ U a /\ a ∉ own) as [HUa Hoa].
  { destruct Hfr as [Hno|Hf]; [split; intros Hin; [destruct (Hu a Hin)|destruct (H4 a Hin) as (_ & [? ?] & _)]; congruence|]. destruct (H2 a) as (_ & _ & ? & ?); [rewrite elem_of_app; by left|done]. }
  set (h := match heap s !! a with Some _ => heap s | None => <[a:=zero_node]> (heap s) end).
  assert (forall b, b <> a -> h !! b = heap s !! b) as Hh by (intros b Hb; unfold h; destruct (heap s !! a); [done|by rewrite lookup_insert_ne]).
  assert (exists n, h !! a = Some n /\ zeroed n) as (n & Ha & Hz).
  { unfold h. destruct (heap s !! a) as [n|] eqn:E; [|exists zero_node; by rewrite lookup_insert_eq]. exists n. split; [done|]. destruct Hfr as [?|Hf]; [congruence|].
    destruct (H1 a n E) as [?|[?|[_ ?]]]; done. }
  split; [intros b Hb; apply Hh; intros ->; tauto|]. right. split; [done|]. split; [done|]. split; [done|]. split; [|by exists n].
  assert (forall b, b ∈ filter (.≠ a) (freed s) ++ preload s -> b <> a /\ b ∈ freed s ++ preload s) as Hin.
  { intros b. rewrite !elem_of_app, list_elem_of_filter. intros [[? ?]|Hp]; [auto|]. split; [|auto]. intros ->. destruct Hfr as [Hno|Hf]; [destruct (H2 a) as (_ & [? ?] & _); [rewrite elem_of_app; by right|congruence]|].
    apply NoDup_app in H3 as (_ & H3 & _). by apply (H3 a). }
  rewrite filter_cons_True in H5 by done. apply NoDup_cons in H5 as [Hna H5].
  split; cbn [heap freed preload supply].
  - intros b m Hb. rewrite elem_of_cons. destruct (decide (b = a)) as [->|Hne]; [auto|]. rewrite Hh in Hb by done. destruct (H1 b m Hb) as [?|[?|[Hin' ?]]]; auto. right. right. split; [|done].
    revert Hin'. rewrite !elem_of_app, list_elem_of_filter. tauto.
  - intros b [Hne Hb]%Hin. rewrite Hh, elem_of_cons by done. destruct (H2 b Hb) as (? & ? & ? & ?). split; [done|]. split; [done|]. split; [done|]. tauto.
  - apply NoDup_app in H3 as (Hf1 & Hf2 & Hf3). apply NoDup_app. split; [by apply NoDup_filter|]. split; [|done]. intros b [_ Hb]%list_elem_of_filter. by apply Hf2.
  - intros b [->|Hb]%elem_of_cons; [split; [done|]; split; [by exists n|done]|]. destruct (H4 b Hb) as (? & ? & ?). rewrite Hh by (intros ->; done). done.
  - intros b Hb. rewrite Hh by (intros ->; done). by apply Hu.
  - done.
  - intros b Hb Hb0. assert (b <> a) as Hne by (intros ->; apply Hna, list_elem_of_filter; done). rewrite Hh by done. destruct (H6 b) as [? [?|?]]; [by right|done|..]; split; auto. right. by apply list_elem_of_filter.
Qed.

Lemma take_preload_ok U own s : pool_ok U own s -> exists a s', take_preload s = Some (a, s') /\ got U own s a s'.
Proof.
  intros Hp. pose proof Hp as [H1 H2 H3 H4 Hu H5 H6]. unfold take_preload. destruct (preload s) as [|a l] eqn:Es.
  { exists NULL, s. split; [done|]. split; [done|]. split; [done|]. by left. }
  eexists a, _. split; [done|]. split; [done|]. split; [done|]. right. destruct (H2 a) as (Hg & [n Hn] & HU & Ho); [rewrite elem_of_app, elem_of_cons; auto|].
  split; [done|]. split; [done|]. split; [done|]. assert (freed s ++ a :: l ≡ₚ a :: freed s ++ l) as Hperm by solve_Permutation. rewrite Hperm in H3. apply NoDup_cons in H3 as [Hna H3].
  assert (forall b, b ∈ freed s ++ a :: l <-> b = a \/ b ∈ freed s ++ l) as Hin by (intros b; by rewrite Hperm, elem_of_cons).
  split; [|exists n; split; [done|]; cbn [heap]; destruct (H1 a n Hn) as [?|[?|[_ ?]]]; done].
  split; cbn [heap freed preload supply]; [| |done| |done|done|done].
  - intros b m Hb. rewrite elem_of_cons. destruct (H1 b m Hb) as [?|[?|[[->|?]%Hin ?]]]; auto.
  - intros b Hb. destruct (H2 b) as (? & ? & ? & ?); [apply Hin; auto|]. rewrite elem_of_cons. split; [done|]. split; [done|]. split; [done|]. intros [->|?]; done.
  - intros b [->|Hb]%elem_of_cons; [split; [done|]; split; [by exists n|done]|by apply H4].
Qed.

Lemma node_alloc_ok U own s : pool_ok U own s -> exists a s', radix_tree_node_alloc s = Some (a, s') /\ got U own s a s'.
Proof.
  intros Hp. unfold radix_tree_node_alloc. erewrite bind_run by reflexivity. destruct (cache_alloc_ok U own s Hp) as (a & s1 & E1 & (Hr1 & Hf1 & Hg1) & _). erewrite bind_run by exact E1.
  destruct Hg1 as [[-> Hp1]|Hg1].
  - cbn [Z.eqb NULL andb]. destruct (Z.land (root_gfp_mask (root s)) __GFP_WAIT =? 0).
    + destruct (take_preload_ok U own s1 Hp1) as (a & s2 & E2 & Hr2 & Hf2 & Hg2). erewrite bind_run by exact E2.
      assert (radix_tree_is_direct_ptr a = false) as Hd by (destruct Hg2 as [[-> _]|[Hg _]]; [done|by apply good_not_direct]). rewrite Hd. erewrite bind_run by reflexivity.
      exists a, s2. split; [done|]. split; [congruence|]. split; [|done]. intros b Hb. rewrite Hf2, Hf1 by done. done.
    + erewrite bind_run by reflexivity. erewrite bind_run by reflexivity. exists NULL, s1. split; [done|]. split; [done|]. split; [done|]. by left.
  - pose proof Hg1 as (Hgood & _). rewrite (proj2 (Z.eqb_neq a NULL)) by (destruct Hgood; unfold NULL; lia). cbn [andb]. erewrite bind_run by reflexivity. rewrite good_not_direct by done.
    erewrite bind_run by reflexivity. exists a, s1. split; [done|]. split; [done|]. split; [done|]. by right.
Qed.

(** ** Labels *)

Lemma ancestors N H l p a l' : labels_ok N H -> N !! (l, p) = Some a -> l <= l' <= H -> is_Some (N !! (l', pre (l' - l) p)).
Proof.
  intros HN Ha Hl. replace l' with (l + Z.of_nat (Z.to_nat (l' - l))) by lia. replace (l + Z.of_nat (Z.to_nat (l' - l)) - l) with (Z.of_nat (Z.to_nat (l' - l))) by lia.
  assert (l + Z.of_nat (Z.to_nat (l' - l)) <= H) as Hle by lia. clear Hl. induction (Z.to_nat (l' - l)) as [|m IH].
  - rewrite Z.add_0_r. change (Z.of_nat 0) with 0. rewrite pre_0. by eexists.
  - destruct IH as [b Hb]; [lia|]. pose proof (lo_parent _ _ HN _ _ _ Hb ltac:(lia)) as Hp. rewrite (pre_succ (Z.of_nat (S m))) by lia.
    replace (l + Z.of_nat (S m)) with (l + Z.of_nat m + 1) by lia. by replace (Z.of_nat (S m) - 1) with (Z.of_nat m) by lia.
Qed.

(** No node at a level, no node below. *)
Lemma no_descendant N H i l l' : labels_ok N H -> 0 <= i -> 0 <= l <= l' -> l' <= H -> N !! (l', pre l' i) = None -> N !! (l, pre l i) = None.
Proof.
  intros HN Hi Hl HH Hno. destruct (N !! (l, pre l i)) as [a|] eqn:E; [|done]. destruct (ancestors N H l (pre l i) a l' HN E ltac:(lia)) as [b Hb].
  rewrite pre_pre in Hb by lia. replace (l + (l' - l)) with l' in Hb by lia. congruence.
Qed.

Lemma node_at_some N own s l p a : shape N own s -> N !! (l, p) = Some a -> exists n, heap s !! a = Some n /\ node_at N s l p = Some n /\ node_ok N l p n /\ good a /\ a <> NULL.
Proof.
  intros [HL _ HN _] Ha. destruct (HN l p a Ha) as (n & Hn & Hok). exists n. destruct (lo_level _ _ HL l p a Ha) as (_ & _ & _ & Hg). unfold node_at. rewrite Ha. cbn [mbind option_bind].
  split; [done|]. split; [done|]. split; [done|]. split; [done|]. destruct Hg. unfold NULL. lia.
Qed.

Lemma shape_upd N own s l p a n' : shape N own s -> N !! (l, p) = Some a -> node_ok N l p n' -> shape N own (upd a n' s).
Proof.
  intros [HL HR HN HP] Ha Hok. split; [done|done| |apply pool_upd; [done|left; by eexists]]. intros l' p' b Hb. cbn [heap upd]. destruct (decide (b = a)) as [->|Hne].
  - pose proof (lo_inj _ _ HL _ _ _ Ha Hb) as E. injection E as <- <-. exists n'. by rewrite lookup_insert_eq.
  - rewrite lookup_insert_ne by done. by apply HN.
Qed.

Lemma contents_leaf N s i : 1 <= height (root s) -> contents N s i = match node_at N s 1 (pre 1 i) with Some n => slotv n (off 1 i) | None => 0 end.
Proof.
  intros H. unfold contents, off. rewrite (proj2 (Z.eqb_neq _ 0)) by lia. change (1 - 1) with 0. rewrite pre_0. done.
Qed.

Lemma tagged_leaf N s t i : 1 <= height (root s) -> tagged N s t i = match node_at N s 1 (pre 1 i) with Some n => tagb n t (off 1 i) | None => false end.
Proof.
  intros H. unfold tagged, off. rewrite (proj2 (Z.eqb_neq _ 0)) by lia. change (1 - 1) with 0. rewrite pre_0. done.
Qed.

(** What is in the root's place on the way to the index. *)
Lemma top_node N own s i : shape N own s -> 1 <= height (root s) -> 0 <= i <= Z.min (64 ^ height (root s)) (2 ^ 32) - 1 ->
  rnode (root s) = default 0 (N !! (height (root s), pre (height (root s)) i)).
Proof. intros [_ (_ & _ & _ & Htop) _ _] H Hi. rewrite pre_top by lia. by apply Htop. Qed.

(** The child of a node on the way to the index. *)
Lemma child_node N l i n : node_ok N l (pre l i) n -> 2 <= l -> slotv n (off l i) = default 0 (N !! (l - 1, pre (l - 1) i)).
Proof. intros Hn Hl. rewrite (no_child _ _ _ _ Hn Hl) by apply off_range. by rewrite pre_split by lia. Qed.

(** An index beyond the height has nothing. *)
Lemma beyond N own s i : shape N own s -> Z.min (64 ^ height (root s)) (2 ^ 32) - 1 < i < 2 ^ 32 -> 0 <= i -> contents N s i = 0 /\ forall t, tagged N s t i = false.
Proof.
  intros [HL (Hh & _ & Hz & _) _ _] Hi Hi0. destruct (Z.eq_dec (height (root s)) 0) as [E|E].
  - unfold contents, tagged. rewrite E in *. change (Z.min (64 ^ 0) (2 ^ 32) - 1) with 0 in Hi. rewrite Z.eqb_refl, (proj2 (Z.eqb_neq i 0)) by lia. done.
  - rewrite contents_leaf by lia. assert (N !! (1, pre 1 i) = None) as Hno.
    { destruct (N !! (1, pre 1 i)) as [a|] eqn:Ea; [|done]. destruct (ancestors N _ 1 _ a (height (root s)) HL Ea ltac:(lia)) as [b Hb].
      rewrite pre_pre in Hb by lia. replace (1 + (height (root s) - 1)) with (height (root s)) in Hb by lia. destruct (lo_level _ _ HL _ _ _ Hb) as (_ & _ & H0 & _). specialize (H0 eq_refl).
      unfold pre in H0. apply Z.div_small_iff in H0; [lia|]. pose proof (pow64_pos (height (root s))). lia. }
    unfold node_at. rewrite Hno. split; [done|]. intros t. rewrite tagged_leaf by lia. unfold node_at. by rewrite Hno.
Qed.

(** ** Views

    The tags and items at a label; none for a label without node. *)
Definition tagv (N : labels) (s : state) (l p t k : Z) : bool := match node_at N s l p with Some n => tagb n t k | None => false end.
Definition itemv (N : labels) (s : state) (p k : Z) : Z := match node_at N s 1 p with Some n => slotv n k | None => 0 end.

(** The trees look the same from outside. *)
Definition same_tree (N : labels) (s : state) (N' : labels) (s' : state) : Prop :=
  (forall i, 0 <= i < 2 ^ 32 -> contents N' s' i = contents N s i) /\ (forall t i, 0 <= t < 2 -> 0 <= i < 2 ^ 32 -> tagged N' s' t i = tagged N s t i).

Lemma same_tree_refl N s : same_tree N s N s.
Proof. done. Qed.

Lemma same_tree_trans N s N' s' N'' s'' : same_tree N s N' s' -> same_tree N' s' N'' s'' -> same_tree N s N'' s''.
Proof. intros [H1 H2] [H3 H4]. split; intros; [rewrite H3, H1 by done|rewrite H4, H2 by done]; done. Qed.

(** A change that all views survive. *)
Lemma views_ok N s N' s' : height (root s') = height (root s) -> 1 <= height (root s) -> (forall t, 0 <= t < 2 -> root_tag_get (root s') t = root_tag_get (root s) t) ->
  (forall l p t k, 0 <= t < 2 -> 0 <= k < 64 -> tagv N' s' l p t k = tagv N s l p t k) -> (forall l p t, 0 <= t < 2 -> node_any N' s' t l p = node_any N s t l p) ->
  (forall p k, 0 <= k < 64 -> itemv N' s' p k = itemv N s p k) -> tags_ok N s -> tags_ok N' s' /\ same_tree N s N' s'.
Proof.
  intros Hh H1 Hr Ht Ha Hi Hok. split.
  - intros t Ht2. rewrite Hh. split; [lia|]. intros l p Hl Hp Hp0. rewrite Ha by done. rewrite <- (proj2 (Hok t Ht2)) by done. unfold up_tag. rewrite Hh. case_match; [by apply Hr|].
    apply (Ht (l + 1) (p / 64) t (p mod 64)); [done|]. apply Z.mod_pos_bound. lia.
  - split.
    + intros i _. rewrite !contents_leaf by lia. apply Hi. apply off_range.
    + intros t i Ht2 _. rewrite !tagged_leaf by lia. apply Ht; [done|apply off_range].
Qed.

(** ** Counting slots *)

Lemma nonnull_cons x l : nonnull (x :: l) = (if decide (x = 0) then 0 else 1) + nonnull l.
Proof. unfold nonnull. rewrite filter_cons. repeat case_decide; try done. cbn [length]. lia. Qed.

Lemma nonnull_insert (l : list Z) (k : nat) v : (k < length l)%nat ->
  nonnull (<[k := v]> l) = nonnull l + (if decide (v = 0) then 0 else 1) - (if decide (default 0 (l !! k) = 0) then 0 else 1).
Proof.
  revert k. induction l as [|x l IH]; intros k Hk; [simpl in Hk; lia|]. destruct k as [|k].
  - change (<[0%nat := v]> (x :: l)) with (v :: l). change ((x :: l) !! 0%nat) with (Some x). cbn [from_option id]. rewrite !nonnull_cons. lia.
  - change (<[S k := v]> (x :: l)) with (x :: <[k := v]> l). change ((x :: l) !! S k) with (l !! k). rewrite !nonnull_cons, IH by (simpl in Hk; lia). lia.
Qed.

Lemma nonnull_set n k v : length (slots n) = 64%nat -> 0 <= k < 64 ->
  nonnull (slots (set_slot n k v)) = nonnull (slots n) + (if decide (v = 0) then 0 else 1) - (if decide (slotv n k = 0) then 0 else 1).
Proof. intros Hl Hk. unfold set_slot, slotv. cbn [slots]. apply nonnull_insert. lia. Qed.

Lemma nonnull_range n : length (slots n) = 64%nat -> 0 <= nonnull (slots n) <= 64.
Proof. intros Hl. unfold nonnull. pose proof (length_filter (.≠ 0) (slots n)). lia. Qed.

Lemma nonnull_zero n : length (slots n) = 64%nat -> nonnull (slots n) = 0 <-> slots n = slots zero_node.
Proof.
  intros Hl. split.
  - intros H. change (slots zero_node) with (replicate 64 0). rewrite <- Hl. symmetry. apply replicate_as_Forall. split; [done|]. unfold nonnull in H.
    assert (filter (.≠ 0) (slots n) = []) as Hf by (apply nil_length_inv; lia). apply Forall_forall. intros x Hx. destruct (decide (x = 0)) as [->|Hne]; [done|].
    assert (x ∈ filter (.≠ 0) (slots n)) as Hin by (by apply list_elem_of_filter). rewrite Hf in Hin. by apply elem_of_nil in Hin.
  - by intros ->.
Qed.

Lemma slotv_zero k : slotv zero_node k = 0.
Proof. unfold slotv. destruct (slots zero_node !! Z.to_nat k) as [v|] eqn:E; [|done]. apply list_elem_of_lookup_2 in E. by apply elem_of_replicate in E as [-> _]. Qed.

Lemma zeroed_node n : zeroed n -> length (slots n) = 64%nat /\ tags_shape n /\ (forall k, slotv n k = 0) /\ (forall t k, 0 <= t < 2 -> 0 <= k < 64 -> tagb n t k = false) /\ (forall t, 0 <= t < 2 -> any_tag n t = false) /\ nonnull (slots n) = 0.
Proof.
  intros (E1 & E2 & E3). assert (tags_shape n) as Hsh by (exists 0, 0, 0, 0; rewrite E3; done). split; [by rewrite E1|]. split; [done|].
  split; [intros k; unfold slotv; rewrite E1; apply slotv_zero|]. assert (forall t, 0 <= t < 2 -> any_tag n t = false) as Hany by (intros t Ht; unfold any_tag; rewrite E3; assert (t = 0 \/ t = 1) as [-> | ->] by lia; done).
  split; [|split; [done|by rewrite E1]]. intros t k Ht Hk. destruct (tagb n t k) eqn:E; [|done]. assert (any_tag n t = true) as Ha by (apply any_tag_spec; eauto). rewrite Hany in Ha by done. done.
Qed.

End RadixShape.
