(* ===== verification/RadixOps.v ===== *)
(** * Radix trees: lookup *)

From S2P Require Import Prelude Radix RadixNode RadixShape.

Module RadixOps.
Import Radix RadixNode RadixShape.

(** ** Lookup *)

Section Lookup.
Context (N : labels) (own : list Z) (s : state) (i : Z).
Hypothesis Hs : shape N own s.
Hypothesis Hi : 0 <= i < 2 ^ 32.

Lemma lookup_loop_ok h : forall a, (1 <= h <= 6)%nat -> Z.of_nat h <= height (root s) -> N !! (Z.of_nat h, pre (Z.of_nat h) i) = Some a ->
  exists o, lookup_loop h i (6 * (Z.of_nat h - 1)) a s = Some (o, s) /\
    match o with Some (b, k, v) => N !! (1, pre 1 i) = Some b /\ k = off 1 i /\ v = contents N s i /\ v <> 0 | None => contents N s i = 0 end.
Proof.
  induction h as [|h IH]; intros a Hh HH Ha; [lia|]. destruct (node_at_some _ _ _ _ _ _ Hs Ha) as (n & Hn & Hat & Hok & _ & Ha0). cbn [lookup_loop]. rewrite offset_of_off by lia.
  erewrite bind_run by (by apply ld_slot_run; [done|exact Hn|apply Hok|apply off_range]). destruct h as [|h].
  - change (Z.of_nat 1) with 1 in *. rewrite contents_leaf, Hat by lia. destruct (Z.eqb_spec (slotv n (off 1 i)) NULL) as [E|E]; eexists; (split; [reflexivity|done]).
  - pose proof (child_node N _ i n Hok ltac:(lia)) as Hc. replace (Z.of_nat (S (S h)) - 1) with (Z.of_nat (S h)) in * by lia. destruct (N !! (Z.of_nat (S h), pre (Z.of_nat (S h)) i)) as [b|] eqn:Eb; cbn [from_option id] in Hc.
    + rewrite Hc. destruct (node_at_some _ _ _ _ _ _ Hs Eb) as (_ & _ & _ & _ & _ & Hb0). rewrite (proj2 (Z.eqb_neq b NULL)) by done.
      replace (next_shift (6 * Z.of_nat (S h))) with (6 * (Z.of_nat (S h) - 1)); [apply IH; [lia|lia|done]|].
      replace (Z.of_nat (S h)) with (Z.of_nat (S (S h)) - 1) at 2 by lia. rewrite next_shift_eq by lia. f_equal. lia.
    + rewrite Hc. exists None. split; [done|]. rewrite contents_leaf by lia. unfold node_at. by rewrite (no_descendant N _ i 1 (Z.of_nat (S h)) (sh_labels _ _ _ Hs) ltac:(lia) ltac:(lia) ltac:(lia) Eb).
Qed.

(** The three cases of a lookup. *)
Lemma root_cases : (height (root s) = 0 /\ rnode (root s) = 0 /\ contents N s i = 0) \/
  (height (root s) = 0 /\ exists item, good item /\ rnode (root s) = item + 1 /\ contents N s i = if i =? 0 then item else 0) \/
  (1 <= height (root s) <= 6 /\ rnode (root s) = 0 /\ contents N s i = 0 /\ N = ∅) \/
  (1 <= height (root s) <= 6 /\ exists a n, N !! (height (root s), 0) = Some a /\ rnode (root s) = a /\ heap s !! a = Some n /\ node_ok N (height (root s)) 0 n /\ good a).
Proof.
  pose proof (sh_root _ _ _ Hs) as (Hh & _ & Hz & Htop). destruct (Z.eq_dec (height (root s)) 0) as [E|E].
  - destruct (Hz E) as [_ [E0|(item & Hg & E0)]]; [left|right; left]; unfold contents; rewrite E, E0, Z.eqb_refl.
    + split; [done|]. split; [done|]. by destruct (i =? 0).
    + split; [done|]. exists item. rewrite direct_to_ptr_direct by done. done.
  - right. right. specialize (Htop ltac:(lia)). destruct (N !! (height (root s), 0)) as [a|] eqn:Ea; cbn [from_option id] in Htop; [right|left].
    + split; [lia|]. destruct (node_at_some _ _ _ _ _ _ Hs Ea) as (n & Hn & _ & Hok & Hg & _). by exists a, n.
    + split; [lia|]. split; [done|]. assert (forall l p, N !! (l, p) = None) as Hno.
      { intros l p. destruct (N !! (l, p)) as [b|] eqn:Eb; [|done]. destruct (lo_level _ _ (sh_labels _ _ _ Hs) _ _ _ Eb) as (Hl & Hp & _).
        destruct (ancestors N _ l p b (height (root s)) (sh_labels _ _ _ Hs) Eb ltac:(lia)) as [c Hc]. destruct (lo_level _ _ (sh_labels _ _ _ Hs) _ _ _ Hc) as (_ & _ & H0 & _).
        rewrite (H0 eq_refl) in Hc. congruence. }
      split; [rewrite contents_leaf by lia; unfold node_at; by rewrite Hno|]. apply map_eq. intros [l p]. by rewrite Hno, lookup_empty.
Qed.

Lemma radix_tree_lookup_ok : radix_tree_lookup i s = Some (contents N s i, s).
Proof.
  unfold radix_tree_lookup. erewrite bind_run by reflexivity. destruct root_cases as [(E & E0 & ->)|[(E & item & Hg & E0 & ->)|[(E & E0 & -> & _)|(Hh & a & n & Ha & E0 & Hn & Hok & Hg)]]]; rewrite E0.
  - done.
  - destruct Hg as [Hr Hev] eqn:Eg. clear Eg. rewrite (proj2 (Z.eqb_neq (item + 1) NULL)), direct_is by (done || unfold NULL; lia). rewrite direct_to_ptr_direct by done.
    destruct (Z.ltb_spec 0 i), (Z.eqb_spec i 0); try lia; done.
  - done.
  - assert (a <> NULL) as Ha0 by (destruct Hg; unfold NULL; lia). rewrite (proj2 (Z.eqb_neq a NULL)), good_not_direct by done. erewrite bind_run by (by apply node_ld_run). rewrite (no_height _ _ _ _ Hok).
    erewrite bind_run by (unfold st_lift; rewrite maxindex_eq by lia; reflexivity). destruct (Z.ltb_spec (Z.min (64 ^ height (root s)) (2 ^ 32) - 1) i) as [Hlt|Hge].
    + destruct (beyond N own s i Hs) as [-> _]; [lia|lia|done].
    + rewrite first_shift_eq by lia. destruct (lookup_loop_ok (Z.to_nat (height (root s))) a) as (o & E & Ho); [lia|lia|rewrite Z2Nat.id, pre_top by lia; done|].
      rewrite Z2Nat.id in E by lia. erewrite bind_run by exact E. destruct o as [[[b k] v]|]; [by destruct Ho as (_ & _ & -> & _)|by rewrite Ho].
Qed.

Lemma radix_tree_lookup_slot_ok : exists o, radix_tree_lookup_slot i s = Some (o, s) /\
  match o with
  | None => contents N s i = 0
  | Some RootSlot => height (root s) = 0 /\ i = 0 /\ good (contents N s i) /\ rnode (root s) = contents N s i + 1
  | Some (NodeSlot a k) => contents N s i <> 0 /\ 1 <= height (root s) /\ N !! (1, pre 1 i) = Some a /\ k = off 1 i
  end.
Proof.
  unfold radix_tree_lookup_slot. erewrite bind_run by reflexivity. destruct root_cases as [(E & E0 & Ec)|[(E & item & Hg & E0 & Ec)|[(E & E0 & Ec & _)|(Hh & a & n & Ha & E0 & Hn & Hok & Hg)]]]; rewrite E0.
  - by exists None.
  - pose proof Hg as [Hr Hev]. rewrite (proj2 (Z.eqb_neq (item + 1) NULL)), direct_is by (done || unfold NULL; lia). eexists. split; [reflexivity|].
    destruct (Z.ltb_spec 0 i), (Z.eqb_spec i 0); try (exfalso; lia); [done|]. split; [done|]. split; [done|]. rewrite Ec. done.
  - by exists None.
  - assert (a <> NULL) as Ha0 by (destruct Hg; unfold NULL; lia). rewrite (proj2 (Z.eqb_neq a NULL)), good_not_direct by done. erewrite bind_run by (by apply node_ld_run). rewrite (no_height _ _ _ _ Hok).
    erewrite bind_run by (unfold st_lift; rewrite maxindex_eq by lia; reflexivity). destruct (Z.ltb_spec (Z.min (64 ^ height (root s)) (2 ^ 32) - 1) i) as [Hlt|Hge].
    + exists None. split; [done|]. destruct (beyond N own s i Hs) as [? _]; [lia|lia|done].
    + rewrite first_shift_eq by lia. destruct (lookup_loop_ok (Z.to_nat (height (root s))) a) as (o & E & Ho); [lia|lia|rewrite Z2Nat.id, pre_top by lia; done|].
      rewrite Z2Nat.id in E by lia. erewrite bind_run by exact E. eexists. split; [reflexivity|]. destruct o as [[[b k] v]|]; [|done]. destruct Ho as (Hb & -> & -> & Hc). split; [done|]. split; [lia|done].
Qed.

End Lookup.

End RadixOps.
