(* ===== verification/RadixInsert.v ===== *)
(** * Radix trees: insertion

    A new node under its parent, a new level at the root, and the item in its
    slot. *)

From S2P Require Import Prelude Radix RadixNode RadixShape RadixOps.

Module RadixInsert.
Import Radix RadixNode RadixShape RadixOps.

(** ** Allocation *)

Lemma got_shape N own s a s' : shape N own s -> got (used N) own s a s' -> shape N (if a =? NULL then own else a :: own) s' /\ (forall b, used N b \/ b ∈ own -> heap s' !! b = heap s !! b).
Proof.
  intros [HL HR HN HP] (Er & Hf & Hg). split; [|done]. assert (nodes_ok N (heap s')) as HN' by (intros l p b Hb; rewrite Hf by (left; by eexists); by apply HN).
  destruct Hg as [[-> Hp]|(Hg & _ & _ & Hp & _)]; [split; by rewrite ?Er|]. rewrite (proj2 (Z.eqb_neq a NULL)) by (destruct Hg; unfold NULL; lia). split; by rewrite ?Er.
Qed.

(** States with the same nodes look the same. *)
Lemma frame_views N s s' : (forall b, used N b -> heap s' !! b = heap s !! b) -> forall l p, node_at N s' l p = node_at N s l p.
Proof. intros H l p. unfold node_at. destruct (N !! (l, p)) as [a|] eqn:E; [|done]. cbn [mbind option_bind]. apply H. by eexists. Qed.

Lemma frame_tree N s s' : root s' = root s -> (forall b, used N b -> heap s' !! b = heap s !! b) -> tags_ok N s -> tags_ok N s' /\ same_tree N s N s'.
Proof.
  intros Er Hf Ht. pose proof (frame_views N s s' Hf) as Hv. split.
  - intros t Ht2. unfold up_tag, node_any. rewrite Er. setoid_rewrite Hv. by apply Ht.
  - unfold same_tree, contents, tagged. rewrite Er. setoid_rewrite Hv. done.
Qed.

(** ** A new node *)

Section Link.
Context (N : labels) (s : state) (i h a : Z) (z : radix_tree_node).
Hypothesis Hs : shape N [a] s.
Hypothesis Htags : tags_ok N s.
Hypothesis Hi : 0 <= i < 2 ^ 32.
Hypothesis Htop : pre (height (root s)) i = 0.
Hypothesis Hh : 1 <= h <= height (root s).
Hypothesis Hnone : N !! (h, pre h i) = None.
Hypothesis Hz : heap s !! a = Some z.
Hypothesis Hzero : zeroed z.
Hypothesis Hheight : node_height z = h.
Hypothesis Hparent : h < height (root s) -> is_Some (N !! (h + 1, pre (h + 1) i)).

Definition N' : labels := <[(h, pre h i) := a]> N.

Lemma link_good : good a /\ ~ used N a.
Proof. destruct (po_own _ _ _ (sh_pool _ _ _ Hs) a) as (? & _ & ?); [by left|done]. Qed.

Lemma link_labels : labels_ok N' (height (root s)).
Proof.
  destruct link_good as [Hg Hu]. pose proof (sh_labels _ _ _ Hs) as HL. assert (forall x b, N' !! x = Some b -> x = (h, pre h i) /\ b = a \/ N !! x = Some b) as Hin.
  { intros x b. unfold N'. destruct (decide (x = (h, pre h i))) as [->|Hne]; [rewrite lookup_insert_eq; intros [= ->]; auto|rewrite lookup_insert_ne by done; auto]. }
  assert (forall x, is_Some (N !! x) -> is_Some (N' !! x)) as Hsome by (intros x Hx; unfold N'; rewrite lookup_insert_is_Some'; auto).
  split.
  - intros l p b Hb. destruct (Hin _ _ Hb) as [[[= -> ->] ->]|Hb']; [|by apply (lo_level _ _ HL)]. split; [lia|]. split; [apply pre_nonneg; lia|]. split; [intros ->; done|done].
  - intros l p b Hb Hlt. destruct (Hin _ _ Hb) as [[[= -> ->] ->]|Hb']; [|by apply Hsome, (lo_parent _ _ HL l p b)].
    apply Hsome. replace (pre h i / 64) with (pre (h + 1) i) by (rewrite (pre_succ (h + 1)) by lia; by replace (h + 1 - 1) with h by lia). by apply Hparent.
  - intros x y b Hx Hy. destruct (Hin _ _ Hx) as [[-> ->]|Hx'], (Hin _ _ Hy) as [[-> ?]|Hy']; [done| | |by eapply (lo_inj _ _ HL)].
    + destruct Hu. by exists y.
    + subst b. destruct Hu. by exists x.
Qed.

(** The new node has no children yet. *)
Lemma link_new : node_ok N' h (pre h i) z.
Proof.
  destruct (zeroed_node z Hzero) as (H1 & H2 & H3 & H4 & _ & H5). split; [done|done|done|by rewrite (proj1 (proj2 Hzero)), H5| | | |].
  - intros _ k _. left. apply H3.
  - intros Hl k Hk. rewrite H3. unfold N'. rewrite lookup_insert_ne by (intros [= E]; lia). destruct (N !! (h - 1, 64 * pre h i + k)) as [b|] eqn:E; [|done].
    pose proof (lo_parent _ _ (sh_labels _ _ _ Hs) _ _ _ E ltac:(lia)) as [c Hc]. replace (h - 1 + 1) with h in Hc by lia.
    replace ((64 * pre h i + k) / 64) with (pre h i) in Hc; [congruence|]. rewrite Z.mul_comm, Z.div_add_l, (Z.div_small k) by lia. lia.
  - intros k Hk. by rewrite H3.
  - intros t k Ht Hk. by rewrite H4.
Qed.

(** A node that is not the parent. *)
Lemma link_other l p n : node_ok N l p n -> ~ (l = h + 1 /\ p = pre (h + 1) i) -> node_ok N' l p n.
Proof.
  intros [H1 H2 H3 H4 H5 H6 H7 H8] Hne. split; try done. intros Hl k Hk. rewrite H6 by done. unfold N'. rewrite lookup_insert_ne; [done|]. intros [= E1 E2]. apply Hne. split; [lia|].
  rewrite (pre_succ (h + 1)) by lia. replace (h + 1 - 1) with h by lia. rewrite E2, Z.mul_comm, Z.div_add_l, (Z.div_small k) by lia. lia.
Qed.

Lemma link_bound : pre h i * 64 ^ h < 2 ^ 32.
Proof. unfold pre. pose proof (Z.mul_div_le i (64 ^ h) (pow64_pos h ltac:(lia))). lia. Qed.

(** The parent. *)
Lemma link_parent n : node_ok N (h + 1) (pre (h + 1) i) n -> node_ok N' (h + 1) (pre (h + 1) i) (set_count (set_slot n (off (h + 1) i) a) (count n + 1)).
Proof.
  intros [H1 H2 H3 H4 H5 H6 H7 H8]. destruct link_good as [[Hg _] _]. pose proof (off_range (h + 1) i) as Ho. pose proof (pre_split (h + 1) i ltac:(lia)) as Esp. replace (h + 1 - 1) with h in * by lia.
  assert (slotv n (off (h + 1) i) = 0) as E0 by (rewrite H6 by lia; by rewrite <- Esp, Hnone).
  assert (forall k, 0 <= k < 64 -> slotv (set_count (set_slot n (off (h + 1) i) a) (count n + 1)) k = if decide (k = off (h + 1) i) then a else slotv n k) as Hv by (intros k Hk; by rewrite <- slotv_set).
  split; try done.
  - cbn [slots set_count set_slot]. by rewrite length_insert.
  - cbn [count set_count]. change (slots (set_count ?m ?c)) with (slots m). rewrite nonnull_set, E0, H4 by done. rewrite decide_False, decide_True by lia. lia.
  - lia.
  - intros _ k Hk. rewrite Hv by done. replace (h + 1 - 1) with h by lia. unfold N'. case_decide as E.
    + subst k. rewrite <- Esp, lookup_insert_eq. done.
    + rewrite lookup_insert_ne; [rewrite H6 by lia; done|]. intros [= E2]. apply E. lia.
  - intros k Hk. rewrite Hv by done. replace (h + 1 - 1) with h in * by lia. case_decide as E; [|by apply H7]. subst k. intros _. rewrite <- Esp. apply link_bound.
  - intros t k Ht Hk Htb. rewrite Hv by done. case_decide; [lia|]. by apply (H8 t).
Qed.

Lemma link_used b : used N' b <-> used N b \/ b = a.
Proof.
  unfold used, N'. split.
  - intros [x Hx]. destruct (decide (x = (h, pre h i))) as [->|Hne]; [rewrite lookup_insert_eq in Hx; injection Hx as ->; auto|]. rewrite lookup_insert_ne in Hx by done. left. by exists x.
  - intros [[x Hx]| ->]; [exists x; rewrite lookup_insert_ne; [done|]; intros <-; congruence|exists (h, pre h i); by rewrite lookup_insert_eq].
Qed.

(** The labels but the new one stand for nodes with the same tags, and the same
    items at the bottom. *)
Lemma link_views s' : height (root s') = height (root s) -> (forall t, 0 <= t < 2 -> root_tag_get (root s') t = root_tag_get (root s) t) -> heap s' !! a = Some z ->
  (forall l p b n, N !! (l, p) = Some b -> heap s !! b = Some n -> exists n', heap s' !! b = Some n' /\ tags n' = tags n /\ (l = 1 -> slots n' = slots n)) ->
  tags_ok N' s' /\ same_tree N s N' s'.
Proof.
  intros Eh Er Ha Hsame. destruct (zeroed_node z Hzero) as (_ & _ & Z3 & Z4 & Z5 & _).
  assert (forall l p, (l, p) <> (h, pre h i) -> match node_at N s l p with Some n => exists n', node_at N' s' l p = Some n' /\ tags n' = tags n /\ (l = 1 -> slots n' = slots n) | None => node_at N' s' l p = None end) as Hat.
  { intros l p Hne. unfold node_at, N'. rewrite lookup_insert_ne by done. destruct (N !! (l, p)) as [b|] eqn:Eb; [|done]. cbn [mbind option_bind].
    destruct (sh_nodes _ _ _ Hs l p b Eb) as (n & Hn & _). rewrite Hn. by apply (Hsame l p b n). }
  assert (node_at N' s' h (pre h i) = Some z /\ node_at N s h (pre h i) = None) as [Hnew Hold] by (unfold node_at, N'; rewrite lookup_insert_eq, Hnone; done).
  assert (forall l p, (l = h /\ p = pre h i) \/ (l, p) <> (h, pre h i)) as Hdec.
  { intros l p. destruct (decide ((l, p) = (h, pre h i))) as [[= -> ->]|]; auto. }
  apply views_ok; [done|lia|done| | | |done].
  - intros l p t k Ht Hk. unfold tagv. destruct (Hdec l p) as [[-> ->]|Hne]; [rewrite Hnew, Hold; by apply Z4|]. specialize (Hat l p Hne). destruct (node_at N s l p) as [n|]; [|by rewrite Hat].
    destruct Hat as (n' & -> & Et & _). unfold tagb, tag_word. by rewrite Et.
  - intros l p t Ht. unfold node_any. destruct (Hdec l p) as [[-> ->]|Hne]; [rewrite Hnew, Hold; by apply Z5|]. specialize (Hat l p Hne). destruct (node_at N s l p) as [n|]; [|by rewrite Hat].
    destruct Hat as (n' & -> & Et & _). unfold any_tag. by rewrite Et.
  - intros p k Hk. unfold itemv. destruct (Hdec 1 p) as [[E1 ->]|Hne]; [rewrite E1, Hnew, Hold; by apply Z3|]. specialize (Hat 1 p Hne). destruct (node_at N s 1 p) as [n|]; [|by rewrite Hat].
    destruct Hat as (n' & -> & _ & Es). unfold slotv. by rewrite Es.
Qed.

Lemma link_under b n : h < height (root s) -> N !! (h + 1, pre (h + 1) i) = Some b -> heap s !! b = Some n ->
  let s' := upd b (set_count (set_slot n (off (h + 1) i) a) (count n + 1)) s in shape N' [] s' /\ tags_ok N' s' /\ same_tree N s N' s'.
Proof.
  intros Hlt Hb Hn s'. destruct link_good as [Hg Hu]. assert (b <> a) as Hba by (intros ->; apply Hu; by eexists). pose proof (sh_labels _ _ _ Hs) as HL.
  destruct (sh_nodes _ _ _ Hs _ _ _ Hb) as (n0 & Hn0 & Hok). rewrite Hn in Hn0. injection Hn0 as <-. split; [|apply link_views; [done|done| |]].
  - split; [exact link_labels| | |].
    + destruct (sh_root _ _ _ Hs) as (R1 & R2 & R3 & R4). split; [done|]. split; [done|]. split; [intros E0; exfalso; cbn [root upd s'] in E0; lia|]. intros H1. cbn [root upd s']. rewrite R4 by done. unfold N'. rewrite lookup_insert_ne; [done|]. intros [= E _]. lia.
    + intros l p c Hc. unfold N' in Hc. cbn [heap upd s']. destruct (decide ((l, p) = (h, pre h i))) as [[= -> ->]|Hne].
      * rewrite lookup_insert_eq in Hc. injection Hc as <-. exists z. rewrite lookup_insert_ne by done. split; [done|exact link_new].
      * rewrite lookup_insert_ne in Hc by done. destruct (decide (c = b)) as [->|Hcb].
        -- pose proof (lo_inj _ _ HL _ _ _ Hb Hc) as E. injection E as <- <-. rewrite lookup_insert_eq. eexists. split; [done|]. by apply link_parent.
        -- rewrite lookup_insert_ne by done. destruct (sh_nodes _ _ _ Hs l p c Hc) as (m & Hm & Hmok). exists m. split; [done|]. apply link_other; [done|]. intros [-> ->]. congruence.
    + apply pool_upd; [|left; apply link_used; left; by eexists]. eapply pool_use; [exact (sh_pool _ _ _ Hs)|apply not_elem_of_nil|apply link_used].
  - cbn [heap upd s']. by rewrite lookup_insert_ne.
  - intros l p c m Hc Hm. cbn [heap upd s']. destruct (decide (c = b)) as [->|Hcb]; [|exists m; by rewrite lookup_insert_ne]. rewrite lookup_insert_eq. eexists. split; [done|].
    rewrite Hn in Hm. injection Hm as <-. split; [done|]. intros ->. pose proof (lo_inj _ _ HL _ _ _ Hb Hc) as E. injection E as E _. lia.
Qed.

Lemma link_top : h = height (root s) ->
  let s' := with_root (mk_root (height (root s)) (gfp_mask (root s)) a) s in shape N' [] s' /\ tags_ok N' s' /\ same_tree N s N' s'.
Proof.
  intros Eh s'. destruct link_good as [Hg Hu]. split; [|apply link_views; [done|done|done|]].
  - split; [exact link_labels| | |].
    + destruct (sh_root _ _ _ Hs) as (R1 & R2 & R3 & R4). split; [done|]. split; [done|]. split; [intros E0; exfalso; cbn [root with_root height s'] in E0; lia|]. intros H1. cbn [root with_root height rnode s']. unfold N'.
      rewrite Eh, Htop, lookup_insert_eq. done.
    + intros l p c Hc. unfold N' in Hc. cbn [heap with_root s']. destruct (decide ((l, p) = (h, pre h i))) as [[= -> ->]|Hne].
      * rewrite lookup_insert_eq in Hc. injection Hc as <-. exists z. split; [done|exact link_new].
      * rewrite lookup_insert_ne in Hc by done. destruct (sh_nodes _ _ _ Hs l p c Hc) as (m & Hm & Hmok). exists m. split; [done|]. apply link_other; [done|]. intros [-> ->].
        destruct (lo_level _ _ (sh_labels _ _ _ Hs) _ _ _ Hc). lia.
    + apply pool_root. eapply pool_use; [exact (sh_pool _ _ _ Hs)|apply not_elem_of_nil|apply link_used].
  - intros l p c m Hc Hm. exists m. done.
Qed.

End Link.

(** Writing to a node in hand. *)
Lemma shape_own N own s a n : shape N own s -> a ∈ own -> shape N own (upd a n s) /\ (forall b, used N b -> heap (upd a n s) !! b = heap s !! b).
Proof.
  intros [HL HR HN HP] Ha. assert (forall b, used N b -> heap (upd a n s) !! b = heap s !! b) as Hf.
  { intros b Hb. cbn [heap upd]. rewrite lookup_insert_ne; [done|]. intros <-. by destruct (po_own _ _ _ HP a Ha) as (_ & _ & ?). }
  split; [|done]. split; [done|done| |apply pool_upd; auto]. intros l p b Hb. rewrite Hf by (by eexists). by apply HN.
Qed.

(** What an operation leaves that changes nothing for the user. *)
Definition kept (N : labels) (s : state) (N' : labels) (s' : state) : Prop :=
  shape N' [] s' /\ tags_ok N' s' /\ same_tree N s N' s' /\ height (root s') = height (root s) /\ gfp_mask (root s') = gfp_mask (root s).

Lemma zeroed_height z h : zeroed z -> zeroed (set_height z h).
Proof. done. Qed.

Lemma add_child_ok N s i h node offset : shape N [] s -> tags_ok N s -> 0 <= i < 2 ^ 32 -> pre (height (root s)) i = 0 -> 1 <= h <= height (root s) -> N !! (h, pre h i) = None ->
  (h = height (root s) /\ node = NULL \/ h < height (root s) /\ N !! (h + 1, pre (h + 1) i) = Some node /\ offset = off (h + 1) i) ->
  exists a s' N', add_child h node offset s = Some (a, s') /\ kept N s N' s' /\ (a = NULL \/ a <> NULL /\ N' !! (h, pre h i) = Some a).
Proof.
  intros Hs Ht Hi Htop Hh Hno Hpar. unfold add_child. destruct (node_alloc_ok _ _ _ (sh_pool _ _ _ Hs)) as (a & s1 & E1 & Hgot). erewrite bind_run by exact E1.
  pose proof Hgot as (Er & _ & Hg). destruct (got_shape _ _ _ _ _ Hs Hgot) as [Hs1 Hf1]. destruct (frame_tree N s s1 Er ltac:(auto) Ht) as [Ht1 Hsame1].
  destruct Hg as [[-> _]|(Hg & _ & _ & _ & z & Hz & Hzero)].
  { exists NULL, s1, N. split; [done|]. split; [|auto]. split; [done|]. split; [done|]. split; [done|]. by rewrite Er. }
  assert (a <> NULL) as Ha0 by (destruct Hg; unfold NULL; lia). rewrite (proj2 (Z.eqb_neq a NULL)) in * by done. erewrite bind_run by (by apply st_height_run).
  destruct (shape_own N [a] s1 a (set_height z h) Hs1) as [Hs2 Hf2]; [by left|]. set (s2 := upd a (set_height z h) s1) in *. assert (root s2 = root s) as Er2 by (by rewrite <- Er).
  destruct (frame_tree N s1 s2 eq_refl Hf2 Ht1) as [Ht2 Hsame2]. assert (heap s2 !! a = Some (set_height z h)) as Hz2 by apply lookup_insert_eq. rewrite <- Er2 in Htop, Hh, Hpar.
  assert (h < height (root s2) -> is_Some (N !! (h + 1, pre (h + 1) i))) as Hp by (intros Hlt; destruct Hpar as [[? _]|(_ & -> & _)]; [lia|by eexists]).
  exists a. destruct Hpar as [[Eh ->]|(Hlt & Hn & ->)].
  - cbn [Z.eqb NULL negb]. destruct (link_top N s2 i h a _ Hs2 Ht2 Hi Htop Hh Hno Hz2 Hzero eq_refl Hp Eh) as (H1 & H2 & H3). eexists _, _. split; [reflexivity|].
    split; [split; [exact H1|]; split; [exact H2|]; split; [|by rewrite <- Er2]|right; split; [done|apply lookup_insert_eq]].
    eapply same_tree_trans; [exact Hsame1|]. eapply same_tree_trans; [exact Hsame2|exact H3].
  - destruct (sh_nodes _ _ _ Hs2 _ _ _ Hn) as (n & Hn2 & Hok). destruct (lo_level _ _ (sh_labels _ _ _ Hs2) _ _ _ Hn) as (_ & _ & _ & Hng). assert (node <> NULL) as Hn0 by (destruct Hng; unfold NULL; lia).
    rewrite (proj2 (Z.eqb_neq node NULL)) by done. cbn [negb]. pose proof (off_range (h + 1) i) as Ho. pose proof (nonnull_range n (no_len _ _ _ _ Hok)) as Hc. rewrite <- (no_count _ _ _ _ Hok) in Hc.
    rewrite (bind_run _ _ s2 tt (upd node (set_count (set_slot n (off (h + 1) i) a) (count n + 1)) s2)).
    2: { erewrite bind_run by (apply st_slot_run; [done|exact Hn2|apply Hok|done]). set (s3 := upd node (set_slot n (off (h + 1) i) a) s2).
         assert (heap s3 !! node = Some (set_slot n (off (h + 1) i) a)) as H3 by apply lookup_insert_eq. erewrite bind_run by (by apply node_ld_run).
         rewrite (st_count_run s3 node _ Hn0 H3) by (unfold is_u32; cbn [count set_slot]; lia). unfold s3, upd. cbn [root heap supply preload freed]. by rewrite insert_insert_eq. }
    destruct (link_under N s2 i h a _ Hs2 Ht2 Hi Htop Hh Hno Hz2 Hzero eq_refl Hp node n Hlt Hn Hn2) as (H1 & H2 & H3). eexists _, _. split; [reflexivity|].
    split; [split; [exact H1|]; split; [exact H2|]; split; [|by rewrite <- Er2]|right; split; [done|apply lookup_insert_eq]].
    eapply same_tree_trans; [exact Hsame1|]. eapply same_tree_trans; [exact Hsame2|exact H3].
Qed.

Lemma kept_refl N s : shape N [] s -> tags_ok N s -> kept N s N s.
Proof. intros. split; [done|]. split; [done|]. split; [apply same_tree_refl|done]. Qed.

Lemma kept_trans N s N' s' N'' s'' : kept N s N' s' -> kept N' s' N'' s'' -> kept N s N'' s''.
Proof. intros (_ & _ & E1 & H1 & G1) (A & B & E2 & H2 & G2). split; [done|]. split; [done|]. split; [by eapply same_tree_trans|]. split; congruence. Qed.

Lemma next_shift_down h : (S h <= 6)%nat -> (1 <= h)%nat -> next_shift (6 * (Z.of_nat (S h) - 1)) = 6 * (Z.of_nat h - 1).
Proof. intros. rewrite next_shift_eq by lia. lia. Qed.

Lemma insert_loop_ok i : 0 <= i < 2 ^ 32 -> forall h N s shift node offset slot, shape N [] s -> tags_ok N s -> pre (height (root s)) i = 0 -> Z.of_nat h <= height (root s) ->
  ((1 <= h)%nat -> shift = 6 * (Z.of_nat h - 1) /\ slot = default 0 (N !! (Z.of_nat h, pre (Z.of_nat h) i))) -> (h = O -> slot = contents N s i) ->
  (Z.of_nat h = height (root s) /\ node = NULL /\ (1 <= h)%nat \/ Z.of_nat h < height (root s) /\ N !! (Z.of_nat h + 1, pre (Z.of_nat h + 1) i) = Some node /\ offset = off (Z.of_nat h + 1) i) ->
  exists r s' N', insert_loop h i shift node offset slot s = Some (r, s') /\ kept N s N' s' /\
    match r with inl e => e = - ENOMEM | inr (nd, o, v) => N' !! (1, pre 1 i) = Some nd /\ o = off 1 i /\ v = contents N' s' i end.
Proof.
  intros Hi. induction h as [|h IH]; intros N s shift node offset slot Hs Ht Htop HH H1 H0 Hpar.
  { exists (inr (node, offset, slot)), s, N. split; [done|]. split; [by apply kept_refl|]. destruct Hpar as [(_ & _ & ?)|(_ & Hn & Ho)]; [lia|]. auto. }
  destruct (H1 ltac:(lia)) as [-> Hslot]. clear H1 H0. pose proof (sh_root _ _ _ Hs) as (Hh6 & _). cbn [insert_loop].
  assert (exists a s1 N1, (if slot =? NULL then add_child (Z.of_nat (S h)) node offset else mret slot) s = Some (a, s1) /\ kept N s N1 s1 /\ (a = NULL \/ a <> NULL /\ N1 !! (Z.of_nat (S h), pre (Z.of_nat (S h)) i) = Some a)) as (a & s1 & N1 & E1 & Hk1 & Ha).
  { destruct (N !! (Z.of_nat (S h), pre (Z.of_nat (S h)) i)) as [b|] eqn:Eb; cbn [from_option id] in Hslot; subst slot.
    - destruct (node_at_some _ _ _ _ _ _ Hs Eb) as (_ & _ & _ & _ & _ & Hb0). rewrite (proj2 (Z.eqb_neq b NULL)) by done. exists b, s, N. split; [done|]. split; [by apply kept_refl|auto].
    - cbn [Z.eqb NULL]. apply add_child_ok; try done; [lia|]. destruct Hpar as [(? & ? & _)|?]; auto. }
  erewrite bind_run by exact E1. destruct Ha as [->|[Ha0 Ha]]; [exists (inl (- ENOMEM)), s1, N1; done|]. rewrite (proj2 (Z.eqb_neq a NULL)) by done.
  pose proof Hk1 as (Hs1 & Ht1 & _ & Eh1 & _). destruct (node_at_some _ _ _ _ _ _ Hs1 Ha) as (n & Hn & Hat & Hok & _ & _). rewrite offset_of_off by lia.
  erewrite bind_run by (apply ld_slot_run; [done|exact Hn|apply Hok|apply off_range]).
  assert (N1 !! (Z.of_nat h + 1, pre (Z.of_nat h + 1) i) = Some a) as Ha' by (by replace (Z.of_nat h + 1) with (Z.of_nat (S h)) by lia).
  destruct (IH N1 s1 (next_shift (6 * (Z.of_nat (S h) - 1))) a (off (Z.of_nat (S h)) i) (slotv n (off (Z.of_nat (S h)) i)) Hs1 Ht1) as (r & s' & N' & E & Hk & Hr); [by rewrite Eh1|lia| | | |].
  - intros Hh. split; [apply next_shift_down; lia|]. rewrite (child_node N1 _ i n Hok) by lia. by replace (Z.of_nat (S h) - 1) with (Z.of_nat h) by lia.
  - intros ->. change (Z.of_nat 1) with 1 in *. rewrite contents_leaf by lia. by rewrite Hat.
  - right. split; [lia|]. split; [done|]. by replace (Z.of_nat h + 1) with (Z.of_nat (S h)) by lia.
  - exists r, s', N'. split; [exact E|]. split; [by eapply kept_trans|done].
Qed.

(** ** A new level *)

Lemma node_upd_id s a n : heap s !! a = Some n -> upd a n s = s.
Proof. intros H. unfold upd. rewrite insert_id by done. by destruct s. Qed.

Lemma node_upd_upd s a n n' : upd a n' (upd a n s) = upd a n' s.
Proof. unfold upd. cbn [root heap supply preload freed]. by rewrite insert_insert_eq. Qed.

Lemma propagate_tag_run s a n t : a <> NULL -> heap s !! a = Some n -> length (slots n) = 64%nat -> tags_shape n -> 0 <= t < 2 -> tagb n t 0 = false ->
  exists n', propagate_tag a t s = Some (tt, upd a n' s) /\ tag_changed n t 0 (root_tag_get (root s) t) n'.
Proof.
  intros Ha Hn Hl Hsh Ht H0. unfold propagate_tag. erewrite bind_run by reflexivity. destruct (root_tag_get (root s) t); [apply (tag_set_run s a n); (done || lia)|]. exists n. rewrite node_upd_id by done.
  split; [done|]. split; try done. intros t' k' _ _. case_decide as E; [destruct E as [-> ->]; done|done].
Qed.

(** The node that becomes the new root. *)
Record grown (s : state) (n : radix_tree_node) : Prop := {
  gr_height : node_height n = height (root s) + 1;
  gr_count : count n = 1;
  gr_len : length (slots n) = 64%nat;
  gr_slots : forall k, 0 <= k < 64 -> slotv n k = if decide (k = 0) then radix_tree_direct_to_ptr (rnode (root s)) else 0;
  gr_nonnull : nonnull (slots n) = 1;
  gr_tags : tags_shape n;
  gr_tagb : forall t k, 0 <= t < 2 -> 0 <= k < 64 -> tagb n t k = if decide (k = 0) then root_tag_get (root s) t else false }.

Lemma grow_run s a z k : a <> NULL -> heap s !! a = Some z -> zeroed z -> radix_tree_direct_to_ptr (rnode (root s)) <> 0 -> exists n, grown s n /\
  (st_slot a 0 (radix_tree_direct_to_ptr (rnode (root s))) ;; propagate_tag a 0 ;; propagate_tag a 1 ;;
   st_height a (height (root s) + 1) ;; st_count a 1 ;; st_rnode a ;; st_root_height (height (root s) + 1) ;; k : M Z) s
  = k (with_root (mk_root (height (root s) + 1) (gfp_mask (root s)) a) (upd a n s)).
Proof.
  intros Ha Hz Hzero Hv. destruct (zeroed_node z Hzero) as (Z1 & Z2 & Z3 & Z4 & _ & Z6). set (v := radix_tree_direct_to_ptr (rnode (root s))) in *.
  erewrite bind_run by (by apply st_slot_run). set (n1 := set_slot z 0 v). set (s1 := upd a n1 s). assert (heap s1 !! a = Some n1) as H1 by apply lookup_insert_eq.
  assert (length (slots n1) = 64%nat) as Hl1 by (cbn [slots n1 set_slot]; by rewrite length_insert).
  destruct (propagate_tag_run s1 a n1 0 Ha H1 Hl1 Z2) as (n2 & E2 & T2); [lia|by apply (Z4 0 0)|]. erewrite bind_run by exact E2. assert (heap (upd a n2 s1) !! a = Some n2) as H2 by apply lookup_insert_eq.
  destruct (propagate_tag_run (upd a n2 s1) a n2 1 Ha H2) as (n3 & E3 & T3); [by rewrite (tc_slots _ _ _ _ _ T2)|apply T2|lia|rewrite (tc_tagb _ _ _ _ _ T2) by lia; rewrite decide_False by lia; by apply (Z4 1 0)|]. erewrite bind_run by exact E3.
  assert (slots n3 = slots n1) as Es by (by rewrite (tc_slots _ _ _ _ _ T3), (tc_slots _ _ _ _ _ T2)). exists (set_count (set_height n3 (height (root s) + 1)) 1). split.
  - split; [done|done| | | |apply T3|].
    + cbn [slots set_count set_height]. rewrite Es. cbn [slots n1 set_slot]. by rewrite length_insert.
    + intros k' Hk. transitivity (slotv n1 k'); [unfold slotv; cbn [slots set_count set_height]; by rewrite Es|]. unfold n1. rewrite slotv_set by (done || lia). by rewrite Z3.
    + cbn [slots set_count set_height]. rewrite Es. unfold n1. rewrite nonnull_set, Z3, Z6, decide_False, decide_True by (done || lia). lia.
    + intros t k' Ht Hk. change (tagb n3 t k' = if decide (k' = 0) then root_tag_get (root s) t else false). rewrite (tc_tagb _ _ _ _ _ T3), (tc_tagb _ _ _ _ _ T2) by done. change (tagb n1 t k') with (tagb z t k'). rewrite (Z4 t k') by done.
      change (root (upd a n2 s1)) with (root s). change (root s1) with (root s). assert (t = 0 \/ t = 1) as [-> | ->] by lia; repeat case_decide; (done || lia).
  - assert (heap (upd a n3 (upd a n2 s1)) !! a = Some n3) as H3 by apply lookup_insert_eq. erewrite bind_run by (by apply st_height_run).
    erewrite bind_run by (apply st_count_run; [done|apply lookup_insert_eq|unfold is_u32; lia]). unfold s1. by rewrite !node_upd_upd.
Qed.

(** [s'] is [s] with one more level, whose only node is [n] at [a]. *)
Record level (N : labels) (s : state) (a : Z) (n : radix_tree_node) (s' : state) : Prop := {
  lv_height : 0 <= height (root s) /\ height (root s') = height (root s) + 1;
  lv_labels : labels_ok N (height (root s));
  lv_unused : ~ used N a;
  lv_heap : forall b, used N b -> heap s' !! b = heap s !! b;
  lv_node : heap s' !! a = Some n;
  lv_tag : forall t, 0 <= t < 2 -> root_tag_get (root s') t = root_tag_get (root s) t;
  lv_shape : tags_shape n;
  lv_tagb : forall t k, 0 <= t < 2 -> 0 <= k < 64 -> tagb n t k = if decide (k = 0) then root_tag_get (root s) t else false;
  lv_empty : height (root s) = 0 -> N = ∅ /\ rnode (root s) <> 0;
  lv_slots : height (root s) = 0 -> forall k, 0 <= k < 64 -> slotv n k = if decide (k = 0) then radix_tree_direct_to_ptr (rnode (root s)) else 0 }.

Definition add_level (N : labels) (s : state) (a : Z) : labels := <[(height (root s) + 1, 0) := a]> N.

Section Level.
Context (N : labels) (s : state) (a : Z) (n : radix_tree_node) (s' : state).
Hypothesis Hl : level N s a n s'.

Lemma level_none l p : height (root s) < l \/ l = height (root s) /\ p <> 0 -> N !! (l, p) = None.
Proof. intros H. destruct (N !! (l, p)) as [b|] eqn:E; [|done]. destruct (lo_level _ _ (lv_labels _ _ _ _ _ Hl) l p b E) as (? & ? & ? & _). lia. Qed.

Lemma level_at l p : node_at (add_level N s a) s' l p = if decide (l = height (root s) + 1 /\ p = 0) then Some n else node_at N s l p.
Proof.
  unfold node_at, add_level. case_decide as E.
  - destruct E as [-> ->]. rewrite lookup_insert_eq. cbn [mbind option_bind]. apply Hl.
  - rewrite lookup_insert_ne by (intros [= <- <-]; tauto). destruct (N !! (l, p)) as [b|] eqn:Eb; [|done]. cbn [mbind option_bind]. apply (lv_heap _ _ _ _ _ Hl). by eexists.
Qed.

Lemma level_any t : 0 <= t < 2 -> any_tag n t = root_tag_get (root s) t.
Proof.
  intros Ht. pose proof (any_tag_spec n t (lv_shape _ _ _ _ _ Hl) Ht) as Hany. destruct (root_tag_get (root s) t) eqn:Er.
  - apply Hany. exists 0. split; [lia|]. rewrite (lv_tagb _ _ _ _ _ Hl) by lia. by rewrite decide_True.
  - destruct (any_tag n t); [|done]. destruct (proj1 Hany eq_refl) as (k & Hk & Hb). rewrite (lv_tagb _ _ _ _ _ Hl), Er in Hb by done. by case_decide.
Qed.

(** The labels of the smaller tree have the same tags. *)
Lemma level_up_any t l p : 0 <= t < 2 -> l <= height (root s) -> 0 <= p -> (l = height (root s) -> p = 0) ->
  up_tag (add_level N s a) s' t l p = up_tag N s t l p /\ node_any (add_level N s a) s' t l p = node_any N s t l p.
Proof.
  intros Ht Hlv Hp Hp0. destruct (lv_height _ _ _ _ _ Hl) as [_ Eh]. unfold up_tag, node_any. rewrite !level_at, Eh. split.
  - rewrite (proj2 (Z.eqb_neq l _)) by lia. destruct (Z.eqb_spec l (height (root s))) as [->|Hne].
    + rewrite Hp0 by done. change (0 / 64) with 0. change (0 mod 64) with 0. rewrite decide_True by done. rewrite (lv_tagb _ _ _ _ _ Hl) by lia. by rewrite decide_True.
    + rewrite decide_False by lia. done.
  - by rewrite decide_False by lia.
Qed.

Lemma level_tags : tags_ok N s <-> tags_ok (add_level N s a) s'.
Proof.
  destruct (lv_height _ _ _ _ _ Hl) as [H0 Eh]. split; intros Hok t Ht; destruct (Hok t Ht) as [Hz Hlp]; split.
  - lia.
  - intros l p Hlv Hp Hp0. rewrite Eh in *. destruct (Z.eq_dec l (height (root s) + 1)) as [->|Hne].
    + unfold up_tag, node_any. rewrite Eh, Z.eqb_refl, level_at, decide_True by (split; [done|by apply Hp0]). rewrite level_any by done. by apply Hl.
    + destruct (decide (l = height (root s) -> p = 0)) as [Hd|Hd]; [destruct (level_up_any t l p Ht ltac:(lia) Hp Hd) as [-> ->]; by apply Hlp; [lia|..]|].
      assert (l = height (root s) /\ p <> 0) as [-> Hp1] by lia. unfold up_tag, node_any. rewrite Eh, !level_at, (proj2 (Z.eqb_neq _ (height (root s) + 1))) by lia. rewrite (decide_False (P := _ = _ /\ p = 0)) by lia.
      unfold node_at at 2. rewrite level_none by auto. cbn [mbind option_bind]. case_decide as E.
      * rewrite (lv_tagb _ _ _ _ _ Hl) by (done || apply Z.mod_pos_bound; lia). pose proof (Z.div_mod p 64 ltac:(done)). rewrite decide_False by lia. done.
      * unfold node_at. rewrite level_none by lia. done.
  - intros E0 Er. by destruct (lv_empty _ _ _ _ _ Hl E0).
  - intros l p Hlv Hp Hp0. destruct (level_up_any t l p Ht ltac:(lia) Hp Hp0) as [<- <-]. apply Hlp; lia.
Qed.

Lemma level_same : same_tree N s (add_level N s a) s'.
Proof.
  destruct (lv_height _ _ _ _ _ Hl) as [H0 Eh]. destruct (Z.eq_dec (height (root s)) 0) as [E0|E0].
  - destruct (lv_empty _ _ _ _ _ Hl E0) as [EN Hr]. assert (forall i, 0 <= i -> node_at (add_level N s a) s' 1 (i / 64) = if decide (i / 64 = 0) then Some n else None) as Hat.
    { intros i Hi. rewrite level_at, E0. change (0 + 1) with 1. unfold node_at. rewrite EN, lookup_empty. repeat case_decide; try done; lia. }
    assert (forall i, 0 <= i -> i / 64 = 0 -> i mod 64 = i) as Hmod by (intros i Hi E; pose proof (Z.div_mod i 64 ltac:(done)); lia).
    assert (forall i, 0 <= i -> i / 64 <> 0 -> i =? 0 = false) as Hne by (intros i Hi E; apply Z.eqb_neq; intros ->; done).
    split; [intros i Hi; unfold contents|intros t i Ht Hi; unfold tagged]; rewrite Eh, E0, Z.eqb_refl, Hat by lia; cbn [Z.add Z.eqb]; (case_decide as E; [|by rewrite (Hne i) by lia]); rewrite Hmod by lia; pose proof (Z.mod_pos_bound i 64 ltac:(done)); pose proof (Hmod i ltac:(lia) E).
    + rewrite (lv_slots _ _ _ _ _ Hl) by lia. destruct (Z.eqb_spec i 0); [by rewrite decide_True|by rewrite decide_False].
    + rewrite (lv_tagb _ _ _ _ _ Hl), (proj2 (Z.eqb_neq (rnode (root s)) 0)) by lia. destruct (Z.eqb_spec i 0); [by rewrite decide_True|by rewrite decide_False].
  - split; [intros i Hi|intros t i Ht Hi]; rewrite ?contents_leaf, ?tagged_leaf by lia; rewrite level_at, decide_False by lia; done.
Qed.

End Level.

(** ** Growing *)

Section Grow.
Context (N : labels) (s : state) (a : Z) (n : radix_tree_node).
Hypothesis Hs : shape N [a] s.
Hypothesis Htags : tags_ok N s.
Hypothesis Hr : rnode (root s) <> 0.
Hypothesis Hh : height (root s) < 6.
Hypothesis Hn : grown s n.

Definition after_grow : state := with_root (mk_root (height (root s) + 1) (gfp_mask (root s)) a) (upd a n s).

Lemma grow_level : level N s a n after_grow.
Proof.
  destruct (po_own _ _ _ (sh_pool _ _ _ Hs) a) as (Hg & _ & Hu); [by left|]. pose proof (sh_root _ _ _ Hs) as (H0 & _ & Hz & _).
  split; [split; [lia|done]|apply Hs|done| |apply lookup_insert_eq|done|apply Hn|apply Hn|intros E; by destruct (Hz E)|intros _; apply Hn].
  intros b Hb. cbn [heap after_grow with_root upd]. rewrite lookup_insert_ne; [done|]. by intros ->.
Qed.

Lemma grow_old : height (root s) = 0 /\ (exists item, good item /\ rnode (root s) = item + 1) \/ 1 <= height (root s) /\ N !! (height (root s), 0) = Some (rnode (root s)) /\ good (rnode (root s)).
Proof.
  pose proof (sh_root _ _ _ Hs) as (H0 & _ & Hz & Ht). destruct (Z.eq_dec (height (root s)) 0) as [E|E]; [left; destruct (Hz E) as [_ [?|?]]; done|]. right. split; [lia|].
  specialize (Ht ltac:(lia)). destruct (N !! (height (root s), 0)) as [b|] eqn:Eb; cbn [from_option id] in Ht; [|done]. subst b. split; [done|]. by apply (lo_level _ _ (sh_labels _ _ _ Hs) _ _ _ Eb).
Qed.

Lemma grow_direct : radix_tree_direct_to_ptr (rnode (root s)) <> 0.
Proof.
  destruct grow_old as [(_ & item & Hg & ->)|(_ & _ & Hg)]; [rewrite direct_to_ptr_direct by done; destruct Hg; lia|by rewrite direct_to_ptr_good].
Qed.

Lemma grow_node : node_ok (add_level N s a) (height (root s) + 1) 0 n.
Proof.
  pose proof (sh_root _ _ _ Hs) as (H0 & _). split; [apply Hn|apply Hn|apply Hn|by rewrite (gr_count _ _ Hn), (gr_nonnull _ _ Hn)| | | |].
  - intros E k Hk. rewrite (gr_slots _ _ Hn) by done. case_decide; [|by left]. right. destruct grow_old as [(_ & item & Hg & ->)|(? & _ & Hg)]; [by rewrite direct_to_ptr_direct|lia].
  - intros Hl k Hk. rewrite (gr_slots _ _ Hn) by done. replace (height (root s) + 1 - 1) with (height (root s)) by lia. unfold add_level. rewrite lookup_insert_ne by (intros [= ? _]; lia). case_decide as E.
    + subst k. destruct grow_old as [(? & _)|(_ & Hb & Hg)]; [lia|]. change (64 * 0 + 0) with 0. by rewrite Hb, direct_to_ptr_good.
    + rewrite (level_none _ _ _ _ _ grow_level) by lia. done.
  - intros k Hk. rewrite (gr_slots _ _ Hn) by done. case_decide as E; [subst k; intros _; rewrite Z.mul_0_l; lia|done].
  - intros t k Ht Hk. rewrite (gr_tagb _ _ Hn), (gr_slots _ _ Hn) by done. case_decide; [intros _; apply grow_direct|done].
Qed.

Lemma grow_labels : labels_ok (add_level N s a) (height (root s) + 1).
Proof.
  pose proof (sh_root _ _ _ Hs) as (H0 & _). pose proof (sh_labels _ _ _ Hs) as HL. destruct (po_own _ _ _ (sh_pool _ _ _ Hs) a) as (Hg & _ & Hu); [by left|].
  assert (forall x b, add_level N s a !! x = Some b -> x = (height (root s) + 1, 0) /\ b = a \/ N !! x = Some b) as Hin.
  { intros x b. unfold add_level. destruct (decide (x = (height (root s) + 1, 0))) as [->|Hne]; [rewrite lookup_insert_eq; intros [= ->]; auto|rewrite lookup_insert_ne by done; auto]. }
  split.
  - intros l p b [[[= -> ->] ->]|Hb]%Hin; [lia || (split; [lia|]; done)|]. destruct (lo_level _ _ HL _ _ _ Hb) as (? & ? & ? & ?). split; [lia|]. split; [done|]. split; [lia|done].
  - intros l p b [[[= -> ->] ->]|Hb]%Hin Hlt; [lia|]. unfold add_level. rewrite lookup_insert_is_Some'. destruct (lo_level _ _ HL _ _ _ Hb) as (Hl & _ & Hp & _).
    destruct (Z.eq_dec l (height (root s))) as [->|Hne]; [left; by rewrite Hp|right; apply (lo_parent _ _ HL l p b); [done|lia]].
  - intros x y b [[-> ->]|Hx]%Hin [[-> ?]|Hy]%Hin; [done|destruct Hu; by eexists|subst; destruct Hu; by eexists|by eapply (lo_inj _ _ HL)].
Qed.

Lemma grow_shape : shape (add_level N s a) [] after_grow.
Proof.
  pose proof (sh_root _ _ _ Hs) as (H0 & Hg & _). split; [exact grow_labels| | |].
  - split; [cbn [root after_grow with_root height]; lia|]. split; [done|]. split; [cbn [root after_grow with_root height]; lia|]. intros _. cbn [root after_grow with_root height rnode]. unfold add_level. by rewrite lookup_insert_eq.
  - intros l p b Hb. unfold add_level in Hb. destruct (decide ((height (root s) + 1, 0) = (l, p))) as [[= <- <-]|Hne].
    + rewrite lookup_insert_eq in Hb. injection Hb as <-. exists n. split; [apply lookup_insert_eq|apply grow_node].
    + rewrite lookup_insert_ne in Hb by done. destruct (sh_nodes _ _ _ Hs l p b Hb) as (m & Hm & Hok). exists m. split; [rewrite (lv_heap _ _ _ _ _ grow_level); [done|by eexists]|].
      destruct (lo_level _ _ (sh_labels _ _ _ Hs) _ _ _ Hb) as (Hl & _). destruct Hok as [K1 K2 K3 K4 K5 K6 K7 K8]. split; try done. intros H2 k Hk. rewrite K6 by done. unfold add_level. rewrite lookup_insert_ne; [done|]. intros [= E _]. lia.
  - apply pool_root. apply pool_upd; [|left; exists (height (root s) + 1, 0); apply lookup_insert_eq]. eapply pool_use; [apply Hs|apply not_elem_of_nil|]. intros b. unfold used, add_level. split.
    + intros [x Hx]. destruct (decide (x = (height (root s) + 1, 0))) as [->|Hne]; [rewrite lookup_insert_eq in Hx; injection Hx as ->; auto|]. rewrite lookup_insert_ne in Hx by done. left. by exists x.
    + intros [[x Hx]| ->]; [|eexists; apply lookup_insert_eq]. exists x. rewrite lookup_insert_ne; [done|]. intros <-. rewrite (level_none _ _ _ _ _ grow_level) in Hx by lia. done.
Qed.

End Grow.

(** As [kept], but the height may change. *)
Definition looks (N : labels) (s : state) (N' : labels) (s' : state) : Prop :=
  shape N' [] s' /\ tags_ok N' s' /\ same_tree N s N' s' /\ gfp_mask (root s') = gfp_mask (root s).

Lemma looks_refl N s : shape N [] s -> tags_ok N s -> looks N s N s.
Proof. intros. split; [done|]. split; [done|]. split; [apply same_tree_refl|done]. Qed.

Lemma looks_trans N s N' s' N'' s'' : looks N s N' s' -> looks N' s' N'' s'' -> looks N s N'' s''.
Proof. intros (_ & _ & E1 & G1) (A & B & E2 & G2). split; [done|]. split; [done|]. split; [by eapply same_tree_trans|congruence]. Qed.

Lemma kept_looks N s N' s' : kept N s N' s' -> looks N s N' s'.
Proof. intros (? & ? & ? & _ & ?). done. Qed.

Lemma extend_loop_ok n : forall N s, shape N [] s -> tags_ok N s -> rnode (root s) <> 0 -> height (root s) + Z.of_nat n <= 6 ->
  exists r s' N', extend_loop n s = Some (r, s') /\ looks N s N' s' /\ (r = - ENOMEM \/ r = 0 /\ height (root s') = height (root s) + Z.of_nat n /\ rnode (root s') <> 0).
Proof.
  induction n as [|n IH]; intros N s Hs Ht Hr Hh; [exists 0, s, N; split; [done|]; split; [by apply looks_refl|right; split; [done|]; split; [lia|done]]|]. cbn [extend_loop].
  destruct (node_alloc_ok _ _ _ (sh_pool _ _ _ Hs)) as (a & s1 & E1 & Hgot). erewrite bind_run by exact E1. pose proof Hgot as (Er & _ & Hg). destruct (got_shape _ _ _ _ _ Hs Hgot) as [Hs1 Hf1].
  destruct (frame_tree N s s1 Er ltac:(auto) Ht) as [Ht1 Hsame1]. destruct Hg as [[-> _]|(Hg & _ & _ & _ & z & Hz & Hzero)].
  { exists (- ENOMEM), s1, N. split; [done|]. split; [|auto]. split; [done|]. split; [done|]. split; [done|]. by rewrite Er. }
  assert (a <> NULL) as Ha0 by (destruct Hg; unfold NULL; lia). rewrite (proj2 (Z.eqb_neq a NULL)) in * by done. erewrite bind_run by reflexivity. rewrite <- Er in Hr, Hh.
  destruct (grow_run s1 a z (extend_loop n) Ha0 Hz Hzero (grow_direct N s1 a Hs1 Hr)) as (m & Hm & E). rewrite E. pose proof (grow_level N s1 a m Hs1 Hr Hm) as Hlv.
  pose proof (grow_shape N s1 a m Hs1 Hr ltac:(lia) Hm) as Hs2. destruct (IH (add_level N s1 a) (after_grow s1 a m) Hs2 (proj1 (level_tags _ _ _ _ _ Hlv) Ht1)) as (r & s' & N' & E2 & Hk & Hres).
  - done.
  - cbn [root after_grow with_root height]. lia.
  - exists r, s', N'. split; [exact E2|]. split; [|cbn [root after_grow with_root height] in Hres; rewrite Er in Hres; intuition lia].
    eapply looks_trans; [|exact Hk]. split; [done|]. split; [by apply (level_tags _ _ _ _ _ Hlv)|]. split; [eapply same_tree_trans; [exact Hsame1|by eapply level_same]|]. cbn [root after_grow with_root gfp_mask]. by rewrite Er.
Qed.

Lemma extend_height_ok i s : 0 <= i < 2 ^ 32 -> forall n h, 0 <= h <= 6 -> 6 - h <= Z.of_nat n -> exists h', extend_height n i h s = Some (h', s) /\ h <= h' <= 6 /\ i <= Z.min (64 ^ h') (2 ^ 32) - 1.
Proof.
  intros Hi. induction n as [|n IH]; intros h Hh Hn; cbn [extend_height]; (erewrite bind_run by (unfold st_lift; rewrite maxindex_eq by lia; reflexivity)); (destruct (Z.ltb_spec (Z.min (64 ^ h) (2 ^ 32) - 1) i) as [Hlt|Hge]; [|exists h; done || (split; [done|lia])]).
  - exfalso. replace h with 6 in Hlt by lia. change (64 ^ 6) with (2 ^ 36) in Hlt. lia.
  - assert (h <> 6) as H6 by (intros ->; change (64 ^ 6) with (2 ^ 36) in Hlt; lia). destruct (IH (h + 1)) as (h' & E & Hh' & Hm); [lia|lia|]. exists h'. split; [done|]. lia.
Qed.

(** An empty tree grows without a node. *)
Lemma extend_empty_ok N s h : shape N [] s -> tags_ok N s -> rnode (root s) = 0 -> 1 <= h <= 6 -> N = ∅ /\ looks N s N (with_root (mk_root h (gfp_mask (root s)) 0) s).
Proof.
  intros Hs Ht Hr Hh. assert (N = ∅) as EN by (destruct (root_cases N [] s 0 Hs) as [(E & _)|[(_ & item & Hg & E & _)|[(_ & _ & _ & E)|(_ & a & n & Ha & E & _ & _ & Hg)]]]; [|destruct Hg; lia|done|destruct Hg; lia]; by apply (sh_root _ _ _ Hs)).
  assert (forall s' l p, node_at N s' l p = None) as Hat by (intros s' l p; unfold node_at; by rewrite EN, lookup_empty).
  assert (forall t, 0 <= t < 2 -> root_tag_get (root s) t = false) as Hrt.
  { intros t Ht2. destruct (Ht t Ht2) as [H0 H1]. pose proof (sh_root _ _ _ Hs) as (Hb & _). destruct (Z.eq_dec (height (root s)) 0) as [E|E]; [by apply H0|].
    specialize (H1 (height (root s)) 0 ltac:(lia) ltac:(lia) ltac:(done)). unfold up_tag, node_any in H1. rewrite Z.eqb_refl, Hat in H1. done. }
  split; [done|]. destruct Hs as [HL HR HN HP]. split; [split; [| | |by apply pool_root]|].
  - rewrite EN. split; intros l p a; [by rewrite lookup_empty..|]. intros H. by rewrite lookup_empty in H.
  - split; [cbn; lia|]. split; [apply HR|]. split; [cbn; lia|]. intros _. cbn. by rewrite EN, lookup_empty.
  - intros l p a. by rewrite EN, lookup_empty.
  - split; [|split; [|done]].
    + intros t Ht2. split; [cbn; lia|]. intros l p _ _ _. unfold up_tag, node_any. rewrite !Hat. case_match; [|done]. by apply (Hrt t).
    + split; [intros i Hi|intros t i Ht2 Hi]; [unfold contents|unfold tagged]; rewrite !Hat; cbn [root with_root height rnode]; rewrite (proj2 (Z.eqb_neq h 0)), Hr by lia; (case_match; [|done]); [by case_match|]. by rewrite andb_false_r.
Qed.

Lemma radix_tree_extend_ok N s i : shape N [] s -> tags_ok N s -> 0 <= i < 2 ^ 32 -> Z.min (64 ^ height (root s)) (2 ^ 32) - 1 < i ->
  exists r s' N', radix_tree_extend i s = Some (r, s') /\ looks N s N' s' /\ (r = - ENOMEM \/ r = 0 /\ 1 <= height (root s') /\ i <= Z.min (64 ^ height (root s')) (2 ^ 32) - 1).
Proof.
  intros Hs Ht Hi Hlt. pose proof (sh_root _ _ _ Hs) as (Hh & _). assert (height (root s) <> 6) as H6 by (intros E; rewrite E in Hlt; change (64 ^ 6) with (2 ^ 36) in Hlt; lia).
  unfold radix_tree_extend. erewrite bind_run by reflexivity. destruct (extend_height_ok i s Hi (Z.to_nat RADIX_TREE_MAX_PATH) (height (root s) + 1)) as (h & E & Hh' & Hm); [lia|change (Z.to_nat RADIX_TREE_MAX_PATH) with 7%nat; lia|]. erewrite bind_run by exact E.
  destruct (Z.eqb_spec (rnode (root s)) NULL) as [E0|E0].
  - destruct (extend_empty_ok N s h Hs Ht E0 ltac:(lia)) as [_ Hk]. exists 0. eexists _, N. split; [reflexivity|]. change NULL with 0 in E0. rewrite E0. split; [exact Hk|]. right. split; [done|]. cbn [root height]. lia.
  - destruct (extend_loop_ok (Z.to_nat (h - height (root s))) N s Hs Ht E0 ltac:(lia)) as (r & s' & N' & E2 & Hk & Hr). exists r, s', N'. split; [done|]. split; [done|].
    destruct Hr as [?|(? & Er & _)]; [by left|right]. split; [done|]. replace (height (root s')) with h by lia. lia.
Qed.

(** ** An item in its slot *)

Lemma pre_off_inj i j : pre 1 j = pre 1 i -> off 1 j = off 1 i -> j = i.
Proof. intros E1 E2. pose proof (pre_split 1 i ltac:(lia)) as Ei. pose proof (pre_split 1 j ltac:(lia)) as Ej. change (1 - 1) with 0 in *. rewrite pre_0 in *. lia. Qed.

Section PutItem.
Context (N : labels) (s : state) (i a v : Z) (n : radix_tree_node).
Hypothesis Hs : shape N [] s.
Hypothesis Htags : tags_ok N s.
Hypothesis Hi : 0 <= i < 2 ^ 32.
Hypothesis Hh : 1 <= height (root s).
Hypothesis Ha : N !! (1, pre 1 i) = Some a.
Hypothesis Hn : heap s !! a = Some n.
Hypothesis Hv : v = 0 /\ (forall t, 0 <= t < 2 -> tagb n t (off 1 i) = false) \/ good v.

Definition put_item : radix_tree_node :=
  set_count (set_slot n (off 1 i) v) (count n + (if decide (v = 0) then 0 else 1) - (if decide (slotv n (off 1 i) = 0) then 0 else 1)).

Lemma put_node : node_ok N 1 (pre 1 i) put_item.
Proof.
  destruct (sh_nodes _ _ _ Hs _ _ _ Ha) as (n0 & Hn0 & Hok). rewrite Hn in Hn0. injection Hn0 as <-. destruct Hok as [K1 K2 K3 K4 K5 K6 K7 K8]. pose proof (off_range 1 i) as Ho.
  assert (forall k, 0 <= k < 64 -> slotv put_item k = if decide (k = off 1 i) then v else slotv n k) as Hsl by (intros k Hk; by rewrite <- slotv_set).
  split; [done| |done| | |lia| |].
  - cbn [slots put_item set_count set_slot]. by rewrite length_insert.
  - unfold put_item. change (slots (set_count ?m ?c)) with (slots m). rewrite nonnull_set by done. cbn [count set_count]. by rewrite K4.
  - intros _ k Hk. rewrite Hsl by done. case_decide; [|by apply K5]. destruct Hv as [[? _]|?]; auto.
  - intros k Hk. rewrite Hsl by done. case_decide as E; [|by apply K7]. intros _. change (1 - 1) with 0. pose proof (pre_split 1 i ltac:(lia)) as Ei. change (1 - 1) with 0 in Ei. rewrite pre_0 in Ei. subst k. rewrite <- Ei. lia.
  - intros t k Ht Hk Hb. rewrite Hsl by done. change (tagb n t k = true) in Hb. case_decide as E; [|by apply (K8 t)]. subst k. destruct Hv as [[_ H]|[? _]]; [rewrite H in Hb by done; done|lia].
Qed.

Lemma put_ok : let s' := upd a put_item s in shape N [] s' /\ tags_ok N s' /\ (forall j, contents N s' j = if decide (j = i) then v else contents N s j) /\ (forall t j, tagged N s' t j = tagged N s t j).
Proof.
  intros s'. pose proof (shape_upd N [] s 1 (pre 1 i) a put_item Hs Ha put_node) as Hs'. destruct (sh_nodes _ _ _ Hs _ _ _ Ha) as (n0 & Hn0 & Hok). rewrite Hn in Hn0. injection Hn0 as <-.
  assert (forall l p, node_at N s' l p = if decide (l = 1 /\ p = pre 1 i) then Some put_item else node_at N s l p) as Hat.
  { intros l p. unfold node_at. case_decide as E; [destruct E as [-> ->]; rewrite Ha; cbn [mbind option_bind]; apply lookup_insert_eq|]. destruct (N !! (l, p)) as [b|] eqn:Eb; [|done]. cbn [mbind option_bind heap upd s'].
    rewrite lookup_insert_ne; [done|]. intros <-. pose proof (lo_inj _ _ (sh_labels _ _ _ Hs) _ _ _ Ha Eb) as [= <- <-]. tauto. }
  assert (node_at N s 1 (pre 1 i) = Some n) as Hold by (unfold node_at; rewrite Ha; done).
  split; [done|]. split; [|split].
  - intros t Ht. split; [exact (proj1 (Htags t Ht))|]. intros l p Hl Hp Hp0. pose proof (proj2 (Htags t Ht) l p Hl Hp Hp0) as H. unfold up_tag, node_any in *. rewrite !Hat. change (root s') with (root s). clear Hat.
    destruct (decide (l = 1 /\ p = pre 1 i)) as [[-> ->]|Hne]; [rewrite Hold in H; rewrite (decide_False (P := 1 + 1 = 1 /\ _)) by lia; exact H|]. rewrite (decide_False (P := l + 1 = 1 /\ _)) by lia. exact H.
  - intros j. rewrite !contents_leaf by done. rewrite Hat. case_decide as E.
    + destruct E as [_ E]. rewrite E, Hold. etransitivity; [exact (slotv_set n (off 1 i) v (off 1 j) (no_len _ _ _ _ Hok) (off_range _ _) (off_range _ _))|].
      destruct (decide (j = i)) as [->|Hj]; [by rewrite decide_True|]. rewrite decide_False; [done|]. intros E2. by apply Hj, pre_off_inj.
    + rewrite decide_False; [done|]. intros ->. by apply E.
  - intros t j. rewrite !tagged_leaf by done. rewrite Hat. case_decide as E; [destruct E as [_ ->]; by rewrite Hold|done].
Qed.

End PutItem.

(** ** Insertion *)

Definition inserted (N : labels) (s : state) (i item : Z) (N' : labels) (s' : state) : Prop :=
  (forall j, 0 <= j < 2 ^ 32 -> contents N' s' j = if decide (j = i) then item else contents N s j) /\ (forall t j, 0 <= t < 2 -> 0 <= j < 2 ^ 32 -> tagged N' s' t j = tagged N s t j).

(** Into a tree of height 0. *)
Lemma insert_direct_ok N s item : shape N [] s -> tags_ok N s -> good item -> height (root s) = 0 -> rnode (root s) = 0 ->
  let s' := with_root (mk_root 0 (gfp_mask (root s)) (item + 1)) s in shape N [] s' /\ tags_ok N s' /\ inserted N s 0 item N s' /\ contents N s 0 = 0.
Proof.
  intros Hs Ht Hg Eh Er s'. destruct Hs as [HL (H0 & Hm & Hz & _) HN HP]. destruct (Hz Eh) as [EN _]. assert (item + 1 <> 0) as Hne by (destruct Hg; lia).
  split; [split; [by rewrite Eh in HL| |done|by apply pool_root]|].
  - split; [cbn; lia|]. split; [done|]. split; [intros _; split; [done|right; by exists item]|cbn; lia].
  - split; [intros t Ht2; split; [intros _ E; by destruct Hne|intros l p Hl; exfalso; cbn in Hl; lia]|]. unfold inserted, contents, tagged. cbn [root s' with_root height rnode]. rewrite Eh, Er, !Z.eqb_refl.
    split; [|done]. split.
    + intros j Hj. rewrite direct_to_ptr_direct by done. destruct (Z.eqb_spec j 0); [by rewrite decide_True|by rewrite decide_False].
    + intros t j Ht2 Hj. destruct (Ht t Ht2) as [Hrt _]. rewrite andb_false_r. change (root_tag_get (mk_root 0 (gfp_mask (root s)) (item + 1)) t) with (root_tag_get (root s) t). by rewrite Hrt, andb_false_r.
Qed.

Lemma inserted_same N s N1 s1 N2 s2 i item : same_tree N s N1 s1 -> inserted N1 s1 i item N2 s2 -> inserted N s i item N2 s2.
Proof. intros [S1 S2] [I1 I2]. split; [intros j Hj; rewrite I1, S1 by done; done|intros t j Ht0 Hj; rewrite I2, S2 by done; done]. Qed.

Lemma store_item_ok N s i item a : shape N [] s -> tags_ok N s -> 0 <= i < 2 ^ 32 -> good item -> 1 <= height (root s) -> N !! (1, pre 1 i) = Some a -> contents N s i = 0 ->
  exists s', (n ← ld a; st_count a (count n + 1) ;; st_slot a (off 1 i) item ;; t0 ← tag_get a 0 (off 1 i); st_lift (BUG_ON t0) ;; t1 ← tag_get a 1 (off 1 i); st_lift (BUG_ON t1) ;; mret 0 : M Z) s = Some (0, s') /\
    shape N [] s' /\ tags_ok N s' /\ root s' = root s /\ inserted N s i item N s'.
Proof.
  intros Hs Ht Hi Hg Hh Ha E0. destruct (node_at_some _ _ _ _ _ _ Hs Ha) as (n & Hn & Hat & Hok & _ & Ha0). pose proof (off_range 1 i) as Ho.
  pose proof (put_ok N s i a item n Hs Ht Hi Hh Ha Hn (or_intror Hg)) as (Hs' & Ht' & Hc & Htg). rewrite contents_leaf, Hat in E0 by done.
  assert (forall t, 0 <= t < 2 -> tagb n t (off 1 i) = false) as Hno by (intros t Ht0; destruct (tagb n t (off 1 i)) eqn:Eb; [by apply (no_tagged _ _ _ _ Hok) in Eb|done]).
  pose proof (nonnull_range n (no_len _ _ _ _ Hok)) as Hcn. rewrite <- (no_count _ _ _ _ Hok) in Hcn. destruct Hg as [Hg _]. exists (upd a (put_item i item n) s). split; [|do 3 (split; [done|]); split; auto].
  erewrite bind_run by (by apply node_ld_run). erewrite bind_run by (apply st_count_run; [done|done|unfold is_u32; lia]). erewrite bind_run by (apply st_slot_run; [done|apply lookup_insert_eq|apply Hok|done]).
  assert (put_item i item n = set_slot (set_count n (count n + 1)) (off 1 i) item) as <- by (unfold put_item; rewrite decide_False, decide_True by lia; rewrite Z.sub_0_r; done). rewrite node_upd_upd.
  assert (forall t, 0 <= t < 2 -> tag_get a t (off 1 i) (upd a (put_item i item n) s) = Some (false, upd a (put_item i item n) s)) as Hget.
  { intros t Ht0. rewrite <- (Hno t Ht0). apply (tag_get_run _ a (put_item i item n)); [done|apply lookup_insert_eq| |apply Hok|done|done]. cbn [slots put_item set_count set_slot]. rewrite length_insert. apply Hok. }
  erewrite bind_run by (apply Hget; lia). erewrite bind_run by reflexivity. erewrite bind_run by (apply Hget; lia). reflexivity.
Qed.

Lemma radix_tree_insert_ok N s i item : shape N [] s -> tags_ok N s -> 0 <= i < 2 ^ 32 -> good item ->
  exists r s' N', radix_tree_insert i item s = Some (r, s') /\ shape N' [] s' /\ tags_ok N' s' /\ gfp_mask (root s') = gfp_mask (root s) /\
    (r = 0 /\ contents N s i = 0 /\ inserted N s i item N' s' \/ r = - EEXIST /\ contents N s i <> 0 /\ same_tree N s N' s' \/ r = - ENOMEM /\ same_tree N s N' s').
Proof.
  intros Hs Ht Hi Hg. unfold radix_tree_insert. rewrite good_not_direct by done. erewrite bind_run by reflexivity. erewrite bind_run by reflexivity. pose proof (sh_root _ _ _ Hs) as (Hh & _).
  erewrite bind_run by (unfold st_lift; rewrite maxindex_eq by lia; reflexivity).
  assert (exists r s1 N1, (if Z.min (64 ^ height (root s)) (2 ^ 32) - 1 <? i then radix_tree_extend i else mret 0) s = Some (r, s1) /\ looks N s N1 s1 /\ (r = - ENOMEM \/ r = 0 /\ i <= Z.min (64 ^ height (root s1)) (2 ^ 32) - 1)) as (r & s1 & N1 & E1 & Hk1 & Hr).
  { case_match eqn:Elt; [destruct (radix_tree_extend_ok N s i Hs Ht Hi) as (r & s1 & N1 & E & Hk & Hr); [lia|]; exists r, s1, N1; split; [done|]; split; [done|]; intuition|]. exists 0, s, N. split; [done|]. split; [by apply looks_refl|lia]. }
  erewrite bind_run by exact E1. destruct Hk1 as (Hs1 & Ht1 & Hsame1 & Eg1). destruct Hr as [->|[-> Hmax]]; [exists (- ENOMEM), s1, N1; split; [done|]; do 3 (split; [done|]); auto|]. cbn [Z.eqb negb]. erewrite bind_run by reflexivity.
  assert (contents N1 s1 i = contents N s i) as Ec by (by apply Hsame1). pose proof (sh_root _ _ _ Hs1) as (Hh1 & _ & Hz1 & _). destruct (Z.eq_dec (height (root s1)) 0) as [Eh|Eh].
  { rewrite Eh in *. change (Z.min (64 ^ 0) (2 ^ 32) - 1) with 0 in Hmax. replace i with 0 in * by lia. destruct (Hz1 eq_refl) as [_ Hrt]. change (insert_loop (Z.to_nat 0)) with (insert_loop 0). erewrite bind_run by reflexivity. cbn beta iota.
    destruct Hrt as [E0|(it & Hit & E0)]; rewrite E0.
    - destruct (insert_direct_ok N1 s1 item Hs1 Ht1 Hg Eh E0) as (Hs2 & Ht2 & Hins & Hc). cbn [Z.eqb NULL negb]. erewrite bind_run by (unfold st_rnode; erewrite bind_run by reflexivity; reflexivity). erewrite bind_run by reflexivity.
      assert (forall t, 0 <= t < 2 -> root_tag_get (mk_root (height (root s1)) (gfp_mask (root s1)) (radix_tree_ptr_to_direct item)) t = false) as Htg by (intros t Ht0; by apply (proj1 (Ht1 t Ht0))).
      cbn [root]. rewrite (Htg 0), (Htg 1) by lia. rewrite Eh, direct_eq by done. eexists 0, _, N1. split; [reflexivity|]. split; [exact Hs2|]. split; [exact Ht2|]. split; [done|]. left. split; [done|]. split; [congruence|].
      by eapply inserted_same.
    - rewrite (proj2 (Z.eqb_neq (it + 1) NULL)) by (destruct Hit; unfold NULL; lia). cbn [negb]. exists (- EEXIST), s1, N1. split; [done|]. do 3 (split; [done|]). right. left. split; [done|]. split; [|done].
      rewrite <- Ec. unfold contents. rewrite Eh, E0, !Z.eqb_refl, direct_to_ptr_direct by done. destruct Hit; lia. }
  rewrite first_shift_eq by lia. pose proof (pre_top (height (root s1)) i ltac:(lia) ltac:(lia)) as Htop.
  destruct (insert_loop_ok i Hi (Z.to_nat (height (root s1))) N1 s1 (6 * (height (root s1) - 1)) NULL 0 (rnode (root s1)) Hs1 Ht1 Htop) as (r & s2 & N2 & E2 & (Hs2 & Ht2 & Hsame2 & Eh2 & Eg2) & Hr); rewrite ?Z2Nat.id by lia; [lia| |lia|left; lia|].
  { intros _. split; [done|]. apply (top_node N1 [] s1 i Hs1); lia. }
  erewrite bind_run by exact E2. pose proof (same_tree_trans _ _ _ _ _ _ Hsame1 Hsame2) as Hsame. destruct r as [e|[[nd o] v]]; [subst e; exists (- ENOMEM), s2, N2; split; [done|]; do 2 (split; [done|]); split; [congruence|auto]|].
  destruct Hr as (Hnd & -> & ->). destruct (node_at_some _ _ _ _ _ _ Hs2 Hnd) as (n & Hn & Hat & Hok & _ & Hnd0). assert (contents N2 s2 i = contents N s i) as Ec2 by (by apply Hsame).
  destruct (Z.eqb_spec (contents N2 s2 i) NULL) as [E0|E0]; cbn [negb].
  2: { exists (- EEXIST), s2, N2. split; [done|]. do 2 (split; [done|]). split; [congruence|]. right. left. split; [done|]. split; [|done]. by rewrite <- Ec2. }
  rewrite (proj2 (Z.eqb_neq nd NULL)) by done. cbn [negb]. destruct (store_item_ok N2 s2 i item nd Hs2 Ht2 Hi Hg ltac:(lia) Hnd E0) as (s3 & E3 & Hs3 & Ht3 & Er3 & Hins). rewrite E3.
  exists 0, s3, N2. split; [done|]. do 2 (split; [done|]). split; [rewrite Er3; congruence|]. left. split; [done|]. split; [by rewrite <- Ec2|]. by eapply inserted_same.
Qed.

End RadixInsert.
