(* ===== verification/RadixAlloc.v ===== *)
(** * Radix trees: allocations

    How many nodes an insertion takes: [-ENOMEM] means that the slab had less. *)

From S2P Require Import Prelude Radix RadixNode RadixShape RadixOps RadixInsert.

Module RadixAlloc.
Import Radix RadixNode RadixShape RadixOps RadixInsert.

(** The slab has [k] nodes to give. *)
Definition ready (k : nat) (s : state) : Prop := (k <= length (supply s))%nat /\ Forall (.≠ NULL) (take k (supply s)).

Lemma ready_le k k' s : (k' <= k)%nat -> ready k s -> ready k' s.
Proof. intros Hle [H1 H2]. split; [lia|]. replace (take k' (supply s)) with (take k' (take k (supply s))) by (rewrite take_take; f_equal; lia). by apply Forall_take. Qed.

(** From a state with [k + j] nodes to give, [m] ends in one with [j], and its
    result is in [P]. *)
Definition needs {A} (k : nat) (m : M A) (P : A -> Prop) : Prop := forall j s r s', ready (k + j) s -> m s = Some (r, s') -> P r /\ ready j s'.

Lemma needs_bind {A B} k1 k2 (m : M A) (f : A -> M B) P Q : needs k1 m P -> (forall a, P a -> needs k2 (f a) Q) -> needs (k1 + k2) (a ← m; f a) Q.
Proof.
  intros Hm Hf j s r s' Hr E. unfold mbind, ST_bind in E. destruct (m s) as [[a s1]|] eqn:E1; [|done]. rewrite <- Nat.add_assoc in Hr. destruct (Hm _ _ _ _ Hr E1) as [HP Hr1]. by apply (Hf a HP j s1).
Qed.

Lemma needs_le {A} k k' (m : M A) P : (k <= k')%nat -> needs k m P -> needs k' m P.
Proof. intros Hle Hm j s r s' Hr E. apply (Hm j s r s'); [|done]. eapply ready_le; [|done]. lia. Qed.

Lemma needs_keep {A} (m : M A) : (forall s r s', m s = Some (r, s') -> supply s' = supply s) -> needs 0 m (fun _ => True).
Proof. intros Hm j s r s' Hr E. split; [done|]. unfold ready. by rewrite (Hm _ _ _ E). Qed.

Lemma needs_seq {A B} k (m : M A) (f : A -> M B) Q : needs 0 m (fun _ => True) -> (forall a, needs k (f a) Q) -> needs k (a ← m; f a) Q.
Proof. intros Hm Hf. apply (needs_bind 0 k m f (fun _ => True) Q Hm). auto. Qed.

Lemma needs_ret {A} (a : A) (P : A -> Prop) : P a -> needs 0 (mret a) P.
Proof. intros Ha j s r s' Hr E. unfold mret, ST_ret in E. injection E as <- <-. done. Qed.

Lemma needs_lift {A} (o : option A) : needs 0 (st_lift o) (fun _ => True).
Proof. apply needs_keep. intros s r s' E. unfold st_lift in E. destruct o; [|done]. by injection E as _ <-. Qed.

Lemma needs_ld a : needs 0 (ld a) (fun _ => True).
Proof. apply needs_keep. intros s r s' E. unfold ld in E. repeat case_match; try done. by injection E as _ <-. Qed.

Lemma needs_sto a n : needs 0 (sto a n) (fun _ => True).
Proof. apply needs_keep. intros s r s' E. unfold sto in E. repeat case_match; try done. by injection E as _ <-. Qed.

Lemma needs_ld_root : needs 0 ld_root (fun _ => True).
Proof. apply needs_keep. intros s r s' E. by injection E as _ <-. Qed.

Lemma needs_st_root r0 : needs 0 (st_root r0) (fun _ => True).
Proof. apply needs_keep. intros s r s' E. by injection E as _ <-. Qed.

Create HintDb radix_alloc.
#[export] Hint Resolve needs_lift needs_ld needs_sto needs_ld_root needs_st_root : radix_alloc.

Ltac needs_simple := repeat (apply needs_seq; [by auto with radix_alloc|intros ?]); auto with radix_alloc.

Lemma needs_ld_slot a i : needs 0 (ld_slot a i) (fun _ => True).
Proof. unfold ld_slot. needs_simple. Qed.
Lemma needs_st_slot a i v : needs 0 (st_slot a i v) (fun _ => True).
Proof. unfold st_slot. needs_simple. Qed.
Lemma needs_st_count a c : needs 0 (st_count a c) (fun _ => True).
Proof. unfold st_count. needs_simple. Qed.
Lemma needs_st_height a h : needs 0 (st_height a h) (fun _ => True).
Proof. unfold st_height. needs_simple. Qed.
Lemma needs_st_rnode v : needs 0 (st_rnode v) (fun _ => True).
Proof. unfold st_rnode. needs_simple. Qed.
Lemma needs_st_root_height h : needs 0 (st_root_height h) (fun _ => True).
Proof. unfold st_root_height. needs_simple. Qed.
Lemma needs_propagate a t : needs 0 (propagate_tag a t) (fun _ => True).
Proof. unfold propagate_tag. apply needs_seq; [apply needs_ld_root|]. intros r. case_match; [unfold tag_set; needs_simple|by apply needs_ret]. Qed.
#[export] Hint Resolve needs_ld_slot needs_st_slot needs_st_count needs_st_height needs_st_rnode needs_st_root_height needs_propagate : radix_alloc.

Lemma needs_cache_alloc : needs 1 kmem_cache_alloc (.≠ NULL).
Proof.
  intros j s a s' [Hl Hf] E. unfold kmem_cache_alloc in E. destruct (supply s) as [|b l] eqn:Es; [cbn in Hl; lia|]. cbn [Nat.add take] in Hf. apply Forall_cons in Hf as [Hb Hf]. injection E as <- <-. split; [done|].
  split; [cbn in *; lia|done].
Qed.

Lemma needs_node_alloc : needs 1 radix_tree_node_alloc (.≠ NULL).
Proof.
  unfold radix_tree_node_alloc. apply needs_seq; [apply needs_ld_root|]. intros r. apply (needs_bind 1 0 _ _ _ _ needs_cache_alloc). intros a Ha.
  rewrite (proj2 (Z.eqb_neq a NULL)) by done. cbn [andb]. apply (needs_bind 0 0 _ _ (.≠ NULL)); [by apply needs_ret|]. intros b Hb. apply needs_seq; [apply needs_lift|]. intros _. by apply needs_ret.
Qed.

Lemma needs_preload f : needs f (preload_loop f) (fun r => r = 0).
Proof.
  induction f as [|f IH]; cbn [preload_loop].
  - apply needs_seq; [apply needs_keep; intros s r s' E; by injection E as _ <-|]. intros nr. case_match; [intros j s r s' _ E; done|by apply needs_ret].
  - apply needs_seq; [apply needs_keep; intros s r s' E; by injection E as _ <-|]. intros nr. case_match; [|eapply (needs_le 0); [lia|by apply needs_ret]].
    apply (needs_bind 1 f _ _ _ _ needs_cache_alloc). intros a Ha0. rewrite (proj2 (Z.eqb_neq a NULL)) by done. apply needs_seq; [apply needs_keep; intros s r s' E; by injection E as _ <-|]. intros nr'.
    apply needs_seq; [apply needs_keep; intros s r s' E; case_match; by injection E as _ <-|]. intros _. exact IH.
Qed.

(** ** The insertion *)

Lemma needs_extend n : needs n (extend_loop n) (fun r => r = 0).
Proof.
  induction n as [|n IH]; cbn [extend_loop]; [by apply needs_ret|]. apply (needs_bind 1 n _ _ _ _ needs_node_alloc). intros a Ha. rewrite (proj2 (Z.eqb_neq a NULL)) by done. needs_simple.
Qed.

Lemma needs_add_child h node offset : needs 1 (add_child h node offset) (.≠ NULL).
Proof.
  unfold add_child. apply (needs_bind 1 0 _ _ _ _ needs_node_alloc). intros a Ha. rewrite (proj2 (Z.eqb_neq a NULL)) by done. apply needs_seq; [apply needs_st_height|]. intros _.
  apply needs_seq; [case_match; needs_simple|]. intros _. by apply needs_ret.
Qed.

(** A loop of [h] rounds that starts at a node takes at most one node less. *)
Lemma needs_insert_loop h : forall i shift node offset slot, needs (if slot =? NULL then h else pred h) (insert_loop h i shift node offset slot) (fun r => match r with inl _ => False | inr _ => True end).
Proof.
  induction h as [|h IH]; intros i shift node offset slot; cbn [insert_loop]; [case_match; by apply needs_ret|]. cbn [pred].
  assert (forall a, a <> NULL -> needs h (if a =? NULL then mret (inl (- ENOMEM)) else next ← ld_slot a (offset_of i shift); insert_loop h i (next_shift shift) a (offset_of i shift) next) (fun r => match r with inl _ => False | inr _ => True end)) as Hrest.
  { intros a Ha. rewrite (proj2 (Z.eqb_neq a NULL)) by done. apply needs_seq; [apply needs_ld_slot|]. intros b. eapply needs_le; [|apply IH]. case_match; lia. }
  destruct (Z.eqb_spec slot NULL) as [->|Hne]; [exact (needs_bind 1 h _ _ _ _ (needs_add_child _ _ _) Hrest)|]. apply (needs_bind 0 h _ _ (.≠ NULL)); [by apply needs_ret|exact Hrest].
Qed.

Lemma extend_enough N s i r s' : shape N [] s -> tags_ok N s -> 0 <= i < 2 ^ 32 -> Z.min (64 ^ height (root s)) (2 ^ 32) - 1 < i -> ready 11 s -> radix_tree_extend i s = Some (r, s') ->
  r = 0 /\ (ready 6 s' \/ ready 5 s' /\ rnode (root s') <> NULL).
Proof.
  intros Hs Ht Hi Hlt Hr. pose proof (sh_root _ _ _ Hs) as (Hh & _). assert (height (root s) <> 6) as H6 by (intros E; rewrite E in Hlt; change (64 ^ 6) with (2 ^ 36) in Hlt; lia).
  unfold radix_tree_extend. erewrite bind_run by reflexivity. destruct (extend_height_ok i s Hi (Z.to_nat RADIX_TREE_MAX_PATH) (height (root s) + 1)) as (h & E & Hh' & Hm); [lia|change (Z.to_nat RADIX_TREE_MAX_PATH) with 7%nat; lia|]. erewrite bind_run by exact E.
  destruct (Z.eqb_spec (rnode (root s)) NULL) as [E0|E0].
  - intros [= <- <-]. split; [done|]. left. eapply (ready_le 11); [lia|exact Hr].
  - intros El. destruct (extend_loop_ok (Z.to_nat (h - height (root s))) N s Hs Ht E0 ltac:(lia)) as (r0 & s0 & N0 & El0 & _ & Hres). rewrite El0 in El. injection El as -> ->.
    destruct (needs_extend (Z.to_nat (h - height (root s))) (11 - Z.to_nat (h - height (root s)))%nat s r s') as [-> Hr']; [eapply (ready_le 11); [lia|exact Hr]|done|]. split; [done|]. right. destruct Hres as [?|(_ & _ & ?)]; [done|].
    split; [|done]. eapply ready_le; [|exact Hr']. lia.
Qed.

Lemma insert_enough N s i item r s' : shape N [] s -> tags_ok N s -> 0 <= i < 2 ^ 32 -> good item -> ready 11 s -> radix_tree_insert i item s = Some (r, s') -> r <> - ENOMEM.
Proof.
  intros Hs Ht Hi Hg Hr. unfold radix_tree_insert. rewrite good_not_direct by done. erewrite bind_run by reflexivity. erewrite bind_run by reflexivity. pose proof (sh_root _ _ _ Hs) as (Hh & _).
  erewrite bind_run by (unfold st_lift; rewrite maxindex_eq by lia; reflexivity).
  assert (exists s1, (if Z.min (64 ^ height (root s)) (2 ^ 32) - 1 <? i then radix_tree_extend i else mret 0) s = Some (0, s1) /\ height (root s1) <= 6 /\ (ready 6 s1 \/ ready 5 s1 /\ rnode (root s1) <> NULL)) as (s1 & E1 & Hh1 & Hr1).
  { destruct (Z.ltb_spec (Z.min (64 ^ height (root s)) (2 ^ 32) - 1) i) as [Hlt|Hge]; [|exists s; split; [done|]; split; [lia|]; left; eapply (ready_le 11); [lia|done]].
    destruct (radix_tree_extend_ok N s i Hs Ht Hi Hlt) as (r0 & s1 & N1 & E & (Hs1 & _) & _). destruct (extend_enough N s i r0 s1 Hs Ht Hi Hlt Hr E) as [-> Hr1]. exists s1. split; [done|]. split; [apply (sh_root _ _ _ Hs1)|done]. }
  erewrite bind_run by exact E1. cbn [Z.eqb negb]. erewrite bind_run by reflexivity. intros E. unfold mbind at 1, ST_bind at 1 in E. destruct (insert_loop _ _ _ _ _ _ s1) as [[p s2]|] eqn:El; [|done].
  destruct (needs_insert_loop (Z.to_nat (height (root s1))) i (first_shift (height (root s1))) NULL 0 (rnode (root s1)) O s1 p s2) as [Hp _]; [rewrite Nat.add_0_r| exact El|].
  { destruct (Z.eqb_spec (rnode (root s1)) NULL) as [E0|E0]; destruct Hr1 as [Hr1|[Hr1 H1]]; try done; (eapply ready_le; [|exact Hr1]; lia). }
  destruct p as [e|[[nd o] v]]; [done|]. intros ->. unfold mbind, ST_bind, mret, ST_ret, st_lift in E. repeat case_match; try done; naive_solver.
Qed.

End RadixAlloc.
