(* ===== verification/RadixTags.v ===== *)
(** * Radix trees: tags

    A tag of an item goes with the bits of its slots on the way up to the root. *)

From S2P Require Import Prelude Radix RadixNode RadixShape RadixOps RadixInsert.

Module RadixTags.
Import Radix RadixNode RadixShape RadixOps RadixInsert.

(** ** The root *)

Lemma root_tag_testbit r t : 0 <= t < 2 -> root_tag_get r t = Z.testbit (gfp_mask r) (t + 20).
Proof.
  intros Ht. unfold root_tag_get, root_tag_bit, __GFP_BITS_SHIFT. destruct (Z.testbit (gfp_mask r) (t + 20)) eqn:E.
  - apply negb_true_iff, Z.eqb_neq. intros H0. assert (Z.testbit (Z.land (gfp_mask r) (Z.shiftl 1 (t + 20))) (t + 20) = true) as Hb by (rewrite Z.land_spec, E, Z.shiftl_spec, Z.sub_diag by lia; done).
    rewrite H0, Z.bits_0 in Hb. done.
  - apply negb_false_iff, Z.eqb_eq, Z.bits_inj'. intros m Hm. rewrite Z.land_spec, Z.bits_0, Z.shiftl_spec by done. destruct (Z.eq_dec m (t + 20)) as [->|Hne]; [by rewrite E|].
    destruct (Z.lt_ge_cases m (t + 20)); [rewrite (Z.testbit_neg_r 1) by lia; apply andb_false_r|rewrite (testbit_high 1 1) by lia; apply andb_false_r].
Qed.

(** Another value [b] of the tag [t] in the root. *)
Definition root_tagged (r : radix_tree_root) (t : Z) (b : bool) (r' : radix_tree_root) : Prop :=
  height r' = height r /\ rnode r' = rnode r /\ is_u32 (gfp_mask r') /\ root_gfp_mask r' = root_gfp_mask r /\
  forall t', 0 <= t' < 2 -> root_tag_get r' t' = if decide (t' = t) then b else root_tag_get r t'.

Lemma gfp_low g g' : (forall m, 0 <= m < 20 -> Z.testbit g' m = Z.testbit g m) -> Z.land g' __GFP_BITS_MASK = Z.land g __GFP_BITS_MASK.
Proof.
  intros H. apply Z.bits_inj'. intros m Hm. rewrite !Z.land_spec. destruct (Z.lt_ge_cases m 20) as [Hlt|Hge]; [by rewrite H|]. by rewrite (testbit_high __GFP_BITS_MASK 20), !andb_false_r by (done || lia).
Qed.

Lemma root_tag_set_run t s : 0 <= t < 2 -> is_u32 (gfp_mask (root s)) -> exists r, root_tag_set t s = Some (tt, with_root r s) /\ root_tagged (root s) t true r.
Proof.
  intros Ht Hg. eexists. split; [reflexivity|]. unfold root_tag_bit, __GFP_BITS_SHIFT. split; [done|]. split; [done|]. split; [apply lor_bit_u32; [done|lia]|]. split.
  - apply gfp_low. intros m Hm. cbn [gfp_mask]. rewrite set_bit_spec by lia. by rewrite (proj2 (Z.eqb_neq m (t + 20))) by lia.
  - intros t' Ht'. rewrite !root_tag_testbit by done. cbn [gfp_mask]. rewrite set_bit_spec by lia. case_decide as E; [by rewrite E, Z.eqb_refl|]. by rewrite (proj2 (Z.eqb_neq (t' + 20) (t + 20))) by lia.
Qed.

Lemma root_tag_clear_run t s : 0 <= t < 2 -> is_u32 (gfp_mask (root s)) -> exists r, root_tag_clear t s = Some (tt, with_root r s) /\ root_tagged (root s) t false r.
Proof.
  intros Ht Hg. eexists. split; [reflexivity|]. unfold root_tag_bit, __GFP_BITS_SHIFT. split; [done|]. split; [done|]. split; [by apply land_u32|]. split.
  - apply gfp_low. intros m Hm. cbn [gfp_mask]. rewrite clear_bit_spec by (done || lia). by rewrite (proj2 (Z.eqb_neq m (t + 20))) by lia.
  - intros t' Ht'. rewrite !root_tag_testbit by done. cbn [gfp_mask]. rewrite clear_bit_spec by (done || lia). case_decide as E; [by rewrite E, Z.eqb_refl|]. by rewrite (proj2 (Z.eqb_neq (t' + 20) (t + 20))) by lia.
Qed.

Lemma root_tag_clear_all_run s : is_u32 (gfp_mask (root s)) -> exists r, root_tag_clear_all s = Some (tt, with_root r s) /\ height r = height (root s) /\ rnode r = rnode (root s) /\ is_u32 (gfp_mask r) /\
  root_gfp_mask r = root_gfp_mask (root s) /\ forall t, 0 <= t < 2 -> root_tag_get r t = false.
Proof.
  intros Hg. eexists. split; [reflexivity|]. split; [done|]. split; [done|]. split; [exact (land_u32 (gfp_mask (root s)) __GFP_BITS_MASK Hg)|]. split.
  - apply gfp_low. intros m Hm. cbn [gfp_mask]. rewrite Z.land_spec. change __GFP_BITS_MASK with (Z.ones 20). rewrite Z.ones_spec_low by done. apply andb_true_r.
  - intros t Ht. rewrite root_tag_testbit by done. cbn [gfp_mask]. rewrite Z.land_spec, (testbit_high __GFP_BITS_MASK 20) by (done || lia). apply andb_false_r.
Qed.

(** ** One bit of one node *)

(** A tag in a node depends on the bits of this tag only. *)
Lemma any_tag_ext m m' t' : tags_shape m -> tags_shape m' -> 0 <= t' < 2 -> (forall k', 0 <= k' < 64 -> tagb m' t' k' = tagb m t' k') -> any_tag m' t' = any_tag m t'.
Proof.
  intros H1 H2 Ht He. apply eq_true_iff_eq. rewrite !any_tag_spec by done. split; intros (k' & Hk' & Hb'); exists k'; (split; [done|]); [by rewrite <- He|by rewrite He].
Qed.

Section TagStep.
Context (N : labels) (own : list Z) (s : state) (l p a t k : Z) (b : bool) (n n' : radix_tree_node).
Hypothesis Hs : shape N own s.
Hypothesis Ha : N !! (l, p) = Some a.
Hypothesis Hn : heap s !! a = Some n.
Hypothesis Hk : 0 <= k < 64.
Hypothesis Hc : tag_changed n t k b n'.
Hypothesis Hb : b = true -> slotv n k <> 0.

Lemma step_node_ok : node_ok N l p n.
Proof. destruct (sh_nodes _ _ _ Hs _ _ _ Ha) as (n0 & Hn0 & Hok). congruence. Qed.

Lemma step_slotv k' : slotv n' k' = slotv n k'.
Proof. unfold slotv. by rewrite (tc_slots _ _ _ _ _ Hc). Qed.

Lemma step_shape : shape N own (upd a n' s).
Proof.
  apply (shape_upd N own s l p); [done|done|]. destruct step_node_ok as [K1 K2 K3 K4 K5 K6 K7 K8]. pose proof Hc as [C1 C2 C3 C4 C5].
  split; [congruence|congruence|done|congruence| | | |]; try (intros; rewrite ?step_slotv; auto; fail).
  - intros k' Hk'. rewrite step_slotv. by apply K7.
  - intros t' k' Ht' Hk'. rewrite step_slotv, C5 by done. case_decide as E; [destruct E as [_ ->]; done|by apply K8].
Qed.

Lemma step_at l' p' : node_at N (upd a n' s) l' p' = if decide (l' = l /\ p' = p) then Some n' else node_at N s l' p'.
Proof.
  unfold node_at. case_decide as E; [destruct E as [-> ->]; rewrite Ha; cbn [mbind option_bind]; apply lookup_insert_eq|]. destruct (N !! (l', p')) as [c|] eqn:Ec; [|done]. cbn [mbind option_bind heap upd].
  rewrite lookup_insert_ne; [done|]. intros <-. pose proof (lo_inj _ _ (sh_labels _ _ _ Hs) _ _ _ Ha Ec) as [= <- <-]. tauto.
Qed.

Lemma step_old : node_at N s l p = Some n.
Proof. unfold node_at. rewrite Ha. done. Qed.

Lemma step_any t' l' p' : 0 <= t' < 2 -> t' <> t \/ l' <> l \/ p' <> p -> node_any N (upd a n' s) t' l' p' = node_any N s t' l' p'.
Proof.
  intros Ht Hne. unfold node_any. rewrite step_at. case_decide as E; [|done]. destruct E as [E1 E2]. rewrite E1, E2, step_old. apply any_tag_ext; [apply step_node_ok|apply Hc|done|].
  intros k' Hk'. rewrite (tc_tagb _ _ _ _ _ Hc), decide_False by (done || lia). done.
Qed.

Lemma step_any_here : node_any N (upd a n' s) t l p = any_tag n' t.
Proof. unfold node_any. by rewrite step_at, decide_True. Qed.

Lemma step_tagv t' l' p' k' : 0 <= t' < 2 -> 0 <= k' < 64 -> tagv N (upd a n' s) l' p' t' k' = if decide (t' = t /\ l' = l /\ p' = p /\ k' = k) then b else tagv N s l' p' t' k'.
Proof.
  intros Ht Hk'. unfold tagv. rewrite step_at. destruct (decide (l' = l /\ p' = p)) as [[-> ->]|E]; [|rewrite (decide_False (P := _ /\ _ /\ _ /\ _)) by tauto; done].
  rewrite (tc_tagb _ _ _ _ _ Hc), step_old by done. repeat case_decide; (done || tauto).
Qed.

Lemma step_up t' l' p' : 0 <= t' < 2 -> l <= height (root s) -> up_tag N (upd a n' s) t' l' p' = if decide (t' = t /\ l' + 1 = l /\ p' = 64 * p + k) then b else up_tag N s t' l' p'.
Proof.
  intros Ht Hl. pose proof (Z.mod_pos_bound p' 64 ltac:(done)) as Hm. pose proof (Z.div_mod p' 64 ltac:(done)) as Hdm.
  unfold up_tag. change (root (upd a n' s)) with (root s). destruct (Z.eqb_spec l' (height (root s))) as [->|Hne]; [rewrite decide_False by lia; done|].
  pose proof (step_tagv t' (l' + 1) (p' / 64) (p' mod 64) Ht Hm) as E. unfold tagv in E. rewrite E. repeat case_decide; try done; exfalso; lia.
Qed.

Lemma step_contents i : contents N (upd a n' s) i = contents N s i.
Proof.
  unfold contents. change (root (upd a n' s)) with (root s). case_match; [done|]. rewrite step_at. case_decide as E; [|done]. destruct E as [E1 E2]. rewrite E1, E2, step_old. apply step_slotv.
Qed.

Lemma step_tagged t' i : 0 <= t' < 2 -> tagged N (upd a n' s) t' i = if decide (1 <= height (root s) /\ t' = t /\ l = 1 /\ i = 64 * p + k) then b else tagged N s t' i.
Proof.
  intros Ht. pose proof (sh_root _ _ _ Hs) as (Hh & _). destruct (Z.eq_dec (height (root s)) 0) as [E|E].
  - rewrite decide_False by lia. unfold tagged. change (root (upd a n' s)) with (root s). by rewrite E.
  - unfold tagged. change (root (upd a n' s)) with (root s). rewrite (proj2 (Z.eqb_neq _ 0)) by done. pose proof (Z.mod_pos_bound i 64 ltac:(done)) as Hm. pose proof (Z.div_mod i 64 ltac:(done)) as Hdm.
    pose proof (step_tagv t' 1 (i / 64) (i mod 64) Ht Hm) as Ev. unfold tagv in Ev. rewrite Ev. repeat case_decide; try done; exfalso; lia.
Qed.

End TagStep.

(** ** One bit of the root *)

(** The bits agree but for the tag [t] of the nodes on the way to [i] at the levels
    of [B]. *)
Definition tags_but (N : labels) (s : state) (i t : Z) (B : Z -> Prop) : Prop :=
  (forall t', 0 <= t' < 2 -> height (root s) = 0 -> rnode (root s) = 0 -> root_tag_get (root s) t' = false) /\
  forall t' l p, 0 <= t' < 2 -> 1 <= l <= height (root s) -> 0 <= p -> (l = height (root s) -> p = 0) -> ~ (t' = t /\ p = pre l i /\ B l) -> up_tag N s t' l p = node_any N s t' l p.

Section RootStep.
Context (N : labels) (own : list Z) (s : state) (t : Z) (b : bool) (r : radix_tree_root).
Hypothesis Hs : shape N own s.
Hypothesis Hr : root_tagged (root s) t b r.

Lemma root_step_shape : shape N own (with_root r s).
Proof.
  destruct Hs as [HL (R1 & R2 & R3 & R4) HN HP], Hr as (E1 & E2 & E3 & _). split; [cbn [root with_root]; by rewrite E1| |done|by apply pool_root]. cbn [root with_root]. unfold root_ok. rewrite E1, E2. done.
Qed.

Lemma root_step_up t' l p : 0 <= t' < 2 -> up_tag N (with_root r s) t' l p = if decide (l = height (root s) /\ t' = t) then b else up_tag N s t' l p.
Proof.
  intros Ht. destruct Hr as (E1 & _ & _ & _ & E5). unfold up_tag. cbn [root with_root]. rewrite E1. destruct (Z.eqb_spec l (height (root s))) as [->|Hne]; [rewrite E5 by done; repeat case_decide; (done || tauto)|]. rewrite decide_False by tauto. done.
Qed.

Lemma root_step_contents i : contents N (with_root r s) i = contents N s i.
Proof. destruct Hr as (E1 & E2 & _). unfold contents. cbn [root with_root]. rewrite E1, E2. done. Qed.

Lemma root_step_tagged t' i : 0 <= t' < 2 -> tagged N (with_root r s) t' i = if decide (height (root s) = 0 /\ rnode (root s) <> 0 /\ t' = t /\ i = 0) then b else tagged N s t' i.
Proof.
  intros Ht. destruct Hr as (E1 & E2 & _ & _ & E5). unfold tagged. cbn [root with_root]. rewrite E1, E2, E5 by done. destruct (Z.eqb_spec (height (root s)) 0) as [E|E]; [|rewrite (decide_False (P := _ /\ _ /\ _)) by tauto; done].
  destruct (Z.eqb_spec i 0), (Z.eqb_spec (rnode (root s)) 0); cbn [andb negb]; repeat case_decide; (done || tauto).
Qed.

Lemma root_step_tags i : tags_but N s i t (fun l => l = height (root s)) -> (height (root s) = 0 -> rnode (root s) = 0 -> b = false) ->
  (1 <= height (root s) -> pre (height (root s)) i = 0 /\ node_any N s t (height (root s)) 0 = b) -> tags_ok N (with_root r s).
Proof.
  intros [B0 B1] Hz Htop t' Ht'. pose proof Hr as (E1 & E2 & _ & _ & E5). split.
  - cbn [root with_root]. rewrite E1, E2. intros H0 H1. rewrite E5 by done. case_decide; [auto|by apply B0].
  - cbn [root with_root]. rewrite E1. intros l p Hl Hp Hp0. rewrite root_step_up by done. change (node_any N (with_root r s)) with (node_any N s). destruct Htop as [Hp1 Hany]; [lia|]. case_decide as E.
    + destruct E as [-> ->]. by rewrite Hp0.
    + apply B1; try done. intros (-> & _ & ->). tauto.
Qed.

End RootStep.

Lemma root_tagged_id s t : 0 <= t < 2 -> is_u32 (gfp_mask (root s)) -> root_tagged (root s) t (root_tag_get (root s) t) (root s) /\ with_root (root s) s = s.
Proof. intros Ht Hg. split; [|by destruct s]. do 4 (split; [done|]). intros t' Ht'. case_decide as E; [by rewrite E|done]. Qed.

(** ** The way to an item *)

Lemma tags_but_none N s i t B : (forall l, 1 <= l <= height (root s) -> ~ B l) -> tags_but N s i t B -> tags_ok N s.
Proof. intros HB [H0 H1] t' Ht'. split; [by apply H0|]. intros l p Hl Hp Hp0. apply H1; try done. intros (_ & _ & HBl). by apply (HB l). Qed.

Lemma tags_but_all N s i t B : tags_ok N s -> tags_but N s i t B.
Proof. intros Hok. split; [intros t' Ht'; apply (Hok t' Ht')|intros t' l p Ht' ? ? ? _; by apply (Hok t' Ht')]. Qed.

Section Path.
Context (N : labels) (own : list Z) (s : state) (i : Z).
Hypothesis Hs : shape N own s.
Hypothesis Hi : 0 <= i < 2 ^ 32.
Hypothesis Hc : contents N s i <> 0.

Lemma path_exists l : 1 <= l <= height (root s) -> is_Some (N !! (l, pre l i)).
Proof.
  intros Hl. destruct (N !! (l, pre l i)) as [a|] eqn:E; [by eexists|]. destruct Hc. rewrite contents_leaf by lia. unfold node_at. by rewrite (no_descendant N _ i 1 l (sh_labels _ _ _ Hs)) by (done || lia).
Qed.

Lemma path_slot l a n : 1 <= l <= height (root s) -> N !! (l, pre l i) = Some a -> heap s !! a = Some n ->
  slotv n (off l i) <> 0 /\ (l = 1 -> slotv n (off l i) = contents N s i) /\ (2 <= l -> N !! (l - 1, pre (l - 1) i) = Some (slotv n (off l i))).
Proof.
  intros Hl Ha Hn. destruct (node_at_some _ _ _ _ _ _ Hs Ha) as (n0 & Hn0 & Hat & Hok & _). rewrite Hn in Hn0. injection Hn0 as <-.
  destruct (Z.eq_dec l 1) as [->|Hne]; [assert (slotv n (off 1 i) = contents N s i) as -> by (rewrite contents_leaf, Hat by lia; done); split; [done|]; split; [done|lia]|].
  destruct (path_exists (l - 1) ltac:(lia)) as [b Hb]. pose proof (child_node N l i n Hok ltac:(lia)) as E. rewrite Hb in E. cbn [from_option id] in E. rewrite E.
  destruct (node_at_some _ _ _ _ _ _ Hs Hb) as (_ & _ & _ & _ & _ & Hb0). split; [done|]. split; [lia|done].
Qed.

Lemma path_top : 1 <= height (root s) -> pre (height (root s)) i = 0.
Proof. intros Hh. destruct (path_exists (height (root s)) ltac:(lia)) as [a Ha]. by apply (lo_level _ _ (sh_labels _ _ _ Hs) _ _ _ Ha). Qed.

(** The index is within the height, so the guards pass. *)
Lemma path_guard : (Z.min (64 ^ height (root s)) (2 ^ 32) - 1 <? i) = false.
Proof. apply Z.ltb_ge. destruct (Z.le_gt_cases i (Z.min (64 ^ height (root s)) (2 ^ 32) - 1)) as [?|Hgt]; [done|]. destruct Hc. apply (beyond N own s i Hs); lia. Qed.

End Path.

Lemma tag_ensure_run s a n t k : a <> NULL -> heap s !! a = Some n -> length (slots n) = 64%nat -> tags_shape n -> 0 <= t < 2 -> 0 <= k < 64 ->
  exists n', (if negb (tagb n t k) then tag_set a t k else mret tt : M unit) s = Some (tt, upd a n' s) /\ tag_changed n t k true n'.
Proof.
  intros Ha Hn Hl Hsh Ht Hk. destruct (tagb n t k) eqn:Eb; cbn [negb]; [|by apply (tag_set_run s a n)]. exists n. rewrite node_upd_id by done. split; [done|].
  split; try done. intros t' k' _ _. case_decide as E; [destruct E as [-> ->]; done|done].
Qed.

(** ** Setting a tag *)

Lemma tag_set_loop_ok N i t : 0 <= i < 2 ^ 32 -> 0 <= t < 2 -> forall h s shift slot, shape N [] s -> contents N s i <> 0 -> Z.of_nat h <= height (root s) -> 1 <= height (root s) ->
  ((1 <= h)%nat -> shift = 6 * (Z.of_nat h - 1) /\ N !! (Z.of_nat h, pre (Z.of_nat h) i) = Some slot) -> (h = O -> slot = contents N s i) ->
  tags_but N s i t (fun l => l = height (root s) \/ l = Z.of_nat h) ->
  (Z.of_nat h < height (root s) -> node_any N s t (height (root s)) 0 = true /\ (1 <= Z.of_nat h -> up_tag N s t (Z.of_nat h) (pre (Z.of_nat h) i) = true)) ->
  exists s', tag_set_loop h i t shift slot s = Some (contents N s i, s') /\ shape N [] s' /\ root s' = root s /\ tags_but N s' i t (fun l => l = height (root s)) /\ node_any N s' t (height (root s)) 0 = true /\
    (forall j, contents N s' j = contents N s j) /\ (forall t' j, 0 <= t' < 2 -> tagged N s' t' j = if decide ((1 <= h)%nat /\ t' = t /\ j = i) then true else tagged N s t' j).
Proof.
  intros Hi Ht. induction h as [|h IH]; intros s shift slot Hs Hc Hle HH H1 H0 Hbut Hup.
  { exists s. rewrite (H0 eq_refl). split; [done|]. split; [done|]. split; [done|]. split; [|split; [apply Hup; lia|]; split; [done|]; intros; by rewrite decide_False by lia].
    destruct Hbut as [B0 B1]. split; [done|]. intros t' l p Ht' Hl Hp Hp0 Hno. apply B1; try done. intros (? & ? & [?|?]); [by apply Hno|lia]. }
  destruct (H1 ltac:(lia)) as [-> Ha]. clear H1 H0. pose proof (sh_root _ _ _ Hs) as (Hh6 & _). cbn [tag_set_loop]. rewrite offset_of_off by lia. set (l := Z.of_nat (S h)) in *. pose proof (off_range l i) as Ho.
  destruct (node_at_some _ _ _ _ _ _ Hs Ha) as (n & Hn & Hat & Hok & _ & Ha0). erewrite bind_run by (apply tag_get_run; [exact Ha0|exact Hn|apply Hok|apply Hok|done|done]).
  destruct (tag_ensure_run s slot n t (off l i) Ha0 Hn (no_len _ _ _ _ Hok) (no_tags _ _ _ _ Hok) Ht Ho) as (n' & E & Hch). erewrite bind_run by exact E. clear E.
  destruct (path_slot N [] s i Hs Hi Hc l slot n ltac:(lia) Ha Hn) as (Hs0 & Hs1 & Hs2). pose proof (step_shape N [] s l _ slot t _ true n n' Hs Ha Hn Hch ltac:(done)) as Hs'.
  erewrite bind_run by (apply (ld_slot_run _ _ n'); [done|apply lookup_insert_eq|rewrite (tc_slots _ _ _ _ _ Hch); apply Hok|done]). rewrite (step_slotv t _ true n n' Hch).
  rewrite (proj2 (Z.eqb_neq _ NULL)) by done. erewrite bind_run by reflexivity. set (s1 := upd slot n' s) in *. assert (forall j, contents N s1 j = contents N s j) as Hcs by (intros j; by eapply step_contents).
  assert (any_tag n' t = true) as Hany by (apply any_tag_spec; [apply Hch|done|]; exists (off l i); split; [done|]; rewrite (tc_tagb _ _ _ _ _ Hch), decide_True by done; done).
  destruct (IH s1 (next_shift (6 * (l - 1))) (slotv n (off l i)) Hs') as (s' & E & Hsh & Er & Hb & Htop & Hcc & Htg).
  - by rewrite Hcs.
  - change (root s1) with (root s). lia.
  - done.
  - intros Hh. split; [apply next_shift_down; lia|]. replace (Z.of_nat h) with (l - 1) by lia. apply Hs2. lia.
  - intros ->. rewrite Hcs. by apply Hs1.
  - clear IH. destruct Hbut as [B0 B1]. split; [exact B0|]. intros t' l0 p Ht' Hl0 Hp Hp0 Hno. unfold s1. rewrite (step_up N [] s l (pre l i) slot t (off l i) true n n') by (done || lia). case_decide as E1.
    + destruct Hno. rewrite <- (pre_split l) in E1 by lia. destruct E1 as (-> & E1 & ->). split; [done|]. replace l0 with (l - 1) by lia. split; [done|]. right. lia.
    + destruct (decide (t' = t /\ l0 = l /\ p = pre l i)) as [(-> & -> & ->)|E2].
      * rewrite (step_any_here N [] s l (pre l i) slot t (off l i) n' Hs Ha), Hany by done. apply Hup; [|lia]. destruct (Z.eq_dec l (height (root s))) as [El|]; [|lia]. destruct Hno. auto.
      * rewrite (step_any N [] s l (pre l i) slot t (off l i) true n n') by (done || lia). apply B1; try done. intros (-> & -> & [?| ->]); [apply Hno; auto|by apply E2].
  - change (root s1) with (root s). intros _. split.
    + destruct (Z.eq_dec l (height (root s))) as [El|Hne]; [|unfold s1; rewrite (step_any N [] s l (pre l i) slot t (off l i) true n n') by (done || lia); apply Hup; lia].
      assert (pre l i = 0) as Ep by (by apply (lo_level _ _ (sh_labels _ _ _ Hs) _ _ _ Ha)). rewrite <- Ep, <- El. unfold s1. by rewrite (step_any_here N [] s l (pre l i) slot t (off l i) n' Hs Ha) by done.
    + intros Hh. unfold s1. rewrite (step_up N [] s l (pre l i) slot t (off l i) true n n') by (done || lia). rewrite decide_True; [done|]. split; [done|]. split; [lia|]. rewrite <- (pre_split l) by lia. f_equal. lia.
  - clear IH. exists s'. rewrite E, Hcs. split; [done|]. split; [done|]. split; [done|]. split; [done|]. split; [done|]. split; [intros j; by rewrite Hcc|]. intros t' j Ht'. rewrite Htg by done. unfold s1. rewrite (step_tagged N [] s l (pre l i) slot t (off l i) true n n') by done.
    assert (l = 1 -> pre (l - 1) i = i) as Hp1 by (intros ->; apply pre_0). rewrite <- (pre_split l) by lia. destruct (decide (t' = t /\ j = i)) as [[-> ->]|Hno]; [rewrite (decide_True (P := (1 <= S h)%nat /\ _)) by (split; [lia|done])|repeat case_decide; try done; exfalso; lia].
    destruct (decide ((1 <= h)%nat /\ t = t /\ i = i)); [done|]. rewrite decide_True; [done|]. assert (h = O) as -> by lia. split; [lia|]. split; [done|]. split; [done|]. by rewrite Hp1.
Qed.

(** The result is the item, with its low bit set if it is in the root. *)
Definition entry (s : state) (v : Z) : Z := if height (root s) =? 0 then v + 1 else v.

Definition retagged (N : labels) (s : state) (t i : Z) (b : bool) (s' : state) : Prop :=
  (forall j, contents N s' j = contents N s j) /\ (forall t' j, 0 <= t' < 2 -> 0 <= j < 2 ^ 32 -> tagged N s' t' j = if decide (t' = t /\ j = i) then b else tagged N s t' j).

Lemma root_entry N own s i : shape N own s -> contents N s i <> 0 -> height (root s) = 0 -> i = 0 /\ rnode (root s) = contents N s i + 1.
Proof.
  intros Hs Hc E. destruct (sh_root _ _ _ Hs) as (_ & _ & Hz & _). unfold contents in *. rewrite E in *. cbn [Z.eqb] in *. destruct (Z.eqb_spec i 0); [|done]. split; [done|].
  destruct (Hz eq_refl) as [_ [E0|(item & Hg & ->)]]; [rewrite E0 in Hc; done|by rewrite direct_to_ptr_direct].
Qed.

Lemma radix_tree_tag_set_ok N s i t : shape N [] s -> tags_ok N s -> 0 <= i < 2 ^ 32 -> 0 <= t < 2 -> contents N s i <> 0 ->
  exists s', radix_tree_tag_set i t s = Some (entry s (contents N s i), s') /\ shape N [] s' /\ tags_ok N s' /\ root_gfp_mask (root s') = root_gfp_mask (root s) /\ retagged N s t i true s'.
Proof.
  intros Hs Htags Hi Ht Hc. unfold radix_tree_tag_set. erewrite bind_run by reflexivity. pose proof (sh_root _ _ _ Hs) as (Hh & Hg & _). erewrite bind_run by (unfold st_lift; rewrite maxindex_eq by lia; reflexivity).
  rewrite (path_guard N [] s i Hs Hi Hc). erewrite bind_run by reflexivity.
  assert (exists s1, tag_set_loop (Z.to_nat (height (root s))) i t (first_shift (height (root s))) (rnode (root s)) s = Some (entry s (contents N s i), s1) /\ shape N [] s1 /\ root s1 = root s /\
    tags_but N s1 i t (fun l => l = height (root s)) /\ (1 <= height (root s) -> node_any N s1 t (height (root s)) 0 = true) /\ (forall j, contents N s1 j = contents N s j) /\
    (forall t' j, 0 <= t' < 2 -> tagged N s1 t' j = if decide (1 <= height (root s) /\ t' = t /\ j = i) then true else tagged N s t' j)) as (s1 & E & Hs1 & Er & Hb & Htop & Hcs & Htg).
  { unfold entry. destruct (Z.eqb_spec (height (root s)) 0) as [E|E].
    - exists s. destruct (root_entry N [] s i Hs Hc E) as [_ <-]. rewrite E. split; [done|]. do 2 (split; [done|]). split; [by apply tags_but_all|]. split; [lia|]. split; [done|]. intros t' j _. by rewrite decide_False by lia.
    - rewrite first_shift_eq by lia. destruct (path_exists N [] s i Hs Hi Hc (height (root s)) ltac:(lia)) as [a Ha].
      destruct (tag_set_loop_ok N i t Hi Ht (Z.to_nat (height (root s))) s (6 * (height (root s) - 1)) (rnode (root s)) Hs Hc) as (s1 & E1 & H1 & H2 & H3 & H4 & H5 & H6); rewrite ?Z2Nat.id in * by lia; try lia.
      + intros _. split; [done|]. rewrite Ha. f_equal. rewrite (path_top N [] s i Hs Hi Hc) in Ha by lia. destruct (sh_root _ _ _ Hs) as (_ & _ & _ & Hr). rewrite Hr, Ha by lia. done.
      + by apply tags_but_all.
      + exists s1. split; [done|]. do 2 (split; [done|]). split; [done|]. split; [done|]. split; [done|]. intros t' j Ht'. rewrite H6 by done. repeat case_decide; try done; exfalso; lia. }
  erewrite bind_run by exact E. erewrite bind_run by reflexivity. rewrite (proj2 (Z.eqb_neq _ NULL)). 2: { unfold entry, NULL. case_match; [|done]. destruct (root_entry N [] s i Hs Hc ltac:(lia)) as [_ <-]. intros E0. destruct Hc. unfold contents. rewrite E0. repeat case_match; try lia; done. }
  cbn [negb andb]. assert (exists r, (if negb (root_tag_get (root s1) t) then root_tag_set t else mret tt) s1 = Some (tt, with_root r s1) /\ root_tagged (root s1) t true r) as (r & E2 & Hr).
  { destruct (root_tagged_id s1 t Ht ltac:(by rewrite Er)) as [Hid Hw]. destruct (root_tag_get (root s1) t) eqn:Eb; cbn [negb]; [exists (root s1); by rewrite Hw|]. apply root_tag_set_run; [done|by rewrite Er]. }
  erewrite bind_run by exact E2. exists (with_root r s1). split; [done|]. split; [by eapply root_step_shape|]. split; [|split].
  - eapply (root_step_tags N s1 t true r Hr i); rewrite Er; [done| |].
    + intros E0 E1. destruct Hc. unfold contents. rewrite E0, E1. by destruct (i =? 0).
    + intros H1. split; [by apply (path_top N [] s i Hs Hi Hc)|auto].
  - cbn [root with_root]. destruct Hr as (_ & _ & _ & -> & _). by rewrite Er.
  - split; [intros j; by rewrite (root_step_contents N s1 t true r Hr)|]. intros t' j Ht' Hj. rewrite (root_step_tagged N s1 t true r Hr) by done. rewrite Htg, Er by done.
    destruct (decide (t' = t /\ j = i)) as [[-> ->]|Hno]; [|repeat case_decide; try done; exfalso; destruct (root_entry N [] s i Hs Hc ltac:(lia)); lia].
    destruct (Z.eq_dec (height (root s)) 0) as [E0|E0]; [|rewrite (decide_True (P := 1 <= _ /\ _)) by lia; by destruct (decide _)].
    destruct (root_entry N [] s i Hs Hc E0) as [-> Hre]. rewrite decide_True; [done|]. split; [done|]. split; [|done]. rewrite Hre. intros E1. destruct Hc. unfold contents. rewrite E0, Hre, E1. done.
Qed.

(** ** Going down *)

(** The nodes on the way to [i], from the level [l] up to the level [H]. *)
Fixpoint path_ok (N : labels) (i H l : Z) (path : list (Z * Z)) : Prop :=
  match path with
  | [] => l = H + 1
  | (a, k) :: path => l <= H /\ N !! (l, pre l i) = Some a /\ k = off l i /\ path_ok N i H (l + 1) path
  end.

Lemma descend_ok N own s i : shape N own s -> 0 <= i < 2 ^ 32 -> forall h shift slot path, Z.of_nat h <= height (root s) -> 1 <= height (root s) ->
  ((1 <= h)%nat -> shift = 6 * (Z.of_nat h - 1) /\ slot = default 0 (N !! (Z.of_nat h, pre (Z.of_nat h) i))) -> (h = O -> slot = contents N s i) -> path_ok N i (height (root s)) (Z.of_nat h + 1) path ->
  exists o, descend h i shift slot path s = Some (o, s) /\ match o with None => contents N s i = 0 | Some (path, v) => path_ok N i (height (root s)) 1 path /\ v = contents N s i end.
Proof.
  intros Hs Hi. pose proof (sh_root _ _ _ Hs) as (Hh6 & _). induction h as [|h IH]; intros shift slot path Hle HH H1 H0 Hp.
  { exists (Some (path, slot)). split; [done|]. split; [done|]. by apply H0. }
  destruct (H1 ltac:(lia)) as [-> Hslot]. cbn [descend]. set (l := Z.of_nat (S h)) in *. destruct (N !! (l, pre l i)) as [a|] eqn:Ea; cbn [from_option id] in Hslot; subst slot.
  - destruct (node_at_some _ _ _ _ _ _ Hs Ea) as (n & Hn & Hat & Hok & _ & Ha0). rewrite (proj2 (Z.eqb_neq a NULL)), offset_of_off by (done || lia). erewrite bind_run by (apply ld_slot_run; [done|exact Hn|apply Hok|apply off_range]).
    apply IH; [lia|done| | |].
    + intros Hh. split; [apply next_shift_down; lia|]. rewrite (child_node N _ i n Hok) by lia. by replace (l - 1) with (Z.of_nat h) by lia.
    + intros ->. rewrite contents_leaf by lia. change l with 1 in *. by rewrite Hat.
    + cbn [path_ok]. replace (Z.of_nat h + 1) with l by lia. done.
  - exists None. split; [done|]. rewrite contents_leaf by lia. unfold node_at. by rewrite (no_descendant N _ i 1 l (sh_labels _ _ _ Hs)) by (done || lia).
Qed.

(** From the root. *)
Lemma descend_root N own s i : shape N own s -> 0 <= i <= Z.min (64 ^ height (root s)) (2 ^ 32) - 1 ->
  exists o, descend (Z.to_nat (height (root s))) i (first_shift (height (root s))) (rnode (root s)) [] s = Some (o, s) /\
    match o with None => contents N s i = 0 | Some (path, v) => path_ok N i (height (root s)) 1 path /\ (v = 0 <-> contents N s i = 0) /\ (v <> 0 -> v = entry s (contents N s i)) end.
Proof.
  intros Hs Hi. pose proof (sh_root _ _ _ Hs) as (Hh6 & _ & Hz & Ht). destruct (Z.eq_dec (height (root s)) 0) as [E|E].
  - rewrite E in *. exists (Some ([], rnode (root s))). split; [done|]. split; [done|]. change (Z.min (64 ^ 0) (2 ^ 32) - 1) with 0 in Hi. assert (i = 0) as -> by lia. unfold entry, contents. rewrite E, Z.eqb_refl.
    destruct (Hz eq_refl) as [_ [->|(item & Hg & ->)]]; [done|]. rewrite direct_to_ptr_direct by done. destruct Hg. split; [lia|done].
  - rewrite first_shift_eq by lia. destruct (descend_ok N own s i Hs ltac:(lia) (Z.to_nat (height (root s))) (6 * (height (root s) - 1)) (rnode (root s)) []) as (o & Eo & Ho); rewrite ?Z2Nat.id in * by lia; try lia.
    + intros _. split; [done|]. by apply (top_node N own s i Hs); lia.
    + done.
    + exists o. split; [done|]. destruct o as [[path v]|]; [|done]. destruct Ho as [Ho ->]. split; [done|]. split; [done|]. unfold entry. by rewrite (proj2 (Z.eqb_neq _ 0)).
Qed.

Lemma tagged_present N own s t i : shape N own s -> 0 <= t < 2 -> tagged N s t i = true -> contents N s i <> 0.
Proof.
  intros Hs Ht. pose proof (sh_root _ _ _ Hs) as (Hh & _ & Hz & _). unfold tagged, contents. destruct (Z.eqb_spec (height (root s)) 0) as [E|E].
  - destruct (Hz E) as [_ [->|(item & Hg & ->)]]; [by rewrite andb_false_r|]. rewrite direct_to_ptr_direct by done. destruct (i =? 0); [destruct Hg; lia|done].
  - destruct (node_at N s 1 (i / 64)) as [n|] eqn:Ea; [|done]. unfold node_at in Ea. destruct (N !! (1, i / 64)) as [a|] eqn:Eb; [|done]. cbn [mbind option_bind] in Ea.
    destruct (sh_nodes _ _ _ Hs _ _ _ Eb) as (n0 & Hn0 & Hok). rewrite Ea in Hn0. injection Hn0 as <-. apply (no_tagged _ _ _ _ Hok); [done|]. apply Z.mod_pos_bound. lia.
Qed.

(** ** Clearing a tag *)

Lemma pre_up l i : 2 <= l -> pre (l - 1) i / 64 = pre l i /\ pre (l - 1) i mod 64 = off l i.
Proof. intros. split; [by rewrite <- pre_succ by lia|done]. Qed.

Section ClearStep.
Context (N : labels) (s : state) (i t l a : Z) (n n' : radix_tree_node).
Hypothesis Hs : shape N [] s.
Hypothesis Hi : 0 <= i < 2 ^ 32.
Hypothesis Ht : 0 <= t < 2.
Hypothesis Hl : 1 <= l <= height (root s).
Hypothesis Ha : N !! (l, pre l i) = Some a.
Hypothesis Hn : heap s !! a = Some n.
Hypothesis Hset : tagb n t (off l i) = true.
Hypothesis Hch : tag_changed n t (off l i) false n'.
Hypothesis Hbut : tags_but N s i t (fun l' => l' = l - 1).
Hypothesis Hlow : 2 <= l -> node_any N s t (l - 1) (pre (l - 1) i) = false.

Lemma clear_shape : shape N [] (upd a n' s).
Proof. by eapply (step_shape N [] s l (pre l i) a t (off l i) false n n'). Qed.

Lemma clear_any_old : node_any N s t l (pre l i) = true.
Proof.
  unfold node_any. rewrite (step_old N s l (pre l i) a n Ha Hn). destruct (sh_nodes _ _ _ Hs _ _ _ Ha) as (n0 & Hn0 & Hok). rewrite Hn in Hn0. injection Hn0 as <-.
  apply any_tag_spec; [apply Hok|done|]. exists (off l i). split; [apply off_range|done].
Qed.

Lemma clear_up : up_tag N (upd a n' s) t l (pre l i) = true.
Proof.
  pose proof (off_range l i) as Ho. rewrite (step_up N [] s l (pre l i) a t (off l i) false n n') by (done || lia). rewrite decide_False by lia. rewrite <- clear_any_old. apply Hbut; [done|done|apply pre_nonneg; lia| |lia].
  intros ->. by apply (lo_level _ _ (sh_labels _ _ _ Hs) _ _ _ Ha).
Qed.

Lemma clear_but : tags_but N (upd a n' s) i t (fun l' => l' = l).
Proof.
  pose proof (off_range l i) as Ho. destruct Hbut as [B0 B1]. split; [exact B0|]. intros t' l0 p Ht' Hl0 Hp Hp0 Hno. rewrite (step_up N [] s l (pre l i) a t (off l i) false n n') by (done || lia).
  rewrite (step_any N [] s l (pre l i) a t (off l i) false n n') by (done || (destruct (decide (l0 = l)) as [->|]; [|lia]; destruct (decide (t' = t)) as [->|]; [|lia]; destruct (decide (p = pre l i)) as [->|]; [tauto|lia])).
  rewrite <- (pre_split l) by lia. case_decide as E.
  - destruct E as (-> & E & ->). replace l0 with (l - 1) by lia. symmetry. apply Hlow. lia.
  - apply B1; try done. intros (-> & -> & ->). apply E. split; [done|]. split; [lia|done].
Qed.

Lemma clear_ok : any_tag n' t = true -> tags_ok N (upd a n' s).
Proof.
  intros Hany t' Ht'. destruct clear_but as [B0 B1]. split; [by apply B0|]. intros l0 p Hl0 Hp Hp0. destruct (decide (t' = t /\ l0 = l /\ p = pre l i)) as [(-> & -> & ->)|Hne].
  - rewrite clear_up, (step_any_here N [] s l (pre l i) a t (off l i) n' Hs Ha) by apply off_range. by rewrite Hany.
  - apply B1; try done. intros (-> & -> & ->). by apply Hne.
Qed.

End ClearStep.

Lemma tag_clear_loop_ok N i t : 0 <= i < 2 ^ 32 -> 0 <= t < 2 -> forall path l s, shape N [] s -> 1 <= l -> path_ok N i (height (root s)) l path -> tags_but N s i t (fun l' => l' = l - 1) ->
  (2 <= l -> node_any N s t (l - 1) (pre (l - 1) i) = false /\ up_tag N s t (l - 1) (pre (l - 1) i) = true) ->
  exists b s', tag_clear_loop t path s = Some (b, s') /\ shape N [] s' /\ root s' = root s /\ (forall j, contents N s' j = contents N s j) /\
    (if b : bool then tags_but N s' i t (fun l' => l' = height (root s)) /\ (1 <= height (root s) -> node_any N s' t (height (root s)) (pre (height (root s)) i) = false) else tags_ok N s') /\
    (forall t' j, 0 <= t' < 2 -> tagged N s' t' j = if decide (l = 1 /\ 1 <= height (root s) /\ t' = t /\ j = i) then false else tagged N s t' j).
Proof.
  intros Hi Ht. induction path as [|[a k] path IH]; intros l s Hs Hl Hp Hbut Hlow; cbn [path_ok] in Hp.
  { exists true, s. split; [done|]. do 3 (split; [done|]). replace (l - 1) with (height (root s)) in * by lia. split; [split; [done|]; intros H1; apply Hlow; lia|]. intros. by rewrite decide_False by lia. }
  destruct Hp as (Hlh & Ha & -> & Hp). destruct (node_at_some _ _ _ _ _ _ Hs Ha) as (n & Hn & Hat & Hok & _ & Ha0). cbn [tag_clear_loop]. pose proof (off_range l i) as Ho.
  erewrite bind_run by (apply tag_get_run; [done|exact Hn|apply Hok|apply Hok|done|done]). destruct (tagb n t (off l i)) eqn:Eb; cbn [negb].
  2: { assert (l = 1) as ->.
       { destruct (Z.eq_dec l 1) as [|Hne]; [done|]. exfalso. destruct (Hlow ltac:(lia)) as [_ Hup]. unfold up_tag in Hup. rewrite (proj2 (Z.eqb_neq _ _)) in Hup by lia.
         destruct (pre_up l i ltac:(lia)) as [E1 E2]. rewrite E1, E2 in Hup. replace (l - 1 + 1) with l in Hup by lia. rewrite Hat in Hup. congruence. }
       exists false, s. split; [done|]. do 3 (split; [done|]). split; [eapply tags_but_none; [|exact Hbut]; intros l' Hl'; cbv beta; lia|]. intros t' j Ht'. case_decide as E; [|done]. destruct E as (_ & _ & -> & ->).
       rewrite tagged_leaf by lia. by rewrite Hat. }
  destruct (tag_clear_run s a n Ha0 Hn (no_tags _ _ _ _ Hok) t (off l i) Ht Ho) as (n' & E & Hch). erewrite bind_run by exact E. clear E.
  erewrite bind_run by (apply (any_tag_set_run _ a n'); [done|apply lookup_insert_eq|rewrite (tc_slots _ _ _ _ _ Hch); apply Hok|apply Hch|done]).
  assert (2 <= l -> node_any N s t (l - 1) (pre (l - 1) i) = false) as Hlow1 by (intros; by apply Hlow). pose proof (clear_shape N s i t l a n n' Hs Ha Hn Hch) as Hs'. set (s1 := upd a n' s) in *.
  assert (forall j, contents N s1 j = contents N s j) as Hcs by (intros j; by eapply step_contents).
  assert (forall t' j, 0 <= t' < 2 -> tagged N s1 t' j = if decide (l = 1 /\ 1 <= height (root s) /\ t' = t /\ j = i) then false else tagged N s t' j) as Htg.
  { clear IH. intros t' j Ht'. unfold s1. rewrite (step_tagged N [] s l (pre l i) a t (off l i) false n n') by done. assert (l = 1 -> pre (l - 1) i = i) as Hp1 by (intros ->; apply pre_0).
    rewrite <- (pre_split l) by lia. repeat case_decide; try done; exfalso; lia. }
  destruct (any_tag n' t) eqn:Eany.
  - exists false, s1. split; [done|]. do 3 (split; [done|]). split; [|done]. by eapply (clear_ok N s i t l a n n').
  - destruct (IH (l + 1) s1 Hs' ltac:(lia) Hp) as (b & s' & E & Hsh & Er & Hc & Hb & Htg').
    + replace (l + 1 - 1) with l by lia. by eapply (clear_but N s i t l a n n').
    + intros _. replace (l + 1 - 1) with l by lia. split; [unfold s1; by rewrite (step_any_here N [] s l (pre l i) a t (off l i) n' Hs Ha) by done|]. by eapply (clear_up N s i t l a n n').
    + exists b, s'. split; [done|]. split; [done|]. split; [done|]. split; [intros j; by rewrite Hc|]. split; [done|]. intros t' j Ht'. rewrite Htg' by done. rewrite decide_False by lia. by apply Htg.
Qed.

Lemma retagged_absent N s t i : shape N [] s -> 0 <= t < 2 -> contents N s i = 0 -> retagged N s t i false s.
Proof. intros Hs Ht Hc. split; [done|]. intros t' j Ht' Hj. case_decide as E; [|done]. destruct E as [-> ->]. destruct (tagged N s t i) eqn:Et; [|done]. by apply (tagged_present N [] s t i Hs Ht) in Et. Qed.

Lemma root_clear_run s t (b : bool) : 0 <= t < 2 -> is_u32 (gfp_mask (root s)) -> exists r, (if b && root_tag_get (root s) t then root_tag_clear t else mret tt) s = Some (tt, with_root r s) /\
  (if b then root_tagged (root s) t false r else r = root s).
Proof.
  intros Ht Hg. destruct (root_tagged_id s t Ht Hg) as [Hid Hw]. destruct b; cbn [andb]; [|exists (root s); by rewrite Hw]. destruct (root_tag_get (root s) t) eqn:E; [by apply root_tag_clear_run|]. exists (root s). by rewrite Hw.
Qed.

Lemma radix_tree_tag_clear_ok N s i t : shape N [] s -> tags_ok N s -> 0 <= i < 2 ^ 32 -> 0 <= t < 2 ->
  exists s', radix_tree_tag_clear i t s = Some (if contents N s i =? 0 then 0 else entry s (contents N s i), s') /\ shape N [] s' /\ tags_ok N s' /\ root_gfp_mask (root s') = root_gfp_mask (root s) /\
    height (root s') = height (root s) /\ rnode (root s') = rnode (root s) /\ retagged N s t i false s'.
Proof.
  intros Hs Htags Hi Ht. unfold radix_tree_tag_clear. erewrite bind_run by reflexivity. pose proof (sh_root _ _ _ Hs) as (Hh & Hg & _). erewrite bind_run by (unfold st_lift; rewrite maxindex_eq by lia; reflexivity).
  assert (contents N s i = 0 -> exists s', Some (NULL, s) = Some (if contents N s i =? 0 then 0 else entry s (contents N s i), s') /\ shape N [] s' /\ tags_ok N s' /\ root_gfp_mask (root s') = root_gfp_mask (root s) /\
    height (root s') = height (root s) /\ rnode (root s') = rnode (root s) /\ retagged N s t i false s') as Hnone.
  { intros E. exists s. rewrite E. split; [done|]. do 5 (split; [done|]). by apply retagged_absent. }
  destruct (Z.ltb_spec (Z.min (64 ^ height (root s)) (2 ^ 32) - 1) i) as [Hlt|Hge]; [apply Hnone, (beyond N [] s i Hs); lia|].
  destruct (descend_root N [] s i Hs ltac:(lia)) as (o & E & Ho). erewrite bind_run by exact E. destruct o as [[path v]|]; [|by apply Hnone]. destruct Ho as (Hp & Hv0 & Hv).
  destruct (Z.eqb_spec v NULL) as [->|Hne]; [by apply Hnone, Hv0|]. assert (contents N s i <> 0) as Hc by (intros E0; by apply Hne, Hv0). rewrite (Hv Hne) in Hne |- *. rewrite (proj2 (Z.eqb_neq (contents N s i) 0)) by done.
  destruct (tag_clear_loop_ok N i t Hi Ht path 1 s Hs ltac:(lia) Hp) as (b & s1 & E1 & Hs1 & Er & Hcs & Hb & Htg); [by apply tags_but_all|lia|]. erewrite bind_run by exact E1. erewrite bind_run by reflexivity.
  destruct (root_clear_run s1 t b Ht ltac:(by rewrite Er)) as (r & E2 & Hr). erewrite bind_run by exact E2. exists (with_root r s1). split; [done|]. destruct b.
  - destruct Hb as [Hb1 Hb2]. split; [by eapply root_step_shape|]. pose proof Hr as (R1 & R2 & _ & R4 & _). cbn [root with_root]. rewrite R1, R2, R4, Er. split; [|do 3 (split; [done|])].
    + eapply (root_step_tags N s1 t false r Hr i); rewrite Er; [done|done|]. intros H1. pose proof (path_top N [] s i Hs Hi Hc H1) as Hp0. split; [done|]. specialize (Hb2 H1). by rewrite Hp0 in Hb2.
    + split; [intros j; by rewrite (root_step_contents N s1 t false r Hr)|]. intros t' j Ht' Hj. rewrite (root_step_tagged N s1 t false r Hr), Htg, Er by done.
      destruct (Z.eq_dec (height (root s)) 0) as [E0|E0]; [|repeat case_decide; try done; exfalso; lia]. destruct (root_entry N [] s i Hs Hc E0) as [Ei Hre].
      assert (rnode (root s) <> 0) as Hrn by (unfold entry in Hne; rewrite E0 in Hne; cbn [Z.eqb] in Hne; by rewrite Hre). repeat case_decide; try done; exfalso; lia.
  - subst r. destruct (root_tagged_id s1 t Ht ltac:(by rewrite Er)) as [_ ->]. rewrite Er. do 5 (split; [done|]). split; [done|]. intros t' j Ht' Hj. rewrite Htg by done.
    destruct (decide (t' = t /\ j = i)) as [[-> ->]|Hno]; [|by rewrite decide_False by tauto]. destruct (Z.eq_dec (height (root s)) 0) as [E0|E0]; [|by rewrite decide_True by lia].
    destruct path as [|[? ?] ?]; [discriminate E1|]. cbn [path_ok] in Hp. lia.
Qed.

End RadixTags.
