(* ===== verification/RadixDelete.v ===== *)
(** * Radix trees: deletion

    The nodes that become empty are unlinked and freed from the bottom up, and the
    tree gives up levels at the root. *)

From S2P Require Import Prelude Radix RadixNode RadixShape RadixOps RadixInsert RadixTags.

Module RadixDelete.
Import Radix RadixNode RadixShape RadixOps RadixInsert RadixTags.

(** As [looks], but the tags of the root may change as well. *)
Definition alike (N : labels) (s : state) (N' : labels) (s' : state) : Prop :=
  shape N' [] s' /\ tags_ok N' s' /\ same_tree N s N' s' /\ root_gfp_mask (root s') = root_gfp_mask (root s).

Lemma alike_refl N s : shape N [] s -> tags_ok N s -> alike N s N s.
Proof. intros. split; [done|]. split; [done|]. split; [apply same_tree_refl|done]. Qed.

Lemma alike_trans N s N' s' N'' s'' : alike N s N' s' -> alike N' s' N'' s'' -> alike N s N'' s''.
Proof. intros (_ & _ & E1 & G1) (A & B & E2 & G2). split; [done|]. split; [done|]. split; [by eapply same_tree_trans|congruence]. Qed.

Lemma same_tree_sym N s N' s' : same_tree N s N' s' -> same_tree N' s' N s.
Proof. intros [H1 H2]. split; intros; symmetry; auto. Qed.

(** ** Empty nodes *)

Lemma no_tags_zero n : tags_shape n -> (forall t, 0 <= t < 2 -> any_tag n t = false) -> tags n = tags zero_node.
Proof.
  intros (w0 & w1 & w2 & w3 & E & _) H. pose proof (H 0 ltac:(lia)) as H0. pose proof (H 1 ltac:(lia)) as H1. unfold any_tag in H0, H1. rewrite E in H0, H1 |- *.
  change (aget [[w0; w1]; [w2; w3]] 0) with (Some [w0; w1]) in H0. change (aget [[w0; w1]; [w2; w3]] 1) with (Some [w2; w3]) in H1. cbn [existsb] in H0, H1.
  rewrite !orb_false_iff, !negb_false_iff, !Z.eqb_eq in H0, H1. destruct H0 as (-> & -> & _), H1 as (-> & -> & _). done.
Qed.

Lemma any_tag_false n t : tags_shape n -> 0 <= t < 2 -> (forall k, 0 <= k < 64 -> tagb n t k = false) -> any_tag n t = false.
Proof. intros Hsh Ht H. destruct (any_tag n t) eqn:E; [|done]. apply any_tag_spec in E as (k & Hk & Hb); [|done|done]. by rewrite H in Hb. Qed.

Lemma slots_zero_slotv n k : slots n = slots zero_node -> slotv n k = 0.
Proof. intros E. unfold slotv. rewrite E. apply slotv_zero. Qed.

Lemma empty_zeroed N l p n : node_ok N l p n -> count n = 0 -> zeroed n.
Proof.
  intros Hok Hc. assert (slots n = slots zero_node) as Es by (apply nonnull_zero; [apply Hok|by rewrite <- (no_count _ _ _ _ Hok)]). split; [done|]. split; [done|]. apply no_tags_zero; [apply Hok|].
  intros t Ht. apply any_tag_false; [apply Hok|done|]. intros k Hk. destruct (tagb n t k) eqn:E; [|done]. apply (no_tagged _ _ _ _ Hok) in E; [|done|done]. by rewrite slots_zero_slotv in E.
Qed.

(** One slot only. *)
Lemma one_slot n : length (slots n) = 64%nat -> nonnull (slots n) = 1 -> slotv n 0 <> 0 -> slots (set_slot n 0 0) = slots zero_node /\ forall k, 0 <= k < 64 -> k <> 0 -> slotv n k = 0.
Proof.
  intros Hl H1 H0. pose proof (nonnull_set n 0 0 Hl ltac:(lia)) as E. rewrite H1, decide_True, decide_False in E by done. assert (length (slots (set_slot n 0 0)) = 64%nat) as Hl' by (cbn [slots set_slot]; by rewrite length_insert).
  assert (slots (set_slot n 0 0) = slots zero_node) as Es by (apply nonnull_zero; [done|lia]). split; [done|]. intros k Hk Hne.
  pose proof (slotv_set n 0 0 k Hl ltac:(lia) Hk) as Ek. rewrite decide_False in Ek by done. rewrite <- Ek. by apply slots_zero_slotv.
Qed.

(** ** Unlinking a node *)

Definition release (a : Z) (s : state) : state := mk_state (root s) (heap s) (supply s) (preload s) (a :: freed s).

Section Unlink.
Context (N : labels) (s : state) (i l a c : Z) (n m : radix_tree_node).
Hypothesis Hs : shape N [] s.
Hypothesis Htags : tags_ok N s.
Hypothesis Hi : 0 <= i < 2 ^ 32.
Hypothesis Hl : 2 <= l <= height (root s).
Hypothesis Ha : N !! (l, pre l i) = Some a.
Hypothesis Hn : heap s !! a = Some n.
Hypothesis Hc : N !! (l - 1, pre (l - 1) i) = Some c.
Hypothesis Hm : heap s !! c = Some m.
Hypothesis Hempty : count m = 0.

Definition cut : labels := delete (l - 1, pre (l - 1) i) N.
Definition parent_cut : radix_tree_node := set_count (set_slot n (off l i) 0) (count n - 1).
Definition after_cut : state := release c (upd a parent_cut s).

Lemma cut_ok : node_ok N l (pre l i) n /\ node_ok N (l - 1) (pre (l - 1) i) m /\ zeroed m /\ c <> a /\ good c /\ c <> NULL.
Proof.
  destruct (node_at_some _ _ _ _ _ _ Hs Ha) as (n0 & Hn0 & _ & Hok & _). destruct (node_at_some _ _ _ _ _ _ Hs Hc) as (m0 & Hm0 & _ & Hmok & Hg & Hg0). rewrite Hn in Hn0. rewrite Hm in Hm0. injection Hn0 as <-. injection Hm0 as <-.
  split; [done|]. split; [done|]. split; [by eapply empty_zeroed|]. split; [|done]. intros ->. pose proof (lo_inj _ _ (sh_labels _ _ _ Hs) _ _ _ Ha Hc) as [= E _]. lia.
Qed.

Lemma cut_lookup x : cut !! x = if decide (x = (l - 1, pre (l - 1) i)) then None else N !! x.
Proof. unfold cut. case_decide as E; [by rewrite E, lookup_delete_eq|by rewrite lookup_delete_ne by congruence]. Qed.

(** No node is below the one that goes. *)
Lemma cut_below l' p b : N !! (l', p) = Some b -> l' + 1 = l - 1 -> p / 64 <> pre (l - 1) i.
Proof.
  intros Hb El Ep. destruct cut_ok as (_ & Hmok & (Hz & _) & _). destruct (lo_level _ _ (sh_labels _ _ _ Hs) _ _ _ Hb) as (Hl' & _ & _ & [Hg _]).
  pose proof (no_child _ _ _ _ Hmok ltac:(lia) (p mod 64) (Z.mod_pos_bound p 64 ltac:(done))) as E. rewrite slots_zero_slotv in E by done. rewrite <- Ep in E. pose proof (Z.div_mod p 64 ltac:(done)) as Hdm. rewrite <- Hdm in E.
  replace (l - 1 - 1) with l' in E by lia. rewrite Hb in E. cbn [from_option id] in E. lia.
Qed.

Lemma cut_labels : labels_ok cut (height (root s)).
Proof.
  pose proof (sh_labels _ _ _ Hs) as HL. assert (forall x b, cut !! x = Some b -> N !! x = Some b) as Hin by (intros x b; rewrite cut_lookup; by case_decide). split.
  - intros l' p b Hb. by apply (lo_level _ _ HL), Hin.
  - intros l' p b Hb%Hin Hlt. rewrite cut_lookup. case_decide as E; [|by eapply (lo_parent _ _ HL)]. injection E as E1 E2. by destruct (cut_below l' p b Hb E1).
  - intros x y b Hx Hy. eapply (lo_inj _ _ HL); by apply Hin.
Qed.

Lemma cut_used b : used cut b <-> used N b /\ b <> c.
Proof.
  unfold used. split.
  - intros [x Hx]. rewrite cut_lookup in Hx. case_decide as E; [done|]. split; [by exists x|]. intros ->. by destruct (E (lo_inj _ _ (sh_labels _ _ _ Hs) _ _ _ Hx Hc)).
  - intros [[x Hx] Hne]. exists x. rewrite cut_lookup. case_decide as E; [subst x; congruence|done].
Qed.

(** The bit of the empty node is not set. *)
Lemma cut_tag t : 0 <= t < 2 -> tagb n t (off l i) = false.
Proof.
  intros Ht. destruct cut_ok as (_ & _ & Hz & _). destruct (zeroed_node m Hz) as (_ & _ & _ & _ & Hany & _). pose proof (proj2 (Htags t Ht) (l - 1) (pre (l - 1) i) ltac:(lia) ltac:(apply pre_nonneg; lia) ltac:(lia)) as E.
  unfold up_tag, node_any in E. rewrite (proj2 (Z.eqb_neq _ _)) in E by lia. replace (l - 1 + 1) with l in E by lia. destruct (pre_up l i ltac:(lia)) as [E1 E2]. rewrite E1, E2 in E.
  unfold node_at in E. rewrite Ha, Hc in E. cbn [mbind option_bind] in E. rewrite Hn, Hm, Hany in E by done. done.
Qed.

Lemma cut_slot : slotv n (off l i) = c.
Proof. destruct cut_ok as (Hok & _). rewrite (child_node N l i n Hok) by lia. by rewrite Hc. Qed.

Lemma cut_parent : node_ok cut l (pre l i) parent_cut.
Proof.
  destruct cut_ok as ([K1 K2 K3 K4 K5 K6 K7 K8] & _ & _ & _ & _ & Hc0). pose proof (off_range l i) as Ho. pose proof cut_slot as Esl. pose proof (pre_split l i ltac:(lia)) as Esp.
  assert (forall k, 0 <= k < 64 -> slotv parent_cut k = if decide (k = off l i) then 0 else slotv n k) as Hv by (intros k Hk; by rewrite <- slotv_set).
  split; [done| |done| |lia| | |].
  - cbn [slots parent_cut set_count set_slot]. by rewrite length_insert.
  - unfold parent_cut. change (slots (set_count ?x ?y)) with (slots x). rewrite nonnull_set, Esl by done. rewrite decide_True, decide_False by done. cbn [count set_count]. lia.
  - intros _ k Hk. rewrite Hv, cut_lookup by done. case_decide as E; [subst k; rewrite decide_True by congruence; done|]. rewrite decide_False by (intros [= E2]; lia). apply K6; [lia|done].
  - intros k Hk. rewrite Hv by done. case_decide; [done|by apply K7].
  - intros t k Ht Hk Hb. rewrite Hv by done. change (tagb n t k = true) in Hb. case_decide as E; [subst k; by rewrite cut_tag in Hb|by apply (K8 t)].
Qed.

Lemma cut_other l' p x : node_ok N l' p x -> ~ (l' = l /\ p = pre l i) -> node_ok cut l' p x.
Proof.
  intros [K1 K2 K3 K4 K5 K6 K7 K8] Hne. split; try done. intros Hl2 k Hk. rewrite K6, cut_lookup by done. case_decide as E; [|done]. injection E as E1 E2. destruct Hne. split; [lia|].
  rewrite (pre_succ l), <- E2 by lia. rewrite Z.mul_comm, Z.div_add_l, (Z.div_small k) by lia. lia.
Qed.

Lemma cut_heap b : heap after_cut !! b = if decide (b = a) then Some parent_cut else heap s !! b.
Proof. cbn [heap after_cut release upd]. case_decide as E; [by rewrite E, lookup_insert_eq|by rewrite lookup_insert_ne]. Qed.

Lemma cut_shape : shape cut [] after_cut.
Proof.
  destruct cut_ok as (Hok & Hmok & Hz & Hca & Hg & Hg0). split; [exact cut_labels| | |].
  - destruct (sh_root _ _ _ Hs) as (R1 & R2 & R3 & R4). split; [done|]. split; [done|]. change (root after_cut) with (root s). split; [intros E; lia|]. intros H1. rewrite R4, cut_lookup by done. rewrite decide_False by (intros [= E _]; lia). done.
  - intros l' p b Hb. rewrite cut_lookup in Hb. case_decide as Ex; [done|]. rewrite cut_heap. destruct (sh_nodes _ _ _ Hs _ _ _ Hb) as (x & Hx & Hxok). case_decide as E.
    + subst b. pose proof (lo_inj _ _ (sh_labels _ _ _ Hs) _ _ _ Ha Hb) as [= <- <-]. eexists. split; [done|apply cut_parent].
    + exists x. split; [done|]. apply cut_other; [done|]. intros [-> ->]. congruence.
  - apply (pool_release (used cut) [] (upd a parent_cut s) c m); [|apply not_elem_of_nil|cbn [heap upd]; by rewrite lookup_insert_ne|done]. eapply (pool_unuse (used N)); [apply pool_upd; [apply Hs|left; by eexists]|by eexists|done| |apply cut_used].
    cbn [heap upd]. rewrite lookup_insert_ne by done. by eexists.
Qed.

Lemma cut_alike : alike N s cut after_cut /\ root after_cut = root s.
Proof.
  split; [|done]. split; [exact cut_shape|]. destruct cut_ok as (Hok & Hmok & Hz & Hca & Hg & Hg0). destruct (zeroed_node m Hz) as (_ & _ & Z3 & Z4 & Z5 & _). pose proof (off_range l i) as Ho.
  assert (forall l' p, node_at cut after_cut l' p = if decide ((l', p) = (l - 1, pre (l - 1) i)) then None else if decide ((l', p) = (l, pre l i)) then Some parent_cut else node_at N s l' p) as Hat.
  { intros l' p. unfold node_at at 1. rewrite cut_lookup. case_decide as E1; [done|]. destruct (decide ((l', p) = (l, pre l i))) as [E2|E2].
    - rewrite E2, Ha. cbn [mbind option_bind]. by rewrite cut_heap, decide_True.
    - unfold node_at. destruct (N !! (l', p)) as [b|] eqn:Eb; [|done]. cbn [mbind option_bind]. rewrite cut_heap, decide_False; [done|]. intros ->. by destruct E2; eapply (lo_inj _ _ (sh_labels _ _ _ Hs)). }
  assert (node_at N s l (pre l i) = Some n /\ node_at N s (l - 1) (pre (l - 1) i) = Some m) as [Hat1 Hat2] by (unfold node_at; rewrite Ha, Hc; done).
  assert (tags_ok cut after_cut /\ same_tree N s cut after_cut) as [? ?]; [|done]. apply views_ok; [done|change (root after_cut) with (root s); lia|done| | | |done].
  - intros l' p t k Ht Hk. unfold tagv. rewrite Hat. destruct (decide ((l', p) = (l - 1, _))) as [[= -> ->]|E1]; [rewrite Hat2; by rewrite Z4|]. case_decide as E2; [injection E2 as -> ->; by rewrite Hat1|done].
  - intros l' p t Ht. unfold node_any. rewrite Hat. destruct (decide ((l', p) = (l - 1, _))) as [[= -> ->]|E1]; [rewrite Hat2; by rewrite Z5|]. case_decide as E2; [injection E2 as -> ->; by rewrite Hat1|done].
  - intros p k Hk. unfold itemv. rewrite Hat. destruct (decide ((1, p) = (l - 1, _))) as [[= E1 ->]|E1]; [rewrite <- E1 in Hat2 |- *; rewrite Hat2; by rewrite Z3|]. rewrite decide_False by (intros [= E _]; lia). done.
Qed.

End Unlink.

(** ** Giving up a level *)

Section Shrink.
Context (N : labels) (s : state) (a : Z) (n z : radix_tree_node).
Abbreviation top := (height (root s)).
Hypothesis Hs : shape N [] s.
Hypothesis Htags : tags_ok N s.
Hypothesis Hh : 1 <= top.
Hypothesis Ha : N !! (top, 0) = Some a.
Hypothesis Hn : heap s !! a = Some n.
Hypothesis Hone : count n = 1.
Hypothesis Hfirst : slotv n 0 <> 0.
Hypothesis Hz : zeroed z.

Definition low : labels := delete (top, 0) N.
Definition low_ptr : Z := if top =? 1 then radix_tree_ptr_to_direct (slotv n 0) else slotv n 0.
Definition after_shrink : state := release a (upd a z (with_root (mk_root (top - 1) (gfp_mask (root s)) low_ptr) s)).

Lemma top_ok : node_ok N top 0 n /\ good a /\ a <> NULL.
Proof. destruct (node_at_some _ _ _ _ _ _ Hs Ha) as (n0 & Hn0 & _ & Hok & Hg & Hg0). rewrite Hn in Hn0. injection Hn0 as <-. done. Qed.

Lemma top_slots k : 0 <= k < 64 -> k <> 0 -> slotv n k = 0.
Proof. destruct top_ok as (Hok & _). apply one_slot; [apply Hok|by rewrite <- (no_count _ _ _ _ Hok)|done]. Qed.

Lemma top_tagb t k : 0 <= t < 2 -> 0 <= k < 64 -> tagb n t k = if decide (k = 0) then root_tag_get (root s) t else false.
Proof.
  intros Ht Hk. destruct top_ok as (Hok & _). assert (forall k', 0 <= k' < 64 -> k' <> 0 -> tagb n t k' = false) as Hno.
  { intros k' Hk' Hne. destruct (tagb n t k') eqn:E; [|done]. apply (no_tagged _ _ _ _ Hok) in E; [|done|done]. by rewrite top_slots in E. }
  case_decide as E; [|by apply Hno]. subst k. pose proof (proj2 (Htags t Ht) top 0 ltac:(lia) ltac:(lia) ltac:(done)) as Eu. unfold up_tag, node_any, node_at in Eu. rewrite Z.eqb_refl, Ha in Eu. cbn [mbind option_bind] in Eu. rewrite Hn in Eu.
  rewrite Eu. destruct (tagb n t 0) eqn:E0; symmetry; [apply any_tag_spec; [apply Hok|done|]; exists 0; done|]. apply any_tag_false; [apply Hok|done|]. intros k Hk'. destruct (Z.eq_dec k 0) as [->|]; [done|by apply Hno].
Qed.

Lemma low_lookup x : low !! x = if decide (x = (top, 0)) then None else N !! x.
Proof. unfold low. case_decide as E; [by rewrite E, lookup_delete_eq|by rewrite lookup_delete_ne by congruence]. Qed.

Lemma low_level l p b : low !! (l, p) = Some b -> N !! (l, p) = Some b /\ 1 <= l <= top - 1 /\ 0 <= p /\ (l = top - 1 -> p = 0) /\ good b.
Proof.
  rewrite low_lookup. case_decide as E; [done|]. intros Hb. destruct (lo_level _ _ (sh_labels _ _ _ Hs) _ _ _ Hb) as (Hl & Hp & Ht & Hg). assert (l <> top) as HlH by (intros El; apply E; rewrite El, Ht by done; done).
  split; [done|]. split; [lia|]. split; [done|]. split; [|done]. intros El. destruct (lo_parent _ _ (sh_labels _ _ _ Hs) _ _ _ Hb ltac:(lia)) as [c Hc].
  destruct (lo_level _ _ (sh_labels _ _ _ Hs) _ _ _ Hc) as (_ & _ & Hp0 & _). specialize (Hp0 ltac:(lia)). destruct (Z.eq_dec p 0) as [|Hne]; [done|]. exfalso. destruct top_ok as (Hok & _).
  pose proof (Z.div_mod p 64 ltac:(done)) as Hdm. pose proof (Z.mod_pos_bound p 64 ltac:(done)) as Hm. pose proof (no_child _ _ _ _ Hok ltac:(lia) p ltac:(lia)) as Ec.
  rewrite top_slots in Ec by lia. change (64 * 0 + p) with p in Ec. rewrite <- El, Hb in Ec. cbn [from_option id] in Ec. destruct Hg. lia.
Qed.

Lemma low_used b : used low b <-> used N b /\ b <> a.
Proof.
  unfold used. split.
  - intros [x Hx]. rewrite low_lookup in Hx. case_decide as E; [done|]. split; [by exists x|]. intros ->. by destruct (E (lo_inj _ _ (sh_labels _ _ _ Hs) _ _ _ Hx Ha)).
  - intros [[x Hx] Hne]. exists x. rewrite low_lookup. case_decide as E; [subst x; congruence|done].
Qed.

Lemma low_labels : labels_ok low (top - 1).
Proof.
  pose proof (sh_labels _ _ _ Hs) as HL. split.
  - intros l p b Hb. by apply low_level in Hb as (_ & ?).
  - intros l p b (Hb & Hl & _)%low_level Hlt. rewrite low_lookup. rewrite decide_False by (intros [= E _]; lia). by apply (lo_parent _ _ HL l p b); [|lia].
  - intros x y b Hx Hy. destruct x as [l p], y as [l' p']. apply low_level in Hx as [Hx _]. apply low_level in Hy as [Hy _]. by eapply (lo_inj _ _ HL).
Qed.

Lemma low_root : root_ok low (root after_shrink).
Proof.
  destruct (sh_root _ _ _ Hs) as (R1 & R2 & _). destruct top_ok as (Hok & _). unfold root_ok. cbn [root after_shrink release upd with_root height gfp_mask rnode]. unfold low_ptr. split; [lia|]. split; [done|]. split.
  - intros E. split.
    + apply map_eq. intros [l p]. rewrite lookup_empty. destruct (low !! (l, p)) as [b|] eqn:Eb; [|done]. apply low_level in Eb as (_ & ? & _). lia.
    + right. exists (slotv n 0). replace top with 1 by lia. cbn [Z.eqb]. destruct (no_item _ _ _ _ Hok ltac:(lia) 0 ltac:(lia)) as [?|Hg]; [done|]. split; [done|]. by apply direct_eq.
  - intros H1. rewrite (proj2 (Z.eqb_neq _ 1)) by lia. rewrite low_lookup, decide_False by (intros [= E]; lia). apply (no_child _ _ _ _ Hok); lia.
Qed.

Lemma low_heap b : used low b -> heap after_shrink !! b = heap s !! b.
Proof. intros [_ Hne]%low_used. cbn [heap after_shrink release upd with_root]. by rewrite lookup_insert_ne. Qed.

Lemma low_shape : shape low [] after_shrink.
Proof.
  destruct top_ok as (Hok & Hg & Hg0). split; [exact low_labels|exact low_root| |].
  - intros l p b Hb. rewrite low_heap by (by eexists). apply low_level in Hb as (Hb & Hl & _). destruct (sh_nodes _ _ _ Hs _ _ _ Hb) as (x & Hx & [K1 K2 K3 K4 K5 K6 K7 K8]). exists x. split; [done|]. split; try done.
    intros Hl2 k Hk. rewrite K6, low_lookup by done. rewrite decide_False by (intros [= E _]; lia). done.
  - apply (pool_release (used low) [] (upd a z (with_root _ s)) a z); [|apply not_elem_of_nil|apply lookup_insert_eq|done]. apply pool_upd; [|right; by left]. apply pool_root. eapply (pool_unuse (used N)); [apply Hs|by eexists|done|by eexists|apply low_used].
Qed.

Lemma low_is_level : level low after_shrink a n s /\ add_level low after_shrink a = N.
Proof.
  destruct top_ok as (Hok & Hg & Hg0). destruct low_root as (_ & _ & Hz0 & _). cbn [root after_shrink release upd with_root height rnode] in *. split.
  - split; cbn [root after_shrink release upd with_root height rnode]; [lia|exact low_labels|by intros [_ ?]%low_used| |done|done|apply Hok|intros; by apply top_tagb| |].
    + intros b Hb. symmetry. by apply low_heap.
    + intros E. destruct (Hz0 E) as [? Hr]. split; [done|]. destruct Hr as [Hr|(item & [Hgi _] & ->)]; [|lia]. assert (top = 1) as E1 by lia. unfold low_ptr in Hr. rewrite E1 in Hr. change (1 =? 1) with true in Hr. cbn iota in Hr. destruct (no_item _ _ _ _ Hok ltac:(lia) 0 ltac:(lia)) as [?|Hgi]; [done|]. rewrite direct_eq in Hr by done. destruct Hgi as [Hgi _]. lia.
    + intros E k Hk. unfold low_ptr. replace top with 1 by lia. change (1 =? 1) with true. cbn iota. case_decide as E0; [|by apply top_slots]. subst k. destruct (no_item _ _ _ _ Hok ltac:(lia) 0 ltac:(lia)) as [?|Hgi]; [done|]. by rewrite direct_eq, direct_to_ptr_direct.
  - unfold add_level, low. cbn [root after_shrink release upd with_root height]. replace (top - 1 + 1) with top by lia. by rewrite insert_delete_id.
Qed.

Lemma low_alike : alike N s low after_shrink.
Proof.
  destruct low_is_level as [Hlv EN]. split; [exact low_shape|]. split; [apply (level_tags _ _ _ _ _ Hlv); by rewrite EN|]. split; [|done]. pose proof (level_same _ _ _ _ _ Hlv) as Hsame. rewrite EN in Hsame. by apply same_tree_sym.
Qed.

End Shrink.

(** The node that is freed is zeroed. *)
Lemma clear_node_run s a n (k : M unit) : a <> NULL -> heap s !! a = Some n -> length (slots n) = 64%nat -> tags_shape n -> slots (set_slot n 0 0) = slots zero_node ->
  (forall t k, 0 <= t < 2 -> 0 <= k < 64 -> k <> 0 -> tagb n t k = false) -> exists z, zeroed z /\
  (tag_clear a 0 0 ;; tag_clear a 1 0 ;; st_slot a 0 NULL ;; st_count a 0 ;; radix_tree_node_free a ;; k) s = k (release a (upd a z s)).
Proof.
  intros Ha Hn Hl Hsh Hz Hno. destruct (tag_clear_run s a n Ha Hn Hsh 0 0 ltac:(lia) ltac:(lia)) as (n1 & E1 & C1). erewrite bind_run by exact E1.
  destruct (tag_clear_run (upd a n1 s) a n1 Ha (lookup_insert_eq _ _ _) (tc_shape _ _ _ _ _ C1) 1 0 ltac:(lia) ltac:(lia)) as (n2 & E2 & C2). erewrite bind_run by exact E2. assert (slots n2 = slots n) as Es by (by rewrite (tc_slots _ _ _ _ _ C2), (tc_slots _ _ _ _ _ C1)).
  erewrite bind_run by (apply st_slot_run; [done|apply lookup_insert_eq|by rewrite Es|lia]). erewrite bind_run by (apply st_count_run; [done|apply lookup_insert_eq|unfold is_u32; lia]).
  exists (set_count (set_slot n2 0 NULL) 0). rewrite !node_upd_upd. split; [|done]. split; [cbn [slots set_count set_slot] in *; by rewrite Es|]. split; [done|]. apply no_tags_zero; [apply C2|]. intros t Ht. apply any_tag_false; [apply C2|done|]. intros k' Hk.
  change (tagb n2 t k' = false). rewrite (tc_tagb _ _ _ _ _ C2), (tc_tagb _ _ _ _ _ C1) by done. assert (t = 0 \/ t = 1) as [-> | ->] by lia; repeat case_decide; try done; apply Hno; lia.
Qed.

Lemma shrink_loop_ok f : forall N s, shape N [] s -> tags_ok N s -> height (root s) <= Z.of_nat f -> (1 <= height (root s) -> rnode (root s) <> 0) ->
  exists s' N', shrink_loop f s = Some (tt, s') /\ alike N s N' s'.
Proof.
  induction f as [|f IH]; intros N s Hs Ht Hf Hr; cbn [shrink_loop]; (erewrite bind_run by reflexivity); (destruct (Z.ltb_spec 0 (height (root s))) as [Hlt|Hge]; cbn [negb]; [|exists s, N; split; [done|by apply alike_refl]]); [lia|].
  destruct (sh_root _ _ _ Hs) as (Hh6 & _ & _ & Htop). specialize (Htop ltac:(lia)). specialize (Hr ltac:(lia)). destruct (N !! (height (root s), 0)) as [a|] eqn:Ha; cbn [from_option id] in Htop; [|done].
  destruct (node_at_some _ _ _ _ _ _ Hs Ha) as (n & Hn & _ & Hok & _ & Ha0). rewrite Htop. erewrite bind_run by (by apply node_ld_run).
  assert (aget (slots n) 0 = Some (slotv n 0)) as E0 by (pose proof (ld_slot_run s a n Ha0 Hn (no_len _ _ _ _ Hok) 0 ltac:(lia)) as E; unfold ld_slot in E; erewrite bind_run in E by (by apply node_ld_run); unfold st_lift in E; destruct (aget (slots n) 0); congruence).
  erewrite bind_run by (unfold st_lift; rewrite E0; reflexivity). destruct (Z.eqb_spec (count n) 1) as [H1|H1]; [|exists s, N; split; [done|by apply alike_refl]].
  destruct (Z.eqb_spec (slotv n 0) NULL) as [H0|H0]; cbn [andb negb]; [exists s, N; split; [done|by apply alike_refl]|].
  erewrite bind_run by (unfold st_rnode; erewrite bind_run by reflexivity; reflexivity). erewrite bind_run by (unfold st_root_height; erewrite bind_run by reflexivity; reflexivity). cbn [root height gfp_mask rnode heap supply preload freed].
  destruct (clear_node_run (with_root (mk_root (height (root s) - 1) (gfp_mask (root s)) (low_ptr s n)) s) a n (shrink_loop f) Ha0 Hn (no_len _ _ _ _ Hok) (no_tags _ _ _ _ Hok)) as (z & Hz & E).
  - apply one_slot; [apply Hok|by rewrite <- (no_count _ _ _ _ Hok)|done].
  - intros t k Ht' Hk Hk0. rewrite (top_tagb N s a n Hs Ht ltac:(lia) Ha Hn H1 H0) by done. by rewrite decide_False.
  - pose proof (low_alike N s a n z Hs Ht ltac:(lia) Ha Hn H1 H0 Hz) as Hlow. destruct (IH (low N s) (after_shrink s a n z)) as (s' & N' & E' & Hk); [apply Hlow|apply Hlow|cbn; lia| |].
    + intros _. cbn [root after_shrink release upd with_root rnode]. unfold low_ptr. destruct (Z.eqb_spec (height (root s)) 1) as [E1|E1]; [|done].
      destruct (no_item _ _ _ _ Hok E1 0 ltac:(lia)) as [?|Hg]; [done|]. rewrite direct_eq by done. destruct Hg. lia.
    + exists s', N'. split; [etransitivity; [exact E|exact E']|]. by eapply alike_trans.
Qed.

Lemma radix_tree_shrink_ok N s : shape N [] s -> tags_ok N s -> rnode (root s) <> 0 -> exists s' N', radix_tree_shrink s = Some (tt, s') /\ alike N s N' s'.
Proof. intros Hs Ht Hr. unfold radix_tree_shrink. erewrite bind_run by reflexivity. apply shrink_loop_ok; [done|done|lia|done]. Qed.

(** ** The last node *)

Lemma last_node N s a n : shape N [] s -> 1 <= height (root s) -> N !! (height (root s), 0) = Some a -> heap s !! a = Some n -> zeroed n -> forall x, x <> (height (root s), 0) -> N !! x = None.
Proof.
  intros Hs Hh Ha Hn Hz [l p] Hne. destruct (N !! (l, p)) as [b|] eqn:Eb; [|done]. exfalso. pose proof (sh_labels _ _ _ Hs) as HL. destruct (lo_level _ _ HL _ _ _ Eb) as (Hl & Hp & Htop & _).
  assert (l <> height (root s)) as Hlt by (intros E; apply Hne; rewrite E, Htop by done; done). destruct (ancestors N _ l p b (height (root s) - 1) HL Eb ltac:(lia)) as [c Hc]. set (q := pre (height (root s) - 1 - l) p) in *.
  destruct (lo_level _ _ HL _ _ _ Hc) as (_ & Hq & _ & [Hg _]). destruct (lo_parent _ _ HL _ _ _ Hc ltac:(lia)) as [d Hd]. replace (height (root s) - 1 + 1) with (height (root s)) in Hd by lia.
  destruct (lo_level _ _ HL _ _ _ Hd) as (_ & _ & Hq0 & _). specialize (Hq0 eq_refl). destruct (node_at_some _ _ _ _ _ _ Hs Ha) as (n0 & Hn0 & _ & Hok & _). rewrite Hn in Hn0. injection Hn0 as <-.
  pose proof (Z.div_mod q 64 ltac:(done)) as Hdm. pose proof (Z.mod_pos_bound q 64 ltac:(done)) as Hm. pose proof (no_child _ _ _ _ Hok ltac:(lia) q ltac:(lia)) as Ec. rewrite slots_zero_slotv in Ec by apply Hz.
  change (64 * 0 + q) with q in Ec. rewrite Hc in Ec. cbn [from_option id] in Ec. lia.
Qed.

Lemma destroy_ok N s a n : shape N [] s -> tags_ok N s -> 1 <= height (root s) -> N !! (height (root s), 0) = Some a -> heap s !! a = Some n -> count n = 0 ->
  exists s', free_loop [] a s = Some (tt, s') /\ alike N s ∅ s'.
Proof.
  intros Hs Ht Hh Ha Hn Hc. destruct (node_at_some _ _ _ _ _ _ Hs Ha) as (n0 & Hn0 & Hat & Hok & Hg & Ha0). rewrite Hn in Hn0. injection Hn0 as <-. pose proof (empty_zeroed _ _ _ _ Hok Hc) as Hz.
  pose proof (last_node N s a n Hs Hh Ha Hn Hz) as Honly. destruct (zeroed_node n Hz) as (_ & _ & Z3 & Z4 & _ & _). destruct (sh_root _ _ _ Hs) as (_ & Hgfp & _). cbn [free_loop].
  destruct (root_tag_clear_all_run s Hgfp) as (r & E & R1 & R2 & R3 & R4 & R5). erewrite bind_run by exact E. erewrite bind_run by (unfold st_root_height; erewrite bind_run by reflexivity; reflexivity).
  erewrite bind_run by (unfold st_rnode; erewrite bind_run by reflexivity; reflexivity). unfold free_if. rewrite (proj2 (Z.eqb_neq a NULL)) by done. cbn [negb].
  exists (release a (with_root (mk_root 0 (gfp_mask r) 0) s)). split; [reflexivity|]. split; [|split; [|split; [|exact R4]]].
  - split.
    + split; intros l p b; [by rewrite lookup_empty..|]. intros H. by rewrite lookup_empty in H.
    + split; [cbn; lia|]. split; [done|]. split; [intros _; auto|cbn; lia].
    + intros l p b. by rewrite lookup_empty.
    + apply (pool_release (used ∅) [] (with_root _ s) a n); [|apply not_elem_of_nil|done|done]. apply pool_root. eapply (pool_unuse (used N)); [apply Hs|by eexists|done|by eexists|]. intros b. split.
      * intros [x Hx]. by rewrite lookup_empty in Hx.
      * intros [[x Hx] Hne]. destruct (decide (x = (height (root s), 0))) as [->|Hx0]; [congruence|]. by rewrite Honly in Hx.
  - intros t Ht2. split; [intros _ _; by apply (R5 t)|intros l p Hl; exfalso; cbn in Hl; lia].
  - assert (forall p, node_at N s 1 p = None \/ node_at N s 1 p = Some n) as Hone.
    { intros p. unfold node_at. destruct (decide ((1, p) = (height (root s), 0))) as [E1|E1]; [rewrite E1, Ha; cbn [mbind option_bind]; auto|]. rewrite Honly by done. auto. }
    split; [intros i Hi|intros t i Ht2 Hi]; [rewrite (contents_leaf N s) by done|rewrite (tagged_leaf N s) by done]; [unfold contents|unfold tagged]; cbn [root release with_root height rnode Z.eqb].
    + destruct (Hone (pre 1 i)) as [-> | ->]; [|rewrite Z3]; by destruct (i =? 0).
    + rewrite andb_false_r. destruct (Hone (pre 1 i)) as [-> | ->]; [done|]. rewrite Z4; [done|done|apply off_range].
Qed.

(** ** Freeing the way up *)

Lemma path_ok_cut N i H l l' path : l' < l -> path_ok N i H l path -> path_ok (delete (l', pre l' i) N) i H l path.
Proof.
  revert l. induction path as [|[a k] path IH]; intros l Hlt; cbn [path_ok]; [done|]. intros (H1 & H2 & H3 & H4). split; [done|]. rewrite lookup_delete_ne by (intros [= E _]; lia). split; [done|]. split; [done|]. apply IH; [lia|done].
Qed.

(** The rest of a round of [free_loop], at the level [l] where a slot of [a] has been
    cleared. *)
Definition free_rest (path : list (Z * Z)) (a : Z) : M unit :=
  n ← ld a; if negb (count n =? 0) then r ← ld_root; if a =? rnode r then radix_tree_shrink else mret tt else free_loop path a.

Lemma free_loop_cons path b k a : free_loop ((b, k) :: path) a = (st_slot b k NULL ;; n ← ld b; st_count b (count n - 1) ;; free_if a ;; free_rest path b).
Proof. done. Qed.

Lemma count_pos N l p n k : node_ok N l p n -> 0 <= k < 64 -> slotv n k <> 0 -> 1 <= count n <= 64.
Proof.
  intros Hok Hk Hne. pose proof (nonnull_range n (no_len _ _ _ _ Hok)) as H. pose proof (nonnull_set n k 0 (no_len _ _ _ _ Hok) Hk) as E. rewrite decide_True, decide_False in E by done.
  pose proof (nonnull_range (set_slot n k 0)) as H'. cbn [slots set_slot] in H', E. rewrite length_insert in H'. specialize (H' (no_len _ _ _ _ Hok)). rewrite (no_count _ _ _ _ Hok). lia.
Qed.

Lemma clear_slot_run s b n k c (K : M unit) : b <> NULL -> heap s !! b = Some n -> length (slots n) = 64%nat -> 0 <= k < 64 -> 1 <= count n <= 64 ->
  (st_slot b k NULL ;; n ← ld b; st_count b (count n - 1) ;; free_if c ;; K) s = (free_if c ;; K) (upd b (set_count (set_slot n k 0) (count n - 1)) s).
Proof.
  intros Hb Hn Hl Hk Hc. erewrite bind_run by (by apply st_slot_run). erewrite bind_run by (apply node_ld_run; [done|apply lookup_insert_eq]). cbn [count set_slot].
  erewrite bind_run by (apply st_count_run; [done|apply lookup_insert_eq|unfold is_u32; lia]). by rewrite node_upd_upd.
Qed.

Lemma free_rest_ok i : 0 <= i < 2 ^ 32 -> forall path l N s a, shape N [] s -> tags_ok N s -> 1 <= l -> N !! (l, pre l i) = Some a -> path_ok N i (height (root s)) (l + 1) path ->
  exists s' N', free_rest path a s = Some (tt, s') /\ alike N s N' s'.
Proof.
  intros Hi. induction path as [|[b k] path IH]; intros l N s a Hs Ht Hl Ha Hp; destruct (node_at_some _ _ _ _ _ _ Hs Ha) as (n & Hn & _ & Hok & _ & Ha0); unfold free_rest; (erewrite bind_run by (by apply node_ld_run));
    (destruct (Z.eqb_spec (count n) 0) as [Hc|Hc]; cbn [negb]; [|erewrite bind_run by reflexivity; destruct (Z.eqb_spec a (rnode (root s))) as [Er|Er]; [apply (radix_tree_shrink_ok N s Hs Ht); by rewrite <- Er|exists s, N; split; [done|by apply alike_refl]]]).
  - cbn [path_ok] in Hp. assert (height (root s) = l) as El by lia. assert (pre l i = 0) as Ep by (by apply (lo_level _ _ (sh_labels _ _ _ Hs) _ _ _ Ha)). rewrite Ep, <- El in Ha.
    destruct (destroy_ok N s a n Hs Ht ltac:(lia) Ha Hn Hc) as (s' & E & Hk). by exists s', ∅.
  - cbn [path_ok] in Hp. destruct Hp as (Hlh & Hb & -> & Hp). destruct (node_at_some _ _ _ _ _ _ Hs Hb) as (nb & Hnb & _ & Hbok & _ & Hb0). rewrite free_loop_cons. pose proof (off_range (l + 1) i) as Ho.
    assert (N !! (l + 1 - 1, pre (l + 1 - 1) i) = Some a) as Ha' by (by replace (l + 1 - 1) with l by lia).
    pose proof (cut_slot N s i (l + 1) b a nb n Hs ltac:(lia) Hb Hnb Ha' Hn Hc) as Esl. pose proof (count_pos _ _ _ nb (off (l + 1) i) Hbok Ho ltac:(by rewrite Esl)) as Hcn.
    destruct (cut_alike N s i (l + 1) b a nb n Hs Ht Hi ltac:(lia) Hb Hnb Ha' Hn Hc) as [Hk Er]. set (s1 := after_cut s i (l + 1) b a nb) in *.
    erewrite (clear_slot_run s b nb (off (l + 1) i) a (free_rest path b)) by (done || apply Hbok || (rewrite Esl; done)). unfold free_if. rewrite (proj2 (Z.eqb_neq a NULL)) by done. cbn [negb].
    erewrite bind_run by reflexivity. change (mk_state _ _ _ _ _) with s1. destruct (IH (l + 1) (cut N i (l + 1)) s1 b) as (s' & N' & E & Hk'); [apply Hk|apply Hk|lia| | |].
    + unfold cut. by rewrite lookup_delete_ne by (intros [= E _]; lia).
    + rewrite Er. apply path_ok_cut; [lia|done].
    + exists s', N'. split; [done|]. by eapply alike_trans.
Qed.

(** ** Deletion *)

Definition deleted (N : labels) (s : state) (i : Z) (N' : labels) (s' : state) : Prop :=
  (forall j, 0 <= j < 2 ^ 32 -> contents N' s' j = if decide (j = i) then 0 else contents N s j) /\
  (forall t j, 0 <= t < 2 -> 0 <= j < 2 ^ 32 -> tagged N' s' t j = if decide (j = i) then false else tagged N s t j).

Lemma deleted_absent N s i : shape N [] s -> contents N s i = 0 -> deleted N s i N s.
Proof.
  intros Hs Hc. split; [intros j Hj; case_decide; [by subst j|done]|]. intros t j Ht Hj. case_decide as E; [|done]. subst j. destruct (tagged N s t i) eqn:Et; [|done]. by apply (tagged_present N [] s t i Hs Ht) in Et.
Qed.

(** The item of a tree of height 0. *)
Lemma delete_direct_ok N s r : shape N [] s -> height (root s) = 0 -> height r = 0 -> is_u32 (gfp_mask r) -> (forall t, 0 <= t < 2 -> root_tag_get r t = false) ->
  let s' := with_root (mk_root 0 (gfp_mask r) 0) s in shape N [] s' /\ tags_ok N s' /\ deleted N s 0 N s'.
Proof.
  intros [HL (_ & _ & Hz & _) HN HP] Eh Er Hg Htg s'. destruct (Hz Eh) as [EN _]. split; [split; [by rewrite Eh in HL| |done|by apply pool_root]|].
  - split; [cbn; lia|]. split; [done|]. split; [intros _; auto|cbn; lia].
  - split; [intros t Ht2; split; [intros _ _; by apply (Htg t)|intros l p Hl; exfalso; cbn in Hl; lia]|]. unfold deleted, contents, tagged. cbn [root s' with_root height rnode]. rewrite Eh, !Z.eqb_refl. split.
    + intros j Hj. destruct (Z.eqb_spec j 0); [by rewrite decide_True|by rewrite decide_False].
    + intros t j Ht2 Hj. rewrite andb_false_r. destruct (Z.eqb_spec j 0); [by rewrite decide_True|by rewrite decide_False].
Qed.

(** Clearing the tags of the item. *)
Lemma clear_item_tag_ok N s i t a path : shape N [] s -> tags_ok N s -> 0 <= i < 2 ^ 32 -> 0 <= t < 2 -> 1 <= height (root s) -> N !! (1, pre 1 i) = Some a ->
  exists s', clear_item_tag i t ((a, off 1 i) :: path) s = Some (tt, s') /\ shape N [] s' /\ tags_ok N s' /\ root_gfp_mask (root s') = root_gfp_mask (root s) /\ height (root s') = height (root s) /\ retagged N s t i false s'.
Proof.
  intros Hs Ht Hi Ht2 Hh Ha. destruct (node_at_some _ _ _ _ _ _ Hs Ha) as (n & Hn & Hat & Hok & _ & Ha0). cbn [clear_item_tag]. erewrite bind_run by (apply tag_get_run; [done|exact Hn|apply Hok|apply Hok|done|apply off_range]).
  destruct (tagb n t (off 1 i)) eqn:Eb.
  - destruct (radix_tree_tag_clear_ok N s i t Hs Ht Hi Ht2) as (s' & E & H1 & H2 & H3 & H4 & _ & H5). erewrite bind_run by exact E. by exists s'.
  - exists s. split; [done|]. do 4 (split; [done|]). split; [done|]. intros t' j Ht' Hj. case_decide as E; [|done]. destruct E as [-> ->]. rewrite tagged_leaf, Hat by done. done.
Qed.

(** Taking the item out of its slot, and freeing the nodes. *)
Lemma free_loop_ok N s i path : shape N [] s -> tags_ok N s -> 0 <= i < 2 ^ 32 -> 1 <= height (root s) -> path_ok N i (height (root s)) 1 path -> contents N s i <> 0 -> (forall t, 0 <= t < 2 -> tagged N s t i = false) ->
  exists s' N', free_loop path NULL s = Some (tt, s') /\ shape N' [] s' /\ tags_ok N' s' /\ root_gfp_mask (root s') = root_gfp_mask (root s) /\ deleted N s i N' s'.
Proof.
  intros Hs Ht Hi Hh Hp Hc Htg. destruct path as [|[a k] path]; cbn [path_ok] in Hp; [lia|]. destruct Hp as (_ & Ha & -> & Hp). destruct (node_at_some _ _ _ _ _ _ Hs Ha) as (n & Hn & Hat & Hok & _ & Ha0). pose proof (off_range 1 i) as Ho.
  assert (slotv n (off 1 i) <> 0) as Hsl by (rewrite contents_leaf, Hat in Hc by done; done). assert (forall t, 0 <= t < 2 -> tagb n t (off 1 i) = false) as Hno by (intros t Ht2; specialize (Htg t Ht2); rewrite tagged_leaf, Hat in Htg by done; done).
  rewrite free_loop_cons, (clear_slot_run s a n) by (done || apply Hok || by eapply count_pos). change (free_if NULL) with (mret tt : M unit). erewrite bind_run by reflexivity.
  destruct (put_ok N s i a 0 n Hs Ht Hi Hh Ha Hn ltac:(by left)) as (Hs1 & Ht1 & Hc1 & Htg1). assert (put_item i 0 n = set_count (set_slot n (off 1 i) 0) (count n - 1)) as Ep by (unfold put_item; rewrite decide_True, decide_False by done; f_equal; lia).
  rewrite Ep in Hs1, Ht1, Hc1, Htg1. set (s1 := upd a _ s) in *. destruct (free_rest_ok i Hi path 1 N s1 a Hs1 Ht1 ltac:(lia) Ha Hp) as (s' & N' & E & Hs' & Ht' & [Hsc Hst] & Hg). exists s', N'.
  split; [done|]. do 2 (split; [done|]). split; [done|]. split; [intros j Hj; by rewrite Hsc, Hc1|]. intros t j Ht2 Hj. rewrite Hst, Htg1 by done. case_decide as E0; [|done]. subst j. by apply Htg.
Qed.

Lemma radix_tree_delete_ok N s i : shape N [] s -> tags_ok N s -> 0 <= i < 2 ^ 32 ->
  exists s' N', radix_tree_delete i s = Some (contents N s i, s') /\ shape N' [] s' /\ tags_ok N' s' /\ root_gfp_mask (root s') = root_gfp_mask (root s) /\ deleted N s i N' s'.
Proof.
  intros Hs Ht Hi. unfold radix_tree_delete. erewrite bind_run by reflexivity. pose proof (sh_root _ _ _ Hs) as (Hh & Hg & _). erewrite bind_run by (unfold st_lift; rewrite maxindex_eq by lia; reflexivity).
  assert (contents N s i = 0 -> exists s' N', Some (NULL, s) = Some (contents N s i, s') /\ shape N' [] s' /\ tags_ok N' s' /\ root_gfp_mask (root s') = root_gfp_mask (root s) /\ deleted N s i N' s') as Hnone.
  { intros E. exists s, N. rewrite E. split; [done|]. do 3 (split; [done|]). by apply deleted_absent. }
  destruct (Z.ltb_spec (Z.min (64 ^ height (root s)) (2 ^ 32) - 1) i) as [Hlt|Hge]; [apply Hnone, (beyond N [] s i Hs); lia|].
  destruct (Z.eqb_spec (height (root s)) 0) as [E0|E0]; [destruct (Z.eqb_spec (rnode (root s)) NULL) as [Er|Er]|]; cbn [andb negb].
  2: { destruct (root_tag_clear_all_run s Hg) as (r & E & R1 & R2 & R3 & R4 & R5). erewrite bind_run by exact E. erewrite bind_run by (unfold st_rnode; erewrite bind_run by reflexivity; reflexivity).
       rewrite E0 in Hge. change (Z.min (64 ^ 0) (2 ^ 32) - 1) with 0 in Hge. assert (i = 0) as -> by lia. destruct (delete_direct_ok N s r Hs E0 ltac:(congruence) R3 R5) as (H1 & H2 & H3).
       eexists _, N. split; [unfold contents; rewrite E0; reflexivity|]. cbn [root heap supply preload freed with_root]. rewrite R1, E0. split; [exact H1|]. split; [exact H2|]. split; [exact R4|exact H3]. }
  all: destruct (descend_root N [] s i Hs ltac:(lia)) as (o & E & Ho); erewrite bind_run by exact E; destruct o as [[path v]|]; [|by apply Hnone]; destruct Ho as (Hp & Hv0 & Hv); (destruct (Z.eqb_spec v NULL) as [->|Hne]; [by apply Hnone, Hv0|]).
  - destruct Hne. apply Hv0. unfold contents. rewrite E0, Er. by destruct (i =? 0).
  - assert (contents N s i <> 0) as Hc by (intros Ec; by apply Hne, Hv0). specialize (Hv Hne). unfold entry in Hv. rewrite (proj2 (Z.eqb_neq _ 0)) in Hv by done. subst v.
    pose proof Hp as Hp'. destruct path as [|[a k] path]; cbn [path_ok] in Hp'; [lia|]. destruct Hp' as (_ & Ha & -> & _).
    destruct (clear_item_tag_ok N s i 0 a path Hs Ht Hi ltac:(lia) ltac:(lia) Ha) as (s1 & E1 & Hs1 & Ht1 & Hg1 & Hh1 & Hc1 & Htg1). erewrite bind_run by exact E1.
    destruct (clear_item_tag_ok N s1 i 1 a path Hs1 Ht1 Hi ltac:(lia) ltac:(lia) Ha) as (s2 & E2 & Hs2 & Ht2 & Hg2 & Hh2 & Hc2 & Htg2). erewrite bind_run by exact E2.
    destruct (free_loop_ok N s2 i ((a, off 1 i) :: path) Hs2 Ht2 Hi ltac:(lia)) as (s3 & N' & E3 & Hs3 & Ht3 & Hg3 & Hd1 & Hd2); [by rewrite Hh2, Hh1|by rewrite Hc2, Hc1| |].
    + intros t Htt. rewrite Htg2, Htg1 by done. assert (t = 0 \/ t = 1) as [-> | ->] by lia; repeat case_decide; (done || tauto).
    + erewrite bind_run by exact E3. exists s3, N'. split; [done|]. do 2 (split; [done|]). split; [congruence|]. split; [intros j Hj; rewrite Hd1, Hc2, Hc1 by done; done|]. intros t j Htt Hj. rewrite Hd2, Htg2, Htg1 by done. repeat case_decide; (done || tauto).
Qed.

End RadixDelete.
