(* ===== verification/RadixGang.v ===== *)
(** * Radix trees: gang lookups

    The items that a gang lookup collects are those of the tree in the order of
    their indices. *)

From S2P Require Import Prelude Radix RadixNode RadixShape RadixOps RadixInsert RadixTags.

Module RadixGang.
Import Radix RadixNode RadixShape RadixOps RadixInsert RadixTags.

(** ** Hits

    [sel None] selects the items, [sel (Some t)] those with the tag [t]. *)
Definition sel (N : labels) (s : state) (o : option Z) (x : Z) : bool :=
  match o with None => negb (contents N s x =? 0) | Some t => tagged N s t x end.
Definition hits (N : labels) (s : state) (o : option Z) (lo hi : Z) : list Z :=
  contents N s <$> filter (fun x => sel N s o x = true) (seqZ lo (hi - lo)).

Lemma hits_app N s o lo mid hi : lo <= mid <= hi -> hits N s o lo hi = hits N s o lo mid ++ hits N s o mid hi.
Proof.
  intros H. unfold hits. replace (hi - lo) with ((mid - lo) + (hi - mid)) by lia. rewrite seqZ_app by lia. replace (lo + (mid - lo)) with mid by lia. by rewrite filter_app, fmap_app.
Qed.

Lemma hits_none N s o lo hi : (forall x, lo <= x < hi -> sel N s o x = false) -> hits N s o lo hi = [].
Proof.
  intros H. unfold hits. assert (filter (fun x => sel N s o x = true) (seqZ lo (hi - lo)) = []) as ->; [|done].
  apply elem_of_nil_inv. intros x [Hx Hin]%list_elem_of_filter. apply elem_of_seqZ in Hin. rewrite H in Hx by lia. done.
Qed.

Lemma hits_one N s o x : hits N s o x (x + 1) = if sel N s o x then [contents N s x] else [].
Proof.
  unfold hits. replace (x + 1 - x) with 1 by lia. change (seqZ x 1) with [0 + x]. change (0 + x) with x. destruct (sel N s o x) eqn:E; [by rewrite filter_cons_True|]. rewrite filter_cons_False; [done|congruence].
Qed.

(** ** Moving the index to the next slot *)

Lemma next_slot h x : 1 <= h <= 6 -> 0 <= x < 2 ^ 32 ->
  u32 (Z.land x (u32 (Z.lnot (Z.shiftl 1 (6 * (h - 1)) - 1))) + Z.shiftl 1 (6 * (h - 1))) = u32 ((64 * pre h x + off h x + 1) * 64 ^ (h - 1)) /\
  (64 * pre h x + off h x + 1) * 64 ^ (h - 1) <= 2 ^ 32.
Proof.
  intros Hh Hx. rewrite <- pre_split by lia. unfold pre. rewrite pow64 by lia. set (k := 6 * (h - 1)). assert (0 <= k <= 30) as Hk by lia. rewrite Z.shiftl_1_l. split.
  - f_equal. replace (2 ^ k - 1) with (Z.ones k) by (rewrite Z.ones_equiv; lia). rewrite Z.mul_add_distr_r, Z.mul_1_l. f_equal. rewrite <- Z.shiftr_div_pow2, <- Z.shiftl_mul_pow2 by lia. rewrite <- Z.ldiff_ones_r by lia.
    apply Z.bits_inj'. intros m Hm. rewrite Z.land_spec, Z.ldiff_spec. destruct (Z.lt_ge_cases m 32) as [Hlt|Hge]; [|by rewrite (testbit_high x 32) by lia].
    unfold u32. by rewrite Z.mod_pow2_bits_low, Z.lnot_spec by lia.
  - replace (2 ^ 32) with (2 ^ (32 - k) * 2 ^ k) in * by (rewrite <- Z.pow_add_r by lia; f_equal; lia). assert (0 < 2 ^ k) as Hp by (apply Z.pow_pos_nonneg; lia). apply Z.mul_le_mono_nonneg_r; [lia|].
    assert (x / 2 ^ k < 2 ^ (32 - k)); [|lia]. apply Z.div_lt_upper_bound; lia.
Qed.

(** The first index at or after [x] in the slot [m] of the node for [x] at level [h]. *)
Definition slot_start (h x m : Z) : Z := if decide (m = off h x) then x else (64 * pre h x + m) * 64 ^ (h - 1).

Lemma slot_pre h p k : 1 <= h -> 0 <= k < 64 -> pre h ((64 * p + k) * 64 ^ (h - 1)) = p /\ off h ((64 * p + k) * 64 ^ (h - 1)) = k.
Proof.
  intros Hh Hk. unfold off, pre. pose proof (pow64_pos (h - 1) ltac:(lia)) as Hp. rewrite Z.div_mul by lia. split.
  - rewrite (pow64_succ h), (Z.mul_comm 64 (64 ^ (h - 1))), <- Z.div_div, Z.div_mul by lia. rewrite Z.mul_comm, Z.div_add_l, Z.div_small by lia. lia.
  - rewrite Z.add_comm, Z.mul_comm, Z_mod_plus_full. by apply Z.mod_small.
Qed.

Lemma slot_start_pre h x m : 1 <= h -> off h x <= m < 64 -> pre h (slot_start h x m) = pre h x /\ off h (slot_start h x m) = m /\ pre (h - 1) (slot_start h x m) = 64 * pre h x + m.
Proof.
  intros Hh Hm. pose proof (off_range h x) as Ho. assert (pre h (slot_start h x m) = pre h x /\ off h (slot_start h x m) = m) as [E1 E2]; [|split; [done|]; split; [done|]; rewrite pre_split by lia; by rewrite E1, E2].
  unfold slot_start. case_decide as E; [by subst m|]. apply slot_pre; lia.
Qed.

Lemma slot_start_ge h x m : 1 <= h -> off h x <= m -> x <= slot_start h x m.
Proof.
  intros Hh Hm. unfold slot_start. case_decide as E; [lia|]. pose proof (pre_split h x Hh) as Ex. pose proof (pow64_pos (h - 1) ltac:(lia)) as Hp. pose proof (Z.mul_succ_div_gt x (64 ^ (h - 1)) Hp) as Hgt.
  change (x / 64 ^ (h - 1)) with (pre (h - 1) x) in Hgt. assert (pre (h - 1) x + 1 <= 64 * pre h x + m) as Hle by lia. apply (Z.mul_le_mono_nonneg_r _ _ (64 ^ (h - 1))) in Hle; lia.
Qed.

(** An index below the start of a slot is in an earlier slot. *)
Lemma slot_before h x m y : 1 <= h -> off h x <= m <= 64 -> x <= y < slot_start h x m -> pre h y = pre h x /\ off h x <= off h y < m.
Proof.
  intros Hh Hm Hy. pose proof (off_range h x) as Ho. unfold slot_start in Hy. case_decide as E; [lia|]. pose proof (pow64_pos (h - 1) ltac:(lia)) as Hp. pose proof (pre_split h x Hh) as Ex. pose proof (pre_split h y Hh) as Ey.
  assert (pre (h - 1) x <= pre (h - 1) y) as H1 by (unfold pre; apply Z.div_le_mono; lia). assert (pre (h - 1) y < 64 * pre h x + m) as H2 by (unfold pre at 1; apply Z.div_lt_upper_bound; lia). pose proof (off_range h y). lia.
Qed.

(** ** Looking for a slot *)

Lemma scan_ok (p : Z -> M bool) (f : Z -> bool) s h : (forall k, 0 <= k < 64 -> p k s = Some (f k, s)) -> 1 <= h <= 6 -> forall n x, 0 <= x < 2 ^ 32 -> n = slots_left (off h x) ->
  exists m c, off h x <= m <= 64 /\ c = slot_start h x m /\ c <= 2 ^ 32 /\ (forall k, off h x <= k < m -> f k = false) /\
    (scan p n (6 * (h - 1)) x (off h x) s = Some ((Some m, c), s) /\ m < 64 /\ c < 2 ^ 32 /\ f m = true \/ scan p n (6 * (h - 1)) x (off h x) s = Some ((None, u32 c), s) /\ x < c).
Proof.
  intros Hp Hh. induction n as [|n IH]; intros x Hx Hn; pose proof (off_range h x) as Ho; unfold slots_left, RADIX_TREE_MAP_SIZE, RADIX_TREE_MAP_SHIFT in Hn; [change (Z.shiftl 1 6) with 64 in Hn; lia|]. cbn [scan]. erewrite bind_run by (by apply Hp).
  assert (slot_start h x (off h x) = x) as E0 by (unfold slot_start; by rewrite decide_True). destruct (f (off h x)) eqn:Ef; [exists (off h x), x; rewrite E0; split; [lia|]; split; [done|]; split; [lia|]; split; [lia|]; left; split; [done|]; split; [lia|]; split; [lia|done]|].
  destruct (next_slot h x Hh Hx) as [E1 Hc]. rewrite E1. set (c := (64 * pre h x + off h x + 1) * 64 ^ (h - 1)) in *. change (Z.shiftl 1 6) with 64 in Hn.
  assert (slot_start h x (off h x + 1) = c) as Ec by (unfold slot_start; rewrite decide_False by lia; unfold c; f_equal; lia). assert (x < c) as Hxc.
  { unfold c. rewrite <- pre_split by lia. unfold pre. pose proof (pow64_pos (h - 1) ltac:(lia)) as Hp64. pose proof (Z.mul_succ_div_gt x (64 ^ (h - 1)) Hp64). lia. }
  assert (forall k, off h x <= k < off h x + 1 -> f k = false) as Hf1 by (intros k Hk; by replace k with (off h x) by lia). assert (0 < c) as Hc0 by lia.
  destruct (Z.eqb_spec (u32 c) 0) as [Eu|Eu]; [exists (off h x + 1), c; rewrite Eu, Ec; split; [lia|]; split; [done|]; split; [lia|]; split; [done|]; right; split; [done|lia]|].
  assert (c < 2 ^ 32) as Hlt by (destruct (Z.eq_dec c (2 ^ 32)) as [E|]; [rewrite E in Eu; done|lia]). rewrite u32_small in * by (unfold is_u32; lia). destruct (Z.eq_dec (off h x) 63) as [E63|E63].
  { assert (n = O) as -> by lia. exists 64, c. rewrite <- Ec. replace (off h x + 1) with 64 by lia. split; [lia|]. split; [done|]. rewrite E63 in Ec. change (63 + 1) with 64 in Ec. rewrite Ec.
    split; [lia|]. split; [intros k Hk; apply Hf1; lia|]. right. split; [cbn [scan]; by rewrite u32_small by (unfold is_u32; lia)|lia]. }
  destruct (slot_start_pre h x (off h x + 1) ltac:(lia) ltac:(lia)) as (Q1 & Q2 & _). rewrite Ec in Q1, Q2. rewrite <- Q2.
  destruct (IH c ltac:(lia)) as (m & d & Hm & Hd & Hd2 & Hf & Hres); [rewrite Q2; unfold slots_left; change RADIX_TREE_MAP_SIZE with 64; lia|]. exists m, d. split; [lia|].
  assert (slot_start h c m = slot_start h x m) as Ed. { unfold slot_start at 1. rewrite Q1, Q2. case_decide as E; [rewrite E; done|]. unfold slot_start. by rewrite decide_False by lia. }
  split; [by rewrite <- Ed|]. split; [done|]. split; [intros k Hk; destruct (Z.eq_dec k (off h x)) as [->|]; [done|apply Hf; lia]|]. destruct Hres as [Hres|[Hres Hlt2]]; [by left|right]. split; [done|lia].
Qed.

(** ** The bottom level *)

Lemma leaf_succ x : 0 <= x < 2 ^ 32 -> off 1 x < 63 -> x + 1 < 2 ^ 32 /\ pre 1 (x + 1) = pre 1 x /\ off 1 (x + 1) = off 1 x + 1.
Proof.
  intros Hx Ho. pose proof (off_range 1 x) as H0. pose proof (pre_split 1 x ltac:(lia)) as E. change (1 - 1) with 0 in E. rewrite pre_0 in E.
  assert (x + 1 = (64 * pre 1 x + (off 1 x + 1)) * 64 ^ (1 - 1)) as E1 by (change (64 ^ (1 - 1)) with 1; lia). destruct (slot_pre 1 (pre 1 x) (off 1 x + 1) ltac:(lia) ltac:(lia)) as [Q1 Q2]. rewrite <- E1 in Q1, Q2.
  split; [|done]. destruct (Z.eq_dec (x + 1) (2 ^ 32)) as [E2|]; [|lia]. rewrite E2 in Q2. change (off 1 (2 ^ 32)) with 0 in Q2. lia.
Qed.

(** What a lookup from [x] collects and where it goes on. *)
Definition gang_post (N : labels) (s : state) (o : option Z) (x max : Z) (r : list Z * Z) : Prop :=
  exists c, x < c <= 2 ^ 32 /\ r.2 = u32 c /\ r.1 = hits N s o x c /\ Z.of_nat (length r.1) <= max.

Lemma grab_ok N own s o (p : Z -> M bool) (f : Z -> bool) a n max : shape N own s -> 1 <= height (root s) -> a <> NULL -> heap s !! a = Some n -> length (slots n) = 64%nat -> (forall k, 0 <= k < 64 -> p k s = Some (f k, s)) ->
  forall m x results, 0 <= x < 2 ^ 32 -> N !! (1, pre 1 x) = Some a -> (forall k, 0 <= k < 64 -> f k && negb (slotv n k =? 0) = sel N s o (64 * pre 1 x + k)) ->
    m = slots_left (off 1 x) -> Z.of_nat (length results) < max ->
    exists c, x < c <= 2 ^ 32 /\ grab p m a x (off 1 x) max results s = Some ((results ++ hits N s o x c, u32 c), s) /\ Z.of_nat (length (results ++ hits N s o x c)) <= max.
Proof.
  intros Hs Hh Ha0 Hn Hl Hp. induction m as [|m IH]; intros x results Hx Ha Hsel Hm Hmax; pose proof (off_range 1 x) as Ho; unfold slots_left in Hm; change RADIX_TREE_MAP_SIZE with 64 in Hm; [lia|].
  cbn [grab]. erewrite bind_run by (by apply Hp). erewrite bind_run by (by apply ld_slot_run). change NULL with 0. rewrite Hsel by done. pose proof (pre_split 1 x ltac:(lia)) as Ex. change (1 - 1) with 0 in Ex. rewrite pre_0 in Ex. rewrite <- Ex.
  assert (contents N s x = slotv n (off 1 x)) as Ec by (rewrite contents_leaf by done; unfold node_at; rewrite Ha; cbn [mbind option_bind]; by rewrite Hn).
  assert (forall r', Z.of_nat (length r') < max -> r' = results ++ hits N s o x (x + 1) -> exists c, x < c <= 2 ^ 32 /\ grab p m a (u32 (x + 1)) (off 1 x + 1) max r' s = Some ((results ++ hits N s o x c, u32 c), s) /\ Z.of_nat (length (results ++ hits N s o x c)) <= max) as Hgo.
  { intros r' Hr' Er. destruct (Z.eq_dec (off 1 x) 63) as [E63|E63].
    - assert (m = O) as -> by lia. exists (x + 1). split; [lia|]. cbn [grab]. rewrite <- Er. split; [done|lia].
    - destruct (leaf_succ x Hx ltac:(lia)) as (H1 & H2 & H3). rewrite u32_small by (unfold is_u32; lia). rewrite <- H3. destruct (IH (x + 1) r' ltac:(lia)) as (c & Hc & E & Hlen); [by rewrite H2|by rewrite H2|unfold slots_left; change RADIX_TREE_MAP_SIZE with 64; lia|done|].
      assert (results ++ hits N s o x c = r' ++ hits N s o (x + 1) c) as Eh by (rewrite (hits_app N s o x (x + 1) c), app_assoc by lia; by rewrite <- Er). exists c. rewrite Eh. split; [lia|]. done. }
  destruct (sel N s o x) eqn:Es.
  - assert (results ++ [slotv n (off 1 x)] = results ++ hits N s o x (x + 1)) as Er by (by rewrite hits_one, Es, Ec). destruct (Z.eqb_spec (Z.of_nat (length (results ++ [slotv n (off 1 x)]))) max) as [E|E].
    + exists (x + 1). rewrite <- Er. split; [lia|]. split; [done|lia].
    + apply Hgo; [|done]. rewrite length_app in *. cbn [length] in *. lia.
  - apply Hgo; [done|]. by rewrite hits_one, Es, app_nil_r.
Qed.

(** ** What is not below a slot *)

(** No node below an empty slot. *)
Lemma absent_below N own s l p n x : shape N own s -> 2 <= l <= height (root s) -> 0 <= x < 2 ^ 32 -> node_ok N l p n -> pre l x = p -> slotv n (off l x) = 0 -> contents N s x = 0.
Proof.
  intros Hs Hl Hx Hok <- Hz. rewrite (child_node N l x n Hok) in Hz by lia. destruct (N !! (l - 1, pre (l - 1) x)) as [b|] eqn:Eb; cbn [from_option id] in Hz.
  - destruct (node_at_some _ _ _ _ _ _ Hs Eb) as (_ & _ & _ & _ & _ & Hb). done.
  - rewrite contents_leaf by lia. unfold node_at. by rewrite (no_descendant N _ x 1 (l - 1) (sh_labels _ _ _ Hs)) by (done || lia).
Qed.

(** A tagged item has its bits on the way set. *)
Lemma tagged_up N own s t x : shape N own s -> tags_ok N s -> 0 <= t < 2 -> 0 <= x < 2 ^ 32 -> tagged N s t x = true -> forall m, (Z.of_nat m + 1) <= height (root s) -> tagv N s (Z.of_nat m + 1) (pre (Z.of_nat m + 1) x) t (off (Z.of_nat m + 1) x) = true.
Proof.
  intros Hs Htags Ht Hx Htg. assert (contents N s x <> 0) as Hc by (by eapply tagged_present). induction m as [|m IH]; intros Hm.
  - change (Z.of_nat 0 + 1) with 1 in *. rewrite tagged_leaf in Htg by lia. exact Htg.
  - specialize (IH ltac:(lia)). set (l := Z.of_nat m + 1) in *. replace (Z.of_nat (S m) + 1) with (l + 1) in * by lia. pose proof (proj2 (Htags t Ht) l (pre l x) ltac:(lia) ltac:(apply pre_nonneg; lia) ltac:(lia)) as E.
    unfold up_tag in E. rewrite (proj2 (Z.eqb_neq _ _)) in E by lia. destruct (pre_up (l + 1) x ltac:(lia)) as [E1 E2]. replace (l + 1 - 1) with l in * by lia. rewrite E1, E2 in E. unfold tagv. rewrite E.
    unfold tagv in IH. unfold node_any. destruct (node_at N s l (pre l x)) as [k|] eqn:Ek; [|done]. unfold node_at in Ek. destruct (N !! (l, pre l x)) as [b|] eqn:Eb; [|done]. cbn [mbind option_bind] in Ek.
    destruct (sh_nodes _ _ _ Hs _ _ _ Eb) as (k0 & Hk0 & Hok). rewrite Ek in Hk0. injection Hk0 as <-. apply any_tag_spec; [apply Hok|done|]. exists (off l x). split; [apply off_range|done].
Qed.

(** ** One lookup *)

Section Down.
Context (N : labels) (own : list Z) (s : state) (max : Z).
Hypothesis Hs : shape N own s.
Hypothesis Htags : tags_ok N s.
Hypothesis Hmax : 1 <= max.

Lemma mask_off x : Z.land x RADIX_TREE_MAP_MASK = off 1 x.
Proof. exact (offset_of_off 1 x ltac:(lia)). Qed.

Lemma gang_skip o h x m (f : Z -> bool) : 1 <= h -> 0 <= x -> off h x <= m <= 64 -> slot_start h x m <= 2 ^ 32 -> (forall k, off h x <= k < m -> f k = false) ->
  (forall y, 0 <= y < 2 ^ 32 -> pre h y = pre h x -> f (off h y) = false -> sel N s o y = false) -> hits N s o x (slot_start h x m) = [].
Proof.
  intros Hh Hx Hm Hc Hf Hsel. apply hits_none. intros y Hy. destruct (slot_before h x m y Hh Hm Hy) as [E1 E2]. apply Hsel; [lia|done|]. apply Hf. lia.
Qed.

Lemma leaf_item x a n k : 1 <= height (root s) -> N !! (1, pre 1 x) = Some a -> heap s !! a = Some n -> 0 <= k < 64 -> contents N s (64 * pre 1 x + k) = slotv n k /\ forall t, tagged N s t (64 * pre 1 x + k) = tagb n t k.
Proof.
  intros Hh Ha Hn Hk. destruct (slot_pre 1 (pre 1 x) k ltac:(lia) Hk) as [E1 E2]. change (64 ^ (1 - 1)) with 1 in *. rewrite Z.mul_1_r in *. split; [|intros t]; rewrite ?contents_leaf, ?tagged_leaf by done; unfold node_at; rewrite E1, E2, Ha; cbn [mbind option_bind]; by rewrite Hn.
Qed.

(** From an index on, through the rest. *)
Lemma post_step o x c max' r : 0 <= x <= c -> c < 2 ^ 32 -> hits N s o x c = [] -> gang_post N s o c max' r -> gang_post N s o x max' r.
Proof. intros Hx Hc E (d & Hd & E1 & E2 & E3). exists d. split; [lia|]. split; [done|]. split; [|done]. by rewrite (hits_app N s o x c d), E by lia. Qed.

Lemma post_none o x c : x < c <= 2 ^ 32 -> hits N s o x c = [] -> gang_post N s o x max ([], u32 c).
Proof. intros Hc E. exists c. split; [done|]. split; [done|]. split; [done|]. cbn. lia. Qed.

Lemma lookup_down_ok h : forall x a, (1 <= h)%nat -> Z.of_nat h <= height (root s) -> 0 <= x < 2 ^ 32 -> N !! (Z.of_nat h, pre (Z.of_nat h) x) = Some a ->
  exists r, lookup_down h x (6 * (Z.of_nat h - 1)) a max s = Some (r, s) /\ gang_post N s None x max r.
Proof.
  pose proof (sh_root _ _ _ Hs) as (Hh6 & _). induction h as [|h IH]; intros x a Hh HH Hx Ha; [lia|]. destruct (node_at_some _ _ _ _ _ _ Hs Ha) as (n & Hn & _ & Hok & _ & Ha0). pose proof (off_range (Z.of_nat (S h)) x) as Ho. destruct h as [|h].
  - change (Z.of_nat 1) with 1 in *. cbn [lookup_down]. rewrite mask_off.
    destruct (grab_ok N own s None (fun _ => mret true) (fun _ => true) a n max Hs HH Ha0 Hn (no_len _ _ _ _ Hok) ltac:(done) (slots_left (off 1 x)) x [] Hx Ha) as (c & Hc & E & Hlen); [|done|cbn; lia|].
    + intros k Hk. unfold sel. by destruct (leaf_item x a n k HH Ha Hn Hk) as [-> _].
    + eexists. split; [exact E|]. exists c. done.
  - set (l := Z.of_nat (S (S h))) in *. assert (lookup_down (S (S h)) x (6 * (l - 1)) a max = ('(o, index) ← scan (slot_used a) (slots_left (offset_of x (6 * (l - 1)))) (6 * (l - 1)) x (offset_of x (6 * (l - 1)));
      match o with None => mret ([], index) | Some i => next ← ld_slot a i; if next =? NULL then mret ([], index) else lookup_down (S h) index (next_shift (6 * (l - 1))) next max end)) as -> by done.
    rewrite offset_of_off by lia. destruct (scan_ok (slot_used a) (fun k => negb (slotv n k =? NULL)) s l) with (n := slots_left (off l x)) (x := x) as (m & c & Hm & Ec & Hc & Hf & Hres); [|lia|done|done|].
    { intros k Hk. unfold slot_used. erewrite bind_run by (apply ld_slot_run; [done|exact Hn|apply Hok|done]). done. }
    assert (hits N s None x c = []) as Hskip.
    { rewrite Ec. eapply (gang_skip None l x m); [lia|lia|done|lia|exact Hf|]. intros y Hy Ey Hz. unfold sel. rewrite (absent_below N own s l (pre l x) n y); try done; [lia|]. apply negb_false_iff, Z.eqb_eq in Hz. done. }
    destruct Hres as [(E & Hm64 & Hc2 & Hfm)|[E Hlt]]; (erewrite bind_run by exact E); [|eexists; split; [reflexivity|]; by apply post_none].
    cbv beta iota. erewrite bind_run by (apply ld_slot_run; [done|exact Hn|apply Hok|lia]). apply negb_true_iff in Hfm. rewrite Hfm. replace (next_shift (6 * (l - 1))) with (6 * (Z.of_nat (S h) - 1)) by (symmetry; apply next_shift_down; lia). destruct (slot_start_pre l x m ltac:(lia) ltac:(lia)) as (_ & _ & Q). rewrite <- Ec in Q.
    pose proof (slot_start_ge l x m ltac:(lia) ltac:(lia)) as Hxc. rewrite <- Ec in Hxc.
    destruct (IH c (slotv n m)) as (r & Er & Hr); [lia|lia|lia| |exists r; split; [done|]; eapply (post_step None x c); [lia|lia|done|done]].
    replace (Z.of_nat (S h)) with (l - 1) by lia. rewrite Q. pose proof (no_child _ _ _ _ Hok ltac:(lia) m ltac:(lia)) as Ech. apply Z.eqb_neq in Hfm. destruct (N !! (l - 1, 64 * pre l x + m)); cbn [from_option id] in Ech; [congruence|done].
Qed.

Lemma not_tagged_below t l n x y : 0 <= t < 2 -> 1 <= l <= height (root s) -> 0 <= y < 2 ^ 32 -> node_at N s l (pre l x) = Some n -> pre l y = pre l x -> tagb n t (off l y) = false -> tagged N s t y = false.
Proof.
  intros Ht Hl Hy Hat Ey Hz. destruct (tagged N s t y) eqn:E; [|done]. pose proof (tagged_up N own s t y Hs Htags Ht Hy E (Z.to_nat (l - 1)) ltac:(lia)) as H. replace (Z.of_nat (Z.to_nat (l - 1)) + 1) with l in H by lia.
  unfold tagv in H. rewrite Ey, Hat in H. congruence.
Qed.

Lemma lookup_tag_down_ok t h : 0 <= t < 2 -> forall x a, (1 <= h)%nat -> Z.of_nat h <= height (root s) -> 0 <= x < 2 ^ 32 -> N !! (Z.of_nat h, pre (Z.of_nat h) x) = Some a ->
  exists r, lookup_tag_down h x (6 * (Z.of_nat h - 1)) a t max s = Some (r, s) /\ gang_post N s (Some t) x max r.
Proof.
  intros Ht. pose proof (sh_root _ _ _ Hs) as (Hh6 & _). induction h as [|h IH]; intros x a Hh HH Hx Ha; [lia|]. destruct (node_at_some _ _ _ _ _ _ Hs Ha) as (n & Hn & Hat & Hok & _ & Ha0).
  cbn [lookup_tag_down]. set (l := Z.of_nat (S h)) in *. pose proof (off_range l x) as Ho. rewrite offset_of_off by lia.
  assert (forall k, 0 <= k < 64 -> tag_get a t k s = Some (tagb n t k, s)) as Hget by (intros k Hk; apply tag_get_run; [done|exact Hn|apply Hok|apply Hok|done|done]).
  destruct (scan_ok (tag_get a t) (tagb n t) s l Hget ltac:(lia)) with (n := slots_left (off l x)) (x := x) as (m & c & Hm & Ec & Hc & Hf & Hres); [done|done|].
  assert (hits N s (Some t) x c = []) as Hskip by (rewrite Ec; eapply (gang_skip (Some t) l x m); [lia|lia|done|lia|exact Hf|]; intros y Hy Ey Hz; apply (not_tagged_below t l n x y); (done || lia)).
  destruct Hres as [(E & Hm64 & Hc2 & Hfm)|[E Hlt]]; (erewrite bind_run by exact E); cbv beta iota; [|eexists; split; [reflexivity|]; by apply post_none].
  destruct (slot_start_pre l x m ltac:(lia) ltac:(lia)) as (Q1 & Q2 & Q). rewrite <- Ec in Q1, Q2, Q. pose proof (slot_start_ge l x m ltac:(lia) ltac:(lia)) as Hxc. rewrite <- Ec in Hxc.
  pose proof (no_tagged _ _ _ _ Hok t m Ht ltac:(lia) Hfm) as Hsl. destruct h as [|h].
  - change l with 1 in *. rewrite mask_off. destruct (grab_ok N own s (Some t) (tag_get a t) (tagb n t) a n max Hs ltac:(lia) Ha0 Hn (no_len _ _ _ _ Hok) Hget (slots_left (off 1 c)) c [] ltac:(lia)) as (d & Hd & Ed & Hlen); [by rewrite Q1| |done|cbn; lia|].
    + intros k Hk. destruct (leaf_item c a n k ltac:(lia) ltac:(by rewrite Q1) Hn Hk) as [_ Htg]. unfold sel. rewrite Htg. destruct (tagb n t k) eqn:Eb; [|done]. cbn [andb]. apply negb_true_iff, Z.eqb_neq. by apply (no_tagged _ _ _ _ Hok t).
    + eexists. split; [exact Ed|]. eapply (post_step (Some t) x c); [lia|lia|done|]. by exists d.
  - erewrite bind_run by (apply ld_slot_run; [done|exact Hn|apply Hok|lia]). rewrite (proj2 (Z.eqb_neq _ NULL)) by done. replace (next_shift (6 * (l - 1))) with (6 * (Z.of_nat (S h) - 1)) by (symmetry; apply next_shift_down; lia).
    destruct (IH c (slotv n m)) as (r & Er & Hr); [lia|lia|lia| |exists r; split; [done|]; eapply (post_step (Some t) x c); [lia|lia|done|done]].
    replace (Z.of_nat (S h)) with (l - 1) by lia. rewrite Q. pose proof (no_child _ _ _ _ Hok ltac:(lia) m ltac:(lia)) as Ech. destruct (N !! (l - 1, 64 * pre l x + m)); cbn [from_option id] in Ech; [congruence|done].
Qed.

End Down.

(** ** The loop *)

(** The first [max] hits from [x] on. *)
Definition first_hits (N : labels) (s : state) (o : option Z) (x max : Z) : list Z := take (Z.to_nat max) (hits N s o x (2 ^ 32)).

Lemma gang_loop_ok N s o (lookup : Z -> Z -> M (list Z * Z)) max_index max : (forall x m, 0 <= x <= max_index -> 1 <= m -> exists r, lookup x m s = Some (r, s) /\ gang_post N s o x m r) ->
  max_index < 2 ^ 32 -> (forall x, max_index < x < 2 ^ 32 -> sel N s o x = false) -> forall first, 0 <= first < 2 ^ 32 -> forall fuel x results, first <= x < 2 ^ 32 -> 2 ^ 32 - x <= Z.of_nat fuel ->
  results = hits N s o first x -> Z.of_nat (length results) <= max -> gang_loop lookup fuel x max_index max results s = Some (first_hits N s o first max, s).
Proof.
  intros Hl Hmi Hbeyond first Hfirst. induction fuel as [|fuel IH]; intros x results Hx Hfuel Er Hlen; [lia|]. cbn [gang_loop].
  assert (hits N s o first (2 ^ 32) = results ++ hits N s o x (2 ^ 32)) as Eall by (rewrite Er; apply hits_app; lia).
  destruct (Z.ltb_spec (Z.of_nat (length results)) max) as [Hlt|Hge]; cbn [negb]; [|unfold first_hits; rewrite Eall, take_app_length' by lia; done].
  destruct (Z.ltb_spec max_index x) as [Hgt|Hle]; [unfold first_hits; rewrite Eall, (hits_none N s o x), app_nil_r, take_ge by (lia || (intros; apply Hbeyond; lia)); done|].
  destruct (Hl x (max - Z.of_nat (length results)) ltac:(lia) ltac:(lia)) as ([found next] & E & c & Hc & Enext & Efound & Hlf). cbn [fst snd] in *. erewrite bind_run by exact E. cbv beta iota.
  assert (results ++ found = hits N s o first c) as Eres by (rewrite Er, Efound; symmetry; apply hits_app; lia). assert (Z.of_nat (length (results ++ found)) <= max) as Hlen' by (rewrite length_app; lia).
  destruct (Z.eqb_spec next 0) as [E0|E0].
  - assert (c = 2 ^ 32) as Ec by (destruct (Z.eq_dec c (2 ^ 32)) as [|Hne]; [done|]; rewrite u32_small in Enext by (unfold is_u32; lia); lia). unfold first_hits. rewrite <- Ec, <- Eres, take_ge by lia. done.
  - assert (c < 2 ^ 32) as Hc2 by (destruct (Z.eq_dec c (2 ^ 32)) as [Ec|]; [rewrite Ec in Enext; done|lia]). rewrite Enext, u32_small by (unfold is_u32; lia). apply IH; [lia|lia|done|done].
Qed.

Lemma gang_direct N own s o item x max : shape N own s -> height (root s) = 0 -> good item -> rnode (root s) = item + 1 -> 0 <= x < 2 ^ 32 -> 1 <= max -> match o with None => True | Some t => root_tag_get (root s) t = true end ->
  first_hits N s o x max = if 0 <? x then [] else [item].
Proof.
  intros Hs E Hg Er Hx Hmax Ho. assert (contents N s 0 = item) as Ec by (unfold contents; rewrite E, Er; by apply direct_to_ptr_direct). assert (item <> 0 /\ item + 1 <> 0) as [Hi0 Hi1] by (destruct Hg; lia).
  assert (forall y, 0 < y -> sel N s o y = false) as Hno by (intros y Hy; unfold sel, contents, tagged; rewrite E, Z.eqb_refl, (proj2 (Z.eqb_neq y 0)) by lia; by destruct o).
  assert (sel N s o 0 = true) as H0 by (unfold sel, tagged; rewrite Ec, E, Er; destruct o as [t|]; [rewrite Z.eqb_refl, (proj2 (Z.eqb_neq (item + 1) 0)), Ho by done; done|by rewrite (proj2 (Z.eqb_neq item 0))]).
  unfold first_hits. destruct (Z.ltb_spec 0 x) as [Hlt|Hge]; [rewrite hits_none by (intros; apply Hno; lia); apply take_nil|]. replace x with 0 by lia.
  rewrite (hits_app N s o 0 1 (2 ^ 32)), (hits_none N s o 1), app_nil_r by (lia || (intros; apply Hno; lia)). change 1 with (0 + 1) at 1. rewrite hits_one, H0, Ec. apply take_ge. cbn. lia.
Qed.

(** Nothing in an empty tree. *)
Lemma gang_empty N own s o x max : shape N own s -> tags_ok N s -> rnode (root s) = 0 -> 0 <= x < 2 ^ 32 -> match o with None => True | Some t => 0 <= t < 2 end -> first_hits N s o x max = [].
Proof.
  intros Hs Ht Er Hx Ho. assert (forall y, 0 <= y < 2 ^ 32 -> contents N s y = 0) as Hc by (intros y Hy; destruct (root_cases N own s y Hs) as [(_ & _ & ?)|[(_ & item & [? _] & ? & _)|[(_ & _ & ? & _)|(_ & a & n & _ & ? & _ & _ & [? _])]]]; (done || lia)).
  unfold first_hits. rewrite hits_none; [apply take_nil|]. intros y Hy. unfold sel. destruct o as [t|]; [|by rewrite Hc by lia].
  destruct (tagged N s t y) eqn:E; [|done]. by apply (tagged_present N own s t y Hs Ho) in E; destruct E; apply Hc; lia.
Qed.

(** ** Gang lookups *)

Lemma radix_tree_gang_lookup_ok N own s first max fuel : shape N own s -> tags_ok N s -> 0 <= first < 2 ^ 32 -> 1 <= max -> 2 ^ 32 <= Z.of_nat fuel ->
  radix_tree_gang_lookup fuel first max s = Some (first_hits N s None first max, s).
Proof.
  intros Hs Ht Hx Hmax Hfuel. unfold radix_tree_gang_lookup. erewrite bind_run by reflexivity. destruct (root_cases N own s first Hs) as [(E & E0 & _)|[(E & item & Hg & E0 & _)|[(E & E0 & _)|(Hh & a & n & Ha & E0 & Hn & Hok & Hg)]]]; rewrite E0.
  1, 3: by rewrite (gang_empty N own s None first max).
  - rewrite (gang_direct N own s None item first max) by done. destruct Hg as [Hr Hev] eqn:Eg. clear Eg. rewrite (proj2 (Z.eqb_neq (item + 1) NULL)), direct_is, direct_to_ptr_direct by (done || unfold NULL; lia). done.
  - assert (a <> NULL) as Ha0 by (destruct Hg; unfold NULL; lia). rewrite (proj2 (Z.eqb_neq a NULL)), good_not_direct by done. erewrite bind_run by (by apply node_ld_run). rewrite (no_height _ _ _ _ Hok).
    erewrite bind_run by (unfold st_lift; rewrite maxindex_eq by lia; reflexivity). apply gang_loop_ok with (first := first); [|lia| |done|lia|lia| |cbn; lia].
    + intros x m Hx' Hm. unfold __lookup. erewrite bind_run by (by apply node_ld_run). rewrite (no_height _ _ _ _ Hok), first_shift_eq by lia.
      destruct (lookup_down_ok N own s m Hs Hm (Z.to_nat (height (root s))) x a) as (r & E & Hr); [lia|lia|lia|rewrite Z2Nat.id, pre_top by lia; done|]. rewrite Z2Nat.id in E by lia. by exists r.
    + intros x Hx'. unfold sel. destruct (beyond N own s x Hs) as [-> _]; [lia|lia|done].
    + symmetry. apply hits_none. lia.
Qed.

(** An item with the tag shows in the root. *)
Lemma root_untagged N own s t x : shape N own s -> tags_ok N s -> 0 <= t < 2 -> 0 <= x < 2 ^ 32 -> root_tag_get (root s) t = false -> tagged N s t x = false.
Proof.
  intros Hs Ht Ht2 Hx Hr. destruct (tagged N s t x) eqn:E; [|done]. pose proof (sh_root _ _ _ Hs) as (Hh & _). destruct (Z.eq_dec (height (root s)) 0) as [E0|E0].
  - unfold tagged in E. rewrite E0, Hr, andb_false_r in E. done.
  - pose proof (tagged_present N own s t x Hs Ht2 E) as Hc. pose proof (path_top N own s x Hs Hx Hc ltac:(lia)) as Hp. destruct (path_exists N own s x Hs Hx Hc (height (root s)) ltac:(lia)) as [a Ha]. destruct (node_at_some _ _ _ _ _ _ Hs Ha) as (n & _ & Hat & Hok & _).
    pose proof (tagged_up N own s t x Hs Ht Ht2 Hx E (Z.to_nat (height (root s) - 1)) ltac:(lia)) as H. replace (Z.of_nat (Z.to_nat (height (root s) - 1)) + 1) with (height (root s)) in H by lia.
    pose proof (proj2 (Ht t Ht2) (height (root s)) 0 ltac:(lia) ltac:(lia) ltac:(done)) as Hu. unfold up_tag, node_any in Hu. rewrite <- Hp in Hu. rewrite Z.eqb_refl, Hr, Hat in Hu. unfold tagv in H. rewrite Hat in H.
    assert (any_tag n t = true) as Hany by (apply any_tag_spec; [apply Hok|done|]; exists (off (height (root s)) x); split; [apply off_range|done]). congruence.
Qed.

Lemma radix_tree_gang_lookup_tag_ok N own s first max t fuel : shape N own s -> tags_ok N s -> 0 <= first < 2 ^ 32 -> 1 <= max -> 0 <= t < 2 -> 2 ^ 32 <= Z.of_nat fuel ->
  radix_tree_gang_lookup_tag fuel first max t s = Some (first_hits N s (Some t) first max, s).
Proof.
  intros Hs Ht Hx Hmax Ht2 Hfuel. unfold radix_tree_gang_lookup_tag. erewrite bind_run by reflexivity. destruct (root_tag_get (root s) t) eqn:Etag; cbn [negb].
  2: { unfold first_hits. rewrite hits_none; [by rewrite take_nil|]. intros x Hx'. apply (root_untagged N own s t x); (done || lia). }
  destruct (root_cases N own s first Hs) as [(E & E0 & _)|[(E & item & Hg & E0 & _)|[(E & E0 & _)|(Hh & a & n & Ha & E0 & Hn & Hok & Hg)]]]; rewrite E0.
  1, 3: by rewrite (gang_empty N own s (Some t) first max).
  - rewrite (gang_direct N own s (Some t) item first max) by done. destruct Hg as [Hr Hev] eqn:Eg. clear Eg. rewrite (proj2 (Z.eqb_neq (item + 1) NULL)), direct_is, direct_to_ptr_direct by (done || unfold NULL; lia). done.
  - assert (a <> NULL) as Ha0 by (destruct Hg; unfold NULL; lia). rewrite (proj2 (Z.eqb_neq a NULL)), good_not_direct by done. erewrite bind_run by (by apply node_ld_run). rewrite (no_height _ _ _ _ Hok).
    erewrite bind_run by (unfold st_lift; rewrite maxindex_eq by lia; reflexivity). apply gang_loop_ok with (first := first); [|lia| |done|lia|lia| |cbn; lia].
    + intros x m Hx' Hm. unfold __lookup_tag. erewrite bind_run by (by apply node_ld_run). rewrite (no_height _ _ _ _ Hok), first_shift_eq by lia.
      destruct (lookup_tag_down_ok N own s m Hs Ht Hm t (Z.to_nat (height (root s))) Ht2 x a) as (r & E & Hr); [lia|lia|lia|rewrite Z2Nat.id, pre_top by lia; done|]. rewrite Z2Nat.id in E by lia. by exists r.
    + intros x Hx'. unfold sel. destruct (beyond N own s x Hs) as [_ ->]; [lia|lia|done].
    + symmetry. apply hits_none. lia.
Qed.

(** A node with the tag has an item with the tag. *)
Lemma tagged_down N own s t : shape N own s -> tags_ok N s -> 0 <= t < 2 -> forall m p, Z.of_nat m + 1 <= height (root s) -> node_any N s t (Z.of_nat m + 1) p = true -> exists x, 0 <= x < 2 ^ 32 /\ tagged N s t x = true.
Proof.
  intros Hs Ht Ht2. induction m as [|m IH]; intros p Hm Hany; unfold node_any in Hany; destruct (node_at N s _ p) as [n|] eqn:Hat; try done; unfold node_at in Hat; destruct (N !! (_, p)) as [a|] eqn:Ha; try done; cbn [mbind option_bind] in Hat;
    destruct (sh_nodes _ _ _ Hs _ _ _ Ha) as (n0 & Hn0 & Hok); rewrite Hat in Hn0; injection Hn0 as <-; destruct (lo_level _ _ (sh_labels _ _ _ Hs) _ _ _ Ha) as (_ & Hp & _); (apply any_tag_spec in Hany as (k & Hk & Hb); [|apply Hok|done]); pose proof (no_tagged _ _ _ _ Hok t k Ht2 Hk Hb) as Hsl;
    pose proof (no_bound _ _ _ _ Hok k Hk Hsl) as Hbd.
  - change (Z.of_nat 0 + 1) with 1 in *. destruct (slot_pre 1 p k ltac:(lia) Hk) as [E1 E2]. change (64 ^ (1 - 1)) with 1 in *. rewrite Z.mul_1_r in *. exists (64 * p + k). split; [lia|]. rewrite tagged_leaf by lia. unfold node_at. rewrite E1, E2, Ha. cbn [mbind option_bind]. by rewrite Hat.
  - apply (IH (64 * p + k)); [lia|]. set (l := Z.of_nat m + 1) in *. replace (Z.of_nat (S m) + 1) with (l + 1) in * by lia. rewrite <- (proj2 (Ht t Ht2) l) by lia. unfold up_tag. rewrite (proj2 (Z.eqb_neq _ _)) by lia.
    replace ((64 * p + k) / 64) with p by (rewrite Z.mul_comm, Z.div_add_l, (Z.div_small k) by lia; lia). replace ((64 * p + k) mod 64) with k by (rewrite Z.add_comm, Z.mul_comm, Z_mod_plus_full; symmetry; by apply Z.mod_small).
    unfold node_at. rewrite Ha. cbn [mbind option_bind]. by rewrite Hat.
Qed.

Lemma radix_tree_tagged_ok N own s t : shape N own s -> tags_ok N s -> 0 <= t < 2 -> exists b, radix_tree_tagged t s = Some (b, s) /\ (b = true <-> exists x, 0 <= x < 2 ^ 32 /\ tagged N s t x = true).
Proof.
  intros Hs Ht Ht2. exists (root_tag_get (root s) t). split; [done|]. pose proof (sh_root _ _ _ Hs) as (Hh & _). split.
  - intros Hr. destruct (Z.eq_dec (height (root s)) 0) as [E0|E0].
    + exists 0. split; [lia|]. unfold tagged. rewrite E0, Z.eqb_refl, Hr. destruct (Z.eqb_spec (rnode (root s)) 0) as [E|E]; [|done]. destruct (Ht t Ht2) as [H0 _]. rewrite H0 in Hr by done. done.
    + apply (tagged_down N own s t Hs Ht Ht2 (Z.to_nat (height (root s) - 1)) 0); [lia|]. replace (Z.of_nat (Z.to_nat (height (root s) - 1)) + 1) with (height (root s)) by lia. rewrite <- (proj2 (Ht t Ht2)) by lia. unfold up_tag. by rewrite Z.eqb_refl.
  - intros (x & Hx & Htg). destruct (root_tag_get (root s) t) eqn:E; [done|]. by rewrite (root_untagged N own s t x) in Htg.
Qed.

End RadixGang.
