(* ===== verification/RadixTheorems.v ===== *)
(** * Radix trees: the theorems

    A radix tree implements a finite map from indices to items with sets of tagged
    indices: every function of the interface simulates its specification. *)

From S2P Require Import Prelude Radix RadixNode RadixShape RadixOps RadixInsert RadixAlloc RadixTags RadixDelete RadixGang.

Module RadixTheorems.
Import Radix RadixNode RadixShape RadixOps RadixInsert RadixAlloc RadixTags RadixDelete RadixGang.

(** ** Replacing an item *)

Lemma low_bit v : good v -> Z.land v RADIX_TREE_DIRECT_PTR = 0 /\ Z.land (v + 1) RADIX_TREE_DIRECT_PTR = 1.
Proof.
  intros [H He]. unfold RADIX_TREE_DIRECT_PTR. change 1 with (2 ^ 1 - 1) at 1 3. rewrite !land_ones_mod by lia. change (2 ^ 1) with 2. rewrite !Zmod_even, Z.even_add, He. done.
Qed.

Lemma slot_item N own s i a n : shape N own s -> 1 <= height (root s) -> N !! (1, pre 1 i) = Some a -> heap s !! a = Some n -> contents N s i <> 0 -> good (contents N s i) /\ slotv n (off 1 i) = contents N s i.
Proof.
  intros Hs Hh Ha Hn Hc. destruct (node_at_some _ _ _ _ _ _ Hs Ha) as (n0 & Hn0 & Hat & Hok & _). rewrite Hn in Hn0. injection Hn0 as <-. rewrite contents_leaf, Hat in * by done. split; [|done].
  destruct (no_item _ _ _ _ Hok eq_refl (off 1 i) (off_range _ _)); done.
Qed.

Lemma replace_root_ok N s item v : shape N [] s -> tags_ok N s -> height (root s) = 0 -> good v -> rnode (root s) = v + 1 -> good item ->
  let s' := with_root (mk_root 0 (gfp_mask (root s)) (item + 1)) s in shape N [] s' /\ tags_ok N s' /\ inserted N s 0 item N s'.
Proof.
  intros [HL (_ & Hm & Hz & _) HN HP] Ht Eh Hv Er Hg s'. destruct (Hz Eh) as [EN _]. assert (item + 1 <> 0 /\ v + 1 <> 0) as [Hne Hnv] by (destruct Hg, Hv; lia). split; [split; [by rewrite Eh in HL| |done|by apply pool_root]|].
  - split; [cbn; lia|]. split; [done|]. split; [intros _; split; [done|right; by exists item]|cbn; lia].
  - split; [intros t Ht2; split; [intros _ E; by destruct Hne|intros l p Hl; exfalso; cbn in Hl; lia]|]. unfold inserted, contents, tagged. cbn [root s' with_root height rnode]. rewrite Eh, Er, !Z.eqb_refl. split.
    + intros j Hj. rewrite direct_to_ptr_direct by done. destruct (Z.eqb_spec j 0); [by rewrite decide_True|by rewrite decide_False].
    + intros t j Ht2 Hj. by rewrite !(proj2 (Z.eqb_neq (_ + 1) 0)) by done.
Qed.

(** [radix_tree_lookup_slot], and the uses of its result. *)
Definition deref_index (index : Z) : M Z := o ← radix_tree_lookup_slot index; match o with Some p => radix_tree_deref_slot p | None => mret NULL end.
Definition replace_index (index item : Z) : M bool := o ← radix_tree_lookup_slot index; match o with Some p => radix_tree_replace_slot p item ;; mret true | None => mret false end.

Lemma deref_index_ok N own s i : shape N own s -> 0 <= i < 2 ^ 32 -> deref_index i s = Some (contents N s i, s).
Proof.
  intros Hs Hi. unfold deref_index. destruct (radix_tree_lookup_slot_ok N own s i Hs Hi) as (o & E & Ho). erewrite bind_run by exact E. destruct o as [[|a k]|]; [| |by rewrite Ho].
  - destruct Ho as (Eh & -> & Hg & Er). unfold radix_tree_deref_slot. erewrite bind_run by (unfold ld_pslot; erewrite bind_run by reflexivity; reflexivity). rewrite Er, direct_to_ptr_direct by done. done.
  - destruct Ho as (Hc & Hh & Ha & ->). destruct (node_at_some _ _ _ _ _ _ Hs Ha) as (n & Hn & _ & Hok & _ & Ha0). destruct (slot_item N own s i a n Hs Hh Ha Hn Hc) as [Hg Esl].
    unfold radix_tree_deref_slot, ld_pslot. erewrite bind_run by (apply ld_slot_run; [done|exact Hn|apply Hok|apply off_range]). rewrite Esl, direct_to_ptr_good by done. done.
Qed.

Lemma replace_index_ok N s i item : shape N [] s -> tags_ok N s -> 0 <= i < 2 ^ 32 -> good item ->
  exists s', replace_index i item s = Some (negb (contents N s i =? 0), s') /\ shape N [] s' /\ tags_ok N s' /\ root_gfp_mask (root s') = root_gfp_mask (root s) /\ (if contents N s i =? 0 then s' = s else inserted N s i item N s').
Proof.
  intros Hs Ht Hi Hg. unfold replace_index. destruct (radix_tree_lookup_slot_ok N [] s i Hs Hi) as (o & E & Ho). erewrite bind_run by exact E. destruct o as [[|a k]|]; [| |exists s; by rewrite Ho].
  - destruct Ho as (Eh & -> & Hv & Er). rewrite (proj2 (Z.eqb_neq (contents N s 0) 0)) by (destruct Hv; lia). destruct (replace_root_ok N s item _ Hs Ht Eh Hv Er Hg) as (H1 & H2 & H3). eexists. split; [|split; [exact H1|]; split; [exact H2|]; split; [done|exact H3]].
    unfold radix_tree_replace_slot. rewrite good_not_direct by done. erewrite bind_run by (erewrite bind_run by reflexivity; erewrite bind_run by (unfold ld_pslot; erewrite bind_run by reflexivity; reflexivity); reflexivity).
    cbn [root]. rewrite Er, Eh. destruct (low_bit _ Hv) as [_ ->]. change (Z.lor item 1) with (radix_tree_ptr_to_direct item). by rewrite direct_eq.
  - destruct Ho as (Hc & Hh & Ha & ->). rewrite (proj2 (Z.eqb_neq _ 0)) by done. destruct (node_at_some _ _ _ _ _ _ Hs Ha) as (n & Hn & _ & Hok & _ & Ha0). destruct (slot_item N [] s i a n Hs Hh Ha Hn Hc) as [Hgc Esl].
    destruct (put_ok N s i a item n Hs Ht Hi Hh Ha Hn ltac:(by right)) as (Hs' & Ht' & Hc' & Htg'). eexists. split; [|split; [exact Hs'|]; split; [exact Ht'|]; split; [done|split; auto]].
    unfold radix_tree_replace_slot, ld_pslot, st_pslot. rewrite good_not_direct by done. erewrite bind_run; [reflexivity|]. erewrite bind_run by reflexivity. erewrite bind_run by (apply ld_slot_run; [done|exact Hn|apply Hok|apply off_range]).
    rewrite Esl. destruct (low_bit _ Hgc) as [-> _]. rewrite Z.lor_0_r, (st_slot_run s a n) by (done || apply Hok || apply off_range). do 2 f_equal. unfold put_item. rewrite Esl, !decide_False by (done || (destruct Hg; lia)). replace (count n + 1 - 1) with (count n) by lia. by destruct n.
Qed.

(** ** Preloading *)

Lemma push_ok N own s a n : shape N (a :: own) s -> a ∉ own -> heap s !! a = Some n -> zeroed n -> shape N own (mk_state (root s) (heap s) (supply s) (a :: preload s) (freed s)).
Proof.
  intros [HL HR HN [P1 P2 P3 P4 P5 P6 P7]] Ha Hn Hz. split; [done|done|done|]. assert (forall b, b ∈ freed s ++ a :: preload s <-> b = a \/ b ∈ freed s ++ preload s) as Hin by (intros b; rewrite !elem_of_app, elem_of_cons; tauto).
  destruct (P4 a ltac:(by left)) as (Hg & Hs & Hu). split; cbn [heap freed preload supply root].
  - intros b m Hb. rewrite Hin. destruct (P1 b m Hb) as [?|[[->|?]%elem_of_cons|[? ?]]]; [auto| |auto|auto]. right. right. split; [auto|congruence].
  - intros b [->|Hb]%Hin; [done|]. destruct (P2 b Hb) as (? & ? & ? & Hno). apply not_elem_of_cons in Hno as [? ?]. done.
  - assert (freed s ++ a :: preload s ≡ₚ a :: freed s ++ preload s) as -> by solve_Permutation. apply NoDup_cons. split; [|done]. intros Hp. destruct (P2 a Hp) as (_ & _ & _ & Hno). apply Hno. by left.
  - intros b Hb. apply P4. by right.
  - done.
  - done.
  - done.
Qed.

Lemma preload_loop_ok N f : forall s, shape N [] s -> tags_ok N s -> RADIX_TREE_MAX_PATH - Z.of_nat (length (preload s)) <= Z.of_nat f ->
  exists r s', preload_loop f s = Some (r, s') /\ shape N [] s' /\ tags_ok N s' /\ same_tree N s N s' /\ root s' = root s /\ (r = 0 /\ RADIX_TREE_MAX_PATH <= Z.of_nat (length (preload s')) \/ r = - ENOMEM).
Proof.
  induction f as [|f IH]; intros s Hs Ht Hf; cbn [preload_loop]; (erewrite bind_run by reflexivity); (destruct (Z.ltb_spec (Z.of_nat (length (preload s))) RADIX_TREE_MAX_PATH) as [Hlt|Hge]; [|exists 0, s; split; [done|]; do 4 (split; [done|]); by left]); [lia|].
  destruct (cache_alloc_ok _ _ _ (sh_pool _ _ _ Hs)) as (a & s1 & E1 & Hgot & Ep). erewrite bind_run by exact E1. pose proof Hgot as (Er & _ & Hg). destruct (got_shape _ _ _ _ _ Hs Hgot) as [Hs1 Hf1]. destruct (frame_tree N s s1 Er ltac:(auto) Ht) as [Ht1 Hsame1].
  destruct Hg as [[-> _]|(Hg & _ & _ & _ & z & Hz & Hzero)]; [exists (- ENOMEM), s1; split; [done|]; do 4 (split; [done|]); by right|].
  assert (a <> NULL) as Ha0 by (destruct Hg; unfold NULL; lia). rewrite (proj2 (Z.eqb_neq a NULL)) in * by done. erewrite bind_run by reflexivity. rewrite Ep, (proj2 (Z.ltb_lt _ _)) by done. erewrite bind_run by reflexivity.
  pose proof (push_ok N [] s1 a z Hs1 ltac:(apply not_elem_of_nil) Hz Hzero) as Hs2. set (s2 := mk_state _ _ _ _ _) in *. destruct (frame_tree N s1 s2 eq_refl ltac:(done) Ht1) as [Ht2 Hsame2].
  destruct (IH s2 Hs2 Ht2) as (r & s' & E & H1 & H2 & H3 & H4 & H5); [cbn [preload s2 length]; rewrite Ep; lia|]. exists r, s'. split; [done|]. do 2 (split; [done|]).
  split; [eapply same_tree_trans; [exact Hsame1|]; by eapply same_tree_trans|]. split; [by rewrite H4|done].
Qed.

(** ** Specification *)

(** What a tree stands for: the items by index, and the pairs of a tag and an index
    that has it. *)
Record tree := mk_tree { items : gmap Z Z; tagset : gset (Z * Z) }.

Inductive call :=
  | Insert (index item : Z) | Lookup (index : Z) | Deref (index : Z) | Replace (index item : Z) | Delete (index : Z)
  | TagSet (index tag : Z) | TagClear (index tag : Z) | Tagged (tag : Z) | Preload.
Inductive result := Code (c : Z) | Ptr (p : Z) | Flag (b : bool).

Definition run_call (c : call) : M result :=
  match c with
  | Insert i v => r ← radix_tree_insert i v; mret (Code r)
  | Lookup i => p ← radix_tree_lookup i; mret (Ptr p)
  | Deref i => p ← deref_index i; mret (Ptr p)
  | Replace i v => b ← replace_index i v; mret (Flag b)
  | Delete i => p ← radix_tree_delete i; mret (Ptr p)
  | TagSet i t => p ← radix_tree_tag_set i t; mret (Ptr p)
  | TagClear i t => p ← radix_tree_tag_clear i t; mret (Ptr p)
  | Tagged t => b ← radix_tree_tagged t; mret (Flag b)
  | Preload => r ← radix_tree_preload; mret (Code r)
  end.

Definition index_ok (i : Z) : Prop := 0 <= i < 2 ^ 32.
Definition tag_ok (t : Z) : Prop := 0 <= t < RADIX_TREE_MAX_TAGS.

(** What the caller has to respect: only an item that is there can get a tag. *)
Definition valid (A : tree) (c : call) : Prop :=
  match c with
  | Insert i v | Replace i v => index_ok i /\ good v
  | Lookup i | Deref i | Delete i => index_ok i
  | TagSet i t => index_ok i /\ tag_ok t /\ is_Some (items A !! i)
  | TagClear i t => index_ok i /\ tag_ok t
  | Tagged t => tag_ok t
  | Preload => True
  end.

(** The item of a lookup through the tag functions; the item of index 0 may come
    with its low bit set. *)
Definition item_or_entry (i v p : Z) : Prop := p = v \/ i = 0 /\ p = radix_tree_ptr_to_direct v.

Inductive spec (A : tree) : call -> result -> tree -> Prop :=
  | sp_insert i v : items A !! i = None -> spec A (Insert i v) (Code 0) (mk_tree (<[i := v]> (items A)) (tagset A))
  | sp_exists i v w : items A !! i = Some w -> spec A (Insert i v) (Code (- EEXIST)) A
  | sp_nomem i v : spec A (Insert i v) (Code (- ENOMEM)) A
  | sp_lookup i : spec A (Lookup i) (Ptr (default NULL (items A !! i))) A
  | sp_deref i : spec A (Deref i) (Ptr (default NULL (items A !! i))) A
  | sp_replace i v w : items A !! i = Some w -> spec A (Replace i v) (Flag true) (mk_tree (<[i := v]> (items A)) (tagset A))
  | sp_replace_none i v : items A !! i = None -> spec A (Replace i v) (Flag false) A
  | sp_delete i : spec A (Delete i) (Ptr (default NULL (items A !! i))) (mk_tree (delete i (items A)) (filter (fun x => x.2 <> i) (tagset A)))
  | sp_tag_set i t v p : items A !! i = Some v -> item_or_entry i v p -> spec A (TagSet i t) (Ptr p) (mk_tree (items A) ({[(t, i)]} ∪ tagset A))
  | sp_tag_clear i t v p : items A !! i = Some v -> item_or_entry i v p -> spec A (TagClear i t) (Ptr p) (mk_tree (items A) (tagset A ∖ {[(t, i)]}))
  | sp_tag_clear_none i t : items A !! i = None -> spec A (TagClear i t) (Ptr NULL) A
  | sp_tagged t b : (b = true <-> exists i, (t, i) ∈ tagset A) -> spec A (Tagged t) (Flag b) A
  | sp_preload r : r = 0 \/ r = - ENOMEM -> spec A Preload (Code r) A.

(** The tree [s] with the allocation flags [mask] stands for [A]. *)
Definition rep_in (N : labels) (mask : Z) (A : tree) (s : state) : Prop :=
  (shape N [] s /\ tags_ok N s /\ root_gfp_mask (root s) = mask) /\
  (forall i, index_ok i -> contents N s i = default NULL (items A !! i)) /\ (forall t i, tag_ok t -> index_ok i -> tagged N s t i = bool_decide ((t, i) ∈ tagset A)) /\
  (forall i v, items A !! i = Some v -> index_ok i /\ good v) /\ (forall t i, (t, i) ∈ tagset A -> tag_ok t /\ index_ok i).
Definition rep (mask : Z) (A : tree) (s : state) : Prop := exists N, rep_in N mask A s.

(** ** The representation under a change *)

Section Change.
Context (N N' : labels) (mask : Z) (A : tree) (s s' : state).
Hypothesis Hrep : rep_in N mask A s.
Hypothesis Hs' : shape N' [] s'.
Hypothesis Ht' : tags_ok N' s'.
Hypothesis Hm' : root_gfp_mask (root s') = root_gfp_mask (root s).

Lemma rep_base : shape N' [] s' /\ tags_ok N' s' /\ root_gfp_mask (root s') = mask.
Proof. destruct Hrep as ((_ & _ & Hm) & _). by rewrite Hm'. Qed.

Lemma rep_same : same_tree N s N' s' -> rep mask A s'.
Proof.
  intros [H1 H2]. destruct Hrep as (_ & Hc & Hg & Hi & Ht). exists N'. split; [apply rep_base|]. split; [intros i Hi'; rewrite H1 by done; by apply Hc|]. split; [intros t i Htt Hi'; rewrite H2 by done; by apply Hg|done].
Qed.

Lemma rep_inserted i v : index_ok i -> good v -> inserted N s i v N' s' -> rep mask (mk_tree (<[i := v]> (items A)) (tagset A)) s'.
Proof.
  intros Hii Hv [H1 H2]. destruct Hrep as (_ & Hc & Hg & Hi & Ht). exists N'. split; [apply rep_base|]. cbn [items tagset]. split; [|split; [intros t j Htt Hj; rewrite H2 by done; by apply Hg|split; [|done]]].
  - intros j Hj. rewrite H1 by done. case_decide as E; [by rewrite E, lookup_insert_eq|]. rewrite lookup_insert_ne by congruence. by apply Hc.
  - intros j w Hj. destruct (decide (j = i)) as [->|Hne]; [rewrite lookup_insert_eq in Hj; by injection Hj as <-|]. rewrite lookup_insert_ne in Hj by congruence. by apply Hi.
Qed.

Lemma rep_deleted i : deleted N s i N' s' -> rep mask (mk_tree (delete i (items A)) (filter (fun x => x.2 <> i) (tagset A))) s'.
Proof.
  intros [H1 H2]. destruct Hrep as (_ & Hc & Hg & Hi & Ht). exists N'. split; [apply rep_base|]. cbn [items tagset]. split; [|split; [|split]].
  - intros j Hj. rewrite H1 by done. case_decide as E; [by rewrite E, lookup_delete_eq|]. rewrite lookup_delete_ne by congruence. by apply Hc.
  - intros t j Htt Hj. rewrite H2 by done. case_decide as E; [symmetry; apply bool_decide_eq_false; subst j; rewrite elem_of_filter; intros [Hne _]; by apply Hne|]. rewrite Hg by done. apply bool_decide_ext. rewrite elem_of_filter. cbn. tauto.
  - intros j w Hj. destruct (decide (j = i)) as [->|Hne]; [by rewrite lookup_delete_eq in Hj|]. rewrite lookup_delete_ne in Hj by congruence. by apply Hi.
  - intros t j [_ Hin]%elem_of_filter. by apply Ht.
Qed.

Lemma rep_retagged i t (b : bool) : index_ok i -> tag_ok t -> (forall j, contents N' s' j = contents N s j) -> (forall t' j, 0 <= t' < 2 -> 0 <= j < 2 ^ 32 -> tagged N' s' t' j = if decide (t' = t /\ j = i) then b else tagged N s t' j) ->
  rep mask (mk_tree (items A) (if b then {[(t, i)]} ∪ tagset A else tagset A ∖ {[(t, i)]})) s'.
Proof.
  intros Hii Htt H1 H2. destruct Hrep as (_ & Hc & Hg & Hi & Ht). exists N'. split; [apply rep_base|]. cbn [items tagset]. split; [intros j Hj; rewrite H1; by apply Hc|]. split; [|split; [done|]].
  - intros t' j Ht2 Hj. rewrite H2 by done. case_decide as E.
    + destruct E as [-> ->]. symmetry. destruct b; [apply bool_decide_eq_true; set_solver|apply bool_decide_eq_false; set_solver].
    + rewrite Hg by done. apply bool_decide_ext. assert ((t', j) <> (t, i)) as Hne by (intros [= -> ->]; by apply E). destruct b; set_solver.
  - intros t' j Hin. destruct b.
    + apply elem_of_union in Hin as [Hin%elem_of_singleton|Hin]; [by injection Hin as -> ->|by apply Ht].
    + apply elem_of_difference in Hin as [Hin _]. by apply Ht.
Qed.

End Change.

Lemma rep_contents N mask A s i : rep_in N mask A s -> index_ok i -> contents N s i = default NULL (items A !! i) /\ (contents N s i = 0 <-> items A !! i = None) /\ (forall v, items A !! i = Some v -> good v).
Proof.
  intros (_ & Hc & _ & Hi & _) Hii. rewrite (Hc i Hii). split; [done|]. split; [|intros v Hv; by apply (Hi i v)]. destruct (items A !! i) as [v|] eqn:E; cbn [from_option id]; [|done]. destruct (Hi i v E) as [_ [Hv _]]. split; [lia|done].
Qed.

Lemma entry_spec N s i v : shape N [] s -> contents N s i = v -> good v -> item_or_entry i v (entry s v).
Proof.
  intros Hs Hc Hv. unfold item_or_entry, entry. destruct (Z.eqb_spec (height (root s)) 0) as [E|E]; [right|by left]. destruct (root_entry N [] s i Hs) as [-> _]; [rewrite Hc; destruct Hv; lia|done|]. split; [done|]. by rewrite direct_eq.
Qed.

(** ** Simulation *)

(** The nodes that the slab must have for the call not to fail: an insertion may have
    to add six levels and five nodes below them. *)
Definition enough (c : call) (s : state) : Prop := match c with Insert _ _ => ready 11 s | Preload => ready (Z.to_nat RADIX_TREE_MAX_PATH) s | _ => False end.

Definition simulates (mask : Z) (A : tree) (s : state) (c : call) : Prop :=
  exists r s' A', run_call c s = Some (r, s') /\ spec A c r A' /\ rep mask A' s' /\ (enough c s -> r <> Code (- ENOMEM)).

Section Sim.
Context (N : labels) (mask : Z) (A : tree) (s : state).
Hypothesis Hrep : rep_in N mask A s.

Lemma sim_shape : shape N [] s /\ tags_ok N s.
Proof. destruct Hrep as ((? & ? & _) & _). done. Qed.

Lemma sim_insert i v : index_ok i -> good v -> simulates mask A s (Insert i v).
Proof.
  intros Hi Hv. destruct sim_shape as [Hs Ht]. destruct (rep_contents N mask A s i Hrep Hi) as (Ec & Hz & _). destruct (radix_tree_insert_ok N s i v Hs Ht Hi Hv) as (r & s' & N' & E & Hs' & Ht' & Hg & Hres).
  assert (root_gfp_mask (root s') = root_gfp_mask (root s)) as Hm by (unfold root_gfp_mask; by rewrite Hg). assert (enough (Insert i v) s -> Code r <> Code (- ENOMEM)) as Hen by (intros He [= Er]; by eapply (insert_enough N s i v r s')).
  destruct Hres as [(-> & Hc & Hins)|[(-> & Hc & Hsame)|(-> & Hsame)]]; eexists _, s', _; (split; [cbn [run_call]; erewrite bind_run by exact E; reflexivity|]); (split; [|split; [|done]]).
  - apply sp_insert. by apply Hz.
  - by eapply (rep_inserted N N').
  - destruct (items A !! i) as [w|] eqn:Ew; [by eapply sp_exists|]. destruct Hc. by apply Hz.
  - by eapply (rep_same N N').
  - apply sp_nomem.
  - by eapply (rep_same N N').
Qed.

Lemma sim_read (c : call) (r : result) : run_call c s = Some (r, s) -> spec A c r A -> (enough c s -> False) -> simulates mask A s c.
Proof. intros E Hsp Hen. exists r, s, A. split; [done|]. split; [done|]. split; [by exists N|done]. Qed.

Lemma sim_replace i v : index_ok i -> good v -> simulates mask A s (Replace i v).
Proof.
  intros Hi Hv. destruct sim_shape as [Hs Ht]. destruct (rep_contents N mask A s i Hrep Hi) as (Ec & Hz & _). destruct (replace_index_ok N s i v Hs Ht Hi Hv) as (s' & E & Hs' & Ht' & Hg & Hres).
  destruct (Z.eqb_spec (contents N s i) 0) as [E0|E0]; eexists _, s', _; (split; [cbn [run_call]; erewrite bind_run by exact E; reflexivity|]); cbn [negb].
  - subst s'. split; [apply sp_replace_none; by apply Hz|]. split; [by exists N|done].
  - destruct (items A !! i) as [w|] eqn:Ew; [|destruct E0; by apply Hz]. split; [by eapply sp_replace|]. split; [by eapply (rep_inserted N N)|done].
Qed.

Lemma sim_delete i : index_ok i -> simulates mask A s (Delete i).
Proof.
  intros Hi. destruct sim_shape as [Hs Ht]. destruct (rep_contents N mask A s i Hrep Hi) as (Ec & Hz & _). destruct (radix_tree_delete_ok N s i Hs Ht Hi) as (s' & N' & E & Hs' & Ht' & Hg & Hd).
  eexists _, s', _. split; [cbn [run_call]; erewrite bind_run by exact E; reflexivity|]. rewrite Ec. split; [apply sp_delete|]. split; [by eapply (rep_deleted N N')|done].
Qed.

Lemma sim_tag_set i t : index_ok i -> tag_ok t -> is_Some (items A !! i) -> simulates mask A s (TagSet i t).
Proof.
  intros Hi Htt [v Hv]. destruct sim_shape as [Hs Ht]. destruct (rep_contents N mask A s i Hrep Hi) as (Ec & Hz & Hgv). rewrite Hv in Ec. cbn [from_option id] in Ec. specialize (Hgv v Hv). assert (contents N s i <> 0) as Hc by (rewrite Ec; destruct Hgv; lia).
  destruct (radix_tree_tag_set_ok N s i t Hs Ht Hi Htt Hc) as (s' & E & Hs' & Ht' & Hg & H1 & H2). eexists _, s', _. split; [cbn [run_call]; erewrite bind_run by exact E; reflexivity|].
  split; [eapply sp_tag_set; [exact Hv|]; rewrite Ec; by apply (entry_spec N)|]. split; [by eapply (rep_retagged N N mask A s s' Hrep Hs' Ht' Hg i t true)|done].
Qed.

Lemma sim_tag_clear i t : index_ok i -> tag_ok t -> simulates mask A s (TagClear i t).
Proof.
  intros Hi Htt. destruct sim_shape as [Hs Ht]. destruct (rep_contents N mask A s i Hrep Hi) as (Ec & Hz & Hgv). destruct (radix_tree_tag_clear_ok N s i t Hs Ht Hi Htt) as (s' & E & Hs' & Ht' & Hg & _ & _ & H1 & H2).
  destruct (items A !! i) as [v|] eqn:Ev; cbn [from_option id] in Ec; rewrite Ec in E.
  - specialize (Hgv v eq_refl). rewrite (proj2 (Z.eqb_neq v 0)) in E by (destruct Hgv; lia). eexists _, s', _. split; [cbn [run_call]; erewrite bind_run by exact E; reflexivity|].
    split; [eapply sp_tag_clear; [exact Ev|]; by apply (entry_spec N)|]. split; [by eapply (rep_retagged N N mask A s s' Hrep Hs' Ht' Hg i t false)|done].
  - eexists _, s', A. split; [cbn [run_call]; erewrite bind_run by exact E; reflexivity|]. split; [by apply sp_tag_clear_none|]. split; [|done]. eapply (rep_same N N mask A s s' Hrep Hs' Ht' Hg). split; [auto|].
    intros t' j Ht2 Hj. rewrite H2 by done. case_decide as E0; [|done]. destruct E0 as [-> ->]. destruct (tagged N s t i) eqn:Et; [|done]. by apply (tagged_present N [] s t i Hs Htt) in Et.
Qed.

Lemma sim_tagged t : tag_ok t -> simulates mask A s (Tagged t).
Proof.
  intros Htt. destruct sim_shape as [Hs Ht]. destruct (radix_tree_tagged_ok N [] s t Hs Ht Htt) as (b & E & Hb). eapply sim_read; [cbn [run_call]; erewrite bind_run by exact E; reflexivity| |done]. apply sp_tagged. rewrite Hb.
  destruct Hrep as (_ & _ & Hg & _ & Hin). split; [intros (x & Hx & Htg); exists x; rewrite Hg in Htg by done; by apply bool_decide_eq_true in Htg|]. intros (x & Hx). destruct (Hin t x Hx) as [_ Hxi]. exists x. split; [done|]. rewrite Hg by done. by apply bool_decide_eq_true.
Qed.

Lemma sim_preload : simulates mask A s Preload.
Proof.
  destruct sim_shape as [Hs Ht]. destruct (preload_loop_ok N (Z.to_nat RADIX_TREE_MAX_PATH) s Hs Ht) as (r & s' & E & Hs' & Ht' & Hsame & Er & Hr); [rewrite Z2Nat.id by done; lia|].
  exists (Code r), s', A. split; [cbn [run_call]; unfold radix_tree_preload; erewrite bind_run by exact E; reflexivity|]. split; [apply sp_preload; tauto|]. split; [eapply (rep_same N N mask A s s' Hrep Hs' Ht'); [by rewrite Er|done]|].
  intros He. destruct (needs_preload (Z.to_nat RADIX_TREE_MAX_PATH) O s r s') as [-> _]; [by rewrite Nat.add_0_r|done|done].
Qed.

End Sim.

(** An empty tree. *)
Definition fresh_supply (l : list Z) : Prop := Forall (fun a => a = NULL \/ good a) l /\ NoDup (filter (.≠ 0) l).
Definition new_tree (mask : Z) (l : list Z) : state := mk_state (INIT_RADIX_TREE mask) ∅ l [] [].

Lemma new_tree_rep mask l : 0 <= mask < 2 ^ 20 -> fresh_supply l -> rep mask (mk_tree ∅ ∅) (new_tree mask l).
Proof.
  intros Hm [Hl Hn]. exists ∅. assert (root_gfp_mask (root (new_tree mask l)) = mask) as Hmask by (change (Z.land mask (2 ^ 20 - 1) = mask); rewrite land_ones_mod by lia; by apply Z.mod_small).
  assert (forall t, 0 <= t < 2 -> root_tag_get (root (new_tree mask l)) t = false) as Ht0 by (intros t Ht; rewrite root_tag_testbit by done; apply (testbit_high mask 20); [done|lia]).
  split; [split; [|split; [|done]]|].
  - split.
    + split; intros x p a; [by rewrite lookup_empty..|]. intros H. by rewrite lookup_empty in H.
    + split; [cbn; lia|]. split; [unfold is_u32; cbn; lia|]. split; [intros _; auto|cbn; lia].
    + intros x p a. by rewrite lookup_empty.
    + split; cbn [heap freed preload supply new_tree app]; try done.
      * intros a Ha. by apply elem_of_nil in Ha.
      * apply NoDup_nil_2.
      * intros a Ha. by apply elem_of_nil in Ha.
      * intros a [x Hx]. by rewrite lookup_empty in Hx.
      * intros a Ha Hne. rewrite Forall_forall in Hl. destruct (Hl a Ha) as [?|?]; [done|]. split; [done|left; apply lookup_empty].
  - intros t Ht. split; [intros _ _; by apply Ht0|intros x p Hx; exfalso; cbn in Hx; lia].
  - split; [intros i Hi; unfold contents; cbn; by destruct (i =? 0)|]. split; [intros t i Ht Hi; unfold tagged; cbn; by rewrite andb_false_r|]. split; [intros i v; cbn [items]; by rewrite lookup_empty|]. intros t i. cbn [tagset]. by rewrite elem_of_empty.
Qed.

(** ** Items in order *)

(** The items from [first] on in the order of their indices, with a tag or not, and
    the first [max] of them. *)
Definition selected (A : tree) (o : option Z) (i : Z) : option Z := match o with None => items A !! i | Some t => if bool_decide ((t, i) ∈ tagset A) then items A !! i else None end.
Definition in_order (A : tree) (o : option Z) (first max : Z) : list Z := take (Z.to_nat max) (omap (selected A o) (seqZ first (2 ^ 32 - first))).

Lemma hits_selected N mask A s o first : rep_in N mask A s -> match o with None => True | Some t => tag_ok t end -> 0 <= first -> hits N s o first (2 ^ 32) = omap (selected A o) (seqZ first (2 ^ 32 - first)).
Proof.
  intros Hrep Ho Hf. unfold hits. assert (Forall index_ok (seqZ first (2 ^ 32 - first))) as Hall by (apply Forall_forall; intros i Hi; apply elem_of_seqZ in Hi; unfold index_ok; lia).
  induction Hall as [|i l Hi Hl IH]; [done|]. cbn [omap list_omap]. destruct (rep_contents N mask A s i Hrep Hi) as (Ec & Hz & Hg). pose proof Hrep as ((Hs & _) & _ & Htg & _ & _).
  assert (selected A o i = if sel N s o i then Some (contents N s i) else None) as ->.
  { unfold selected, sel. destruct o as [t|].
    - rewrite <- (Htg t i Ho Hi). destruct (tagged N s t i) eqn:Et; [|done]. apply (tagged_present N [] s t i Hs Ho) in Et. rewrite Ec in Et |- *. destruct (items A !! i); [done|]. by destruct Et.
    - rewrite Ec. destruct (items A !! i) as [v|] eqn:Ev; cbn [from_option id]; [|done]. destruct (Hg v eq_refl) as [Hv _]. by rewrite (proj2 (Z.eqb_neq v 0)) by lia. }
  destruct (sel N s o i) eqn:Es; [rewrite filter_cons_True by done; cbn [fmap list_fmap]; by rewrite IH|]. rewrite filter_cons_False by congruence. done.
Qed.

(** ** The theorems *)

(** C4: A radix tree implements a finite map with tag sets.  A tree made by
    [INIT_RADIX_TREE] stands for the empty map; and whatever a tree stands for, every
    valid call of the interface ([radix_tree_insert], [radix_tree_lookup],
    [radix_tree_lookup_slot] with [radix_tree_deref_slot] and
    [radix_tree_replace_slot], [radix_tree_delete], [radix_tree_tag_set],
    [radix_tree_tag_clear], [radix_tree_tagged], [radix_tree_preload]) returns
    without a fault or a [BUG_ON], with the result and the new map of the
    specification; no node is lost or shared, and the allocation flags in the root
    stay as they are.  An insertion fails for lack of memory only if the slab does
    not have eleven nodes. *)
Theorem radix_tree_refines (mask : Z) : 0 <= mask < 2 ^ 20 ->
  (forall l, fresh_supply l -> rep mask (mk_tree ∅ ∅) (new_tree mask l)) /\
  (forall A s c, rep mask A s -> valid A c -> exists r s' A', run_call c s = Some (r, s') /\ spec A c r A' /\ rep mask A' s' /\ (enough c s -> r <> Code (- ENOMEM))).
Proof.
  intros Hm. split; [intros l Hl; by apply new_tree_rep|]. intros A s c [N Hrep] Hv. change (simulates mask A s c). destruct (sim_shape N mask A s Hrep) as [Hs Ht]. destruct c as [i v|i|i|i v|i|i t|i t|t|]; cbn [valid] in Hv.
  - destruct Hv as [? ?]. by apply (sim_insert N).
  - eapply (sim_read N); [done|cbn [run_call]; erewrite bind_run by (by apply (radix_tree_lookup_ok N [])); reflexivity| |done]. rewrite (proj1 (rep_contents N mask A s i Hrep Hv)). apply sp_lookup.
  - eapply (sim_read N); [done|cbn [run_call]; erewrite bind_run by (by apply (deref_index_ok N [])); reflexivity| |done]. rewrite (proj1 (rep_contents N mask A s i Hrep Hv)). apply sp_deref.
  - destruct Hv as [? ?]. by apply (sim_replace N).
  - by apply (sim_delete N).
  - destruct Hv as (? & ? & ?). by apply (sim_tag_set N).
  - destruct Hv as [? ?]. by apply (sim_tag_clear N).
  - by apply (sim_tagged N).
  - by apply (sim_preload N).
Qed.

Lemma radix_tree_refines_witness : exists r s' A', run_call (Insert 5 4096) (new_tree 32 []) = Some (r, s') /\ spec (mk_tree ∅ ∅) (Insert 5 4096) r A' /\ rep 32 A' s' /\ (enough (Insert 5 4096) (new_tree 32 []) -> r <> Code (- ENOMEM)).
Proof.
  destruct (radix_tree_refines 32) as [H1 H2]; [lia|]. apply (H2 (mk_tree ∅ ∅) (new_tree 32 []) (Insert 5 4096)).
  - apply H1. split; [by apply Forall_nil|apply NoDup_nil_2].
  - split; [unfold index_ok; lia|]. split; [lia|done].
Defined.

(** A tree of height 0 has its item in the root; the gang lookups return it without a
    look at [max_items]. *)
Definition limit (s : state) (max_items : Z) : Z := if (max_items =? 0) && radix_tree_is_direct_ptr (rnode (root s)) then 1 else max_items.

Lemma limit_pos s max_items : 1 <= max_items -> limit s max_items = max_items.
Proof. intros H. unfold limit. by rewrite (proj2 (Z.eqb_neq max_items 0)) by lia. Qed.

Ltac walk_root s :=
  cbv zeta; unfold limit; change (0 =? 0) with true; cbn [andb];
  destruct (rnode (root s) =? NULL); [intros [= <-]; by rewrite take_nil|]; destruct (radix_tree_is_direct_ptr (rnode (root s)));
  [intros [= <-]; match goal with |- context [0 <? ?i] => by destruct (0 <? i) end|];
  unfold mbind, ST_bind, ld, st_lift; destruct (_ =? NULL); [done|]; destruct (heap s !! _); [|done]; destruct (radix_tree_maxindex _); [|done].

Lemma gang_zero fuel first s r : radix_tree_gang_lookup fuel first 1 s = Some (r, s) -> radix_tree_gang_lookup fuel first 0 s = Some (take (Z.to_nat (limit s 0)) r, s).
Proof. unfold radix_tree_gang_lookup. rewrite !(bind_run ld_root _ s (root s) s) by reflexivity. walk_root s. intros _. by destruct fuel. Qed.

Lemma gang_tag_zero fuel first tag s r : radix_tree_gang_lookup_tag fuel first 1 tag s = Some (r, s) -> radix_tree_gang_lookup_tag fuel first 0 tag s = Some (take (Z.to_nat (limit s 0)) r, s).
Proof.
  unfold radix_tree_gang_lookup_tag. rewrite !(bind_run ld_root _ s (root s) s) by reflexivity. destruct (root_tag_get (root s) tag); cbn [negb]; [|intros [= <-]; by rewrite take_nil]. walk_root s. intros _. by destruct fuel.
Qed.

Lemma in_order_limit A o first s : in_order A o first (limit s 0) = take (Z.to_nat (limit s 0)) (in_order A o first 1).
Proof. unfold in_order. rewrite take_take. f_equal. unfold limit. destruct (_ && _); lia. Qed.

(** C13: The gang lookups terminate and are complete and ordered:
    [radix_tree_gang_lookup] returns the first [max_items] items at or after
    [first_index] in the order of their indices, [radix_tree_gang_lookup_tag] those
    with the tag, and both leave the tree as it is.  The one exception is a tree of
    height 0, whose item is returned also for [max_items] 0. *)
Theorem radix_tree_gang_lookup_correct (mask : Z) (A : tree) (s : state) (first_index max_items tag : Z) (fuel : nat) :
  rep mask A s -> index_ok first_index -> 0 <= max_items -> tag_ok tag -> 2 ^ 32 <= Z.of_nat fuel ->
  radix_tree_gang_lookup fuel first_index max_items s = Some (in_order A None first_index (limit s max_items), s) /\
  radix_tree_gang_lookup_tag fuel first_index max_items tag s = Some (in_order A (Some tag) first_index (limit s max_items), s).
Proof.
  intros [N Hrep] Hf Hmax Ht Hfuel. destruct (sim_shape N mask A s Hrep) as [Hs Htags]. assert (forall m, 1 <= m -> radix_tree_gang_lookup fuel first_index m s = Some (in_order A None first_index m, s) /\ radix_tree_gang_lookup_tag fuel first_index m tag s = Some (in_order A (Some tag) first_index m, s)) as H.
  { intros m Hm. unfold in_order. rewrite <- (hits_selected N mask A s None first_index Hrep) by (done || apply Hf). rewrite <- (hits_selected N mask A s (Some tag) first_index Hrep) by (done || apply Hf).
    split; [by apply (radix_tree_gang_lookup_ok N [])|by apply (radix_tree_gang_lookup_tag_ok N [])]. }
  destruct (decide (max_items = 0)) as [->|Hne]; [|rewrite limit_pos by lia; apply H; lia]. rewrite !in_order_limit. destruct (H 1) as [H1 H2]; [lia|]. split; [by apply gang_zero|by apply gang_tag_zero].
Qed.

(** The tree that holds the item 4096 at the index 0. *)
Lemma one_item_rep : rep 32 (mk_tree (<[0 := 4096]> ∅) ∅) (mk_state (mk_root 0 32 4097) ∅ [] [] []).
Proof.
  destruct (new_tree_rep 32 [] ltac:(lia)) as [N Hrep]; [split; [by apply Forall_nil|apply NoDup_nil_2]|]. destruct (sim_insert N 32 _ _ Hrep 0 4096) as (r & s' & A' & E & Hsp & Hr & _); [unfold index_ok; lia|split; [lia|done]|].
  vm_compute in E. injection E as <- <-. inversion Hsp; subst. done.
Qed.

Lemma radix_tree_gang_lookup_correct_witness : exists fuel, radix_tree_gang_lookup fuel 0 16 (mk_state (mk_root 0 32 4097) ∅ [] [] []) = Some (in_order (mk_tree (<[0 := 4096]> ∅) ∅) None 0 16, mk_state (mk_root 0 32 4097) ∅ [] [] []).
Proof.
  exists (Z.to_nat (2 ^ 32)). apply (radix_tree_gang_lookup_correct 32 (mk_tree (<[0 := 4096]> ∅) ∅) (mk_state (mk_root 0 32 4097) ∅ [] [] []) 0 16 0); [apply one_item_rep|unfold index_ok; lia|lia|unfold tag_ok, RADIX_TREE_MAX_TAGS; lia|rewrite Z2Nat.id; lia].
Defined.

(** An item at index 0, then a preload (and what is in the pool after it) and an
    insertion at the largest index, and a lookup of the first item. *)
Definition seven_nodes : list Z := [16384; 16640; 16896; 17152; 17408; 17664; 17920].
Definition preload_then_insert : M (Z * Z * Z * Z * Z) :=
  r1 ← radix_tree_insert 0 4096; r2 ← radix_tree_preload; n ← preload_nr; r3 ← radix_tree_insert (2 ^ 32 - 1) 8192; p ← radix_tree_lookup 0; mret (r1, r2, n, r3, p).

(** C37: [radix_tree_preload] does not always load enough nodes for the next
    insertion: with one item at index 0, a successful preload fills the pool with
    its seven nodes, and an insertion at the largest index, which needs eleven nodes,
    still fails with [-ENOMEM] when the slab has no more. *)
Theorem radix_tree_preload_insufficient :
  fresh_supply seven_nodes /\ fst <$> preload_then_insert (new_tree 32 seven_nodes) = Some (0, 0, RADIX_TREE_MAX_PATH, - ENOMEM, 4096).
Proof.
  split; [|by vm_compute]. split; [apply Forall_forall; intros a Ha; right; rewrite list_elem_of_In in Ha; cbn in Ha; intuition; subst; (split; [lia|done])|]. apply (bool_decide_unpack _). by vm_compute.
Qed.

End RadixTheorems.
