(* ===== verification/Resource.v ===== *)
(** * Resource trees: [kernel/resource.c], [include/linux/ioport.h]

    The ranges of addresses that the kernel has given to devices, as a tree in which
    the children of a resource are disjoint ranges inside it, linked in ascending
    order.  The resources live in a heap indexed by address; [resource_lock] makes
    every operation atomic.  [resource_size_t] has 32 bits. *)

From S2P Require Import Prelude.

Module Resource.

Definition NULL : Z := 0.
Definition EBUSY : Z := 16.
Definition EINVAL : Z := 22.
Definition IORESOURCE_BUSY : Z := 0x80000000.

Record resource := mk_res { start : Z; end_ : Z; name : Z; flags : Z; parent : Z; sibling : Z; child : Z }.

Definition zero_res : resource := mk_res 0 0 0 0 NULL NULL NULL.

(** [supply] are the answers of [kzalloc], 0 for a failure. *)
Record state := mk_state { heap : gmap Z resource; supply : list Z }.

Abbreviation M := (ST state).

(** ** Memory *)

Definition ld (a : Z) : M resource := fun s => if a =? NULL then None else match heap s !! a with Some r => Some (r, s) | None => None end.
Definition sto (a : Z) (r : resource) : M unit := fun s =>
  if a =? NULL then None else match heap s !! a with Some _ => Some (tt, mk_state (<[a := r]> (heap s)) (supply s)) | None => None end.
Definition modify (a : Z) (f : resource -> resource) : M unit := r ← ld a; sto a (f r).

Definition set_start (v : Z) (r : resource) : resource := mk_res v (end_ r) (name r) (flags r) (parent r) (sibling r) (child r).
Definition set_end (v : Z) (r : resource) : resource := mk_res (start r) v (name r) (flags r) (parent r) (sibling r) (child r).
Definition set_parent (v : Z) (r : resource) : resource := mk_res (start r) (end_ r) (name r) (flags r) v (sibling r) (child r).
Definition set_sibling (v : Z) (r : resource) : resource := mk_res (start r) (end_ r) (name r) (flags r) (parent r) v (child r).
Definition set_child (v : Z) (r : resource) : resource := mk_res (start r) (end_ r) (name r) (flags r) (parent r) (sibling r) v.

(** A [struct resource **]: the address of a link. *)
Inductive link := Child (a : Z) | Sibling (a : Z).
Definition ld_link (p : link) : M Z := match p with Child a => r ← ld a; mret (child r) | Sibling a => r ← ld a; mret (sibling r) end.
Definition st_link (p : link) (v : Z) : M unit := match p with Child a => modify a (set_child v) | Sibling a => modify a (set_sibling v) end.

Definition kzalloc : M Z := fun s =>
  match supply s with
  | [] => Some (NULL, s)
  | a :: l => Some (a, mk_state (if a =? NULL then heap s else <[a := zero_res]> (heap s)) l)
  end.
Definition kfree (a : Z) : M unit := fun s => Some (tt, mk_state (delete a (heap s)) (supply s)).

(** A bound on the rounds of a loop that goes from resource to resource. *)
Definition rounds : M nat := fun s => Some (S (size (heap s)), s).

(** ** Requests *)

Definition link_new (root new : Z) (p : link) (tmp : Z) : M Z := modify new (set_sibling tmp) ;; st_link p new ;; modify new (set_parent root) ;; mret NULL.

Fixpoint request_loop (n : nat) (root new start' end' : Z) (p : link) : M Z :=
  match n with
  | O => st_fault
  | S n =>
      tmp ← ld_link p;
      if tmp =? NULL then link_new root new p tmp else
      t ← ld tmp;
      if end' <? start t then link_new root new p tmp else
      if end_ t <? start' then request_loop n root new start' end' (Sibling tmp) else mret tmp
  end.

Definition __request_resource (root new : Z) : M Z :=
  n ← ld new;
  r ← ld root;
  if end_ n <? start n then mret root else
  if start n <? start r then mret root else
  if end_ r <? end_ n then mret root else
  k ← rounds; request_loop k root new (start n) (end_ n) (Child root).

Fixpoint release_loop (n : nat) (old : Z) (p : link) : M Z :=
  match n with
  | O => st_fault
  | S n =>
      tmp ← ld_link p;
      if tmp =? NULL then mret (- EINVAL) else
      if tmp =? old then t ← ld tmp; st_link p (sibling t) ;; modify old (set_parent NULL) ;; mret 0
      else release_loop n old (Sibling tmp)
  end.

Definition __release_resource (old : Z) : M Z := o ← ld old; k ← rounds; release_loop k old (Child (parent o)).

Definition request_resource (root new : Z) : M Z := conflict ← __request_resource root new; mret (if negb (conflict =? NULL) then - EBUSY else 0).
Definition release_resource (old : Z) : M Z := __release_resource old.

(** ** Allocation *)

Definition ALIGN (x a : Z) : Z := let mask := u32 (a - 1) in Z.land (u32 (x + mask)) (u32 (Z.lnot mask)).

(** [alignf] may move the bounds of the new resource. *)
Definition align_fn : Type := Z -> Z -> Z -> Z -> Z * Z.

Definition clamp (new min max size align : Z) (alignf : option align_fn) : M unit :=
  n ← ld new; (if start n <? min then modify new (set_start min) else mret tt) ;;
  n ← ld new; (if max <? end_ n then modify new (set_end max) else mret tt) ;;
  n ← ld new; modify new (set_start (ALIGN (start n) align)) ;;
  match alignf with
  | Some f => n ← ld new; let '(b, e) := f (start n) (end_ n) size align in modify new (set_start b) ;; modify new (set_end e)
  | None => mret tt
  end.

Fixpoint find_loop (k : nat) (root new size min max align : Z) (alignf : option align_fn) (this : Z) : M Z :=
  match k with
  | O => st_fault
  | S k =>
      e ← (if negb (this =? NULL) then t ← ld this; mret (u32 (start t - 1)) else r ← ld root; mret (end_ r));
      modify new (set_end e) ;;
      clamp new min max size align alignf ;;
      n ← ld new;
      if (start n <? end_ n) && (u32 (size - 1) <=? u32 (end_ n - start n)) then modify new (set_end (u32 (start n + size - 1))) ;; mret 0 else
      if this =? NULL then mret (- EBUSY) else
      t ← ld this; modify new (set_start (u32 (end_ t + 1))) ;;
      find_loop k root new size min max align alignf (sibling t)
  end.

Definition find_resource (root new size min max align : Z) (alignf : option align_fn) : M Z :=
  r ← ld root;
  modify new (set_start (start r)) ;;
  this ← (if child r =? NULL then mret NULL else
          t ← ld (child r); if start t =? 0 then modify new (set_start (u32 (end_ t + 1))) ;; mret (sibling t) else mret (child r));
  k ← rounds; find_loop k root new size min max align alignf this.

Definition allocate_resource (root new size min max align : Z) (alignf : option align_fn) : M Z :=
  err ← find_resource root new size min max align alignf;
  if 0 <=? err then conflict ← __request_resource root new; mret (if negb (conflict =? NULL) then - EBUSY else err) else mret err.

(** ** Insertion between levels *)

(** The first loop of [insert_resource]: the result, or [parent] and [first]. *)
Fixpoint insert_find (k : nat) (par new : Z) : M (Z + Z * Z) :=
  match k with
  | O => st_fault
  | S k =>
      first ← __request_resource par new;
      if first =? NULL then mret (inl 0) else
      if first =? par then mret (inl (- EBUSY)) else
      f ← ld first; n ← ld new;
      if (start n <? start f) || (end_ f <? end_ n) then mret (inr (par, first)) else
      if (start f =? start n) && (end_ f =? end_ n) then mret (inr (par, first)) else
      insert_find k first new
  end.

(** The second loop: the last sibling inside the new resource. *)
Fixpoint insert_last (k : nat) (new next : Z) : M (option Z) :=
  match k with
  | O => st_fault
  | S k =>
      x ← ld next; n ← ld new;
      if (start x <? start n) || (end_ n <? end_ x) then mret None else
      if sibling x =? NULL then mret (Some next) else
      y ← ld (sibling x);
      if end_ n <? start y then mret (Some next) else insert_last k new (sibling x)
  end.

Fixpoint reparent (k : nat) (new next : Z) : M unit :=
  match k with
  | O => st_fault
  | S k => if next =? NULL then mret tt else modify next (set_parent new) ;; x ← ld next; reparent k new (sibling x)
  end.

Fixpoint previous (k : nat) (next first : Z) : M Z :=
  match k with
  | O => st_fault
  | S k => x ← ld next; if sibling x =? first then mret next else previous k (sibling x) first
  end.

Definition insert_between (par new first next : Z) : M unit :=
  k ← rounds;
  modify new (set_parent par) ;;
  x ← ld next; modify new (set_sibling (sibling x)) ;;
  modify new (set_child first) ;;
  modify next (set_sibling NULL) ;;
  reparent k new first ;;
  p ← ld par;
  if child p =? first then modify par (set_child new) else next ← previous k (child p) first; modify next (set_sibling new).

Definition insert_resource (par new : Z) : M Z :=
  k ← rounds;
  o ← insert_find k par new;
  match o with
  | inl result => mret result
  | inr (par, first) =>
      l ← insert_last k new first;
      match l with
      | None => mret (- EBUSY)
      | Some next => insert_between par new first next ;; mret 0
      end
  end.

(** ** Moving a resource *)

Fixpoint children_fit (k : nat) (tmp start' end' : Z) : M bool :=
  match k with
  | O => st_fault
  | S k => if tmp =? NULL then mret true else t ← ld tmp; if (start t <? start') || (end' <? end_ t) then mret false else children_fit k (sibling t) start' end'
  end.

Definition adjust_resource (res start' size : Z) : M Z :=
  r ← ld res;
  let end' := u32 (start' + size - 1) in
  p ← ld (parent r);
  if (start' <? start p) || (end_ p <? end') then mret (- EBUSY) else
  k ← rounds;
  fit ← children_fit k (child r) start' end';
  if negb fit then mret (- EBUSY) else
  after ← (if sibling r =? NULL then mret false else n ← ld (sibling r); mret (start n <=? end'));
  if (after : bool) then mret (- EBUSY) else
  before ← (if child p =? res then mret false else prev ← previous k (child p) res; t ← ld prev; mret (start' <=? end_ t));
  if (before : bool) then mret (- EBUSY) else
  modify res (set_start start') ;; modify res (set_end end') ;; mret 0.

(** ** Regions *)

Fixpoint region_loop (k : nat) (par res : Z) : M Z :=
  match k with
  | O => st_fault
  | S k =>
      conflict ← __request_resource par res;
      if conflict =? NULL then mret res else
      if negb (conflict =? par) then
        c ← ld conflict;
        if Z.land (flags c) IORESOURCE_BUSY =? 0 then region_loop k conflict res else kfree res ;; mret NULL
      else kfree res ;; mret NULL
  end.

Definition __request_region (par start' n name' : Z) : M Z :=
  res ← kzalloc;
  if res =? NULL then mret NULL else
  sto res (mk_res start' (u32 (start' + n - 1)) name' IORESOURCE_BUSY NULL NULL NULL) ;;
  k ← rounds; region_loop k par res.

Definition __check_region (par start' n name' : Z) : M Z :=
  res ← __request_region par start' n name';
  if res =? NULL then mret (- EBUSY) else release_resource res ;; kfree res ;; mret 0.

(** The result says if the region was found; otherwise the kernel prints a warning. *)
Fixpoint release_region_loop (k : nat) (start' end' : Z) (p : link) : M bool :=
  match k with
  | O => st_fault
  | S k =>
      res ← ld_link p;
      if res =? NULL then mret false else
      r ← ld res;
      if (start r <=? start') && (end' <=? end_ r) then
        if Z.land (flags r) IORESOURCE_BUSY =? 0 then release_region_loop k start' end' (Child res) else
        if negb (start r =? start') || negb (end_ r =? end') then mret false else
        st_link p (sibling r) ;; kfree res ;; mret true
      else release_region_loop k start' end' (Sibling res)
  end.

Definition __release_region (par start' n : Z) : M bool := k ← rounds; release_region_loop k start' (u32 (start' + n - 1)) (Child par).

(** ** The lines of [/proc/iomem] *)

Fixpoint climb (k : nat) (p : Z) : M Z :=
  match k with
  | O => st_fault
  | S k => r ← ld p; if (sibling r =? NULL) && negb (parent r =? NULL) then climb k (parent r) else mret (sibling r)
  end.
Definition r_next (p : Z) : M Z := r ← ld p; if negb (child r =? NULL) then mret (child r) else k ← rounds; climb k p.

Fixpoint r_start_loop (pos : nat) (p : Z) : M Z :=
  if p =? NULL then mret NULL else
  match pos with O => mret p | S pos => q ← r_next p; r_start_loop pos q end.
(** The resource that line [pos] shows. *)
Definition r_start (root : Z) (pos : nat) : M Z := r ← ld root; r_start_loop pos (child r).

Definition MAX_IORES_LEVEL : nat := 5.

(** [n] rounds are left. *)
Fixpoint depth_loop (n : nat) (root p : Z) (depth : Z) : M Z :=
  match n with
  | O => mret depth
  | S n => r ← ld p; if parent r =? root then mret depth else depth_loop n root (parent r) (depth + 1)
  end.
(** What is printed: the indentation, the width of the numbers, and the numbers. *)
Definition r_show (root v : Z) : M (Z * Z * (Z * Z)) :=
  t ← ld root;
  let width := if end_ t <? 0x10000 then 4 else 8 in
  depth ← depth_loop MAX_IORES_LEVEL root v 0;
  r ← ld v; mret (depth * 2, width, (start r, end_ r)).

End Resource.
