(* ===== verification/ResourceTree.v ===== *)
(** * Resource trees: well-formed trees

    [F] maps every resource to the list of its children; the links of the heap
    realise it.  The children of a resource are disjoint, in ascending order and
    inside it, and no resource is below itself. *)

From S2P Require Import Prelude Resource.

Module ResourceTree.
Import Resource.

Abbreviation forest := (gmap Z (list Z)).

Definition first_of (ks : list Z) : Z := match ks with [] => NULL | k :: _ => k end.

(** The siblings [ks] with the parent [a], from the link [v] to the link [w]. *)
Fixpoint seg (h : gmap Z resource) (a v : Z) (ks : list Z) (w : Z) : Prop :=
  match ks with
  | [] => v = w
  | k :: ks => v = k /\ exists r, h !! k = Some r /\ parent r = a /\ seg h a (sibling r) ks w
  end.

(** They are in order between [lo] and [hi]. *)
Fixpoint fit (h : gmap Z resource) (lo : Z) (ks : list Z) (hi : Z) : Prop :=
  match ks with
  | [] => True
  | k :: ks => exists r, h !! k = Some r /\ lo <= start r <= end_ r /\ end_ r <= hi /\ fit h (end_ r + 1) ks hi
  end.

Definition kid (F : forest) (y x : Z) : Prop := exists ks, F !! x = Some ks /\ y ∈ ks.
Definition detached (F : forest) (x : Z) : Prop := forall y, ~ kid F x y.
(** [y] is [x] or below it. *)
Definition below (F : forest) (y x : Z) : Prop := rtc (fun u v => kid F v u) x y.

Record node_ok (h : gmap Z resource) (a : Z) (ks : list Z) (r : resource) : Prop := {
  nd_here : h !! a = Some r;
  nd_range : is_u32 (start r) /\ is_u32 (end_ r);
  nd_seg : seg h a (child r) ks NULL;
  nd_fit : fit h (start r) ks (end_ r) }.

Record wf (F : forest) (s : state) : Prop := {
  wf_dom : forall a, is_Some (heap s !! a) <-> is_Some (F !! a);
  wf_null : F !! NULL = None;
  wf_node : forall a ks, F !! a = Some ks -> exists r, node_ok (heap s) a ks r;
  wf_kid : forall y x, kid F y x -> is_Some (F !! y);
  wf_acc : forall a, Acc (kid F) a;
  wf_supply : NoDup (filter (.≠ NULL) (supply s)) /\ Forall (fun a => heap s !! a = None) (supply s) }.

(** The heaps agree on a field of a resource. *)
Definition same {A} (f : resource -> A) (h h' : gmap Z resource) (k : Z) : Prop := f <$> h' !! k = f <$> h !! k.
Definition range (r : resource) : Z * Z := (start r, end_ r).

Lemma same_lookup {A} (f : resource -> A) h h' k r : same f h h' k -> h !! k = Some r -> exists r', h' !! k = Some r' /\ f r' = f r.
Proof. unfold same. intros E H. rewrite H in E. destruct (h' !! k) as [r'|]; [|done]. injection E as E. by exists r'. Qed.

Lemma same_some {A} (f : resource -> A) h h' k : same f h h' k -> is_Some (h' !! k) <-> is_Some (h !! k).
Proof. unfold same. intros E. by rewrite <- (fmap_is_Some f), E, fmap_is_Some. Qed.

(** An update of another field. *)
Lemma same_alter {A} (f : resource -> A) (g : resource -> resource) h a k : (forall r, f (g r) = f r) -> same f h (alter g a h) k.
Proof. intros E. unfold same. destruct (decide (k = a)) as [->|Hne]; [rewrite lookup_alter_eq|by rewrite lookup_alter_ne]. destruct (h !! a); [|done]. cbn. by rewrite E. Qed.

Lemma same_alter_ne {A} (f : resource -> A) (g : resource -> resource) h a k : k <> a -> same f h (alter g a h) k.
Proof. intros Hne. unfold same. by rewrite lookup_alter_ne. Qed.

Lemma same_trans {A} (f : resource -> A) h1 h2 h3 k : same f h1 h2 k -> same f h2 h3 k -> same f h1 h3 k.
Proof. unfold same. congruence. Qed.

(** ** Segments *)

Lemma seg_app h a v ks1 ks2 w : seg h a v (ks1 ++ ks2) w <-> exists u, seg h a v ks1 u /\ seg h a u ks2 w.
Proof.
  revert v. induction ks1 as [|k ks1 IH]; intros v; cbn [seg app].
  - split; [intros H; by exists v|intros (u & -> & H); done].
  - split.
    + intros (-> & r & Hr & Hp & Hs). apply IH in Hs as (u & H1 & H2). exists u. split; [|done]. split; [done|]. by exists r.
    + intros (u & (-> & r & Hr & Hp & H1) & H2). split; [done|]. exists r. split; [done|]. split; [done|]. apply IH. by exists u.
Qed.

Lemma seg_mono h h' a v ks w : (forall k, k ∈ ks -> same parent h h' k /\ same sibling h h' k) -> seg h a v ks w -> seg h' a v ks w.
Proof.
  revert v. induction ks as [|k ks IH]; intros v H; cbn [seg]; [done|]. intros (-> & r & Hr & Hp & Hs). split; [done|]. destruct (H k ltac:(by left)) as [E1 E2]. destruct (same_lookup _ _ _ _ _ E1 Hr) as (r' & Hr' & Ep).
  unfold same in E2. rewrite Hr, Hr' in E2. injection E2 as Es. exists r'. split; [done|]. split; [congruence|]. rewrite Es. apply IH; [|done]. intros k' Hk. apply H. by right.
Qed.

Lemma seg_first h a v ks : seg h a v ks NULL -> v = first_of ks.
Proof. destruct ks as [|k ks]; [done|]. by intros [-> _]. Qed.

Lemma seg_in h a v ks w k : seg h a v ks w -> k ∈ ks -> exists r, h !! k = Some r /\ parent r = a.
Proof.
  revert v. induction ks as [|x ks IH]; intros v; cbn [seg]; [intros _ Hk; by apply elem_of_nil in Hk|]. intros (-> & r & Hr & Hp & Hs) [->|Hk]%elem_of_cons; [by exists r|by eapply IH].
Qed.

(** The link after [k]. *)
Lemma seg_split h a v ks1 k ks2 : seg h a v (ks1 ++ k :: ks2) NULL -> exists r, h !! k = Some r /\ parent r = a /\ sibling r = first_of ks2 /\ seg h a v ks1 k /\ seg h a (sibling r) ks2 NULL.
Proof. intros (u & H1 & -> & r & Hr & Hp & H2)%seg_app. exists r. split; [done|]. split; [done|]. split; [by eapply seg_first|done]. Qed.

(** The segment [ks1] continues with [rest] after its last link was changed. *)
Lemma seg_splice h h' a v ks1 u w rest : seg h a v ks1 u -> NoDup ks1 -> (forall k, k ∈ ks1 -> same parent h h' k) -> (forall k, k ∈ ks1 -> last ks1 <> Some k -> same sibling h h' k) -> (forall k, last ks1 = Some k -> sibling <$> h' !! k = Some w) -> seg h' a w rest NULL ->
  seg h' a (match ks1 with [] => w | _ => v end) (ks1 ++ rest) NULL.
Proof.
  destruct ks1 as [|k l _] using rev_ind; [done|]. intros (x & Hl & -> & r & Hr & Hp & _)%seg_app Hnd Hpar Hsib Hlast Hrest. rewrite last_snoc in Hsib, Hlast. apply NoDup_app in Hnd as (_ & Hnd & _).
  assert (seg h' a v (l ++ k :: rest) NULL) as Hgoal.
  { apply seg_app. exists k. split.
    - apply (seg_mono h); [|done]. intros y Hy. split; [apply Hpar, elem_of_app; by left|]. apply Hsib; [apply elem_of_app; by left|]. intros [= ->]. apply (Hnd _ Hy). by left.
    - split; [done|]. destruct (same_lookup parent h h' k r) as (r' & Hr' & E); [apply Hpar, elem_of_app; right; by left|done|]. exists r'. split; [done|]. split; [congruence|]. specialize (Hlast k eq_refl). rewrite Hr' in Hlast. injection Hlast as ->. done. }
  rewrite <- app_assoc. by destruct l.
Qed.

(** ** Order *)

Lemma fit_mono h h' lo ks hi : (forall k, k ∈ ks -> same range h h' k) -> fit h lo ks hi -> fit h' lo ks hi.
Proof.
  revert lo. induction ks as [|k ks IH]; intros lo H; cbn [fit]; [done|]. intros (r & Hr & H1 & H2 & H3). destruct (same_lookup _ _ _ _ _ (H k ltac:(by left)) Hr) as (r' & Hr' & E). injection E as E1 E2. exists r'. rewrite E1, E2. split; [done|]. split; [done|]. split; [done|].
  apply IH; [|done]. intros k' Hk. apply H. by right.
Qed.

Lemma fit_in h lo ks hi k : fit h lo ks hi -> k ∈ ks -> exists r, h !! k = Some r /\ lo <= start r <= end_ r /\ end_ r <= hi.
Proof.
  revert lo. induction ks as [|x ks IH]; intros lo; cbn [fit]; [intros _ Hk; by apply elem_of_nil in Hk|]. intros (r & Hr & H1 & H2 & H3) [->|Hk]%elem_of_cons; [by exists r|].
  destruct (IH _ H3 Hk) as (y & Hy & ? & ?). exists y. split; [done|]. lia.
Qed.

Lemma fit_app h lo ks1 ks2 hi : fit h lo (ks1 ++ ks2) hi <-> fit h lo ks1 hi /\ exists m, lo <= m /\ (forall k r, k ∈ ks1 -> h !! k = Some r -> end_ r < m) /\ fit h m ks2 hi.
Proof.
  revert lo. induction ks1 as [|k ks1 IH]; intros lo; cbn [fit app].
  - split; [intros H; split; [done|]; exists lo; split; [lia|]; split; [intros k r Hk; by apply elem_of_nil in Hk|done]|].
    intros (_ & m & Hm & _ & H). destruct ks2 as [|k ks2]; [done|]. destruct H as (r & Hr & H1 & H2 & H3). exists r. split; [done|]. split; [lia|done].
  - split.
    + intros (r & Hr & H1 & H2 & H3). apply IH in H3 as (H3 & m & Hm & Hlt & H4). split; [by exists r|]. exists m. split; [lia|]. split; [|done]. intros k' r' [->|Hk]%elem_of_cons Hr'; [rewrite Hr in Hr'; injection Hr' as <-; lia|by eapply Hlt].
    + intros ((r & Hr & H1 & H2 & H3) & m & Hm & Hlt & H4). exists r. split; [done|]. split; [done|]. split; [done|]. apply IH. split; [done|]. exists m. split; [specialize (Hlt k r ltac:(by left) Hr); lia|]. split; [|done]. intros k' r' Hk. apply Hlt. by right.
Qed.

(** Smaller bounds. *)
Lemma fit_bounds h lo ks hi lo' hi' : fit h lo ks hi -> (forall k r, k ∈ ks -> h !! k = Some r -> lo' <= start r /\ end_ r <= hi') -> fit h lo' ks hi'.
Proof.
  revert lo lo'. induction ks as [|k ks IH]; intros lo lo'; cbn [fit]; [done|]. intros (r & Hr & H1 & H2 & H3) H. exists r. destruct (H k r ltac:(by left) Hr). split; [done|]. split; [lia|]. split; [lia|].
  apply (IH (end_ r + 1)); [done|]. intros k' r' Hk Hr'. destruct (H k' r' ltac:(by right) Hr'). destruct (fit_in _ _ _ _ k' H3 Hk) as (y & Hy & ? & ?). rewrite Hr' in Hy. injection Hy as <-. lia.
Qed.

Lemma fit_nodup h lo ks hi : fit h lo ks hi -> NoDup ks.
Proof.
  revert lo. induction ks as [|k ks IH]; intros lo; cbn [fit]; [intros _; apply NoDup_nil_2|]. intros (r & Hr & H1 & H2 & H3). apply NoDup_cons. split; [|by eapply IH]. intros Hk. destruct (fit_in _ _ _ _ k H3 Hk) as (y & Hy & ? & _).
  rewrite Hr in Hy. injection Hy as <-. lia.
Qed.

End ResourceTree.
