(* ===== verification/ResourceLinks.v ===== *)
(** * Resource trees: the links of a well-formed tree

    Loads and stores of links, the bound of the loops, and the two changes of the
    tree: a resource is linked between two siblings, or unlinked. *)

From S2P Require Import Prelude Resource ResourceTree.

Module ResourceLinks.
Import Resource ResourceTree.

(** ** Memory *)

Lemma res_ld_run a r s : a <> NULL -> heap s !! a = Some r -> ld a s = Some (r, s).
Proof. intros Hn H. unfold ld. rewrite (proj2 (Z.eqb_neq a NULL) Hn). by rewrite H. Qed.

Lemma modify_run a f s : a <> NULL -> is_Some (heap s !! a) -> modify a f s = Some (tt, mk_state (alter f a (heap s)) (supply s)).
Proof.
  intros Hn [r H]. unfold modify. erewrite bind_run by (by apply res_ld_run). unfold sto. rewrite (proj2 (Z.eqb_neq a NULL) Hn), H. do 3 f_equal.
  apply map_eq. intros b. destruct (decide (b = a)) as [->|Hne]; [rewrite lookup_insert_eq, lookup_alter_eq, H; done|by rewrite lookup_insert_ne, lookup_alter_ne].
Qed.

Lemma modify_at a f h l : a <> NULL -> is_Some (h !! a) -> modify a f (mk_state h l) = Some (tt, mk_state (alter f a h) l).
Proof. intros Hn H. exact (modify_run a f (mk_state h l) Hn H). Qed.

(** The link that leads to the sibling after [ks1]. *)
Definition loc (a : Z) (ks1 : list Z) : link := match last ks1 with None => Child a | Some k => Sibling k end.
Definition relink (a : Z) (ks1 : list Z) (v : Z) (h : gmap Z resource) : gmap Z resource :=
  match last ks1 with None => alter (set_child v) a h | Some k => alter (set_sibling v) k h end.

Lemma loc_snoc a ks1 k : loc a (ks1 ++ [k]) = Sibling k.
Proof. unfold loc. by rewrite last_snoc. Qed.

Lemma same_relink {A} (f : resource -> A) a ks1 v h b : (forall r, f (set_child v r) = f r) -> (forall r, f (set_sibling v r) = f r) -> same f h (relink a ks1 v h) b.
Proof. intros H1 H2. unfold relink. destruct (last ks1); by apply same_alter. Qed.

Lemma relink_child a ks1 v h b : (b = a -> ks1 <> []) -> same child h (relink a ks1 v h) b.
Proof.
  intros H. unfold relink. destruct (last ks1) as [k|] eqn:E; [by apply same_alter|]. apply last_None in E. apply same_alter_ne. intros ->. by apply H.
Qed.

Lemma relink_sibling a ks1 v h b : last ks1 <> Some b -> same sibling h (relink a ks1 v h) b.
Proof. intros H. unfold relink. destruct (last ks1) as [k|] eqn:E; [|by apply same_alter]. apply same_alter_ne. congruence. Qed.

Lemma relink_last a ks1 v h k : last ks1 = Some k -> is_Some (h !! k) -> sibling <$> relink a ks1 v h !! k = Some v.
Proof. intros E [r H]. unfold relink. rewrite E, lookup_alter_eq, H. done. Qed.

Lemma relink_first a v h : is_Some (h !! a) -> child <$> relink a [] v h !! a = Some v.
Proof. intros [r H]. unfold relink. cbn [last]. rewrite lookup_alter_eq, H. done. Qed.

Lemma relink_head a ks1 v h r x : h !! a = Some r -> relink a ks1 v h !! a = Some x -> child x = match ks1 with [] => v | _ => child r end.
Proof.
  intros Hr Hx. destruct ks1 as [|j l].
  - pose proof (relink_first a v h ltac:(by exists r)) as Hc. rewrite Hx in Hc. by injection Hc.
  - pose proof (relink_child a (j :: l) v h a ltac:(done)) as Hc. unfold same in Hc. rewrite Hx, Hr in Hc. by injection Hc.
Qed.

(** ** The shape of the tree *)

Section shape.
Context (F : forest) (s : state) (W : wf F s).

Lemma wf_nonnull a : is_Some (F !! a) -> a <> NULL.
Proof. intros [ks H] ->. by rewrite (wf_null F s W) in H. Qed.

Lemma wf_ld a ks : F !! a = Some ks -> exists r, ld a s = Some (r, s) /\ node_ok (heap s) a ks r.
Proof. intros H. destruct (wf_node F s W a ks H) as (r & N). exists r. split; [|done]. apply res_ld_run; [apply wf_nonnull; by exists ks|apply N]. Qed.

Lemma kid_parent y x : kid F y x -> parent <$> heap s !! y = Some x.
Proof. intros (ks & H & Hy). destruct (wf_node F s W x ks H) as (r & N). destruct (seg_in _ _ _ _ _ y (nd_seg _ _ _ _ N) Hy) as (q & Hq & <-). by rewrite Hq. Qed.

Lemma kid_unique y x x' : kid F y x -> kid F y x' -> x = x'.
Proof. intros H H'. apply kid_parent in H, H'. congruence. Qed.

Lemma kids_nodup a ks : F !! a = Some ks -> NoDup ks.
Proof. intros H. destruct (wf_node F s W a ks H) as (r & N). eapply fit_nodup, N. Qed.

Lemma no_cycle c a : kid F c a -> ~ below F a c.
Proof.
  intros Hk. revert a Hk. induction (wf_acc F s W c) as [c _ IH]. intros a Hk Hb. unfold below in Hb. apply rtc_inv in Hb as [->|(d & Hd & Hb)]; [apply (IH a Hk a Hk); apply rtc_refl|].
  apply (IH d Hd c Hd). eapply rtc_r; [exact Hb|exact Hk].
Qed.

Lemma seen_bound l : NoDup l -> (forall x, x ∈ l -> is_Some (F !! x)) -> (length l <= size (heap s))%nat.
Proof.
  intros Hnd Hl. rewrite <- (size_list_to_set (C := gset Z) l Hnd), <- (size_dom (D := gset Z)). apply subseteq_size. intros x Hx%elem_of_list_to_set. apply elem_of_dom, (wf_dom F s W), Hl, Hx.
Qed.

Lemma kids_bound a ks : F !! a = Some ks -> (length ks <= size (heap s))%nat.
Proof. intros H. apply seen_bound; [by eapply kids_nodup|]. intros x Hx. apply (wf_kid F s W x a). by exists ks. Qed.

Lemma ld_loc a ks1 ks2 : F !! a = Some (ks1 ++ ks2) -> ld_link (loc a ks1) s = Some (first_of ks2, s).
Proof.
  intros H. destruct (wf_ld _ _ H) as (r & Hld & N). pose proof (nd_seg _ _ _ _ N) as Hs. destruct ks1 as [|k l _] using rev_ind.
  - unfold loc. cbn [last ld_link]. erewrite bind_run by exact Hld. by rewrite (seg_first _ _ _ _ Hs).
  - rewrite loc_snoc. cbn [ld_link]. rewrite <- app_assoc in Hs, H. cbn [app] in Hs, H. apply seg_split in Hs as (q & Hq & _ & Es & _). erewrite bind_run by (apply res_ld_run; [apply wf_nonnull, (wf_kid F s W k a); exists (l ++ k :: ks2); split; [done|apply elem_of_app; right; by left]|exact Hq]). by rewrite Es.
Qed.

Lemma st_loc a ks1 ks2 v s' : F !! a = Some (ks1 ++ ks2) -> (forall b, is_Some (heap s !! b) -> is_Some (heap s' !! b)) -> st_link (loc a ks1) v s' = Some (tt, mk_state (relink a ks1 v (heap s')) (supply s')).
Proof.
  intros H Hd. unfold loc, relink. destruct (last ks1) as [k|] eqn:E; cbn [st_link].
  - assert (kid F k a) as Hk by (exists (ks1 ++ ks2); split; [done|]; apply elem_of_app; left; by apply last_Some_elem_of). pose proof (wf_kid F s W _ _ Hk) as Hi. apply modify_run; [by apply wf_nonnull|]. apply Hd, (wf_dom F s W), Hi.
  - apply modify_run; [apply wf_nonnull; by eexists|]. apply Hd, (wf_dom F s W). by eexists.
Qed.

(** A resource whose links did not change. *)
Lemma node_keep h' a ks : F !! a = Some ks -> same child (heap s) h' a -> (forall k, same range (heap s) h' k) -> (forall k, k ∈ ks -> same parent (heap s) h' k /\ same sibling (heap s) h' k) -> forall r, h' !! a = Some r -> seg h' a (child r) ks NULL /\ fit h' (start r) ks (end_ r).
Proof.
  intros H Hc Hr Hk r Ha. destruct (wf_node F s W a ks H) as (q & [Hq _ Hs Hf]). unfold same in Hc. pose proof (Hr a) as Hra. unfold same in Hra. rewrite Ha, Hq in Hc, Hra. injection Hc as ->. injection Hra as -> ->.
  split; [exact (seg_mono _ _ _ _ _ _ Hk Hs)|]. apply (fit_mono (heap s)); [|exact Hf]. intros k _. apply Hr.
Qed.

(** The tree after its links changed. *)
Lemma wf_relinked F' h' : (forall k, same range (heap s) h' k) -> (forall b, is_Some (F' !! b) <-> is_Some (F !! b)) -> (forall y x, kid F' y x -> is_Some (F !! y)) -> (forall a, Acc (kid F') a) ->
  (forall a ks, F' !! a = Some ks -> forall r, h' !! a = Some r -> seg h' a (child r) ks NULL /\ fit h' (start r) ks (end_ r)) -> wf F' (mk_state h' (supply s)).
Proof.
  intros Hr Hd Hk Hacc Hn. assert (forall b, is_Some (h' !! b) <-> is_Some (heap s !! b)) as Hh by (intros b; by eapply same_some). split; cbn [heap supply].
  - intros a. by rewrite Hh, Hd, (wf_dom F s W).
  - apply eq_None_not_Some. intros Hi%Hd. by apply (wf_nonnull NULL Hi).
  - intros a ks Ha. assert (is_Some (F !! a)) as [ks0 Ha0] by (apply Hd; by exists ks). destruct (wf_node F s W a ks0 Ha0) as (q & N). destruct (same_lookup _ _ _ _ _ (Hr a) (nd_here _ _ _ _ N)) as (r & Hra & E). injection E as E1 E2.
    exists r. destruct (Hn a ks Ha r Hra). split; [done| |done|done]. rewrite E1, E2. apply N.
  - intros y x Hy. apply Hd. by eapply Hk.
  - done.
  - split; [apply (wf_supply F s W)|]. eapply Forall_impl; [apply (wf_supply F s W)|]. intros b Hb. apply eq_None_not_Some. intros [y Hy]%Hh. congruence.
Qed.

End shape.

End ResourceLinks.
