(* ===== verification/ResourceOps.v ===== *)
(** * Resource trees: linking and unlinking, [__request_resource] and
      [__release_resource] *)

From S2P Require Import Prelude Resource ResourceTree ResourceLinks.

Module ResourceOps.
Import Resource ResourceTree ResourceLinks.

Lemma acc_sub (F F' : forest) : (forall y x, kid F' y x -> kid F y x) -> (forall a, Acc (kid F) a) -> forall a, Acc (kid F') a.
Proof. intros H Ha a. induction (Ha a) as [a _ IH]. constructor. intros y Hy. by apply IH, H. Qed.

(** A resource keeps its data when it is moved in the tree. *)
Definition core (r : resource) : Z * Z * Z * Z := (start r, end_ r, name r, flags r).
Definition same_data (s s' : state) : Prop := supply s' = supply s /\ forall a, same core (heap s) (heap s') a.

Lemma same_data_refl s : same_data s s.
Proof. by split. Qed.

(** ** Linking *)

Section attach.
Context (F : forest) (s : state) (W : wf F s).
Context (root new : Z) (ks1 ks2 nk : list Z) (r n : resource).
Context (Hroot : F !! root = Some (ks1 ++ ks2)) (Hnew : F !! new = Some nk) (Hdet : detached F new) (Hnb : ~ below F root new).
Context (Hr : heap s !! root = Some r) (Hn : heap s !! new = Some n).

Definition attached : forest := <[root := ks1 ++ new :: ks2]> F.
Definition attach_heap : gmap Z resource := alter (set_parent root) new (relink root ks1 new (alter (set_sibling (first_of ks2)) new (heap s))).

Lemma attach_ne : new <> root.
Proof. intros E. apply Hnb. rewrite E. apply rtc_refl. Qed.

Lemma attach_acc a : Acc (kid attached) a.
Proof.
  assert (forall y x, kid attached y x -> kid F y x \/ y = new) as Hk.
  { intros y x (ks & Hx & Hy). unfold attached in Hx. apply lookup_insert_Some in Hx as [[<- <-]|[_ Hx]]; [|left; by exists ks]. apply elem_of_app in Hy as [Hy|[->|Hy]%elem_of_cons]; [left| by right|left]; (exists (ks1 ++ ks2); split; [done|]; apply elem_of_app); tauto. }
  assert (forall b, below F b new -> Acc (kid attached) b) as Hb.
  { intros b. induction (wf_acc F s W b) as [b _ IH]. intros Hb. constructor. intros y (ks & Hx & Hy). unfold attached in Hx. apply lookup_insert_Some in Hx as [[E _]|[_ Hx]]; [rewrite <- E in Hb; done|].
    assert (kid F y b) as Hyb by (by exists ks). apply IH; [done|]. eapply rtc_r; [exact Hb|exact Hyb]. }
  induction (wf_acc F s W a) as [a _ IH]. constructor. intros y [Hy| ->]%Hk; [by apply IH|apply Hb, rtc_refl].
Qed.

Lemma attach_range b : same range (heap s) attach_heap b.
Proof. unfold attach_heap. eapply same_trans; [|by apply same_alter]. eapply same_trans; [|by apply same_relink]. by apply same_alter. Qed.

Lemma attach_parent b : b <> new -> same parent (heap s) attach_heap b.
Proof. intros Hb. unfold attach_heap. eapply same_trans; [|by apply same_alter_ne]. eapply same_trans; [|by apply same_relink]. by apply same_alter. Qed.

Lemma attach_sibling b : b <> new -> last ks1 <> Some b -> same sibling (heap s) attach_heap b.
Proof. intros Hb Hl. unfold attach_heap. eapply same_trans; [|by apply same_alter]. eapply same_trans; [|by apply relink_sibling]. by apply same_alter_ne. Qed.

Lemma attach_child b : (b = root -> ks1 <> []) -> same child (heap s) attach_heap b.
Proof. intros Hb. unfold attach_heap. eapply same_trans; [|by apply same_alter]. eapply same_trans; [|by apply relink_child]. by apply same_alter. Qed.

Lemma attach_kids k : k ∈ ks1 ++ ks2 -> kid F k root /\ k <> new.
Proof. intros Hk. assert (kid F k root) by (by exists (ks1 ++ ks2)). split; [done|]. intros ->. by apply (Hdet root). Qed.

Lemma attach_last k : last ks1 = Some k -> k ∈ ks1 ++ ks2.
Proof. intros E. apply elem_of_app. left. by apply last_Some_elem_of. Qed.

Lemma attach_new : parent <$> attach_heap !! new = Some root /\ sibling <$> attach_heap !! new = Some (first_of ks2).
Proof.
  unfold attach_heap. rewrite lookup_alter_eq. assert (relink root ks1 new (alter (set_sibling (first_of ks2)) new (heap s)) !! new = Some (set_sibling (first_of ks2) n)) as E; [|rewrite E; done].
  unfold relink. destruct (last ks1) as [k|] eqn:El; (rewrite lookup_alter_ne; [by rewrite lookup_alter_eq, Hn|]); [|apply not_eq_sym, attach_ne]. by apply attach_kids, attach_last.
Qed.

Lemma attach_seg x : attach_heap !! root = Some x -> seg attach_heap root (child x) (ks1 ++ new :: ks2) NULL.
Proof.
  intros Hx. destruct (wf_node F s W _ _ Hroot) as (r' & [Hr' _ Hs _]). rewrite Hr in Hr'. injection Hr' as <-. apply seg_app in Hs as (u & Hs1 & Hs2). rewrite (seg_first _ _ _ _ Hs2) in Hs2.
  assert (child x = match ks1 with [] => new | _ => child r end) as ->.
  { destruct ks1 as [|k l] eqn:E.
    - assert (child <$> attach_heap !! root = Some new) as Hc by (unfold attach_heap; rewrite lookup_alter_ne by apply attach_ne; rewrite E; apply relink_first; rewrite lookup_alter_ne by apply attach_ne; by eexists). rewrite Hx in Hc. by injection Hc.
    - assert (same child (heap s) attach_heap root) as Hc by (apply attach_child; by rewrite E). unfold same in Hc. rewrite Hx, Hr in Hc. by injection Hc. }
  apply (seg_splice (heap s) _ _ _ _ u); [done| | | | |].
  - pose proof (kids_nodup F s W _ _ Hroot) as Hnd. apply NoDup_app in Hnd. tauto.
  - intros k Hk. apply attach_parent, attach_kids, elem_of_app. by left.
  - intros k Hk Hl. apply attach_sibling; [|done]. apply attach_kids, elem_of_app. by left.
  - intros k Hl. unfold attach_heap. pose proof (attach_kids k (attach_last k Hl)) as [Hk Hne]. rewrite lookup_alter_ne by done. apply relink_last; [done|]. rewrite lookup_alter_ne by done. apply (wf_dom F s W), (wf_kid F s W _ _ Hk).
  - destruct attach_new as [Hp Hsi]. destruct (attach_heap !! new) as [q|] eqn:Eq; [|done]. injection Hp as Hp. injection Hsi as Hsi. split; [done|]. exists q. split; [done|]. split; [done|]. rewrite Hsi. apply (seg_mono (heap s)); [|done]. intros k Hk.
    destruct (attach_kids k) as [_ Hne]; [apply elem_of_app; by right|]. split; [by apply attach_parent|]. apply attach_sibling; [done|]. intros El. pose proof (kids_nodup F s W _ _ Hroot) as Hnd. apply NoDup_app in Hnd as (_ & Hnd & _). apply (Hnd k); [by apply last_Some_elem_of|done].
Qed.

Context (Hin : start r <= start n <= end_ n /\ end_ n <= end_ r).
Context (Hlo : forall k q, k ∈ ks1 -> heap s !! k = Some q -> end_ q < start n).
Context (Hhi : forall k q, k ∈ ks2 -> heap s !! k = Some q -> end_ n < start q).

Lemma attach_fit : fit (heap s) (start r) (ks1 ++ new :: ks2) (end_ r).
Proof.
  destruct (wf_node F s W _ _ Hroot) as (r' & [Hr' _ _ Hf]). rewrite Hr in Hr'. injection Hr' as <-. apply fit_app in Hf as (Hf1 & m & _ & _ & Hf2). apply fit_app. split; [done|]. exists (start n). split; [lia|]. split; [done|].
  exists n. split; [done|]. split; [lia|]. split; [lia|]. apply (fit_bounds _ _ _ _ _ _ Hf2). intros k q Hk Hq. specialize (Hhi k q Hk Hq). destruct (fit_in _ _ _ _ _ Hf2 Hk) as (q' & Hq' & ? & ?). rewrite Hq in Hq'. injection Hq' as <-. lia.
Qed.

Lemma attach_wf : wf attached (mk_state attach_heap (supply s)).
Proof.
  apply (wf_relinked F s W); [apply attach_range| | |apply attach_acc|].
  - intros b. unfold attached. destruct (decide (b = root)) as [->|Hb]; [rewrite lookup_insert_eq, Hroot; split; by eexists|by rewrite lookup_insert_ne].
  - intros y x (ks & Hx & Hy). unfold attached in Hx. apply lookup_insert_Some in Hx as [[_ <-]|[_ Hx]]; [|apply (wf_kid F s W y x); by exists ks]. apply elem_of_app in Hy as [Hy|[->|Hy]%elem_of_cons]; [|by eexists|]; (apply (wf_kid F s W y root); exists (ks1 ++ ks2); split; [done|]; apply elem_of_app; tauto).
  - intros a ks Ha q Hq. unfold attached in Ha. apply lookup_insert_Some in Ha as [[<- <-]|[Hne Ha]].
    + split; [by apply attach_seg|]. destruct (same_lookup _ _ _ _ _ (attach_range root) Hr) as (q' & Hq' & E). rewrite Hq in Hq'. injection Hq' as <-. injection E as -> ->. apply (fit_mono (heap s)); [intros; apply attach_range|apply attach_fit].
    + apply (node_keep F s W _ _ _ Ha); [by apply attach_child|apply attach_range| |done]. intros k Hk. assert (kid F k a) as Hka by (by exists ks). assert (k <> new) as Hkn by (intros ->; by apply (Hdet a)). split; [by apply attach_parent|]. apply attach_sibling; [done|]. intros El. apply Hne. apply (kid_unique F s W k); [|done]. by apply attach_kids, attach_last.
Qed.

Lemma link_new_ok : link_new root new (loc root ks1) (first_of ks2) s = Some (NULL, mk_state attach_heap (supply s)) /\ wf attached (mk_state attach_heap (supply s)) /\ same_data s (mk_state attach_heap (supply s)).
Proof.
  assert (new <> NULL) as Hnn by (apply (wf_nonnull F s W); by exists nk). split; [|split; [apply attach_wf|]].
  - unfold link_new. erewrite bind_run by (apply modify_run; [done|by exists n]). erewrite bind_run.
    2: { apply (st_loc F s W _ _ _ _ _ Hroot). intros b Hb. cbn [heap]. by rewrite lookup_alter_is_Some. }
    cbn [heap supply]. erewrite bind_run by (apply modify_run; [done|cbn [heap]; unfold relink; destruct (last ks1); rewrite !lookup_alter_is_Some; by exists n]). done.
  - split; [done|]. intros a. cbn [heap]. unfold attach_heap. eapply same_trans; [|by apply same_alter]. eapply same_trans; [|by apply same_relink]. by apply same_alter.
Qed.

End attach.

(** ** Unlinking *)

Section detach.
Context (F : forest) (s : state) (W : wf F s).
Context (root k : Z) (ks1 ks2 : list Z) (Hroot : F !! root = Some (ks1 ++ k :: ks2)).

Definition unlinked : forest := <[root := ks1 ++ ks2]> F.
Definition detach_heap : gmap Z resource := relink root ks1 (first_of ks2) (heap s).

Lemma unlinked_kid y x : kid unlinked y x -> kid F y x.
Proof.
  intros (ks & Hx & Hy). unfold unlinked in Hx. apply lookup_insert_Some in Hx as [[<- <-]|[_ Hx]]; [|by exists ks]. exists (ks1 ++ k :: ks2). split; [done|]. apply elem_of_app in Hy as [Hy|Hy]; apply elem_of_app; [by left|right; by right].
Qed.

Lemma detach_detached : detached unlinked k.
Proof.
  intros y Hk. assert (y = root) as -> by (apply (kid_unique F s W k); [by apply unlinked_kid|]; exists (ks1 ++ k :: ks2); split; [done|]; apply elem_of_app; right; by left). destruct Hk as (ks & Hx & Hy). unfold unlinked in Hx. rewrite lookup_insert_eq in Hx. injection Hx as <-.
  pose proof (kids_nodup F s W _ _ Hroot) as Hnd. apply NoDup_app in Hnd as (_ & Hnd1 & [Hnd2 _]%NoDup_cons). apply elem_of_app in Hy as [Hy|Hy]; [|done]. apply (Hnd1 k Hy). by left.
Qed.

Lemma detach_range b : same range (heap s) detach_heap b.
Proof. by apply same_relink. Qed.

Lemma detach_seg x : detach_heap !! root = Some x -> seg detach_heap root (child x) (ks1 ++ ks2) NULL.
Proof.
  intros Hx. destruct (wf_node F s W _ _ Hroot) as (r & [Hr _ Hs _]). apply seg_split in Hs as (q & Hq & Hp & Es & Hs1 & Hs2). pose proof (kids_nodup F s W _ _ Hroot) as Hnd. apply NoDup_app in Hnd as (Hnd0 & Hnd & _).
  assert (child x = match ks1 with [] => first_of ks2 | _ => child r end) as ->.
  { by apply (relink_head root ks1 _ (heap s)). }
  apply (seg_splice (heap s) _ _ _ _ k); [done|done| | | |].
  - intros j _. by apply same_relink.
  - intros j _ Hl. by apply relink_sibling.
  - intros j Hl. apply relink_last; [done|]. apply (wf_dom F s W), (wf_kid F s W j root). exists (ks1 ++ k :: ks2). split; [done|]. apply elem_of_app. left. by apply last_Some_elem_of.
  - rewrite Es in Hs2. apply (seg_mono (heap s)); [|done]. intros j Hj. split; [by apply same_relink|]. apply relink_sibling. intros El. apply (Hnd j); [by apply last_Some_elem_of|by right].
Qed.

Lemma detach_wf : wf unlinked (mk_state detach_heap (supply s)).
Proof.
  apply (wf_relinked F s W); [apply detach_range| | |apply (acc_sub F); [apply unlinked_kid|apply (wf_acc F s W)]|].
  - intros b. unfold unlinked. destruct (decide (b = root)) as [->|Hb]; [rewrite lookup_insert_eq, Hroot; split; by eexists|by rewrite lookup_insert_ne].
  - intros y x Hk%unlinked_kid. by apply (wf_kid F s W y x).
  - intros a ks Ha q Hq. unfold unlinked in Ha. apply lookup_insert_Some in Ha as [[<- <-]|[Hne Ha]].
    + split; [by apply detach_seg|]. destruct (wf_node F s W _ _ Hroot) as (r & [Hr _ _ Hf]). destruct (same_lookup _ _ _ _ _ (detach_range root) Hr) as (q' & Hq' & E). rewrite Hq in Hq'. injection Hq' as <-. injection E as -> ->. apply (fit_mono (heap s)); [intros; apply detach_range|].
      apply fit_app in Hf as (Hf1 & m & Hm & Hlt & r' & _ & H1 & _ & H2). apply fit_app. split; [done|]. exists (end_ r' + 1). split; [lia|]. split; [|done]. intros j qj Hj Hqj. specialize (Hlt j qj Hj Hqj). lia.
    + apply (node_keep F s W _ _ _ Ha); [by apply relink_child|apply detach_range| |done]. intros j Hj. split; [by apply same_relink|]. apply relink_sibling. intros El. apply Hne. apply (kid_unique F s W j); [|by exists ks]. exists (ks1 ++ k :: ks2). split; [done|]. apply elem_of_app. left. by apply last_Some_elem_of.
Qed.

End detach.

(** The links of a resource that is not in the tree do not matter. *)
Lemma wf_loose F s x f : wf F s -> detached F x -> (forall r, range (f r) = range r) -> (forall r, child (f r) = child r) -> wf F (mk_state (alter f x (heap s)) (supply s)).
Proof.
  intros W Hd Hr Hc. apply (wf_relinked F s W); [intros; by apply same_alter|done|intros y a; apply (wf_kid F s W)|apply (wf_acc F s W)|]. intros a ks Ha. apply (node_keep F s W _ _ _ Ha); [by apply same_alter|intros; by apply same_alter|].
  intros k Hk. assert (k <> x) by (intros ->; apply (Hd a); by exists ks). split; by apply same_alter_ne.
Qed.

End ResourceOps.
