(* ===== verification/ResourceRequest.v ===== *)
(** * Resource trees: [__request_resource] and [__release_resource] on a
      well-formed tree *)

From S2P Require Import Prelude Resource ResourceTree ResourceLinks ResourceOps.

Module ResourceRequest.
Import Resource ResourceTree ResourceLinks ResourceOps.

Definition inside (n r : resource) : Prop := start r <= start n <= end_ n /\ end_ n <= end_ r.
Definition overlap (q n : resource) : Prop := start q <= end_ n /\ start n <= end_ q.

#[global] Instance inside_dec n r : Decision (inside n r).
Proof. unfold inside. apply _. Defined.

(** ** Requests *)

Definition before (s : state) (ks : list Z) (n : resource) : Prop := forall k q, k ∈ ks -> heap s !! k = Some q -> end_ q < start n.
Definition after (s : state) (ks : list Z) (n : resource) : Prop := forall k q, k ∈ ks -> heap s !! k = Some q -> end_ n < start q.

(** What [__request_resource] may answer. *)
Inductive request_result (F : forest) (s : state) (root new : Z) (r n : resource) : option (Z * state) -> Prop :=
| RR_outside : ~ inside n r -> request_result F s root new r n (Some (root, s))
| RR_conflict ks1 k ks2 q : F !! root = Some (ks1 ++ k :: ks2) -> inside n r -> before s ks1 n -> heap s !! k = Some q -> overlap q n -> request_result F s root new r n (Some (k, s))
| RR_linked ks1 ks2 s' : F !! root = Some (ks1 ++ ks2) -> inside n r -> before s ks1 n -> after s ks2 n -> wf (attached F root new ks1 ks2) s' -> same_data s s' -> request_result F s root new r n (Some (NULL, s')).

Section request.
Context (F : forest) (s : state) (W : wf F s).
Context (root new : Z) (ks nk : list Z) (r n : resource).
Context (Hroot : F !! root = Some ks) (Hnew : F !! new = Some nk) (Hdet : detached F new) (Hnb : ~ below F root new).
Context (Hr : heap s !! root = Some r) (Hn : heap s !! new = Some n).

(** The first sibling above [n] bounds the rest. *)
Lemma after_first k ks2 q lo hi : fit (heap s) lo (k :: ks2) hi -> heap s !! k = Some q -> end_ n < start q -> after s (k :: ks2) n.
Proof.
  cbn [fit]. intros (q' & Hq' & H1 & H2 & H3) Hq Hlt. rewrite Hq in Hq'. injection Hq' as <-. intros j qj [->|Hj]%elem_of_cons Hqj; [congruence|]. destruct (fit_in _ _ _ _ _ H3 Hj) as (x & Hx & ? & ?). rewrite Hqj in Hx. injection Hx as <-. lia.
Qed.

Lemma request_linked ks1 ks2 : F !! root = Some (ks1 ++ ks2) -> inside n r -> before s ks1 n -> after s ks2 n -> request_result F s root new r n (link_new root new (loc root ks1) (first_of ks2) s).
Proof.
  intros H Hi Hb Ha. destruct (link_new_ok F s W root new ks1 ks2 nk r n H Hnew Hdet Hnb Hr Hn Hi Hb Ha) as (E & W' & D). rewrite E. by apply (RR_linked _ _ _ _ _ _ ks1 ks2).
Qed.

Lemma request_loop_ok fuel ks1 ks2 : F !! root = Some (ks1 ++ ks2) -> inside n r -> before s ks1 n -> (length ks2 < fuel)%nat -> request_result F s root new r n (request_loop fuel root new (start n) (end_ n) (loc root ks1) s).
Proof.
  revert ks1 fuel. induction ks2 as [|k ks2 IH]; intros ks1 [|fuel] H Hi Hb Hf; cbn [length] in Hf; [lia| |lia|]; cbn [request_loop]; erewrite bind_run by (by apply (ld_loc F s W)); cbn [first_of].
  - apply (request_linked ks1 []); [done|done|done|]. intros k q Hk. by apply elem_of_nil in Hk.
  - assert (kid F k root) as Hk by (exists (ks1 ++ k :: ks2); split; [done|]; apply elem_of_app; right; by left). destruct (wf_kid F s W _ _ Hk) as [kk Hkk]. destruct (wf_ld F s W _ _ Hkk) as (q & Hld & [Hq _ _ _]).
    rewrite (proj2 (Z.eqb_neq k NULL)) by (apply (wf_nonnull F s W); by exists kk). erewrite bind_run by exact Hld. destruct (Z.ltb_spec (end_ n) (start q)) as [Hlt|Hge].
    { apply (request_linked ks1 (k :: ks2)); [done|done|done|]. destruct (wf_node F s W _ _ H) as (x & [_ _ _ Hfit]). apply fit_app in Hfit as (_ & m & _ & _ & Hfit). by apply (after_first k ks2 q m (end_ x)). }
    destruct (Z.ltb_spec (end_ q) (start n)) as [Hlt|Hge'].
    { rewrite <- (loc_snoc root ks1 k). apply IH; [by rewrite <- app_assoc|done| |lia]. intros j qj [Hj|[->|Hj%elem_of_nil]%elem_of_cons]%elem_of_app Hqj; [by apply (Hb j)|congruence|done]. }
    apply (RR_conflict _ _ _ _ _ _ ks1 k ks2 q); [done|done|done|done|]. unfold overlap. lia.
Qed.

Lemma request_resource_ok : request_result F s root new r n (__request_resource root new s).
Proof.
  unfold __request_resource. erewrite bind_run by (apply res_ld_run; [apply (wf_nonnull F s W); by exists nk|exact Hn]). erewrite bind_run by (apply res_ld_run; [apply (wf_nonnull F s W); by exists ks|exact Hr]).
  destruct (Z.ltb_spec (end_ n) (start n)); [apply RR_outside; unfold inside; lia|]. destruct (Z.ltb_spec (start n) (start r)); [apply RR_outside; unfold inside; lia|]. destruct (Z.ltb_spec (end_ r) (end_ n)); [apply RR_outside; unfold inside; lia|].
  erewrite bind_run by reflexivity. apply (request_loop_ok _ [] ks); [done|unfold inside; lia|intros k q Hk; by apply elem_of_nil in Hk|]. pose proof (kids_bound F s W _ _ Hroot). lia.
Qed.

End request.

(** ** Releases *)

Section release.
Context (F : forest) (s : state) (W : wf F s) (root old : Z) (ks : list Z) (Hroot : F !! root = Some ks).

Definition released (ks1 ks2 : list Z) : state := mk_state (alter (set_parent NULL) old (detach_heap s root ks1 ks2)) (supply s).

Lemma released_ok ks1 ks2 : ks = ks1 ++ old :: ks2 -> wf (unlinked F root ks1 ks2) (released ks1 ks2) /\ same_data s (released ks1 ks2).
Proof.
  intros E. assert (F !! root = Some (ks1 ++ old :: ks2)) as H by (by rewrite <- E). split.
  - apply (wf_loose _ (mk_state (detach_heap s root ks1 ks2) (supply s))); [by apply (detach_wf F s W root old)|by apply (detach_detached F s W)|done|done].
  - split; [done|]. intros a. cbn [heap released]. eapply same_trans; [|by apply same_alter]. by apply same_relink.
Qed.

Lemma release_loop_ok fuel ks1 ks2 : ks = ks1 ++ ks2 -> old ∉ ks1 -> (length ks2 < fuel)%nat ->
  (old ∉ ks2 /\ release_loop fuel old (loc root ks1) s = Some (- EINVAL, s)) \/ exists l1 l2, ks = l1 ++ old :: l2 /\ release_loop fuel old (loc root ks1) s = Some (0, released l1 l2).
Proof.
  revert ks1 fuel. induction ks2 as [|k ks2 IH]; intros ks1 [|fuel] H Hold Hf; cbn [length] in Hf; [lia| |lia|]; (assert (F !! root = Some (ks1 ++ _)) as HF by (rewrite <- H; exact Hroot)); cbn [release_loop]; erewrite bind_run by (by apply (ld_loc F s W)); cbn [first_of].
  - left. split; [apply not_elem_of_nil|done].
  - assert (kid F k root) as Hk by (exists ks; split; [done|]; rewrite H; apply elem_of_app; right; by left). destruct (wf_kid F s W _ _ Hk) as [kk Hkk]. destruct (wf_ld F s W _ _ Hkk) as (q & Hld & [Hq _ _ _]).
    rewrite (proj2 (Z.eqb_neq k NULL)) by (apply (wf_nonnull F s W); by exists kk). destruct (Z.eqb_spec k old) as [Eko|Hne].
    + right. exists ks1, ks2. rewrite Eko in *. split; [done|]. erewrite bind_run by exact Hld. destruct (wf_node F s W _ _ HF) as (x & [_ _ Hs _]). apply seg_split in Hs as (q' & Hq' & _ & Es & _). rewrite Hq in Hq'. injection Hq' as <-. rewrite Es.
      erewrite bind_run by (by apply (st_loc F s W _ _ _ _ _ HF)). erewrite bind_run by (apply modify_run; [apply (wf_nonnull F s W); by exists kk|cbn [heap]; unfold relink; destruct (last ks1); rewrite lookup_alter_is_Some; by exists q]). done.
    + rewrite <- (loc_snoc root ks1 k). destruct (IH (ks1 ++ [k]) fuel) as [[Hn E]|(l1 & l2 & El & E)]; [by rewrite <- app_assoc| |lia| |].
      * intros [Hi|[->|Hi%elem_of_nil]%elem_of_cons]%elem_of_app; done.
      * left. split; [|done]. intros [->|Hi]%elem_of_cons; done.
      * right. by exists l1, l2.
Qed.

End release.

Lemma release_ok F s root old ks1 ks2 : wf F s -> F !! root = Some (ks1 ++ old :: ks2) -> exists l1 l2, ks1 ++ old :: ks2 = l1 ++ old :: l2 /\ __release_resource old s = Some (0, released s root old l1 l2).
Proof.
  intros W H. assert (kid F old root) as Hk by (exists (ks1 ++ old :: ks2); split; [done|]; apply elem_of_app; right; by left). pose proof (kid_parent F s W _ _ Hk) as Hp. destruct (heap s !! old) as [o|] eqn:Eo; [|done]. injection Hp as Hp.
  unfold __release_resource. erewrite bind_run by (apply res_ld_run; [by apply (wf_nonnull F s W), (wf_kid F s W _ _ Hk)|exact Eo]). erewrite bind_run by reflexivity. rewrite Hp. destruct (release_loop_ok F s W root old _ H (S (size (heap s))) [] _ eq_refl) as [[Hn _]|(l1 & l2 & E1 & E2)]; [apply not_elem_of_nil| | |].
  - pose proof (kids_bound F s W _ _ H). lia.
  - exfalso. apply Hn, elem_of_app. right. by left.
  - by exists l1, l2.
Qed.

End ResourceRequest.
