(* ===== verification/ResourceInsert.v ===== *)
(** * Resource trees: [insert_resource] puts a resource between two levels *)

From S2P Require Import Prelude Resource ResourceTree ResourceLinks ResourceOps ResourceRequest.

Module ResourceInsert.
Import Resource ResourceTree ResourceLinks ResourceOps ResourceRequest.

(** ** The loops over siblings *)

Fixpoint chained (h : gmap Z resource) (l : list Z) : Prop :=
  match l with [] => True | k :: l => k <> NULL /\ sibling <$> h !! k = Some (first_of l) /\ chained h l end.

Lemma chained_mono h h' l : (forall k, k ∈ l -> same sibling h h' k) -> chained h l -> chained h' l.
Proof.
  induction l as [|k l IH]; cbn [chained]; [done|]. intros H (H1 & H2 & H3). split; [done|]. split; [rewrite <- H2; apply H; by left|]. apply IH; [|done]. intros j Hj. apply H. by right.
Qed.

Lemma seg_of_chain h a l : chained h l -> (forall k, k ∈ l -> parent <$> h !! k = Some a) -> seg h a (first_of l) l NULL.
Proof.
  induction l as [|k l IH]; [done|]. intros (H1 & H2 & H3) Hp. split; [done|]. specialize (Hp k ltac:(by left)) as Hpk. destruct (h !! k) as [r|]; [|done]. injection H2 as H2. injection Hpk as Hpk. exists r. split; [done|]. split; [done|]. rewrite H2.
  apply IH; [done|]. intros j Hj. apply Hp. by right.
Qed.

(** A segment that was cut after its last resource. *)
Lemma chained_cut h h' a v l z w : seg h a v (l ++ [z]) w -> (forall k, k ∈ l ++ [z] -> k <> NULL) -> (forall k, k ∈ l -> same sibling h h' k) -> sibling <$> h' !! z = Some NULL -> chained h' (l ++ [z]).
Proof.
  revert v. induction l as [|k l IH]; intros v; cbn [app seg chained].
  - intros _ Hn _ Hz. split; [apply Hn; by left|done].
  - intros (-> & r & Hr & _ & Hs) Hn Hsame Hz. split; [apply Hn; by left|]. split.
    + pose proof (Hsame k ltac:(by left)) as E. unfold same in E. rewrite E, Hr. cbn. f_equal. destruct l as [|j l]; apply Hs.
    + apply (IH (sibling r)); [done| | |done]; intros j Hj; [apply Hn|apply Hsame]; by right.
Qed.

Fixpoint reparented (new : Z) (l : list Z) (h : gmap Z resource) : gmap Z resource :=
  match l with [] => h | k :: l => reparented new l (alter (set_parent new) k h) end.

Lemma same_reparented {A} (f : resource -> A) new l h b : (forall r, f (set_parent new r) = f r) -> same f h (reparented new l h) b.
Proof. intros H. revert h. induction l as [|k l IH]; intros h; [done|]. cbn [reparented]. eapply same_trans; [|apply IH]. by apply same_alter. Qed.

Lemma same_reparented_ne {A} (f : resource -> A) new l h b : b ∉ l -> same f h (reparented new l h) b.
Proof. revert h. induction l as [|k l IH]; intros h Hb; [done|]. cbn [reparented]. apply not_elem_of_cons in Hb as [Hne Hb]. eapply same_trans; [|by apply IH]. by apply same_alter_ne. Qed.

Lemma reparented_parent new l h k : k ∈ l -> is_Some (h !! k) -> parent <$> reparented new l h !! k = Some new.
Proof.
  revert h. induction l as [|j l IH]; intros h Hk Hi; [by apply elem_of_nil in Hk|]. cbn [reparented]. destruct (decide (k ∈ l)) as [Hl|Hl]; [apply IH; [done|by rewrite lookup_alter_is_Some]|].
  apply elem_of_cons in Hk as [->|Hk]; [|done]. rewrite (same_reparented_ne parent new l _ j Hl), lookup_alter_eq. destruct Hi as [r ->]. done.
Qed.

Lemma reparent_run fuel new l s : chained (heap s) l -> (length l < fuel)%nat -> reparent fuel new (first_of l) s = Some (tt, mk_state (reparented new l (heap s)) (supply s)).
Proof.
  revert fuel s. induction l as [|k l IH]; intros [|fuel] s Hc Hf; cbn [length] in Hf; try lia; cbn [reparent first_of]; [by destruct s|]. destruct Hc as (Hk & Hs & Hc). rewrite (proj2 (Z.eqb_neq k NULL) Hk). destruct (heap s !! k) as [r|] eqn:Er; [|done]. injection Hs as Hs.
  erewrite bind_run by (apply modify_run; [done|by exists r]). erewrite bind_run by (apply res_ld_run; [done|cbn [heap]; by rewrite lookup_alter_eq, Er]). cbn [sibling set_parent]. rewrite Hs. etransitivity; [apply IH; [|lia]|done]. cbn [heap]. apply (chained_mono (heap s)); [|done]. intros j _. by apply same_alter.
Qed.

Lemma previous_run fuel a v l first z s : seg (heap s) a v l first -> last l = Some z -> first ∉ l -> (forall k, k ∈ l -> k <> NULL) -> (length l <= fuel)%nat -> previous fuel v first s = Some (z, s).
Proof.
  revert fuel v. induction l as [|k l IH]; intros fuel v Hs Hz Hf Hn Hl; [done|]. destruct Hs as (-> & r & Hr & _ & Hs). destruct fuel as [|fuel]; cbn [length] in Hl; [lia|]. cbn [previous]. erewrite bind_run by (apply res_ld_run; [apply Hn; by left|exact Hr]).
  destruct l as [|j l]; cbn [seg] in Hs.
  - rewrite Hs, Z.eqb_refl. by injection Hz as ->.
  - assert (sibling r = j) as Ej by apply Hs. apply not_elem_of_cons in Hf as [_ Hf]. rewrite (proj2 (Z.eqb_neq (sibling r) first)) by (rewrite Ej; intros <-; apply Hf; by left). apply (IH fuel (sibling r)); [done|done|done|intros x Hx; apply Hn; by right|lia].
Qed.

(** ** The new level *)

Section between.
Context (F : forest) (s : state) (W : wf F s).
Context (par new first z : Z) (ks1 mid ks2 : list Z) (r n : resource).
Context (Hpar : F !! par = Some (ks1 ++ mid ++ ks2)) (Hnew : F !! new = Some []) (Hdet : detached F new) (Hne : par <> new).
Context (Hfirst : head mid = Some first) (Hlast : last mid = Some z).
Context (Hr : heap s !! par = Some r) (Hn : heap s !! new = Some n).

Definition level_forest : forest := <[new := mid]> (<[par := ks1 ++ new :: ks2]> F).
Definition level_new : gmap Z resource := alter (set_child first) new (alter (set_sibling (first_of ks2)) new (alter (set_parent par) new (heap s))).
Definition level_mid : gmap Z resource := reparented new mid (alter (set_sibling NULL) z level_new).
Definition level_heap : gmap Z resource := relink par ks1 new level_mid.

Lemma level_kids k : k ∈ ks1 ++ mid ++ ks2 -> kid F k par /\ k <> new /\ k <> NULL /\ is_Some (heap s !! k).
Proof.
  intros Hk. assert (kid F k par) as K by (by exists (ks1 ++ mid ++ ks2)). pose proof (wf_kid F s W _ _ K) as Hi. split; [done|]. split; [intros ->; by apply (Hdet par)|]. split; [by apply (wf_nonnull F s W)|by apply (wf_dom F s W)].
Qed.

Lemma level_in1 k : k ∈ ks1 -> k ∈ ks1 ++ mid ++ ks2.
Proof. intros H. apply elem_of_app. by left. Qed.
Lemma level_in2 k : k ∈ mid -> k ∈ ks1 ++ mid ++ ks2.
Proof. intros H. apply elem_of_app. right. apply elem_of_app. by left. Qed.
Lemma level_in3 k : k ∈ ks2 -> k ∈ ks1 ++ mid ++ ks2.
Proof. intros H. apply elem_of_app. right. apply elem_of_app. by right. Qed.
Lemma level_z : z ∈ mid.
Proof. by apply last_Some_elem_of. Qed.

Lemma level_nodup : NoDup ks1 /\ NoDup mid /\ (forall k, k ∈ ks1 -> k ∉ mid /\ k ∉ ks2) /\ (forall k, k ∈ mid -> k ∉ ks2).
Proof.
  pose proof (kids_nodup F s W _ _ Hpar) as Hnd. apply NoDup_app in Hnd as (H1 & H2 & (H3 & H4 & _)%NoDup_app). split; [done|]. split; [done|]. split; [|done]. intros k Hk. specialize (H2 k Hk). rewrite elem_of_app in H2. tauto.
Qed.

Lemma level_new_same {A} (f : resource -> A) b : b <> new -> same f (heap s) level_new b.
Proof. intros Hb. unfold level_new. do 3 (eapply same_trans; [|by apply same_alter_ne]). done. Qed.

Lemma level_range b : same range (heap s) level_heap b.
Proof. unfold level_heap, level_mid, level_new. eapply same_trans; [|by apply same_relink]. eapply same_trans; [|by apply same_reparented]. do 4 (eapply same_trans; [|by apply same_alter]). done. Qed.

Lemma level_core b : same core (heap s) level_heap b.
Proof. unfold level_heap, level_mid, level_new. eapply same_trans; [|by apply same_relink]. eapply same_trans; [|by apply same_reparented]. do 4 (eapply same_trans; [|by apply same_alter]). done. Qed.

Lemma level_parent b : b <> new -> b ∉ mid -> same parent (heap s) level_heap b.
Proof. intros Hb Hm. unfold level_heap, level_mid. eapply same_trans; [|by apply same_relink]. eapply same_trans; [|by apply same_reparented_ne]. eapply same_trans; [|by apply same_alter]. by apply level_new_same. Qed.

Lemma level_sibling b : b <> new -> b <> z -> last ks1 <> Some b -> same sibling (heap s) level_heap b.
Proof. intros Hb Hz Hl. unfold level_heap, level_mid. eapply same_trans; [|by apply relink_sibling]. eapply same_trans; [|by apply same_reparented]. eapply same_trans; [|by apply same_alter_ne]. by apply level_new_same. Qed.

Lemma level_child b : b <> new -> (b = par -> ks1 <> []) -> same child (heap s) level_heap b.
Proof. intros Hb Hp. unfold level_heap, level_mid. eapply same_trans; [|by apply relink_child]. eapply same_trans; [|by apply same_reparented]. eapply same_trans; [|by apply same_alter]. by apply level_new_same. Qed.

Lemma level_dom b : is_Some (level_mid !! b) <-> is_Some (heap s !! b).
Proof. apply (same_some range). unfold level_mid, level_new. eapply same_trans; [|by apply same_reparented]. do 4 (eapply same_trans; [|by apply same_alter]). done. Qed.

(** The fields of the new resource. *)
Lemma level_at_new x : level_heap !! new = Some x -> parent x = par /\ sibling x = first_of ks2 /\ child x = first.
Proof.
  destruct (level_kids z (level_in2 z level_z)) as (_ & Hzn & _). assert (new ∉ mid) as Hnm by (intros (_ & Hm & _)%level_in2%level_kids; done).
  assert (level_mid !! new = level_new !! new) as E1 by (pose proof (same_reparented_ne id new mid (alter (set_sibling NULL) z level_new) new Hnm) as E; unfold same in E; rewrite !option_fmap_id in E; unfold level_mid; rewrite E, lookup_alter_ne by done; done).
  assert (level_heap !! new = level_mid !! new) as E2.
  { unfold level_heap, relink. destruct (last ks1) as [k|] eqn:El; rewrite lookup_alter_ne; try done. intros ->. apply last_Some_elem_of, level_in1, level_kids in El. tauto. }
  rewrite E2, E1. unfold level_new. rewrite !lookup_alter_eq, Hn. intros [= <-]. done.
Qed.

Lemma level_chained : chained (alter (set_sibling NULL) z level_new) mid.
Proof.
  destruct (wf_node F s W _ _ Hpar) as (x & [_ _ Hs _]). apply seg_app in Hs as (u & _ & (w & Hs & _)%seg_app). destruct level_nodup as (_ & Hnd & _).
  assert (forall k, k ∈ mid -> k <> new /\ k <> NULL /\ is_Some (heap s !! k)) as Hk by (intros k Hk; apply level_kids, level_in2, Hk). pose proof level_z as Hz. revert Hlast Hs Hnd Hk Hz. clear. destruct mid as [|y l _] using rev_ind; [done|]. rewrite last_snoc. intros [= ->] Hs Hnd Hk Hz.
  apply (chained_cut (heap s) _ par u l z w); [done|intros k Hki; by apply Hk| |].
  - intros k Hki. apply NoDup_app in Hnd as (_ & Hnd & _). eapply same_trans; [|apply same_alter_ne]; [apply level_new_same, Hk, elem_of_app; by left|]. intros ->. apply (Hnd _ Hki). by left.
  - rewrite lookup_alter_eq. destruct (Hk z Hz) as (Hzn & _ & x & Hx). pose proof (level_new_same id z Hzn) as E. unfold same in E. rewrite !option_fmap_id in E. by rewrite E, Hx.
Qed.

Lemma level_forest_kid y x : kid level_forest y x -> (x = new /\ y ∈ mid) \/ (x = par /\ y = new) \/ kid F y x.
Proof.
  intros (ks & Hx & Hy). unfold level_forest in Hx. apply lookup_insert_Some in Hx as [[<- <-]|[_ Hx]]; [by left|]. apply lookup_insert_Some in Hx as [[<- <-]|[_ Hx]]; [|right; right; by exists ks].
  right. apply elem_of_app in Hy as [Hy|[->|Hy]%elem_of_cons]; [right|by left|right]; (exists (ks1 ++ mid ++ ks2); split; [done|]); [by apply level_in1|by apply level_in3].
Qed.

Lemma level_acc a : Acc (kid level_forest) a.
Proof.
  assert (forall b, b <> new -> Acc (kid level_forest) b) as Hb.
  { intros b. induction (wf_acc F s W b) as [b _ IH]. intros Hbn. constructor. intros y Hy%level_forest_kid. destruct Hy as [[-> _]|[[-> ->]|Hy]]; [done| |].
    - constructor. intros y Hy%level_forest_kid. destruct Hy as [[_ Hy]|[[E _]|Hy]]; [|congruence|].
      + destruct (level_kids y (level_in2 y Hy)) as (Hk & Hyn & _). by apply IH.
      + destruct Hy as (ks & Hx & Hy). rewrite Hnew in Hx. injection Hx as <-. by apply elem_of_nil in Hy.
    - apply IH; [done|]. intros ->. by apply (Hdet b). }
  destruct (decide (a = new)) as [->|Ha]; [|by apply Hb]. constructor. intros y Hy%level_forest_kid. destruct Hy as [[_ Hy]|[[E _]|Hy]]; [|congruence|].
  - apply Hb. by apply level_kids, level_in2.
  - destruct Hy as (ks & Hx & Hy). rewrite Hnew in Hx. injection Hx as <-. by apply elem_of_nil in Hy.
Qed.

Lemma level_seg_new x : level_heap !! new = Some x -> seg level_heap new (child x) mid NULL.
Proof.
  intros Hx. destruct (level_at_new x Hx) as (_ & _ & ->). replace first with (first_of mid) by (destruct mid; [done|by injection Hfirst]). apply seg_of_chain.
  - apply (chained_mono (alter (set_sibling NULL) z level_new)); [|apply level_chained]. intros k Hk. unfold level_heap, level_mid. eapply same_trans; [|apply relink_sibling]; [by apply same_reparented|]. intros El. destruct level_nodup as (_ & _ & H & _). apply last_Some_elem_of, H in El. tauto.
  - intros k Hk. destruct (level_kids k (level_in2 k Hk)) as (_ & _ & _ & Hi). assert (same parent level_mid level_heap k) as E by (by apply same_relink). rewrite E. apply reparented_parent; [done|]. unfold level_new. by rewrite !lookup_alter_is_Some.
Qed.

Lemma level_seg_par x : level_heap !! par = Some x -> seg level_heap par (child x) (ks1 ++ new :: ks2) NULL.
Proof.
  intros Hx. destruct level_nodup as (Hnd & _ & Hd1 & Hd2). destruct (wf_node F s W _ _ Hpar) as (r' & [Hr' _ Hs _]). rewrite Hr in Hr'. injection Hr' as <-. apply seg_app in Hs as (u & Hs1 & (w & _ & Hs2)%seg_app). rewrite (seg_first _ _ _ _ Hs2) in Hs2.
  assert (child x = match ks1 with [] => new | _ => child r end) as ->.
  { assert (is_Some (level_mid !! par)) as [y Hy] by (apply level_dom; by eexists). rewrite (relink_head par ks1 new level_mid y x Hy Hx). destruct ks1 as [|j l]; [done|]. assert (same child (heap s) level_mid par) as E; [|unfold same in E; rewrite Hr, Hy in E; by injection E]. unfold level_mid. eapply same_trans; [|by apply same_reparented]. eapply same_trans; [|by apply same_alter]. by apply level_new_same. }
  apply (seg_splice (heap s) _ _ _ _ u); [done|done| | | |].
  - intros k Hk. apply level_parent; [by apply level_kids, level_in1|by apply Hd1].
  - intros k Hk Hl. apply level_sibling; [by apply level_kids, level_in1| |done]. intros ->. apply (proj1 (Hd1 z Hk)), level_z.
  - intros k Hl. apply relink_last; [done|]. apply level_dom. by apply level_kids, level_in1, last_Some_elem_of.
  - assert (is_Some (level_heap !! new)) as [y Hy] by (eapply same_some; [apply level_range|by exists n]). destruct (level_at_new y Hy) as (Ep & Es & _). split; [done|]. exists y. split; [done|]. split; [done|]. rewrite Es. apply (seg_mono (heap s)); [|done]. intros k Hk.
    destruct (level_kids k (level_in3 k Hk)) as (_ & Hkn & _). split; [apply level_parent; [done|]; intros Hm; by apply (Hd2 k)|]. apply level_sibling; [done| |]; [intros ->; apply (Hd2 z level_z Hk)|]. intros El. apply (Hd1 k); [by apply last_Some_elem_of|done].
Qed.

Lemma level_mid_ks1 : seg level_mid par (child r) ks1 first.
Proof.
  destruct level_nodup as (_ & _ & Hd1 & _). destruct (wf_node F s W _ _ Hpar) as (r' & [Hr' _ Hs _]). rewrite Hr in Hr'. injection Hr' as <-. apply seg_app in Hs as (u & Hs1 & Hs2). assert (u = first) as -> by (destruct mid; [done|]; injection Hfirst as <-; apply Hs2).
  apply (seg_mono (heap s)); [|done]. intros k Hk. destruct (level_kids k (level_in1 k Hk)) as (_ & Hkn & _). destruct (Hd1 k Hk) as [Hkm _]. unfold level_mid. split; (eapply same_trans; [|by apply same_reparented_ne]).
  - eapply same_trans; [|by apply same_alter]. by apply level_new_same.
  - eapply same_trans; [|apply same_alter_ne]; [by apply level_new_same|]. intros ->. apply Hkm, level_z.
Qed.

Lemma level_mid_par : exists x, level_mid !! par = Some x /\ child x = child r.
Proof.
  assert (same child (heap s) level_mid par) as E; [|by apply (same_lookup _ _ _ _ _ E Hr)]. unfold level_mid. eapply same_trans; [|by apply same_reparented]. eapply same_trans; [|by apply same_alter]. by apply level_new_same.
Qed.

Lemma level_z_here : exists q, heap s !! z = Some q /\ sibling q = first_of ks2.
Proof.
  destruct (wf_node F s W _ _ Hpar) as (x & [_ _ Hs _]). revert Hlast Hs. clear. destruct mid as [|y l _] using rev_ind; [done|]. rewrite last_snoc. intros [= ->] Hs. rewrite <- app_assoc, app_assoc in Hs. cbn [app] in Hs. apply seg_split in Hs as (q & Hq & _ & Es & _). by exists q.
Qed.

Lemma relink_run fuel : (length ks1 <= fuel)%nat -> (p ← ld par; if child p =? first then modify par (set_child new) else next ← previous fuel (child p) first; modify next (set_sibling new)) (mk_state level_mid (supply s)) = Some (tt, mk_state level_heap (supply s)).
Proof.
  intros Hf. destruct level_mid_par as (x & Hx & Ex). assert (par <> NULL) as Hpn by (apply (wf_nonnull F s W); by eexists). erewrite bind_run by (apply (res_ld_run par x); [done|exact Hx]). rewrite Ex. pose proof level_mid_ks1 as Hs. unfold level_heap, relink. destruct level_nodup as (_ & _ & Hd1 & _).
  assert (first ∈ mid) as Hfm by (destruct mid; [done|]; injection Hfirst as <-; by left). destruct (last ks1) as [k|] eqn:El.
  - rewrite (proj2 (Z.eqb_neq (child r) first)).
    2: { intros E. assert (child r ∈ ks1) as Hc by (destruct ks1; [done|]; destruct Hs as [-> _]; by left). apply (proj1 (Hd1 _ Hc)). by rewrite E. }
    erewrite bind_run.
    2: { apply (previous_run fuel par _ ks1 first k (mk_state level_mid (supply s))); [exact Hs|done|intros Hf1; by apply (proj1 (Hd1 first Hf1))|intros j Hj; by apply level_kids, level_in1|done]. }
    apply modify_at; [by apply level_kids, level_in1, last_Some_elem_of|]. apply level_dom. by apply level_kids, level_in1, last_Some_elem_of.
  - apply last_None in El. rewrite El in Hs. cbn [seg] in Hs. rewrite Hs, Z.eqb_refl. apply modify_at; [done|]. by exists x.
Qed.

Lemma insert_between_run : insert_between par new first z s = Some (tt, mk_state level_heap (supply s)).
Proof.
  assert (new <> NULL) as Hnn by (apply (wf_nonnull F s W); by eexists). destruct level_z_here as (q & Hq & Es). destruct (level_kids z (level_in2 z level_z)) as (_ & Hzn & Hz0 & _). pose proof (kids_bound F s W _ _ Hpar) as Hb. rewrite !length_app in Hb.
  unfold insert_between. erewrite bind_run by reflexivity. erewrite bind_run by (apply modify_run; [done|by exists n]). erewrite bind_run by (apply res_ld_run; [done|cbn [heap]; rewrite lookup_alter_ne by done; exact Hq]). rewrite Es.
  erewrite bind_run by (apply modify_run; [done|cbn [heap]; rewrite lookup_alter_is_Some; by exists n]). cbn [heap supply]. erewrite bind_run by (apply modify_run; [done|cbn [heap]; rewrite !lookup_alter_is_Some; by exists n]). cbn [heap supply]. erewrite bind_run by (apply modify_run; [done|cbn [heap]; rewrite !lookup_alter_is_Some; by exists q]). cbn [heap supply].
  erewrite bind_run; [apply relink_run; lia|]. replace first with (first_of mid) at 1 by (destruct mid; [done|by injection Hfirst]). exact (reparent_run (S (size (heap s))) new mid (mk_state (alter (set_sibling NULL) z level_new) (supply s)) level_chained ltac:(lia)).
Qed.

Context (Hin : inside n r) (Hlo : before s ks1 n) (Hhi : after s ks2 n).
Context (Hmid : forall k q, k ∈ mid -> heap s !! k = Some q -> start n <= start q /\ end_ q <= end_ n).

Lemma level_fit : fit (heap s) (start r) (ks1 ++ new :: ks2) (end_ r) /\ fit (heap s) (start n) mid (end_ n).
Proof.
  destruct Hin as [Hi1 Hi2]. destruct (wf_node F s W _ _ Hpar) as (r' & [Hr' _ _ Hf]). rewrite Hr in Hr'. injection Hr' as <-. apply fit_app in Hf as (Hf1 & m & _ & _ & (Hf2 & m' & _ & _ & Hf3)%fit_app). split; [|by apply (fit_bounds _ _ _ _ _ _ Hf2)].
  apply fit_app. split; [done|]. exists (start n). split; [lia|]. split; [done|]. exists n. split; [done|]. split; [lia|]. split; [lia|]. apply (fit_bounds _ _ _ _ _ _ Hf3). intros k q Hk Hq. specialize (Hhi k q Hk Hq). destruct (fit_in _ _ _ _ _ Hf3 Hk) as (q' & Hq' & ? & ?). rewrite Hq in Hq'. injection Hq' as <-. lia.
Qed.

Lemma level_fit_at a ks q x : heap s !! a = Some x -> fit (heap s) (start x) ks (end_ x) -> level_heap !! a = Some q -> fit level_heap (start q) ks (end_ q).
Proof.
  intros Hx Hf Hq. destruct (same_lookup _ _ _ _ _ (level_range a) Hx) as (q' & Hq' & E). rewrite Hq in Hq'. injection Hq' as <-. injection E as -> ->. apply (fit_mono (heap s)); [intros; apply level_range|done].
Qed.

Lemma level_wf : wf level_forest (mk_state level_heap (supply s)).
Proof.
  destruct level_fit as [Hf1 Hf2]. apply (wf_relinked F s W); [apply level_range| | |apply level_acc|].
  - intros b. unfold level_forest. destruct (decide (b = new)) as [->|Hb]; [rewrite lookup_insert_eq, Hnew; split; by eexists|rewrite lookup_insert_ne by done]. destruct (decide (b = par)) as [->|Hb']; [rewrite lookup_insert_eq, Hpar; split; by eexists|by rewrite lookup_insert_ne].
  - intros y x Hy%level_forest_kid. destruct Hy as [[_ Hy]|[[_ ->]|Hy]]; [|by eexists|by apply (wf_kid F s W y x)]. apply (wf_kid F s W y par). by apply level_kids, level_in2.
  - intros a ks Ha q Hq. unfold level_forest in Ha. apply lookup_insert_Some in Ha as [[<- <-]|[Hane Ha]]; [split; [by apply level_seg_new|by apply (level_fit_at new _ _ n)]|]. apply lookup_insert_Some in Ha as [[<- <-]|[Hane' Ha]]; [split; [by apply level_seg_par|by apply (level_fit_at par _ _ r)]|].
    apply (node_keep F s W _ _ _ Ha); [by apply level_child|apply level_range| |done]. intros k Hk. assert (kid F k a) as Hka by (by exists ks). assert (k <> new) as Hkn by (intros ->; by apply (Hdet a)).
    assert (k ∉ ks1 ++ mid ++ ks2) as Hnot by (intros (Hkp & _)%level_kids; apply Hane'; by apply (kid_unique F s W k)). split; [apply level_parent; [done|]; intros H; by apply Hnot, level_in2|]. apply level_sibling; [done|intros ->; apply Hnot, level_in2, level_z|]. intros El. by apply Hnot, level_in1, last_Some_elem_of.
Qed.

End between.

End ResourceInsert.
