(* ===== verification/ResourceDescend.v ===== *)
(** * Resource trees: the descent of [insert_resource] *)

From S2P Require Import Prelude Resource ResourceTree ResourceLinks ResourceOps ResourceRequest ResourceInsert.

Module ResourceDescend.
Import Resource ResourceTree ResourceLinks ResourceOps ResourceRequest ResourceInsert.

Definition properly (F : forest) (d x : Z) : Prop := exists j, kid F j x /\ below F d j.
Definition apart (q n : resource) : Prop := end_ q < start n \/ end_ n < start q.
(** The ranges are disjoint or one is inside the other. *)
Definition laminar (q n : resource) : Prop := apart q n \/ inside q n \/ inside n q.
(** Every resource below [x] satisfies [T]. *)
Definition all_below (F : forest) (s : state) (T : resource -> Prop) (x : Z) : Prop := forall d q, properly F d x -> heap s !! d = Some q -> T q.
Definition laminar_below (F : forest) (s : state) (n : resource) : Z -> Prop := all_below F s (fun q => laminar q n).

Lemma below_trans F c b a : below F c b -> below F b a -> below F c a.
Proof. unfold below. intros H1 H2. by transitivity b. Qed.

Section ranges.
Context (F : forest) (s : state) (W : wf F s).

Lemma kid_inside y x q r : kid F y x -> heap s !! y = Some q -> heap s !! x = Some r -> inside q r.
Proof.
  intros (ks & Hx & Hy) Hq Hr. destruct (wf_node F s W _ _ Hx) as (r' & [Hr' _ _ Hf]). rewrite Hr in Hr'. injection Hr' as <-. destruct (fit_in _ _ _ _ _ Hf Hy) as (q' & Hq' & ? & ?). rewrite Hq in Hq'. injection Hq' as <-. unfold inside. lia.
Qed.

Lemma kid_here y x : kid F y x -> exists q ks, F !! y = Some ks /\ heap s !! y = Some q /\ y <> NULL.
Proof. intros H. pose proof (wf_kid F s W _ _ H) as [ks Hks]. destruct (wf_node F s W _ _ Hks) as (q & N). exists q, ks. split; [done|]. split; [apply N|]. apply (wf_nonnull F s W). by exists ks. Qed.

Lemma below_inside d j x q r : kid F j x -> below F d j -> heap s !! d = Some q -> heap s !! j = Some r -> inside q r.
Proof.
  intros Hk Hb. revert x r Hk. unfold below in Hb. induction Hb as [d|j e d He _ IH]; intros x r Hk Hq Hr.
  - assert (is_Some (heap s !! x)) as [y Hy] by (apply (wf_dom F s W); destruct Hk as (l & Hl & _); by exists l). pose proof (kid_inside _ _ _ _ Hk Hq Hy). rewrite Hq in Hr. injection Hr as <-. unfold inside in *. lia.
  - destruct (kid_here _ _ He) as (y & _ & _ & Hy & _). specialize (IH j y He Hq Hy). pose proof (kid_inside _ _ _ _ He Hy Hr). unfold inside in *. lia.
Qed.

Lemma siblings_apart x ks1 c ks2 j q r : F !! x = Some (ks1 ++ c :: ks2) -> j ∈ ks1 ++ c :: ks2 -> j <> c -> heap s !! j = Some q -> heap s !! c = Some r -> apart q r.
Proof.
  intros Hx Hj Hne Hq Hr. destruct (wf_node F s W _ _ Hx) as (y & [_ _ _ Hf]). apply fit_app in Hf as (_ & m & _ & Hlt & r' & Hr' & H1 & _ & H2). rewrite Hr in Hr'. injection Hr' as <-. apply elem_of_app in Hj as [Hj|[->|Hj]%elem_of_cons]; [|done|].
  - specialize (Hlt _ _ Hj Hq). left. lia.
  - destruct (fit_in _ _ _ _ _ H2 Hj) as (q' & Hq' & ? & ?). rewrite Hq in Hq'. injection Hq' as <-. right. lia.
Qed.

(** A resource around [n] decides for its parent. *)
Lemma all_below_step T n x ks1 c ks2 q : (forall p, apart p n -> T p) -> F !! x = Some (ks1 ++ c :: ks2) -> heap s !! c = Some q -> inside n q -> T q -> all_below F s T c <-> all_below F s T x.
Proof.
  intros HT Hx Hq Hi HTq. assert (kid F c x) as Hc by (exists (ks1 ++ c :: ks2); split; [done|]; apply elem_of_app; right; by left). split; intros H d qd (j & Hj & Hb) Hd.
  - destruct (kid_here _ _ Hj) as (qj & _ & _ & Hqj & _). destruct (decide (j = c)) as [->|Hne].
    + unfold below in Hb. apply rtc_inv in Hb as [<-|(e & He & Hb)]; [congruence|]. apply (H d); [by exists e|done].
    + pose proof (below_inside _ _ _ _ _ Hj Hb Hd Hqj) as Hdj. destruct Hj as (ks & Hx' & Hj). rewrite Hx in Hx'. injection Hx' as <-. pose proof (siblings_apart _ _ _ _ _ _ _ Hx Hj Hne Hqj Hq) as Ha. apply HT. unfold apart, inside in *. lia.
  - apply (H d); [|done]. exists c. split; [done|]. eapply rtc_l; [exact Hj|exact Hb].
Qed.

(** The new resource stays outside of what is below. *)
Lemma not_below_kid new c x : detached F new -> kid F c x -> ~ below F x new -> ~ below F c new.
Proof.
  intros Hd Hk Hn Hb. unfold below in Hb. apply rtc_inv_r in Hb as [->|(e & Hb & He)]; [by apply (Hd x)|]. apply Hn. rewrite (kid_unique F s W c x e Hk He). exact Hb.
Qed.

(** The resources on the way down are distinct. *)
Definition path (L : list Z) (x : Z) : Prop := NoDup L /\ x ∈ L /\ forall y, y ∈ L -> is_Some (F !! y) /\ below F x y.

Lemma path_one x : is_Some (F !! x) -> path [x] x.
Proof. intros H. split; [apply NoDup_singleton|]. split; [by left|]. intros y ->%list_elem_of_singleton. split; [done|apply rtc_refl]. Qed.

Lemma path_down L x c : path L x -> kid F c x -> path (c :: L) c.
Proof.
  intros (Hnd & Hx & Hall) Hc. split; [apply NoDup_cons; split; [|done]; intros Hi; apply (no_cycle F s W _ _ Hc), Hall, Hi|]. split; [by left|].
  intros y [->|Hy]%elem_of_cons; [split; [by apply (wf_kid F s W _ _ Hc)|apply rtc_refl]|]. split; [by apply Hall|]. eapply rtc_r; [apply Hall, Hy|exact Hc].
Qed.

Lemma path_bound L x : path L x -> (length L <= size (heap s))%nat.
Proof. intros (Hnd & _ & Hall). apply (seen_bound F s W); [done|]. intros y Hy. by apply Hall. Qed.

End ranges.

(** ** The first loop of [insert_resource] *)

Section insert.
Context (F : forest) (s : state) (W : wf F s).
Context (new : Z) (nk : list Z) (n : resource).
Context (Hnew : F !! new = Some nk) (Hdet : detached F new) (Hn : heap s !! new = Some n).

(** What the descent from [x] may find. *)
Inductive find_result (x : Z) (r : resource) : option ((Z + Z * Z) * state) -> Prop :=
| FR_outside : ~ inside n r -> find_result x r (Some (inl (- EBUSY), s))
| FR_linked p ks1 ks2 s' : below F p x -> F !! p = Some (ks1 ++ ks2) -> inside n r -> laminar_below F s n x -> wf (attached F p new ks1 ks2) s' -> same_data s s' -> find_result x r (Some (inl 0, s'))
| FR_conflict p ks1 k ks2 rp q : below F p x -> F !! p = Some (ks1 ++ k :: ks2) -> heap s !! p = Some rp -> inside n rp -> inside n r -> before s ks1 n -> heap s !! k = Some q -> overlap q n -> (inside n q -> inside q n) ->
    (laminar_below F s n p <-> laminar_below F s n x) -> ~ below F p new -> find_result x r (Some (inr (p, k), s)).

(** Children outside of [n] hold nothing that meets it. *)
Lemma laminar_kids x ks : F !! x = Some ks -> (forall k q, k ∈ ks -> heap s !! k = Some q -> apart q n \/ inside q n) -> laminar_below F s n x.
Proof.
  intros Hx H d q (j & Hj & Hb) Hq. destruct (kid_here F s W _ _ Hj) as (qj & _ & _ & Hqj & _). pose proof (below_inside F s W _ _ _ _ _ Hj Hb Hq Hqj) as Hi. destruct Hj as (ks' & Hx' & Hj). rewrite Hx in Hx'. injection Hx' as <-. unfold laminar, apart, inside in *. destruct (H j qj Hj Hqj) as [?|?]; [left|right; left]; lia.
Qed.

Lemma insert_find_ok fuel L x r : path F L x -> (size (heap s) < length L + fuel)%nat -> heap s !! x = Some r -> ~ below F x new -> find_result x r (insert_find fuel x new s).
Proof.
  revert L x r. induction fuel as [|fuel IH]; intros L x r Hp Hf Hr Hnb; [pose proof (path_bound F s W _ _ Hp); lia|]. assert (is_Some (F !! x)) as [ks Hks] by apply Hp, Hp. cbn [insert_find].
  pose proof (request_resource_ok F s W x new ks nk r n Hks Hnew Hdet Hnb Hr Hn) as R. remember (__request_resource x new s) as o eqn:Eo. destruct R as [Ho|ks1 k ks2 q Hx Hi Hb Hq Hov|ks1 ks2 s' Hx Hi Hb Ha W' D].
  - erewrite bind_run by exact (eq_sym Eo). rewrite (proj2 (Z.eqb_neq x NULL)) by (apply (wf_nonnull F s W); by exists ks). rewrite Z.eqb_refl. by apply FR_outside.
  - erewrite bind_run by exact (eq_sym Eo). assert (kid F k x) as Hk by (exists (ks1 ++ k :: ks2); split; [done|]; apply elem_of_app; right; by left). destruct (kid_here F s W _ _ Hk) as (_ & _ & _ & _ & Hk0). rewrite (proj2 (Z.eqb_neq k NULL) Hk0).
    rewrite (proj2 (Z.eqb_neq k x)) by (intros ->; apply (no_cycle F s W _ _ Hk), rtc_refl). erewrite bind_run by (by apply res_ld_run). erewrite bind_run by (apply res_ld_run; [apply (wf_nonnull F s W); by exists nk|exact Hn]).
    assert ((inside n q -> inside q n) -> find_result x r (Some (inr (x, k), s))) as Hstop by (intros; by apply (FR_conflict _ _ x ks1 k ks2 r q (rtc_refl _ x))).
    destruct (Z.ltb_spec (start n) (start q)); [apply Hstop; unfold inside; lia|]. destruct (Z.ltb_spec (end_ q) (end_ n)); [apply Hstop; unfold inside; lia|]. cbn [orb]. destruct ((start q =? start n) && (end_ q =? end_ n)) eqn:Eq; [apply andb_prop in Eq as [E1%Z.eqb_eq E2%Z.eqb_eq]; apply Hstop; unfold inside; lia|].
    assert (inside n q) as Hiq by (unfold inside in *; lia). pose proof (all_below_step F s W (fun q => laminar q n) n x ks1 k ks2 q ltac:(by left) Hx Hq Hiq ltac:(by right; right)) as Hlam. assert (below F k x) as Hkx by (eapply rtc_l; [exact Hk|apply rtc_refl]).
    destruct (IH (k :: L) k q) as [Ho|p l1 l2 s' Hpk Hpl _ Hl W' D|p l1 j l2 rp qj Hpk Hpl Hrp Hip _ Hb' Hqj Hov' Hst Hl Hnp]; [by apply (path_down F s W L x)|cbn [length]; lia|done|by apply (not_below_kid F s W new k x)|done| |].
    + apply (FR_linked _ _ p l1 l2 s'); [by eapply below_trans|done|done|by apply Hlam|done|done].
    + apply (FR_conflict _ _ p l1 j l2 rp qj); [by eapply below_trans|done|done|done|done|done|done|done|done|by rewrite <- Hlam|done].
  - erewrite bind_run by exact (eq_sym Eo). apply (FR_linked _ _ x ks1 ks2 s'); [apply rtc_refl|done|done| |done|done]. apply (laminar_kids x (ks1 ++ ks2) Hx). intros k q [Hk|Hk]%elem_of_app Hq; left; [left; by apply (Hb k)|right; by apply (Ha k)].
Qed.

(** ** The second loop *)

Lemma insert_partial k p q : kid F k p -> heap s !! k = Some q -> overlap q n -> (inside n q -> inside q n) -> ~ inside q n -> ~ laminar_below F s n p.
Proof.
  intros Hk Hq Hov Hst Hno H. destruct (H k q) as [Ha|[Hi|Hi]]; [exists k; split; [done|apply rtc_refl]|done| |done|by apply Hno, Hst]. unfold apart, overlap in *. lia.
Qed.

Lemma insert_last_ok fuel p ks1 mid k ks2 q : F !! p = Some (ks1 ++ mid ++ k :: ks2) -> heap s !! k = Some q -> overlap q n -> (inside n q -> inside q n) -> (forall j qj, j ∈ mid -> heap s !! j = Some qj -> inside qj n) -> (length ks2 < fuel)%nat ->
  (insert_last fuel new k s = Some (None, s) /\ ~ laminar_below F s n p) \/
  (exists z m ks3, mid ++ k :: ks2 = m ++ ks3 /\ head m = head (mid ++ [k]) /\ last m = Some z /\ insert_last fuel new k s = Some (Some z, s) /\ (forall j qj, j ∈ m -> heap s !! j = Some qj -> inside qj n) /\ after s ks3 n).
Proof.
  revert mid k ks2 q. induction fuel as [|fuel IH]; intros mid k ks2 q Hp Hq Hov Hst Hmid Hf; [lia|]. cbn [insert_last].
  assert (kid F k p) as Hk by (eexists; split; [exact Hp|]; apply elem_of_app; right; apply elem_of_app; right; by left). destruct (kid_here F s W _ _ Hk) as (_ & _ & _ & _ & Hk0). destruct (wf_node F s W _ _ Hp) as (rp & [Hrp _ Hs Hfit]).
  pose proof (kid_inside F s W _ _ _ _ Hk Hq Hrp) as Hne. rewrite app_assoc in Hs, Hfit. apply seg_split in Hs as (q' & Hq' & _ & Es & _). rewrite Hq in Hq'. injection Hq' as <-. apply fit_app in Hfit as (_ & lo & _ & _ & q' & Hq' & _ & _ & Hfit). rewrite Hq in Hq'. injection Hq' as <-.
  erewrite bind_run by (by apply res_ld_run). erewrite bind_run by (apply res_ld_run; [apply (wf_nonnull F s W); by exists nk|exact Hn]). destruct ((start q <? start n) || (end_ n <? end_ q)) eqn:Ein.
  { left. split; [done|]. apply (insert_partial k p q Hk Hq Hov Hst). unfold inside. lia. }
  assert (inside q n) as Hin by (unfold inside in *; lia). assert (forall j qj, j ∈ mid ++ [k] -> heap s !! j = Some qj -> inside qj n) as Hmid' by (intros j qj [Hj|[->|Hj%elem_of_nil]%elem_of_cons]%elem_of_app Hqj; [by apply (Hmid j)|congruence|done]).
  rewrite Es. assert (forall ks3, ks2 = ks3 -> after s ks3 n -> exists z m ks3, mid ++ k :: ks2 = m ++ ks3 /\ head m = head (mid ++ [k]) /\ last m = Some z /\ Some (Some k, s) = Some (Some z, s) /\ (forall j qj, j ∈ m -> heap s !! j = Some qj -> inside qj n) /\ after s ks3 n) as Hdone.
  { intros ks3 E Ha. exists k, (mid ++ [k]), ks3. rewrite last_snoc, <- app_assoc, E. done. }
  destruct ks2 as [|y ks2]; cbn [first_of]; [right; apply (Hdone []); [done|]; intros j qj Hj; by apply elem_of_nil in Hj|]. destruct Hfit as (qy & Hqy & Hy1 & Hy2 & Hy3).
  assert (F !! p = Some (ks1 ++ (mid ++ [k]) ++ y :: ks2)) as Hp' by (by rewrite <- app_assoc). assert (kid F y p) as Hky by (eexists; split; [exact Hp'|]; apply elem_of_app; right; apply elem_of_app; right; by left). destruct (kid_here F s W _ _ Hky) as (_ & _ & _ & _ & Hy0).
  rewrite (proj2 (Z.eqb_neq y NULL) Hy0). erewrite bind_run by (by apply res_ld_run). destruct (Z.ltb_spec (end_ n) (start qy)) as [Hlt|Hge].
  { right. apply (Hdone (y :: ks2)); [done|]. apply (after_first s n y ks2 qy (end_ q + 1) (end_ rp)); [by exists qy|done|done]. }
  destruct (IH (mid ++ [k]) y ks2 qy Hp' Hqy) as [[E Hno]|(z & m & ks3 & E1 & E2 & E3 & E4 & E5 & E6)]; [unfold overlap, inside in *; lia|unfold inside in *; lia|done|cbn [length] in Hf; lia|by left|].
  right. exists z, m, ks3. split; [by rewrite <- E1, <- app_assoc|]. split; [|done]. rewrite E2. by destruct mid.
Qed.


(** ** [insert_resource] *)

(** The new resource takes over the children [mid] of a resource below [par]. *)
Definition inserted (par : Z) (F' : forest) : Prop := exists p ks1 mid ks2, below F p par /\ F !! p = Some (ks1 ++ mid ++ ks2) /\ F' = <[new := mid]> (<[p := ks1 ++ new :: ks2]> F).

Lemma insert_resource_ok par ks r : nk = [] -> F !! par = Some ks -> par <> new -> heap s !! par = Some r ->
  (inside n r /\ laminar_below F s n par /\ exists F' s', insert_resource par new s = Some (0, s') /\ wf F' s' /\ same_data s s' /\ inserted par F') \/
  (~ (inside n r /\ laminar_below F s n par) /\ insert_resource par new s = Some (- EBUSY, s)).
Proof.
  intros Enk Hpar Hne Hr. assert (F !! new = Some []) as Hnw by (by rewrite <- Enk). assert (forall p, below F p new -> p = new) as Hbn by (intros p Hb; unfold below in Hb; apply rtc_inv in Hb as [->|(e & (l & Hl & He) & _)]; [done|]; rewrite Hnw in Hl; injection Hl as <-; by apply elem_of_nil in He).
  unfold insert_resource. erewrite bind_run by reflexivity. pose proof (insert_find_ok (S (size (heap s))) [par] par r (path_one F par ltac:(by exists ks)) ltac:(cbn [length]; lia) Hr ltac:(intros H; by apply Hne, Hbn)) as R.
  remember (insert_find (S (size (heap s))) par new s) as o eqn:Eo. destruct R as [Ho|p ks1 ks2 s' Hb Hp Hi Hl W' D|p ks1 k ks2 rp q Hb Hp Hrp Hip Hi Hbef Hq Hov Hst Hl Hnp]; erewrite bind_run by exact (eq_sym Eo).
  - right. split; [tauto|done].
  - left. split; [done|]. split; [done|]. exists (attached F p new ks1 ks2), s'. split; [done|]. split; [done|]. split; [done|]. exists p, ks1, [], ks2. split; [done|]. split; [done|]. unfold attached. symmetry. apply insert_id. rewrite lookup_insert_ne; [done|]. intros ->. rewrite Hnw in Hp. injection Hp as Hp. symmetry in Hp. apply app_nil in Hp as [-> ->].
    pose proof (wf_acc _ _ W' new) as Ha. exfalso. apply (no_cycle _ _ W' new new); [|apply rtc_refl]. exists [new]. unfold attached. rewrite lookup_insert_eq. split; [done|by left].
  - pose proof (kids_bound F s W _ _ Hp) as Hlen. rewrite length_app in Hlen. cbn [length] in Hlen. destruct (insert_last_ok (S (size (heap s))) p ks1 [] k ks2 q Hp Hq Hov Hst ltac:(intros j qj Hj; by apply elem_of_nil in Hj) ltac:(lia)) as [[E Hno]|(z & m & ks3 & E1 & E2 & E3 & E4 & E5 & E6)].
    + right. split; [rewrite <- Hl; tauto|]. erewrite bind_run by exact E. done.
    + left. cbn [app head] in E1, E2. rewrite E1 in Hp. assert (p <> new) as Hpn by (intros ->; apply Hnp, rtc_refl). split; [done|]. split.
      { apply Hl, (laminar_kids p _ Hp). intros j qj [Hj|[Hj|Hj]%elem_of_app]%elem_of_app Hqj; [left; left; by apply (Hbef j)|right; by apply (E5 j)|left; right; by apply (E6 j)]. }
      exists (level_forest F p new ks1 m ks3), (mk_state (level_heap s p new k z ks1 m ks3) (supply s)). split; [|split; [|split]].
      * erewrite bind_run by exact E4. cbv beta iota. erewrite bind_run by (by apply (insert_between_run F s W p new k z ks1 m ks3 rp n)). done.
      * apply (level_wf F s W p new k z ks1 m ks3 rp n); try done. intros j qj Hj Hqj. specialize (E5 j qj Hj Hqj). unfold inside in E5. lia.
      * split; [done|]. intros a. apply level_core.
      * by exists p, ks1, m, ks3.
Qed.

End insert.

End ResourceDescend.
