(* ===== verification/ResourceRegion.v ===== *)
(** * Resource trees: busy regions, [__request_region] and [__release_region] *)

From S2P Require Import Prelude Resource ResourceTree ResourceLinks ResourceOps ResourceRequest ResourceDescend.

Module ResourceRegion.
Import Resource ResourceTree ResourceLinks ResourceOps ResourceRequest ResourceDescend.

(** ** Allocation and release of a resource *)

Lemma wf_kfree F s x : wf F s -> detached F x -> wf (delete x F) (mk_state (delete x (heap s)) (supply s)).
Proof.
  intros W Hd. assert (forall y a, kid (delete x F) y a -> kid F y a) as Hk by (intros y a (ks & Ha & Hy); apply lookup_delete_Some in Ha as [_ Ha]; by exists ks). split; cbn [heap supply].
  - intros a. destruct (decide (a = x)) as [->|Hne]; [by rewrite !lookup_delete_eq|rewrite !lookup_delete_ne by done; apply (wf_dom F s W)].
  - rewrite lookup_delete_None. right. apply (wf_null F s W).
  - intros a ks Ha. apply lookup_delete_Some in Ha as [Hne Ha]. destruct (wf_node F s W a ks Ha) as (r & [H1 H2 H3 H4]). assert (forall A (f : resource -> A) k, k ∈ ks -> same f (heap s) (delete x (heap s)) k) as Hs.
    { intros A f k Hki. unfold same. rewrite lookup_delete_ne; [done|]. intros ->. apply (Hd a). by exists ks. }
    exists r. split; [by rewrite lookup_delete_ne|done|apply (seg_mono (heap s)); [|done]; intros k Hki; split; by apply Hs|apply (fit_mono (heap s)); [|done]; intros k Hki; by apply Hs].
  - intros y a Hy%Hk. rewrite lookup_delete_ne; [by apply (wf_kid F s W y a)|]. intros ->. by apply (Hd a).
  - apply (acc_sub F); [done|apply (wf_acc F s W)].
  - split; [apply (wf_supply F s W)|]. eapply Forall_impl; [apply (wf_supply F s W)|]. intros b Hb. rewrite lookup_delete_None. by right.
Qed.

Section fresh.
Context (F : forest) (s : state) (W : wf F s) (a : Z) (l : list Z) (Hs : supply s = a :: l).

Lemma wf_supply_tail : wf F (mk_state (heap s) l).
Proof.
  split; cbn [heap supply]; try apply W. destruct (wf_supply F s W) as [Hnd Hf]. rewrite Hs in Hnd, Hf. apply Forall_cons in Hf as [_ Hf]. split; [|done]. rewrite filter_cons in Hnd. destruct (decide (a <> NULL)); [|done]. apply NoDup_cons in Hnd. apply Hnd.
Qed.

Lemma fresh_here : heap s !! a = None /\ F !! a = None.
Proof.
  destruct (wf_supply F s W) as [_ Hf]. rewrite Hs in Hf. apply Forall_cons in Hf as [Ha _]. split; [done|]. apply eq_None_not_Some. intros H%(wf_dom F s W). by apply eq_None_not_Some in Ha.
Qed.

Context (Ha0 : a <> NULL) (n : resource) (Hn : is_u32 (start n) /\ is_u32 (end_ n)) (Hc : child n = NULL).

Definition fresh_forest : forest := <[a := []]> F.
Definition fresh_state : state := mk_state (<[a := n]> (heap s)) l.

Lemma fresh_kid y x : kid fresh_forest y x <-> kid F y x.
Proof.
  split; intros (ks & Hx & Hy).
  - unfold fresh_forest in Hx. apply lookup_insert_Some in Hx as [[_ <-]|[_ Hx]]; [by apply elem_of_nil in Hy|by exists ks].
  - exists ks. split; [|done]. unfold fresh_forest. rewrite lookup_insert_ne; [done|]. intros <-. by rewrite (proj2 fresh_here) in Hx.
Qed.

Lemma fresh_below y x : below fresh_forest y x <-> below F y x.
Proof. split; intros H; unfold below in *; (eapply rtc_subrel; [|exact H]); intros u v Hk; by apply fresh_kid. Qed.

Lemma fresh_detached : detached fresh_forest a.
Proof. intros y Hk%fresh_kid. apply (wf_kid F s W) in Hk. destruct fresh_here as [_ E]. rewrite E in Hk. by destruct Hk. Qed.

Lemma fresh_not_below x : x <> a -> ~ below fresh_forest x a.
Proof. intros Hne Hb%fresh_below. unfold below in Hb. apply rtc_inv in Hb as [E|(e & (ks & Hx & _) & _)]; [by apply Hne|]. by rewrite (proj2 fresh_here) in Hx. Qed.

Lemma fresh_wf : wf fresh_forest fresh_state.
Proof.
  destruct fresh_here as [E1 E2]. pose proof wf_supply_tail as Wt. split; unfold fresh_forest, fresh_state; cbn [heap supply].
  - intros x. destruct (decide (x = a)) as [->|Hne]; [rewrite !lookup_insert_eq; split; by eexists|rewrite !lookup_insert_ne by done; apply (wf_dom F s W)].
  - rewrite lookup_insert_ne by done. apply (wf_null F s W).
  - intros x ks Hx. apply lookup_insert_Some in Hx as [[<- <-]|[Hne Hx]]; [exists n; split; [by rewrite lookup_insert_eq|done|by rewrite Hc|done]|]. destruct (wf_node F s W x ks Hx) as (r & [H1 H2 H3 H4]). assert (forall A (f : resource -> A) k, k ∈ ks -> same f (heap s) (<[a := n]> (heap s)) k) as Hsame.
    { intros A f k Hk. unfold same. rewrite lookup_insert_ne; [done|]. intros <-. apply (fresh_detached x), fresh_kid. by exists ks. }
    exists r. split; [by rewrite lookup_insert_ne|done|apply (seg_mono (heap s)); [|done]; intros k Hk; split; by apply Hsame|apply (fit_mono (heap s)); [|done]; intros k Hk; by apply Hsame].
  - intros y x Hk%fresh_kid. destruct (decide (y = a)) as [->|Hne]; [rewrite lookup_insert_eq; by eexists|]. rewrite lookup_insert_ne by done. by apply (wf_kid F s W y x).
  - apply (acc_sub F); [intros y x; apply fresh_kid|apply (wf_acc F s W)].
  - destruct (wf_supply F s W) as [Hnd Hf]. rewrite Hs in Hnd. split; [apply (wf_supply F _ Wt)|]. apply Forall_forall. intros b Hb. pose proof (proj1 (Forall_forall _ _) (proj2 (wf_supply F _ Wt)) b Hb) as Eb. cbn [heap] in Eb. rewrite lookup_insert_ne; [done|]. intros <-.
    rewrite filter_cons_True in Hnd by done. apply NoDup_cons in Hnd as [Hnd _]. apply Hnd. by apply list_elem_of_filter.
Qed.

(** What is below a resource is not affected. *)
Lemma fresh_all_below T x : all_below fresh_forest fresh_state T x <-> all_below F s T x.
Proof.
  assert (forall d, properly fresh_forest d x <-> properly F d x) as Hp by (intros d; split; intros (j & Hj & Hb); exists j; split; [by apply fresh_kid|by apply fresh_below|by apply fresh_kid|by apply fresh_below]).
  assert (forall d, properly F d x -> heap fresh_state !! d = heap s !! d) as Hl; [|split; intros H d q Hd Hq; apply (H d); [by apply Hp|rewrite Hl; [done|done]|by apply Hp|rewrite <- Hl; [done|by apply Hp]]].
  intros d (j & Hj & Hb). cbn [heap fresh_state]. rewrite lookup_insert_ne; [done|]. intros <-. unfold below in Hb. apply rtc_inv_r in Hb as [->|(e & _ & He)]; [by apply (fresh_detached x), fresh_kid|by apply (fresh_detached e), fresh_kid].
Qed.

End fresh.

(** ** The descent of [__request_region] *)

Definition idle (q : resource) : Prop := Z.land (flags q) IORESOURCE_BUSY = 0.
(** A resource that does not keep the region [n] from being granted. *)
Definition free_for (n q : resource) : Prop := overlap q n -> idle q /\ inside n q.
Definition free_below (F : forest) (s : state) (n : resource) : Z -> Prop := all_below F s (free_for n).
(** From [x] down to [p] through resources that are not busy. *)
Definition idle_path (F : forest) (s : state) (x p : Z) : Prop := rtc (fun u v => kid F v u /\ exists q, heap s !! v = Some q /\ idle q) x p.

Section region.
Context (F : forest) (s : state) (W : wf F s).
Context (new : Z) (nk : list Z) (n : resource).
Context (Hnew : F !! new = Some nk) (Hdet : detached F new) (Hn : heap s !! new = Some n).

Inductive region_result (x : Z) (r : resource) : option (Z * state) -> Prop :=
| RG_granted p ks1 ks2 s' : idle_path F s x p -> F !! p = Some (ks1 ++ ks2) -> inside n r -> free_below F s n x -> wf (attached F p new ks1 ks2) s' -> same_data s s' -> region_result x r (Some (new, s'))
| RG_refused : ~ (inside n r /\ free_below F s n x) -> region_result x r (Some (NULL, mk_state (delete new (heap s)) (supply s))).

Lemma free_kids x ks : F !! x = Some ks -> (forall k q, k ∈ ks -> heap s !! k = Some q -> apart q n) -> free_below F s n x.
Proof.
  intros Hx H d q (j & Hj & Hb) Hq Hov. destruct (kid_here F s W _ _ Hj) as (qj & _ & _ & Hqj & _). pose proof (below_inside F s W _ _ _ _ _ Hj Hb Hq Hqj) as Hi. destruct Hj as (ks' & Hx' & Hj). rewrite Hx in Hx'. injection Hx' as <-. specialize (H j qj Hj Hqj). exfalso. unfold apart, inside, overlap in *. lia.
Qed.

Lemma region_loop_ok fuel L x r : path F L x -> (size (heap s) < length L + fuel)%nat -> heap s !! x = Some r -> ~ below F x new -> region_result x r (region_loop fuel x new s).
Proof.
  revert L x r. induction fuel as [|fuel IH]; intros L x r Hp Hf Hr Hnb; [pose proof (path_bound F s W _ _ Hp); lia|]. assert (is_Some (F !! x)) as [ks Hks] by apply Hp, Hp. cbn [region_loop].
  pose proof (request_resource_ok F s W x new ks nk r n Hks Hnew Hdet Hnb Hr Hn) as R. remember (__request_resource x new s) as o eqn:Eo. destruct R as [Ho|ks1 k ks2 q Hx Hi Hb Hq Hov|ks1 ks2 s' Hx Hi Hb Ha W' D]; erewrite bind_run by exact (eq_sym Eo).
  - rewrite (proj2 (Z.eqb_neq x NULL)) by (apply (wf_nonnull F s W); by exists ks). rewrite Z.eqb_refl. apply RG_refused. tauto.
  - assert (kid F k x) as Hk by (exists (ks1 ++ k :: ks2); split; [done|]; apply elem_of_app; right; by left). destruct (kid_here F s W _ _ Hk) as (_ & _ & _ & _ & Hk0). rewrite (proj2 (Z.eqb_neq k NULL) Hk0).
    rewrite (proj2 (Z.eqb_neq k x)) by (intros ->; apply (no_cycle F s W _ _ Hk), rtc_refl). cbn [negb]. erewrite bind_run by (by apply res_ld_run). assert (properly F k x) as Hpk by (exists k; split; [done|apply rtc_refl]).
    destruct (Z.eqb_spec (Z.land (flags q) IORESOURCE_BUSY) 0) as [Hidle|Hbusy]; [|apply RG_refused; intros [_ Hfree]; by destruct (Hfree k q Hpk Hq Hov)].
    assert (inside n q -> free_below F s n k <-> free_below F s n x) as Hstep by (intros Hiq; apply (all_below_step F s W (free_for n) n x ks1 k ks2 q); [|done|done|done|done]; intros y Hy Hoy; exfalso; unfold apart, overlap in *; lia).
    destruct (IH (k :: L) k q) as [p l1 l2 s' Hpk' Hpl Hiq Hl W' D|Hno]; [by apply (path_down F s W L x)|cbn [length]; lia|done|by apply (not_below_kid F s W new k x)| |].
    + apply (RG_granted _ _ p l1 l2 s'); [|done|done|by apply Hstep|done|done]. eapply rtc_l; [|exact Hpk']. split; [done|by exists q].
    + apply RG_refused. intros [_ Hfree]. destruct (Hfree k q Hpk Hq Hov) as [_ Hiq]. apply Hno. split; [done|by apply Hstep].
  - cbn. apply (RG_granted _ _ x ks1 ks2 s'); [apply rtc_refl|done|done| |done|done]. apply (free_kids x (ks1 ++ ks2) Hx). intros k q [Hk|Hk]%elem_of_app Hq; [left; by apply (Hb k)|right; by apply (Ha k)].
Qed.

End region.

(** ** [__request_region] *)

Definition region_of (start' n name' : Z) : resource := mk_res start' (u32 (start' + n - 1)) name' IORESOURCE_BUSY NULL NULL NULL.

Lemma fresh_idle_path F s a l n x p : wf F s -> supply s = a :: l -> x <> a -> idle_path (fresh_forest F a) (fresh_state s a l n) x p -> idle_path F s x p /\ p <> a.
Proof.
  intros W Hs Hx H. unfold idle_path in H. induction H as [x|x y p [Hk (q & Hq & Hi)] _ IH]; [split; [apply rtc_refl|done]|]. assert (y <> a) as Hy by (intros ->; by apply (fresh_detached F s W a l Hs x)). destruct (IH Hy) as [IH1 IH2]. split; [|done]. eapply rtc_l; [|exact IH1].
  split; [by apply (fresh_kid F s W a l Hs)|]. exists q. split; [|done]. cbn [heap fresh_state] in Hq. by rewrite lookup_insert_ne in Hq.
Qed.

Lemma kzalloc_store s a l n : supply s = a :: l -> a <> NULL -> (kzalloc s = Some (a, mk_state (<[a := zero_res]> (heap s)) l)) /\ sto a n (mk_state (<[a := zero_res]> (heap s)) l) = Some (tt, fresh_state s a l n).
Proof.
  intros Hs Ha. unfold kzalloc, sto, fresh_state. rewrite Hs, (proj2 (Z.eqb_neq a NULL) Ha). split; [done|]. cbn [heap supply]. rewrite lookup_insert_eq. by rewrite insert_insert_eq.
Qed.

Section request_region.
Context (F : forest) (s : state) (W : wf F s) (par a : Z) (ks l : list Z) (r : resource).
Context (Hpar : F !! par = Some ks) (Hr : heap s !! par = Some r) (Hs : supply s = a :: l) (Ha : a <> NULL).
Context (start' n name' : Z) (Hu : is_u32 start').
Abbreviation node := (region_of start' n name').

Lemma request_region_ok :
  (inside node r /\ free_below F s node par /\ exists p ks1 ks2 s', idle_path F s par p /\ F !! p = Some (ks1 ++ ks2) /\ __request_region par start' n name' s = Some (a, s') /\ wf (attached (fresh_forest F a) p a ks1 ks2) s' /\ same_data (fresh_state s a l node) s') \/
  (~ (inside node r /\ free_below F s node par) /\ __request_region par start' n name' s = Some (NULL, mk_state (heap s) l)).
Proof.
  assert (par <> a) as Hpa by (intros E; rewrite E in Hpar; by rewrite (proj2 (fresh_here F s W a l Hs)) in Hpar). destruct (kzalloc_store s a l node Hs Ha) as [E1 E2]. unfold __request_region. erewrite bind_run by exact E1. rewrite (proj2 (Z.eqb_neq a NULL) Ha).
  erewrite bind_run by exact E2. erewrite bind_run by reflexivity. assert (is_u32 (start node) /\ is_u32 (end_ node)) as Hnu by (split; [done|apply u32_range]). pose proof (fresh_wf F s W a l Hs Ha node Hnu eq_refl) as Wf. rewrite <- (fresh_all_below F s W a l Hs node (free_for node) par).
  assert (F !! par = fresh_forest F a !! par) as EF by (unfold fresh_forest; by rewrite lookup_insert_ne). rewrite EF in Hpar.
  pose proof (region_loop_ok (fresh_forest F a) (fresh_state s a l node) Wf a [] node (lookup_insert_eq _ _ _) (fresh_detached F s W a l Hs) (lookup_insert_eq _ _ _) (S (size (heap (fresh_state s a l node)))) [par] par r) as R. remember (region_loop _ par a (fresh_state s a l node)) as o eqn:Eo.
  destruct R as [p ks1 ks2 s' Hp Hpk Hi Hf W' D|Hno]; [apply path_one; by exists ks|cbn [length]; lia|cbn [heap fresh_state]; by rewrite lookup_insert_ne|by apply (fresh_not_below F s W a l Hs)| |].
  - left. split; [done|]. split; [done|]. destruct (fresh_idle_path F s a l node par p W Hs Hpa Hp) as [Hp' Hpa']. exists p, ks1, ks2, s'. split; [done|]. split; [|done]. unfold fresh_forest in Hpk. by rewrite lookup_insert_ne in Hpk.
  - right. split; [done|]. cbn [heap supply fresh_state]. by rewrite (delete_insert_id _ _ _ (proj1 (fresh_here F s W a l Hs))).
Qed.

End request_region.

End ResourceRegion.
