(* ===== verification/ResourceRelease.v ===== *)
(** * Resource trees: [__release_region] *)

From S2P Require Import Prelude Resource ResourceTree ResourceLinks ResourceOps ResourceRequest ResourceDescend ResourceRegion.

Module ResourceRelease.
Import Resource ResourceTree ResourceLinks ResourceOps ResourceRequest ResourceDescend ResourceRegion.

Lemma pivot_unique {A} (x : A) l1 l2 m1 m2 : x ∉ l1 -> x ∉ m1 -> l1 ++ x :: l2 = m1 ++ x :: m2 -> l1 = m1 /\ l2 = m2.
Proof.
  revert m1. induction l1 as [|y l1 IH]; intros [|z m1] H1 H2 E; cbn [app] in E.
  - by injection E as ->.
  - injection E as <- _. exfalso. apply H2. by left.
  - injection E as -> _. exfalso. apply H1. by left.
  - injection E as <- E. apply not_elem_of_cons in H1 as [_ H1], H2 as [_ H2]. by destruct (IH m1 H1 H2 E) as [-> ->].
Qed.

Section release_region.
Context (F : forest) (s : state) (W : wf F s) (b e : Z) (Hbe : b <= e).

Definition covers (q : resource) : Prop := start q <= b /\ e <= end_ q.
(** The busy region [b..e] is [k], in [p]. *)
Definition target (x p k : Z) : Prop := idle_path F s x p /\ kid F k p /\ exists q, heap s !! k = Some q /\ start q = b /\ end_ q = e /\ ~ idle q.

(** The child of [x] on the way to it. *)
Lemma target_child x p k : target x p k -> exists c q, kid F c x /\ heap s !! c = Some q /\ covers q /\ ((p = x /\ c = k /\ ~ idle q /\ start q = b /\ end_ q = e) \/ (idle q /\ target c p k)).
Proof.
  intros (Hp & Hk & q & Hq & E1 & E2 & Hbusy). unfold idle_path in Hp. apply rtc_inv in Hp as [->|(c & (Hc & qc & Hqc & Hi) & Hp)].
  - exists k, q. split; [done|]. split; [done|]. split; [unfold covers; lia|by left].
  - exists c, qc. split; [done|]. split; [done|]. split.
    + assert (inside q qc) as Hin; [|unfold inside, covers in *; lia]. apply (below_inside F s W k c x); [done| |done|done]. eapply rtc_r; [|exact Hk]. unfold below. eapply rtc_subrel; [|exact Hp]. intros u v [Hkid _]. exact Hkid.
    + right. split; [done|]. split; [done|]. split; [done|]. by exists q.
Qed.

Lemma covering_unique x ks1 c ks2 q j qj : F !! x = Some (ks1 ++ c :: ks2) -> heap s !! c = Some q -> covers q -> kid F j x -> heap s !! j = Some qj -> covers qj -> j = c.
Proof.
  intros Hx Hq Hc (ks & Hx' & Hj) Hqj Hcj. rewrite Hx in Hx'. injection Hx' as <-. destruct (decide (j = c)) as [->|Hne]; [done|]. pose proof (siblings_apart F s W _ _ _ _ _ _ _ Hx Hj Hne Hqj Hq). unfold apart, covers in *. lia.
Qed.

(** [L] are the resources the loop has seen when it is after [ks1] in [x]. *)
Definition trail (L : list Z) (x : Z) (ks1 : list Z) : Prop := NoDup L /\ (forall y, y ∈ L -> exists w, kid F y w /\ below F x w) /\ (forall y, y ∈ L -> kid F y x -> y ∈ ks1).

Lemma trail_bound L x ks1 : trail L x ks1 -> (length L <= size (heap s))%nat.
Proof. intros (Hnd & Hk & _). apply (seen_bound F s W); [done|]. intros y Hy. destruct (Hk y Hy) as (w & Hw & _). by apply (wf_kid F s W y w). Qed.

Lemma trail_fresh L x ks1 c ks2 : F !! x = Some (ks1 ++ c :: ks2) -> trail L x ks1 -> kid F c x /\ c ∉ L.
Proof.
  intros Hx (_ & _ & H). assert (kid F c x) as Hc by (eexists; split; [exact Hx|]; apply elem_of_app; right; by left). split; [done|]. intros Hi. pose proof (kids_nodup F s W _ _ Hx) as Hnd. apply NoDup_app in Hnd as (_ & Hnd & _). apply (Hnd c); [by apply H|by left].
Qed.

Lemma trail_next L x ks1 c ks2 : F !! x = Some (ks1 ++ c :: ks2) -> trail L x ks1 -> trail (c :: L) x (ks1 ++ [c]).
Proof.
  intros Hx Ht. destruct (trail_fresh _ _ _ _ _ Hx Ht) as [Hc Hn]. destruct Ht as (Hnd & H1 & H2). split; [by apply NoDup_cons|]. split; intros y [->|Hy]%elem_of_cons.
  - exists x. split; [done|apply rtc_refl].
  - by apply H1.
  - intros _. apply elem_of_app. right. by left.
  - intros Hk. apply elem_of_app. left. by apply H2.
Qed.

Lemma trail_down L x ks1 c ks2 : F !! x = Some (ks1 ++ c :: ks2) -> trail L x ks1 -> trail (c :: L) c [].
Proof.
  intros Hx Ht. destruct (trail_fresh _ _ _ _ _ Hx Ht) as [Hc Hn]. destruct Ht as (Hnd & H1 & H2). assert (below F c x) as Hcx by (eapply rtc_l; [exact Hc|apply rtc_refl]). split; [by apply NoDup_cons|]. split; intros y [->|Hy]%elem_of_cons.
  - by exists x.
  - destruct (H1 y Hy) as (w & Hw & Hb). exists w. split; [done|]. by apply (below_trans F c x w).
  - intros Hk. exfalso. apply (no_cycle F s W _ _ Hk), rtc_refl.
  - intros Hk. exfalso. destruct (H1 y Hy) as (w & Hw & Hb). rewrite (kid_unique F s W _ _ _ Hw Hk) in Hb. by apply (no_cycle F s W _ _ Hc).
Qed.

Definition freed (p k : Z) (l1 l2 : list Z) : state := mk_state (delete k (detach_heap s p l1 l2)) (supply s).

Lemma freed_wf p k l1 l2 : F !! p = Some (l1 ++ k :: l2) -> wf (delete k (unlinked F p l1 l2)) (freed p k l1 l2).
Proof. intros H. apply (wf_kfree _ (mk_state (detach_heap s p l1 l2) (supply s))); [by apply (detach_wf F s W p k)|by apply (detach_detached F s W p k)]. Qed.

Inductive release_result (x : Z) : option (bool * state) -> Prop :=
| RL_freed p k l1 l2 : target x p k -> F !! p = Some (l1 ++ k :: l2) -> release_result x (Some (true, freed p k l1 l2))
| RL_none : (forall p k, ~ target x p k) -> release_result x (Some (false, s)).

Lemma release_region_loop_ok fuel L x ks1 ks2 : F !! x = Some (ks1 ++ ks2) -> trail L x ks1 -> (forall k q, k ∈ ks1 -> heap s !! k = Some q -> ~ covers q) -> (size (heap s) < length L + fuel)%nat -> release_result x (release_region_loop fuel b e (loc x ks1) s).
Proof.
  revert L x ks1 ks2. induction fuel as [|fuel IH]; intros L x ks1 ks2 Hx Ht Hno Hf; [pose proof (trail_bound _ _ _ Ht); lia|]. cbn [release_region_loop]. erewrite bind_run by (by apply (ld_loc F s W)). destruct ks2 as [|c ks2]; cbn [first_of].
  { apply RL_none. intros p k (c & q & (l & Hl & Hc) & Hq & Hcov & _)%target_child. rewrite Hx, app_nil_r in Hl. injection Hl as <-. by apply (Hno c q). }
  destruct (trail_fresh _ _ _ _ _ Hx Ht) as [Hc _]. destruct (kid_here F s W _ _ Hc) as (q & kc & Hkc & Hq & Hc0). rewrite (proj2 (Z.eqb_neq c NULL) Hc0). erewrite bind_run by (by apply res_ld_run). destruct ((start q <=? b) && (e <=? end_ q)) eqn:Ecov.
  2: { rewrite <- (loc_snoc x ks1 c). apply (IH (c :: L) x (ks1 ++ [c]) ks2); [by rewrite <- app_assoc|by apply (trail_next L x ks1 c ks2)| |cbn [length]; lia]. intros k qk [Hk|[->|Hk%elem_of_nil]%elem_of_cons]%elem_of_app Hqk; [by apply (Hno k)| |done]. rewrite Hq in Hqk. injection Hqk as <-. unfold covers. lia. }
  assert (covers q) as Hcov by (unfold covers; lia). assert (forall p k, target x p k -> (p = x /\ c = k /\ ~ idle q /\ start q = b /\ end_ q = e) \/ (idle q /\ target c p k)) as Hdir.
  { intros p k Hpk. destruct (target_child _ _ _ Hpk) as (j & qj & Hj & Hqj & Hcj & H). assert (j = c) as -> by (exact (covering_unique x ks1 c ks2 q j qj Hx Hq Hcov Hj Hqj Hcj)). rewrite Hq in Hqj. by injection Hqj as <-. }
  destruct (Z.eqb_spec (Z.land (flags q) IORESOURCE_BUSY) 0) as [Hi|Hb].
  - change (Child c) with (loc c []). destruct (IH (c :: L) c [] kc Hkc) as [p k l1 l2 (Hp & Hk & Hr) Hpl|Hnone]; [by apply (trail_down L x ks1 c ks2)|intros k qk Hk; by apply elem_of_nil in Hk|cbn [length]; lia| |].
    + apply RL_freed; [|done]. split; [|done]. eapply rtc_l; [|exact Hp]. split; [done|by exists q].
    + apply RL_none. intros p k Hpk. destruct (Hdir p k Hpk) as [(_ & _ & Hn & _)|[_ Ht']]; [by apply Hn|by apply (Hnone p k)].
  - destruct (negb (start q =? b) || negb (end_ q =? e)) eqn:Ene.
    + apply RL_none. intros p k Hpk. destruct (Hdir p k Hpk) as [(_ & _ & _ & E1 & E2)|[Hi _]]; [lia|by apply Hb].
    + destruct (wf_node F s W _ _ Hx) as (y & [_ _ Hs _]). apply seg_split in Hs as (q' & Hq' & _ & Es & _). rewrite Hq in Hq'. injection Hq' as <-. rewrite Es. erewrite bind_run by (by apply (st_loc F s W _ _ _ _ _ Hx)). erewrite bind_run by reflexivity.
      apply RL_freed; [|done]. split; [apply rtc_refl|]. split; [done|]. exists q. split; [done|]. split; [lia|]. split; [lia|done].
Qed.

Lemma target_unique x p k p' k' : target x p k -> target x p' k' -> p = p' /\ k = k'.
Proof.
  intros H. pose proof H as [Hp _]. revert p' k' H. unfold idle_path in Hp. induction Hp as [x|x c p (Hc & qc & Hqc & Hi) Hp IH]; intros p' k' H H'; destruct (target_child _ _ _ H') as (c' & qc' & Hc' & Hqc' & Hcov' & D').
  - destruct H as (_ & (ks & Hx & Hk) & q & Hq & E1 & E2 & Hb). apply list_elem_of_split in Hk as (l1 & l2 & ->). assert (c' = k) as -> by (exact (covering_unique x l1 k l2 q c' qc' Hx Hq ltac:(unfold covers; lia) Hc' Hqc' Hcov')). rewrite Hq in Hqc'. injection Hqc' as <-. destruct D' as [(-> & -> & _)|[Hi _]]; done.
  - destruct H as (_ & Hk & Hq). assert (target c p k) as Ht by (split; [exact Hp|done]). assert (covers qc) as Hcc.
    { destruct Hq as (q & Hq & E1 & E2 & _). assert (inside q qc) as Hin; [|unfold inside, covers in *; lia]. apply (below_inside F s W k c x); [done| |done|done]. eapply rtc_r; [|exact Hk]. unfold below. eapply rtc_subrel; [|exact Hp]. intros u v [Hkid _]. exact Hkid. }
    pose proof Hc as (ks & Hx & Hki). apply list_elem_of_split in Hki as (l1 & l2 & ->). assert (c' = c) as -> by (exact (covering_unique x l1 c l2 qc c' qc' Hx Hqc Hcc Hc' Hqc' Hcov')). rewrite Hqc in Hqc'. injection Hqc' as <-. destruct D' as [(_ & _ & Hb & _)|[_ Ht']]; [done|]. by apply (IH p' k').
Qed.

End release_region.

End ResourceRelease.
