(* ===== verification/ResourceAlloc.v ===== *)
(** * Resource trees: [find_resource] and [allocate_resource]

    The search for a gap as a function of the ranges of the children. *)

From S2P Require Import Prelude Resource ResourceTree ResourceLinks ResourceOps ResourceRequest.

Module ResourceAlloc.
Import Resource ResourceTree ResourceLinks ResourceOps ResourceRequest.

(** The bounds of a gap after [min], [max] and the alignment. *)
Definition trim (size min max align : Z) (alignf : option align_fn) (b e : Z) : Z * Z :=
  let b := ALIGN (if b <? min then min else b) align in
  let e := if max <? e then max else e in
  match alignf with Some f => f b e size align | None => (b, e) end.
Definition room (size b e : Z) : bool := (b <? e) && (u32 (size - 1) <=? u32 (e - b)).

(** The first gap that is large enough, [b] where the next one starts. *)
Fixpoint find_gap (size min max align : Z) (alignf : option align_fn) (rs : list resource) (hi b : Z) : option Z :=
  match rs with
  | [] => let '(b, e) := trim size min max align alignf b hi in if room size b e then Some b else None
  | r :: rs => let '(b', e) := trim size min max align alignf b (u32 (start r - 1)) in if room size b' e then Some b' else find_gap size min max align alignf rs hi (u32 (end_ r + 1))
  end.

(** A resource that is not in the tree may change its range. *)
Lemma wf_rerange F s new n n' : wf F s -> F !! new = Some [] -> detached F new -> heap s !! new = Some n -> child n' = child n -> is_u32 (start n') /\ is_u32 (end_ n') -> wf F (mk_state (<[new := n']> (heap s)) (supply s)).
Proof.
  intros W Hnew Hd Hn Hc Hu. assert (forall A (f : resource -> A) k, k <> new -> same f (heap s) (<[new := n']> (heap s)) k) as Hs by (intros A f k Hk; unfold same; by rewrite lookup_insert_ne). split; cbn [heap supply]; try apply W.
  - intros a. rewrite lookup_insert_is_Some'. rewrite (wf_dom F s W). split; [intros [<-|H]; [by eexists|done]|by right].
  - intros a ks Ha. destruct (wf_node F s W a ks Ha) as (r & [H1 H2 H3 H4]). destruct (decide (a = new)) as [->|Hne].
    + rewrite Hnew in Ha. injection Ha as <-. rewrite Hn in H1. injection H1 as <-. exists n'. split; [by rewrite lookup_insert_eq|done|by rewrite Hc|done].
    + assert (forall k, k ∈ ks -> k <> new) as Hk by (intros k Hk ->; apply (Hd a); by exists ks). exists r. split; [by rewrite lookup_insert_ne|done| |]; [apply (seg_mono (heap s)); [|done]|apply (fit_mono (heap s)); [|done]]; intros k Hki; [split|]; by apply Hs, Hk.
  - destruct (wf_supply F s W) as [H1 H2]. split; [done|]. eapply Forall_impl; [exact H2|]. intros a Ha. cbn beta in *. rewrite lookup_insert_ne; [done|]. intros <-. congruence.
Qed.

Lemma rounds_insert s a n n' : heap s !! a = Some n -> rounds (mk_state (<[a := n']> (heap s)) (supply s)) = Some (S (size (heap s)), mk_state (<[a := n']> (heap s)) (supply s)).
Proof. intros H. unfold rounds. cbn [heap]. rewrite map_size_insert_Some; [done|]. by exists n. Qed.

Section find.
Context (F : forest) (s : state) (W : wf F s) (root new : Z) (ks : list Z) (r : resource).
Context (Hroot : F !! root = Some ks) (Hr : heap s !! root = Some r) (Hnew : F !! new = Some []) (Hd : detached F new) (Hne : root <> new).
Context (size min max align : Z) (alignf : option align_fn).

Definition at_new (n : resource) : state := mk_state (<[new := n]> (heap s)) (supply s).

Lemma new_nonnull : new <> NULL.
Proof. apply (wf_nonnull F s W). by eexists. Qed.

Lemma ld_at n : ld new (at_new n) = Some (n, at_new n).
Proof. apply res_ld_run; [apply new_nonnull|]. cbn. apply lookup_insert_eq. Qed.

Lemma ld_other n a q : a <> NULL -> a <> new -> heap s !! a = Some q -> ld a (at_new n) = Some (q, at_new n).
Proof. intros H0 H1 Hq. apply res_ld_run; [done|]. cbn. by rewrite lookup_insert_ne. Qed.

Lemma modify_at_new n f : modify new f (at_new n) = Some (tt, at_new (f n)).
Proof.
  unfold at_new. rewrite modify_at; [|apply new_nonnull|rewrite lookup_insert_eq; by eexists]. do 3 f_equal. apply map_eq. intros b. destruct (decide (b = new)) as [->|Hb]; [by rewrite lookup_alter_eq, !lookup_insert_eq|by rewrite lookup_alter_ne, !lookup_insert_ne].
Qed.

(** Only the range of the new resource changes. *)
Definition ranged (n : resource) (b e : Z) : resource := set_end e (set_start b n).

Lemma trim_run n : clamp new min max size align alignf (at_new n) = Some (tt, at_new (let '(b, e) := trim size min max align alignf (start n) (end_ n) in ranged n b e)).
Proof.
  unfold clamp, trim. erewrite bind_run by apply ld_at.
  erewrite bind_run with (s' := at_new (ranged n (if start n <? min then min else start n) (end_ n))) by (destruct (start n <? min); [apply modify_at_new|by destruct n]).
  erewrite bind_run by apply ld_at. erewrite bind_run with (s' := at_new (ranged n (if start n <? min then min else start n) (if max <? end_ n then max else end_ n))) by (cbn [end_ ranged set_end]; destruct (max <? end_ n); [apply modify_at_new|done]).
  erewrite bind_run by apply ld_at. erewrite bind_run by apply modify_at_new. cbn [start set_start set_end ranged end_]. destruct alignf as [f|]; [|done]. erewrite bind_run by apply ld_at. cbn [start set_start set_end ranged end_]. destruct (f _ _ _ _) as [b e]. erewrite bind_run by apply modify_at_new. apply modify_at_new.
Qed.

Context (Hmax : is_u32 max).
Context (Hal : forall f b e, alignf = Some f -> is_u32 b -> is_u32 e -> is_u32 (f b e size align).1 /\ is_u32 (f b e size align).2).

Lemma trim_u32 b e : is_u32 b -> is_u32 e -> is_u32 (trim size min max align alignf b e).1 /\ is_u32 (trim size min max align alignf b e).2.
Proof.
  intros Hb He. unfold trim. assert (is_u32 (ALIGN (if b <? min then min else b) align)) as Ha by (apply land_u32, u32_range). assert (is_u32 (if max <? e then max else e)) as He' by (by destruct (max <? e)). destruct alignf as [f|]; [by apply Hal|done].
Qed.

Definition found (n : resource) (o : option Z) (res : Z) (n' : resource) : Prop :=
  match o with
  | Some b => res = 0 /\ is_u32 b /\ n' = ranged n b (u32 (b + size - 1))
  | None => res = - EBUSY /\ exists b e, is_u32 b /\ is_u32 e /\ n' = ranged n b e
  end.

Lemma found_ranged n b e o res n' : found (ranged n b e) o res n' -> found n o res n'.
Proof. destruct o; [done|]. intros (E & b' & e' & H1 & H2 & ->). split; [done|]. by exists b', e'. Qed.

Lemma find_loop_run fuel ks1 ks2 rs n : ks = ks1 ++ ks2 -> Forall2 (fun k q => heap s !! k = Some q) ks2 rs -> (length ks2 < fuel)%nat -> is_u32 (start n) -> exists res n', find_loop fuel root new size min max align alignf (first_of ks2) (at_new n) = Some (res, at_new n') /\ found n (find_gap size min max align alignf rs (end_ r) (start n)) res n'.
Proof.
  assert (root <> NULL) as Hr0 by (apply (wf_nonnull F s W); by exists ks). destruct (wf_node F s W _ _ Hroot) as (r' & [Hr' [_ Hru] Hs _]). rewrite Hr in Hr'. injection Hr' as <-.
  revert ks1 ks2 rs n. induction fuel as [|fuel IH]; intros ks1 ks2 rs n Hks Hrs Hf Hsn; [lia|]. cbn [find_loop]. destruct Hrs as [|k q ks2 rs Hq Hrs]; cbn [first_of length] in *.
  - erewrite bind_run with (s' := at_new n) (a := end_ r) by (cbn [negb Z.eqb NULL]; erewrite bind_run by (by apply (ld_other n root r)); reflexivity).
    erewrite bind_run by apply modify_at_new. erewrite bind_run by apply trim_run. erewrite bind_run by apply ld_at. cbn [find_gap start end_ set_end].
    pose proof (trim_u32 (start n) (end_ r) Hsn Hru) as Hu. destruct (trim size min max align alignf (start n) (end_ r)) as [b e]. cbn [fst snd] in Hu. cbn [start end_ ranged set_start set_end]. unfold room. destruct ((b <? e) && _).
    + erewrite bind_run by apply modify_at_new. exists 0. eexists. split; [reflexivity|]. split; [done|]. split; [apply Hu|done].
    + exists (- EBUSY). eexists. split; [reflexivity|]. split; [done|]. exists b, e. split; [apply Hu|]. split; [apply Hu|done].
  - assert (kid F k root) as Hk by (exists ks; split; [done|]; rewrite Hks; apply elem_of_app; right; by left). assert (k <> new) as Hkn by (intros E; rewrite E in Hk; by apply (Hd root)). assert (k <> NULL) as Hk0 by (apply (wf_nonnull F s W), (wf_kid F s W _ _ Hk)).
    rewrite Hks in Hs. pose proof Hs as (q' & Hq' & _ & Es & _)%seg_split. rewrite Hq in Hq'. injection Hq' as <-. rewrite (proj2 (Z.eqb_neq k NULL) Hk0). cbn [negb]. erewrite bind_run by (erewrite bind_run by (by apply (ld_other n k q)); reflexivity).
    erewrite bind_run by apply modify_at_new. erewrite bind_run by apply trim_run. erewrite bind_run by apply ld_at. cbn [find_gap start end_ set_end].
    pose proof (trim_u32 (start n) (u32 (start q - 1)) Hsn (u32_range _)) as Hu. destruct (trim size min max align alignf (start n) (u32 (start q - 1))) as [b e]. cbn [fst snd] in Hu. cbn [start end_ ranged set_start set_end]. unfold room at 1. destruct ((b <? e) && _).
    + erewrite bind_run by apply modify_at_new. exists 0. eexists. split; [reflexivity|]. split; [done|]. split; [apply Hu|done].
    + erewrite bind_run by (by apply (ld_other _ k q)). erewrite bind_run by apply modify_at_new. rewrite Es.
      destruct (IH (ks1 ++ [k]) ks2 rs (ranged n (u32 (end_ q + 1)) e)) as (res & n' & E & Hfd); [by rewrite <- app_assoc|done|lia|apply u32_range|]. exists res, n'. split; [exact E|]. by apply found_ranged in Hfd.
Qed.

(** [find_resource] skips a first child at 0. *)
Definition first_gap (rs : list resource) : option Z :=
  match rs with
  | q :: rs' => if start q =? 0 then find_gap size min max align alignf rs' (end_ r) (u32 (end_ q + 1)) else find_gap size min max align alignf rs (end_ r) (start r)
  | [] => find_gap size min max align alignf [] (end_ r) (start r)
  end.

Lemma find_resource_run rs n : Forall2 (fun k q => heap s !! k = Some q) ks rs -> heap s !! new = Some n -> exists res n', find_resource root new size min max align alignf s = Some (res, at_new n') /\ found n (first_gap rs) res n'.
Proof.
  intros Hrs Hn. assert (modify new (set_start (start r)) s = Some (tt, at_new (set_start (start r) n))) as Em by (rewrite <- modify_at_new; f_equal; unfold at_new; rewrite insert_id by done; by destruct s). assert (root <> NULL) as Hr0 by (apply (wf_nonnull F s W); by exists ks). destruct (wf_node F s W _ _ Hroot) as (r' & [Hr' [Hru _] Hs _]). rewrite Hr in Hr'. injection Hr' as <-.
  pose proof (kids_bound F s W _ _ Hroot) as Hlen. pose proof (fun n' => rounds_insert s new n n' Hn) as Hrounds. fold at_new in Hrounds.
  unfold find_resource. erewrite bind_run by (by apply res_ld_run). erewrite bind_run by exact Em. rewrite (seg_first _ _ _ _ Hs). destruct rs as [|q rs]; cbn [first_gap].
  - apply Forall2_nil_inv_r in Hrs as Ek. rewrite Ek. cbn [first_of]. erewrite bind_run by reflexivity. erewrite bind_run by apply Hrounds. destruct (find_loop_run (S (base.size (heap s))) [] [] [] (set_start (start r) n) Ek ltac:(constructor) ltac:(cbn [length]; lia) Hru) as (res & n' & E & Hf). exists res, n'. split; [exact E|exact (found_ranged n (start r) (end_ n) _ _ _ Hf)].
  - apply Forall2_cons_inv_r in Hrs as (k & ks' & Hq & Hrs & Ek). rewrite Ek. cbn [first_of]. assert (kid F k root) as Hk by (exists ks; split; [done|]; rewrite Ek; by left). assert (k <> new) as Hkn by (intros E; rewrite E in Hk; by apply (Hd root)). assert (k <> NULL) as Hk0 by (apply (wf_nonnull F s W), (wf_kid F s W _ _ Hk)). rewrite (proj2 (Z.eqb_neq k NULL) Hk0).
    rewrite Ek in Hs, Hlen. pose proof (seg_split _ _ _ [] k ks' Hs) as (q' & Hq' & _ & Esib & _). rewrite Hq in Hq'. injection Hq' as <-. cbn [length] in Hlen. destruct (Z.eqb_spec (start q) 0) as [E0|E0].
    + erewrite bind_run by (erewrite bind_run by (by apply (ld_other _ k q)); rewrite (proj2 (Z.eqb_eq _ _) E0); erewrite bind_run by apply modify_at_new; reflexivity). rewrite Esib. erewrite bind_run by apply Hrounds.
      destruct (find_loop_run (S (base.size (heap s))) [k] ks' rs (set_start (u32 (end_ q + 1)) (set_start (start r) n)) Ek Hrs ltac:(lia) (u32_range _)) as (res & n' & E & Hf). exists res, n'. split; [exact E|exact (found_ranged n _ (end_ n) _ _ _ Hf)].
    + erewrite bind_run by (erewrite bind_run by (by apply (ld_other _ k q)); rewrite (proj2 (Z.eqb_neq _ _) E0); reflexivity). erewrite bind_run by apply Hrounds.
      destruct (find_loop_run (S (base.size (heap s))) [] (k :: ks') (q :: rs) (set_start (start r) n) Ek ltac:(by constructor) ltac:(cbn [length]; lia) Hru) as (res & n' & E & Hf). exists res, n'. split; [exact E|exact (found_ranged n (start r) (end_ n) _ _ _ Hf)].
Qed.


Lemma at_new_kids k : k ∈ ks -> forall n, heap (at_new n) !! k = heap s !! k.
Proof. intros Hk n. cbn [heap at_new]. rewrite lookup_insert_ne; [done|]. intros E. apply (Hd root). rewrite E. by exists ks. Qed.

(** The gap that was found is requested; a gap that wrapped around is refused there. *)
Inductive allocate_result (rs : list resource) (n : resource) : option (Z * state) -> Prop :=
| AR_linked b ks1 ks2 s' : first_gap rs = Some b -> ks = ks1 ++ ks2 -> inside (ranged n b (u32 (b + size - 1))) r -> before s ks1 (ranged n b (u32 (b + size - 1))) -> after s ks2 (ranged n b (u32 (b + size - 1))) ->
    wf (attached F root new ks1 ks2) s' -> same_data (at_new (ranged n b (u32 (b + size - 1)))) s' -> allocate_result rs n (Some (0, s'))
| AR_busy b e : is_u32 b -> is_u32 e -> (forall b', first_gap rs = Some b' -> b = b' /\ e = u32 (b + size - 1) /\ (inside (ranged n b e) r -> exists k q, k ∈ ks /\ heap s !! k = Some q /\ overlap q (ranged n b e))) -> allocate_result rs n (Some (- EBUSY, at_new (ranged n b e))).

Lemma allocate_ok rs n : Forall2 (fun k q => heap s !! k = Some q) ks rs -> heap s !! new = Some n -> allocate_result rs n (allocate_resource root new size min max align alignf s).
Proof.
  intros Hrs Hn. unfold allocate_resource. destruct (find_resource_run rs n Hrs Hn) as (res & n' & E & Hf). erewrite bind_run by exact E. unfold found in Hf. destruct (first_gap rs) as [b|] eqn:Eg.
  2: { destruct Hf as (-> & b & e & Hb & He & ->). apply AR_busy; [done|done|]. intros b' Eb. by rewrite Eg in Eb. }
  destruct Hf as (-> & Hb & ->). cbn [Z.leb Z.compare]. set (m := ranged n b (u32 (b + size - 1))). assert (wf F (at_new m)) as Wm by (apply (wf_rerange F s new n m W Hnew Hd Hn eq_refl); split; [done|apply u32_range]).
  assert (~ below F root new) as Hnb by (intros Hb'; unfold below in Hb'; apply rtc_inv in Hb' as [Eb|(x & (l & Hl & Hx) & _)]; [by apply Hne|]; rewrite Hnew in Hl; injection Hl as <-; by apply elem_of_nil in Hx).
  pose proof (request_resource_ok F (at_new m) Wm root new ks [] r m Hroot Hnew Hd Hnb ltac:(cbn [heap at_new]; by rewrite lookup_insert_ne) (lookup_insert_eq _ _ _)) as R. remember (__request_resource root new (at_new m)) as o eqn:Eo.
  destruct R as [Ho|ks1 k ks2 q Hx Hi Hbf Hq Hov|ks1 ks2 s' Hx Hi Hbf Haf W' D]; erewrite bind_run by exact (eq_sym Eo).
  - rewrite (proj2 (Z.eqb_neq root NULL)) by (apply (wf_nonnull F s W); by exists ks). apply AR_busy; [done|apply u32_range|]. intros b' Eb. rewrite Eg in Eb. injection Eb as <-. done.
  - rewrite Hroot in Hx. injection Hx as Hx. assert (k ∈ ks) as Hk by (rewrite Hx; apply elem_of_app; right; by left). rewrite (proj2 (Z.eqb_neq k NULL)) by (apply (wf_nonnull F s W), (wf_kid F s W k root); by exists ks). apply AR_busy; [done|apply u32_range|].
    intros b' Eb. rewrite Eg in Eb. injection Eb as <-. split; [done|]. split; [done|]. intros _. rewrite (at_new_kids k Hk) in Hq. by exists k, q.
  - rewrite Hroot in Hx. injection Hx as Hx. cbn [NULL Z.eqb negb]. apply (AR_linked rs n b ks1 ks2 s' Eg Hx Hi); [| |done|done]; intros k q Hk Hq; [apply (Hbf k)|apply (Haf k)]; try done; rewrite at_new_kids; [done|rewrite Hx; apply elem_of_app; by left|done|rewrite Hx; apply elem_of_app; by right].
Qed.

End find.

(** ** The gap that is found *)

Lemma ALIGN_mask v k : 0 <= k < 32 -> is_u32 v -> Z.land v (u32 (Z.lnot (2 ^ k - 1))) = v / 2 ^ k * 2 ^ k.
Proof.
  unfold is_u32. intros Hk Hv. unfold u32. rewrite <- Z.land_ones, Z.land_assoc, (Z.land_comm _ (Z.ones 32)), Z.land_assoc by lia. rewrite (Z.land_comm (Z.ones 32)), Z.land_ones, Z.mod_small by lia. rewrite <- Z.ldiff_land. replace (2 ^ k - 1) with (Z.ones k) by (rewrite Z.ones_equiv; lia).
  by rewrite Z.ldiff_ones_r, Z.shiftl_mul_pow2, Z.shiftr_div_pow2 by lia.
Qed.

(** [ALIGN] rounds up to a multiple when it does not wrap. *)
Lemma ALIGN_pow2 x k : 0 <= k < 32 -> 0 <= x <= 2 ^ 32 - 2 ^ k -> ALIGN x (2 ^ k) = (x + 2 ^ k - 1) / 2 ^ k * 2 ^ k.
Proof.
  intros Hk Hx. assert (0 < 2 ^ k) as H0 by (apply Z.pow_pos_nonneg; lia). assert (2 ^ k < 2 ^ 32) as H1 by (apply Z.pow_lt_mono_r; lia). unfold ALIGN. rewrite (u32_small (2 ^ k - 1)) by (unfold is_u32; lia). rewrite (u32_small (x + (2 ^ k - 1))) by (unfold is_u32; lia).
  rewrite ALIGN_mask by (done || unfold is_u32; lia). do 2 f_equal. lia.
Qed.

(** In the last aligned block it wraps to 0. *)
Lemma ALIGN_wraps x k : 0 <= k < 32 -> 2 ^ 32 - 2 ^ k < x < 2 ^ 32 -> ALIGN x (2 ^ k) = 0.
Proof.
  intros Hk Hx. assert (0 < 2 ^ k) as H0 by (apply Z.pow_pos_nonneg; lia). assert (2 ^ k < 2 ^ 32) as H1 by (apply Z.pow_lt_mono_r; lia). unfold ALIGN. rewrite (u32_small (2 ^ k - 1)) by (unfold is_u32; lia). rewrite ALIGN_mask by (done || apply u32_range).
  assert (u32 (x + (2 ^ k - 1)) = x + (2 ^ k - 1) - 2 ^ 32) as -> by (unfold u32; symmetry; apply (Z.mod_unique _ _ 1); lia). rewrite Z.div_small by lia. lia.
Qed.

Lemma ALIGN_least x k : 0 <= k < 32 -> 0 <= x <= 2 ^ 32 - 2 ^ k -> ALIGN x (2 ^ k) mod 2 ^ k = 0 /\ x <= ALIGN x (2 ^ k) <= 2 ^ 32 - 2 ^ k /\ forall b, x <= b -> b mod 2 ^ k = 0 -> ALIGN x (2 ^ k) <= b.
Proof.
  intros Hk Hx. rewrite ALIGN_pow2 by done. assert (0 < 2 ^ k) as H0 by (apply Z.pow_pos_nonneg; lia). set (a := 2 ^ k) in *. split; [apply Z.mod_mul; lia|].
  assert (forall b, x <= b -> b mod a = 0 -> (x + a - 1) / a * a <= b) as Hleast by (intros b Hb Hm; apply Z.div_exact in Hm; [|lia]; rewrite Hm, Z.mul_comm; apply Z.mul_le_mono_nonneg_l; [lia|]; apply Z.lt_succ_r, Z.div_lt_upper_bound; nia).
  split; [|done]. split; [pose proof (Z.div_mod (x + a - 1) a); pose proof (Z.mod_pos_bound (x + a - 1) a); nia|]. apply Hleast; [lia|]. subst a. replace (2 ^ 32 - 2 ^ k) with ((2 ^ (32 - k) - 1) * 2 ^ k) by (rewrite Z.mul_sub_distr_r, <- Z.pow_add_r by lia; f_equal; [f_equal; lia|lia]). apply Z.mod_mul. lia.
Qed.

Lemma room_iff size b e : 2 <= size < 2 ^ 32 -> is_u32 b -> is_u32 e -> room size b e = true <-> b + size - 1 <= e.
Proof.
  unfold is_u32. intros Hs Hb He. unfold room. rewrite (u32_small (size - 1)) by (unfold is_u32; lia). destruct (Z.ltb_spec b e); [|split; [done|lia]]. rewrite (u32_small (e - b)) by (unfold is_u32; lia). cbn [andb]. rewrite Z.leb_le. lia.
Qed.

(** One byte needs the room of two: the start of a gap has to be below its end. *)
Lemma room_one b e : is_u32 b -> is_u32 e -> room 1 b e = room 2 b e.
Proof.
  unfold is_u32. intros Hb He. unfold room. destruct (Z.ltb_spec b e); [|done]. rewrite (u32_small (e - b)) by (unfold is_u32; lia). change (u32 (1 - 1)) with 0. change (u32 (2 - 1)) with 1. cbn [andb]. rewrite (proj2 (Z.leb_le 0 _)), (proj2 (Z.leb_le 1 _)) by lia. done.
Qed.

Lemma trim_none size size' min max align b e : trim size min max align None b e = trim size' min max align None b e.
Proof. done. Qed.

Lemma trim_one min max align b e : is_u32 max -> is_u32 e -> let '(b', e') := trim 1 min max align None b e in room 1 b' e' = room 2 b' e'.
Proof. intros Hm He. cbn [trim]. apply room_one; [apply land_u32, u32_range|by destruct (max <? e)]. Qed.

Lemma find_gap_one min max align rs hi : is_u32 max -> is_u32 hi -> forall b, find_gap 1 min max align None rs hi b = find_gap 2 min max align None rs hi b.
Proof.
  intros Hm Hh. induction rs as [|q rs IH]; intros b; cbn [find_gap]; rewrite (trim_none 2 1).
  - pose proof (trim_one min max align b hi Hm Hh) as H. destruct (trim _ _ _ _ _ _ _). by rewrite H.
  - pose proof (trim_one min max align b (u32 (start q - 1)) Hm (u32_range _)) as H. destruct (trim _ _ _ _ _ _ _). by rewrite H, IH.
Qed.

Lemma first_gap_one r min max align rs : is_u32 max -> is_u32 (end_ r) -> first_gap r 1 min max align None rs = first_gap r 2 min max align None rs.
Proof. intros Hm He. unfold first_gap. destruct rs as [|q rs]; [by apply find_gap_one|]. destruct (start q =? 0); by apply find_gap_one. Qed.

(** The resources [rs] are in order between [lo] and [hi]. *)
Fixpoint ordered (lo : Z) (rs : list resource) (hi : Z) : Prop :=
  match rs with [] => True | r :: rs => lo <= start r <= end_ r /\ end_ r <= hi /\ ordered (end_ r + 1) rs hi end.

Lemma fit_ordered h lo ks hi rs : fit h lo ks hi -> Forall2 (fun k q => h !! k = Some q) ks rs -> ordered lo rs hi.
Proof.
  intros Hf Hrs. revert lo Hf. induction Hrs as [|k q ks rs Hq _ IH]; intros lo; cbn [fit ordered]; [done|]. intros (r & Hr & H1 & H2 & H3). rewrite Hq in Hr. injection Hr as <-. split; [done|]. split; [done|]. by apply IH.
Qed.

Lemma ordered_lower lo rs hi q : ordered lo rs hi -> q ∈ rs -> lo <= start q <= end_ q.
Proof.
  revert lo. induction rs as [|r rs IH]; intros lo H; [intros Hq; by apply elem_of_nil in Hq|]. destruct H as (H1 & H2 & H3). intros [->|Hq]%elem_of_cons; [done|]. pose proof (IH _ H3 Hq). lia.
Qed.

Section gap.
Context (size min max k hi : Z).
Context (Hsize : 2 <= size < 2 ^ 32) (Hk : 0 <= k < 32) (Hmin : 0 <= min <= 2 ^ 32 - 2 ^ k) (Hmax : is_u32 max) (Hhi : is_u32 hi).

(** A place for the new resource: aligned and between [min] and [max]. *)
Definition place (b : Z) : Prop := b mod 2 ^ k = 0 /\ min <= b /\ b + size - 1 <= max.
Definition clear (rs : list resource) (b : Z) : Prop := forall q, q ∈ rs -> end_ q < b \/ b + size - 1 < start q.

(** The gap from [b] to [e] has a place exactly if there is room after trimming. *)
Lemma trim_room b e : 0 <= b <= 2 ^ 32 - 2 ^ k -> is_u32 e -> let '(b', e') := trim size min max (2 ^ k) None b e in
  if room size b' e' then (place b' /\ b <= b' /\ b' + size - 1 <= e) /\ (forall x, place x -> b <= x -> b' <= x) else forall x, place x -> b <= x -> x + size - 1 <= e -> False.
Proof.
  intros Hb He. cbn [trim]. set (b0 := if b <? min then min else b). assert (b <= b0 /\ min <= b0 <= 2 ^ 32 - 2 ^ k /\ (b0 = b \/ b0 = min)) as Hb0 by (subst b0; destruct (Z.ltb_spec b min); lia). destruct (ALIGN_least b0 k Hk ltac:(lia)) as (Hmod & Hge & Hleast).
  set (e0 := if max <? e then max else e). assert (e0 <= max /\ e0 <= e /\ (e0 = e \/ e0 = max)) as He0 by (subst e0; destruct (Z.ltb_spec max e); lia). unfold is_u32 in *. assert (0 < 2 ^ k) by (apply Z.pow_pos_nonneg; lia). pose proof (room_iff size (ALIGN b0 (2 ^ k)) e0 Hsize ltac:(unfold is_u32; lia) ltac:(unfold is_u32; lia)) as Hroom. destruct (room size _ e0).
  - pose proof (proj1 Hroom eq_refl). split; [unfold place; lia|]. intros x (Hx1 & Hx2 & _) Hbx. apply Hleast; [lia|done].
  - intros x (Hx1 & Hx2 & Hx3) Hbx Hxe. specialize (Hleast x ltac:(lia) Hx1). enough (false = true) by done. apply Hroom. lia.
Qed.

Lemma find_gap_ok rs lo : ordered lo rs hi -> 0 <= lo <= 2 ^ 32 - 2 ^ k -> (forall q, q ∈ rs -> 1 <= start q /\ end_ q + 1 <= 2 ^ 32 - 2 ^ k) ->
  match find_gap size min max (2 ^ k) None rs hi lo with
  | Some b => (place b /\ lo <= b /\ b + size - 1 <= hi /\ clear rs b) /\ (forall x, place x -> lo <= x -> clear rs x -> b <= x)
  | None => forall b, place b -> lo <= b -> b + size - 1 <= hi -> clear rs b -> False
  end.
Proof.
  revert lo. induction rs as [|q rs IH]; intros lo Ho Hlo Hq; cbn [find_gap].
  - pose proof (trim_room lo hi Hlo Hhi) as H. destruct (trim _ _ _ _ _ _ _) as [b' e']. destruct (room size b' e'); [|intros b Hb H1 H2 _; by apply (H b)]. destruct H as ((H1 & H2 & H3) & H4). split; [|intros x Hx Hlx _; by apply H4]. split; [done|]. split; [done|]. split; [done|]. intros q Hin. by apply elem_of_nil in Hin.
  - destruct Ho as (Ho1 & Ho2 & Ho3). destruct (Hq q ltac:(by left)) as [Hq1 Hq2]. unfold is_u32 in Hhi. rewrite (u32_small (start q - 1)), (u32_small (end_ q + 1)) by (unfold is_u32; assert (0 < 2 ^ k) by (apply Z.pow_pos_nonneg; lia); lia). pose proof (trim_room lo (start q - 1) Hlo ltac:(unfold is_u32; lia)) as H. destruct (trim _ _ _ _ _ _ _) as [b' e']. destruct (room size b' e').
    + destruct H as ((H1 & H2 & H3) & H4). split; [|intros x Hx Hlx _; by apply H4]. split; [done|]. split; [done|]. split; [lia|]. intros p [->|Hp]%elem_of_cons; [lia|]. pose proof (ordered_lower _ _ _ _ Ho3 Hp). lia.
    + specialize (IH (end_ q + 1) Ho3 ltac:(lia) (fun p Hp => Hq p (list_elem_of_further _ _ _ Hp))). destruct (find_gap _ _ _ _ _ rs hi _) as [b|].
      * destruct IH as ((H1 & H2 & H3 & H4) & H5). split; [split; [done|]; split; [lia|]; split; [done|]; intros p [->|Hp]%elem_of_cons; [lia|by apply H4]|]. intros x Hx Hlx Hcx.
        destruct (Z.le_gt_cases (start q) (x + size - 1)) as [Hge|Hlt]; [|exfalso; apply (H x); [done|done|lia]]. destruct (Hcx q ltac:(by left)); [|lia]. apply H5; [done|lia|]. intros p Hp. apply Hcx. by right.
      * intros b Hb H1 H2 H3. destruct (H3 q ltac:(by left)); [|apply (H b); [done|done|lia]]. apply (IH b); [done|lia|done|]. intros p Hp. apply H3. by right.
Qed.

Lemma first_gap_ok r rs : hi = end_ r -> ordered (start r) rs hi -> 0 <= start r <= 2 ^ 32 - 2 ^ k -> (forall q, q ∈ rs -> end_ q + 1 <= 2 ^ 32 - 2 ^ k) ->
  match first_gap r size min max (2 ^ k) None rs with
  | Some b => (place b /\ start r <= b /\ b + size - 1 <= hi /\ clear rs b) /\ (forall x, place x -> start r <= x -> clear rs x -> b <= x)
  | None => forall b, place b -> start r <= b -> b + size - 1 <= hi -> clear rs b -> False
  end.
Proof.
  intros Ehi Ho Hlo Hq. assert (0 < 2 ^ k) as H0 by (apply Z.pow_pos_nonneg; lia). unfold first_gap. rewrite <- Ehi. destruct rs as [|q rs]; [apply find_gap_ok; [done|done|]; intros q Hin; by apply elem_of_nil in Hin|]. destruct (Z.eqb_spec (start q) 0) as [E|E].
  - destruct Ho as (Ho1 & Ho2 & Ho3). specialize (Hq q ltac:(by left)) as Hq0. rewrite (u32_small (end_ q + 1)) by (unfold is_u32; lia). pose proof (find_gap_ok rs (end_ q + 1) Ho3 ltac:(lia)) as H. destruct (find_gap _ _ _ _ _ rs hi _) as [b|].
    + destruct H as [(H1 & H2 & H3 & H4) H5]; [intros p Hp; pose proof (ordered_lower _ _ _ _ Ho3 Hp); specialize (Hq p ltac:(by right)); lia|]. split; [split; [done|]; split; [lia|]; split; [done|]; intros p [->|Hp]%elem_of_cons; [lia|by apply H4]|]. intros x Hx Hlx Hcx. destruct (Hcx q ltac:(by left)); [|lia]. apply H5; [done|lia|]. intros p Hp. apply Hcx. by right.
    + intros b Hb H1 H2 H3. destruct (H3 q ltac:(by left)); [|lia]. apply (H (fun p Hp => ltac:(pose proof (ordered_lower _ _ _ _ Ho3 Hp); specialize (Hq p ltac:(by right)); lia)) b); [done|lia|done|]. intros p Hp. apply H3. by right.
  - apply find_gap_ok; [done|done|]. intros p Hp. specialize (Hq p Hp). destruct Ho as (Ho1 & Ho2 & Ho3). apply elem_of_cons in Hp as [->|Hp]; [lia|]. pose proof (ordered_lower _ _ _ _ Ho3 Hp). lia.
Qed.

End gap.

End ResourceAlloc.
