(* ===== verification/ResourceAdjust.v ===== *)
(** * Resource trees: [adjust_resource] *)

From S2P Require Import Prelude Resource ResourceTree ResourceLinks ResourceOps ResourceRequest ResourceInsert ResourceDescend.

Module ResourceAdjust.
Import Resource ResourceTree ResourceLinks ResourceOps ResourceRequest ResourceInsert ResourceDescend.

Section adjust.
Context (F : forest) (s : state) (W : wf F s).
Context (par res : Z) (ks1 ks2 kk : list Z) (p r : resource).
Context (Hpar : F !! par = Some (ks1 ++ res :: ks2)) (Hres : F !! res = Some kk) (Hp : heap s !! par = Some p) (Hr : heap s !! res = Some r).
Context (b e : Z) (Hb : is_u32 b) (He : is_u32 e) (Hbe : b <= e).

(** The new range is inside the parent, around the children and between the siblings. *)
Definition adjustable : Prop :=
  (start p <= b /\ e <= end_ p) /\ (forall k q, k ∈ kk -> heap s !! k = Some q -> b <= start q /\ end_ q <= e) /\
  (forall k q, k ∈ ks1 -> heap s !! k = Some q -> end_ q < b) /\ (forall k q, k ∈ ks2 -> heap s !! k = Some q -> e < start q).

Definition adjusted : state := mk_state (alter (set_end e) res (alter (set_start b) res (heap s))) (supply s).

Lemma adjust_kid : kid F res par.
Proof. eexists. split; [exact Hpar|]. apply elem_of_app. right. by left. Qed.

Lemma adjusted_same {A} (f : resource -> A) k : (forall x, f (set_end e x) = f x) -> (forall x, f (set_start b x) = f x) -> same f (heap s) (heap adjusted) k.
Proof. intros H1 H2. cbn [heap adjusted]. eapply same_trans; [|by apply same_alter]. by apply same_alter. Qed.

Lemma adjusted_other k : k <> res -> heap adjusted !! k = heap s !! k.
Proof. intros H. cbn [heap adjusted]. by rewrite !lookup_alter_ne. Qed.

Lemma adjusted_res : heap adjusted !! res = Some (set_end e (set_start b r)).
Proof. cbn [heap adjusted]. by rewrite !lookup_alter_eq, Hr. Qed.

Lemma adjusted_seg a v ks w : seg (heap s) a v ks w -> seg (heap adjusted) a v ks w.
Proof. apply seg_mono. intros k _. split; by apply adjusted_same. Qed.

Lemma adjusted_fit lo ks hi : res ∉ ks -> fit (heap s) lo ks hi -> fit (heap adjusted) lo ks hi.
Proof. intros H. apply fit_mono. intros k Hk. unfold same. rewrite adjusted_other; [done|]. by intros ->. Qed.

Lemma adjusted_wf : adjustable -> wf F adjusted.
Proof.
  intros ([Hin1 Hin2] & Hkk & Hlo & Hhi). pose proof adjust_kid as Hk. assert (par <> res) as Hne by (intros E; apply (no_cycle F s W _ _ Hk); rewrite E; apply rtc_refl).
  assert (forall k, is_Some (heap adjusted !! k) <-> is_Some (heap s !! k)) as Hd by (intros k; apply (same_some child); by apply adjusted_same). split; cbn [supply adjusted]; try apply W.
  - intros a. rewrite Hd. apply (wf_dom F s W).
  - intros a ks Ha. destruct (wf_node F s W a ks Ha) as (q & [H1 H2 H3 H4]). destruct (decide (a = res)) as [->|Har]; [|destruct (decide (a = par)) as [->|Hap]].
    + rewrite Hres in Ha. injection Ha as <-. rewrite Hr in H1. injection H1 as <-. exists (set_end e (set_start b r)). split; [apply adjusted_res|done|by apply adjusted_seg|]. cbn [start end_ set_end set_start].
      apply adjusted_fit; [intros Hi; apply (no_cycle F s W res res); [by exists kk|apply rtc_refl]|]. by apply (fit_bounds _ _ _ _ _ _ H4).
    + rewrite Hpar in Ha. injection Ha as <-. rewrite Hp in H1. injection H1 as <-. exists p. split; [by rewrite adjusted_other|done|by apply adjusted_seg|]. pose proof (fit_nodup _ _ _ _ H4) as (_ & Hn1 & [Hn2 _]%NoDup_cons)%NoDup_app. assert (res ∉ ks1) as Hn0 by (intros Hi; apply (Hn1 _ Hi); by left).
      apply fit_app in H4 as (H4 & m & _ & _ & x & Hx & _ & _ & H5). apply fit_app. split; [by apply adjusted_fit|]. exists b. split; [done|]. split; [intros k q Hki Hq; apply (Hlo k); [done|]; rewrite adjusted_other in Hq; [done|]; by intros ->|]. eexists. split; [apply adjusted_res|]. cbn [start end_ set_end set_start]. split; [lia|]. split; [done|].
      apply adjusted_fit; [done|]. apply (fit_bounds _ _ _ _ _ _ H5). intros k q Hki Hq. specialize (Hhi k q Hki Hq). destruct (fit_in _ _ _ _ _ H5 Hki) as (q' & Hq' & ? & ?). rewrite Hq in Hq'. injection Hq' as <-. lia.
    + exists q. split; [by rewrite adjusted_other|done|by apply adjusted_seg|]. apply adjusted_fit; [|done]. intros Hi. apply Hap. apply (kid_unique F s W res); [by exists ks|done].
  - destruct (wf_supply F s W) as [H1 H2]. split; [done|]. eapply Forall_impl; [exact H2|]. intros a Ha. cbn beta in *. apply eq_None_not_Some. rewrite Hd. by apply eq_None_not_Some.
Qed.

(** ** The checks *)

Lemma children_fit_run fuel k1 k2 : kk = k1 ++ k2 -> (length k2 < fuel)%nat -> exists ok : bool, children_fit fuel (first_of k2) b e s = Some (ok, s) /\ (ok = true <-> forall k q, k ∈ k2 -> heap s !! k = Some q -> b <= start q /\ end_ q <= e).
Proof.
  revert k1 fuel. induction k2 as [|k k2 IH]; intros k1 [|fuel] Hkk Hf; cbn [length] in Hf; try lia; cbn [children_fit first_of]; [exists true; split; [done|]; split; [intros _ k q Hk; by apply elem_of_nil in Hk|done]|].
  assert (kid F k res) as Hk by (exists kk; split; [done|]; rewrite Hkk; apply elem_of_app; right; by left). destruct (kid_here F s W _ _ Hk) as (q & _ & _ & Hq & Hk0). rewrite (proj2 (Z.eqb_neq k NULL) Hk0). erewrite bind_run by (by apply res_ld_run).
  destruct (wf_node F s W _ _ Hres) as (x & [_ _ Hs _]). rewrite Hkk in Hs. apply seg_split in Hs as (q' & Hq' & _ & Es & _). rewrite Hq in Hq'. injection Hq' as <-. destruct ((start q <? b) || (e <? end_ q)) eqn:E.
  - exists false. split; [done|]. split; [done|]. intros H. destruct (H k q ltac:(by left) Hq). lia.
  - rewrite Es. destruct (IH (k1 ++ [k]) fuel) as (ok & Eok & Hok); [by rewrite <- app_assoc|lia|]. exists ok. split; [done|]. rewrite Hok. split; [intros H j qj [->|Hj]%elem_of_cons Hqj; [rewrite Hq in Hqj; injection Hqj as <-; lia|by apply (H j)]|intros H j qj Hj; apply H; by right].
Qed.

(** Only the neighbours are compared; the order does the rest. *)
Lemma last_before z q : last ks1 = Some z -> heap s !! z = Some q -> (end_ q < b <-> forall k x, k ∈ ks1 -> heap s !! k = Some x -> end_ x < b).
Proof.
  intros Hz Hq. split; [|intros H; apply (H z q); [by apply last_Some_elem_of|done]]. intros Hlt k x Hk Hx. destruct (wf_node F s W _ _ Hpar) as (y & [_ _ _ Hf]). apply fit_app in Hf as (Hf & _). revert Hf Hz Hk. clear - Hq Hlt Hx. destruct ks1 as [|j l _] using rev_ind; [done|]. rewrite last_snoc. intros Hf [= ->] [Hk|[->|Hk%elem_of_nil]%elem_of_cons]%elem_of_app; [|congruence|done].
  apply fit_app in Hf as (_ & m & _ & Hm & q' & Hq' & H1 & _). rewrite Hq in Hq'. injection Hq' as <-. specialize (Hm k x Hk Hx). lia.
Qed.

Lemma first_after q : forall k l, ks2 = k :: l -> heap s !! k = Some q -> (e < start q <-> forall j x, j ∈ ks2 -> heap s !! j = Some x -> e < start x).
Proof.
  intros k l E Hq. split; [|intros H; apply (H k q); [rewrite E; by left|done]]. destruct (wf_node F s W _ _ Hpar) as (y & [_ _ _ Hf]). apply fit_app in Hf as (_ & m & _ & _ & x & Hx & _ & _ & Hf). rewrite E in Hf |- *. destruct Hf as (q' & Hq' & H1 & _ & Hf). rewrite Hq in Hq'. injection Hq' as <-.
  intros Hlt j z [->|Hj]%elem_of_cons Hz; [congruence|]. destruct (fit_in _ _ _ _ _ Hf Hj) as (z' & Hz' & ? & _). rewrite Hz in Hz'. injection Hz' as <-. lia.
Qed.

Lemma adjust_links : parent r = par /\ sibling r = first_of ks2 /\ seg (heap s) par (child p) ks1 res /\ child r = first_of kk.
Proof.
  destruct (wf_node F s W _ _ Hpar) as (p' & [Hp' _ Hs _]). rewrite Hp in Hp'. injection Hp' as <-. apply seg_split in Hs as (r' & Hr' & H1 & H2 & H3 & _). rewrite Hr in Hr'. injection Hr' as <-. split; [done|]. split; [done|]. split; [done|].
  destruct (wf_node F s W _ _ Hres) as (r' & [Hr' _ Hs _]). rewrite Hr in Hr'. injection Hr' as <-. by apply seg_first in Hs.
Qed.

(** The check of the next sibling. *)
Lemma adjust_next : exists bad : bool, (if sibling r =? NULL then mret false else n ← ld (sibling r); mret (start n <=? e)) s = Some (bad, s) /\ (bad = false <-> forall k q, k ∈ ks2 -> heap s !! k = Some q -> e < start q).
Proof.
  destruct adjust_links as (_ & Es & _). rewrite Es. pose proof first_after as Hfirst. pose proof Hpar as Hpar'. destruct ks2 as [|k l] eqn:E; cbn [first_of]; [exists false; split; [done|]; split; [intros _ k q Hk; by apply elem_of_nil in Hk|done]|].
  assert (kid F k par) as Hk by (eexists; split; [exact Hpar'|]; apply elem_of_app; right; right; by left). destruct (kid_here F s W _ _ Hk) as (q & _ & _ & Hq & Hk0). rewrite (proj2 (Z.eqb_neq k NULL) Hk0). exists (start q <=? e). split; [erewrite bind_run by (by apply res_ld_run); done|]. rewrite <- (Hfirst q k l eq_refl Hq). lia.
Qed.

(** The check of the previous sibling. *)
Lemma adjust_prev fuel : (length ks1 <= fuel)%nat -> exists bad : bool, (if child p =? res then mret false else prev ← previous fuel (child p) res; t ← ld prev; mret (b <=? end_ t)) s = Some (bad, s) /\ (bad = false <-> forall k q, k ∈ ks1 -> heap s !! k = Some q -> end_ q < b).
Proof.
  intros Hf. destruct adjust_links as (_ & _ & Hs & _). pose proof last_before as Hlast. pose proof (kids_nodup F s W _ _ Hpar) as (_ & Hnd & _)%NoDup_app. assert (res ∉ ks1) as Hn by (intros Hi; apply (Hnd _ Hi); by left).
  assert (forall k, k ∈ ks1 -> exists q, heap s !! k = Some q /\ k <> NULL) as Hk by (intros k Hk; destruct (kid_here F s W k par) as (q & _ & _ & Hq & H0); [eexists; split; [exact Hpar|]; apply elem_of_app; by left|by exists q]).
  destruct (last ks1) as [z|] eqn:E.
  - assert (child p <> res) as Hc by (destruct ks1 as [|k l]; [done|]; destruct Hs as [-> _]; intros ->; apply Hn; by left). rewrite (proj2 (Z.eqb_neq _ _) Hc). destruct (Hk z) as (q & Hq & Hz0); [by apply last_Some_elem_of|]. exists (b <=? end_ q). split.
    + erewrite bind_run by (apply (previous_run fuel par (child p) ks1 res z s Hs E Hn); [intros k Hki; by destruct (Hk k Hki) as (_ & _ & ?)|done]). erewrite bind_run by (by apply res_ld_run). done.
    + rewrite <- (Hlast z q eq_refl Hq). lia.
  - apply last_None in E. rewrite E in Hs |- *. cbn [seg] in Hs. rewrite Hs, Z.eqb_refl. exists false. split; [done|]. split; [intros _ k q Hki; by apply elem_of_nil in Hki|done].
Qed.

Lemma adjust_ok size : e = u32 (b + size - 1) -> (adjustable /\ adjust_resource res b size s = Some (0, adjusted)) \/ (~ adjustable /\ adjust_resource res b size s = Some (- EBUSY, s)).
Proof.
  intros Ee. pose proof adjust_kid as Hk. assert (res <> NULL) as Hr0 by (apply (wf_nonnull F s W); by eexists). assert (par <> NULL) as Hp0 by (apply (wf_nonnull F s W); by eexists). destruct adjust_links as (Epar & _ & _ & Ec). pose proof (kids_bound F s W _ _ Hpar) as Hl1. rewrite length_app in Hl1. pose proof (kids_bound F s W _ _ Hres) as Hl2.
  unfold adjust_resource, adjustable. erewrite bind_run by (by apply res_ld_run). rewrite <- Ee, Epar. erewrite bind_run by (by apply res_ld_run). destruct ((b <? start p) || (end_ p <? e)) eqn:Ein; [right; split; [intros [? _]; lia|done]|].
  erewrite bind_run by reflexivity. rewrite Ec. destruct (children_fit_run (S (base.size (heap s))) [] kk eq_refl ltac:(lia)) as (ok & Eok & Hok). erewrite bind_run by exact Eok. destruct ok; cbn [negb]; [|right; split; [intros (_ & H & _); by apply Hok in H|done]].
  destruct adjust_next as (bad & Ebad & Hbad). erewrite bind_run by exact Ebad. destruct bad; [right; split; [intros (_ & _ & _ & H); by apply Hbad in H|done]|].
  destruct (adjust_prev (S (base.size (heap s))) ltac:(lia)) as (bad' & Ebad' & Hbad'). erewrite bind_run by exact Ebad'. destruct bad'; [right; split; [intros (_ & _ & H & _); by apply Hbad' in H|done]|].
  left. split; [split; [lia|]; split; [by apply Hok|]; split; [by apply Hbad'|by apply Hbad]|]. erewrite bind_run by (apply modify_run; [done|by exists r]). erewrite bind_run by (apply modify_at; [done|rewrite lookup_alter_is_Some; by exists r]). done.
Qed.

End adjust.

End ResourceAdjust.
