(* ===== verification/ResourceSystem.v ===== *)
(** * Resource trees: all operations as one system

    The calls of [kernel/resource.c] with what they expect of their callers, and the
    states they reach.  [resource_lock] makes each call one step. *)

From S2P Require Import Prelude Resource ResourceTree ResourceLinks ResourceOps ResourceRequest ResourceInsert ResourceDescend ResourceRegion ResourceRelease ResourceAlloc ResourceAdjust.

Module ResourceSystem.
Import Resource ResourceTree ResourceLinks ResourceOps ResourceRequest ResourceInsert ResourceDescend ResourceRegion ResourceRelease ResourceAlloc ResourceAdjust.

Inductive op :=
| Request (root new : Z)
| Release (old : Z)
| Allocate (root new size min max align : Z) (alignf : option align_fn)
| Insert (par new : Z)
| Adjust (res start' size : Z)
| RequestRegion (par start' n name' : Z)
| CheckRegion (par start' n name' : Z)
| ReleaseRegion (par start' n : Z).

Definition run (o : op) : ST state Z :=
  match o with
  | Request root new => request_resource root new
  | Release old => release_resource old
  | Allocate root new size min max align alignf => allocate_resource root new size min max align alignf
  | Insert par new => insert_resource par new
  | Adjust res start' size => adjust_resource res start' size
  | RequestRegion par start' n name' => __request_region par start' n name'
  | CheckRegion par start' n name' => __check_region par start' n name'
  | ReleaseRegion par start' n => (b ← __release_region par start' n; mret (if (b : bool) then 1 else 0))
  end.

(** What the callers have to respect: resources exist, a resource that is given to
    the tree is not in it yet, and ranges are not empty. *)
Definition allowed (F : forest) (o : op) : Prop :=
  match o with
  | Request root new => is_Some (F !! root) /\ is_Some (F !! new) /\ detached F new /\ ~ below F root new
  | Release old => exists par, kid F old par
  | Allocate root new size min max align alignf => is_Some (F !! root) /\ F !! new = Some [] /\ detached F new /\ root <> new /\ is_u32 max /\ (forall f b e, alignf = Some f -> is_u32 b -> is_u32 e -> is_u32 (f b e size align).1 /\ is_u32 (f b e size align).2)
  | Insert par new => is_Some (F !! par) /\ F !! new = Some [] /\ detached F new /\ par <> new
  | Adjust res start' size => (exists par, kid F res par) /\ is_u32 start' /\ 1 <= size /\ start' + size <= 2 ^ 32
  | RequestRegion par start' n _ | CheckRegion par start' n _ => is_Some (F !! par) /\ is_u32 start'
  | ReleaseRegion par start' n => is_Some (F !! par) /\ is_u32 start' /\ 1 <= n /\ start' + n <= 2 ^ 32
  end.

Definition step (s s' : state) : Prop := exists F o v, wf F s /\ allowed F o /\ run o s = Some (v, s').

(** ** Every call returns and keeps the tree well-formed *)

Section ops.
Context (F : forest) (s : state) (W : wf F s).

Definition returns (m : ST state Z) : Prop := exists v F' s', m s = Some (v, s') /\ wf F' s'.

Lemma wf_here a : is_Some (F !! a) -> exists ks r, F !! a = Some ks /\ heap s !! a = Some r.
Proof. intros [ks H]. destruct (wf_node F s W a ks H) as (r & N). exists ks, r. split; [done|apply N]. Qed.

Lemma kid_split y x : kid F y x -> exists ks1 ks2, F !! x = Some (ks1 ++ y :: ks2).
Proof. intros (ks & Hx & Hy). apply list_elem_of_split in Hy as (ks1 & ks2 & ->). by exists ks1, ks2. Qed.

Lemma kids_here a ks : F !! a = Some ks -> exists rs, Forall2 (fun k q => heap s !! k = Some q) ks rs.
Proof.
  intros H. assert (forall k, k ∈ ks -> is_Some (heap s !! k)) as Hk by (intros k Hk; apply (wf_dom F s W), (wf_kid F s W k a); by exists ks). clear H. induction ks as [|k ks IH]; [by exists []|]. destruct IH as [rs Hrs]; [intros j Hj; apply Hk; by right|]. destruct (Hk k) as [q Hq]; [by left|]. exists (q :: rs). by constructor.
Qed.

Lemma request_returns root new : allowed F (Request root new) -> returns (request_resource root new).
Proof.
  intros (H1 & H2 & Hd & Hnb). destruct (wf_here root H1) as (ks & r & Hks & Hr). destruct (wf_here new H2) as (nk & n & Hnk & Hn). unfold returns, request_resource.
  pose proof (request_resource_ok F s W root new ks nk r n Hks Hnk Hd Hnb Hr Hn) as R. remember (__request_resource root new s) as o eqn:Eo. destruct R; (eexists _, _, _; split; [erewrite bind_run by exact (eq_sym Eo); reflexivity|]); done.
Qed.

Lemma release_returns old : allowed F (Release old) -> returns (release_resource old).
Proof.
  intros (par & Hk). destruct (kid_split _ _ Hk) as (ks1 & ks2 & H). destruct (release_ok F s par old ks1 ks2 W H) as (l1 & l2 & E & R). eexists _, _, _. split; [exact R|]. by apply (released_ok F s W par old (l1 ++ old :: l2) ltac:(by rewrite <- E)).
Qed.

Lemma allocate_returns root new size min max align alignf : allowed F (Allocate root new size min max align alignf) -> returns (allocate_resource root new size min max align alignf).
Proof.
  intros (H1 & Hnew & Hd & Hne & Hmax & Hal). destruct (wf_here root H1) as (ks & r & Hks & Hr). destruct (wf_here new ltac:(by eexists)) as (nk & n & _ & Hn). destruct (kids_here root ks Hks) as [rs Hrs].
  pose proof (allocate_ok F s W root new ks r Hks Hr Hnew Hd Hne size min max align alignf Hmax Hal rs n Hrs Hn) as R. unfold returns. destruct R as [b ks1 ks2 s' Hg Ek Hi Hb Ha W' D|b e Hb He _]; (eexists _, _, _; split; [reflexivity|]); [exact W'|]. by apply (wf_rerange F s new n).
Qed.

Lemma insert_returns par new : allowed F (Insert par new) -> returns (insert_resource par new).
Proof.
  intros (H1 & Hnew & Hd & Hne). destruct (wf_here par H1) as (ks & r & Hks & Hr). destruct (wf_here new ltac:(by eexists)) as (nk & n & _ & Hn). destruct (insert_resource_ok F s W new [] n Hnew Hd Hn par ks r eq_refl Hks Hne Hr) as [(_ & _ & F' & s' & E & W' & _)|[_ E]]; eexists _, _, _; split; [exact E|exact W'|exact E|exact W].
Qed.

Lemma adjust_returns res start' size : allowed F (Adjust res start' size) -> returns (adjust_resource res start' size).
Proof.
  intros ((par & Hk) & Hb & Hs & Hw). destruct (kid_split _ _ Hk) as (ks1 & ks2 & Hpar). destruct (wf_here par ltac:(by eexists)) as (_ & p & _ & Hp). destruct (wf_here res (wf_kid F s W _ _ Hk)) as (kk & r & Hkk & Hr). unfold is_u32 in Hb. assert (u32 (start' + size - 1) = start' + size - 1) as E by (apply u32_small; unfold is_u32; lia).
  destruct (adjust_ok F s W par res ks1 ks2 kk p r Hpar Hkk Hp Hr start' (u32 (start' + size - 1)) size eq_refl) as [[Ha R]|[_ R]]; eexists _, _, _; (split; [exact R|]); [|exact W]. apply (adjusted_wf F s W par res ks1 ks2 kk p r Hpar Hkk Hp Hr start' _ Hb (u32_range _) ltac:(rewrite E; lia) Ha).
Qed.

Lemma request_region_returns par start' n name' : allowed F (RequestRegion par start' n name') -> returns (__request_region par start' n name').
Proof.
  intros [H1 Hu]. destruct (wf_here par H1) as (ks & r & Hks & Hr). unfold returns. destruct (supply s) as [|a l] eqn:Es; [exists NULL, F, s; split; [unfold __request_region, kzalloc; cbn; unfold mbind, ST_bind; by rewrite Es|done]|]. destruct (decide (a = NULL)) as [->|Ha].
  - exists NULL, F, (mk_state (heap s) l). split; [|by apply (wf_supply_tail F s W NULL l Es)]. unfold __request_region. erewrite bind_run by (unfold kzalloc; rewrite Es; reflexivity). done.
  - destruct (request_region_ok F s W par a ks l r Hks Hr Es Ha start' n name' Hu) as [(_ & _ & p & ks1 & ks2 & s' & _ & _ & E & W' & _)|[_ E]]; eexists _, _, _; (split; [exact E|]); [exact W'|by apply (wf_supply_tail F s W a l Es)].
Qed.

Lemma release_region_returns par start' n : allowed F (ReleaseRegion par start' n) -> returns (run (ReleaseRegion par start' n)).
Proof.
  intros (H1 & Hu & Hn & Hw). destruct (wf_here par H1) as (ks & r & Hks & Hr). unfold is_u32 in Hu. assert (u32 (start' + n - 1) = start' + n - 1) as E by (apply u32_small; unfold is_u32; lia).
  pose proof (release_region_loop_ok F s W start' (u32 (start' + n - 1)) ltac:(rewrite E; lia) (S (base.size (heap s))) [] par [] ks Hks) as R. unfold returns. cbn [run]. remember (release_region_loop (S (base.size (heap s))) start' (u32 (start' + n - 1)) (loc par []) s) as o eqn:Eo.
  destruct R as [p k l1 l2 Ht Hp|_]; [split; [apply NoDup_nil_2|]; split; intros y Hy; by apply elem_of_nil in Hy|intros k q Hk; by apply elem_of_nil in Hk|cbn [length]; lia| |];
    (eexists _, _, _; split; [unfold __release_region; erewrite bind_run by (erewrite bind_run by reflexivity; exact (eq_sym Eo)); reflexivity|]); [by apply (freed_wf F s W)|exact W].
Qed.

(** ** A region that is released is gone *)

Section regions.
Context (a : Z) (l : list Z) (Hs : supply s = a :: l) (n : resource).

(** A region that was linked after [ks1] is unlinked again. *)
Lemma forest_restored p ks1 ks2 l1 l2 : F !! p = Some (ks1 ++ ks2) -> NoDup (ks1 ++ a :: ks2) -> ks1 ++ a :: ks2 = l1 ++ a :: l2 -> delete a (unlinked (attached (fresh_forest F a) p a ks1 ks2) p l1 l2) = F.
Proof.
  intros Hp Hnd E. pose proof Hnd as (_ & Hn1 & _)%NoDup_app. rewrite E in Hnd. apply NoDup_app in Hnd as (_ & Hn2 & _). apply pivot_unique in E as [<- <-]; [|intros Hi; apply (Hn1 _ Hi); by left|intros Hi; apply (Hn2 _ Hi); by left].
  destruct (fresh_here F s W a l Hs) as [_ Ha]. unfold unlinked, attached, fresh_forest. rewrite insert_insert_eq. apply map_eq. intros x. destruct (decide (x = a)) as [->|Hxa]; [by rewrite lookup_delete_eq|]. rewrite lookup_delete_ne by done. destruct (decide (x = p)) as [->|Hxp]; [by rewrite lookup_insert_eq|by rewrite !lookup_insert_ne].
Qed.

(** The other resources have their data. *)
Lemma data_restored s1 h : same_data (fresh_state s a l n) s1 -> (forall b, b <> a -> same core (heap s1) h b) -> h !! a = None -> same_data (mk_state (heap s) l) (mk_state h (supply s1)).
Proof.
  intros [Es D] Hh Ha. split; [done|]. intros b. cbn [heap]. destruct (decide (b = a)) as [->|Hb]; [unfold same; rewrite Ha, (proj1 (fresh_here F s W a l Hs)); done|].
  eapply same_trans; [|by apply Hh]. eapply same_trans; [|apply D]. unfold same. cbn [heap fresh_state]. by rewrite lookup_insert_ne.
Qed.

End regions.

Lemma check_region_ok par a ks l r start' n name' : F !! par = Some ks -> heap s !! par = Some r -> supply s = a :: l -> a <> NULL -> is_u32 start' ->
  (inside (region_of start' n name') r /\ free_below F s (region_of start' n name') par /\ exists s', __check_region par start' n name' s = Some (0, s') /\ wf F s' /\ same_data (mk_state (heap s) l) s') \/
  (~ (inside (region_of start' n name') r /\ free_below F s (region_of start' n name') par) /\ __check_region par start' n name' s = Some (- EBUSY, mk_state (heap s) l)).
Proof.
  intros Hks Hr Es Ha Hu. unfold __check_region. destruct (request_region_ok F s W par a ks l r Hks Hr Es Ha start' n name' Hu) as [(Hi & Hf & p & ks1 & ks2 & s1 & Hp & Hpk & E & W' & D)|[Hno E]]; [left|right; split; [done|]; erewrite bind_run by exact E; done].
  split; [done|]. split; [done|]. assert (attached (fresh_forest F a) p a ks1 ks2 !! p = Some (ks1 ++ a :: ks2)) as Hp' by apply lookup_insert_eq. destruct (release_ok _ s1 p a ks1 ks2 W' Hp') as (l1 & l2 & El & R). destruct (released_ok _ s1 W' p a (ks1 ++ a :: ks2) Hp' l1 l2 El) as [W2 D2].
  eexists. split; [erewrite bind_run by exact E; rewrite (proj2 (Z.eqb_neq a NULL) Ha); erewrite bind_run by exact R; erewrite bind_run by reflexivity; reflexivity|]. split.
  - pose proof (forest_restored a l Es p ks1 ks2 l1 l2 Hpk (kids_nodup _ _ W' _ _ Hp') El) as EF. rewrite <- EF at 1. apply (wf_kfree _ _ a W2). rewrite El in Hp'. by apply (detach_detached _ s1 W' p a l1 l2).
  - apply (data_restored a l Es (region_of start' n name') s1 _ D); [|apply lookup_delete_eq]. intros b Hb. eapply same_trans; [apply D2|]. unfold same. by rewrite lookup_delete_ne.
Qed.

Lemma check_region_returns par start' n name' : allowed F (CheckRegion par start' n name') -> returns (__check_region par start' n name').
Proof.
  intros [H1 Hu]. destruct (wf_here par H1) as (ks & r & Hks & Hr). unfold returns. destruct (supply s) as [|a l] eqn:Es.
  - exists (- EBUSY), F, s. split; [|done]. unfold __check_region, __request_region. erewrite bind_run by (erewrite bind_run by (unfold kzalloc; rewrite Es; reflexivity); reflexivity). done.
  - destruct (decide (a = NULL)) as [->|Ha].
    + exists (- EBUSY), F, (mk_state (heap s) l). split; [|by apply (wf_supply_tail F s W NULL l Es)]. unfold __check_region, __request_region. erewrite bind_run by (erewrite bind_run by (unfold kzalloc; rewrite Es; reflexivity); reflexivity). done.
    + destruct (check_region_ok par a ks l r start' n name' Hks Hr Es Ha Hu) as [(_ & _ & s' & E & W' & _)|[_ E]]; eexists _, _, _; (split; [exact E|]); [exact W'|by apply (wf_supply_tail F s W a l Es)].
Qed.

Lemma run_returns o : allowed F o -> returns (run o).
Proof.
  destruct o; intros H; [by apply request_returns|by apply release_returns|by apply allocate_returns|by apply insert_returns|by apply adjust_returns|by apply request_region_returns|by apply check_region_returns|by apply release_region_returns].
Qed.

End ops.

Lemma step_wf s s' : step s s' -> exists F, wf F s'.
Proof. intros (F & o & v & W & Ha & E). destruct (run_returns F s W o Ha) as (v' & F' & s2 & E2 & W2). rewrite E in E2. injection E2 as <- <-. by exists F'. Qed.

Lemma steps_wf s s' : rtc step s s' -> (exists F, wf F s) -> exists F, wf F s'.
Proof. induction 1 as [|s s1 s' H _ IH]; [done|]. intros _. apply IH. by eapply step_wf. Qed.

(** Two resources below a root are nested or have no address in common. *)
Lemma tree_laminar F s root x y q r : wf F s -> properly F x root -> properly F y root -> heap s !! x = Some q -> heap s !! y = Some r -> below F x y \/ below F y x \/ apart q r.
Proof.
  intros W. induction (wf_acc F s W root) as [root _ IH]. intros (j & Hj & Hx) (j' & Hj' & Hy) Hq Hr. destruct (decide (j = j')) as [<-|Hne].
  - unfold below in Hx, Hy. pose proof (rtc_inv _ _ Hx) as [<-|(c & Hc & Hx')]; [right; left; exact Hy|]. pose proof (rtc_inv _ _ Hy) as [<-|(c' & Hc' & Hy')]; [left; exact Hx|]. apply (IH j Hj); [by exists c|by exists c'|done|done].
  - right; right. destruct (kid_here F s W _ _ Hj) as (qj & _ & _ & Hqj & _). destruct (kid_here F s W _ _ Hj') as (qj' & _ & _ & Hqj' & _). pose proof (below_inside F s W _ _ _ _ _ Hj Hx Hq Hqj). pose proof (below_inside F s W _ _ _ _ _ Hj' Hy Hr Hqj').
    destruct Hj' as (ks & Hroot & Hk'). pose proof Hk' as (l1 & l2 & ->)%list_elem_of_split. destruct Hj as (ks & Hroot' & Hk). rewrite Hroot in Hroot'. injection Hroot' as <-. pose proof (siblings_apart F s W _ _ _ _ _ _ _ Hroot Hk Hne Hqj Hqj'). unfold apart, inside in *. lia.
Qed.

End ResourceSystem.
