(* ===== verification/ResourceShow.v ===== *)
(** * Resource trees: [/proc/iomem] shows every resource once, parents first *)

From S2P Require Import Prelude Resource ResourceTree ResourceLinks ResourceOps ResourceRequest ResourceDescend.

Module ResourceShow.
Import Resource ResourceTree ResourceLinks ResourceOps ResourceRequest ResourceDescend.

(** The resources [l] in the trees [ks], parents first. *)
Inductive preorder (F : forest) : list Z -> list Z -> Prop :=
| PO_nil : preorder F [] []
| PO_cons k kk ks l1 l2 : F !! k = Some kk -> preorder F kk l1 -> preorder F ks l2 -> preorder F (k :: ks) (k :: l1 ++ l2).

Section show.
Context (F : forest) (s : state) (W : wf F s).

Lemma preorder_exists x ks : F !! x = Some ks -> exists l, preorder F ks l.
Proof.
  revert ks. induction (wf_acc F s W x) as [x _ IH]. intros ks Hx. assert (forall k, k ∈ ks -> kid F k x) as Hk by (intros k Hk; by exists ks). clear Hx. induction ks as [|k ks IHks]; [exists []; constructor|]. destruct IHks as [l2 H2]; [intros j Hj; apply Hk; by right|].
  pose proof (Hk k ltac:(by left)) as Hkx. destruct (wf_kid F s W _ _ Hkx) as [kk Hkk]. destruct (IH k Hkx kk Hkk) as [l1 H1]. exists (k :: l1 ++ l2). by apply (PO_cons F k kk).
Qed.

Lemma preorder_in ks l d : preorder F ks l -> d ∈ l <-> exists j, j ∈ ks /\ below F d j.
Proof.
  induction 1 as [|k kk ks l1 l2 Hk _ IH1 _ IH2]; [split; [intros Hd; by apply elem_of_nil in Hd|intros (j & Hj & _); by apply elem_of_nil in Hj]|]. rewrite elem_of_cons, elem_of_app, IH1, IH2. split.
  - intros [->|[(j & Hj & Hb)|(j & Hj & Hb)]]; [exists k; split; [by left|apply rtc_refl]| |exists j; split; [by right|done]]. exists k. split; [by left|]. eapply rtc_l; [|exact Hb]. by exists kk.
  - intros (j & [->|Hj]%elem_of_cons & Hb); [|right; right; by exists j]. unfold below in Hb. apply rtc_inv in Hb as [<-|(c & (kk' & Hk' & Hc) & Hb)]; [by left|]. right; left. rewrite Hk in Hk'. injection Hk' as <-. by exists c.
Qed.

(** Different children of a resource have nothing in common. *)
Lemma below_unique x j j' d : kid F j x -> kid F j' x -> below F d j -> below F d j' -> j = j'.
Proof.
  intros Hj Hj' Hb Hb'. destruct (decide (j = j')) as [->|Hne]; [done|]. exfalso. destruct (kid_here F s W _ _ Hj) as (q & _ & _ & Hq & _). destruct (kid_here F s W _ _ Hj') as (q' & _ & _ & Hq' & _). destruct (heap s !! d) as [qd|] eqn:Hd.
  - pose proof (below_inside F s W _ _ _ _ _ Hj Hb Hd Hq). pose proof (below_inside F s W _ _ _ _ _ Hj' Hb' Hd Hq'). destruct Hj' as (ks & Hx & Hi'). pose proof Hi' as (l1 & l2 & ->)%list_elem_of_split. destruct Hj as (ks & Hx' & Hi). rewrite Hx in Hx'. injection Hx' as <-. pose proof (siblings_apart F s W _ _ _ _ _ _ _ Hx Hi Hne Hq Hq'). unfold apart, inside in *. lia.
  - unfold below in Hb. apply rtc_inv_r in Hb as [->|(c & _ & Hc)]; [congruence|]. destruct (kid_here F s W _ _ Hc) as (y & _ & _ & Hy & _). congruence.
Qed.

Lemma preorder_nodup x ks l : preorder F ks l -> NoDup ks -> (forall k, k ∈ ks -> kid F k x) -> NoDup l.
Proof.
  intros H. revert x. induction H as [|k kk ks l1 l2 Hk H1 IH1 H2 IH2]; intros x Hnd Hx; [apply NoDup_nil_2|]. apply NoDup_cons in Hnd as [Hkn Hnd]. pose proof (Hx k ltac:(by left)) as Hkx.
  assert (forall d, below F d k -> d ∉ l2) as Hd by (intros d Hb (j & Hj & Hb')%(preorder_in _ _ _ H2); apply Hkn; rewrite (below_unique x k j d Hkx (Hx j ltac:(by right)) Hb Hb'); done).
  apply NoDup_cons. split; [|apply NoDup_app; split; [|split]].
  - intros [Hi|Hi]%elem_of_app; [|by apply (Hd k (rtc_refl _ k))]. apply (preorder_in _ _ _ H1) in Hi as (j & Hj & Hb). apply (no_cycle F s W j k); [by exists kk|exact Hb].
  - apply (IH1 k); [by apply (kids_nodup F s W k)|]. intros j Hj. by exists kk.
  - intros d Hd1. apply Hd. apply (preorder_in _ _ _ H1) in Hd1 as (j & Hj & Hb). eapply rtc_l; [|exact Hb]. by exists kk.
  - apply (IH2 x); [done|]. intros j Hj. apply Hx. by right.
Qed.

(** ** The walk *)

(** Where it goes after the resources below [x]. *)
Inductive climbs : Z -> Z -> Prop :=
| CL_sibling x r : heap s !! x = Some r -> sibling r <> NULL -> climbs x (sibling r)
| CL_top x r : heap s !! x = Some r -> sibling r = NULL -> parent r = NULL -> climbs x NULL
| CL_up x r c : heap s !! x = Some r -> sibling r = NULL -> kid F x (parent r) -> climbs (parent r) c -> climbs x c.

Lemma climb_run x c : climbs x c -> forall fuel L, NoDup L -> (forall y, y ∈ L -> is_Some (F !! y) /\ below F y x) -> (size (heap s) <= length L + fuel)%nat -> x ∉ L -> climb (S fuel) x s = Some (c, s).
Proof.
  induction 1 as [x r Hx Hs|x r Hx Hs Hp|x r c Hx Hs Hk _ IH]; intros fuel L Hnd HL Hf Hn; (assert (is_Some (F !! x)) as HFx by (apply (wf_dom F s W); by exists r)); cbn [climb]; erewrite bind_run by (apply res_ld_run; [by apply (wf_nonnull F s W)|exact Hx]).
  - by rewrite (proj2 (Z.eqb_neq _ _) Hs).
  - by rewrite Hs, Hp.
  - rewrite Hs, Z.eqb_refl. assert (is_Some (F !! parent r)) as HFp by (destruct Hk as (ks & Hks & _); by exists ks). rewrite (proj2 (Z.eqb_neq _ _) (wf_nonnull F s W _ HFp)). cbn [andb negb]. assert (NoDup (x :: L)) as Hnd' by (by apply NoDup_cons).
    assert (forall y, y ∈ x :: L -> is_Some (F !! y) /\ below F y x) as HL' by (intros y [->|Hy]%elem_of_cons; [split; [done|apply rtc_refl]|by apply HL]). assert (parent r ∉ x :: L) as Hpn by (intros Hi; apply (no_cycle F s W _ _ Hk); by apply HL').
    pose proof (seen_bound F s W (parent r :: x :: L) ltac:(by apply NoDup_cons) ltac:(intros y [->|Hy]%elem_of_cons; [done|by apply HL'])) as Hlen. cbn [length] in Hlen. destruct fuel as [|fuel]; [lia|].
    apply (IH fuel (x :: L)); [done| |cbn [length]; lia|done]. intros y Hy. split; [by apply HL'|]. eapply rtc_l; [exact Hk|]. by apply HL'.
Qed.

(** The walk from [v] shows [l] and goes on at [c]. *)
Fixpoint shows (v : Z) (l : list Z) (c : Z) : Prop :=
  match l with [] => v = c | y :: l => v = y /\ y <> NULL /\ exists w, r_next y s = Some (w, s) /\ shows w l c end.

Lemma shows_app v l1 l2 c : shows v (l1 ++ l2) c <-> exists u, shows v l1 u /\ shows u l2 c.
Proof.
  revert v. induction l1 as [|y l1 IH]; intros v; cbn [app shows]; [split; [intros H; by exists v|by intros (u & -> & H)]|]. split.
  - intros (-> & Hy & w & Hw & (u & H1 & H2)%IH). exists u. split; [|done]. split; [done|]. split; [done|]. by exists w.
  - intros (u & (-> & Hy & w & Hw & H1) & H2). split; [done|]. split; [done|]. exists w. split; [done|]. apply IH. by exists u.
Qed.

Lemma walk_shows ks l x ks1 c : preorder F ks l -> F !! x = Some (ks1 ++ ks) -> ks <> [] -> climbs x c -> shows (first_of ks) l c.
Proof.
  intros H. revert x ks1 c. induction H as [|k kk ks l1 l2 Hk H1 IH1 H2 IH2]; intros x ks1 c Hx Hne Hc; [done|]. assert (kid F k x) as Hkx by (eexists; split; [exact Hx|]; apply elem_of_app; right; by left). destruct (kid_here F s W _ _ Hkx) as (q & _ & _ & Hq & Hk0).
  destruct (wf_node F s W _ _ Hx) as (r & [_ _ Hs _]). apply seg_split in Hs as (q' & Hq' & Hp & Hsib & _). rewrite Hq in Hq'. injection Hq' as <-. assert (climbs k (match ks with [] => c | _ => first_of ks end)) as Hup.
  { destruct ks as [|j ks]; [apply (CL_up k q); [done|done|by rewrite Hp|by rewrite Hp]|]. cbn [first_of] in *. rewrite <- Hsib. apply CL_sibling; [done|]. rewrite Hsib. apply (wf_nonnull F s W), (wf_kid F s W j x). eexists. split; [exact Hx|]. apply elem_of_app. right. right. by left. }
  cbn [first_of shows]. split; [done|]. split; [done|]. destruct (wf_node F s W _ _ Hk) as (q' & [Hq' _ Hsk _]). rewrite Hq in Hq'. injection Hq' as <-. apply seg_first in Hsk. unfold r_next. destruct kk as [|j kk].
  - assert (l1 = []) as -> by (by inversion H1). cbn [app]. exists (match ks with [] => c | _ => first_of ks end). split.
    + erewrite bind_run by (by apply res_ld_run). rewrite Hsk. cbn [first_of NULL Z.eqb negb]. erewrite bind_run by reflexivity. apply (climb_run k _ Hup _ []); [apply NoDup_nil_2|intros y Hy; by apply elem_of_nil in Hy|cbn [length]; lia|apply not_elem_of_nil].
    + destruct ks as [|j ks]; [by inversion H2|]. apply (IH2 x (ks1 ++ [k]) c); [by rewrite <- app_assoc|done|done].
  - exists j. split.
    + erewrite bind_run by (by apply res_ld_run). rewrite Hsk. cbn [first_of]. rewrite (proj2 (Z.eqb_neq j NULL)); [done|]. apply (wf_nonnull F s W), (wf_kid F s W j k). exists (j :: kk). split; [done|by left].
    + apply shows_app. exists (match ks with [] => c | _ => first_of ks end). split; [by apply (IH1 k [] _)|]. destruct ks as [|i ks]; [by inversion H2|]. apply (IH2 x (ks1 ++ [k]) c); [by rewrite <- app_assoc|done|done].
Qed.

Lemma r_start_loop_run v l pos : shows v l NULL -> r_start_loop pos v s = Some (default NULL (l !! pos), s).
Proof.
  revert v pos. induction l as [|y l IH]; intros v pos; cbn [shows]; [intros ->; by destruct pos|]. intros (-> & Hy & w & Hw & H). destruct pos as [|pos]; cbn [r_start_loop]; rewrite (proj2 (Z.eqb_neq y NULL) Hy); [done|]. erewrite bind_run by exact Hw. by apply IH.
Qed.

Lemma r_start_ok root ks r : F !! root = Some ks -> heap s !! root = Some r -> sibling r = NULL -> parent r = NULL ->
  exists l, preorder F ks l /\ NoDup l /\ (forall d, d ∈ l <-> properly F d root) /\ forall pos, r_start root pos s = Some (default NULL (l !! pos), s).
Proof.
  intros Hx Hr Hs Hp. destruct (preorder_exists root ks Hx) as [l Hl]. exists l. split; [done|]. split; [|split].
  - apply (preorder_nodup root ks l Hl); [by apply (kids_nodup F s W root)|]. intros k Hk. by exists ks.
  - intros d. rewrite (preorder_in ks l d Hl). split; intros (j & Hj & Hb); exists j; (split; [|done]); [by exists ks|]. destruct Hj as (ks' & Hx' & Hj). rewrite Hx in Hx'. by injection Hx' as <-.
  - intros pos. unfold r_start. erewrite bind_run by (apply res_ld_run; [apply (wf_nonnull F s W); by exists ks|exact Hr]). apply r_start_loop_run. destruct (wf_node F s W _ _ Hx) as (r' & [Hr' _ Hsg _]). rewrite Hr in Hr'. injection Hr' as <-. rewrite (seg_first _ _ _ _ Hsg). destruct ks as [|k ks]; [by inversion Hl|]. apply (walk_shows (k :: ks) l root [] NULL Hl Hx); [done|]. by apply (CL_top root r).
Qed.

(** ** One line *)

(** [v] is [n] levels below the children of [root]. *)
Inductive level (root : Z) : nat -> Z -> Prop :=
| LV_kid v : kid F v root -> level root O v
| LV_down n u v : level root n u -> kid F v u -> level root (S n) v.

Lemma level_properly root n v : level root n v -> properly F v root.
Proof. induction 1 as [v Hv|n u v _ (j & Hj & Hb) Hv]; [exists v; split; [done|apply rtc_refl]|]. exists j. split; [done|]. eapply rtc_r; [exact Hb|exact Hv]. Qed.

Lemma level_not_root root n v : level root n v -> v <> root.
Proof. intros (j & Hj & Hb)%level_properly ->. by apply (no_cycle F s W j root). Qed.

Lemma depth_loop_run root n v rounds d : level root n v -> depth_loop rounds root v d s = Some (d + Z.of_nat (Nat.min rounds n), s).
Proof.
  revert n v d. induction rounds as [|rounds IH]; intros n v d Hl; cbn [depth_loop]; [cbn [Nat.min]; by rewrite Z.add_0_r|]. assert (exists u, kid F v u) as [u Hu] by (destruct Hl; by eexists). destruct (kid_here F s W _ _ Hu) as (q & _ & _ & Hq & Hv0). erewrite bind_run by (by apply res_ld_run).
  pose proof (kid_parent F s W _ _ Hu) as Hp. rewrite Hq in Hp. injection Hp as Hp. rewrite Hp. destruct Hl as [v Hk|n w v Hl Hk].
  - rewrite (kid_unique F s W _ _ _ Hu Hk), Z.eqb_refl. cbn. by rewrite Z.add_0_r.
  - rewrite (kid_unique F s W _ _ _ Hu Hk). rewrite (proj2 (Z.eqb_neq w root) (level_not_root root n w Hl)), (IH n w (d + 1) Hl). do 2 f_equal. lia.
Qed.

Lemma r_show_ok root n v r q : level root n v -> heap s !! root = Some r -> heap s !! v = Some q -> r_show root v s = Some (2 * Z.of_nat (Nat.min 5 n), (if end_ r <? 0x10000 then 4 else 8), (start q, end_ q), s).
Proof.
  intros Hl Hr Hq. assert (is_Some (F !! root) /\ is_Some (F !! v)) as [H1 H2] by (split; apply (wf_dom F s W); by eexists). unfold r_show. erewrite bind_run by (apply res_ld_run; [by apply (wf_nonnull F s W)|exact Hr]). erewrite bind_run by (by apply (depth_loop_run root n)). erewrite bind_run by (apply res_ld_run; [by apply (wf_nonnull F s W)|exact Hq]). rewrite Z.add_0_l, Z.mul_comm. done.
Qed.

End show.

End ResourceShow.
