(* ===== verification/ResourceTheorems.v ===== *)
(** * Resource trees: the theorems *)

From S2P Require Import Prelude Resource ResourceTree ResourceLinks ResourceOps ResourceRequest ResourceInsert ResourceDescend ResourceRegion ResourceRelease ResourceAlloc ResourceAdjust ResourceSystem.

Module ResourceTheorems.
Import Resource ResourceTree ResourceLinks ResourceOps ResourceRequest ResourceInsert ResourceDescend ResourceRegion ResourceRelease ResourceAlloc ResourceAdjust ResourceSystem.

(** ** A granted region is found again *)

Section granted.
Context (F : forest) (s s1 : state) (W : wf F s) (a p : Z) (l ks1 ks2 : list Z) (n : resource) (Hs : supply s = a :: l).
Context (Hp : F !! p = Some (ks1 ++ ks2)) (W1 : wf (attached (fresh_forest F a) p a ks1 ks2) s1) (D : same_data (fresh_state s a l n) s1).
Abbreviation F1 := (attached (fresh_forest F a) p a ks1 ks2).

Lemma granted_here : exists q, heap s1 !! a = Some q /\ core q = core n.
Proof. apply (same_lookup core (heap (fresh_state s a l n)) (heap s1) a n); [apply D|apply lookup_insert_eq]. Qed.

Lemma granted_kid y x : kid F y x -> kid F1 y x.
Proof.
  intros (ks & Hx & Hy). assert (x <> a) as Hxa by (intros ->; by rewrite (proj2 (fresh_here F s W a l Hs)) in Hx). destruct (decide (x = p)) as [->|Hxp].
  - rewrite Hp in Hx. injection Hx as <-. exists (ks1 ++ a :: ks2). split; [apply lookup_insert_eq|]. apply elem_of_app in Hy as [Hy|Hy]; apply elem_of_app; [by left|right; by right].
  - exists ks. split; [|done]. unfold attached, fresh_forest. by rewrite !lookup_insert_ne.
Qed.

Lemma granted_idle_path x : idle_path F s x p -> idle_path F1 s1 x p.
Proof.
  intros H. unfold idle_path in *. eapply rtc_subrel; [|exact H]. intros u v (Hk & q & Hq & Hi). split; [by apply granted_kid|]. assert (v <> a) as Hva by (intros ->; by apply (fresh_detached F s W a l Hs u), (fresh_kid F s W a l Hs)).
  destruct (same_lookup core (heap (fresh_state s a l n)) (heap s1) v q) as (q' & Hq' & E); [apply D|cbn [heap fresh_state]; by rewrite lookup_insert_ne|]. exists q'. split; [done|]. injection E as _ _ _ E. unfold idle. by rewrite E.
Qed.

Lemma granted_release par b m : idle_path F s par p -> start n = b -> end_ n = u32 (b + m - 1) -> ~ idle n -> b <= u32 (b + m - 1) -> is_Some (F !! par) -> exists s2, __release_region par b m s1 = Some (true, s2) /\ wf F s2 /\ same_data (mk_state (heap s) l) s2.
Proof.
  intros Hpath E1 E2 Hbusy Hbm Hpar. set (e := u32 (b + m - 1)) in *. assert (kid F1 a p) as Hk by (exists (ks1 ++ a :: ks2); split; [apply lookup_insert_eq|]; apply elem_of_app; right; by left). assert (target F1 s1 b e par p a) as Ht.
  { split; [by apply granted_idle_path|]. split; [done|]. destruct granted_here as (q & Hq & E). exists q. injection E as Ea Eb _ Ef. split; [done|]. unfold idle. rewrite Ea, Eb, Ef. done. }
  assert (exists ks, F1 !! par = Some ks) as [ks Hks]. { unfold attached. destruct (decide (par = p)) as [->|Hpp]; [rewrite lookup_insert_eq; by eexists|]. rewrite lookup_insert_ne by done. unfold fresh_forest. destruct (decide (par = a)) as [->|Hpa]; [rewrite lookup_insert_eq; by eexists|by rewrite lookup_insert_ne]. }
  pose proof (release_region_loop_ok F1 s1 W1 b e Hbm (S (base.size (heap s1))) [] par [] ks Hks) as R. remember (release_region_loop (S (base.size (heap s1))) b e (loc par []) s1) as o eqn:Eo.
  destruct R as [p' k l1 l2 Ht' Hp'|Hno]; [split; [apply NoDup_nil_2|]; split; intros y Hy; by apply elem_of_nil in Hy|intros k q Hki; by apply elem_of_nil in Hki|cbn [length]; lia| |exfalso; by apply (Hno p a)].
  destruct (target_unique F1 s1 W1 b e Hbm _ _ _ _ _ Ht' Ht) as [-> ->]. assert (F1 !! p = Some (ks1 ++ a :: ks2)) as HF1 by apply lookup_insert_eq. pose proof Hp' as El. rewrite HF1 in El. injection El as El.
  exists (freed s1 p a l1 l2). split; [unfold __release_region; erewrite bind_run by reflexivity; exact (eq_sym Eo)|]. split.
  - pose proof (forest_restored F s W a l Hs p ks1 ks2 l1 l2 Hp (kids_nodup _ _ W1 _ _ HF1) El) as EF. rewrite <- EF at 1. by apply (freed_wf F1 s1 W1).
  - apply (data_restored F s W a l Hs n s1 _ D); [|apply lookup_delete_eq]. intros x Hx. unfold same. rewrite lookup_delete_ne by done. by apply same_relink.
Qed.

End granted.

(** ** A small tree

    The root 1 has the memory 2, in which 3 is busy; 4 is not in the tree, and the
    next allocation returns 5. *)

Definition boot : state := mk_state (<[1 := mk_res 0 0xffffffff 0 0x200 NULL NULL 2]> (<[2 := mk_res 0 0x0fffffff 0 0x200 1 NULL 3]> (<[3 := mk_res 0x8000 0x3fffff 0 IORESOURCE_BUSY 2 NULL NULL]> {[4 := mk_res 0xf1000000 0xf10fffff 0 0x200 NULL NULL NULL]}))) [5].
Definition boot_forest : forest := <[1 := [2]]> (<[2 := [3]]> (<[3 := []]> {[4 := []]})).

Lemma boot_cases a ks : boot_forest !! a = Some ks -> (a = 1 /\ ks = [2]) \/ (a = 2 /\ ks = [3]) \/ (a = 3 /\ ks = []) \/ (a = 4 /\ ks = []).
Proof. unfold boot_forest. intros H. repeat (apply lookup_insert_Some in H as [[<- <-]|[_ H]]; [tauto|]). apply lookup_singleton_Some in H as [<- <-]. tauto. Qed.

Lemma boot_kid y x : kid boot_forest y x -> (x = 1 /\ y = 2) \/ (x = 2 /\ y = 3).
Proof. intros (ks & Hx & Hy). destruct (boot_cases _ _ Hx) as [[-> ->]|[[-> ->]|[[-> ->]|[-> ->]]]]; try (by apply elem_of_nil in Hy); apply list_elem_of_singleton in Hy; tauto. Qed.

Lemma boot_wf : wf boot_forest boot.
Proof.
  assert (dom (heap boot) = dom boot_forest) as Hdom by reflexivity. split.
  - intros a. by rewrite <- !elem_of_dom, Hdom.
  - reflexivity.
  - intros a ks H. destruct (boot_cases _ _ H) as [[-> ->]|[[-> ->]|[[-> ->]|[-> ->]]]]; (eexists; split; [reflexivity|cbn; unfold is_u32; lia| |]); cbn; try done.
    + split; [done|]. eexists. split; [reflexivity|]. done.
    + eexists. split; [reflexivity|]. cbn. lia.
    + split; [done|]. eexists. split; [reflexivity|]. done.
    + eexists. split; [reflexivity|]. cbn. lia.
  - intros y x H. destruct (boot_kid _ _ H) as [[-> ->]|[-> ->]]; by eexists.
  - assert (forall a, a <> 1 -> a <> 2 -> Acc (kid boot_forest) a) as H3 by (intros a H1 H2; constructor; intros y [[-> _]|[-> _]]%boot_kid; done). assert (Acc (kid boot_forest) 2) as H2 by (constructor; intros y [[? _]|[_ ->]]%boot_kid; [done|by apply H3]).
    intros a. destruct (decide (a = 1)) as [->|H1]; [constructor; intros y [[_ ->]|[? _]]%boot_kid; done|]. destruct (decide (a = 2)) as [->|Ha]; [done|by apply H3].
  - split; [apply NoDup_singleton|]. by repeat constructor.
Qed.

Lemma boot_memory : heap boot !! 2 = Some (mk_res 0 0x0fffffff 0 0x200 1 NULL 3).
Proof. reflexivity. Qed.

Lemma boot_below d : properly boot_forest d 1 -> d = 2 \/ d = 3.
Proof.
  intros (j & [[_ ->]|[? _]]%boot_kid & Hb); [|done]. unfold below in Hb. apply rtc_inv in Hb as [<-|(c & [[? _]|[_ ->]]%boot_kid & Hb)]; [by left|done|]. apply rtc_inv in Hb as [<-|(c & [[? _]|[? _]]%boot_kid & _)]; [by right|done|done].
Qed.

(** Everything that is below the root of the small tree. *)
Lemma boot_all_below (T : resource -> Prop) : T (mk_res 0 0x0fffffff 0 0x200 1 NULL 3) -> T (mk_res 0x8000 0x3fffff 0 IORESOURCE_BUSY 2 NULL NULL) -> all_below boot_forest boot T 1.
Proof. intros H1 H2 d q [->| ->]%boot_below Hq; injection Hq as <-; done. Qed.

Lemma boot_detached : detached boot_forest 4.
Proof. intros y [[_ ?]|[_ ?]]%boot_kid; done. Qed.

(** ** Claims *)

(** C14: From a well-formed resource tree, any sequence of calls that respect what they
    expect of their callers reaches only well-formed trees: the links form a forest,
    children are inside their parent and in ascending order, and any two resources
    below a root are nested or disjoint. In every such state every allowed call
    returns, without following a bad pointer or looping. *)
Theorem resource_tree_safe F0 s0 s : wf F0 s0 -> rtc step s0 s ->
  exists F, wf F s /\ (forall root x y q r, properly F x root -> properly F y root -> heap s !! x = Some q -> heap s !! y = Some r -> below F x y \/ below F y x \/ apart q r) /\
    forall o, allowed F o -> exists v s', run o s = Some (v, s').
Proof.
  intros W0 Hs. destruct (steps_wf s0 s Hs) as [F W]; [by exists F0|]. exists F. split; [done|]. split; [intros root x y q r; by apply tree_laminar|].
  intros o Ho. destruct (run_returns F s W o Ho) as (v & F' & s' & E & _). by exists v, s'.
Qed.

Definition boot_inserted : state := default boot (snd <$> run (Insert 1 4) boot).

Lemma resource_tree_safe_witness : exists F, wf F boot_inserted /\ forall o, allowed F o -> exists v s', run o boot_inserted = Some (v, s').
Proof.
  destruct (resource_tree_safe boot_forest boot boot_inserted) as (F & W & _ & H); [apply boot_wf| |by exists F].
  apply rtc_once. exists boot_forest, (Insert 1 4), 0. split; [apply boot_wf|]. split; [split; [by eexists|]; split; [done|]; split; [apply boot_detached|done]|]. vm_compute. reflexivity.
Defined.

(** C15: insert_resource returns 0 exactly if the range of the new resource is inside
    the parent and, for every resource below the parent, disjoint from it, inside it
    or around it. The new resource then takes the place of the resources inside it,
    which become its children. Otherwise it returns -EBUSY and changes nothing. *)
Theorem insert_resource_laminar F s par new ks r n : wf F s -> F !! par = Some ks -> F !! new = Some [] -> detached F new -> par <> new -> heap s !! par = Some r -> heap s !! new = Some n ->
  (inside n r /\ laminar_below F s n par -> exists F' s', insert_resource par new s = Some (0, s') /\ wf F' s' /\ same_data s s' /\ inserted F new par F') /\
  (~ (inside n r /\ laminar_below F s n par) -> insert_resource par new s = Some (- EBUSY, s)).
Proof.
  intros W Hpar Hnew Hd Hne Hr Hn. destruct (insert_resource_ok F s W new [] n Hnew Hd Hn par ks r eq_refl Hpar Hne Hr) as [(H1 & H2 & H3)|[Hno E]]; split; tauto.
Qed.

Lemma insert_resource_laminar_witness : exists F' s', insert_resource 1 4 boot = Some (0, s') /\ wf F' s' /\ same_data boot s' /\ inserted boot_forest 4 1 F'.
Proof.
  apply (insert_resource_laminar boot_forest boot 1 4 [2] (mk_res 0 0xffffffff 0 0x200 NULL NULL 2) (mk_res 0xf1000000 0xf10fffff 0 0x200 NULL NULL NULL)); [apply boot_wf|reflexivity|reflexivity|apply boot_detached|done|reflexivity|reflexivity|].
  split; [unfold inside; cbn; lia|]. apply boot_all_below; left; unfold apart; cbn; lia.
Defined.

(** C16: __request_region grants a region exactly if it is inside the parent and every
    resource below the parent that overlaps it is not busy and around it. It then
    creates a busy resource of that range in the innermost of these, and
    __release_region of the same range finds it, removes it and leaves the tree and
    the data of all resources as they were. Otherwise it returns a null pointer and
    changes nothing. *)
Theorem request_region_exact F s par ks r a l start' n name' : wf F s -> F !! par = Some ks -> heap s !! par = Some r -> supply s = a :: l -> a <> NULL -> is_u32 start' -> 1 <= n -> start' + n <= 2 ^ 32 ->
  (inside (region_of start' n name') r /\ free_below F s (region_of start' n name') par -> exists p ks1 ks2 s1 s2,
     idle_path F s par p /\ F !! p = Some (ks1 ++ ks2) /\ __request_region par start' n name' s = Some (a, s1) /\ wf (attached (fresh_forest F a) p a ks1 ks2) s1 /\ core <$> heap s1 !! a = Some (start', start' + n - 1, name', IORESOURCE_BUSY) /\
     __release_region par start' n s1 = Some (true, s2) /\ wf F s2 /\ same_data (mk_state (heap s) l) s2) /\
  (~ (inside (region_of start' n name') r /\ free_below F s (region_of start' n name') par) -> __request_region par start' n name' s = Some (NULL, mk_state (heap s) l)).
Proof.
  intros W Hpar Hr Hs Ha Hu Hn Hw. assert (u32 (start' + n - 1) = start' + n - 1) as Ee by (unfold is_u32 in Hu; apply u32_small; unfold is_u32; lia). destruct (request_region_ok F s W par a ks l r Hpar Hr Hs Ha start' n name' Hu) as [(H1 & H2 & p & ks1 & ks2 & s1 & Hp & Hpk & E & W1 & D)|[Hno E]]; (split; [intros Hyes|intros Hn']); [|tauto|tauto|done].
  destruct (granted_release F s s1 W a p l ks1 ks2 (region_of start' n name') Hs Hpk W1 D par start' n Hp eq_refl eq_refl ltac:(done) ltac:(rewrite Ee; lia) ltac:(by exists ks)) as (s2 & E2 & W2 & D2). exists p, ks1, ks2, s1, s2. repeat (split; [done|]). split; [|done].
  destruct (granted_here s s1 a l (region_of start' n name') D) as (q & Hq & Eq). rewrite Hq. cbn [fmap option_fmap option_map]. rewrite Eq. unfold core, region_of. cbn [start end_ name flags]. by rewrite Ee.
Qed.

Lemma request_region_exact_witness : exists p ks1 ks2 s1 s2, idle_path boot_forest boot 1 p /\ boot_forest !! p = Some (ks1 ++ ks2) /\ __request_region 1 0x01000000 0x1000 7 boot = Some (5, s1) /\ wf (attached (fresh_forest boot_forest 5) p 5 ks1 ks2) s1 /\ core <$> heap s1 !! 5 = Some (0x01000000, 0x01000000 + 0x1000 - 1, 7, IORESOURCE_BUSY) /\
  __release_region 1 0x01000000 0x1000 s1 = Some (true, s2) /\ wf boot_forest s2 /\ same_data (mk_state (heap boot) []) s2.
Proof.
  apply (request_region_exact boot_forest boot 1 [2] (mk_res 0 0xffffffff 0 0x200 NULL NULL 2) 5 []); [apply boot_wf|reflexivity|reflexivity|reflexivity|done|unfold is_u32; lia|lia|lia|]. assert (u32 (0x01000000 + 0x1000 - 1) = 0x01000fff) as E by reflexivity.
  split; [unfold inside, region_of; cbn [start end_]; rewrite E; lia|]. apply boot_all_below; unfold free_for, overlap, inside, region_of; cbn [start end_]; rewrite E; [|lia]. intros _. split; [reflexivity|lia].
Defined.

(** The addresses from [b] are a place for a resource of [size] bytes. *)
Definition slot (s : state) (ks : list Z) (r : resource) (size min max k b : Z) : Prop :=
  place size min max k b /\ start r <= b /\ b + size - 1 <= end_ r /\ forall c q, c ∈ ks -> heap s !! c = Some q -> end_ q < b \/ b + size - 1 < start q.

Lemma kid_of_range (s : state) ks rs q : Forall2 (fun k q => heap s !! k = Some q) ks rs -> q ∈ rs -> exists c, c ∈ ks /\ heap s !! c = Some q.
Proof. intros H [i Hi]%list_elem_of_lookup. destruct (Forall2_lookup_r _ _ _ _ _ H Hi) as (c & Hc & Hq). exists c. split; [|done]. by eapply list_elem_of_lookup_2. Qed.

Lemma clear_slots s ks rs size b : Forall2 (fun k q => heap s !! k = Some q) ks rs -> clear size rs b <-> forall c q, c ∈ ks -> heap s !! c = Some q -> end_ q < b \/ b + size - 1 < start q.
Proof.
  intros H. induction H as [|c q ks rs Hq _ IH]; [split; [intros _ c q Hc; by apply elem_of_nil in Hc|intros _ q Hc; by apply elem_of_nil in Hc]|]. split.
  - intros Hcl c' q' [->|Hc]%elem_of_cons Hq'; [rewrite Hq in Hq'; injection Hq' as <-; apply Hcl; by left|]. apply (proj1 IH) with c'; [|done|done]. intros x Hx. apply Hcl. by right.
  - intros Hs x [->|Hx]%elem_of_cons; [apply (Hs c); [by left|done]|]. apply (proj2 IH); [|done]. intros c' q' Hc. apply Hs. by right.
Qed.

(** C17: allocate_resource with a power of two as alignment and without an alignment
    callback, where [min], the start of the root and the addresses behind its children are
    not in the last aligned block of the address space (there ALIGN wraps): it finds the
    lowest aligned address from [min] on at which the size, but two bytes at least, fits
    below [max], inside the root and beside its children, and links the resource there;
    it returns -EBUSY exactly if there is no such address, and then only the range of the
    new resource has changed.  A request for one byte thus needs two free ones. *)
Theorem allocate_resource_lowest F s root new ks r n size min max k : wf F s -> F !! root = Some ks -> heap s !! root = Some r -> F !! new = Some [] -> detached F new -> root <> new -> heap s !! new = Some n ->
  1 <= size < 2 ^ 32 -> 0 <= k < 32 -> 0 <= min <= 2 ^ 32 - 2 ^ k -> is_u32 max -> start r <= 2 ^ 32 - 2 ^ k -> (forall c q, c ∈ ks -> heap s !! c = Some q -> end_ q + 1 <= 2 ^ 32 - 2 ^ k) ->
  let free b := slot s ks r (Z.max 2 size) min max k b in
  (exists b s' ks1 ks2, free b /\ (forall x, free x -> b <= x) /\ allocate_resource root new size min max (2 ^ k) None s = Some (0, s') /\ range <$> heap s' !! new = Some (b, b + size - 1) /\ ks = ks1 ++ ks2 /\ wf (attached F root new ks1 ks2) s') \/
  ((forall x, ~ free x) /\ exists b e, allocate_resource root new size min max (2 ^ k) None s = Some (- EBUSY, mk_state (<[new := ranged n b e]> (heap s)) (supply s))).
Proof.
  intros W Hroot Hr Hnew Hd Hne Hn Hsize Hk Hmin Hmax Hlo Hkids. cbv zeta. destruct (kids_here F s W root ks Hroot) as [rs Hrs]. destruct (wf_node F s W root ks Hroot) as (r' & [Hr' [Hu1 Hu2] _ Hf]). rewrite Hr in Hr'. injection Hr' as <-. unfold is_u32 in Hu1.
  pose proof (first_gap_ok (Z.max 2 size) min max k (end_ r) ltac:(lia) Hk Hmin Hmax Hu2 r rs eq_refl (fit_ordered _ _ _ _ _ Hf Hrs) ltac:(lia)) as Hg. pose proof (fun b => clear_slots s ks rs (Z.max 2 size) b Hrs) as Hcl. assert (forall q, q ∈ rs -> end_ q + 1 <= 2 ^ 32 - 2 ^ k) as Hend by (intros q Hq; destruct (kid_of_range s ks rs q Hrs Hq) as (c & Hc & Hqc); by apply (Hkids c)). specialize (Hg Hend).
  assert (first_gap r (Z.max 2 size) min max (2 ^ k) None rs = first_gap r size min max (2 ^ k) None rs) as Eone by (destruct (Z.eq_dec size 1) as [->|]; [symmetry; by apply first_gap_one|f_equal; lia]). rewrite Eone in Hg.
  pose proof (allocate_ok F s W root new ks r Hroot Hr Hnew Hd Hne size min max (2 ^ k) None Hmax ltac:(done) rs n Hrs Hn) as R. remember (allocate_resource root new size min max (2 ^ k) None s) as o eqn:Eo. unfold slot. setoid_rewrite <- Hcl.
  destruct R as [b ks1 ks2 s' Eg Ek Hi _ _ W' D|b e Hb He Hbusy].
  - left. rewrite Eg in Hg. destruct Hg as [(H1 & H2 & H3 & H4) Hmin']. exists b, s', ks1, ks2. split; [done|]. split; [intros x (Hx1 & Hx2 & _ & Hx3); by apply Hmin'|]. split; [done|]. split; [|done].
    destruct (same_lookup core _ (heap s') new _ (proj2 D new) (lookup_insert_eq _ _ _)) as (q & Hq & E). rewrite Hq. injection E as E1 E2 _ _. cbn. unfold range. rewrite E1, E2. cbn. rewrite u32_small by (destruct H1 as (_ & ? & ?); unfold is_u32 in *; lia). done.
  - right. destruct (first_gap r size min max (2 ^ k) None rs) as [b'|] eqn:Eg; [|split; [intros x (Hx1 & Hx2 & Hx3 & Hx4); by apply (Hg x)|by exists b, e]]. exfalso. destruct (Hbusy b' eq_refl) as (-> & -> & Hov). destruct Hg as [(H1 & H2 & H3 & H4) _]. assert (u32 (b' + size - 1) = b' + size - 1) as E by (apply u32_small; destruct H1 as (_ & ? & ?); unfold is_u32 in *; lia). rewrite E in Hov.
    destruct Hov as (c & q & Hc & Hq & Hov); [unfold inside; cbn; lia|]. pose proof (proj1 (Hcl b') H4 c q Hc Hq). unfold overlap in Hov. cbn in Hov. lia.
Qed.

Lemma allocate_resource_lowest_witness : exists b s' ks1 ks2, slot boot [2] (mk_res 0 0xffffffff 0 0x200 NULL NULL 2) 0x1000 0 0xffffffff 12 b /\ (forall x, slot boot [2] (mk_res 0 0xffffffff 0 0x200 NULL NULL 2) 0x1000 0 0xffffffff 12 x -> b <= x) /\
  allocate_resource 1 4 0x1000 0 0xffffffff (2 ^ 12) None boot = Some (0, s') /\ range <$> heap s' !! 4 = Some (b, b + 0x1000 - 1) /\ [2] = ks1 ++ ks2 /\ wf (attached boot_forest 1 4 ks1 ks2) s'.
Proof.
  destruct (allocate_resource_lowest boot_forest boot 1 4 [2] (mk_res 0 0xffffffff 0 0x200 NULL NULL 2) (mk_res 0xf1000000 0xf10fffff 0 0x200 NULL NULL NULL) 0x1000 0 0xffffffff 12) as [H|[Hno _]]; [apply boot_wf|reflexivity|reflexivity|reflexivity|apply boot_detached|done|reflexivity|lia|lia|lia|unfold is_u32; lia|cbn; lia| |exact H|].
  - intros c q ->%list_elem_of_singleton Hq. rewrite boot_memory in Hq. injection Hq as <-. cbn [end_]. lia.
  - exfalso. apply (Hno 0x10000000). unfold slot, place. cbn [start end_]. split; [split; [reflexivity|lia]|]. split; [lia|]. split; [lia|]. intros c q ->%list_elem_of_singleton Hq. rewrite boot_memory in Hq. injection Hq as <-. cbn [start end_]. lia.
Defined.

(** ** Where the range arithmetic goes wrong *)

Section limits.
Context (F : forest) (s : state) (W : wf F s).

(** The first gap of a tree that starts at 0, for a [min] in the last aligned block. *)
Lemma first_gap_wraps ks rs r size min max k : Forall2 (fun c q => heap s !! c = Some q) ks rs -> start r = 0 -> is_u32 (end_ r) -> 0 <= k < 32 -> 2 ^ 32 - 2 ^ k < min < 2 ^ 32 -> 1 <= size < 2 ^ 32 -> is_u32 max ->
  Z.max 1 (size - 1) <= Z.min max (end_ r) -> (forall c q, c ∈ ks -> heap s !! c = Some q -> Z.max 2 size <= start q < 2 ^ 32) -> first_gap r size min max (2 ^ k) None rs = Some 0.
Proof.
  intros Hrs H0 Hu Hk Hmin Hsize Hmax Hfit Hkids. assert (0 < 2 ^ k < 2 ^ 32) as Hpow by (split; [apply Z.pow_pos_nonneg|apply Z.pow_lt_mono_r]; lia). unfold is_u32 in *.
  assert (forall e, is_u32 e -> Z.max 1 (size - 1) <= e -> let '(b', e') := trim size min max (2 ^ k) None 0 e in b' = 0 /\ room size b' e' = true) as Ht.
  { unfold is_u32. intros e He Hse. cbn [trim]. rewrite (proj2 (Z.ltb_lt 0 min)), ALIGN_wraps by lia. split; [done|]. unfold room. set (e' := if max <? e then max else e). assert (Z.max 1 (size - 1) <= e' < 2 ^ 32) as He' by (subst e'; destruct (max <? e); lia). rewrite (proj2 (Z.ltb_lt 0 e')), !u32_small by (unfold is_u32; lia). cbn [andb]. apply Z.leb_le. lia. }
  unfold first_gap. destruct Hrs as [|c q ks rs Hq Hrs].
  - cbn [find_gap]. rewrite H0. specialize (Ht (end_ r) Hu ltac:(lia)). destruct (trim _ _ _ _ _ _ _) as [b' e']. by destruct Ht as [-> ->].
  - pose proof (Hkids c q ltac:(by left) Hq) as Hs. rewrite (proj2 (Z.eqb_neq (start q) 0)) by lia. cbn [find_gap]. rewrite H0, (u32_small (start q - 1)) by (unfold is_u32; lia). specialize (Ht (start q - 1) ltac:(unfold is_u32; lia) ltac:(lia)). destruct (trim _ _ _ _ _ _ _) as [b' e']. by destruct Ht as [-> ->].
Qed.

Lemma allocate_wraps root new ks r n size min max k : F !! root = Some ks -> heap s !! root = Some r -> F !! new = Some [] -> detached F new -> root <> new -> heap s !! new = Some n ->
  start r = 0 -> 0 <= k < 32 -> 2 ^ 32 - 2 ^ k < min < 2 ^ 32 -> 1 <= size < 2 ^ 32 -> is_u32 max -> Z.max 1 (size - 1) <= Z.min max (end_ r) -> (forall c q, c ∈ ks -> heap s !! c = Some q -> Z.max 2 size <= start q) ->
  exists s', allocate_resource root new size min max (2 ^ k) None s = Some (0, s') /\ range <$> heap s' !! new = Some (0, size - 1).
Proof using W.
  intros Hroot Hr Hnew Hd Hne Hn H0 Hk Hmin Hsize Hmax Hfit Hkids. destruct (kids_here F s W root ks Hroot) as [rs Hrs]. destruct (wf_node F s W root ks Hroot) as (r' & [Hr' [_ Hu] _ Hf]). rewrite Hr in Hr'. injection Hr' as <-.
  assert (forall c q, c ∈ ks -> heap s !! c = Some q -> Z.max 2 size <= start q < 2 ^ 32) as Hkids'.
  { intros c q Hc Hq. split; [by apply (Hkids c)|]. destruct (wf_kid F s W c root) as [kk Hkk]; [by exists ks|]. destruct (wf_node F s W c kk Hkk) as (q' & [Hq' [[_ Hu'] _] _ _]). congruence. }
  pose proof (first_gap_wraps ks rs r size min max k Hrs H0 Hu Hk Hmin Hsize Hmax Hfit Hkids') as Eg. pose proof (allocate_ok F s W root new ks r Hroot Hr Hnew Hd Hne size min max (2 ^ k) None Hmax ltac:(done) rs n Hrs Hn) as R. remember (allocate_resource root new size min max (2 ^ k) None s) as o eqn:Eo.
  assert (u32 (0 + size - 1) = size - 1) as Ee by (apply u32_small; unfold is_u32; lia). destruct R as [b ks1 ks2 s' Eg' Ek _ _ _ _ D|b e Hb He Hbusy].
  - rewrite Eg in Eg'. injection Eg' as <-. exists s'. split; [done|]. destruct (same_lookup core _ (heap s') new _ (proj2 D new) (lookup_insert_eq _ _ _)) as (q & Hq & E). rewrite Hq. injection E as E1 E2 _ _. cbn. unfold range. rewrite E1, E2. cbn [start end_ ranged set_start set_end]. by rewrite Ee.
  - exfalso. destruct (Hbusy 0 Eg) as (-> & -> & Hov). rewrite Ee in Hov. destruct Hov as (c & q & Hc & Hq & Hov); [unfold inside; cbn; lia|]. pose proof (Hkids c q Hc Hq). unfold overlap in Hov. cbn in Hov. lia.
Qed.

Lemma adjust_empty par res ks1 ks2 p r b : F !! par = Some (ks1 ++ res :: ks2) -> F !! res = Some [] -> heap s !! par = Some p -> heap s !! res = Some r -> 1 <= b < 2 ^ 32 -> start p <= b -> b - 1 <= end_ p ->
  (forall c q, c ∈ ks1 -> heap s !! c = Some q -> end_ q < b) -> (forall c q, c ∈ ks2 -> heap s !! c = Some q -> b <= start q) ->
  exists s', adjust_resource res b 0 s = Some (0, s') /\ range <$> heap s' !! res = Some (b, b - 1) /\ ~ wf F s'.
Proof using W.
  intros Hpar Hres Hp Hr Hb Hlo Hhi H1 H2. assert (u32 (b + 0 - 1) = b - 1) as Ee by (rewrite Z.add_0_r; apply u32_small; unfold is_u32; lia). destruct (adjust_ok F s W par res ks1 ks2 [] p r Hpar Hres Hp Hr b (b - 1) 0 (eq_sym Ee)) as [[_ E]|[Hn _]].
  - exists (adjusted s res b (b - 1)). split; [done|]. pose proof (adjusted_res s res r Hr b (b - 1)) as Ha. rewrite Ha. split; [done|]. intros W'. destruct (wf_node F _ W' par _ Hpar) as (p' & [_ _ _ Hf]). apply fit_app in Hf as (_ & m & _ & _ & x & Hx & Hle & _). rewrite Ha in Hx. injection Hx as <-. cbn in Hle. lia.
  - destruct Hn. split; [lia|]. split; [intros k q Hk; by apply elem_of_nil in Hk|]. split; [done|]. intros k q Hk Hq. specialize (H2 k q Hk Hq). lia.
Qed.
End limits.

(** C39: Two cases that the range arithmetic gets wrong, in every well-formed tree. If
    [min] is in the last aligned block of the address space, ALIGN wraps around, and
    every request whose size is free at the start of a root at 0 is granted there: at
    the address 0, below [min]. adjust_resource accepts the size 0 for a resource
    without children at every address between its siblings, and leaves a resource that
    ends before it starts, in a tree that is not well-formed any more. *)
Theorem resource_arithmetic_limits F s : wf F s ->
  (forall root new ks r n size min max k, F !! root = Some ks -> heap s !! root = Some r -> F !! new = Some [] -> detached F new -> root <> new -> heap s !! new = Some n ->
    start r = 0 -> 0 <= k < 32 -> 2 ^ 32 - 2 ^ k < min < 2 ^ 32 -> 1 <= size < 2 ^ 32 -> is_u32 max -> Z.max 1 (size - 1) <= Z.min max (end_ r) -> (forall c q, c ∈ ks -> heap s !! c = Some q -> Z.max 2 size <= start q) ->
    exists s', allocate_resource root new size min max (2 ^ k) None s = Some (0, s') /\ range <$> heap s' !! new = Some (0, size - 1)) /\
  (forall par res ks1 ks2 p r b, F !! par = Some (ks1 ++ res :: ks2) -> F !! res = Some [] -> heap s !! par = Some p -> heap s !! res = Some r -> 1 <= b < 2 ^ 32 -> start p <= b -> b - 1 <= end_ p ->
    (forall c q, c ∈ ks1 -> heap s !! c = Some q -> end_ q < b) -> (forall c q, c ∈ ks2 -> heap s !! c = Some q -> b <= start q) ->
    exists s', adjust_resource res b 0 s = Some (0, s') /\ range <$> heap s' !! res = Some (b, b - 1) /\ ~ wf F s').
Proof. intros W. split; [exact (allocate_wraps F s W)|exact (adjust_empty F s W)]. Qed.

(** A request from 0xfffff001 on in the boot memory, and the kernel code adjusted to
    nothing. *)
Lemma resource_arithmetic_limits_witness :
  (exists s', allocate_resource 2 4 0x1000 0xfffff001 0xffffffff (2 ^ 12) None boot = Some (0, s') /\ range <$> heap s' !! 4 = Some (0, 0x1000 - 1)) /\
  (exists s', adjust_resource 3 0x8000 0 boot = Some (0, s') /\ range <$> heap s' !! 3 = Some (0x8000, 0x8000 - 1) /\ ~ wf boot_forest s').
Proof.
  destruct (resource_arithmetic_limits boot_forest boot boot_wf) as [H1 H2]. split.
  - apply (H1 2 4 [3] (mk_res 0 0x0fffffff 0 0x200 1 NULL 3) (mk_res 0xf1000000 0xf10fffff 0 0x200 NULL NULL NULL)); [reflexivity|reflexivity|reflexivity|apply boot_detached|done|reflexivity|reflexivity|lia|lia|lia|unfold is_u32; lia|cbn; lia|].
    intros c q ->%list_elem_of_singleton Hq. vm_compute in Hq. injection Hq as <-. cbn. lia.
  - apply (H2 2 3 [] [] (mk_res 0 0x0fffffff 0 0x200 1 NULL 3) (mk_res 0x8000 0x3fffff 0 IORESOURCE_BUSY 2 NULL NULL)); [reflexivity|reflexivity|reflexivity|reflexivity|lia|cbn; lia|cbn; lia|..]; intros c q Hc; by apply elem_of_nil in Hc.
Defined.

End ResourceTheorems.
