(* ===== verification/TextSearch.v ===== *)
(** * Text search: [lib/textsearch.c], [lib/ts_kmp.c], [lib/ts_bm.c],
      [include/linux/textsearch.h]

    The text comes in blocks from the callback [get_next_block], a function from the
    number of consumed bytes to the next block, empty at the end.  Of the search
    state only [offset] is used by the algorithms. *)

From S2P Require Import Prelude.

Module TextSearch.

Definition UINT_MAX : Z := 2 ^ 32 - 1.
Definition EINVAL : Z := 22.
Definition ENOENT : Z := 2.
Definition EEXIST : Z := 17.
Definition ENOMEM : Z := 12.

Abbreviation source := (Z -> list Z).

(** ** Allocation *)

Definition TS_PRIV_ALIGNTO : Z := 8.
Definition TS_PRIV_ALIGN (len : Z) : Z := Z.land (len + TS_PRIV_ALIGNTO - 1) (Z.lnot (TS_PRIV_ALIGNTO - 1)).

(** The sizes of the C types: three pointers, and the part of the private data before
    the tables, which the structures end with. *)
Definition sizeof_ts_config : Z := 12.
Definition sizeof_ts_kmp : Z := 8.
Definition sizeof_ts_bm : Z := 8 + 4 * 256.

(** [kmalloc] tells for a size if memory is available; the memory is cleared. The
    result is the size of the object. *)
Definition alloc_ts_config (kmalloc : Z -> bool) (payload : Z) : Z + Z :=
  let size := u32 (TS_PRIV_ALIGN sizeof_ts_config + payload) in
  if kmalloc size then inr size else inl (- ENOMEM).

(** ** Knuth-Morris-Pratt *)

Record ts_kmp := mk_kmp { pattern : list Z; pattern_len : Z; prefix_tbl : list Z }.

(** The loop over shorter prefixes; [q + 1] rounds are enough. *)
Fixpoint fallback (n : nat) (pat tbl : list Z) (q c : Z) : option Z :=
  match n with
  | O => None
  | S n => if 0 <? q then p ← aget pat q; if negb (p =? c) then t ← aget tbl (q - 1); fallback n pat tbl t c else Some q else Some q
  end.

Definition kmp_byte (pat tbl : list Z) (q c : Z) : option Z :=
  q ← fallback (S (Z.to_nat q)) pat tbl q c; p ← aget pat q; Some (if p =? c then q + 1 else q).

(** The loop over a block: the new [offset] after a match, or the length of the matched prefix. *)
Fixpoint kmp_block (kmp : ts_kmp) (consumed i q : Z) (text : list Z) : option (Z + Z) :=
  match text with
  | [] => Some (inr q)
  | c :: text => q ← kmp_byte (pattern kmp) (prefix_tbl kmp) q c; if q =? pattern_len kmp then Some (inl (u32 (consumed + i + 1))) else kmp_block kmp consumed (i + 1) q text
  end.

Fixpoint kmp_loop (n : nat) (get_next_block : source) (kmp : ts_kmp) (consumed q : Z) : option (option Z) :=
  match n with
  | O => None
  | S n =>
      let text := get_next_block consumed in
      let text_len := Z.of_nat (length text) in
      if text_len =? 0 then Some None else
      o ← kmp_block kmp consumed 0 q text;
      match o with
      | inl offset => Some (Some offset)
      | inr q => kmp_loop n get_next_block kmp (u32 (consumed + text_len)) q
      end
  end.

(** The result and the new [state->offset]. *)
Definition kmp_find (n : nat) (get_next_block : source) (kmp : ts_kmp) (offset : Z) : option (Z * Z) :=
  o ← kmp_loop n get_next_block kmp offset 0;
  match o with
  | Some offset' => Some (u32 (offset' - pattern_len kmp), offset')
  | None => Some (UINT_MAX, offset)
  end.

Fixpoint table_loop (n : nat) (pat : list Z) (k q : Z) (tbl : list Z) : option (list Z) :=
  match n with
  | O => Some tbl
  | S n => c ← aget pat q; k ← kmp_byte pat tbl k c; tbl ← aset tbl q k; table_loop n pat k (q + 1) tbl
  end.
Definition kmp_prefix_tbl (pat tbl : list Z) : option (list Z) := table_loop (length pat - 1) pat 0 1 tbl.

(** The size is computed in 32 bits; an object without room for the table of [len]
    entries and the pattern is written past its end. *)
Definition kmp_init (kmalloc : Z -> bool) (pat : list Z) : option (Z + ts_kmp) :=
  let len := Z.of_nat (length pat) in
  let prefix_tbl_len := u32 (len * 4) in
  let priv_size := u32 (sizeof_ts_kmp + len + prefix_tbl_len) in
  match alloc_ts_config kmalloc priv_size with
  | inl err => Some (inl err)
  | inr size =>
      if size <? TS_PRIV_ALIGN sizeof_ts_config + sizeof_ts_kmp + len * 4 + len then None else
      tbl ← kmp_prefix_tbl pat (replicate (length pat) 0);
      Some (inr (mk_kmp pat len tbl))
  end.

(** ** Boyer-Moore *)

Definition ASIZE : Z := 256.
Record ts_bm := mk_bm { bm_pattern : list Z; patlen : Z; bad_shift : list Z; good_shift : list Z }.

(** The comparison from the right: [None] for a match, or the number of equal bytes. *)
Fixpoint bm_compare (n : nat) (bm : ts_bm) (text : list Z) (shift i : Z) : option (option Z) :=
  match n with
  | O => Some None
  | S n => t ← aget text (shift - i); p ← aget (bm_pattern bm) (patlen bm - 1 - i); if negb (t =? p) then Some (Some i) else bm_compare n bm text shift (i + 1)
  end.

(** The loop over a block: the match, or the new [shift]. *)
Fixpoint bm_block (n : nat) (bm : ts_bm) (text : list Z) (shift : Z) : option (Z + Z) :=
  match n with
  | O => None
  | S n =>
      if Z.of_nat (length text) <=? u32 shift then Some (inr shift) else
      o ← bm_compare (Z.to_nat (patlen bm)) bm text shift 0;
      match o with
      | None => Some (inl (shift - (patlen bm - 1)))
      | Some i =>
          t ← aget text (shift - i);
          bs ← aget (bad_shift bm) t;
          gs ← aget (good_shift bm) i;
          bm_block n bm text (Z.max (s32 (shift - i + bs)) (s32 (shift + gs)))
      end
  end.

Fixpoint bm_loop (n : nat) (get_next_block : source) (bm : ts_bm) (consumed shift : Z) : option Z :=
  match n with
  | O => None
  | S n =>
      let text := get_next_block consumed in
      let text_len := Z.of_nat (length text) in
      if text_len =? 0 then Some UINT_MAX else
      o ← bm_block (S (length text)) bm text shift;
      match o with
      | inl pos => Some (u32 (consumed + pos))
      | inr shift => bm_loop n get_next_block bm (u32 (consumed + text_len)) shift
      end
  end.

(** The search starts with [shift = patlen] and leaves [state->offset] alone. *)
Definition bm_find (n : nat) (get_next_block : source) (bm : ts_bm) (offset : Z) : option (Z * Z) :=
  r ← bm_loop n get_next_block bm offset (patlen bm); Some (r, offset).

Fixpoint sub_loop (n : nat) (pat : list Z) (x y i j g : Z) : option bool :=
  match n with
  | O => None
  | S n =>
      a ← aget pat x; b ← aget pat y;
      if negb (a =? b) then Some false else
      if y - 1 <? 0 then Some true else
      if g - 1 =? 0 then a ← aget pat (i - 1); b ← aget pat (j - 1); Some (negb (a =? b)) else
      sub_loop n pat (x - 1) (y - 1) i j (g - 1)
  end.
Definition subpattern (pat : list Z) (i j g : Z) : option bool := sub_loop (Z.to_nat g) pat (i + g - 1) (j + g - 1) i j g.

Fixpoint bad_loop (n : nat) (pat : list Z) (i : Z) (bad : list Z) : option (list Z) :=
  match n with
  | O => Some bad
  | S n => c ← aget pat i; bad ← aset bad c (Z.of_nat (length pat) - 1 - i); bad_loop n pat (i + 1) bad
  end.

(** [for (j = i-1; j >= 1-g; j--)]: the first [j] that fits. *)
Fixpoint good_search (n : nat) (pat : list Z) (i j g : Z) : option (option Z) :=
  match n with
  | O => Some None
  | S n => b ← subpattern pat i j g; if (b : bool) then Some (Some j) else good_search n pat i (j - 1) g
  end.

Fixpoint good_loop (n : nat) (pat : list Z) (i g : Z) (good : list Z) : option (list Z) :=
  match n with
  | O => Some good
  | S n =>
      o ← good_search (Z.to_nat (i - 1 - (1 - g) + 1)) pat i (i - 1) g;
      good ← match o with Some j => aset good g (Z.of_nat (length pat) - j - g) | None => Some good end;
      good_loop n pat (i - 1) (g + 1) good
  end.

(** [compute_prefix_tbl] of [lib/ts_bm.c]. *)
Definition bm_tables (pat : list Z) : option (list Z * list Z) :=
  let patlen := Z.of_nat (length pat) in
  bad ← bad_loop (length pat - 1) pat 0 (replicate (Z.to_nat ASIZE) patlen);
  good ← aset (replicate (length pat) patlen) 0 1;
  good ← good_loop (length pat - 1) pat (patlen - 1) 1 good;
  Some (bad, good).

Definition bm_init (kmalloc : Z -> bool) (pat : list Z) : option (Z + ts_bm) :=
  let len := Z.of_nat (length pat) in
  let prefix_tbl_len := u32 (len * 4) in
  let priv_size := u32 (sizeof_ts_bm + len + prefix_tbl_len) in
  match alloc_ts_config kmalloc priv_size with
  | inl err => Some (inl err)
  | inr size =>
      if size <? TS_PRIV_ALIGN sizeof_ts_config + sizeof_ts_bm + len * 4 + len then None else
      '(bad, good) ← bm_tables pat;
      Some (inr (mk_bm pat len bad good))
  end.

(** ** Configurations *)

Inductive ts_config := Kmp (kmp : ts_kmp) | Bm (bm : ts_bm).

Definition ops_find (conf : ts_config) (n : nat) (get_next_block : source) (offset : Z) : option (Z * Z) :=
  match conf with Kmp kmp => kmp_find n get_next_block kmp offset | Bm bm => bm_find n get_next_block bm offset end.

(** [conf->finish] is left to the caller. *)
Definition textsearch_next (conf : ts_config) (n : nat) (get_next_block : source) (offset : Z) : option (Z * Z) := ops_find conf n get_next_block offset.
Definition textsearch_find (conf : ts_config) (n : nat) (get_next_block : source) (offset : Z) : option (Z * Z) := textsearch_next conf n get_next_block 0.

Definition get_linear_data (data : list Z) : source := fun consumed => if consumed <? Z.of_nat (length data) then drop (Z.to_nat consumed) data else [].
Definition textsearch_find_continuous (conf : ts_config) (n : nat) (data : list Z) (offset : Z) : option (Z * Z) := textsearch_find conf n (get_linear_data data) offset.

(** ** The registered algorithms *)

Inductive algorithm := algo_kmp | algo_bm.
Definition ops_init (a : algorithm) (kmalloc : Z -> bool) (pat : list Z) : option (Z + ts_config) :=
  match a with
  | algo_kmp => r ← kmp_init kmalloc pat; Some (match r with inl e => inl e | inr kmp => inr (Kmp kmp) end)
  | algo_bm => r ← bm_init kmalloc pat; Some (match r with inl e => inl e | inr bm => inr (Bm bm) end)
  end.

(** A [struct ts_ops]: its address, its name, its functions, and if the name and the
    functions are set. *)
Record ts_ops := mk_ops { ops_addr : Z; ops_name : Z; ops_algo : algorithm; ops_set : bool }.
(** The list of registered algorithms, and the references to their modules, by the
    address of the [struct ts_ops]. *)
Abbreviation registry := (list ts_ops).
Abbreviation references := (gmap Z Z).

Definition textsearch_register (ops : ts_ops) (l : registry) : Z * registry :=
  if negb (ops_set ops) then (- EINVAL, l) else
  if existsb (fun o => ops_name o =? ops_name ops) l then (- EEXIST, l) else (0, l ++ [ops]).

Fixpoint unregister_loop (addr : Z) (seen l : registry) : Z * registry :=
  match l with [] => (- ENOENT, seen) | o :: l => if ops_addr o =? addr then (0, seen ++ l) else unregister_loop addr (seen ++ [o]) l end.
Definition textsearch_unregister (addr : Z) (l : registry) : Z * registry := unregister_loop addr [] l.

(** [alive] says if [try_module_get] succeeds. *)
Definition module_get (addr : Z) (r : references) : references := <[addr := default 0 (r !! addr) + 1]> r.
Definition module_put (addr : Z) (r : references) : references := <[addr := default 0 (r !! addr) - 1]> r.

Fixpoint lookup_ts_algo (alive : ts_ops -> bool) (name : Z) (l : registry) (r : references) : option ts_ops * references :=
  match l with
  | [] => (None, r)
  | o :: l => if ops_name o =? name then if negb (alive o) then (None, r) else (Some o, module_get (ops_addr o) r) else lookup_ts_algo alive name l r
  end.

(** [CONFIG_KMOD] is not set, so that no module is loaded. The configuration has the
    address of its algorithm. *)
Definition textsearch_prepare (alive : ts_ops -> bool) (l : registry) (kmalloc : Z -> bool) (algo : Z) (pat : list Z) (r : references) : option ((Z + ts_config * Z) * references) :=
  if Z.of_nat (length pat) =? 0 then Some (inl (- EINVAL), r) else
  match lookup_ts_algo alive algo l r with
  | (None, r) => Some (inl (- ENOENT), r)
  | (Some o, r) =>
      c ← ops_init (ops_algo o) kmalloc pat;
      match c with
      | inl err => Some (inl err, module_put (ops_addr o) r)
      | inr conf => Some (inr (conf, ops_addr o), r)
      end
  end.

(** The two algorithms have no [destroy] function. *)
Definition textsearch_destroy (conf : ts_config * Z) (r : references) : references := module_put (snd conf) r.

End TextSearch.
