(* ===== verification/Kmp.v ===== *)
(** * Text search: the Knuth-Morris-Pratt algorithm finds the first occurrence *)

From S2P Require Import Prelude TextSearch.

Module Kmp.
Import TextSearch.

(** [pat] occurs in [text] at [p]. *)
Definition occurs (pat text : list Z) (p : nat) : Prop := exists u v, text = u ++ pat ++ v /\ length u = p.

Section kmp.
Context (pat : list Z).

(** The first [k] bytes of the pattern end the text [t]. *)
Definition suf (k : nat) (t : list Z) : Prop := (k <= length pat)%nat /\ take k pat `suffix_of` t.
(** [q] is the longest such prefix. *)
Definition best (q : nat) (t : list Z) : Prop := suf q t /\ forall k, suf k t -> (k <= q)%nat.

Lemma suf_0 t : suf 0 t.
Proof. split; [lia|]. apply suffix_nil. Qed.

Lemma take_S k c : pat !! k = Some c -> take (S k) pat = take k pat ++ [c].
Proof. apply take_S_r. Qed.

Lemma suf_step k t c : suf (S k) (t ++ [c]) <-> suf k t /\ pat !! k = Some c.
Proof.
  split.
  - intros [Hk Hs]. destruct (lookup_lt_is_Some_2 pat k) as [d Hd]; [lia|]. rewrite (take_S k d Hd) in Hs. pose proof (suffix_snoc_inv_1 _ _ _ _ Hs) as ->. apply suffix_snoc_inv_2 in Hs. split; [split; [lia|done]|done].
  - intros [[Hk Hs] Hc]. split; [by apply lookup_lt_Some in Hc|]. rewrite (take_S k c Hc). by apply suffix_snoc.
Qed.

(** Two prefixes that end the same text. *)
Lemma suf_nested j k t : suf j t -> suf k t -> (j <= k)%nat -> take j pat `suffix_of` take k pat.
Proof.
  intros [Hj [u1 E1]] [Hk [u2 E2]] Hjk. assert (length (take j pat) = j) as L1 by (rewrite length_take; lia). assert (length (take k pat) = k) as L2 by (rewrite length_take; lia). exists (drop (length u2) u1).
  rewrite E1 in E2. assert (length u2 <= length u1)%nat as Hl by (apply (f_equal length) in E2; rewrite !length_app in E2; lia). apply (f_equal (drop (length u2))) in E2. rewrite drop_app_length in E2. rewrite <- E2. by rewrite drop_app_le.
Qed.

Lemma suf_trans j k t : take j pat `suffix_of` take k pat -> (j <= k)%nat -> suf k t -> suf j t.
Proof. intros Hs Hjk [Hk Ht]. split; [lia|]. by etransitivity. Qed.

(** The prefix before the byte [j + 1], without its first byte: its ends are the proper borders. *)
Definition body (j : nat) : list Z := drop 1 (take (S j) pat).

Lemma body_border k j : (k <= j < length pat)%nat -> suf k (body j) <-> take k pat `suffix_of` take (S j) pat.
Proof.
  intros Hk. unfold body. split.
  - intros [_ [u E]]. destruct pat as [|c p] eqn:Ep; [cbn in Hk; lia|]. cbn [take drop] in E |- *. exists (c :: u). cbn [app]. by rewrite <- E.
  - intros [u E]. split; [lia|]. exists (drop 1 u). rewrite E. assert (length (take (S j) pat) = S j) as L1 by (rewrite length_take; lia). assert (length (take k pat) = k) as L2 by (rewrite length_take; lia). rewrite E, length_app in L1. by rewrite drop_app_le by lia.
Qed.

Lemma suf_body_le k j : (j < length pat)%nat -> suf k (body j) -> (k <= j)%nat.
Proof. intros Hj [Hk [u E]]. apply (f_equal length) in E. unfold body in E. rewrite length_app, length_drop, !length_take in E. lia. Qed.

(** The table has the longest proper border of every prefix. *)
Definition tbl_ok (n : nat) (tbl : list Z) : Prop := forall j, (j < n)%nat -> exists b, tbl !! j = Some (Z.of_nat b) /\ best b (body j).

Lemma fallback_ok tbl t c n q : tbl_ok q tbl -> suf q t -> (q < length pat)%nat -> (forall k, suf k t -> pat !! k = Some c -> (k <= q)%nat) -> (q < n)%nat ->
  exists q', fallback n pat tbl (Z.of_nat q) c = Some (Z.of_nat q') /\ suf q' t /\ (q' <= q)%nat /\ (q' = O \/ pat !! q' = Some c) /\ (forall k, suf k t -> pat !! k = Some c -> (k <= q')%nat).
Proof.
  revert q. induction n as [|n IH]; intros q Ht Hs Hq Hmax Hn; [lia|]. cbn [fallback]. destruct (Z.ltb_spec 0 (Z.of_nat q)) as [Hpos|Hz]; [|exists q; split; [done|]; split; [done|]; split; [lia|]; split; [left; lia|done]].
  destruct (lookup_lt_is_Some_2 pat q Hq) as [p Hp]. rewrite (aget_lookup pat (Z.of_nat q)), Nat2Z.id, Hp by lia. cbn [mbind option_bind]. destruct (Z.eqb_spec p c) as [->|Hne]; cbn [negb]; [exists q; split; [done|]; split; [done|]; split; [lia|]; split; [by right|done]|].
  destruct (Ht (q - 1)%nat) as (b & Hb & [Hb1 Hb2]); [lia|]. rewrite aget_lookup by lia. replace (Z.to_nat (Z.of_nat q - 1)) with (q - 1)%nat by lia. rewrite Hb. cbn [mbind option_bind]. pose proof (suf_body_le b (q - 1) ltac:(lia) Hb1) as Hbq.
  assert (S (q - 1) = q) as ES by lia. pose proof (fun k Hk => body_border k (q - 1) Hk) as Hbord. rewrite ES in Hbord. destruct (IH b) as (q' & E & H1 & H2 & H3 & H4); [intros j Hj; apply Ht; lia| |lia| |lia|exists q'; split; [done|]; split; [done|]; split; [lia|done]].
  - apply (suf_trans b q); [apply Hbord; [lia|done]|lia|done].
  - intros k Hk Hkc. pose proof (Hmax k Hk Hkc) as Hkq. assert (k <> q) by (intros ->; congruence). apply Hb2. apply Hbord; [lia|]. by apply (suf_nested k q t).
Qed.

Lemma kmp_byte_ok tbl t c q : tbl_ok q tbl -> best q t -> (q < length pat)%nat -> exists q', kmp_byte pat tbl (Z.of_nat q) c = Some (Z.of_nat q') /\ best q' (t ++ [c]).
Proof.
  intros Ht [Hs Hmax] Hq. unfold kmp_byte. rewrite Nat2Z.id. destruct (fallback_ok tbl t c (S q) q Ht Hs Hq ltac:(intros k Hk _; by apply Hmax) ltac:(lia)) as (q1 & E & H1 & H2 & H3 & H4). rewrite E. cbn [mbind option_bind].
  destruct (lookup_lt_is_Some_2 pat q1) as [p Hp]; [lia|]. rewrite aget_lookup, Nat2Z.id, Hp by lia. cbn [mbind option_bind]. destruct (Z.eqb_spec p c) as [->|Hne].
  - exists (S q1). split; [f_equal; lia|]. split; [by apply suf_step|]. intros [|k] Hk; [lia|]. apply suf_step in Hk as [Hk Hkc]. specialize (H4 k Hk Hkc). lia.
  - exists q1. split; [done|]. destruct H3 as [->|H3]; [|congruence]. split; [apply suf_0|]. intros [|k] Hk; [lia|]. apply suf_step in Hk as [Hk Hkc]. specialize (H4 k Hk Hkc). assert (k = O) as -> by lia. congruence.
Qed.

(** ** The table *)

Lemma body_step q c : pat !! q = Some c -> (1 <= q)%nat -> body q = body (q - 1) ++ [c].
Proof. intros Hc Hq. unfold body. replace (S (q - 1)) with q by lia. rewrite (take_S q c Hc). rewrite drop_app_le; [done|]. rewrite length_take. apply lookup_lt_Some in Hc. lia. Qed.

Lemma table_loop_ok n q k tbl : (q + n = length pat)%nat -> (1 <= q)%nat -> length tbl = length pat -> tbl_ok q tbl -> best k (body (q - 1)) -> exists tbl', table_loop n pat (Z.of_nat k) (Z.of_nat q) tbl = Some tbl' /\ length tbl' = length pat /\ tbl_ok (length pat) tbl'.
Proof.
  revert q k tbl. induction n as [|n IH]; intros q k tbl Hn Hq Hl Ht Hk; cbn [table_loop]; [exists tbl; split; [done|]; split; [done|]; by replace (length pat) with q by lia|].
  destruct (lookup_lt_is_Some_2 pat q) as [c Hc]; [lia|]. rewrite aget_lookup, Nat2Z.id, Hc by lia. cbn [mbind option_bind]. assert (k < length pat)%nat as Hkl by (pose proof (suf_body_le k (q - 1) ltac:(lia) (proj1 Hk)); lia). assert (tbl_ok k tbl) as Htk by (intros j Hj; apply Ht; pose proof (suf_body_le k (q - 1) ltac:(lia) (proj1 Hk)); lia).
  destruct (kmp_byte_ok tbl (body (q - 1)) c k Htk Hk Hkl) as (k' & E & Hk'). rewrite E. cbn [mbind option_bind]. rewrite aset_Z by lia. cbn [mbind option_bind]. rewrite Nat2Z.id. replace (Z.of_nat q + 1) with (Z.of_nat (S q)) by lia. rewrite <- (body_step q c Hc Hq) in Hk'. apply IH; [lia|lia|by rewrite length_insert| |by replace (S q - 1)%nat with q by lia].
  intros j Hj. destruct (decide (j = q)) as [->|Hjq]; [exists k'; split; [apply list_lookup_insert_eq; lia|done]|]. rewrite list_lookup_insert_ne by done. apply Ht. lia.
Qed.

Lemma best_nil : best 0 [].
Proof. split; [apply suf_0|]. intros k [Hk Hs]. apply suffix_nil_inv in Hs. apply (f_equal length) in Hs. rewrite length_take in Hs. cbn in Hs. lia. Qed.

Lemma kmp_prefix_tbl_ok : pat <> [] -> exists tbl, kmp_prefix_tbl pat (replicate (length pat) 0) = Some tbl /\ length tbl = length pat /\ tbl_ok (length pat) tbl.
Proof.
  intros Hne. assert (0 < length pat)%nat as Hl by (destruct pat; [done|cbn; lia]). assert (body 0 = []) as E0 by (unfold body; destruct pat; [done|reflexivity]). apply (table_loop_ok _ 1 0); [lia|lia|apply length_replicate| |change (1 - 1)%nat with O; rewrite E0; apply best_nil].
  intros j Hj. assert (j = O) as -> by lia. exists O. split; [by apply lookup_replicate_2|]. rewrite E0. apply best_nil.
Qed.

(** ** The search *)

Abbreviation m := (length pat).

Definition nomatch (t : list Z) : Prop := forall p, ~ occurs pat t p.

Lemma occurs_bound t p : occurs pat t p -> (p + m <= length t)%nat.
Proof. intros (u & v & -> & <-). rewrite !length_app. lia. Qed.

Lemma occurs_prefix t r p : occurs pat (t ++ r) p -> (p + m <= length t)%nat -> occurs pat t p.
Proof.
  intros (u & v & E & <-) Hl. exists u, (drop (length (u ++ pat)) t). split; [|done]. rewrite app_assoc, <- (take_drop (length (u ++ pat)) t) at 1. f_equal.
  rewrite app_assoc in E. apply (f_equal (take (length (u ++ pat)))) in E. rewrite take_app_length, take_app_le in E by (rewrite length_app; lia). done.
Qed.

Lemma occurs_app t r p : occurs pat t p -> occurs pat (t ++ r) p.
Proof. intros (u & v & -> & <-). exists u, (v ++ r). by rewrite <- !app_assoc. Qed.

Lemma suf_occurs t : suf m t <-> occurs pat t (length t - m) /\ (m <= length t)%nat.
Proof.
  unfold suf. rewrite take_ge by lia. split.
  - intros [_ [u ->]]. rewrite length_app. split; [|lia]. exists u, []. rewrite app_nil_r. split; [done|lia].
  - intros [(u & v & E & Hu) Hl]. split; [lia|]. exists u. assert (v = []) as -> by (apply length_zero_iff_nil; apply (f_equal length) in E; rewrite !length_app in E; lia). by rewrite app_nil_r in E.
Qed.

Lemma nomatch_snoc t c : nomatch t -> ~ suf m (t ++ [c]) -> nomatch (t ++ [c]).
Proof.
  intros Hn Hs p Hp. pose proof (occurs_bound _ _ Hp) as Hb. rewrite length_app in Hb. cbn [length] in Hb. destruct (decide (p + m <= length t)%nat) as [Hle|Hgt]; [by apply (Hn p), (occurs_prefix t [c])|]. apply Hs, suf_occurs. rewrite length_app. cbn [length]. split; [|lia]. by replace (length t + 1 - m)%nat with p by lia.
Qed.

Context (tbl : list Z) (Hpat : pat <> []) (Htbl : tbl_ok m tbl).
Abbreviation kmp := (mk_kmp pat (Z.of_nat m) tbl).

Lemma kmp_block_ok l t q consumed i : best q t -> (q < m)%nat -> nomatch t ->
  (exists l1 c l2, l = l1 ++ c :: l2 /\ nomatch (t ++ l1) /\ suf m (t ++ l1 ++ [c]) /\ kmp_block kmp consumed i (Z.of_nat q) l = Some (inl (u32 (consumed + i + Z.of_nat (length l1) + 1)))) \/
  (exists q', kmp_block kmp consumed i (Z.of_nat q) l = Some (inr (Z.of_nat q')) /\ best q' (t ++ l) /\ (q' < m)%nat /\ nomatch (t ++ l)).
Proof.
  revert t q i. induction l as [|c l IH]; intros t q i Hb Hq Hn; cbn [kmp_block]; [right; exists q; by rewrite app_nil_r|]. cbn [pattern prefix_tbl pattern_len].
  destruct (kmp_byte_ok tbl t c q ltac:(intros j Hj; apply Htbl; lia) Hb Hq) as (q1 & E & Hb1). rewrite E. cbn [mbind option_bind]. assert (q1 <= m)%nat as Hq1 by apply Hb1. destruct (Z.eqb_spec (Z.of_nat q1) (Z.of_nat m)) as [Em|Em].
  - left. exists [], c, l. rewrite app_nil_r. split; [done|]. split; [done|]. assert (q1 = m) as -> by lia. split; [apply Hb1|]. cbn [length]. do 3 f_equal. lia.
  - assert (~ suf m (t ++ [c])) as Hns by (intros Hs; apply Hb1 in Hs; lia). destruct (IH (t ++ [c]) q1 (i + 1) Hb1 ltac:(lia) (nomatch_snoc t c Hn Hns)) as [(l1 & d & l2 & -> & Hn1 & Hs1 & E1)|(q' & E1 & Hb' & Hq' & Hn')].
    + left. exists (c :: l1), d, l2. rewrite <- app_assoc in Hn1, Hs1. split; [done|]. split; [done|]. split; [done|]. rewrite E1. cbn [length]. do 3 f_equal. lia.
    + right. exists q'. rewrite <- app_assoc in Hb', Hn'. done.
Qed.

(** The callback delivers [text] in blocks. *)
Definition delivers (text : list Z) (get_next_block : source) : Prop :=
  forall c, (c <= length text)%nat -> get_next_block (Z.of_nat c) `prefix_of` drop c text /\ ((c < length text)%nat -> get_next_block (Z.of_nat c) <> []).

Context (text : list Z) (get_next_block : source) (Hget : delivers text get_next_block) (Hlen : Z.of_nat (length text) < 2 ^ 32).

(** The first occurrence at or after [o]. *)
Definition first_at (o p : nat) : Prop := occurs pat text p /\ (o <= p)%nat /\ forall p', occurs pat text p' -> (o <= p')%nat -> (p <= p')%nat.

Lemma occurs_drop o p : (o <= length text)%nat -> occurs pat (drop o text) p <-> occurs pat text (o + p).
Proof.
  intros Ho. split.
  - intros (u & v & E & <-). exists (take o text ++ u), v. rewrite <- app_assoc, <- E, take_drop. split; [done|]. rewrite length_app, length_take. lia.
  - intros (u & v & E & Hu). exists (drop o u), v. split; [|rewrite length_drop; lia]. rewrite E, drop_app_le by lia. done.
Qed.

(** A match at the end of the bytes seen is the first. *)
Lemma match_first o t c r : (o <= length text)%nat -> drop o text = t ++ c :: r -> nomatch t -> suf m (t ++ [c]) -> first_at o (o + (length t + 1 - m)) /\ (m <= length t + 1)%nat.
Proof.
  intros Ho E Hn Hs. apply suf_occurs in Hs as [Hs Hm]. rewrite length_app in Hs, Hm. cbn [length] in Hs, Hm. split; [|done]. assert (drop o text = (t ++ [c]) ++ r) as E' by (by rewrite <- app_assoc). split; [apply occurs_drop; [done|]; rewrite E'; by apply occurs_app|]. split; [lia|].
  intros p' Hp' Hop. destruct (decide (o + (length t + 1 - m) <= p')%nat) as [|Hlt]; [done|]. exfalso. apply (Hn (p' - o)%nat). apply (occurs_prefix t (c :: r)); [|lia]. rewrite <- E. apply occurs_drop; [done|]. by replace (o + (p' - o))%nat with p' by lia.
Qed.

Lemma kmp_loop_ok n o t q : (o + length t <= length text)%nat -> t `prefix_of` drop o text -> best q t -> (q < m)%nat -> nomatch t -> (length text - (o + length t) < n)%nat ->
  (exists p, first_at o p /\ kmp_loop n get_next_block kmp (Z.of_nat (o + length t)) (Z.of_nat q) = Some (Some (Z.of_nat (p + m)))) \/
  ((forall p, (o <= p)%nat -> ~ occurs pat text p) /\ kmp_loop n get_next_block kmp (Z.of_nat (o + length t)) (Z.of_nat q) = Some None).
Proof.
  revert t q. induction n as [|n IH]; intros t q Ho [r Er] Hb Hq Hn Hf; [lia|]. cbn [kmp_loop]. destruct (Hget (o + length t)%nat Ho) as [[r' Eb] Hne]. set (l := get_next_block (Z.of_nat (o + length t))) in *. rewrite <- drop_drop, Er, drop_app_length in Eb.
  destruct (Z.eqb_spec (Z.of_nat (length l)) 0) as [El|El].
  { right. split; [|done]. assert (l = []) as El0 by (apply length_zero_iff_nil; lia). destruct (decide (o + length t < length text)%nat) as [Hlt|Hge]; [by apply Hne in Hlt|]. intros p Hop Hp. assert (r = []) as -> by (apply length_zero_iff_nil; apply (f_equal length) in Er; rewrite length_drop, length_app in Er; lia). rewrite app_nil_r in Er. apply (Hn (p - o)%nat). rewrite <- Er. apply occurs_drop; [lia|]. by replace (o + (p - o))%nat with p by lia. }
  destruct (kmp_block_ok l t q (Z.of_nat (o + length t)) 0 Hb Hq Hn) as [(l1 & c & l2 & E & Hn1 & Hs1 & Ek)|(q' & Ek & Hb' & Hq' & Hn')]; rewrite Ek; cbn [mbind option_bind].
  - left. assert (drop o text = (t ++ l1) ++ c :: l2 ++ r') as ED by (rewrite Er, Eb, E, <- !app_assoc; done). rewrite app_assoc in Hs1. destruct (match_first o (t ++ l1) c (l2 ++ r') ltac:(lia) ED Hn1 Hs1) as [Hfirst Hm]. exists (o + (length (t ++ l1) + 1 - m))%nat. split; [done|]. do 2 f_equal.
    apply (f_equal length) in ED. rewrite length_drop, length_app in ED. cbn [length] in ED. rewrite length_app in *. rewrite u32_small by (unfold is_u32; lia). lia.
  - assert (length (t ++ l) <= length (drop o text))%nat as Hl by (rewrite Er, Eb, !length_app; lia). rewrite length_app, length_drop in Hl. rewrite u32_small by (unfold is_u32; lia). replace (Z.of_nat (o + length t) + Z.of_nat (length l)) with (Z.of_nat (o + length (t ++ l))) by (rewrite length_app; lia).
    apply IH; [rewrite length_app; lia|exists r'; by rewrite Er, Eb, app_assoc|done|done|done|rewrite length_app; lia].
Qed.

Lemma kmp_find_ok n o : (o <= length text)%nat -> (length text - o < n)%nat ->
  (exists p, first_at o p /\ kmp_find n get_next_block kmp (Z.of_nat o) = Some (Z.of_nat p, Z.of_nat (p + m))) \/
  ((forall p, (o <= p)%nat -> ~ occurs pat text p) /\ kmp_find n get_next_block kmp (Z.of_nat o) = Some (UINT_MAX, Z.of_nat o)).
Proof.
  intros Ho Hn. assert (0 < m)%nat as Hm by (destruct pat; [done|cbn; lia]). assert (nomatch []) as Hn0 by (intros p Hp; apply occurs_bound in Hp; cbn in Hp; lia). unfold kmp_find.
  destruct (kmp_loop_ok n o [] 0 ltac:(cbn [length]; lia) (prefix_nil _) best_nil Hm Hn0 ltac:(cbn [length]; lia)) as [(p & Hp & E)|[Hno E]]; cbn [length] in E; rewrite Nat.add_0_r in E; change (Z.of_nat 0) with 0 in E; rewrite E; cbn [mbind option_bind]; [left|right; done].
  exists p. split; [done|]. pose proof (occurs_bound _ _ (proj1 Hp)). cbn [pattern_len]. do 2 f_equal. rewrite u32_small by (unfold is_u32; lia). lia.
Qed.

End kmp.

End Kmp.
