(* ===== verification/BoyerMoore.v ===== *)
(** * Text search: the Boyer-Moore algorithm on linear data

    The two shift tables never skip an occurrence; since the search starts with
    [shift = patlen], an occurrence at the start of the data is not looked at. *)

From S2P Require Import Prelude TextSearch Kmp.

Module BoyerMoore.
Import TextSearch Kmp.

Definition is_bytes (l : list Z) : Prop := forall c, c ∈ l -> 0 <= c < 256.

Section bm.
Context (pat : list Z) (Hpat : pat <> []) (Hbytes : is_bytes pat).
Abbreviation n := (Z.of_nat (length pat)).
Abbreviation P := (aget pat).

Lemma n_pos : 1 <= n.
Proof. destruct pat; [done|]. cbn [length]. lia. Qed.

Lemma aget_Some {A} (l : list A) i : 0 <= i < Z.of_nat (length l) -> exists x, aget l i = Some x /\ x ∈ l.
Proof. intros H. rewrite aget_lookup by lia. destruct (lookup_lt_is_Some_2 l (Z.to_nat i)) as [x Hx]; [lia|]. exists x. split; [done|]. by eapply list_elem_of_lookup_2. Qed.

Lemma P_Some i : 0 <= i < n -> exists c, P i = Some c /\ 0 <= c < 256.
Proof. intros H. destruct (aget_Some pat i H) as (c & Hc & Hin). exists c. split; [done|]. by apply Hbytes. Qed.

(** ** The shift by the last occurrence of a byte *)

(** The first [i] bytes of the pattern are in the table. *)
Definition bad_ok (i : Z) (bad : list Z) : Prop :=
  length bad = 256%nat /\ forall c, 0 <= c < 256 -> exists d, aget bad c = Some d /\ 1 <= d <= n /\ forall k, 0 <= k < i -> P k = Some c -> d <= n - 1 - k.

Lemma bad_loop_ok m i bad : i + Z.of_nat m <= n - 1 -> 0 <= i -> bad_ok i bad -> exists bad', bad_loop m pat i bad = Some bad' /\ bad_ok (i + Z.of_nat m) bad'.
Proof.
  revert i bad. induction m as [|m IH]; intros i bad Hm Hi Hb; cbn [bad_loop]; [exists bad; by rewrite Z.add_0_r|]. destruct (P_Some i) as (c & Hc & Hr); [lia|]. rewrite Hc. cbn [mbind option_bind]. destruct Hb as [Hl Hb]. rewrite aset_Z by lia. cbn [mbind option_bind].
  destruct (IH (i + 1) (<[Z.to_nat c := n - 1 - i]> bad)) as (bad' & E & Hb'); [lia|lia| |exists bad'; split; [done|]; by replace (i + Z.of_nat (S m)) with (i + 1 + Z.of_nat m) by lia]. split; [by rewrite length_insert|]. intros d Hd. rewrite aget_lookup by lia. destruct (decide (d = c)) as [->|Hne].
  - exists (n - 1 - i). rewrite list_lookup_insert_eq by lia. split; [done|]. split; [lia|]. intros k Hk _. lia.
  - rewrite list_lookup_insert_ne by lia. destruct (Hb d Hd) as (x & Hx & Hx1 & Hx2). rewrite aget_lookup in Hx by lia. exists x. split; [done|]. split; [done|]. intros k Hk Hkd. destruct (decide (k = i)) as [->|Hki]; [rewrite Hc in Hkd; injection Hkd as ->; done|]. apply Hx2; [lia|done].
Qed.

(** ** The shift by the next place where the matched end occurs again *)

(** The end of length [g] occurs again [e] bytes before, after another byte. *)
Definition compat (g e : Z) : Prop := (forall k, 0 <= k < g -> 0 <= n - 1 - k - e -> P (n - 1 - k) = P (n - 1 - k - e)) /\ (0 <= n - 1 - g - e -> P (n - 1 - g) <> P (n - 1 - g - e)).

Lemma sub_loop_ok m g e k : 1 <= g <= n - 1 -> 1 <= e <= n - 1 -> 0 <= k < g -> Z.of_nat m = g - k -> 0 <= n - 1 - k - e -> (forall k', 0 <= k' < k -> P (n - 1 - k') = P (n - 1 - k' - e)) ->
  exists b, sub_loop m pat (n - 1 - k) (n - 1 - k - e) (n - g) (n - g - e) (g - k) = Some b /\ (b = true <-> compat g e).
Proof.
  revert k. induction m as [|m IH]; intros k Hg He Hk Hm Hy Heq; [lia|]. cbn [sub_loop]. destruct (P_Some (n - 1 - k)) as (a & Ha & _); [lia|]. destruct (P_Some (n - 1 - k - e)) as (b & Hb & _); [lia|]. rewrite Ha, Hb. cbn [mbind option_bind]. destruct (Z.eqb_spec a b) as [->|Hne]; cbn [negb].
  2: { exists false. split; [done|]. split; [done|]. intros [H _]. specialize (H k ltac:(lia) Hy). congruence. }
  assert (forall k', 0 <= k' < k + 1 -> P (n - 1 - k') = P (n - 1 - k' - e)) as Heq' by (intros k' Hk'; destruct (decide (k' = k)) as [->|Hkk]; [congruence|apply Heq; lia]). destruct (Z.ltb_spec (n - 1 - k - e - 1) 0) as [Hlt|Hge].
  { exists true. split; [done|]. split; [intros _|done]. split; [|intros; lia]. intros k' Hk' Hy'. apply Heq'. lia. }
  destruct (Z.eqb_spec (g - k - 1) 0) as [E0|E0].
  - destruct (P_Some (n - g - 1)) as (a' & Ha' & _); [lia|]. destruct (P_Some (n - g - e - 1)) as (b' & Hb' & _); [lia|]. rewrite Ha', Hb'. cbn [mbind option_bind]. exists (negb (a' =? b')). split; [done|]. unfold compat. replace (n - 1 - g) with (n - g - 1) by lia. replace (n - g - 1 - e) with (n - g - e - 1) by lia. rewrite Ha', Hb'. destruct (Z.eqb_spec a' b') as [->|Hn]; cbn [negb].
    + split; [done|]. intros [_ H]. exfalso. apply H; [lia|done].
    + split; [intros _|done]. split; [intros k' Hk' _; apply Heq'; lia|congruence].
  - replace (n - 1 - k - 1) with (n - 1 - (k + 1)) by lia. replace (n - 1 - k - e - 1) with (n - 1 - (k + 1) - e) by lia. replace (g - k - 1) with (g - (k + 1)) by lia. apply IH; [done|done|lia|lia|lia|done].
Qed.

Lemma subpattern_ok g e : 1 <= g <= n - 1 -> 1 <= e <= n - 1 -> exists b, subpattern pat (n - g) (n - g - e) g = Some b /\ (b = true <-> compat g e).
Proof.
  intros Hg He. unfold subpattern. destruct (sub_loop_ok (Z.to_nat g) g e 0 Hg He) as (b & E & Hb); [lia|lia|lia|lia|]. exists b. split; [|done]. rewrite <- E. f_equal; lia.
Qed.

Lemma good_search_ok m g e : 1 <= g <= n - 1 -> 1 <= e -> e + Z.of_nat m = n ->
  (exists e', good_search m pat (n - g) (n - g - e) g = Some (Some (n - g - e')) /\ e <= e' <= n - 1 /\ forall x, e <= x < e' -> ~ compat g x) \/
  (good_search m pat (n - g) (n - g - e) g = Some None /\ forall x, e <= x < n -> ~ compat g x).
Proof.
  revert e. induction m as [|m IH]; intros e Hg He Hm; cbn [good_search]; [right; split; [done|lia]|]. destruct (subpattern_ok g e Hg ltac:(lia)) as (b & E & Hb). rewrite E. cbn [mbind option_bind]. destruct b.
  - left. exists e. split; [done|]. split; [lia|]. lia.
  - assert (~ compat g e) as Hno by (intros H; by apply Hb in H). replace (n - g - e - 1) with (n - g - (e + 1)) by lia. destruct (IH (e + 1) Hg ltac:(lia) ltac:(lia)) as [(e' & E' & He' & Hx)|[E' Hx]]; [left; exists e'|right]; (split; [done|]); [split; [lia|]|]; intros x Hxr; (destruct (decide (x = e)) as [->|Hxe]; [done|apply Hx; lia]).
Qed.

(** The entries below [g] are computed, the others are the initial ones. *)
Definition good_ok (g : Z) (good : list Z) : Prop :=
  length good = length pat /\ forall j, 0 <= j < n -> exists d, aget good j = Some d /\ 1 <= d <= n /\ (j = 0 -> d = 1) /\ (1 <= j < g -> forall e, 1 <= e < d -> ~ compat j e).

Lemma good_loop_ok m g good : 1 <= g -> g + Z.of_nat m = n -> good_ok g good -> exists good', good_loop m pat (n - g) g good = Some good' /\ good_ok n good'.
Proof.
  revert g good. induction m as [|m IH]; intros g good Hg Hm Hok; cbn [good_loop]; [exists good; split; [done|]; by replace n with g by lia|]. destruct Hok as [Hl Hok].
  assert (forall good', length good' = length pat -> (forall j, 0 <= j < n -> j <> g -> aget good' j = aget good j) -> (exists d, aget good' g = Some d /\ 1 <= d <= n /\ forall e, 1 <= e < d -> ~ compat g e) -> exists good'', good_loop m pat (n - g - 1) (g + 1) good' = Some good'' /\ good_ok n good'') as Hnext.
  { intros good' Hl' Hsame (d & Hd & Hd1 & Hd2). replace (n - g - 1) with (n - (g + 1)) by lia. apply IH; [lia|lia|]. split; [done|]. intros j Hj. destruct (decide (j = g)) as [->|Hjg]; [exists d; split; [done|]; split; [done|]; split; [lia|done]|]. rewrite (Hsame j Hj Hjg). destruct (Hok j Hj) as (x & Hx & H1 & H2 & H3). exists x. split; [done|]. split; [done|]. split; [done|]. intros Hjr. apply H3. lia. }
  replace (n - g - 1 - (1 - g) + 1) with (n - 1) by lia. destruct (good_search_ok (Z.to_nat (n - 1)) g 1 ltac:(lia) ltac:(lia) ltac:(lia)) as [(e & E & He & Hx)|[E Hx]]; rewrite E; cbn [mbind option_bind].
  - rewrite aset_Z by lia. cbn [mbind option_bind]. apply Hnext; [by rewrite length_insert|intros j Hj Hjg; rewrite !aget_lookup by lia; apply list_lookup_insert_ne; lia|]. exists e. rewrite aget_lookup, list_lookup_insert_eq by lia. split; [f_equal; lia|]. split; [lia|done].
  - apply Hnext; [done|done|]. destruct (Hok g ltac:(lia)) as (d & Hd & H1 & _). exists d. split; [done|]. split; [done|]. intros x Hxr. apply Hx. lia.
Qed.

Lemma bm_tables_ok : exists bad good, bm_tables pat = Some (bad, good) /\ bad_ok (n - 1) bad /\ good_ok n good.
Proof.
  pose proof n_pos as Hn. unfold bm_tables. destruct (bad_loop_ok (length pat - 1) 0 (replicate (Z.to_nat ASIZE) n)) as (bad & E & Hb); [lia|lia| |].
  { split; [apply length_replicate|]. intros c Hc. exists n. rewrite aget_lookup, lookup_replicate_2 by (unfold ASIZE; lia). split; [done|]. split; [lia|]. lia. }
  rewrite E. cbn [mbind option_bind]. rewrite aset_Z by (rewrite length_replicate; lia). cbn [mbind option_bind]. destruct (good_loop_ok (length pat - 1) 1 (<[Z.to_nat 0 := 1]> (replicate (length pat) n))) as (good & E2 & Hg); [lia|lia| |].
  { split; [by rewrite length_insert, length_replicate|]. intros j Hj. destruct (decide (j = 0)) as [->|Hj0]; [exists 1|exists n]; (rewrite aget_lookup; [|lia]); [rewrite list_lookup_insert_eq by (rewrite length_replicate; lia)|rewrite list_lookup_insert_ne, lookup_replicate_2 by lia]; (split; [done|]); (split; [lia|]); (split; [done|]); lia. }
  rewrite E2. cbn [mbind option_bind]. exists bad, good. split; [done|]. split; [|done]. by replace (0 + Z.of_nat (length pat - 1)) with (n - 1) in Hb by lia.
Qed.

(** ** The search *)

Context (bad good : list Z) (Hbad : bad_ok (n - 1) bad) (Hgood : good_ok n good).
Context (text : list Z) (Htext : is_bytes text) (Hlen : Z.of_nat (length text) + n < 2 ^ 31).
Abbreviation T := (aget text).
Abbreviation bm := (mk_bm pat n bad good).

(** The pattern occurs with its last byte at [s]. *)
Definition ends_at (s : Z) : Prop := n - 1 <= s < Z.of_nat (length text) /\ forall k, 0 <= k < n -> T (s - k) = P (n - 1 - k).

Lemma ends_occurs p : occurs pat text p <-> ends_at (Z.of_nat p + n - 1).
Proof.
  pose proof n_pos as Hn. split.
  - intros (u & v & E & <-). split; [rewrite E, !length_app; lia|]. intros k Hk. rewrite !aget_lookup by lia. rewrite E, lookup_app_r, lookup_app_l by lia. f_equal. lia.
  - intros [Hr Hk]. exists (take p text), (drop (p + length pat) text). split; [|rewrite length_take; lia]. rewrite <- (take_drop p text) at 1. f_equal. rewrite <- (take_drop (length pat) (drop p text)) at 1. rewrite drop_drop. f_equal. apply list_eq. intros i. destruct (decide (i < length pat)%nat) as [Hi|Hi].
    + rewrite lookup_take_lt, lookup_drop by lia. specialize (Hk (n - 1 - Z.of_nat i) ltac:(lia)). rewrite !aget_lookup in Hk by lia. replace (Z.to_nat (Z.of_nat p + n - 1 - (n - 1 - Z.of_nat i))) with (p + i)%nat in Hk by lia. rewrite Hk. f_equal. lia.
    + rewrite lookup_take_ge, lookup_ge_None_2 by lia. done.
Qed.

Lemma bm_compare_ok m shift i : 0 <= i -> Z.of_nat m = n - i -> n <= shift < Z.of_nat (length text) -> (forall k, 0 <= k < i -> T (shift - k) = P (n - 1 - k)) ->
  (bm_compare m bm text shift i = Some None /\ ends_at shift) \/
  (exists j, bm_compare m bm text shift i = Some (Some j) /\ 0 <= j < n /\ (forall k, 0 <= k < j -> T (shift - k) = P (n - 1 - k)) /\ T (shift - j) <> P (n - 1 - j)).
Proof.
  revert i. induction m as [|m IH]; intros i Hi Hm Hs Heq; cbn [bm_compare]; [left; split; [done|]; split; [lia|]; intros k Hk; apply Heq; lia|]. cbn [bm_pattern patlen].
  destruct (aget_Some text (shift - i)) as (t & Ht & _); [lia|]. destruct (P_Some (n - 1 - i)) as (p & Hp & _); [lia|]. rewrite Ht, Hp. cbn [mbind option_bind]. destruct (Z.eqb_spec t p) as [->|Hne]; cbn [negb].
  - apply IH; [lia|lia|done|]. intros k Hk. destruct (decide (k = i)) as [->|Hki]; [congruence|apply Heq; lia].
  - right. exists i. split; [done|]. split; [lia|]. split; [done|]. congruence.
Qed.

(** Neither shift skips an occurrence. *)
Lemma shifts_safe shift j t bs gs s' : n <= shift -> 0 <= j < n -> (forall k, 0 <= k < j -> T (shift - k) = P (n - 1 - k)) -> T (shift - j) <> P (n - 1 - j) -> T (shift - j) = Some t -> aget bad t = Some bs -> aget good j = Some gs ->
  shift < s' -> ends_at s' -> shift - j + bs <= s' /\ shift + gs <= s'.
Proof.
  intros Hs Hj Heq Hne Ht Hbs Hgs Hlt [Hr Hend]. destruct (aget_Some text (shift - j)) as (t' & Ht' & Hin); [lia|]. rewrite Ht in Ht'. injection Ht' as <-. apply Htext in Hin. split.
  - destruct (proj2 Hbad t Hin) as (d & Hd & Hd1 & Hd2). rewrite Hbs in Hd. injection Hd as <-. set (x := s' - (shift - j)). destruct (decide (x < n)) as [Hx|Hx]; [|lia]. specialize (Hd2 (n - 1 - x) ltac:(lia)). enough (bs <= x) by lia. replace x with (n - 1 - (n - 1 - x)) by lia. apply Hd2.
    specialize (Hend x ltac:(lia)). replace (s' - x) with (shift - j) in Hend by lia. congruence.
  - destruct (proj2 Hgood j Hj) as (d & Hd & Hd1 & Hd0 & Hd2). rewrite Hgs in Hd. injection Hd as <-. set (e := s' - shift). destruct (decide (gs <= e)) as [Hge|Hlt']; [lia|]. exfalso. destruct (decide (j = 0)) as [Hj0|Hj0]; [specialize (Hd0 Hj0); lia|]. apply (Hd2 ltac:(lia) e ltac:(lia)).
    assert (forall k, 0 <= k -> 0 <= n - 1 - k - e -> T (shift - k) = P (n - 1 - k - e)) as Hsh by (intros k Hk Hke; specialize (Hend (k + e) ltac:(lia)); replace (s' - (k + e)) with (shift - k) in Hend by lia; rewrite Hend; f_equal; lia).
    split; [intros k Hk Hke; rewrite <- (Heq k Hk); apply Hsh; lia|]. intros Hje HP. apply Hne. rewrite HP. apply Hsh; lia.
Qed.

Lemma bm_block_ok m shift : n <= shift -> shift <= Z.of_nat (length text) + n -> Z.of_nat (length text) - shift < Z.of_nat m -> (0 < m)%nat -> (forall s, n <= s < shift -> ~ ends_at s) ->
  (exists s, bm_block m bm text shift = Some (inl (s - (n - 1))) /\ n <= s /\ ends_at s /\ forall s', n <= s' < s -> ~ ends_at s') \/
  (exists sh, bm_block m bm text shift = Some (inr sh) /\ forall s, n <= s -> ~ ends_at s).
Proof.
  pose proof n_pos as Hn. revert shift. induction m as [|m IH]; intros shift Hs Hmax Hm Hm0 Hno; [lia|].
  cbn [bm_block]. rewrite u32_small by (unfold is_u32; lia). destruct (Z.leb_spec (Z.of_nat (length text)) shift) as [Hge|Hlt]; [right; exists shift; split; [done|]; intros s Hns Hs'; apply (Hno s); [|done]; destruct Hs' as [? _]; lia|]. cbn [patlen].
  destruct (bm_compare_ok (Z.to_nat n) shift 0) as [[E Hend]|(j & E & Hj & Heq & Hne)]; [lia|lia|lia|lia| |]; rewrite E; cbn [mbind option_bind]; [left; exists shift; done|]. cbn [bad_shift good_shift].
  destruct (aget_Some text (shift - j)) as (t & Ht & Hin); [lia|]. rewrite Ht. cbn [mbind option_bind]. destruct (proj2 Hbad t (Htext t Hin)) as (bs & Hbs & Hbs1 & _). rewrite Hbs. cbn [mbind option_bind]. destruct (proj2 Hgood j Hj) as (gs & Hgs & Hgs1 & _). rewrite Hgs. cbn [mbind option_bind].
  pose proof (fun s' => shifts_safe shift j t bs gs s' Hs Hj Heq Hne Ht Hbs Hgs) as Hsafe. rewrite !s32_small by lia. apply IH; [lia|lia|lia|lia|]. intros s Hsr Hend. destruct (decide (s < shift)) as [Hlt'|Hge]; [by apply (Hno s); [lia|]|]. destruct (decide (s = shift)) as [->|Hss]; [|specialize (Hsafe s ltac:(lia) Hend); lia].
  destruct Hend as [_ Hend]. apply Hne, Hend. lia.
Qed.

Lemma bm_find_ok k offset : (2 <= k)%nat -> offset = 0 ->
  (exists p, (1 <= p)%nat /\ occurs pat text p /\ (forall p', (1 <= p')%nat -> occurs pat text p' -> (p <= p')%nat) /\ bm_find k (get_linear_data text) bm offset = Some (Z.of_nat p, offset)) \/
  ((forall p, (1 <= p)%nat -> ~ occurs pat text p) /\ bm_find k (get_linear_data text) bm offset = Some (UINT_MAX, offset)).
Proof.
  pose proof n_pos as Hn. intros Hk ->. destruct k as [|[|k]]; [lia|lia|]. unfold bm_find. cbn [bm_loop patlen]. assert (get_linear_data text 0 = text) as E0 by (unfold get_linear_data; destruct (Z.ltb_spec 0 (Z.of_nat (length text))); [done|]; symmetry; apply length_zero_iff_nil; lia). rewrite E0.
  rewrite Z.add_0_l, (u32_small (Z.of_nat (length text))) by (unfold is_u32; lia). assert (get_linear_data text (Z.of_nat (length text)) = []) as E1 by (unfold get_linear_data; by rewrite Z.ltb_irrefl). rewrite E1. cbn [length]. change (Z.of_nat 0 =? 0) with true.
  destruct (Z.eqb_spec (Z.of_nat (length text)) 0) as [Ez|Ez]; [right; split; [|done]; intros p Hp [? _]%ends_occurs; lia|]. destruct (bm_block_ok (S (length text)) n) as [(s & E & Hs & Hend & Hmin)|(sh & E & Hno)]; [lia|lia|lia|lia|lia| |]; rewrite E; cbn [mbind option_bind]; [left|right].
  - exists (Z.to_nat (s - (n - 1))). destruct Hend as [Hr Hend]. split; [lia|]. split; [apply ends_occurs; replace (Z.of_nat (Z.to_nat (s - (n - 1))) + n - 1) with s by lia; done|]. split; [|do 2 f_equal; rewrite u32_small by (unfold is_u32; lia); lia].
    intros p' Hp' Ho%ends_occurs. destruct (decide (Z.of_nat p' + n - 1 < s)) as [Hlt|Hge]; [|lia]. exfalso. apply (Hmin (Z.of_nat p' + n - 1)); [lia|done].
  - split; [|done]. intros p Hp Ho%ends_occurs. apply (Hno (Z.of_nat p + n - 1)); [lia|done].
Qed.

End bm.

End BoyerMoore.
