(* ===== verification/TextSearchTheorems.v ===== *)
(** * Text search: the theorems

    From the registration of an algorithm to the result of a search: a search with
    Knuth-Morris-Pratt finds the first occurrence, in data delivered in blocks; one with
    Boyer-Moore finds the first occurrence after the first byte of linear data. *)

From S2P Require Import Prelude TextSearch Kmp BoyerMoore.

Module TextSearchTheorems.
Import TextSearch Kmp BoyerMoore.

(** ** The registry *)

(** Registered names are distinct. *)
Definition names_distinct (l : registry) : Prop := NoDup (ops_name <$> l).

Lemma register_distinct ops l : names_distinct l -> names_distinct (snd (textsearch_register ops l)).
Proof.
  intros H. unfold textsearch_register. destruct (ops_set ops); [|done]. cbn [negb]. destruct (existsb _ l) eqn:E; [done|]. unfold names_distinct. cbn [snd]. rewrite fmap_app. apply NoDup_app. split; [done|]. split; [|apply NoDup_singleton]. intros x Hx Hx2. apply list_elem_of_singleton in Hx2 as ->. apply list_elem_of_fmap in Hx as (o & Eo & Ho).
  assert (existsb (fun o => ops_name o =? ops_name ops) l = true) by (apply existsb_exists; exists o; split; [by apply list_elem_of_In|apply Z.eqb_eq; congruence]). congruence.
Qed.

Lemma unregister_loop_ok addr seen l :
  (exists l1 o l2, l = l1 ++ o :: l2 /\ ops_addr o = addr /\ unregister_loop addr seen l = (0, seen ++ l1 ++ l2)) \/
  ((forall o, o ∈ l -> ops_addr o <> addr) /\ unregister_loop addr seen l = (- ENOENT, seen ++ l)).
Proof.
  revert seen. induction l as [|o l IH]; intros seen; cbn [unregister_loop]; [right; split; [by intros o ?%elem_of_nil|by rewrite app_nil_r]|]. destruct (Z.eqb_spec (ops_addr o) addr) as [Ha|Ha]; [left; by exists [], o, l|]. destruct (IH (seen ++ [o])) as [(l1 & o' & l2 & -> & Ho & E)|[Hno E]]; rewrite E, <- !app_assoc; [left; by exists (o :: l1), o', l2|right]. split; [|done]. intros o' [->|Ho']%elem_of_cons; [done|by apply Hno].
Qed.

Lemma unregister_distinct addr l : names_distinct l -> names_distinct (snd (textsearch_unregister addr l)).
Proof.
  intros H. unfold textsearch_unregister. destruct (unregister_loop_ok addr [] l) as [(l1 & o & l2 & -> & _ & E)|[_ E]]; rewrite E; cbn [snd app]; [|done]. unfold names_distinct in *. rewrite fmap_app, fmap_cons in H. rewrite fmap_app. apply NoDup_app in H as (H1 & H2 & H3). apply NoDup_cons in H3 as [_ H3]. apply NoDup_app. split; [done|]. split; [|done]. intros x Hx Hx2. apply (H2 x Hx). by apply elem_of_cons; right.
Qed.

Lemma lookup_registered alive l o r : names_distinct l -> o ∈ l -> alive o = true -> lookup_ts_algo alive (ops_name o) l r = (Some o, module_get (ops_addr o) r).
Proof.
  unfold names_distinct. induction l as [|o' l IH]; intros Hd Ho Ha; [by apply elem_of_nil in Ho|]. rewrite fmap_cons, NoDup_cons in Hd. destruct Hd as [Hn Hd]. cbn [lookup_ts_algo]. apply elem_of_cons in Ho as [<-|Ho].
  - by rewrite Z.eqb_refl, Ha.
  - destruct (Z.eqb_spec (ops_name o') (ops_name o)) as [E|E]; [|by apply IH]. destruct Hn. rewrite E. by apply list_elem_of_fmap_2.
Qed.

Lemma module_get_put addr r : module_put addr (module_get addr r) = <[addr := default 0 (r !! addr)]> r.
Proof. unfold module_put, module_get. rewrite lookup_insert_eq, insert_insert_eq. cbn [default]. f_equal. cbn. lia. Qed.

(** ** Preparing a search *)

(** The bytes of a configuration: the header, the private data, the table of four
    bytes an entry, and the pattern. *)
Definition conf_bytes (a : algorithm) (pat : list Z) : Z :=
  16 + match a with algo_kmp => 8 | algo_bm => 1032 end + 5 * Z.of_nat (length pat).

(** What the two algorithms build once they have the memory. *)
Definition build (a : algorithm) (pat : list Z) : option ts_config :=
  match a with
  | algo_kmp => tbl ← kmp_prefix_tbl pat (replicate (length pat) 0); Some (Kmp (mk_kmp pat (Z.of_nat (length pat)) tbl))
  | algo_bm => '(bad, good) ← bm_tables pat; Some (Bm (mk_bm pat (Z.of_nat (length pat)) bad good))
  end.

Lemma alloc_conf kmalloc hdr len : alloc_ts_config kmalloc (u32 (hdr + len + u32 (len * 4))) =
  let size := u32 (16 + hdr + 5 * len) in if kmalloc size then inr size else inl (- ENOMEM).
Proof.
  unfold alloc_ts_config. change (TS_PRIV_ALIGN sizeof_ts_config) with 16. autorewrite with kwrap.
  replace (16 + (hdr + len + u32 (len * 4))) with (16 + hdr + len + u32 (len * 4)) by lia. autorewrite with kwrap.
  by replace (16 + hdr + len + len * 4) with (16 + hdr + 5 * len) by lia.
Qed.

Lemma ops_init_run a kmalloc pat : ops_init a kmalloc pat =
  if negb (kmalloc (u32 (conf_bytes a pat))) then Some (inl (- ENOMEM)) else
  if conf_bytes a pat <? 2 ^ 32 then inr <$> build a pat else None.
Proof.
  assert (0 <= conf_bytes a pat) as H0 by (unfold conf_bytes; destruct a; lia).
  assert ((u32 (conf_bytes a pat) <? conf_bytes a pat) = negb (conf_bytes a pat <? 2 ^ 32)) as Hw.
  { destruct (Z.ltb_spec (conf_bytes a pat) (2 ^ 32)); [rewrite u32_small by done; by rewrite Z.ltb_irrefl|].
    pose proof (u32_range (conf_bytes a pat)) as [_ ?]. apply Z.ltb_lt. lia. }
  destruct a; unfold conf_bytes in *; cbn [ops_init build]; unfold kmp_init, bm_init; rewrite alloc_conf;
    unfold sizeof_ts_kmp, sizeof_ts_bm in *; change (8 + 4 * 256) with 1032; change (TS_PRIV_ALIGN sizeof_ts_config) with 16; cbv zeta;
    (destruct (kmalloc _); [|done]); cbn [negb].
  - replace (16 + 8 + Z.of_nat (length pat) * 4 + Z.of_nat (length pat)) with (16 + 8 + 5 * Z.of_nat (length pat)) by lia. rewrite Hw.
    destruct (_ <? 2 ^ 32); [|done]. cbn [negb]. by destruct (kmp_prefix_tbl _ _).
  - replace (16 + 1032 + Z.of_nat (length pat) * 4 + Z.of_nat (length pat)) with (16 + 1032 + 5 * Z.of_nat (length pat)) by lia. rewrite Hw.
    destruct (_ <? 2 ^ 32); [|done]. cbn [negb]. by destruct (bm_tables _) as [[]|].
Qed.

(** Preparing a search: without memory no reference is kept; a configuration whose size
    does not fit in 32 bits is written past its end; one that fits is built. *)
Lemma prepare_cases alive l o kmalloc pat conf r : names_distinct l -> o ∈ l -> alive o = true -> pat <> [] -> build (ops_algo o) pat = Some conf ->
  let run := textsearch_prepare alive l kmalloc (ops_name o) pat r in
  let size := conf_bytes (ops_algo o) pat in
  (kmalloc (u32 size) = false -> run = Some (inl (- ENOMEM), <[ops_addr o := default 0 (r !! ops_addr o)]> r)) /\
  (kmalloc (u32 size) = true -> 2 ^ 32 <= size -> run = None) /\
  (kmalloc (u32 size) = true -> size < 2 ^ 32 -> run = Some (inr (conf, ops_addr o), module_get (ops_addr o) r)).
Proof.
  intros Hd Ho Ha Hp E. cbv zeta. unfold textsearch_prepare. destruct (Z.eqb_spec (Z.of_nat (length pat)) 0) as [Ez|_]; [destruct pat; [done|cbn in Ez; lia]|].
  rewrite (lookup_registered alive l o r Hd Ho Ha), ops_init_run, E. split_and!; intros ->; cbn [negb].
  - cbn. by rewrite <- module_get_put.
  - intros H. by rewrite (proj2 (Z.ltb_ge _ _) H).
  - intros H. by rewrite (proj2 (Z.ltb_lt _ _) H).
Qed.

(** ** Searching *)

(** C20: preparing a search with the registered Knuth-Morris-Pratt algorithm asks for the
    size of the configuration in 32 bits. Without memory it fails with [-ENOMEM] and no
    reference is kept. With memory it succeeds if the size does not wrap around, and takes
    one reference to the module, which destroying the configuration gives back; if the
    size wraps around, the tables are written past the end of the object. Every search with the configuration, on text delivered in blocks of any
    sizes and started at any offset, ends and returns the position of the first
    occurrence of the pattern at or after the offset, the offset moved behind it; or
    [UINT_MAX], the offset unchanged, when there is none. *)
Theorem kmp_search_correct alive l o kmalloc pat r : names_distinct l -> o ∈ l -> alive o = true -> ops_algo o = algo_kmp -> pat <> [] ->
  let run := textsearch_prepare alive l kmalloc (ops_name o) pat r in
  let size := 24 + 5 * Z.of_nat (length pat) in
  (kmalloc (u32 size) = false -> run = Some (inl (- ENOMEM), <[ops_addr o := default 0 (r !! ops_addr o)]> r)) /\
  (kmalloc (u32 size) = true -> 2 ^ 32 <= size -> run = None) /\
  exists conf, (kmalloc (u32 size) = true -> size < 2 ^ 32 -> run = Some (inr (conf, ops_addr o), module_get (ops_addr o) r)) /\
    textsearch_destroy (conf, ops_addr o) (module_get (ops_addr o) r) = <[ops_addr o := default 0 (r !! ops_addr o)]> r /\
    forall text get_next_block n off, delivers text get_next_block -> Z.of_nat (length text) < 2 ^ 32 -> (off <= length text)%nat -> (length text - off < n)%nat ->
      (exists p, first_at pat text off p /\ textsearch_next conf n get_next_block (Z.of_nat off) = Some (Z.of_nat p, Z.of_nat (p + length pat))) \/
      ((forall p, (off <= p)%nat -> ~ occurs pat text p) /\ textsearch_next conf n get_next_block (Z.of_nat off) = Some (UINT_MAX, Z.of_nat off)).
Proof.
  intros Hd Ho Ha Hk Hp. destruct (kmp_prefix_tbl_ok pat Hp) as (tbl & E & _ & Ht).
  destruct (prepare_cases alive l o kmalloc pat (Kmp (mk_kmp pat (Z.of_nat (length pat)) tbl)) r) as (H1 & H2 & H3); [done..|rewrite Hk; cbn; by rewrite E|].
  rewrite Hk in H1, H2, H3. split; [done|]. split; [done|]. eexists. split; [done|]. split; [apply module_get_put|].
  intros text gnb n off Hg Hl Hoff Hn. by apply kmp_find_ok.
Qed.

(** C30: a search with the registered Boyer-Moore algorithm on linear data ends and
    returns the position of the first occurrence of the pattern that is not at the
    start of the data, or [UINT_MAX] when there is none; an occurrence at position 0
    is never reported. Preparing it asks for the size of the configuration in 32 bits:
    without memory it fails with [-ENOMEM] and no reference is kept, with memory it
    succeeds if the size does not wrap around and writes past the object if it does. The offset stays 0, so that [textsearch_next] returns the same
    position again. *)
Theorem bm_search_correct alive l o kmalloc pat r : names_distinct l -> o ∈ l -> alive o = true -> ops_algo o = algo_bm -> pat <> [] -> is_bytes pat ->
  let run := textsearch_prepare alive l kmalloc (ops_name o) pat r in
  let size := 1048 + 5 * Z.of_nat (length pat) in
  (kmalloc (u32 size) = false -> run = Some (inl (- ENOMEM), <[ops_addr o := default 0 (r !! ops_addr o)]> r)) /\
  (kmalloc (u32 size) = true -> 2 ^ 32 <= size -> run = None) /\
  exists conf, (kmalloc (u32 size) = true -> size < 2 ^ 32 -> run = Some (inr (conf, ops_addr o), module_get (ops_addr o) r)) /\
    forall text n off, is_bytes text -> Z.of_nat (length text) + Z.of_nat (length pat) < 2 ^ 31 -> (2 <= n)%nat ->
      ((exists p, first_at pat text 1 p /\ textsearch_find_continuous conf n text off = Some (Z.of_nat p, 0)) \/
       ((forall p, (1 <= p)%nat -> ~ occurs pat text p) /\ textsearch_find_continuous conf n text off = Some (UINT_MAX, 0))) /\
      textsearch_next conf n (get_linear_data text) 0 = textsearch_find_continuous conf n text off.
Proof.
  intros Hd Ho Ha Hk Hp Hb. destruct (bm_tables_ok pat Hp Hb) as (bad & good & E & Hbad & Hgood).
  destruct (prepare_cases alive l o kmalloc pat (Bm (mk_bm pat (Z.of_nat (length pat)) bad good)) r) as (H1 & H2 & H3); [done..|rewrite Hk; cbn; by rewrite E|].
  rewrite Hk in H1, H2, H3. split; [done|]. split; [done|]. eexists. split; [done|].
  intros text n off Ht Hl Hn. split; [|done]. destruct (bm_find_ok pat Hp Hb bad good Hbad Hgood text Ht Hl n 0 Hn eq_refl) as [(p & H4 & H5 & H6 & E2)|[Hno E2]]; [left|right; done]. exists p. split; [|done]. split; [done|]. split; [done|]. intros p' Ho' Hp'. by apply H6.
Qed.

(** ** Witnesses *)

Lemma linear_delivers text : delivers text (get_linear_data text).
Proof.
  intros c Hc. unfold get_linear_data. destruct (Z.ltb_spec (Z.of_nat c) (Z.of_nat (length text))); [|split; [apply prefix_nil|lia]]. rewrite Nat2Z.id. split; [done|]. intros _ E. apply (f_equal length) in E. rewrite length_drop in E. cbn in E. lia.
Defined.

Lemma kmp_search_correct_witness : exists conf,
  textsearch_prepare (fun _ => true) [mk_ops 4 7 algo_kmp true] (fun _ => true) 7 [1; 1; 2] ∅ = Some (inr (conf, 4), {[4 := 1]}) /\
  ((exists p, first_at [1; 1; 2] [1; 1; 1; 2; 1; 1; 2] 1 p /\ textsearch_next conf 8 (get_linear_data [1; 1; 1; 2; 1; 1; 2]) 1 = Some (Z.of_nat p, Z.of_nat (p + 3))) \/
   ((forall p, (1 <= p)%nat -> ~ occurs [1; 1; 2] [1; 1; 1; 2; 1; 1; 2] p) /\ textsearch_next conf 8 (get_linear_data [1; 1; 1; 2; 1; 1; 2]) 1 = Some (UINT_MAX, 1))).
Proof.
  assert (Hd : names_distinct [mk_ops 4 7 algo_kmp true]) by apply NoDup_singleton. assert (Ho : mk_ops 4 7 algo_kmp true ∈ [mk_ops 4 7 algo_kmp true]) by by apply elem_of_cons; left.
  destruct (kmp_search_correct (fun _ => true) _ _ (fun _ => true) [1; 1; 2] ∅ Hd Ho eq_refl eq_refl ltac:(discriminate)) as (_ & _ & conf & E & _ & S). exists conf. split; [by apply E|]. apply (S _ _ 8%nat 1%nat (linear_delivers _)); cbn; lia.
Defined.

Lemma bm_search_correct_witness : exists conf,
  textsearch_prepare (fun _ => true) [mk_ops 4 7 algo_bm true] (fun _ => true) 7 [1; 1] ∅ = Some (inr (conf, 4), {[4 := 1]}) /\
  ((exists p, first_at [1; 1] [1; 1; 2; 1; 1] 1 p /\ textsearch_find_continuous conf 2 [1; 1; 2; 1; 1] 0 = Some (Z.of_nat p, 0)) \/
   ((forall p, (1 <= p)%nat -> ~ occurs [1; 1] [1; 1; 2; 1; 1] p) /\ textsearch_find_continuous conf 2 [1; 1; 2; 1; 1] 0 = Some (UINT_MAX, 0))).
Proof.
  assert (Hd : names_distinct [mk_ops 4 7 algo_bm true]) by apply NoDup_singleton. assert (Ho : mk_ops 4 7 algo_bm true ∈ [mk_ops 4 7 algo_bm true]) by by apply elem_of_cons; left.
  assert (Hb : is_bytes [1; 1]) by (intros c; rewrite !elem_of_cons, elem_of_nil; lia). assert (Ht : is_bytes [1; 1; 2; 1; 1]) by (intros c; rewrite !elem_of_cons, elem_of_nil; lia).
  destruct (bm_search_correct (fun _ => true) _ _ (fun _ => true) [1; 1] ∅ Hd Ho eq_refl eq_refl ltac:(discriminate) Hb) as (_ & _ & conf & E & S). exists conf. split; [by apply E|]. apply (proj1 (S _ 2%nat 0 Ht ltac:(cbn; lia) ltac:(lia))).
Defined.

(** An occurrence at the start of linear data is missed: the pattern is the whole text. *)
Lemma bm_misses_start : exists bm, bm_init (fun _ => true) [1; 2] = Some (inr bm) /\ textsearch_find_continuous (Bm bm) 2 [1; 2] 0 = Some (UINT_MAX, 0).
Proof. eexists. by split; [vm_compute|]. Qed.

(** So is an occurrence inside the second block, which is found when the block is searched
    by itself: the search of the block starts where the search of the first one ended,
    counted from the start of the first. *)
Definition two_blocks (consumed : Z) : list Z := if consumed =? 0 then [0; 0; 0] else if consumed =? 3 then [0; 1; 2; 0] else [].

Lemma bm_misses_next_block : exists bm, bm_init (fun _ => true) [1; 2] = Some (inr bm) /\
  textsearch_find (Bm bm) 3 two_blocks 0 = Some (UINT_MAX, 0) /\ textsearch_find_continuous (Bm bm) 2 (two_blocks 3) 0 = Some (1, 0).
Proof. eexists. by split; [vm_compute|]. Qed.

End TextSearchTheorems.
