(* ===== verification/Crc.v ===== *)
(** * Cyclic redundancy checks: [lib/crc32.c], [lib/gen_crc32table.c],
      [lib/libcrc32c.c], [lib/crc-ccitt.c], [lib/crc16.c], [lib/crc-itu-t.c],
      [lib/bitrev.c]

    The routines that use tables of 256 entries, as they are compiled for a
    little-endian machine with [CRC_LE_BITS] and [CRC_BE_BITS] 8, the program that
    generates the tables of [crc32.c], and the bit-at-a-time routines of the same
    files. *)

From S2P Require Import Prelude.

Module Crc.

Definition CRCPOLY_LE : Z := 0xedb88320.
Definition CRCPOLY_BE : Z := 0x04c11db7.
Definition CRC32C_POLY_LE : Z := 0x82F63B78.
Definition CRC32C_POLY_BE : Z := 0x1EDC6F41.

(** ** One bit at a time *)

Definition le_bit (poly crc : Z) : Z := Z.lxor (Z.shiftr crc 1) (if Z.land crc 1 =? 0 then 0 else poly).
Definition be_bit (poly crc : Z) : Z := Z.lxor (u32 (Z.shiftl crc 1)) (if Z.land crc 0x80000000 =? 0 then 0 else poly).

(** The loops [for (i = 0; i < 8; i++)]. *)
Definition le_byte (poly crc : Z) : Z := Nat.iter 8 (le_bit poly) crc.
Definition be_byte (poly crc : Z) : Z := Nat.iter 8 (be_bit poly) crc.

(** [crc32_le] and [crc32_be] with [CRC_LE_BITS] and [CRC_BE_BITS] 1; the first with
    another polynomial is [crc32c_le], the second [crc32c_be]. *)
Fixpoint le_bitwise (poly crc : Z) (p : list Z) {struct p} : Z :=
  match p with [] => crc | x :: p => le_bitwise poly (le_byte poly (Z.lxor crc x)) p end.
Fixpoint be_bitwise (poly crc : Z) (p : list Z) {struct p} : Z :=
  match p with [] => crc | x :: p => be_bitwise poly (be_byte poly (Z.lxor crc (Z.shiftl x 24))) p end.

Definition crc32c_be (crc : Z) (p : list Z) : Z := be_bitwise CRC32C_POLY_BE crc p.

(** ** The generated tables *)

(** The loop over [j] of [crc32init_le]. *)
Fixpoint init_le_entries (n : nat) (crc i j : Z) (tab : list Z) : option (list Z) :=
  match n with
  | O => None
  | S n => if 256 <=? j then Some tab else t ← aget tab j; tab ← aset tab (i + j) (Z.lxor crc t); init_le_entries n crc i (j + 2 * i) tab
  end.
Fixpoint init_le_loop (n : nat) (crc i : Z) (tab : list Z) : option (list Z) :=
  match n with
  | O => None
  | S n => if i =? 0 then Some tab else let crc := le_bit CRCPOLY_LE crc in tab ← init_le_entries 257 crc i 0 tab; init_le_loop n crc (Z.shiftr i 1) tab
  end.
Definition crc32init_le : option (list Z) := tab ← aset (replicate 256 0) 0 0; init_le_loop 9 1 (Z.shiftl 1 7) tab.

Fixpoint init_be_entries (n : nat) (crc i j : Z) (tab : list Z) : option (list Z) :=
  match n with
  | O => None
  | S n => if i <=? j then Some tab else t ← aget tab j; tab ← aset tab (i + j) (Z.lxor crc t); init_be_entries n crc i (j + 1) tab
  end.
Fixpoint init_be_loop (n : nat) (crc i : Z) (tab : list Z) : option (list Z) :=
  match n with
  | O => None
  | S n => if 256 <=? i then Some tab else let crc := be_bit CRCPOLY_BE crc in tab ← init_be_entries 257 crc i 0 tab; init_be_loop n crc (Z.shiftl i 1) tab
  end.
Definition crc32init_be : option (list Z) := tab ← aset (replicate 256 0) 0 0; init_be_loop 9 0x80000000 1 tab.

(** [__swab32]. *)
Definition swab32 (x : Z) : Z :=
  Z.lor (Z.lor (Z.shiftl (Z.land x 0xff) 24) (Z.shiftl (Z.land x 0xff00) 8)) (Z.lor (Z.shiftr (Z.land x 0xff0000) 8) (Z.shiftr (Z.land x 0xff000000) 24)).

(** [crc32table.h]: the entries are [tole] and [tobe] of the computed ones. *)
Definition crc32table_le : list Z := default [] crc32init_le.
Definition crc32table_be : list Z := swab32 <$> default [] crc32init_be.

(** ** [crc32_le] and [crc32_be] *)

Definition DO_CRC (tab : list Z) (crc x : Z) : option Z := t ← aget tab (Z.land (Z.lxor crc x) 255); Some (Z.lxor t (Z.shiftr crc 8)).

(** The bytes before an aligned address; [b] is the address of the data. *)
Fixpoint crc_align (tab : list Z) (b crc : Z) (p : list Z) {struct p} : option (Z * list Z) :=
  match p with
  | [] => Some (crc, [])
  | x :: p' => if Z.land b 3 =? 0 then Some (crc, p) else crc ← DO_CRC tab crc x; crc_align tab (b + 1) crc p'
  end.

(** [n] words. *)
Fixpoint crc_words (n : nat) (tab : list Z) (crc : Z) (p : list Z) : option (Z * list Z) :=
  match n with
  | O => Some (crc, p)
  | S n =>
      match p with
      | b0 :: b1 :: b2 :: b3 :: p =>
          let crc := Z.lxor crc (b0 + 2 ^ 8 * b1 + 2 ^ 16 * b2 + 2 ^ 24 * b3) in
          crc ← DO_CRC tab crc 0; crc ← DO_CRC tab crc 0; crc ← DO_CRC tab crc 0; crc ← DO_CRC tab crc 0;
          crc_words n tab crc p
      | _ => None
      end
  end.

Fixpoint crc_tail (tab : list Z) (crc : Z) (p : list Z) {struct p} : option Z :=
  match p with [] => Some crc | x :: p => crc ← DO_CRC tab crc x; crc_tail tab crc p end.

Definition crc_body (tab : list Z) (b crc : Z) (p : list Z) : option Z :=
  '(crc, p) ← crc_align tab b crc p;
  '(crc, p) ← (if 4 <=? Z.of_nat (length p) then crc_words (length p / 4) tab crc p else Some (crc, p));
  crc_tail tab crc p.

Definition crc32_le (b crc : Z) (p : list Z) : option Z := crc_body crc32table_le b crc p.
Definition crc32_be (b crc : Z) (p : list Z) : option Z := crc ← crc_body crc32table_be b (swab32 crc) p; Some (swab32 crc).

(** ** [crc32c_le] *)

Definition crc32c_table : list Z := [
   0x00000000; 0xf26b8303; 0xe13b70f7; 0x1350f3f4; 0xc79a971f; 0x35f1141c; 0x26a1e7e8; 0xd4ca64eb;
   0x8ad958cf; 0x78b2dbcc; 0x6be22838; 0x9989ab3b; 0x4d43cfd0; 0xbf284cd3; 0xac78bf27; 0x5e133c24;
   0x105ec76f; 0xe235446c; 0xf165b798; 0x030e349b; 0xd7c45070; 0x25afd373; 0x36ff2087; 0xc494a384;
   0x9a879fa0; 0x68ec1ca3; 0x7bbcef57; 0x89d76c54; 0x5d1d08bf; 0xaf768bbc; 0xbc267848; 0x4e4dfb4b;
   0x20bd8ede; 0xd2d60ddd; 0xc186fe29; 0x33ed7d2a; 0xe72719c1; 0x154c9ac2; 0x061c6936; 0xf477ea35;
   0xaa64d611; 0x580f5512; 0x4b5fa6e6; 0xb93425e5; 0x6dfe410e; 0x9f95c20d; 0x8cc531f9; 0x7eaeb2fa;
   0x30e349b1; 0xc288cab2; 0xd1d83946; 0x23b3ba45; 0xf779deae; 0x05125dad; 0x1642ae59; 0xe4292d5a;
   0xba3a117e; 0x4851927d; 0x5b016189; 0xa96ae28a; 0x7da08661; 0x8fcb0562; 0x9c9bf696; 0x6ef07595;
   0x417b1dbc; 0xb3109ebf; 0xa0406d4b; 0x522bee48; 0x86e18aa3; 0x748a09a0; 0x67dafa54; 0x95b17957;
   0xcba24573; 0x39c9c670; 0x2a993584; 0xd8f2b687; 0x0c38d26c; 0xfe53516f; 0xed03a29b; 0x1f682198;
   0x5125dad3; 0xa34e59d0; 0xb01eaa24; 0x42752927; 0x96bf4dcc; 0x64d4cecf; 0x77843d3b; 0x85efbe38;
   0xdbfc821c; 0x2997011f; 0x3ac7f2eb; 0xc8ac71e8; 0x1c661503; 0xee0d9600; 0xfd5d65f4; 0x0f36e6f7;
   0x61c69362; 0x93ad1061; 0x80fde395; 0x72966096; 0xa65c047d; 0x5437877e; 0x4767748a; 0xb50cf789;
   0xeb1fcbad; 0x197448ae; 0x0a24bb5a; 0xf84f3859; 0x2c855cb2; 0xdeeedfb1; 0xcdbe2c45; 0x3fd5af46;
   0x7198540d; 0x83f3d70e; 0x90a324fa; 0x62c8a7f9; 0xb602c312; 0x44694011; 0x5739b3e5; 0xa55230e6;
   0xfb410cc2; 0x092a8fc1; 0x1a7a7c35; 0xe811ff36; 0x3cdb9bdd; 0xceb018de; 0xdde0eb2a; 0x2f8b6829;
   0x82f63b78; 0x709db87b; 0x63cd4b8f; 0x91a6c88c; 0x456cac67; 0xb7072f64; 0xa457dc90; 0x563c5f93;
   0x082f63b7; 0xfa44e0b4; 0xe9141340; 0x1b7f9043; 0xcfb5f4a8; 0x3dde77ab; 0x2e8e845f; 0xdce5075c;
   0x92a8fc17; 0x60c37f14; 0x73938ce0; 0x81f80fe3; 0x55326b08; 0xa759e80b; 0xb4091bff; 0x466298fc;
   0x1871a4d8; 0xea1a27db; 0xf94ad42f; 0x0b21572c; 0xdfeb33c7; 0x2d80b0c4; 0x3ed04330; 0xccbbc033;
   0xa24bb5a6; 0x502036a5; 0x4370c551; 0xb11b4652; 0x65d122b9; 0x97baa1ba; 0x84ea524e; 0x7681d14d;
   0x2892ed69; 0xdaf96e6a; 0xc9a99d9e; 0x3bc21e9d; 0xef087a76; 0x1d63f975; 0x0e330a81; 0xfc588982;
   0xb21572c9; 0x407ef1ca; 0x532e023e; 0xa145813d; 0x758fe5d6; 0x87e466d5; 0x94b49521; 0x66df1622;
   0x38cc2a06; 0xcaa7a905; 0xd9f75af1; 0x2b9cd9f2; 0xff56bd19; 0x0d3d3e1a; 0x1e6dcdee; 0xec064eed;
   0xc38d26c4; 0x31e6a5c7; 0x22b65633; 0xd0ddd530; 0x0417b1db; 0xf67c32d8; 0xe52cc12c; 0x1747422f;
   0x49547e0b; 0xbb3ffd08; 0xa86f0efc; 0x5a048dff; 0x8ecee914; 0x7ca56a17; 0x6ff599e3; 0x9d9e1ae0;
   0xd3d3e1ab; 0x21b862a8; 0x32e8915c; 0xc083125f; 0x144976b4; 0xe622f5b7; 0xf5720643; 0x07198540;
   0x590ab964; 0xab613a67; 0xb831c993; 0x4a5a4a90; 0x9e902e7b; 0x6cfbad78; 0x7fab5e8c; 0x8dc0dd8f;
   0xe330a81a; 0x115b2b19; 0x020bd8ed; 0xf0605bee; 0x24aa3f05; 0xd6c1bc06; 0xc5914ff2; 0x37faccf1;
   0x69e9f0d5; 0x9b8273d6; 0x88d28022; 0x7ab90321; 0xae7367ca; 0x5c18e4c9; 0x4f48173d; 0xbd23943e;
   0xf36e6f75; 0x0105ec76; 0x12551f82; 0xe03e9c81; 0x34f4f86a; 0xc69f7b69; 0xd5cf889d; 0x27a40b9e;
   0x79b737ba; 0x8bdcb4b9; 0x988c474d; 0x6ae7c44e; 0xbe2da0a5; 0x4c4623a6; 0x5f16d052; 0xad7d5351].

Fixpoint crc32c_le (crc : Z) (data : list Z) {struct data} : option Z :=
  match data with [] => Some crc | x :: data => t ← aget crc32c_table (Z.land (Z.lxor crc x) 0xff); crc32c_le (Z.lxor t (Z.shiftr crc 8)) data end.

(** ** The 16-bit checks *)

Definition crc_ccitt_table : list Z := [
   0x0000; 0x1189; 0x2312; 0x329b; 0x4624; 0x57ad; 0x6536; 0x74bf; 0x8c48; 0x9dc1; 0xaf5a; 0xbed3;
   0xca6c; 0xdbe5; 0xe97e; 0xf8f7; 0x1081; 0x0108; 0x3393; 0x221a; 0x56a5; 0x472c; 0x75b7; 0x643e;
   0x9cc9; 0x8d40; 0xbfdb; 0xae52; 0xdaed; 0xcb64; 0xf9ff; 0xe876; 0x2102; 0x308b; 0x0210; 0x1399;
   0x6726; 0x76af; 0x4434; 0x55bd; 0xad4a; 0xbcc3; 0x8e58; 0x9fd1; 0xeb6e; 0xfae7; 0xc87c; 0xd9f5;
   0x3183; 0x200a; 0x1291; 0x0318; 0x77a7; 0x662e; 0x54b5; 0x453c; 0xbdcb; 0xac42; 0x9ed9; 0x8f50;
   0xfbef; 0xea66; 0xd8fd; 0xc974; 0x4204; 0x538d; 0x6116; 0x709f; 0x0420; 0x15a9; 0x2732; 0x36bb;
   0xce4c; 0xdfc5; 0xed5e; 0xfcd7; 0x8868; 0x99e1; 0xab7a; 0xbaf3; 0x5285; 0x430c; 0x7197; 0x601e;
   0x14a1; 0x0528; 0x37b3; 0x263a; 0xdecd; 0xcf44; 0xfddf; 0xec56; 0x98e9; 0x8960; 0xbbfb; 0xaa72;
   0x6306; 0x728f; 0x4014; 0x519d; 0x2522; 0x34ab; 0x0630; 0x17b9; 0xef4e; 0xfec7; 0xcc5c; 0xddd5;
   0xa96a; 0xb8e3; 0x8a78; 0x9bf1; 0x7387; 0x620e; 0x5095; 0x411c; 0x35a3; 0x242a; 0x16b1; 0x0738;
   0xffcf; 0xee46; 0xdcdd; 0xcd54; 0xb9eb; 0xa862; 0x9af9; 0x8b70; 0x8408; 0x9581; 0xa71a; 0xb693;
   0xc22c; 0xd3a5; 0xe13e; 0xf0b7; 0x0840; 0x19c9; 0x2b52; 0x3adb; 0x4e64; 0x5fed; 0x6d76; 0x7cff;
   0x9489; 0x8500; 0xb79b; 0xa612; 0xd2ad; 0xc324; 0xf1bf; 0xe036; 0x18c1; 0x0948; 0x3bd3; 0x2a5a;
   0x5ee5; 0x4f6c; 0x7df7; 0x6c7e; 0xa50a; 0xb483; 0x8618; 0x9791; 0xe32e; 0xf2a7; 0xc03c; 0xd1b5;
   0x2942; 0x38cb; 0x0a50; 0x1bd9; 0x6f66; 0x7eef; 0x4c74; 0x5dfd; 0xb58b; 0xa402; 0x9699; 0x8710;
   0xf3af; 0xe226; 0xd0bd; 0xc134; 0x39c3; 0x284a; 0x1ad1; 0x0b58; 0x7fe7; 0x6e6e; 0x5cf5; 0x4d7c;
   0xc60c; 0xd785; 0xe51e; 0xf497; 0x8028; 0x91a1; 0xa33a; 0xb2b3; 0x4a44; 0x5bcd; 0x6956; 0x78df;
   0x0c60; 0x1de9; 0x2f72; 0x3efb; 0xd68d; 0xc704; 0xf59f; 0xe416; 0x90a9; 0x8120; 0xb3bb; 0xa232;
   0x5ac5; 0x4b4c; 0x79d7; 0x685e; 0x1ce1; 0x0d68; 0x3ff3; 0x2e7a; 0xe70e; 0xf687; 0xc41c; 0xd595;
   0xa12a; 0xb0a3; 0x8238; 0x93b1; 0x6b46; 0x7acf; 0x4854; 0x59dd; 0x2d62; 0x3ceb; 0x0e70; 0x1ff9;
   0xf78f; 0xe606; 0xd49d; 0xc514; 0xb1ab; 0xa022; 0x92b9; 0x8330; 0x7bc7; 0x6a4e; 0x58d5; 0x495c;
   0x3de3; 0x2c6a; 0x1ef1; 0x0f78].

Definition crc_ccitt_byte (crc c : Z) : option Z := t ← aget crc_ccitt_table (Z.land (Z.lxor crc c) 0xff); Some (Z.lxor (Z.shiftr crc 8) t).
Fixpoint crc_ccitt (crc : Z) (buffer : list Z) {struct buffer} : option Z :=
  match buffer with [] => Some crc | c :: buffer => crc ← crc_ccitt_byte crc c; crc_ccitt crc buffer end.

Definition crc16_table : list Z := [
   0x0000; 0xc0c1; 0xc181; 0x0140; 0xc301; 0x03c0; 0x0280; 0xc241; 0xc601; 0x06c0; 0x0780; 0xc741;
   0x0500; 0xc5c1; 0xc481; 0x0440; 0xcc01; 0x0cc0; 0x0d80; 0xcd41; 0x0f00; 0xcfc1; 0xce81; 0x0e40;
   0x0a00; 0xcac1; 0xcb81; 0x0b40; 0xc901; 0x09c0; 0x0880; 0xc841; 0xd801; 0x18c0; 0x1980; 0xd941;
   0x1b00; 0xdbc1; 0xda81; 0x1a40; 0x1e00; 0xdec1; 0xdf81; 0x1f40; 0xdd01; 0x1dc0; 0x1c80; 0xdc41;
   0x1400; 0xd4c1; 0xd581; 0x1540; 0xd701; 0x17c0; 0x1680; 0xd641; 0xd201; 0x12c0; 0x1380; 0xd341;
   0x1100; 0xd1c1; 0xd081; 0x1040; 0xf001; 0x30c0; 0x3180; 0xf141; 0x3300; 0xf3c1; 0xf281; 0x3240;
   0x3600; 0xf6c1; 0xf781; 0x3740; 0xf501; 0x35c0; 0x3480; 0xf441; 0x3c00; 0xfcc1; 0xfd81; 0x3d40;
   0xff01; 0x3fc0; 0x3e80; 0xfe41; 0xfa01; 0x3ac0; 0x3b80; 0xfb41; 0x3900; 0xf9c1; 0xf881; 0x3840;
   0x2800; 0xe8c1; 0xe981; 0x2940; 0xeb01; 0x2bc0; 0x2a80; 0xea41; 0xee01; 0x2ec0; 0x2f80; 0xef41;
   0x2d00; 0xedc1; 0xec81; 0x2c40; 0xe401; 0x24c0; 0x2580; 0xe541; 0x2700; 0xe7c1; 0xe681; 0x2640;
   0x2200; 0xe2c1; 0xe381; 0x2340; 0xe101; 0x21c0; 0x2080; 0xe041; 0xa001; 0x60c0; 0x6180; 0xa141;
   0x6300; 0xa3c1; 0xa281; 0x6240; 0x6600; 0xa6c1; 0xa781; 0x6740; 0xa501; 0x65c0; 0x6480; 0xa441;
   0x6c00; 0xacc1; 0xad81; 0x6d40; 0xaf01; 0x6fc0; 0x6e80; 0xae41; 0xaa01; 0x6ac0; 0x6b80; 0xab41;
   0x6900; 0xa9c1; 0xa881; 0x6840; 0x7800; 0xb8c1; 0xb981; 0x7940; 0xbb01; 0x7bc0; 0x7a80; 0xba41;
   0xbe01; 0x7ec0; 0x7f80; 0xbf41; 0x7d00; 0xbdc1; 0xbc81; 0x7c40; 0xb401; 0x74c0; 0x7580; 0xb541;
   0x7700; 0xb7c1; 0xb681; 0x7640; 0x7200; 0xb2c1; 0xb381; 0x7340; 0xb101; 0x71c0; 0x7080; 0xb041;
   0x5000; 0x90c1; 0x9181; 0x5140; 0x9301; 0x53c0; 0x5280; 0x9241; 0x9601; 0x56c0; 0x5780; 0x9741;
   0x5500; 0x95c1; 0x9481; 0x5440; 0x9c01; 0x5cc0; 0x5d80; 0x9d41; 0x5f00; 0x9fc1; 0x9e81; 0x5e40;
   0x5a00; 0x9ac1; 0x9b81; 0x5b40; 0x9901; 0x59c0; 0x5880; 0x9841; 0x8801; 0x48c0; 0x4980; 0x8941;
   0x4b00; 0x8bc1; 0x8a81; 0x4a40; 0x4e00; 0x8ec1; 0x8f81; 0x4f40; 0x8d01; 0x4dc0; 0x4c80; 0x8c41;
   0x4400; 0x84c1; 0x8581; 0x4540; 0x8701; 0x47c0; 0x4680; 0x8641; 0x8201; 0x42c0; 0x4380; 0x8341;
   0x4100; 0x81c1; 0x8081; 0x4040].

Definition crc16_byte (crc data : Z) : option Z := t ← aget crc16_table (Z.land (Z.lxor crc data) 0xff); Some (Z.lxor (Z.shiftr crc 8) t).
Fixpoint crc16 (crc : Z) (buffer : list Z) {struct buffer} : option Z :=
  match buffer with [] => Some crc | c :: buffer => crc ← crc16_byte crc c; crc16 crc buffer end.

Definition crc_itu_t_table : list Z := [
   0x0000; 0x1021; 0x2042; 0x3063; 0x4084; 0x50a5; 0x60c6; 0x70e7; 0x8108; 0x9129; 0xa14a; 0xb16b;
   0xc18c; 0xd1ad; 0xe1ce; 0xf1ef; 0x1231; 0x0210; 0x3273; 0x2252; 0x52b5; 0x4294; 0x72f7; 0x62d6;
   0x9339; 0x8318; 0xb37b; 0xa35a; 0xd3bd; 0xc39c; 0xf3ff; 0xe3de; 0x2462; 0x3443; 0x0420; 0x1401;
   0x64e6; 0x74c7; 0x44a4; 0x5485; 0xa56a; 0xb54b; 0x8528; 0x9509; 0xe5ee; 0xf5cf; 0xc5ac; 0xd58d;
   0x3653; 0x2672; 0x1611; 0x0630; 0x76d7; 0x66f6; 0x5695; 0x46b4; 0xb75b; 0xa77a; 0x9719; 0x8738;
   0xf7df; 0xe7fe; 0xd79d; 0xc7bc; 0x48c4; 0x58e5; 0x6886; 0x78a7; 0x0840; 0x1861; 0x2802; 0x3823;
   0xc9cc; 0xd9ed; 0xe98e; 0xf9af; 0x8948; 0x9969; 0xa90a; 0xb92b; 0x5af5; 0x4ad4; 0x7ab7; 0x6a96;
   0x1a71; 0x0a50; 0x3a33; 0x2a12; 0xdbfd; 0xcbdc; 0xfbbf; 0xeb9e; 0x9b79; 0x8b58; 0xbb3b; 0xab1a;
   0x6ca6; 0x7c87; 0x4ce4; 0x5cc5; 0x2c22; 0x3c03; 0x0c60; 0x1c41; 0xedae; 0xfd8f; 0xcdec; 0xddcd;
   0xad2a; 0xbd0b; 0x8d68; 0x9d49; 0x7e97; 0x6eb6; 0x5ed5; 0x4ef4; 0x3e13; 0x2e32; 0x1e51; 0x0e70;
   0xff9f; 0xefbe; 0xdfdd; 0xcffc; 0xbf1b; 0xaf3a; 0x9f59; 0x8f78; 0x9188; 0x81a9; 0xb1ca; 0xa1eb;
   0xd10c; 0xc12d; 0xf14e; 0xe16f; 0x1080; 0x00a1; 0x30c2; 0x20e3; 0x5004; 0x4025; 0x7046; 0x6067;
   0x83b9; 0x9398; 0xa3fb; 0xb3da; 0xc33d; 0xd31c; 0xe37f; 0xf35e; 0x02b1; 0x1290; 0x22f3; 0x32d2;
   0x4235; 0x5214; 0x6277; 0x7256; 0xb5ea; 0xa5cb; 0x95a8; 0x8589; 0xf56e; 0xe54f; 0xd52c; 0xc50d;
   0x34e2; 0x24c3; 0x14a0; 0x0481; 0x7466; 0x6447; 0x5424; 0x4405; 0xa7db; 0xb7fa; 0x8799; 0x97b8;
   0xe75f; 0xf77e; 0xc71d; 0xd73c; 0x26d3; 0x36f2; 0x0691; 0x16b0; 0x6657; 0x7676; 0x4615; 0x5634;
   0xd94c; 0xc96d; 0xf90e; 0xe92f; 0x99c8; 0x89e9; 0xb98a; 0xa9ab; 0x5844; 0x4865; 0x7806; 0x6827;
   0x18c0; 0x08e1; 0x3882; 0x28a3; 0xcb7d; 0xdb5c; 0xeb3f; 0xfb1e; 0x8bf9; 0x9bd8; 0xabbb; 0xbb9a;
   0x4a75; 0x5a54; 0x6a37; 0x7a16; 0x0af1; 0x1ad0; 0x2ab3; 0x3a92; 0xfd2e; 0xed0f; 0xdd6c; 0xcd4d;
   0xbdaa; 0xad8b; 0x9de8; 0x8dc9; 0x7c26; 0x6c07; 0x5c64; 0x4c45; 0x3ca2; 0x2c83; 0x1ce0; 0x0cc1;
   0xef1f; 0xff3e; 0xcf5d; 0xdf7c; 0xaf9b; 0xbfba; 0x8fd9; 0x9ff8; 0x6e17; 0x7e36; 0x4e55; 0x5e74;
   0x2e93; 0x3eb2; 0x0ed1; 0x1ef0].

Definition crc_itu_t_byte (crc data : Z) : option Z := t ← aget crc_itu_t_table (Z.land (Z.lxor (Z.shiftr crc 8) data) 0xff); Some (u16 (Z.lxor (Z.shiftl crc 8) t)).
Fixpoint crc_itu_t (crc : Z) (buffer : list Z) {struct buffer} : option Z :=
  match buffer with [] => Some crc | c :: buffer => crc ← crc_itu_t_byte crc c; crc_itu_t crc buffer end.

(** ** Reversal of bits *)

Definition byte_rev_table : list Z := [
   0x00; 0x80; 0x40; 0xc0; 0x20; 0xa0; 0x60; 0xe0; 0x10; 0x90; 0x50; 0xd0; 0x30; 0xb0; 0x70; 0xf0;
   0x08; 0x88; 0x48; 0xc8; 0x28; 0xa8; 0x68; 0xe8; 0x18; 0x98; 0x58; 0xd8; 0x38; 0xb8; 0x78; 0xf8;
   0x04; 0x84; 0x44; 0xc4; 0x24; 0xa4; 0x64; 0xe4; 0x14; 0x94; 0x54; 0xd4; 0x34; 0xb4; 0x74; 0xf4;
   0x0c; 0x8c; 0x4c; 0xcc; 0x2c; 0xac; 0x6c; 0xec; 0x1c; 0x9c; 0x5c; 0xdc; 0x3c; 0xbc; 0x7c; 0xfc;
   0x02; 0x82; 0x42; 0xc2; 0x22; 0xa2; 0x62; 0xe2; 0x12; 0x92; 0x52; 0xd2; 0x32; 0xb2; 0x72; 0xf2;
   0x0a; 0x8a; 0x4a; 0xca; 0x2a; 0xaa; 0x6a; 0xea; 0x1a; 0x9a; 0x5a; 0xda; 0x3a; 0xba; 0x7a; 0xfa;
   0x06; 0x86; 0x46; 0xc6; 0x26; 0xa6; 0x66; 0xe6; 0x16; 0x96; 0x56; 0xd6; 0x36; 0xb6; 0x76; 0xf6;
   0x0e; 0x8e; 0x4e; 0xce; 0x2e; 0xae; 0x6e; 0xee; 0x1e; 0x9e; 0x5e; 0xde; 0x3e; 0xbe; 0x7e; 0xfe;
   0x01; 0x81; 0x41; 0xc1; 0x21; 0xa1; 0x61; 0xe1; 0x11; 0x91; 0x51; 0xd1; 0x31; 0xb1; 0x71; 0xf1;
   0x09; 0x89; 0x49; 0xc9; 0x29; 0xa9; 0x69; 0xe9; 0x19; 0x99; 0x59; 0xd9; 0x39; 0xb9; 0x79; 0xf9;
   0x05; 0x85; 0x45; 0xc5; 0x25; 0xa5; 0x65; 0xe5; 0x15; 0x95; 0x55; 0xd5; 0x35; 0xb5; 0x75; 0xf5;
   0x0d; 0x8d; 0x4d; 0xcd; 0x2d; 0xad; 0x6d; 0xed; 0x1d; 0x9d; 0x5d; 0xdd; 0x3d; 0xbd; 0x7d; 0xfd;
   0x03; 0x83; 0x43; 0xc3; 0x23; 0xa3; 0x63; 0xe3; 0x13; 0x93; 0x53; 0xd3; 0x33; 0xb3; 0x73; 0xf3;
   0x0b; 0x8b; 0x4b; 0xcb; 0x2b; 0xab; 0x6b; 0xeb; 0x1b; 0x9b; 0x5b; 0xdb; 0x3b; 0xbb; 0x7b; 0xfb;
   0x07; 0x87; 0x47; 0xc7; 0x27; 0xa7; 0x67; 0xe7; 0x17; 0x97; 0x57; 0xd7; 0x37; 0xb7; 0x77; 0xf7;
   0x0f; 0x8f; 0x4f; 0xcf; 0x2f; 0xaf; 0x6f; 0xef; 0x1f; 0x9f; 0x5f; 0xdf; 0x3f; 0xbf; 0x7f; 0xff].

Definition bitrev8 (byte : Z) : option Z := aget byte_rev_table byte.
Definition bitrev16 (x : Z) : option Z := a ← bitrev8 (Z.land x 0xff); b ← bitrev8 (Z.shiftr x 8); Some (Z.lor (Z.shiftl a 8) b).
Definition bitrev32 (x : Z) : option Z := a ← bitrev16 (Z.land x 0xffff); b ← bitrev16 (Z.shiftr x 16); Some (Z.lor (Z.shiftl a 16) b).

Definition ether_crc_le (b : Z) (data : list Z) : option Z := crc32_le b (2 ^ 32 - 1) data.
Definition ether_crc (b : Z) (data : list Z) : option Z := c ← crc32_le b (2 ^ 32 - 1) data; bitrev32 c.

End Crc.
