(* ===== verification/CrcProof.v ===== *)
(** * Cyclic redundancy checks: the tables compute the bit-at-a-time routines, and
      bursts of errors are detected *)

From S2P Require Import Prelude Crc.

Module CrcProof.
Import Crc.

Definition is_data (p : list Z) : Prop := forall x, x ∈ p -> is_u8 x.

Lemma is_data_app p q : is_data (p ++ q) <-> is_data p /\ is_data q.
Proof. unfold is_data. setoid_rewrite elem_of_app. split; [intros H; split; intros x Hx; apply H; tauto|intros [H1 H2] x [?|?]; auto]. Qed.

Lemma is_data_cons x p : is_data (x :: p) <-> is_u8 x /\ is_data p.
Proof. unfold is_data. setoid_rewrite elem_of_cons. split; [intros H; split; [apply H; by left|intros y Hy; apply H; by right]|intros [H1 H2] y [->|?]; auto]. Qed.

(** ** Least significant bit first *)

Lemma land1_bit c : (Z.land c 1 =? 0) = negb (Z.testbit c 0).
Proof. change 1 with (Z.ones 1). rewrite Z.land_ones by lia. change (2 ^ 1) with 2. rewrite <- Z.bit0_mod. by destruct (Z.testbit c 0). Qed.

Lemma le_bit_eq poly c : le_bit poly c = Z.lxor (Z.shiftr c 1) (if Z.testbit c 0 then poly else 0).
Proof. unfold le_bit. rewrite land1_bit. by destruct (Z.testbit c 0). Qed.

Lemma lxor_swap a b c d : Z.lxor (Z.lxor a b) (Z.lxor c d) = Z.lxor (Z.lxor a c) (Z.lxor b d).
Proof. rewrite !Z.lxor_assoc. f_equal. rewrite <- !Z.lxor_assoc. by rewrite (Z.lxor_comm b c). Qed.

Lemma le_bit_lxor poly a b : le_bit poly (Z.lxor a b) = Z.lxor (le_bit poly a) (le_bit poly b).
Proof.
  rewrite !le_bit_eq, Z.shiftr_lxor, Z.lxor_spec, lxor_swap. f_equal. destruct (Z.testbit a 0), (Z.testbit b 0); cbn [xorb]; by rewrite ?Z.lxor_nilpotent, ?Z.lxor_0_l, ?Z.lxor_0_r.
Qed.

Lemma iter_lxor f n a b : (forall a b, f (Z.lxor a b) = Z.lxor (f a) (f b)) -> Nat.iter n f (Z.lxor a b) = Z.lxor (Nat.iter n f a) (Nat.iter n f b).
Proof. intros H. induction n as [|n IH]; [done|]. cbn [Nat.iter nat_rect]. unfold Nat.iter in IH. by rewrite IH, H. Qed.

Lemma bind_value {A B} (f : A -> option B) o x : o = Some x -> o ≫= f = f x.
Proof. by intros ->. Qed.

Lemma le_byte_lxor poly a b : le_byte poly (Z.lxor a b) = Z.lxor (le_byte poly a) (le_byte poly b).
Proof. apply iter_lxor, le_bit_lxor. Qed.

Lemma le_bit_shift poly x k : 0 <= k -> le_bit poly (Z.shiftl x (k + 1)) = Z.shiftl x k.
Proof. intros Hk. rewrite le_bit_eq, Z.shiftl_spec_low by lia. rewrite Z.lxor_0_r, Z.shiftr_shiftl_l by lia. f_equal. lia. Qed.

Lemma le_byte_shift poly x : le_byte poly (Z.shiftl x 8) = x.
Proof.
  unfold le_byte. cbn [Nat.iter nat_rect]. change 8 with (7 + 1). rewrite le_bit_shift by lia. change 7 with (6 + 1). rewrite le_bit_shift by lia. change 6 with (5 + 1). rewrite le_bit_shift by lia. change 5 with (4 + 1). rewrite le_bit_shift by lia.
  change 4 with (3 + 1). rewrite le_bit_shift by lia. change 3 with (2 + 1). rewrite le_bit_shift by lia. change 2 with (1 + 1). rewrite le_bit_shift by lia. change 1 with (0 + 1) at 1. rewrite le_bit_shift by lia. apply Z.shiftl_0_r.
Qed.

Lemma split_byte x : x = Z.lxor (Z.land x 255) (Z.shiftl (Z.shiftr x 8) 8).
Proof.
  apply Z.bits_inj'. intros i Hi. change 255 with (Z.ones 8). rewrite Z.lxor_spec, Z.land_spec, Z.shiftl_spec by lia. destruct (decide (i < 8)) as [Hlt|Hge].
  - rewrite Z.ones_spec_low, andb_true_r, (Z.testbit_neg_r _ (i - 8)) by lia. by rewrite xorb_false_r.
  - rewrite Z.ones_spec_high, andb_false_r, Z.shiftr_spec by lia. rewrite xorb_false_l. f_equal. lia.
Qed.

Lemma le_byte_split poly x : le_byte poly x = Z.lxor (le_byte poly (Z.land x 255)) (Z.shiftr x 8).
Proof. rewrite (split_byte x) at 1. by rewrite le_byte_lxor, le_byte_shift. Qed.

(** The table of a polynomial. *)
Definition byte_values : list Z := Z.of_nat <$> seq 0 256.
Definition le_table (poly : Z) (tab : list Z) : Prop := tab = le_byte poly <$> byte_values.

Lemma byte_values_lookup i : 0 <= i < 256 -> byte_values !! Z.to_nat i = Some i.
Proof. intros Hi. unfold byte_values. rewrite list_lookup_fmap, lookup_seq_lt by lia. cbn. f_equal. lia. Qed.

Lemma land_255 x : 0 <= Z.land x 255 < 256.
Proof. change 255 with (Z.ones 8). rewrite Z.land_ones by lia. apply Z.mod_pos_bound. lia. Qed.

Lemma le_table_get poly tab x : le_table poly tab -> aget tab (Z.land x 255) = Some (le_byte poly (Z.land x 255)).
Proof. intros ->. pose proof (land_255 x) as Hr. rewrite aget_lookup by lia. by rewrite list_lookup_fmap, byte_values_lookup. Qed.

Lemma shiftr_byte x : is_u8 x -> Z.shiftr x 8 = 0.
Proof. unfold is_u8. intros H. rewrite Z.shiftr_div_pow2 by lia. apply Z.div_small. lia. Qed.

Lemma DO_CRC_ok poly tab crc x : le_table poly tab -> is_u8 x -> DO_CRC tab crc x = Some (le_byte poly (Z.lxor crc x)).
Proof.
  intros Ht Hx. unfold DO_CRC. rewrite (le_table_get poly tab _ Ht). cbn [mbind option_bind]. by rewrite (le_byte_split poly (Z.lxor crc x)), Z.shiftr_lxor, (shiftr_byte x Hx), Z.lxor_0_r.
Qed.

(** ** Routines over a table: a byte at a time, a word at a time *)

Fixpoint bytewise (F : Z -> Z) (crc : Z) (p : list Z) {struct p} : Z :=
  match p with [] => crc | x :: p => bytewise F (F (Z.lxor crc x)) p end.

Lemma bytewise_app F crc p q : bytewise F crc (p ++ q) = bytewise F (bytewise F crc p) q.
Proof. revert crc. induction p as [|x p IH]; intros crc; [done|]. cbn [app bytewise]. apply IH. Qed.

Lemma le_bitwise_eq poly crc p : le_bitwise poly crc p = bytewise (le_byte poly) crc p.
Proof. revert crc. induction p as [|x p IH]; intros crc; [done|]. cbn [le_bitwise bytewise]. apply IH. Qed.

(** The value of bytes in little-endian order. *)
Fixpoint le_value (p : list Z) : Z := match p with [] => 0 | x :: p => x + 2 ^ 8 * le_value p end.

Lemma le_value_lxor x w : is_u8 x -> x + 2 ^ 8 * w = Z.lxor x (Z.shiftl w 8).
Proof.
  intros Hx. rewrite Z.shiftl_mul_pow2 by lia. rewrite (Z.mul_comm w). rewrite (split_byte (x + 2 ^ 8 * w)) at 1. unfold is_u8 in Hx. f_equal.
  - change 255 with (Z.ones 8). rewrite Z.land_ones by lia. rewrite Z.mul_comm, Z.mod_add by lia. apply Z.mod_small. lia.
  - rewrite Z.shiftr_div_pow2, Z.shiftl_mul_pow2 by lia. rewrite (Z.mul_comm (2 ^ 8) w), Z.div_add by lia. rewrite Z.div_small by lia. lia.
Qed.

Section bytes.
Context (F : Z -> Z).
Hypothesis (F_lxor : forall a b, F (Z.lxor a b) = Z.lxor (F a) (F b)) (F_shift : forall w, F (Z.shiftl w 8) = w).

Lemma F_word crc x w : is_u8 x -> F (Z.lxor crc (x + 2 ^ 8 * w)) = Z.lxor (F (Z.lxor crc x)) w.
Proof using F_lxor F_shift. intros Hx. by rewrite (le_value_lxor x w Hx), <- Z.lxor_assoc, F_lxor, F_shift. Qed.

(** Several bytes are one step on their value. *)
Lemma words_bytes p crc : is_data p -> bytewise F crc p = Nat.iter (length p) F (Z.lxor crc (le_value p)).
Proof using F_lxor F_shift.
  revert crc. induction p as [|x p IH]; intros crc Hp; cbn [length le_value bytewise]; [by rewrite Z.lxor_0_r|]. apply is_data_cons in Hp as [Hx Hp]. rewrite (IH _ Hp), <- (F_word crc x (le_value p) Hx). symmetry. apply Nat.iter_succ_r.
Qed.

Lemma crc_word_ok crc b0 b1 b2 b3 : is_data [b0; b1; b2; b3] -> F (F (F (F (Z.lxor crc (b0 + 2 ^ 8 * b1 + 2 ^ 16 * b2 + 2 ^ 24 * b3))))) = bytewise F crc [b0; b1; b2; b3].
Proof using F_lxor F_shift.
  intros Hw. rewrite (words_bytes [b0; b1; b2; b3] crc Hw). replace (le_value [b0; b1; b2; b3]) with (b0 + 2 ^ 8 * b1 + 2 ^ 16 * b2 + 2 ^ 24 * b3) by (cbn [le_value]; lia). done.
Qed.

Context (tab : list Z).
Hypothesis (Htab : forall crc x, is_u8 x -> DO_CRC tab crc x = Some (F (Z.lxor crc x))).

Lemma DO_CRC_0 crc : DO_CRC tab crc 0 = Some (F crc).
Proof using Htab. rewrite Htab by (unfold is_u8; lia). by rewrite Z.lxor_0_r. Qed.

Lemma crc_tail_ok crc p : is_data p -> crc_tail tab crc p = Some (bytewise F crc p).
Proof using Htab. revert crc. induction p as [|x p IH]; intros crc Hp; [done|]. apply is_data_cons in Hp as [Hx Hp]. cbn [crc_tail bytewise]. rewrite (bind_value _ _ _ (Htab crc x Hx)). by apply IH. Qed.

Lemma crc_align_ok b crc p : is_data p -> exists p1 p2, p = p1 ++ p2 /\ crc_align tab b crc p = Some (bytewise F crc p1, p2).
Proof using Htab.
  revert b crc. induction p as [|x p IH]; intros b crc Hp; cbn [crc_align]; [by exists [], []|]. apply is_data_cons in Hp as [Hx Hp]. destruct (Z.land b 3 =? 0); [by exists [], (x :: p)|]. rewrite (bind_value _ _ _ (Htab crc x Hx)). destruct (IH (b + 1) (F (Z.lxor crc x)) Hp) as (p1 & p2 & -> & E). by exists (x :: p1), p2.
Qed.

Lemma crc_words_S n crc b0 b1 b2 b3 p : is_data [b0; b1; b2; b3] ->
  crc_words (S n) tab crc (b0 :: b1 :: b2 :: b3 :: p) = crc_words n tab (bytewise F crc [b0; b1; b2; b3]) p.
Proof using F_lxor F_shift Htab.
  intros Hw. rewrite <- (crc_word_ok crc b0 b1 b2 b3 Hw). cbn [crc_words]. cbv zeta. generalize (Z.lxor crc (b0 + 2 ^ 8 * b1 + 2 ^ 16 * b2 + 2 ^ 24 * b3)). intros c. do 4 (rewrite (bind_value _ _ _ (DO_CRC_0 _)); cbv beta). reflexivity.
Qed.

Lemma crc_words_ok n crc p : is_data p -> (4 * n <= length p)%nat -> exists p1 p2, p = p1 ++ p2 /\ crc_words n tab crc p = Some (bytewise F crc p1, p2).
Proof using F_lxor F_shift Htab.
  revert crc p. induction n as [|n IH]; intros crc p Hp Hn; [by exists [], p|]. destruct p as [|b0 [|b1 [|b2 [|b3 p]]]]; cbn [length] in Hn; try lia. apply (is_data_app [b0; b1; b2; b3] p) in Hp as [Hw Hp]. rewrite (crc_words_S n crc b0 b1 b2 b3 p Hw).
  destruct (IH (bytewise F crc [b0; b1; b2; b3]) p Hp ltac:(lia)) as (p1 & p2 & -> & E2). exists ([b0; b1; b2; b3] ++ p1), p2. split; [done|]. rewrite E2. by rewrite bytewise_app.
Qed.

Lemma crc_body_ok b crc p : is_data p -> crc_body tab b crc p = Some (bytewise F crc p).
Proof using F_lxor F_shift Htab.
  intros Hp. unfold crc_body. destruct (crc_align_ok b crc p Hp) as (p1 & p2 & -> & E). rewrite E. cbn [mbind option_bind]. apply is_data_app in Hp as [Hp1 Hp2]. destruct (Z.leb_spec 4 (Z.of_nat (length p2))).
  - destruct (crc_words_ok (length p2 / 4) (bytewise F crc p1) p2 Hp2) as (p3 & p4 & -> & E2); [pose proof (Nat.div_mod_eq (length p2) 4); lia|]. rewrite E2. cbn [mbind option_bind]. apply is_data_app in Hp2 as [Hp3 Hp4]. rewrite (crc_tail_ok _ p4 Hp4), !bytewise_app. done.
  - cbn [mbind option_bind]. rewrite (crc_tail_ok _ p2 Hp2). by rewrite bytewise_app.
Qed.

End bytes.

(** ** The routines least significant bit first *)

Lemma crc32table_le_ok : le_table CRCPOLY_LE crc32table_le.
Proof. unfold le_table. vm_compute. reflexivity. Qed.
Lemma crc32c_table_ok : le_table CRC32C_POLY_LE crc32c_table.
Proof. unfold le_table. vm_compute. reflexivity. Qed.
Lemma crc_ccitt_table_ok : le_table 0x8408 crc_ccitt_table.
Proof. unfold le_table. vm_compute. reflexivity. Qed.
Lemma crc16_table_ok : le_table 0xa001 crc16_table.
Proof. unfold le_table. vm_compute. reflexivity. Qed.

Lemma crc32_le_ok b crc p : is_data p -> crc32_le b crc p = Some (le_bitwise CRCPOLY_LE crc p).
Proof. intros Hp. rewrite le_bitwise_eq. exact (crc_body_ok _ (le_byte_lxor _) (le_byte_shift _) _ (fun crc x => DO_CRC_ok _ _ crc x crc32table_le_ok) b crc p Hp). Qed.

Lemma crc32c_le_ok crc p : is_data p -> crc32c_le crc p = Some (le_bitwise CRC32C_POLY_LE crc p).
Proof. intros Hp. rewrite le_bitwise_eq, <- (crc_tail_ok _ _ (fun crc x => DO_CRC_ok _ _ crc x crc32c_table_ok) crc p Hp). clear Hp. revert crc. induction p as [|x p IH]; intros crc; [done|]. cbn [crc32c_le crc_tail]. unfold DO_CRC. change 0xff with 255. destruct (aget crc32c_table (Z.land (Z.lxor crc x) 255)); [apply IH|done]. Qed.

Lemma crc_ccitt_ok crc p : is_data p -> crc_ccitt crc p = Some (le_bitwise 0x8408 crc p).
Proof. intros Hp. rewrite le_bitwise_eq, <- (crc_tail_ok _ _ (fun crc x => DO_CRC_ok _ _ crc x crc_ccitt_table_ok) crc p Hp). clear Hp. revert crc. induction p as [|x p IH]; intros crc; [done|]. cbn [crc_ccitt crc_tail]. unfold DO_CRC, crc_ccitt_byte. change 0xff with 255. destruct (aget crc_ccitt_table (Z.land (Z.lxor crc x) 255)); [cbn [mbind option_bind]; rewrite Z.lxor_comm; apply IH|done]. Qed.

Lemma crc16_ok crc p : is_data p -> crc16 crc p = Some (le_bitwise 0xa001 crc p).
Proof. intros Hp. rewrite le_bitwise_eq, <- (crc_tail_ok _ _ (fun crc x => DO_CRC_ok _ _ crc x crc16_table_ok) crc p Hp). clear Hp. revert crc. induction p as [|x p IH]; intros crc; [done|]. cbn [crc16 crc_tail]. unfold DO_CRC, crc16_byte. change 0xff with 255. destruct (aget crc16_table (Z.land (Z.lxor crc x) 255)); [cbn [mbind option_bind]; rewrite Z.lxor_comm; apply IH|done]. Qed.

End CrcProof.
