(* ===== verification/CrcBig.v ===== *)
(** * Cyclic redundancy checks, most significant bit first: the byte-swapped tables of
      [crc32_be], the table of [crc_itu_t], and the reversal of bits *)

From S2P Require Import Prelude Crc CrcProof.

Module CrcBig.
Import Crc CrcProof.

(** ** A register of [w] bits *)

Definition be_step (w poly c : Z) : Z := Z.lxor (Z.shiftl c 1 mod 2 ^ w) (if Z.testbit c (w - 1) then poly else 0).

Lemma mod_lxor w a b : 0 <= w -> Z.lxor a b mod 2 ^ w = Z.lxor (a mod 2 ^ w) (b mod 2 ^ w).
Proof. intros Hw. rewrite <- !Z.land_ones by done. apply Z.bits_inj'. intros i Hi. rewrite !Z.lxor_spec, !Z.land_spec, Z.lxor_spec. by destruct (Z.testbit a i), (Z.testbit b i), (Z.testbit (Z.ones w) i). Qed.

Lemma lxor_bound w a b : 0 <= w -> 0 <= a < 2 ^ w -> 0 <= b < 2 ^ w -> 0 <= Z.lxor a b < 2 ^ w.
Proof. intros Hw Ha Hb. rewrite <- (Z.mod_small a (2 ^ w) Ha), <- (Z.mod_small b (2 ^ w) Hb), <- mod_lxor by done. apply Z.mod_pos_bound. lia. Qed.

Lemma be_step_lxor w poly a b : 0 <= w -> be_step w poly (Z.lxor a b) = Z.lxor (be_step w poly a) (be_step w poly b).
Proof.
  intros Hw. unfold be_step. rewrite Z.shiftl_lxor, mod_lxor, Z.lxor_spec, lxor_swap by done. f_equal. destruct (Z.testbit a (w - 1)), (Z.testbit b (w - 1)); cbn [xorb]; by rewrite ?Z.lxor_nilpotent, ?Z.lxor_0_l, ?Z.lxor_0_r.
Qed.

Lemma be_step_range w poly c : 0 <= w -> 0 <= poly < 2 ^ w -> 0 <= be_step w poly c < 2 ^ w.
Proof. intros Hw Hp. unfold be_step. apply lxor_bound; [done|apply Z.mod_pos_bound; lia|destruct (Z.testbit c (w - 1)); lia]. Qed.

Lemma be_step_shift w poly lo k : 8 <= w -> 0 <= lo < 2 ^ (w - 8) -> 0 <= k < 8 -> be_step w poly (Z.shiftl lo k) = Z.shiftl lo (k + 1).
Proof.
  intros Hw Hlo Hk. assert (B : forall j, 0 <= j <= 8 -> 0 <= Z.shiftl lo j < 2 ^ (w - 8 + j)).
  { intros j Hj. rewrite Z.shiftl_mul_pow2, Z.pow_add_r by lia. assert (0 < 2 ^ j) by lia. nia. }
  unfold be_step. rewrite (testbit_high _ (w - 8 + k)) by (apply B || lia; lia). rewrite Z.lxor_0_r, Z.shiftl_shiftl by lia. apply Z.mod_small. pose proof (B (k + 1) ltac:(lia)). assert (2 ^ (w - 8 + (k + 1)) <= 2 ^ w) by (apply Z.pow_le_mono_r; lia). lia.
Qed.

Lemma be_iter_shift w poly lo n : 8 <= w -> 0 <= lo < 2 ^ (w - 8) -> (n <= 8)%nat -> Nat.iter n (be_step w poly) lo = Z.shiftl lo (Z.of_nat n).
Proof. intros Hw Hlo. induction n as [|n IH]; intros Hn; [by rewrite Z.shiftl_0_r|]. rewrite Nat.iter_succ, IH, be_step_shift by lia. f_equal. lia. Qed.

Lemma split_at w x : 0 <= w -> x = Z.lxor (Z.shiftl (Z.shiftr x w) w) (x mod 2 ^ w).
Proof.
  intros Hw. apply Z.bits_inj'. intros i Hi. rewrite <- Z.land_ones by done. rewrite Z.lxor_spec, Z.land_spec, Z.shiftl_spec by lia. destruct (decide (i < w)) as [Hlt|Hge].
  - rewrite Z.ones_spec_low, andb_true_r, (Z.testbit_neg_r _ (i - w)) by lia. by rewrite xorb_false_l.
  - rewrite Z.ones_spec_high, andb_false_r, Z.shiftr_spec by lia. rewrite xorb_false_r. f_equal. lia.
Qed.

Lemma be_iter_split w poly y : 8 <= w ->
  Nat.iter 8 (be_step w poly) y = Z.lxor (Nat.iter 8 (be_step w poly) (Z.shiftl (Z.shiftr y (w - 8)) (w - 8))) (Z.shiftl y 8 mod 2 ^ w).
Proof.
  intros Hw. rewrite (split_at (w - 8) y) at 1 by lia. rewrite iter_lxor by (intros; apply be_step_lxor; lia). f_equal. rewrite be_iter_shift by (try apply Z.mod_pos_bound; lia). change (Z.of_nat 8) with 8. rewrite !Z.shiftl_mul_pow2 by lia. replace (2 ^ w) with (2 ^ (w - 8) * 2 ^ 8) by (rewrite <- Z.pow_add_r by lia; f_equal; lia). symmetry. apply Z.mul_mod_distr_r; lia.
Qed.

Lemma be_bit_eq poly c : be_bit poly c = be_step 32 poly c.
Proof.
  unfold be_bit, be_step, u32. f_equal. change (32 - 1) with 31. destruct (Z.eqb_spec (Z.land c 0x80000000) 0) as [E|E]; destruct (Z.testbit c 31) eqn:T; try done.
  - apply (f_equal (fun z => Z.testbit z 31)) in E. rewrite Z.land_spec, T in E. discriminate.
  - destruct E. apply Z.bits_inj'. intros i Hi. change 0x80000000 with (2 ^ 31). rewrite Z.land_spec, Z.bits_0, Z.pow2_bits_eqb by lia. destruct (Z.eqb_spec 31 i) as [<-|]; [by rewrite T|apply andb_false_r].
Qed.

Lemma be_byte_eq poly c : be_byte poly c = Nat.iter 8 (be_step 32 poly) c.
Proof. unfold be_byte. cbn [Nat.iter nat_rect]. by rewrite !be_bit_eq. Qed.

(** ** [crc_itu_t] *)

Fixpoint be16_bitwise (poly crc : Z) (p : list Z) {struct p} : Z :=
  match p with [] => crc | x :: p => be16_bitwise poly (Nat.iter 8 (be_step 16 poly) (Z.lxor crc (Z.shiftl x 8))) p end.

Lemma crc_itu_t_table_ok : crc_itu_t_table = (fun i => Nat.iter 8 (be_step 16 0x1021) (Z.shiftl i 8)) <$> byte_values.
Proof. vm_compute. reflexivity. Qed.

Lemma crc_itu_t_byte_ok crc x : 0 <= crc < 2 ^ 16 -> is_u8 x -> crc_itu_t_byte crc x = Some (Nat.iter 8 (be_step 16 0x1021) (Z.lxor crc (Z.shiftl x 8))).
Proof.
  intros Hc Hx. unfold is_u8 in Hx. unfold crc_itu_t_byte. set (i := Z.lxor (Z.shiftr crc 8) x). assert (Hi : 0 <= i < 2 ^ 8) by (apply lxor_bound; [lia| |lia]; rewrite Z.shiftr_div_pow2 by lia; split; [apply Z.div_pos; lia|apply Z.div_lt_upper_bound; lia]).
  change 0xff with (Z.ones 8). rewrite Z.land_ones, (Z.mod_small i) by lia. assert (E : aget crc_itu_t_table i = Some (Nat.iter 8 (be_step 16 0x1021) (Z.shiftl i 8))).
  { rewrite aget_lookup by lia. rewrite crc_itu_t_table_ok, list_lookup_fmap, byte_values_lookup by lia. done. }
  rewrite (bind_value _ _ _ E). f_equal. rewrite (be_iter_split 16 _ (Z.lxor crc (Z.shiftl x 8))) by lia. change (16 - 8) with 8. rewrite Z.shiftr_lxor, Z.shiftr_shiftl_l, Z.sub_diag, Z.shiftl_0_r by lia. fold i. unfold u16. rewrite Z.lxor_comm, mod_lxor by lia. f_equal.
  - apply Z.mod_small. rewrite Nat.iter_succ. apply be_step_range; lia.
  - rewrite Z.shiftl_lxor, mod_lxor, Z.shiftl_shiftl by lia. rewrite (Z.shiftl_mul_pow2 x) by lia. change (8 + 8) with 16. rewrite Z.mod_mul, Z.lxor_0_r by lia. done.
Qed.

Lemma crc_itu_t_ok crc p : 0 <= crc < 2 ^ 16 -> is_data p -> crc_itu_t crc p = Some (be16_bitwise 0x1021 crc p).
Proof.
  revert crc. induction p as [|x p IH]; intros crc Hc Hp; [done|]. apply is_data_cons in Hp as [Hx Hp]. cbn [crc_itu_t be16_bitwise]. rewrite (bind_value _ _ _ (crc_itu_t_byte_ok crc x Hc Hx)). apply IH; [|done]. rewrite Nat.iter_succ. apply be_step_range; lia.
Qed.

(** ** Byte order *)

Lemma swab32_bit x i : 0 <= i < 32 -> Z.testbit (swab32 x) i = Z.testbit x (8 * (3 - i / 8) + i mod 8).
Proof.
  intros Hi. unfold swab32. rewrite !Z.lor_spec, !Z.shiftl_spec, !Z.shiftr_spec, !Z.land_spec by lia. rewrite <- (Z2Nat.id i) by lia. assert (Hn : (Z.to_nat i < 32)%nat) by lia. generalize dependent (Z.to_nat i). intros n Hn.
  do 32 (destruct n as [|n]; [cbn; by rewrite ?andb_false_r, ?andb_true_r, ?orb_false_r|]). lia.
Qed.

Lemma swab32_high x i : 32 <= i -> Z.testbit (swab32 x) i = false.
Proof.
  intros Hi. unfold swab32. rewrite !Z.lor_spec, !Z.shiftl_spec, !Z.shiftr_spec, !Z.land_spec by lia. rewrite (testbit_high 0xff 8), (testbit_high 0xff00 16), (testbit_high 0xff0000 24), (testbit_high 0xff000000 32) by lia. by rewrite !andb_false_r.
Qed.

Lemma swab32_inj_bits x y : (forall i, 0 <= i < 32 -> Z.testbit x i = Z.testbit y i) -> (forall i, 32 <= i -> Z.testbit x i = Z.testbit y i) -> x = y.
Proof. intros H1 H2. apply Z.bits_inj'. intros i Hi. destruct (decide (i < 32)); [apply H1|apply H2]; lia. Qed.

Lemma swab32_lxor a b : swab32 (Z.lxor a b) = Z.lxor (swab32 a) (swab32 b).
Proof. apply swab32_inj_bits; intros i Hi; rewrite Z.lxor_spec; [rewrite !swab32_bit by done; apply Z.lxor_spec|by rewrite !swab32_high]. Qed.

Lemma swab32_range x : is_u32 (swab32 x).
Proof. replace (swab32 x) with (u32 (swab32 x)); [apply u32_range|]. unfold u32. rewrite <- Z.land_ones by lia. apply swab32_inj_bits; intros i Hi; rewrite Z.land_spec; [rewrite Z.ones_spec_low by lia; apply andb_true_r|by rewrite swab32_high]. Qed.

Lemma swab_index i : 0 <= i < 32 -> 0 <= 8 * (3 - i / 8) + i mod 8 < 32 /\ (8 * (3 - i / 8) + i mod 8) / 8 = 3 - i / 8 /\ (8 * (3 - i / 8) + i mod 8) mod 8 = i mod 8.
Proof. intros Hi. pose proof (Z.div_mod i 8 ltac:(lia)). pose proof (Z.mod_pos_bound i 8 ltac:(lia)). repeat split; try lia. - symmetry. apply (Z.div_unique _ 8 _ (i mod 8)); lia. - symmetry. apply (Z.mod_unique _ 8 (3 - i / 8)); lia. Qed.

Lemma swab32_swab32 x : is_u32 x -> swab32 (swab32 x) = x.
Proof.
  intros Hx. apply swab32_inj_bits; intros i Hi; [|rewrite swab32_high by done; symmetry; by apply (testbit_high x 32)]. destruct (swab_index i Hi) as (H1 & H2 & H3). rewrite !swab32_bit, H2, H3 by done. f_equal. pose proof (Z.div_mod i 8 ltac:(lia)). lia.
Qed.

Lemma swab32_shiftl c : swab32 (u32 (Z.shiftl c 8)) = Z.shiftr (swab32 c) 8.
Proof.
  unfold u32. rewrite <- Z.land_ones by lia. apply swab32_inj_bits; intros i Hi; rewrite Z.shiftr_spec by lia; [|by rewrite !swab32_high by lia]. destruct (swab_index i Hi) as (H1 & H2 & H3). rewrite swab32_bit, Z.land_spec, Z.ones_spec_low, andb_true_r, Z.shiftl_spec by lia. destruct (decide (i < 24)) as [Hlt|Hge].
  - rewrite swab32_bit by lia. f_equal. replace (i + 8) with (i + 1 * 8) by lia. rewrite Z.div_add, Z.mod_add by lia. lia.
  - rewrite swab32_high by lia. apply Z.testbit_neg_r. pose proof (Z.div_mod i 8 ltac:(lia)). pose proof (Z.mod_pos_bound i 8 ltac:(lia)). lia.
Qed.

Lemma swab32_low c : is_u32 c -> Z.land (swab32 c) 255 = Z.shiftr c 24.
Proof.
  intros Hc. apply Z.bits_inj'. intros i Hi. change 255 with (Z.ones 8). rewrite Z.land_spec, Z.shiftr_spec by done. destruct (decide (i < 8)) as [Hlt|Hge].
  - rewrite Z.ones_spec_low, andb_true_r, swab32_bit by lia. f_equal. rewrite Z.div_small, Z.mod_small by lia. lia.
  - rewrite Z.ones_spec_high, andb_false_r by lia. symmetry. apply (testbit_high c 32); [done|lia].
Qed.

Lemma swab32_byte x : is_u8 x -> swab32 x = Z.shiftl x 24.
Proof.
  intros Hx. assert (is_u32 x) as Hx2 by (unfold is_u8, is_u32 in *; lia). assert (is_u32 (Z.shiftl x 24)) as Hs by (unfold is_u8, is_u32 in *; rewrite Z.shiftl_mul_pow2 by lia; lia). rewrite <- (swab32_swab32 (Z.shiftl x 24) Hs). f_equal. pose proof (swab32_low _ Hs) as E. rewrite Z.shiftr_shiftl_l, Z.sub_diag, Z.shiftl_0_r in E by lia. pose proof (split_byte (swab32 (Z.shiftl x 24))) as E2. rewrite <- (swab32_shiftl (Z.shiftl x 24)) in E2. replace (u32 (Z.shiftl (Z.shiftl x 24) 8)) with 0 in E2; [rewrite E in E2; change (swab32 0) with 0 in E2; by rewrite Z.shiftl_0_l, Z.lxor_0_r in E2|]. unfold u32. rewrite Z.shiftl_shiftl, (Z.shiftl_mul_pow2 x) by lia. by rewrite Z.mod_mul.
Qed.

(** ** [crc32_be] *)

Lemma crc32table_be_ok : crc32table_be = (fun i => swab32 (be_byte CRCPOLY_BE (Z.shiftl i 24))) <$> byte_values.
Proof. vm_compute. reflexivity. Qed.

(** The step on the byte-swapped register. *)
Definition be_swapped (s : Z) : Z := Z.lxor (swab32 (be_byte CRCPOLY_BE (Z.shiftl (Z.land s 255) 24))) (Z.shiftr s 8).

Lemma be_byte_lxor poly a b : be_byte poly (Z.lxor a b) = Z.lxor (be_byte poly a) (be_byte poly b).
Proof. rewrite !be_byte_eq. apply iter_lxor. intros. by apply be_step_lxor. Qed.

Lemma land_lxor_l a b c : Z.land (Z.lxor a b) c = Z.lxor (Z.land a c) (Z.land b c).
Proof. apply Z.bits_inj'. intros i Hi. rewrite !Z.land_spec, !Z.lxor_spec, !Z.land_spec. by destruct (Z.testbit a i), (Z.testbit b i), (Z.testbit c i). Qed.

Lemma be_swapped_lxor a b : be_swapped (Z.lxor a b) = Z.lxor (be_swapped a) (be_swapped b).
Proof. unfold be_swapped. rewrite land_lxor_l, Z.shiftl_lxor, be_byte_lxor, swab32_lxor, Z.shiftr_lxor. apply lxor_swap. Qed.

Lemma be_swapped_shift w : be_swapped (Z.shiftl w 8) = w.
Proof. unfold be_swapped. change 255 with (Z.ones 8). rewrite Z.land_ones, Z.shiftr_shiftl_l, Z.sub_diag, Z.shiftl_0_r, (Z.shiftl_mul_pow2 w 8), Z.mod_mul by lia. change (swab32 _) with 0. apply Z.lxor_0_l. Qed.

Lemma DO_CRC_be crc x : is_u8 x -> DO_CRC crc32table_be crc x = Some (be_swapped (Z.lxor crc x)).
Proof.
  intros Hx. unfold DO_CRC, be_swapped. pose proof (land_255 (Z.lxor crc x)) as Hr. assert (E : aget crc32table_be (Z.land (Z.lxor crc x) 255) = Some (swab32 (be_byte CRCPOLY_BE (Z.shiftl (Z.land (Z.lxor crc x) 255) 24)))).
  { rewrite aget_lookup by lia. rewrite crc32table_be_ok, list_lookup_fmap, byte_values_lookup by lia. done. }
  rewrite (bind_value _ _ _ E). by rewrite Z.shiftr_lxor, (shiftr_byte x Hx), Z.lxor_0_r.
Qed.

Lemma be_swapped_ok c : is_u32 c -> be_swapped (swab32 c) = swab32 (be_byte CRCPOLY_BE c).
Proof. intros Hc. unfold be_swapped. rewrite (swab32_low c Hc), <- swab32_shiftl, <- swab32_lxor. f_equal. rewrite !be_byte_eq. symmetry. apply (be_iter_split 32). lia. Qed.

Lemma be_byte_range c : is_u32 (be_byte CRCPOLY_BE c).
Proof. rewrite be_byte_eq, Nat.iter_succ. apply be_step_range; [lia|]. unfold CRCPOLY_BE. lia. Qed.

Lemma be_bitwise_swapped crc p : is_u32 crc -> is_data p -> bytewise be_swapped (swab32 crc) p = swab32 (be_bitwise CRCPOLY_BE crc p) /\ is_u32 (be_bitwise CRCPOLY_BE crc p).
Proof.
  revert crc. induction p as [|x p IH]; intros crc Hc Hp; [done|]. apply is_data_cons in Hp as [Hx Hp]. cbn [bytewise be_bitwise]. assert (is_u32 (Z.lxor crc (Z.shiftl x 24))) as Hy.
  { apply (lxor_bound 32); [lia|done|]. rewrite <- (swab32_byte x Hx). apply swab32_range. }
  replace (be_swapped (Z.lxor (swab32 crc) x)) with (swab32 (be_byte CRCPOLY_BE (Z.lxor crc (Z.shiftl x 24)))); [exact (IH _ (be_byte_range _) Hp)|].
  rewrite <- be_swapped_ok, swab32_lxor, <- (swab32_byte x Hx), (swab32_swab32 x) by (done || unfold is_u8, is_u32 in *; lia). done.
Qed.

Lemma crc32_be_ok b crc p : is_u32 crc -> is_data p -> crc32_be b crc p = Some (be_bitwise CRCPOLY_BE crc p).
Proof.
  intros Hc Hp. unfold crc32_be. rewrite (bind_value _ _ _ (crc_body_ok _ be_swapped_lxor be_swapped_shift _ DO_CRC_be b (swab32 crc) p Hp)). destruct (be_bitwise_swapped crc p Hc Hp) as [-> Hr]. by rewrite (swab32_swab32 _ Hr).
Qed.

End CrcBig.
