(* ===== verification/CrcTheorems.v ===== *)
(** * Cyclic redundancy checks: the theorems

    The table-driven routines equal the bit-at-a-time ones; a burst of errors no longer
    than the register changes the check; a message followed by its check has check 0;
    [bitrev32] reverses the bits. *)

From S2P Require Import Prelude CipherBase Crc CrcProof CrcBig.

Module CrcTheorems.
Import CipherBase Crc CrcProof CrcBig.

(** ** Bursts *)

Lemma le_value_bound p : is_data p -> 0 <= le_value p < 2 ^ (8 * Z.of_nat (length p)).
Proof.
  induction p as [|x p IH]; intros Hp; [done|]. apply is_data_cons in Hp as [Hx Hp]. specialize (IH Hp). unfold is_u8 in Hx. cbn [le_value length]. replace (8 * Z.of_nat (S (length p))) with (8 + 8 * Z.of_nat (length p)) by lia. rewrite Z.pow_add_r by lia. lia.
Qed.

Lemma le_value_inj p q : is_data p -> is_data q -> length p = length q -> le_value p = le_value q -> p = q.
Proof.
  revert q. induction p as [|x p IH]; intros [|y q] Hp Hq Hl E; try done. apply is_data_cons in Hp as [Hx Hp], Hq as [Hy Hq]. cbn [le_value length] in *. unfold is_u8 in *. assert (x = y) as -> by (apply (f_equal (fun z => z mod 2 ^ 8)) in E; rewrite !(Z.mul_comm (2 ^ 8)), !Z.mod_add, !Z.mod_small in E by lia; done). f_equal. apply IH; [done|done|lia|lia].
Qed.

Section burst.
Context (F : Z -> Z) (w : Z).
Hypothesis (F_lxor : forall a b, F (Z.lxor a b) = Z.lxor (F a) (F b)) (F_shift : forall v, F (Z.shiftl v 8) = v).
Hypothesis (Hw : 8 <= w) (F_range : forall d, 0 <= d < 2 ^ w -> 0 <= F d < 2 ^ w) (F_zero : forall d, 0 <= d < 2 ^ w -> F d = 0 -> d = 0).

Lemma F_iter_range n d : 0 <= d < 2 ^ w -> 0 <= Nat.iter n F d < 2 ^ w.
Proof using F_range. intros Hd. induction n as [|n IH]; [done|]. rewrite Nat.iter_succ. by apply F_range. Qed.

Lemma F_iter_zero n d : 0 <= d < 2 ^ w -> Nat.iter n F d = 0 -> d = 0.
Proof using F_range F_zero. intros Hd. induction n as [|n IH]; [done|]. rewrite Nat.iter_succ. intros E. apply IH, F_zero; [by apply F_iter_range|done]. Qed.

Lemma F_iter_inj n a b : 0 <= a < 2 ^ w -> 0 <= b < 2 ^ w -> Nat.iter n F a = Nat.iter n F b -> a = b.
Proof using F_lxor F_range F_zero Hw. intros Ha Hb E. apply Z.lxor_eq, (F_iter_zero n); [apply lxor_bound; lia|]. by rewrite iter_lxor, E, Z.lxor_nilpotent. Qed.

Lemma data_bound x : is_u8 x -> 0 <= x < 2 ^ w.
Proof using Hw. unfold is_u8. intros Hx. assert (2 ^ 8 <= 2 ^ w) by (apply Z.pow_le_mono_r; lia). lia. Qed.

Lemma bytewise_range crc p : is_data p -> 0 <= crc < 2 ^ w -> 0 <= bytewise F crc p < 2 ^ w.
Proof using F_range Hw. revert crc. induction p as [|x p IH]; intros crc Hp Hc; [done|]. apply is_data_cons in Hp as [Hx Hp]. apply IH; [done|]. apply F_range, lxor_bound; [lia|done|by apply data_bound]. Qed.

Lemma lxor_cancel x y z : Z.lxor x z = Z.lxor y z -> x = y.
Proof. intros E. apply (f_equal (fun c => Z.lxor c z)) in E. by rewrite !lxor_cancel_r in E. Qed.

Lemma bytewise_inj a b p : is_data p -> 0 <= a < 2 ^ w -> 0 <= b < 2 ^ w -> bytewise F a p = bytewise F b p -> a = b.
Proof using F_lxor F_range F_zero Hw.
  revert a b. induction p as [|x p IH]; intros a b Hp Ha Hb E; [done|]. apply is_data_cons in Hp as [Hx Hp]. cbn [bytewise] in E. pose proof (data_bound x Hx) as Hxw. pose proof (lxor_bound w a x ltac:(lia) Ha Hxw). pose proof (lxor_bound w b x ltac:(lia) Hb Hxw). apply (lxor_cancel _ _ x), (F_iter_inj 1); [done|done|]. apply IH in E; auto.
Qed.

Lemma burst_detected crc u x y v : is_data (u ++ x ++ v) -> is_data y -> 0 <= crc < 2 ^ w -> length x = length y -> 8 * Z.of_nat (length x) <= w -> x <> y ->
  bytewise F crc (u ++ x ++ v) <> bytewise F crc (u ++ y ++ v).
Proof using F_lxor F_range F_shift F_zero Hw.
  intros Hd Hy Hc Hl Hle Hne E. apply is_data_app in Hd as [Hu Hd]. apply is_data_app in Hd as [Hx Hv]. rewrite !bytewise_app in E. pose proof (bytewise_range crc u Hu Hc) as Hcu. apply bytewise_inj in E; [|done|by apply bytewise_range..]. rewrite (words_bytes F F_lxor F_shift x), (words_bytes F F_lxor F_shift y) in E by done. rewrite <- Hl in E.
  assert (B : forall z, is_data z -> length z = length x -> 0 <= le_value z < 2 ^ w). { intros z Hz Ez. pose proof (le_value_bound z Hz). assert (2 ^ (8 * Z.of_nat (length z)) <= 2 ^ w) by (apply Z.pow_le_mono_r; lia). lia. }
  apply F_iter_inj in E; [|apply lxor_bound; [lia|done|by apply B]..]. rewrite !(Z.lxor_comm (bytewise F crc u)) in E. apply Hne, le_value_inj; [done|done|done|exact (lxor_cancel _ _ _ E)].
Qed.

(** A message followed by its check. *)
Lemma residue crc p c : is_data p -> is_data c -> le_value c = bytewise F crc p -> bytewise F crc (p ++ c) = 0.
Proof using F_lxor F_shift.
  intros Hp Hc E. rewrite bytewise_app, (words_bytes F F_lxor F_shift c), <- E, Z.lxor_nilpotent by done. assert (F 0 = 0) as F0 by (rewrite <- (Z.lxor_nilpotent 0), F_lxor; apply Z.lxor_nilpotent). induction (length c) as [|n IH]; [done|]. by rewrite Nat.iter_succ, IH.
Qed.
End burst.

(** ** The steps are injective *)

Lemma le_bit_range w poly d : 0 <= w -> 0 <= poly < 2 ^ w -> 0 <= d < 2 ^ w -> 0 <= le_bit poly d < 2 ^ w.
Proof.
  intros Hw Hp Hd. rewrite le_bit_eq. apply lxor_bound; [done| |destruct (Z.testbit d 0); lia]. rewrite Z.shiftr_div_pow2 by lia. change (2 ^ 1) with 2. split; [apply Z.div_pos; lia|]. apply Z.div_lt_upper_bound; lia.
Qed.

Lemma le_bit_zero w poly d : 1 <= w -> 2 ^ (w - 1) <= poly -> 0 <= d < 2 ^ w -> le_bit poly d = 0 -> d = 0.
Proof.
  intros Hw Hp Hd. rewrite le_bit_eq. intros E. apply Z.lxor_eq in E. rewrite Z.shiftr_div_pow2 in E by lia. change (2 ^ 1) with 2 in E. pose proof (Z.div_mod d 2 ltac:(lia)) as D. rewrite <- Z.bit0_mod in D. replace w with (1 + (w - 1)) in Hd by lia. rewrite Z.pow_add_r in Hd by lia. change (2 ^ 1) with 2 in Hd.
  destruct (Z.testbit d 0); cbn [Z.b2z] in D; lia.
Qed.

Lemma le_byte_range w poly d : 0 <= w -> 0 <= poly < 2 ^ w -> 0 <= d < 2 ^ w -> 0 <= le_byte poly d < 2 ^ w.
Proof. intros Hw Hp Hd. unfold le_byte. apply F_iter_range; [intros; by apply le_bit_range|done]. Qed.

Lemma le_byte_zero w poly d : 1 <= w -> 2 ^ (w - 1) <= poly < 2 ^ w -> 0 <= d < 2 ^ w -> le_byte poly d = 0 -> d = 0.
Proof. intros Hw Hp Hd. apply (F_iter_zero (le_bit poly) w); [intros; apply le_bit_range; lia|intros d' Hd'; apply (le_bit_zero w); lia|done]. Qed.

Lemma be_step_zero w poly d : 1 <= w -> Z.testbit poly 0 = true -> 0 <= d < 2 ^ w -> be_step w poly d = 0 -> d = 0.
Proof.
  intros Hw Hp Hd. unfold be_step. intros E. apply Z.lxor_eq in E. rewrite Z.shiftl_mul_pow2 in E by lia. change (2 ^ 1) with 2 in E. destruct (Z.testbit d (w - 1)) eqn:T.
  - rewrite <- E, Z.mod_pow2_bits_low in Hp by lia. change 2 with (2 ^ 1) in Hp. by rewrite Z.mul_pow2_bits_low in Hp by lia.
  - assert (d < 2 ^ (w - 1)) as Hlt.
    { apply Z.lt_nge. intros Hge. replace w with (1 + (w - 1)) in Hd by lia. rewrite Z.pow_add_r in Hd by lia. change (2 ^ 1) with 2 in Hd. assert (Z.log2 d = w - 1) as L by (apply Z.log2_unique; [lia|]; replace (Z.succ (w - 1)) with (1 + (w - 1)) by lia; rewrite Z.pow_add_r by lia; lia). pose proof (Z.bit_log2 d). rewrite L, T in *. assert (0 < 2 ^ (w - 1)) by lia. intuition (lia || done). }
    rewrite Z.mod_small in E; [lia|]. replace w with (1 + (w - 1)) by lia. rewrite Z.pow_add_r by lia. lia.
Qed.

Lemma le_burst w poly crc u x y v : 8 <= w -> 2 ^ (w - 1) <= poly < 2 ^ w -> is_data (u ++ x ++ v) -> is_data y -> 0 <= crc < 2 ^ w -> length x = length y -> 8 * Z.of_nat (length x) <= w -> x <> y ->
  le_bitwise poly crc (u ++ x ++ v) <> le_bitwise poly crc (u ++ y ++ v).
Proof.
  intros Hw Hp. rewrite !le_bitwise_eq. apply burst_detected; [apply le_byte_lxor|apply le_byte_shift|done|intros; apply le_byte_range; lia|intros d Hd; apply (le_byte_zero w); lia].
Qed.

(** ** Registers that shift left *)

(** The value of bytes in big-endian order. *)
Fixpoint be_value (p : list Z) : Z := match p with [] => 0 | x :: p => x * 2 ^ (8 * Z.of_nat (length p)) + be_value p end.

Lemma be_value_bound p : is_data p -> 0 <= be_value p < 2 ^ (8 * Z.of_nat (length p)).
Proof.
  induction p as [|x p IH]; intros Hp; [done|]. apply is_data_cons in Hp as [Hx Hp]. specialize (IH Hp). unfold is_u8 in Hx. cbn [be_value length]. replace (8 * Z.of_nat (S (length p))) with (8 + 8 * Z.of_nat (length p)) by lia. rewrite Z.pow_add_r by lia. nia.
Qed.

Lemma be_value_inj p q : is_data p -> is_data q -> length p = length q -> be_value p = be_value q -> p = q.
Proof.
  revert q. induction p as [|x p IH]; intros [|y q] Hp Hq Hl E; try done. apply is_data_cons in Hp as [Hx Hp], Hq as [Hy Hq]. cbn [be_value length] in *. injection Hl as Hl. pose proof (be_value_bound p Hp). pose proof (be_value_bound q Hq). rewrite <- Hl in *. assert (x = y) as -> by nia. f_equal. apply IH; [done|done|done|lia].
Qed.

Section be_register.
Context (w poly : Z) (Hw : 8 <= w) (Hpoly : 0 <= poly < 2 ^ w) (Hodd : Z.testbit poly 0 = true).

Definition be_register (c : Z) : Z := Nat.iter 8 (be_step w poly) c.
Fixpoint be_run (crc : Z) (p : list Z) {struct p} : Z :=
  match p with [] => crc | x :: p => be_run (be_register (Z.lxor crc (Z.shiftl x (w - 8)))) p end.

Lemma be_register_lxor a b : be_register (Z.lxor a b) = Z.lxor (be_register a) (be_register b).
Proof using Hw. apply iter_lxor. intros. apply be_step_lxor. lia. Qed.
Lemma be_register_range d : 0 <= d < 2 ^ w -> 0 <= be_register d < 2 ^ w.
Proof using Hpoly Hw. intros Hd. apply F_iter_range; [intros; apply be_step_range; lia|done]. Qed.
Lemma be_register_zero d : 0 <= d < 2 ^ w -> be_register d = 0 -> d = 0.
Proof using Hodd Hpoly Hw. apply (F_iter_zero (be_step w poly) w); [intros; apply be_step_range; lia|intros d' Hd'; apply be_step_zero; [lia|done|done]]. Qed.

Lemma byte_top x : is_u8 x -> 0 <= Z.shiftl x (w - 8) < 2 ^ w.
Proof using Hw. unfold is_u8. intros Hx. rewrite Z.shiftl_mul_pow2 by lia. replace w with (8 + (w - 8)) at 3 by lia. rewrite Z.pow_add_r by lia. nia. Qed.

Lemma be_run_app crc p q : be_run crc (p ++ q) = be_run (be_run crc p) q.
Proof. revert crc. induction p as [|x p IH]; intros crc; [done|]. apply IH. Qed.

Lemma be_run_range crc p : is_data p -> 0 <= crc < 2 ^ w -> 0 <= be_run crc p < 2 ^ w.
Proof using Hpoly Hw. revert crc. induction p as [|x p IH]; intros crc Hp Hc; [done|]. apply is_data_cons in Hp as [Hx Hp]. apply IH; [done|]. apply be_register_range, lxor_bound; [lia|done|by apply byte_top]. Qed.

Lemma be_iter_inj n a b : 0 <= a < 2 ^ w -> 0 <= b < 2 ^ w -> Nat.iter n be_register a = Nat.iter n be_register b -> a = b.
Proof using Hodd Hpoly Hw. apply (F_iter_inj be_register w); [apply be_register_lxor|done|apply be_register_range|apply be_register_zero]. Qed.

Lemma be_run_inj a b p : is_data p -> 0 <= a < 2 ^ w -> 0 <= b < 2 ^ w -> be_run a p = be_run b p -> a = b.
Proof using Hodd Hpoly Hw.
  revert a b. induction p as [|x p IH]; intros a b Hp Ha Hb E; [done|]. apply is_data_cons in Hp as [Hx Hp]. pose proof (byte_top x Hx) as Hxw. pose proof (lxor_bound w a _ ltac:(lia) Ha Hxw). pose proof (lxor_bound w b _ ltac:(lia) Hb Hxw). apply (lxor_cancel _ _ (Z.shiftl x (w - 8))), (be_iter_inj 1); [done|done|]. apply IH in E; auto using be_register_range.
Qed.

(** The bytes at the top of the register. *)
Definition top (z : list Z) : Z := be_value z * 2 ^ (w - 8 * Z.of_nat (length z)).

Lemma top_bound z : is_data z -> 8 * Z.of_nat (length z) <= w -> 0 <= top z < 2 ^ w.
Proof using Hw. intros Hz Hl. pose proof (be_value_bound z Hz). unfold top. replace (2 ^ w) with (2 ^ (8 * Z.of_nat (length z)) * 2 ^ (w - 8 * Z.of_nat (length z))) by (rewrite <- Z.pow_add_r by lia; f_equal; lia). nia. Qed.

(** What follows a first byte, moved down by it. *)
Lemma top_cons x z : is_data (x :: z) -> 8 * Z.of_nat (length (x :: z)) <= w ->
  exists lo, 0 <= lo < 2 ^ (w - 8) /\ top z = Z.shiftl lo 8 /\ top (x :: z) = Z.lxor (Z.shiftl x (w - 8)) lo.
Proof using Hw.
  intros Hz Hl. apply is_data_cons in Hz as [Hx Hz]. unfold is_u8 in Hx. cbn [length] in Hl. pose proof (be_value_bound z Hz) as Hb. set (k := 8 * Z.of_nat (length z)) in *. assert (0 <= k <= w - 8) as Hk by lia. exists (be_value z * 2 ^ (w - 8 - k)). assert (2 ^ (w - 8) = 2 ^ k * 2 ^ (w - 8 - k)) as E1 by (rewrite <- Z.pow_add_r by lia; f_equal; lia). assert (0 < 2 ^ (w - 8 - k)) by lia.
  assert (0 <= be_value z * 2 ^ (w - 8 - k) < 2 ^ (w - 8)) as Hlo by (rewrite E1; nia). split; [done|]. split.
  - unfold top. fold k. rewrite Z.shiftl_mul_pow2, <- Z.mul_assoc, <- Z.pow_add_r by lia. do 2 f_equal. lia.
  - unfold top. cbn [be_value length]. fold k. replace (w - 8 * Z.of_nat (S (length z))) with (w - 8 - k) by lia. set (lo := be_value z * 2 ^ (w - 8 - k)) in *. replace ((x * 2 ^ k + be_value z) * 2 ^ (w - 8 - k)) with (x * 2 ^ (w - 8) + lo) by (rewrite E1; unfold lo; ring).
    rewrite (split_at (w - 8) (x * 2 ^ (w - 8) + lo)) by lia. f_equal; [|rewrite Z.add_comm, Z.mod_add by lia; by apply Z.mod_small]. f_equal. rewrite Z.shiftr_div_pow2, Z.div_add_l by lia. rewrite Z.div_small by done. lia.
Qed.

Lemma be_run_word crc z : is_data z -> 8 * Z.of_nat (length z) <= w -> be_run crc z = Nat.iter (length z) be_register (Z.lxor crc (top z)).
Proof using Hw.
  revert crc. induction z as [|x z IH]; intros crc Hz Hl; [unfold top; cbn [be_value be_run length Nat.iter nat_rect]; by rewrite Z.mul_0_l, Z.lxor_0_r|]. destruct (top_cons x z Hz Hl) as (lo & Hlo & E1 & ->). apply is_data_cons in Hz as [_ Hz]. cbn [be_run length] in *. rewrite IH by (done || lia). rewrite Nat.iter_succ_r. f_equal. rewrite <- Z.lxor_assoc, (be_register_lxor _ lo). f_equal. rewrite E1. symmetry. unfold be_register. by rewrite be_iter_shift by lia.
Qed.

Lemma be_run_burst crc u x y v : is_data (u ++ x ++ v) -> is_data y -> 0 <= crc < 2 ^ w -> length x = length y -> 8 * Z.of_nat (length x) <= w -> x <> y -> be_run crc (u ++ x ++ v) <> be_run crc (u ++ y ++ v).
Proof using Hodd Hpoly Hw.
  intros Hd Hy Hc Hl Hle Hne E. apply is_data_app in Hd as [Hu Hd]. apply is_data_app in Hd as [Hx Hv]. rewrite !be_run_app in E. pose proof (be_run_range crc u Hu Hc) as Hcu. apply be_run_inj in E; [|done|by apply be_run_range..]. rewrite (be_run_word _ x), (be_run_word _ y), <- Hl in E by (done || lia).
  apply be_iter_inj in E; [|apply lxor_bound; [lia|done|apply top_bound; [done|lia]]..]. rewrite !(Z.lxor_comm (be_run crc u)) in E. apply lxor_cancel in E. unfold top in E. rewrite <- Hl in E. apply Z.mul_reg_r in E; [|lia]. by apply Hne, be_value_inj.
Qed.

Lemma be_run_residue crc p z : is_data p -> is_data z -> 8 * Z.of_nat (length z) = w -> be_value z = be_run crc p -> be_run crc (p ++ z) = 0.
Proof using Hw.
  intros Hp Hz Hl E. rewrite be_run_app, be_run_word by (done || lia). unfold top. rewrite Hl, Z.sub_diag, Z.mul_1_r, E, Z.lxor_nilpotent. pose proof (be_register_lxor 0 0) as F0. rewrite !Z.lxor_nilpotent in F0. clear Hl E. induction (length z) as [|n IH]; [done|]. by rewrite Nat.iter_succ, IH.
Qed.
End be_register.

Lemma be_bitwise_run poly crc p : be_bitwise poly crc p = be_run 32 poly crc p.
Proof. revert crc. induction p as [|x p IH]; intros crc; [done|]. cbn [be_bitwise be_run]. rewrite IH, be_byte_eq. unfold be_register. change (32 - 8) with 24. reflexivity. Qed.

Lemma be16_bitwise_run poly crc p : be16_bitwise poly crc p = be_run 16 poly crc p.
Proof. revert crc. induction p as [|x p IH]; intros crc; [done|]. cbn [be16_bitwise be_run]. rewrite IH. unfold be_register. change (16 - 8) with 8. reflexivity. Qed.

(** ** The bytes of a check *)

(** The bytes of a 16-bit check. *)
Definition le16_bytes (c : Z) : list Z := [Z.land c 0xff; Z.land (Z.shiftr c 8) 0xff].
Definition be16_bytes (c : Z) : list Z := [Z.land (Z.shiftr c 8) 0xff; Z.land c 0xff].

Lemma byte_at c k : 0 <= k -> Z.land (Z.shiftr c k) 0xff = c / 2 ^ k mod 2 ^ 8.
Proof. intros Hk. change 0xff with (Z.ones 8). by rewrite Z.land_ones, Z.shiftr_div_pow2 by lia. Qed.

Lemma digit c k : 0 <= k -> c / 2 ^ k = c / 2 ^ k mod 2 ^ 8 + 2 ^ 8 * (c / 2 ^ (k + 8)).
Proof. intros Hk. rewrite Z.pow_add_r, <- Z.div_div by lia. pose proof (Z.div_mod (c / 2 ^ k) (2 ^ 8) ltac:(lia)). lia. Qed.

Lemma byte_0 c : Z.land c 0xff = c / 2 ^ 0 mod 2 ^ 8.
Proof. by rewrite <- byte_at, Z.shiftr_0_r by lia. Qed.

Lemma bytes_16 c : 0 <= c < 2 ^ 16 -> le_value (le16_bytes c) = c /\ be_value (be16_bytes c) = c.
Proof.
  intros Hc. unfold le16_bytes, be16_bytes. cbn [le_value be_value length]. rewrite byte_0, !byte_at by lia. pose proof (digit c 0 ltac:(lia)) as D0. pose proof (digit c 8 ltac:(lia)) as D1. change (0 + 8) with 8 in D0. rewrite (Z.div_small c (2 ^ (8 + 8))) in D1 by done. change (2 ^ 0) with 1 in *. rewrite Z.div_1_r in *. change (8 * Z.of_nat 1) with 8. change (8 * Z.of_nat 0) with 0. lia.
Qed.

Lemma bytes_32 c : is_u32 c -> le_value (le32_bytes c) = c /\ be_value (be32_bytes c) = c.
Proof.
  intros Hc. unfold is_u32 in Hc. unfold le32_bytes, be32_bytes. cbn [le_value be_value length]. rewrite byte_0, !byte_at by lia. pose proof (digit c 0 ltac:(lia)) as D0. pose proof (digit c 8 ltac:(lia)) as D1. pose proof (digit c 16 ltac:(lia)) as D2. pose proof (digit c 24 ltac:(lia)) as D3. change (0 + 8) with 8 in D0. change (8 + 8) with 16 in D1. change (16 + 8) with 24 in D2. rewrite (Z.div_small c (2 ^ (24 + 8))) in D3 by done. change (2 ^ 0) with 1 in *. rewrite Z.div_1_r in *. change (8 * Z.of_nat 3) with 24. change (8 * Z.of_nat 2) with 16. change (8 * Z.of_nat 1) with 8. change (8 * Z.of_nat 0) with 0. lia.
Qed.

Lemma byte_data x : is_u8 (Z.land x 0xff).
Proof. apply land_255. Qed.

Lemma check_data c : is_data (le16_bytes c) /\ is_data (be16_bytes c) /\ is_data (le32_bytes c) /\ is_data (be32_bytes c).
Proof. unfold le16_bytes, be16_bytes, le32_bytes, be32_bytes. split_and!; repeat (apply is_data_cons; split; [apply byte_data|]); intros x Hx; by apply elem_of_nil in Hx. Qed.

(** A routine that computes a check, and the bytes of its result. *)
Lemma le_residue w poly crc p (f : list Z -> option Z) (enc : Z -> list Z) : (forall p, is_data p -> f p = Some (le_bitwise poly crc p)) ->
  8 <= w -> 0 <= poly < 2 ^ w -> 0 <= crc < 2 ^ w -> is_data p -> (forall c, is_data (enc c)) -> (forall c, 0 <= c < 2 ^ w -> le_value (enc c) = c) ->
  exists c, f p = Some c /\ f (p ++ enc c) = Some 0.
Proof.
  intros Hf Hw Hpoly Hc Hp Hd He. exists (le_bitwise poly crc p). split; [by apply Hf|]. rewrite Hf by (apply is_data_app; split; [done|apply Hd]). f_equal. rewrite !le_bitwise_eq. apply residue; [apply le_byte_lxor|apply le_byte_shift|done|apply Hd|].
  apply He, (bytewise_range _ w); [done|intros; apply le_byte_range; lia|done|done].
Qed.

Lemma be_residue w poly crc p (f : list Z -> option Z) (enc : Z -> list Z) : (forall p, is_data p -> f p = Some (be_run w poly crc p)) ->
  8 <= w -> 0 <= poly < 2 ^ w -> 0 <= crc < 2 ^ w -> is_data p -> (forall c, is_data (enc c)) -> (forall c, 8 * Z.of_nat (length (enc c)) = w) -> (forall c, 0 <= c < 2 ^ w -> be_value (enc c) = c) ->
  exists c, f p = Some c /\ f (p ++ enc c) = Some 0.
Proof.
  intros Hf Hw Hpoly Hc Hp Hd Hl He. exists (be_run w poly crc p). split; [by apply Hf|]. rewrite Hf by (apply is_data_app; split; [done|apply Hd]). f_equal. apply be_run_residue; [done|done|apply Hd|apply Hl|]. by apply He, be_run_range.
Qed.

(** ** The reversal of bits *)

Definition reversed (w x r : Z) : Prop := 0 <= r < 2 ^ w /\ forall i, 0 <= i < w -> Z.testbit r i = Z.testbit x (w - 1 - i).

Lemma byte_rev_table_ok : forallb (fun x => match bitrev8 x with Some r => (0 <=? r) && (r <? 2 ^ 8) && forallb (fun i => eqb (Z.testbit r i) (Z.testbit x (7 - i))) [0; 1; 2; 3; 4; 5; 6; 7] | None => false end) byte_values = true.
Proof. vm_compute. reflexivity. Qed.

Lemma bitrev8_ok x : is_u8 x -> exists r, bitrev8 x = Some r /\ reversed 8 x r.
Proof.
  intros Hx. unfold is_u8 in Hx. pose proof byte_rev_table_ok as T. rewrite forallb_forall in T. specialize (T x). destruct (bitrev8 x) as [r|].
  - apply andb_prop in T as [T1 T2]; [|apply list_elem_of_In, (list_elem_of_lookup_2 _ (Z.to_nat x)), byte_values_lookup; lia]. apply andb_prop in T1 as [T1 T3]. apply Z.leb_le in T1. apply Z.ltb_lt in T3. exists r. split; [done|]. split; [lia|]. intros i Hi. rewrite forallb_forall in T2. apply eqb_prop, T2. assert (i = 0 \/ i = 1 \/ i = 2 \/ i = 3 \/ i = 4 \/ i = 5 \/ i = 6 \/ i = 7) as D by lia. cbn. naive_solver.
  - discriminate T. apply list_elem_of_In, (list_elem_of_lookup_2 _ (Z.to_nat x)), byte_values_lookup. lia.
Qed.

(** Two reversed halves, swapped. *)
Lemma reversed_halves w x a b : 0 < w -> 0 <= x < 2 ^ (2 * w) -> reversed w (x mod 2 ^ w) a -> reversed w (Z.shiftr x w) b -> reversed (2 * w) x (Z.lor (Z.shiftl a w) b).
Proof.
  intros Hw Hx [Ha Ra] [Hb Rb]. assert (E : Z.lor (Z.shiftl a w) b = a * 2 ^ w + b).
  { rewrite <- Z.lxor_lor, <- Z.add_nocarry_lxor; [by rewrite Z.shiftl_mul_pow2 by lia| |]; apply Z.bits_inj'; intros i Hi; rewrite Z.land_spec, Z.bits_0, Z.shiftl_spec by lia; (destruct (decide (i < w)); [by rewrite Z.testbit_neg_r by lia|by rewrite (testbit_high b w), andb_false_r by lia]). }
  split; [rewrite E; replace (2 * w) with (w + w) by lia; rewrite Z.pow_add_r by lia; nia|]. intros i Hi. rewrite Z.lor_spec, Z.shiftl_spec by lia. destruct (decide (i < w)) as [Hlt|Hge].
  - rewrite (Z.testbit_neg_r a), orb_false_l, Rb, Z.shiftr_spec by lia. f_equal. lia.
  - rewrite (testbit_high b w), orb_false_r, Ra, Z.mod_pow2_bits_low by lia. f_equal. lia.
Qed.

Lemma bitrev16_ok x : 0 <= x < 2 ^ 16 -> exists r, bitrev16 x = Some r /\ reversed 16 x r.
Proof.
  intros Hx. unfold bitrev16. change 0xff with (Z.ones 8). rewrite Z.land_ones by lia. destruct (bitrev8_ok (x mod 2 ^ 8)) as (a & Ea & Ra); [apply Z.mod_pos_bound; lia|]. destruct (bitrev8_ok (Z.shiftr x 8)) as (b & Eb & Rb); [unfold is_u8; rewrite Z.shiftr_div_pow2 by lia; split; [apply Z.div_pos; lia|apply Z.div_lt_upper_bound; lia]|].
  rewrite (bind_value _ _ _ Ea), (bind_value _ _ _ Eb). eexists. split; [done|]. by apply (reversed_halves 8).
Qed.

Lemma bitrev32_ok x : is_u32 x -> exists r, bitrev32 x = Some r /\ reversed 32 x r.
Proof.
  intros Hx. unfold is_u32 in Hx. unfold bitrev32. change 0xffff with (Z.ones 16). rewrite Z.land_ones by lia. destruct (bitrev16_ok (x mod 2 ^ 16)) as (a & Ea & Ra); [apply Z.mod_pos_bound; lia|]. destruct (bitrev16_ok (Z.shiftr x 16)) as (b & Eb & Rb); [rewrite Z.shiftr_div_pow2 by lia; split; [apply Z.div_pos; lia|apply Z.div_lt_upper_bound; lia]|].
  rewrite (bind_value _ _ _ Ea), (bind_value _ _ _ Eb). eexists. split; [done|]. by apply (reversed_halves 16).
Qed.

(** ** Theorems *)

(** C21: for every seed, every data and every alignment of the data, the routines that
    use tables of 256 entries (a byte or, in [crc32.c], an aligned word at a time; the
    big-endian one on a byte-swapped register) compute what the definitions that
    process one bit at a time compute, with the generator polynomials the files name;
    in particular the generated and the printed tables have the right entries and no
    access is outside them. [ether_crc] is the little-endian check with its 32 bits
    reversed. *)
Theorem crc_tables_correct b crc p : is_u32 crc -> is_data p ->
  crc32_le b crc p = Some (le_bitwise CRCPOLY_LE crc p) /\
  crc32_be b crc p = Some (be_bitwise CRCPOLY_BE crc p) /\
  crc32c_le crc p = Some (le_bitwise CRC32C_POLY_LE crc p) /\
  (crc < 2 ^ 16 -> crc_ccitt crc p = Some (le_bitwise 0x8408 crc p) /\ crc16 crc p = Some (le_bitwise 0xa001 crc p) /\ crc_itu_t crc p = Some (be16_bitwise 0x1021 crc p)) /\
  (exists r, ether_crc b p = Some r /\ reversed 32 (le_bitwise CRCPOLY_LE (2 ^ 32 - 1) p) r).
Proof.
  intros Hc Hp. split_and!; [by apply crc32_le_ok|by apply crc32_be_ok|by apply crc32c_le_ok| |].
  - intros Hs. split_and!; [by apply crc_ccitt_ok|by apply crc16_ok|]. apply crc_itu_t_ok; [unfold is_u32 in Hc; lia|done].
  - unfold ether_crc. rewrite (bind_value _ _ _ (crc32_le_ok b _ p Hp)). apply bitrev32_ok. rewrite le_bitwise_eq. apply (bytewise_range _ 32); [lia|intros; apply le_byte_range; unfold CRCPOLY_LE; lia|done|lia].
Qed.

(** The two calls return, and their results differ. *)
Definition differ (o1 o2 : option Z) : Prop := exists c1 c2, o1 = Some c1 /\ o2 = Some c2 /\ c1 <> c2.

(** C22: two messages that differ only inside four consecutive bytes have different
    32-bit checks (CRC-32 in both bit orders and CRC-32C in both), at any place of the
    message and for any seed; inside two bytes, different 16-bit checks (CRC-CCITT, CRC-16
    and CRC ITU-T).  A message followed by the bytes of its check has check 0, for each
    of these checks: the bytes in little-endian order for the checks that take the
    least significant bit first, in big-endian order for the others. *)
Theorem crc_detects_bursts b crc : is_u32 crc ->
  (forall u x y v, is_data (u ++ x ++ v) -> is_data y -> length x = length y -> (length x <= 4)%nat -> x <> y ->
    differ (crc32_le b crc (u ++ x ++ v)) (crc32_le b crc (u ++ y ++ v)) /\
    differ (crc32_be b crc (u ++ x ++ v)) (crc32_be b crc (u ++ y ++ v)) /\
    differ (crc32c_le crc (u ++ x ++ v)) (crc32c_le crc (u ++ y ++ v)) /\
    crc32c_be crc (u ++ x ++ v) <> crc32c_be crc (u ++ y ++ v) /\
    ((length x <= 2)%nat -> crc < 2 ^ 16 ->
      differ (crc_ccitt crc (u ++ x ++ v)) (crc_ccitt crc (u ++ y ++ v)) /\
      differ (crc16 crc (u ++ x ++ v)) (crc16 crc (u ++ y ++ v)) /\
      differ (crc_itu_t crc (u ++ x ++ v)) (crc_itu_t crc (u ++ y ++ v)))) /\
  (forall p, is_data p ->
    (exists c, crc32_le b crc p = Some c /\ crc32_le b crc (p ++ le32_bytes c) = Some 0) /\
    (exists c, crc32_be b crc p = Some c /\ crc32_be b crc (p ++ be32_bytes c) = Some 0) /\
    (exists c, crc32c_le crc p = Some c /\ crc32c_le crc (p ++ le32_bytes c) = Some 0) /\
    crc32c_be crc (p ++ be32_bytes (crc32c_be crc p)) = 0 /\
    (crc < 2 ^ 16 ->
      (exists c, crc_ccitt crc p = Some c /\ crc_ccitt crc (p ++ le16_bytes c) = Some 0) /\
      (exists c, crc16 crc p = Some c /\ crc16 crc (p ++ le16_bytes c) = Some 0) /\
      (exists c, crc_itu_t crc p = Some c /\ crc_itu_t crc (p ++ be16_bytes c) = Some 0))).
Proof.
  intros Hc. assert (0 <= crc) by (unfold is_u32 in Hc; lia). split.
  - intros u x y v Hd Hy Hl Hle Hne. assert (is_data (u ++ y ++ v)) as Hd2 by (rewrite !is_data_app in *; tauto). split_and!; [| | | |intros H2 Hs; split_and!].
    1-3, 5-7: do 2 eexists.
    + split_and!; [by apply crc32_le_ok..|]. apply (le_burst 32); try done; unfold CRCPOLY_LE; lia.
    + split_and!; [by apply crc32_be_ok..|]. rewrite !be_bitwise_run. apply be_run_burst; try done; unfold CRCPOLY_BE; lia.
    + split_and!; [by apply crc32c_le_ok..|]. apply (le_burst 32); try done; unfold CRC32C_POLY_LE; lia.
    + split_and!; [by apply crc_ccitt_ok..|]. apply (le_burst 16); try done; lia.
    + split_and!; [by apply crc16_ok..|]. apply (le_burst 16); try done; lia.
    + split_and!; [by apply crc_itu_t_ok..|]. rewrite !be16_bitwise_run. apply be_run_burst; try done; lia.
    + unfold crc32c_be. rewrite !be_bitwise_run. apply be_run_burst; try done; unfold CRC32C_POLY_BE; lia.
  - intros p Hp. split_and!; [| | | |intros Hs; split_and!].
    + apply (le_residue 32 _ _ _ _ le32_bytes (fun p => crc32_le_ok b crc p)); [lia|unfold CRCPOLY_LE; lia|done|done|apply check_data|apply bytes_32].
    + apply (be_residue 32 CRCPOLY_BE crc p _ be32_bytes (fun p Hp => ltac:(rewrite <- be_bitwise_run; by apply crc32_be_ok))); [lia|unfold CRCPOLY_BE; lia|done|done|apply check_data|done|apply bytes_32].
    + apply (le_residue 32 _ _ _ _ le32_bytes (crc32c_le_ok crc)); [lia|unfold CRC32C_POLY_LE; lia|done|done|apply check_data|apply bytes_32].
    + unfold crc32c_be. rewrite !be_bitwise_run. apply be_run_residue; [lia|done|apply check_data|done|]. apply bytes_32, be_run_range; [lia|unfold CRC32C_POLY_BE; lia|done|done].
    + apply (le_residue 16 _ _ _ _ le16_bytes (crc_ccitt_ok crc)); [lia|lia|lia|done|apply check_data|apply bytes_16].
    + apply (le_residue 16 _ _ _ _ le16_bytes (crc16_ok crc)); [lia|lia|lia|done|apply check_data|apply bytes_16].
    + apply (be_residue 16 0x1021 crc p _ be16_bytes (fun p Hp => ltac:(rewrite <- be16_bitwise_run; by apply crc_itu_t_ok))); [lia|lia|lia|done|apply check_data|done|apply bytes_16].
Qed.

(** ** Witnesses *)

Lemma crc_tables_correct_witness : crc32_le 1 (2 ^ 32 - 1) [49; 50; 51; 52; 53; 54; 55; 56; 57] = Some 0x340bc6d9.
Proof.
  assert (Hd : is_data [49; 50; 51; 52; 53; 54; 55; 56; 57]) by (intros x; rewrite !elem_of_cons, elem_of_nil; unfold is_u8; lia). rewrite (proj1 (crc_tables_correct 1 (2 ^ 32 - 1) _ ltac:(unfold is_u32; lia) Hd)). reflexivity.
Defined.

Lemma crc_detects_bursts_witness : differ (crc32_le 2 0 [1; 2; 3; 4; 5; 6]) (crc32_le 2 0 [1; 9; 3; 4; 8; 6]).
Proof.
  assert (Hd : is_data ([1] ++ [2; 3; 4; 5] ++ [6])) by (intros x; cbn [app]; rewrite !elem_of_cons, elem_of_nil; unfold is_u8; lia). assert (Hy : is_data [9; 3; 4; 8]) by (intros x; rewrite !elem_of_cons, elem_of_nil; unfold is_u8; lia).
  destruct (crc_detects_bursts 2 0 ltac:(unfold is_u32; lia)) as [H _]. exact (proj1 (H [1] [2; 3; 4; 5] [9; 3; 4; 8] [6] Hd Hy ltac:(reflexivity) ltac:(cbn; lia) ltac:(discriminate))).
Defined.

End CrcTheorems.
